(* ===== verification/_CoqProject ===== *)
-Q . S2P
Prelude.v
HIDTypes.v
HIDNextItem.v
PoolAlloc.v
HIDCount.v
HIDParse.v
HIDOpenClose.v
HIDParseInv.v
HIDNesting.v
HIDLayout.v
HIDOpenSafe.v
HIDBits.v
HIDUsage.v
HIDValues.v
HIDButtons.v
HIDButtonsSpec.v
HIDReport.v
HIDCaps.v
HIDCapsSpec.v
Bytes.v
DNSTypes.v
DNSName.v
DNSText.v
DNSService.v
DNSSuffix.v
DNSRandom.v
DNSWireGet.v
DNSWirePut.v
DNSRecord.v
DNSRecordSpec.v
DNSMessage.v
DNSMessageGet.v
DNSMessageSpec.v
MDNSTypes.v
MDNSCache.v
MDNSQuestion.v
MDNSAnswer.v
MDNSReceive.v
MDNSList.v
MDNSInv.v
MDNSPool.v
MDNSRecycle.v
MDNSGet.v
MDNSQInv.v
MDNSStart.v
MDNSStop.v
MDNSClient.v
MDNSVolatile.v
MDNSWalk.v
MDNSExpire.v
MDNSCreate.v
MDNSPacket.v
MDNSInit.v
MDNSNew.v
MDNSSpec.v
MDNSFlush.v
MDNSReceiveSpec.v
MDNSResponse.v
MDNSTimes.v
