(* ===== verification/Prelude.v ===== *)
(** * Verified models of the HID parser of IOHIDFamily and of mDNSResponder's core

    ** What is verified

    The repository is the PureDarwin source distribution.  Its sources are a
    collection of independent Darwin programs; this development verifies
    three cores of two of them, C code that handles data an outsider controls.

    The HID report-descriptor parser of IOHIDFamily,
    [src/source/apple/IOHIDFamily/IOHIDSystem/IOHIDDescriptorParser], is the
    kernel library that turns the report descriptor a USB device sends into
    tables ("preparsed data") and then reads, writes and describes the
    device's reports through them.  What makes it correct is that no
    descriptor and no report makes it access memory it does not own, that the
    tables mean what the HID specification says, and that values written to a
    report are read back.

    The DNS library of mDNSResponder,
    [src/source/apple/mDNSResponder/mDNSCore/DNSCommon.c], is what the
    Multicast DNS responder uses to handle domain names, resource records and
    messages: comparing, printing and parsing names, building messages with
    name compression, and reading packets from the network.  What makes it
    correct is that reading terminates inside the packet whatever it holds,
    that what is written is what is read, and that the comparisons, hashes
    and length computations agree with the labels a name stands for.

    The searcher of mDNSResponder, in
    [src/source/apple/mDNSResponder/mDNSCore/mDNS.c], keeps a cache of the
    records seen on the network and the list of the questions its clients
    ask, and tells the clients when answers come and go.  The clients'
    callbacks may start and stop questions while the lists are being walked.
    What makes it correct is that no sequence of packets, expiries and client
    calls makes it use memory that was given back (it does in one case, which
    is proved), that the cache finds what was entered, and that records are
    refreshed before they expire.

    ** The parts of the HID library and the files that model them

    - [Prelude]: the C semantics the model uses (this file).  A function is a
      Rocq function into [outcome]: [Ret] is a return, [Fault] the point where
      the C program leaves defined behaviour.  32-bit conversions [u32],
      [s32], [u8]; bounds-checked arrays [aget], [aset]; struct update
      [r <| f := v |>]; the total-correctness triple [safe].
    - [HIDTypes]: constants and structs of [HIDPriv.h], [HIDLib.h] and
      [IOHIDDescriptorParser.h]; a sample mouse descriptor.
    - [HIDNextItem]: the lexer [HIDNextItem.c] and the loop both passes run
      around it, with a reference lexer [lex].
    - [PoolAlloc]: [PoolAlloc.c].  [IOMalloc] and [IOFree] belong to the
      kernel: they are the class [KernelAlloc] with the laws
      [KernelAllocLaws] (a new block is fresh, a freed block is gone), and
      [gmap_alloc] is an instance.  The kernel may refuse a block; the code
      then clears memory at the null pointer.
    - [HIDCount]: the first pass [HIDCountDescriptorItems.c], which counts
      items and carves one allocated pool into the tables.  Its reference
      ([acceptable], [room_for], [room_bytes]) counts over the list of items.
    - [HIDParse]: the second pass [HIDParseDescriptor.c] and its handlers
      [HIDProcessMainItem.c], [HIDProcessCollection.c],
      [HIDProcessReportItem.c], [HIDProcessGlobalItem.c],
      [HIDProcessLocalItem.c].
    - [HIDOpenClose]: [HIDOpenCloseDescriptor.c].  The preparsed data lives
      in a block of its own: reading it through a reference after the block
      was given back is the fault [Dangling].
    - [HIDParseInv], [HIDNesting], [HIDLayout], [HIDOpenSafe]: what the two
      passes establish together.
    - [HIDBits]: [HIDGetData.c] and [HIDPutData.c], and the interface
      [FieldStore] the value accessors are verified against.
    - [HIDUsage]: [HIDUsageInRange.c], [HIDHasUsage.c],
      [HIDUsageAndPageFromIndex.c], [HIDIsButtonOrValue.c].
    - [HIDValues]: [HIDCheckReport.c], [HIDPostProcessRIValue.c],
      [HIDScaleUsageValue.c], [HIDGetUsageValue.c], [HIDSetUsageValue.c],
      [HIDSetScaledUsageValue.c], [HIDGetUsageValueArray.c],
      [HIDSetUsageValueArray.c].
    - [HIDButtons], [HIDButtonsSpec]: [HIDGetButtons.c],
      [HIDGetButtonsOnPage.c], [HIDSetButtons.c],
      [HIDUsageListDifference.c], [HIDMaxUsageListLength.c].
    - [HIDReport]: [HIDGetReportLength.c], [HIDInitReport.c].
    - [HIDCaps], [HIDCapsSpec]: [HIDGetCaps.c], [HIDGetCollectionNodes.c],
      [HIDGetNextButtonInfo.c], [HIDGetNextUsageValueInfo.c],
      [HIDGetButtonCaps.c], [HIDGetValueCaps.c].

    ** The parts of the DNS library and the files that model them

    - [Bytes]: buffers; [holds l p bs] (the bytes [bs] stand in [l] at [p]),
      [write l p bs], copy loops, big-endian words.
    - [DNSTypes]: the limits and character classes; the reference view of a
      name as its list of labels ([encode], [name_ok], [is_name]).
    - [DNSName]: [SameDomainName] to [AppendDomainName] and
      [DomainNameHashValue].
    - [DNSText]: names as escaped text, both directions.
    - [DNSService]: host labels and service names.
    - [DNSSuffix]: the numbers appended to a name after a conflict.
    - [DNSRandom]: [mDNSRandom], [mDNSRandomFromFixedSeed].
    - [DNSWireGet]: [skipDomainName], [getDomainName], and two inductive
      relations: [rfc_name] is name compression as RFC 1035 has it, [decodes]
      the rules the code follows, which ask for less of a pointer.
    - [DNSWirePut]: [FindCompressionPointer], [putDomainNameAsLabels].
    - [DNSRecord], [DNSRecordSpec]: hashing, comparing, measuring and
      validating rdata, matching records with questions.
    - [DNSMessage]: every function that puts a question, record, zone,
      prerequisite, deletion or lease into a message, and every function that
      skips, locates or reads them.
    - [DNSMessageGet]: reading is safe on every packet.
    - [DNSMessageSpec]: what is put is what is read.

    The names of a message refer to its earlier bytes, so the files build on
    each other: a compression target found by [FindCompressionPointer]
    decodes, by the rules [getDomainName] is proved to follow, to the name
    that was searched ([stable_name]), in every message that goes on from
    there ([name_at]); questions and records are stated with [name_at].

    ** The parts of the searcher and the files that model them

    - [MDNSTypes]: [DNSQuestion], [CacheRecord], [CacheGroup], [CacheEntity]
      and the [mDNS] object of [mDNSEmbeddedAPI.h]; memory as finite maps
      from addresses; the class [Platform] of what lies outside (clock,
      random numbers, allocation, client callbacks).
    - [MDNSCache]: [CacheGroupForName], [SetNextCacheCheckTime],
      [mDNS_Reconfirm_internal], [ReconfirmAntecedents], [GetCacheEntity],
      [GetCacheGroup], [GetCacheRecord] and the release functions,
      [mDNS_GrowCache], [mDNS_Lock], [mDNS_Unlock], [mDNS_Init].
    - [MDNSQuestion]: [mDNS_StartQuery_internal], [mDNS_StopQuery_internal],
      [UpdateQuestionDuplicates], keys, duplicate suppression.
    - [MDNSAnswer]: [AnswerCurrentQuestionWithResourceRecord] and the walks
      over the questions ([CacheRecordAdd], [CacheRecordRmv],
      [NoCacheAnswer]...), [CheckCacheExpiration], [AnswerNewQuestion],
      [CreateNewCacheEntry], and steps 3 and 4 of [mDNS_Execute].
    - [MDNSReceive]: [mDNSCoreReceiveResponse], which reads the records of a
      packet with [GetLargeResourceRecord] of [DNSMessage], looks each up in
      the cache, refreshes it, marks it for deletion or enters it with
      [CreateNewCacheEntry], keeps a list of those with the cache-flush bit,
      flushes the older records of their sets, and makes negative entries.
    - [MDNSList], [MDNSInv], [MDNSPool], [MDNSRecycle], [MDNSGet]: list
      segments in a finite map, the invariant [cache_wf] of the cache, and
      that taking, recycling and releasing entities keep it.
    - [MDNSQInv], [MDNSStart], [MDNSStop]: the invariant [inv] of the
      questions and of the references between records and questions, kept by
      starting and stopping a question.
    - [MDNSClient]: what a callback can do to a walk in progress, and the
      contract [ClientOk] of the clients: a question that is started has the
      memory of a question ([call_ok]), and a callback that starts the
      question it was called for again, at the same address, stops none after
      that ([well_behaved]).
    - [MDNSVolatile], [MDNSWalk], [MDNSExpire], [MDNSCreate], [MDNSNew]:
      changes that leave the structure alone, the walks, expiry, entering a
      record, answering new questions.
    - [MDNSInit], [MDNSSpec]: start-up, the searcher as a machine of
      operations with its theorems.
    - [MDNSPacket], [MDNSFlush], [MDNSReceiveSpec], [MDNSResponse]: what a
      record read from a packet satisfies, the list of records to flush
      ([flushing E l]: the links are those of the list [l]), the update of
      the cache, a whole response.
    - [MDNSTimes]: the times of records.

    The interfaces are classes: [PlatformOk] is what the searcher relies on
    in its platform, [ClientOk] in its clients.  A callback is a function to
    a list of calls, which run through the same [mDNS_StartQuery] and
    [mDNS_StopQuery] as any client's, in the middle of the walk; a pointer to
    a question the client has taken back is then dangling, and using it is
    the fault [Dangling].

    ** How code and model correspond

    A C function keeps its name.  A parameter the code compares with [NULL]
    is an [option]; a pointer that is written through appears in the result
    as the new contents of what it points at, and a cell or local that has
    not been written yet is [None].  The arrays of the pool are lists of
    cells, every access checked, so "no [Fault]" is memory safety.  Reading
    an uninitialised local is [Fault Uninit], a shift by the operand's width
    or more [Fault BadShift], freeing a block with the wrong size
    [Fault BadFree].  Integers are [Z]; the conversions are written where the
    C program converts or where a result can leave its type, at the widths of
    i386 (ILP32, little endian).  Signed overflow is given
    the wrap-around the i386 instructions have.  A loop is a structural recursion over its
    trip count, the two item loops have fuel [descriptorLength + 1]
    ([item_loop_run] shows it is enough, since every item consumes a byte),
    and the byte loops of [HIDGetData] and [HIDPutData] have fuel for the
    bytes of the field.  Null-pointer tests of functions that are only called
    with addresses of locals are left out, and so are the unused [reserved]
    members of the structs.

    In the DNS files a pointer into a buffer is an offset, a pointer to a name
    the memory from there on ([ptr_add]), and a [NULL] result [None].  The
    rdata of a record is a C union of packed structs and is modelled as its
    bytes, a member at its offset, machine words in little-endian order.
    Loops over names have the length of the buffer as fuel; following
    compression pointers has fuel 512, enough since each turn stores two
    bytes of a name of at most 255 or follows a pointer to a byte that is not
    one ([get_measure]); the rejection loop of the random numbers takes its
    fuel as an argument, and [random_delivered] shows that some amount
    suffices.  [mDNSPlatformOneSecond], the platform's random seed and the
    random step of [IncrementLabelSuffix] are arguments.

    In the searcher's files a pointer is an address, 0 is [NULL], and the
    pointers to pointers the list code uses are a type of their own
    ([rr_loc], [cg_loc], [q_loc]).  A record's name is read through the group
    that owns it.  The build modelled is the one without wide-area DNS
    ([UNICAST_DISABLED]); wide-area branches of the modelled functions are
    the fault [WideArea], which the theorems exclude.  A walk over a list has
    as fuel one more than the number of cells ([list_fuel], [q_fuel]), enough
    for a list without cycles, which the invariants give; [NoCacheAnswer]
    walks a list that callbacks may extend for ever and takes as an argument
    the number of turns for questions started meanwhile, on top of [q_fuel];
    it is proved to return when no question is started and no CNAME followed,
    and [alias_endless] shows the loop of a CNAME record that is.  [LogMsg] is modelled for the reports of internal errors, and
    the invariants exclude most of them.

    ** What the theorems show

    - Lexing: [HIDNextItem] agrees with the reference lexer on every
      position of every buffer.
    - Counting and parsing: the first pass sizes the tables exactly, and the
      second pass, on any bytes without long items, stays inside them
      ([open_memory_safe], which names the run in which the kernel refuses a
      block): the invariant [pinv] of [HIDParseInv] relates the
      parser's state after a prefix of the items to the counters after the
      same prefix.  The tables it leaves are closed under their references,
      fields of one report do not overlap, Push/Pop and Collection brackets
      restore what they saved, and closing gives back every block,
      the struct included.
    - Fields: writing a field changes exactly its digits and reading returns
      them, signed or unsigned.
    - Usages, values, buttons: the index functions are the positions in the
      expanded list of usages; a value set is the value read, and other
      values are not disturbed; the list of pressed buttons is exact, and
      lists are never overrun.
    - Initial reports hold the null values in the elements the code writes
      and zeros elsewhere; report lengths agree with the
      check every accessor performs.
    - Capabilities: the counts [HIDGetCaps] announces are the counts the list
      functions deliver.
    - Names: [SameDomainName], [DomainNameLength], [AppendDomainName] and the
      hash agree with the list of labels; text and service names round-trip;
      suffixes are counted up.
    - Packets: [getDomainName] stops on every packet, reads every name of
      the RFC whose pointers lead to labels, and returns nothing that
      [decodes] does not read there; [GetLargeResourceRecord] and [GetPktLease] are memory
      safe on every packet and keep the invariant [rec_ok] of the storage
      they share; a name, a query of any number of questions and a record
      with plain rdata are read back as they were put.
    - Records: equal rdata has equal hashes, the hash test never loses an
      answer, [ValidateRData] accepts exactly the well-formed rdata.
    - The searcher: every operation returns and keeps the invariants, for
      every client that keeps its contract, but for two cases that [breaks]
      names ([searcher_safe]); a lookup finds the records of a name and no
      others; a record entered is found; taking an entity has a known effect
      on every other one ([taken]): what is in use stays, the rest is
      recycled; a question that is started gets the code of the first thing
      that is wrong and a place in its list if nothing is; a stopped question
      is referred to from nowhere; queries for a record go out at 80 to 97
      percent of its life; starting up establishes the invariants.
    - Receiving: from the bytes of a packet to the callbacks, a response is
      handled without a fault and leaves the invariants, an empty flush list
      and a free packet record behind ([receive_response_safe]); the one
      exception is a cache without memory for the packet and a CNAME, or
      clients that start questions when they are told of a record that is not
      kept; the flush
      gives the recent records of a set one lifetime and lets the others
      expire within a second ([flush_set_lives]).
    - Some theorems state where the code departs from this: a new question
      that is stopped by the callback for an expired answer, CNAME referrals
      that are never counted up, TTLs extended past the range of the clock,
      names cut off at the limit of a message, pointers that are cut off by
      the end of a packet or lead forward, a second close, long items,
      usage ranges in [HIDHasUsage], sign extension beyond 32 bits, the
      unchecked collection of [HIDGetButtons], the start bits of
      [HIDGetSpecificValueCaps], an exhausted kernel allocator.

    ** Bounds chosen

    Descriptors are shorter than [max_descriptor] = 2^25 bytes, so that the
    pool size fits 32 bits; [small] asks for fewer than 2^14 report items of
    fewer than 2^16 bits, so that bit positions cannot wrap; a descriptor a
    device can send (at most 65535 bytes) satisfies the first, and any
    descriptor of a real device the second.

    Packets that are read have at most [MaximumRDSize] = 8192 bytes, the size
    of the rdata storage, and stand in a buffer that goes on for 22 bytes, as
    the [DNSMessage] of the receive path does: the code reads the second byte
    of a pointer and the options of an OPT record past the end of a packet.
    Compressed names are put below offset 16384, the reach of a pointer.
    [header_clear] and [ends_flush] exclude compression against the header
    and against the byte after the message, which the code allows; for
    queries with the id 0 and printable names they are proved.

    A response has at most one question, since after a negative answer the
    code reads the next one from a wrong place, and that question asks for a
    type without names in its rdata: a negative entry keeps whatever the
    storage of the packet record held, which need not be rdata of its type.
    The response has no records of class ANY, which are cached with rdata
    that was not read.  Its host has no records of its own.  A host has some
    cache ([m_rrcache_size] is not 0) when a response arrives; it may be full.
    No question is marked [NoAnswer_Fail], which only the Mac OS X platform
    layer does, for the questions of its tunnels ([fail_question] is modelled,
    the invariant excludes it).

    ** Not modelled, and next

    In [DNSCommon.c]: the display strings, [mDNS_vsnprintf], packet dumps,
    and address helpers.  In [mDNS.c]: the host's own records (registering,
    probing, announcing, conflicts), sending queries and responses, receiving
    queries, sleep and interface changes; the walks over the host's own
    records go over a list that no modelled operation changes, so
    [CurrentRecord] is left out.  A multicast response to a host that has
    records is the fault [OwnRecords], and a packet for a long-lived
    wide-area query the fault [WideArea].
    [uDNS.c], the platform layers, the daemon and the clients.  Next: the
    responder's records as a state machine, round trips of records with names
    in their rdata, the formatter.  Around the HID parser: the C++ driver classes of IOHIDFamily.
    Next: the tree of collections as a relation on descriptors, array buttons
    and value arrays against an abstract report.  The other programs of the
    distribution (CoreFoundation, launchd, dtrace and so on) are not
    modelled. *)
From stdpp Require Export base list gmap.
From Stdlib Require Export ZArith Lia.
#[global] Open Scope Z_scope.

(** ** Undefined behaviour as a value

    A C function is a Rocq function into [outcome]: [Ret] is a normal return
    and [Fault] the place where the C program leaves defined behaviour. *)
Inductive fault : Set :=
| OutOfBounds   (* array index outside the object *)
| PastObject    (* access through a pointer moved past its object *)
| NullDeref     (* store through a null pointer *)
| BadShift      (* shift count negative or at least the operand's width *)
| Uninit        (* read of an uninitialised local *)
| BadFree       (* IOFree of a block that is not live with that size *)
| PoolOverrun   (* the pool is smaller than the arrays carved out of it *)
| DivByZero     (* integer division by zero *)
| Dangling      (* access through a pointer to an object that is not live *)
| WideArea      (* wide-area code that the modelled build does not contain *)
| OwnRecords    (* code for records of the host itself, which is not modelled *)
| OutOfFuel.    (* the model's loop bound was reached *)

Inductive outcome (A : Type) : Type :=
| Ret (a : A)
| Fault (f : fault).
Arguments Ret {A} a.
Arguments Fault {A} f.

Definition obind {A B} (c : outcome A) (k : A → outcome B) : outcome B :=
  match c with Ret a => k a | Fault f => Fault f end.

Declare Scope outcome_scope.
Delimit Scope outcome_scope with outcome.
Notation "'let*' x := c 'in' k" := (obind c (fun x => k))
  (at level 10, x name, k at level 200) : outcome_scope.
Notation "'let*' ' p := c 'in' k" := (obind c (fun x => match x with p => k end))
  (at level 10, p pattern, k at level 200) : outcome_scope.
#[global] Open Scope outcome_scope.

(** [wp c P F]: [c] returns a value satisfying [P] or faults with a fault
    satisfying [F].  [safe c P] is total correctness: no fault at all. *)
Definition wp {A} (c : outcome A) (P : A → Prop) (F : fault → Prop) : Prop :=
  match c with Ret a => P a | Fault f => F f end.
Definition no_fault : fault → Prop := fun _ => False.
Abbreviation safe c P := (wp c P no_fault).

Section Outcome.
Context {A B : Type}.

Lemma wp_ret (a : A) P F : P a → wp (Ret a) P F.
Proof. done. Qed.

Lemma wp_bind (c : outcome A) (k : A → outcome B) P F :
  wp c (fun a => wp (k a) P F) F → wp (obind c k) P F.
Proof. by destruct c. Qed.

Lemma wp_mono (c : outcome A) (P Q : A → Prop) (F G : fault → Prop) :
  wp c P F → (∀ a, P a → Q a) → (∀ f, F f → G f) → wp c Q G.
Proof. destruct c; simpl; auto. Qed.

Lemma wp_conj (c : outcome A) (P Q : A → Prop) F :
  wp c P F → wp c Q F → wp c (fun a => P a ∧ Q a) F.
Proof. destruct c; simpl; auto. Qed.

Lemma wp_elim (c : outcome A) P F : wp c P F → 
  (∃ a, c = Ret a ∧ P a) ∨ (∃ f, c = Fault f ∧ F f).
Proof. destruct c; simpl; eauto. Qed.

Lemma safe_elim (c : outcome A) P : safe c P → ∃ a, c = Ret a ∧ P a.
Proof. destruct c; simpl; [eauto | done]. Qed.

Lemma obind_Ret_inv (c : outcome A) (k : A → outcome B) b :
  obind c k = Ret b → ∃ a, c = Ret a ∧ k a = Ret b.
Proof. destruct c; simpl; [eauto | done]. Qed.
End Outcome.

(** ** 32-bit integers (the program is built for i386: ILP32)

    [UInt32] values are integers in [0, 2^32), [SInt32] values integers in
    [-2^31, 2^31); [u32], [s32] and [u8] are the C conversions. *)
Definition u32 (z : Z) : Z := z mod 4294967296.
Definition s32 (z : Z) : Z := (z + 2147483648) mod 4294967296 - 2147483648.
Definition u8 (z : Z) : Z := z mod 256.

Abbreviation is_u32 z := (0 ≤ z < 4294967296).
Abbreviation is_s32 z := (-2147483648 ≤ z < 2147483648).
Abbreviation is_u8 z := (0 ≤ z < 256).

Lemma u32_range z : is_u32 (u32 z).
Proof. unfold u32. apply Z.mod_pos_bound. lia. Qed.
Lemma s32_range z : is_s32 (s32 z).
Proof. unfold s32. pose proof (Z.mod_pos_bound (z + 2147483648) 4294967296). lia. Qed.
Lemma u8_range z : is_u8 (u8 z).
Proof. unfold u8. apply Z.mod_pos_bound. lia. Qed.
Lemma u32_id z : is_u32 z → u32 z = z.
Proof. intros. unfold u32. apply Z.mod_small. lia. Qed.
Lemma s32_id z : is_s32 z → s32 z = z.
Proof. intros. unfold s32. rewrite Z.mod_small; lia. Qed.
Lemma u8_id z : is_u8 z → u8 z = z.
Proof. intros. unfold u8. apply Z.mod_small. lia. Qed.

Lemma s32_high z : 2147483648 ≤ z < 6442450944 → s32 z = z - 4294967296.
Proof. intros. unfold s32. Z.div_mod_to_equations. lia. Qed.
Lemma u32_neg z : -4294967296 ≤ z < 0 → u32 z = z + 4294967296.
Proof. intros. unfold u32. Z.div_mod_to_equations. lia. Qed.
Lemma u32_s32 z : u32 (s32 z) = u32 z.
Proof. unfold u32, s32. Z.div_mod_to_equations. lia. Qed.
Lemma s32_u32 z : s32 (u32 z) = s32 z.
Proof. unfold u32, s32. Z.div_mod_to_equations. lia. Qed.

Lemma s32_add_l a b : s32 (s32 a + b) = s32 (a + b).
Proof. unfold s32. Z.div_mod_to_equations. lia. Qed.
Lemma s32_sub_r a b : s32 (a - s32 b) = s32 (a - b).
Proof. unfold s32. Z.div_mod_to_equations. lia. Qed.

(** The conversions on binary digits. *)
Lemma u32_testbit z i : 0 ≤ i → Z.testbit (u32 z) i = (i <? 32) && Z.testbit z i.
Proof.
  intros Hi. unfold u32. change 4294967296 with (2 ^ 32).
  destruct (Z.ltb_spec i 32); [by rewrite Z.mod_pow2_bits_low|by rewrite Z.mod_pow2_bits_high by lia].
Qed.
Lemma u8_testbit z i : 0 ≤ i → Z.testbit (u8 z) i = (i <? 8) && Z.testbit z i.
Proof.
  intros Hi. unfold u8. change 256 with (2 ^ 8).
  destruct (Z.ltb_spec i 8); [by rewrite Z.mod_pow2_bits_low|by rewrite Z.mod_pow2_bits_high by lia].
Qed.
Lemma s32_split z : s32 z = u32 z - (if Z.testbit z 31 then 4294967296 else 0).
Proof.
  unfold s32, u32. rewrite Z.testbit_odd, Z.shiftr_div_pow2 by lia. change (2 ^ 31) with 2147483648.
  pose proof (Z.mod_pos_bound (z / 2147483648) 2) as Hb. rewrite Zmod_odd in Hb.
  pose proof (Zmod_odd (z / 2147483648)) as Ho.
  destruct (Z.odd _); Z.div_mod_to_equations; lia.
Qed.
Lemma testbit_small z n i : 0 ≤ n → 0 ≤ z < 2 ^ n → n ≤ i → Z.testbit z i = false.
Proof.
  intros Hn Hz Hi. rewrite <- (Z.mod_small z (2 ^ n)) by done. by apply Z.mod_pow2_bits_high.
Qed.
Lemma s32_testbit z i : 0 ≤ i → Z.testbit (s32 z) i = Z.testbit z (Z.min i 31).
Proof.
  intros Hi. destruct (Z_lt_le_dec i 32) as [Hlt|Hge].
  - rewrite Z.min_l by lia.
    assert (Z.testbit (u32 (s32 z)) i = Z.testbit (u32 z) i) as H by by rewrite u32_s32.
    rewrite !u32_testbit, (proj2 (Z.ltb_lt i 32)) in H by lia. exact H.
  - rewrite Z.min_r by lia.
    pose proof (s32_range z). pose proof (s32_split z). pose proof (u32_range z).
    destruct (Z.testbit z 31) eqn:E.
    + rewrite <- (negb_involutive (Z.testbit (s32 z) i)), <- Z.lnot_spec by done.
      rewrite (testbit_small _ 31); unfold Z.lnot; lia.
    + apply (testbit_small _ 31); lia.
Qed.
Lemma shiftl1_testbit n i : 0 ≤ n → 0 ≤ i → Z.testbit (Z.shiftl 1 n - 1) i = (i <? n).
Proof.
  intros. rewrite Z.shiftl_1_l, Z.sub_1_r, <- Z.ones_equiv. by apply Z.testbit_ones_nonneg.
Qed.

Lemma lor_shift_add a b n :
  0 ≤ n → 0 ≤ a < 2 ^ n → Z.lor a (Z.shiftl b n) = a + 2 ^ n * b.
Proof.
  intros Hn Ha.
  rewrite (Z.mul_comm (2 ^ n)), <- Z.shiftl_mul_pow2 by done.
  assert (Z.land a (Z.shiftl b n) = 0) as H0.
  { apply Z.bits_inj'. intros k Hk. rewrite Z.land_spec, Z.bits_0, Z.shiftl_spec by done.
    destruct (Z_lt_le_dec k n).
    - by rewrite (Z.testbit_neg_r b), andb_false_r by lia.
    - rewrite <- (Z.mod_small a (2 ^ n)) by done. by rewrite Z.mod_pow2_bits_high by lia. }
  rewrite <- Z.lxor_lor by done. symmetry. by apply Z.add_nocarry_lxor.
Qed.

#[global] Opaque u32 s32 u8.

Create HintDb hid.
#[export] Hint Resolve u32_range s32_range u8_range : hid.
Create Rewrite HintDb hid.
#[export] Hint Rewrite u32_id s32_id u8_id using (first [lia | eauto with hid]) : hid.

(** ** C arrays: a list of cells, every access checked *)
Definition zlen {A} (l : list A) : Z := Z.of_nat (length l).

Definition aget {A} (l : list A) (i : Z) : outcome A :=
  if (0 <=? i) && (i <? zlen l) then
    match l !! Z.to_nat i with Some a => Ret a | None => Fault OutOfBounds end
  else Fault OutOfBounds.

Definition aset {A} (l : list A) (i : Z) (v : A) : outcome (list A) :=
  if (0 <=? i) && (i <? zlen l) then Ret (<[Z.to_nat i := v]> l)
  else Fault OutOfBounds.

(** [at_ l i a]: the cell [i] of [l] holds [a]. *)
Definition at_ {A} (l : list A) (i : Z) (a : A) : Prop := 0 ≤ i ∧ l !! Z.to_nat i = Some a.

Section Arrays.
Context {A : Type}.
Implicit Types (l : list A) (i j : Z) (a v : A).

Lemma zlen_nonneg l : 0 ≤ zlen l.
Proof. unfold zlen. lia. Qed.

Lemma at_range l i a : at_ l i a → 0 ≤ i < zlen l.
Proof. intros [? H%lookup_lt_Some]. unfold zlen. lia. Qed.

Lemma at_exists l i : 0 ≤ i < zlen l → ∃ a, at_ l i a.
Proof.
  intros [? ?]. destruct (lookup_lt_is_Some_2 l (Z.to_nat i)) as [a ?].
  - unfold zlen in *. lia.
  - exists a. by split.
Qed.

Lemma at_fun l i a v : at_ l i a → at_ l i v → a = v.
Proof. intros [? ?] [? ?]. congruence. Qed.

Lemma aget_at l i a : aget l i = Ret a ↔ at_ l i a.
Proof.
  split.
  - unfold aget, at_. destruct (Z.leb_spec 0 i); simpl; [|done].
    destruct (i <? zlen l); [|done]. destruct (l !! _); naive_solver.
  - intros H. pose proof (at_range _ _ _ H). destruct H as [? H].
    unfold aget. rewrite H.
    by rewrite (proj2 (Z.leb_le 0 i)), (proj2 (Z.ltb_lt i (zlen l))) by lia.
Qed.

Lemma aget_safe l i : 0 ≤ i < zlen l → safe (aget l i) (at_ l i).
Proof. intros [a Ha]%at_exists. by rewrite (proj2 (aget_at _ _ _) Ha). Qed.

Lemma aget_fault l i f : aget l i = Fault f → f = OutOfBounds.
Proof. unfold aget. repeat case_match; naive_solver. Qed.

Lemma aset_Ret l i v l' :
  aset l i v = Ret l' → 0 ≤ i < zlen l ∧ l' = <[Z.to_nat i := v]> l.
Proof.
  unfold aset. destruct (Z.leb_spec 0 i), (Z.ltb_spec i (zlen l)); naive_solver.
Qed.

Lemma aset_in l i v : 0 ≤ i < zlen l → aset l i v = Ret (<[Z.to_nat i := v]> l).
Proof.
  intros. unfold aset.
  by rewrite (proj2 (Z.leb_le 0 i)), (proj2 (Z.ltb_lt i (zlen l))) by lia.
Qed.

Lemma aset_fault l i v f : aset l i v = Fault f → f = OutOfBounds.
Proof. unfold aset. case_match; naive_solver. Qed.

Lemma zlen_insert l (n : nat) v : zlen (<[n := v]> l) = zlen l.
Proof. unfold zlen. by rewrite length_insert. Qed.

Lemma zlen_app l l' : zlen (l ++ l') = zlen l + zlen l'.
Proof. unfold zlen. rewrite length_app. lia. Qed.

Lemma zlen_cons v l : zlen (v :: l) = 1 + zlen l.
Proof. unfold zlen. simpl. lia. Qed.

Lemma zlen_replicate (n : nat) v : zlen (replicate n v) = Z.of_nat n.
Proof. unfold zlen. by rewrite length_replicate. Qed.

Lemma at_insert_eq l i v : 0 ≤ i < zlen l → at_ (<[Z.to_nat i := v]> l) i v.
Proof.
  intros [? ?]. split; [done|]. apply list_lookup_insert_eq. unfold zlen in *. lia.
Qed.

Lemma at_insert l i j v a :
  at_ (<[Z.to_nat i := v]> l) j a → 0 ≤ i → (j = i ∧ a = v) ∨ (j ≠ i ∧ at_ l j a).
Proof.
  intros [? H] ?. destruct (decide (j = i)) as [->|].
  - left. split; [done|]. pose proof (lookup_lt_Some _ _ _ H) as Hl.
    rewrite length_insert in Hl. rewrite list_lookup_insert_eq in H by done. congruence.
  - right. split; [done|]. split; [done|]. rewrite list_lookup_insert_ne in H by lia. done.
Qed.

Lemma at_insert_ne l i j v a :
  j ≠ i → 0 ≤ i → at_ l j a → at_ (<[Z.to_nat i := v]> l) j a.
Proof. intros ?? [? ?]. split; [done|]. by rewrite list_lookup_insert_ne by lia. Qed.

Lemma drop_cons_at l i a rest :
  0 ≤ i → drop (Z.to_nat i) l = a :: rest → at_ l i a ∧ drop (Z.to_nat (i + 1)) l = rest.
Proof.
  intros Hi Hd. split; [split; [done|]|].
  - replace (Z.to_nat i) with (Z.to_nat i + 0)%nat by lia. by rewrite <- lookup_drop, Hd.
  - replace (Z.to_nat (i + 1)) with (Z.to_nat i + 1)%nat by lia. by rewrite <- drop_drop, Hd.
Qed.
End Arrays.

#[export] Hint Rewrite @zlen_insert @zlen_app @zlen_cons @zlen_replicate : hid.
#[export] Hint Resolve zlen_nonneg : hid.

(** ** Bytes *)
Definition bytes_ok (rep : list Z) : Prop := Forall (fun b => is_u8 b) rep.

Lemma bytes_ok_at rep i b : bytes_ok rep → at_ rep i b → is_u8 b.
Proof. intros HF [_ Hb]. by apply (Forall_lookup_1 _ _ _ _ HF Hb). Qed.

Lemma bytes_ok_insert rep i b : bytes_ok rep → is_u8 b → bytes_ok (<[Z.to_nat i := b]> rep).
Proof. intros. by apply Forall_insert. Qed.

(** ** Bytes by exhaustion *)
Lemma byte_forall (P : Z → bool) b :
  forallb P (seqZ 0 256) = true → is_u8 b → P b = true.
Proof.
  intros H Hb. rewrite forallb_forall in H. apply H.
  apply list_elem_of_In, elem_of_seqZ. lia.
Qed.

(** ** Functional update of a struct field: [r <| f := v |>]

    A struct declares its [Eta] instance, the record rebuilt from its own
    fields; the setter of a field replaces that field's projection in it.
    Setters are never unfolded by simplification: [struct_simpl] reads a
    field through them and [struct_eq] compares two structs field by field. *)
Class Eta (R : Type) := eta : R → R.
Class Setter {R T : Type} (f : R → T) := setf : T → R → R.
Arguments setf {R T} f {_} v r : simpl never.

Ltac derive_setter :=
  lazymatch goal with
  | |- @Setter ?R ?T ?f =>
    lazymatch constr:(@eta R _) with
    | @eta _ ?i =>
      let e := eval cbv delta [i] in i in
      exact (fun (v : T) (r : R) => ltac:(
        let body := eval cbv beta in (e r) in
        lazymatch eval pattern (f r) in body with
        | ?g _ => let res := eval cbv beta in (g v) in exact res
        end))
    end
  end.

Declare Scope struct_scope.
Notation "r <| f := v |>" := (setf f v r)
  (at level 1, left associativity, f constr at level 1, v constr at level 99) : struct_scope.
#[global] Open Scope struct_scope.

Ltac field_law p R T f i :=
  match constr:((p, f)) with
  | (?q, ?q) => constr:(∀ (v : T) (r : R), p (@setf R T f i v r) = v)
  | _ => constr:(∀ (v : T) (r : R), p (@setf R T f i v r) = p r)
  end.
Ltac struct_simpl1 :=
  match goal with
  | |- context [?p (@setf ?R ?T ?f ?i ?v ?r)] =>
      let P := field_law p R T f i in
      let L := fresh in
      assert (L : P) by (intros; reflexivity); rewrite (L v r); clear L
  end.
Ltac struct_simpl_in1 H :=
  match type of H with
  | context [?p (@setf ?R ?T ?f ?i ?v ?r)] =>
      let P := field_law p R T f i in
      let L := fresh in
      assert (L : P) by (intros; reflexivity); rewrite (L v r) in H; clear L
  end.
Ltac struct_simpl := repeat struct_simpl1.
Tactic Notation "struct_simpl" "in" hyp(H) := repeat struct_simpl_in1 H.
Tactic Notation "struct_simpl" "in" "*" :=
  repeat first [ struct_simpl1 | match goal with H : _ |- _ => struct_simpl_in1 H end ].

(** Case analysis on the boolean tests of the code, as facts over [Z]. *)
Ltac tests_to_Z :=
  rewrite ?orb_true_iff, ?orb_false_iff, ?andb_true_iff, ?andb_false_iff,
    ?negb_true_iff, ?negb_false_iff,
    ?Z.eqb_eq, ?Z.eqb_neq, ?Z.ltb_lt, ?Z.ltb_ge, ?Z.leb_le, ?Z.leb_gt in *.
Ltac tests :=
  repeat match goal with
  | H : context [if ?b then _ else _] |- _ => destruct b eqn:?
  | |- context [if ?b then _ else _] => destruct b eqn:?
  end; tests_to_Z.
