(* ===== verification/HIDTypes.v ===== *)
(** * Constants and structs of the HID parser

    The enums and structs of [HIDPriv.h], [HIDLib.h] and
    [IOHIDDescriptorParser.h].  A struct field keeps its C name behind a
    prefix naming the struct ([c_] [HIDCollection], [ri_] [HIDReportItem],
    [g_] [HIDGlobalItems], [rs_] [HIDReportSizes], [ui_] [HIDP_UsageItem],
    [si_] [HIDStringItem], [pd_] [HIDPreparsedData], [it_] [HIDItem],
    [d_] [HIDReportDescriptor]).  An array is the list of its cells. *)
From S2P Require Import Prelude.

(** ** Status codes ([IOHIDDescriptorParser.h]) *)
Definition OSStatus := Z.
Definition noErr : OSStatus := 0.
Definition kHIDSuccess : OSStatus := 0.
Definition kHIDBaseError : OSStatus := -13950.
Definition kHIDNullStateErr : OSStatus := -13949.
Definition kHIDBufferTooSmallErr : OSStatus := -13948.
Definition kHIDValueOutOfRangeErr : OSStatus := -13947.
Definition kHIDUsageNotFoundErr : OSStatus := -13946.
Definition kHIDNotValueArrayErr : OSStatus := -13945.
Definition kHIDInvalidPreparsedDataErr : OSStatus := -13944.
Definition kHIDIncompatibleReportErr : OSStatus := -13943.
Definition kHIDBadLogPhysValuesErr : OSStatus := -13942.
Definition kHIDInvalidReportTypeErr : OSStatus := -13941.
Definition kHIDInvalidReportLengthErr : OSStatus := -13940.
Definition kHIDNullPointerErr : OSStatus := -13939.
Definition kHIDBadParameterErr : OSStatus := -13938.
Definition kHIDNotEnoughMemoryErr : OSStatus := -13937.
Definition kHIDEndOfDescriptorErr : OSStatus := -13936.
Definition kHIDUsagePageZeroErr : OSStatus := -13935.
Definition kHIDBadLogicalMinimumErr : OSStatus := -13934.
Definition kHIDBadLogicalMaximumErr : OSStatus := -13933.
Definition kHIDInvertedLogicalRangeErr : OSStatus := -13932.
Definition kHIDInvertedPhysicalRangeErr : OSStatus := -13931.
Definition kHIDUnmatchedUsageRangeErr : OSStatus := -13930.
Definition kHIDInvertedUsageRangeErr : OSStatus := -13929.
Definition kHIDUnmatchedStringRangeErr : OSStatus := -13928.
Definition kHIDUnmatchedDesignatorRangeErr : OSStatus := -13927.
Definition kHIDReportSizeZeroErr : OSStatus := -13926.
Definition kHIDReportCountZeroErr : OSStatus := -13925.
Definition kHIDReportIDZeroErr : OSStatus := -13924.
Definition kHIDInvalidRangePageErr : OSStatus := -13923.

(** ** Report types and flags *)
Definition kHIDInputReport : Z := 1.
Definition kHIDOutputReport : Z := 2.
Definition kHIDFeatureReport : Z := 3.
Definition kHIDUnknownReport : Z := 255.
Definition kHIDFlag_StrictErrorChecking : Z := 1.
Definition kHIDOSType : Z := 0x68696420.   (* 'hid ' *)
Definition kHIDReportItemFlag_Reversed : Z := 1.

(** ** Item headers ([HIDPriv.h]) *)
Definition kHIDItemSizeMask : Z := 0x03.
Definition kHIDItemTagMask : Z := 0xF0.
Definition kHIDItemTagShift : Z := 4.
Definition kHIDItemTypeMask : Z := 0x0C.
Definition kHIDItemTypeShift : Z := 2.
Definition kHIDLongItemHeader : Z := 0xFE.

Definition kHIDTypeMain : Z := 0.
Definition kHIDTypeGlobal : Z := 1.
Definition kHIDTypeLocal : Z := 2.
Definition kHIDTypeLong : Z := 3.

Definition kHIDTagInput : Z := 8.
Definition kHIDTagOutput : Z := 9.
Definition kHIDTagCollection : Z := 0x0A.
Definition kHIDTagFeature : Z := 0x0B.
Definition kHIDTagEndCollection : Z := 0x0C.

Definition kHIDTagUsagePage : Z := 0.
Definition kHIDTagLogicalMinimum : Z := 1.
Definition kHIDTagLogicalMaximum : Z := 2.
Definition kHIDTagPhysicalMinimum : Z := 3.
Definition kHIDTagPhysicalMaximum : Z := 4.
Definition kHIDTagUnitExponent : Z := 5.
Definition kHIDTagUnit : Z := 6.
Definition kHIDTagReportSize : Z := 7.
Definition kHIDTagReportID : Z := 8.
Definition kHIDTagReportCount : Z := 9.
Definition kHIDTagPush : Z := 0x0A.
Definition kHIDTagPop : Z := 0x0B.

Definition kHIDTagUsage : Z := 0.
Definition kHIDTagUsageMinimum : Z := 1.
Definition kHIDTagUsageMaximum : Z := 2.
Definition kHIDTagDesignatorIndex : Z := 3.
Definition kHIDTagDesignatorMinimum : Z := 4.
Definition kHIDTagDesignatorMaximum : Z := 5.
Definition kHIDTagStringIndex : Z := 7.
Definition kHIDTagStringMinimum : Z := 8.
Definition kHIDTagStringMaximum : Z := 9.
Definition kHIDTagSetDelimiter : Z := 0x0A.

(** ** Data-mode bits of a main item *)
Definition kHIDDataNullStateBit : Z := 0x40.
Definition kHIDDataNullState : Z := 0x40.
Definition kHIDDataRelative : Z := 0x04.
Definition kHIDDataVariableBit : Z := 0x02.
Definition kHIDDataVariable : Z := 0x02.
Definition kHIDDataArrayBit : Z := 0x02.
Definition kHIDDataArray : Z := 0x00.
Definition kHIDDataConstantBit : Z := 0x01.
Definition kHIDDataConstant : Z := 0x01.

(** ** Structs *)
Record HIDItem := mkHIDItem {
  it_byteCount : Z;
  it_itemType : Z;
  it_tag : Z;
  it_signedValue : Z;
  it_unsignedValue : Z }.

Record HIDGlobalItems := mkHIDGlobalItems {
  g_usagePage : Z;
  g_logicalMinimum : Z;
  g_logicalMaximum : Z;
  g_physicalMinimum : Z;
  g_physicalMaximum : Z;
  g_unitExponent : Z;
  g_units : Z;
  g_reportSize : Z;
  g_reportID : Z;
  g_reportCount : Z;
  g_reportIndex : Z }.

Record HIDReportSizes := mkHIDReportSizes {
  rs_reportID : Z;
  rs_inputBitCount : Z;
  rs_outputBitCount : Z;
  rs_featureBitCount : Z }.

Record HIDCollection := mkHIDCollection {
  c_data : Z;
  c_usagePage : Z;
  c_firstUsageItem : Z;
  c_usageItemCount : Z;
  c_firstReportItem : Z;
  c_reportItemCount : Z;
  c_parent : Z;
  c_children : Z;
  c_firstChild : Z;
  c_nextSibling : Z }.

Record HIDReportItem := mkHIDReportItem {
  ri_reportType : Z;
  ri_globals : HIDGlobalItems;
  ri_startBit : Z;
  ri_parent : Z;
  ri_dataModes : Z;
  ri_firstUsageItem : Z;
  ri_usageItemCount : Z;
  ri_firstStringItem : Z;
  ri_stringItemCount : Z;
  ri_firstDesigItem : Z;
  ri_desigItemCount : Z;
  ri_flags : Z }.

Record HIDP_UsageItem := mkHIDP_UsageItem {
  ui_isRange : bool;
  ui_usagePage : Z;
  ui_usage : Z;
  ui_usageMinimum : Z;
  ui_usageMaximum : Z }.

Record HIDStringItem := mkHIDStringItem {
  si_isRange : bool;
  si_index : Z;
  si_minimum : Z;
  si_maximum : Z }.

(** A null [rawMemPtr] is [None]; a block of kernel memory is named by the
    address [IOMalloc] returned for it. *)
Record HIDPreparsedData := mkHIDPreparsedData {
  pd_hidTypeIfValid : Z;
  pd_collections : list HIDCollection;
  pd_collectionCount : Z;
  pd_reportItems : list HIDReportItem;
  pd_reportItemCount : Z;
  pd_reports : list HIDReportSizes;
  pd_reportCount : Z;
  pd_usageItems : list HIDP_UsageItem;
  pd_usageItemCount : Z;
  pd_stringItems : list HIDStringItem;
  pd_stringItemCount : Z;
  pd_desigItems : list HIDStringItem;
  pd_desigItemCount : Z;
  pd_rawMemPtr : option Z;
  pd_flags : Z;
  pd_numBytesAllocated : Z }.

Record HIDReportDescriptor := mkHIDReportDescriptor {
  d_descriptor : list Z;
  d_descriptorLength : Z;
  d_index : Z;
  d_collectionStack : list Z;
  d_collectionNesting : Z;
  d_globalsStack : list HIDGlobalItems;
  d_globalsNesting : Z;
  d_item : HIDItem;
  d_firstUsageItem : Z;
  d_firstStringItem : Z;
  d_firstDesigItem : Z;
  d_parent : Z;
  d_sibling : Z;
  d_globals : HIDGlobalItems;
  d_haveUsageMin : bool;
  d_haveUsageMax : bool;
  d_rangeUsagePage : Z;
  d_usageMinimum : Z;
  d_usageMaximum : Z;
  d_haveStringMin : bool;
  d_haveStringMax : bool;
  d_stringMinimum : Z;
  d_stringMaximum : Z;
  d_haveDesigMin : bool;
  d_haveDesigMax : bool;
  d_desigMinimum : Z;
  d_desigMaximum : Z }.

(** ** Field update *)
#[export] Instance HIDItem_eta : Eta HIDItem :=
  fun r => mkHIDItem (it_byteCount r) (it_itemType r) (it_tag r)
    (it_signedValue r) (it_unsignedValue r).
#[export] Instance set_it_byteCount : Setter it_byteCount := ltac:(derive_setter).
#[export] Instance set_it_itemType : Setter it_itemType := ltac:(derive_setter).
#[export] Instance set_it_tag : Setter it_tag := ltac:(derive_setter).
#[export] Instance set_it_signedValue : Setter it_signedValue := ltac:(derive_setter).
#[export] Instance set_it_unsignedValue : Setter it_unsignedValue := ltac:(derive_setter).
Lemma HIDItem_ext (r s : HIDItem) :
  it_byteCount r = it_byteCount s →
  it_itemType r = it_itemType s →
  it_tag r = it_tag s →
  it_signedValue r = it_signedValue s →
  it_unsignedValue r = it_unsignedValue s → r = s.
Proof. destruct r, s; simpl; intros; subst; reflexivity. Qed.

#[export] Instance HIDGlobalItems_eta : Eta HIDGlobalItems :=
  fun r => mkHIDGlobalItems (g_usagePage r) (g_logicalMinimum r)
    (g_logicalMaximum r) (g_physicalMinimum r) (g_physicalMaximum r)
    (g_unitExponent r) (g_units r) (g_reportSize r) (g_reportID r)
    (g_reportCount r) (g_reportIndex r).
#[export] Instance set_g_usagePage : Setter g_usagePage := ltac:(derive_setter).
#[export] Instance set_g_logicalMinimum : Setter g_logicalMinimum := ltac:(derive_setter).
#[export] Instance set_g_logicalMaximum : Setter g_logicalMaximum := ltac:(derive_setter).
#[export] Instance set_g_physicalMinimum : Setter g_physicalMinimum := ltac:(derive_setter).
#[export] Instance set_g_physicalMaximum : Setter g_physicalMaximum := ltac:(derive_setter).
#[export] Instance set_g_unitExponent : Setter g_unitExponent := ltac:(derive_setter).
#[export] Instance set_g_units : Setter g_units := ltac:(derive_setter).
#[export] Instance set_g_reportSize : Setter g_reportSize := ltac:(derive_setter).
#[export] Instance set_g_reportID : Setter g_reportID := ltac:(derive_setter).
#[export] Instance set_g_reportCount : Setter g_reportCount := ltac:(derive_setter).
#[export] Instance set_g_reportIndex : Setter g_reportIndex := ltac:(derive_setter).
Lemma HIDGlobalItems_ext (r s : HIDGlobalItems) :
  g_usagePage r = g_usagePage s →
  g_logicalMinimum r = g_logicalMinimum s →
  g_logicalMaximum r = g_logicalMaximum s →
  g_physicalMinimum r = g_physicalMinimum s →
  g_physicalMaximum r = g_physicalMaximum s →
  g_unitExponent r = g_unitExponent s →
  g_units r = g_units s →
  g_reportSize r = g_reportSize s →
  g_reportID r = g_reportID s →
  g_reportCount r = g_reportCount s →
  g_reportIndex r = g_reportIndex s → r = s.
Proof. destruct r, s; simpl; intros; subst; reflexivity. Qed.

#[export] Instance HIDReportSizes_eta : Eta HIDReportSizes :=
  fun r => mkHIDReportSizes (rs_reportID r) (rs_inputBitCount r)
    (rs_outputBitCount r) (rs_featureBitCount r).
#[export] Instance set_rs_reportID : Setter rs_reportID := ltac:(derive_setter).
#[export] Instance set_rs_inputBitCount : Setter rs_inputBitCount := ltac:(derive_setter).
#[export] Instance set_rs_outputBitCount : Setter rs_outputBitCount := ltac:(derive_setter).
#[export] Instance set_rs_featureBitCount : Setter rs_featureBitCount := ltac:(derive_setter).
Lemma HIDReportSizes_ext (r s : HIDReportSizes) :
  rs_reportID r = rs_reportID s →
  rs_inputBitCount r = rs_inputBitCount s →
  rs_outputBitCount r = rs_outputBitCount s →
  rs_featureBitCount r = rs_featureBitCount s → r = s.
Proof. destruct r, s; simpl; intros; subst; reflexivity. Qed.

#[export] Instance HIDCollection_eta : Eta HIDCollection :=
  fun r => mkHIDCollection (c_data r) (c_usagePage r) (c_firstUsageItem r)
    (c_usageItemCount r) (c_firstReportItem r) (c_reportItemCount r)
    (c_parent r) (c_children r) (c_firstChild r) (c_nextSibling r).
#[export] Instance set_c_data : Setter c_data := ltac:(derive_setter).
#[export] Instance set_c_usagePage : Setter c_usagePage := ltac:(derive_setter).
#[export] Instance set_c_firstUsageItem : Setter c_firstUsageItem := ltac:(derive_setter).
#[export] Instance set_c_usageItemCount : Setter c_usageItemCount := ltac:(derive_setter).
#[export] Instance set_c_firstReportItem : Setter c_firstReportItem := ltac:(derive_setter).
#[export] Instance set_c_reportItemCount : Setter c_reportItemCount := ltac:(derive_setter).
#[export] Instance set_c_parent : Setter c_parent := ltac:(derive_setter).
#[export] Instance set_c_children : Setter c_children := ltac:(derive_setter).
#[export] Instance set_c_firstChild : Setter c_firstChild := ltac:(derive_setter).
#[export] Instance set_c_nextSibling : Setter c_nextSibling := ltac:(derive_setter).
Lemma HIDCollection_ext (r s : HIDCollection) :
  c_data r = c_data s →
  c_usagePage r = c_usagePage s →
  c_firstUsageItem r = c_firstUsageItem s →
  c_usageItemCount r = c_usageItemCount s →
  c_firstReportItem r = c_firstReportItem s →
  c_reportItemCount r = c_reportItemCount s →
  c_parent r = c_parent s →
  c_children r = c_children s →
  c_firstChild r = c_firstChild s →
  c_nextSibling r = c_nextSibling s → r = s.
Proof. destruct r, s; simpl; intros; subst; reflexivity. Qed.

#[export] Instance HIDReportItem_eta : Eta HIDReportItem :=
  fun r => mkHIDReportItem (ri_reportType r) (ri_globals r) (ri_startBit r)
    (ri_parent r) (ri_dataModes r) (ri_firstUsageItem r) (ri_usageItemCount r)
    (ri_firstStringItem r) (ri_stringItemCount r) (ri_firstDesigItem r)
    (ri_desigItemCount r) (ri_flags r).
#[export] Instance set_ri_reportType : Setter ri_reportType := ltac:(derive_setter).
#[export] Instance set_ri_globals : Setter ri_globals := ltac:(derive_setter).
#[export] Instance set_ri_startBit : Setter ri_startBit := ltac:(derive_setter).
#[export] Instance set_ri_parent : Setter ri_parent := ltac:(derive_setter).
#[export] Instance set_ri_dataModes : Setter ri_dataModes := ltac:(derive_setter).
#[export] Instance set_ri_firstUsageItem : Setter ri_firstUsageItem := ltac:(derive_setter).
#[export] Instance set_ri_usageItemCount : Setter ri_usageItemCount := ltac:(derive_setter).
#[export] Instance set_ri_firstStringItem : Setter ri_firstStringItem := ltac:(derive_setter).
#[export] Instance set_ri_stringItemCount : Setter ri_stringItemCount := ltac:(derive_setter).
#[export] Instance set_ri_firstDesigItem : Setter ri_firstDesigItem := ltac:(derive_setter).
#[export] Instance set_ri_desigItemCount : Setter ri_desigItemCount := ltac:(derive_setter).
#[export] Instance set_ri_flags : Setter ri_flags := ltac:(derive_setter).
Lemma HIDReportItem_ext (r s : HIDReportItem) :
  ri_reportType r = ri_reportType s →
  ri_globals r = ri_globals s →
  ri_startBit r = ri_startBit s →
  ri_parent r = ri_parent s →
  ri_dataModes r = ri_dataModes s →
  ri_firstUsageItem r = ri_firstUsageItem s →
  ri_usageItemCount r = ri_usageItemCount s →
  ri_firstStringItem r = ri_firstStringItem s →
  ri_stringItemCount r = ri_stringItemCount s →
  ri_firstDesigItem r = ri_firstDesigItem s →
  ri_desigItemCount r = ri_desigItemCount s →
  ri_flags r = ri_flags s → r = s.
Proof. destruct r, s; simpl; intros; subst; reflexivity. Qed.

#[export] Instance HIDP_UsageItem_eta : Eta HIDP_UsageItem :=
  fun r => mkHIDP_UsageItem (ui_isRange r) (ui_usagePage r) (ui_usage r)
    (ui_usageMinimum r) (ui_usageMaximum r).
#[export] Instance set_ui_isRange : Setter ui_isRange := ltac:(derive_setter).
#[export] Instance set_ui_usagePage : Setter ui_usagePage := ltac:(derive_setter).
#[export] Instance set_ui_usage : Setter ui_usage := ltac:(derive_setter).
#[export] Instance set_ui_usageMinimum : Setter ui_usageMinimum := ltac:(derive_setter).
#[export] Instance set_ui_usageMaximum : Setter ui_usageMaximum := ltac:(derive_setter).
Lemma HIDP_UsageItem_ext (r s : HIDP_UsageItem) :
  ui_isRange r = ui_isRange s →
  ui_usagePage r = ui_usagePage s →
  ui_usage r = ui_usage s →
  ui_usageMinimum r = ui_usageMinimum s →
  ui_usageMaximum r = ui_usageMaximum s → r = s.
Proof. destruct r, s; simpl; intros; subst; reflexivity. Qed.

#[export] Instance HIDStringItem_eta : Eta HIDStringItem :=
  fun r => mkHIDStringItem (si_isRange r) (si_index r) (si_minimum r)
    (si_maximum r).
#[export] Instance set_si_isRange : Setter si_isRange := ltac:(derive_setter).
#[export] Instance set_si_index : Setter si_index := ltac:(derive_setter).
#[export] Instance set_si_minimum : Setter si_minimum := ltac:(derive_setter).
#[export] Instance set_si_maximum : Setter si_maximum := ltac:(derive_setter).
Lemma HIDStringItem_ext (r s : HIDStringItem) :
  si_isRange r = si_isRange s →
  si_index r = si_index s →
  si_minimum r = si_minimum s →
  si_maximum r = si_maximum s → r = s.
Proof. destruct r, s; simpl; intros; subst; reflexivity. Qed.

#[export] Instance HIDPreparsedData_eta : Eta HIDPreparsedData :=
  fun r => mkHIDPreparsedData (pd_hidTypeIfValid r) (pd_collections r)
    (pd_collectionCount r) (pd_reportItems r) (pd_reportItemCount r)
    (pd_reports r) (pd_reportCount r) (pd_usageItems r) (pd_usageItemCount r)
    (pd_stringItems r) (pd_stringItemCount r) (pd_desigItems r)
    (pd_desigItemCount r) (pd_rawMemPtr r) (pd_flags r)
    (pd_numBytesAllocated r).
#[export] Instance set_pd_hidTypeIfValid : Setter pd_hidTypeIfValid := ltac:(derive_setter).
#[export] Instance set_pd_collections : Setter pd_collections := ltac:(derive_setter).
#[export] Instance set_pd_collectionCount : Setter pd_collectionCount := ltac:(derive_setter).
#[export] Instance set_pd_reportItems : Setter pd_reportItems := ltac:(derive_setter).
#[export] Instance set_pd_reportItemCount : Setter pd_reportItemCount := ltac:(derive_setter).
#[export] Instance set_pd_reports : Setter pd_reports := ltac:(derive_setter).
#[export] Instance set_pd_reportCount : Setter pd_reportCount := ltac:(derive_setter).
#[export] Instance set_pd_usageItems : Setter pd_usageItems := ltac:(derive_setter).
#[export] Instance set_pd_usageItemCount : Setter pd_usageItemCount := ltac:(derive_setter).
#[export] Instance set_pd_stringItems : Setter pd_stringItems := ltac:(derive_setter).
#[export] Instance set_pd_stringItemCount : Setter pd_stringItemCount := ltac:(derive_setter).
#[export] Instance set_pd_desigItems : Setter pd_desigItems := ltac:(derive_setter).
#[export] Instance set_pd_desigItemCount : Setter pd_desigItemCount := ltac:(derive_setter).
#[export] Instance set_pd_rawMemPtr : Setter pd_rawMemPtr := ltac:(derive_setter).
#[export] Instance set_pd_flags : Setter pd_flags := ltac:(derive_setter).
#[export] Instance set_pd_numBytesAllocated : Setter pd_numBytesAllocated := ltac:(derive_setter).
Lemma HIDPreparsedData_ext (r s : HIDPreparsedData) :
  pd_hidTypeIfValid r = pd_hidTypeIfValid s →
  pd_collections r = pd_collections s →
  pd_collectionCount r = pd_collectionCount s →
  pd_reportItems r = pd_reportItems s →
  pd_reportItemCount r = pd_reportItemCount s →
  pd_reports r = pd_reports s →
  pd_reportCount r = pd_reportCount s →
  pd_usageItems r = pd_usageItems s →
  pd_usageItemCount r = pd_usageItemCount s →
  pd_stringItems r = pd_stringItems s →
  pd_stringItemCount r = pd_stringItemCount s →
  pd_desigItems r = pd_desigItems s →
  pd_desigItemCount r = pd_desigItemCount s →
  pd_rawMemPtr r = pd_rawMemPtr s →
  pd_flags r = pd_flags s →
  pd_numBytesAllocated r = pd_numBytesAllocated s → r = s.
Proof. destruct r, s; simpl; intros; subst; reflexivity. Qed.

#[export] Instance HIDReportDescriptor_eta : Eta HIDReportDescriptor :=
  fun r => mkHIDReportDescriptor (d_descriptor r) (d_descriptorLength r)
    (d_index r) (d_collectionStack r) (d_collectionNesting r) (d_globalsStack r)
    (d_globalsNesting r) (d_item r) (d_firstUsageItem r) (d_firstStringItem r)
    (d_firstDesigItem r) (d_parent r) (d_sibling r) (d_globals r)
    (d_haveUsageMin r) (d_haveUsageMax r) (d_rangeUsagePage r)
    (d_usageMinimum r) (d_usageMaximum r) (d_haveStringMin r)
    (d_haveStringMax r) (d_stringMinimum r) (d_stringMaximum r)
    (d_haveDesigMin r) (d_haveDesigMax r) (d_desigMinimum r) (d_desigMaximum r).
#[export] Instance set_d_descriptor : Setter d_descriptor := ltac:(derive_setter).
#[export] Instance set_d_descriptorLength : Setter d_descriptorLength := ltac:(derive_setter).
#[export] Instance set_d_index : Setter d_index := ltac:(derive_setter).
#[export] Instance set_d_collectionStack : Setter d_collectionStack := ltac:(derive_setter).
#[export] Instance set_d_collectionNesting : Setter d_collectionNesting := ltac:(derive_setter).
#[export] Instance set_d_globalsStack : Setter d_globalsStack := ltac:(derive_setter).
#[export] Instance set_d_globalsNesting : Setter d_globalsNesting := ltac:(derive_setter).
#[export] Instance set_d_item : Setter d_item := ltac:(derive_setter).
#[export] Instance set_d_firstUsageItem : Setter d_firstUsageItem := ltac:(derive_setter).
#[export] Instance set_d_firstStringItem : Setter d_firstStringItem := ltac:(derive_setter).
#[export] Instance set_d_firstDesigItem : Setter d_firstDesigItem := ltac:(derive_setter).
#[export] Instance set_d_parent : Setter d_parent := ltac:(derive_setter).
#[export] Instance set_d_sibling : Setter d_sibling := ltac:(derive_setter).
#[export] Instance set_d_globals : Setter d_globals := ltac:(derive_setter).
#[export] Instance set_d_haveUsageMin : Setter d_haveUsageMin := ltac:(derive_setter).
#[export] Instance set_d_haveUsageMax : Setter d_haveUsageMax := ltac:(derive_setter).
#[export] Instance set_d_rangeUsagePage : Setter d_rangeUsagePage := ltac:(derive_setter).
#[export] Instance set_d_usageMinimum : Setter d_usageMinimum := ltac:(derive_setter).
#[export] Instance set_d_usageMaximum : Setter d_usageMaximum := ltac:(derive_setter).
#[export] Instance set_d_haveStringMin : Setter d_haveStringMin := ltac:(derive_setter).
#[export] Instance set_d_haveStringMax : Setter d_haveStringMax := ltac:(derive_setter).
#[export] Instance set_d_stringMinimum : Setter d_stringMinimum := ltac:(derive_setter).
#[export] Instance set_d_stringMaximum : Setter d_stringMaximum := ltac:(derive_setter).
#[export] Instance set_d_haveDesigMin : Setter d_haveDesigMin := ltac:(derive_setter).
#[export] Instance set_d_haveDesigMax : Setter d_haveDesigMax := ltac:(derive_setter).
#[export] Instance set_d_desigMinimum : Setter d_desigMinimum := ltac:(derive_setter).
#[export] Instance set_d_desigMaximum : Setter d_desigMaximum := ltac:(derive_setter).
Lemma HIDReportDescriptor_ext (r s : HIDReportDescriptor) :
  d_descriptor r = d_descriptor s →
  d_descriptorLength r = d_descriptorLength s →
  d_index r = d_index s →
  d_collectionStack r = d_collectionStack s →
  d_collectionNesting r = d_collectionNesting s →
  d_globalsStack r = d_globalsStack s →
  d_globalsNesting r = d_globalsNesting s →
  d_item r = d_item s →
  d_firstUsageItem r = d_firstUsageItem s →
  d_firstStringItem r = d_firstStringItem s →
  d_firstDesigItem r = d_firstDesigItem s →
  d_parent r = d_parent s →
  d_sibling r = d_sibling s →
  d_globals r = d_globals s →
  d_haveUsageMin r = d_haveUsageMin s →
  d_haveUsageMax r = d_haveUsageMax s →
  d_rangeUsagePage r = d_rangeUsagePage s →
  d_usageMinimum r = d_usageMinimum s →
  d_usageMaximum r = d_usageMaximum s →
  d_haveStringMin r = d_haveStringMin s →
  d_haveStringMax r = d_haveStringMax s →
  d_stringMinimum r = d_stringMinimum s →
  d_stringMaximum r = d_stringMaximum s →
  d_haveDesigMin r = d_haveDesigMin s →
  d_haveDesigMax r = d_haveDesigMax s →
  d_desigMinimum r = d_desigMinimum s →
  d_desigMaximum r = d_desigMaximum s → r = s.
Proof. destruct r, s; simpl; intros; subst; reflexivity. Qed.


(** ** Zeroed cells: the pool is cleared when it is allocated *)
Definition zeroGlobals : HIDGlobalItems := mkHIDGlobalItems 0 0 0 0 0 0 0 0 0 0 0.
Definition zeroCollection : HIDCollection := mkHIDCollection 0 0 0 0 0 0 0 0 0 0.
Definition zeroReportItem : HIDReportItem := mkHIDReportItem 0 zeroGlobals 0 0 0 0 0 0 0 0 0 0.
Definition zeroReportSizes : HIDReportSizes := mkHIDReportSizes 0 0 0 0.
Definition zeroUsageItem : HIDP_UsageItem := mkHIDP_UsageItem false 0 0 0 0.
Definition zeroStringItem : HIDStringItem := mkHIDStringItem false 0 0 0.

(** ** [sizeof] on i386 *)
Definition sizeof_HIDCollection : Z := 40.
Definition sizeof_HIDReportItem : Z := 88.
Definition sizeof_HIDReportSizes : Z := 16.
Definition sizeof_HIDP_UsageItem : Z := 20.
Definition sizeof_HIDStringItem : Z := 16.
Definition sizeof_HIDGlobalItems : Z := 44.
Definition sizeof_int : Z := 4.
Definition sizeof_HIDPreparsedData : Z := 64.

(** Two structs with equal fields are equal. *)
Ltac struct_ext1 :=
  match goal with
  | |- @eq HIDReportDescriptor _ _ => apply HIDReportDescriptor_ext
  | |- @eq HIDPreparsedData _ _ => apply HIDPreparsedData_ext
  | |- @eq HIDReportItem _ _ => apply HIDReportItem_ext
  | |- @eq HIDGlobalItems _ _ => apply HIDGlobalItems_ext
  | |- @eq HIDCollection _ _ => apply HIDCollection_ext
  | |- @eq HIDItem _ _ => apply HIDItem_ext
  end.
Ltac struct_eq := struct_ext1; struct_simpl; try reflexivity.

(** ** Samples for the examples: a two-button mouse with X and Y, and a stack
    frame with arbitrary contents. *)
Definition mouse_descriptor : list Z :=
  [ 0x05; 0x01; 0x09; 0x02; 0xA1; 0x01; 0x09; 0x01; 0xA1; 0x00;
    0x05; 0x09; 0x19; 0x01; 0x29; 0x02; 0x15; 0x00; 0x25; 0x01;
    0x95; 0x02; 0x75; 0x01; 0x81; 0x02; 0x95; 0x01; 0x75; 0x06; 0x81; 0x03;
    0x05; 0x01; 0x09; 0x30; 0x09; 0x31; 0x15; 0x81; 0x25; 0x7F;
    0x75; 0x08; 0x95; 0x02; 0x81; 0x06; 0xC0; 0xC0 ].

Definition any_stack : HIDReportDescriptor :=
  mkHIDReportDescriptor [] 0 7 [] 3 [] 5 (mkHIDItem 1 2 3 4 5) 11 12 13 14 15 zeroGlobals
    true true 21 22 23 true false 31 32 false true 41 42.
