(* ===== verification/HIDNextItem.v ===== *)
(** * [HIDNextItem]: reading the next item of a report descriptor

    The lexer of [HIDNextItem.c], its reference decoding of a short item,
    and the item stream that both passes of the parser walk over. *)
From S2P Require Import Prelude HIDTypes.

(** ** The code *)

(** The loop that picks up the data bytes: [i] counts from 0 to [iSize]; the
    last byte read is returned for the sign test. *)
Fixpoint HIDNextItem_bytes (n : nat) (i : Z) (iByte : Z) (d : HIDReportDescriptor)
    : outcome (HIDReportDescriptor * Z) :=
  match n with
  | O => Ret (d, iByte)
  | S n' =>
      let* iByte := aget (d_descriptor d) (d_index d) in
      let d := d <| d_index := u32 (d_index d + 1) |> in
      let it := d_item d in
      let d := d <| d_item := it <| it_unsignedValue :=
                 Z.lor (it_unsignedValue it) (u32 (Z.shiftl iByte (i * 8))) |> |> in
      HIDNextItem_bytes n' (i + 1) iByte d
  end.

(** [while (i < sizeof(int)) signedValue |= (0xFF << ((i++)*8));] run [n] times. *)
Fixpoint HIDNextItem_extend (n : nat) (i : Z) (signedValue : Z) : Z :=
  match n with
  | O => signedValue
  | S n' => HIDNextItem_extend n' (i + 1)
              (Z.lor signedValue (s32 (Z.shiftl 0xFF (i * 8))))
  end.

Definition HIDNextItem (d : HIDReportDescriptor)
    : outcome (OSStatus * HIDReportDescriptor) :=
  let iLength := s32 (d_descriptorLength d) in
  (* Don't go past the end of the buffer *)
  if u32 iLength <=? d_index d then Ret (kHIDEndOfDescriptorErr, d) else
  (* Get the header byte *)
  let* iHeader := aget (d_descriptor d) (d_index d) in
  let d := d <| d_index := u32 (d_index d + 1) |> in
  if u32 iLength <? d_index d then Ret (kHIDEndOfDescriptorErr, d) else
  let itemType := Z.shiftr (Z.land iHeader kHIDItemTypeMask) kHIDItemTypeShift in
  let d := d <| d_item := (d_item d) <| it_itemType := itemType |> |> in
  if iHeader =? kHIDLongItemHeader then
    (* iSize = psD[( *piX)++]; ptItem->tag = *piX++;  the second increment
       moves the local pointer [piX] off the member [index]: the next use of
       *piX reads the struct member that follows it. *)
    let* _ := aget (d_descriptor d) (d_index d) in
    Fault PastObject
  else
    let iSize := Z.land iHeader kHIDItemSizeMask in
    let iSize := if iSize =? 3 then 4 else iSize in
    let tag := Z.shiftr (Z.land iHeader kHIDItemTagMask) kHIDItemTagShift in
    let d := d <| d_item := (d_item d) <| it_byteCount := iSize |> <| it_tag := tag |> |> in
    (* Don't go past the end of the buffer *)
    if u32 iLength <? u32 (d_index d + iSize) then Ret (kHIDEndOfDescriptorErr, d) else
    let d := d <| d_item := (d_item d) <| it_unsignedValue := 0 |> |> in
    if iSize =? 0 then
      Ret (kHIDSuccess, d <| d_item := (d_item d) <| it_signedValue := 0 |> |>)
    else
      let* '(d, iByte) := HIDNextItem_bytes (Z.to_nat iSize) 0 0 d in
      let signedValue := s32 (it_unsignedValue (d_item d)) in
      let signedValue :=
        if Z.land iByte 0x80 =? 0 then signedValue
        else HIDNextItem_extend (Z.to_nat (4 - iSize)) iSize signedValue in
      Ret (kHIDSuccess, d <| d_item := (d_item d) <| it_signedValue := signedValue |> |>).

(** The loop [while ((iStatus = HIDNextItem(ptDescriptor)) == kHIDSuccess) body]
    of both passes.  A [body] status other than [kHIDSuccess] is the code's
    [return iStatus]. *)
Inductive loop_result (S : Type) :=
| Returned (st : OSStatus) (d : HIDReportDescriptor) (s : S)
| Finished (st : OSStatus) (d : HIDReportDescriptor) (s : S).
Arguments Returned {S}.
Arguments Finished {S}.

Fixpoint item_loop {S} (fuel : nat)
    (body : HIDReportDescriptor → S → outcome (OSStatus * HIDReportDescriptor * S))
    (d : HIDReportDescriptor) (s : S) : outcome (loop_result S) :=
  match fuel with
  | O => Fault OutOfFuel
  | Datatypes.S fuel' =>
      let* '(iStatus, d) := HIDNextItem d in
      if iStatus =? kHIDSuccess then
        let* '(iStatus, d, s) := body d s in
        if iStatus =? kHIDSuccess then item_loop fuel' body d s
        else Ret (Returned iStatus d s)
      else Ret (Finished iStatus d s)
  end.

(** ** Reference decoding *)
Fixpoint le_val (bs : list Z) : Z :=
  match bs with [] => 0 | b :: bs' => b + 256 * le_val bs' end.

Definition short_size (h : Z) : Z := if h mod 4 =? 3 then 4 else h mod 4.

(** Two's-complement reading of [n] bytes. *)
Definition sext (n : Z) (v : Z) : Z :=
  if v <? 2 ^ (8 * n - 1) then v else v - 2 ^ (8 * n).

Definition decode_short (h : Z) (payload : list Z) : HIDItem :=
  mkHIDItem (short_size h) (h / 4 mod 4) (h / 16)
    (if short_size h =? 0 then 0 else sext (short_size h) (le_val payload))
    (le_val payload).

Inductive lex_result :=
| LexEnd
| LexLong
| LexItem (it : HIDItem) (next : Z).

(** What a descriptor of [len] bytes holds at position [pos]. *)
Definition lex (bs : list Z) (len pos : Z) : lex_result :=
  if len <=? pos then LexEnd else
  match bs !! Z.to_nat pos with
  | None => LexEnd
  | Some h =>
      if h =? kHIDLongItemHeader then LexLong
      else if len <? pos + 1 + short_size h then LexEnd
      else LexItem (decode_short h (take (Z.to_nat (short_size h)) (drop (Z.to_nat (pos + 1)) bs)))
                   (pos + 1 + short_size h)
  end.

(** The stream of items from [pos], and how it ends. *)
Fixpoint lex_all (fuel : nat) (bs : list Z) (len pos : Z) : list (HIDItem * Z) * lex_result :=
  match fuel with
  | O => ([], LexEnd)
  | S fuel' =>
      match lex bs len pos with
      | LexItem it next =>
          let '(its, e) := lex_all fuel' bs len next in ((it, next) :: its, e)
      | r => ([], r)
      end
  end.

Definition descriptor_items (bs : list Z) (len : Z) : list (HIDItem * Z) * lex_result :=
  lex_all (S (Z.to_nat len)) bs len 0.

(** A descriptor buffer: bytes, with the stated length inside the buffer and
    below 2^31 (the code holds the length in an [int]). *)
Definition buffer_ok (bs : list Z) (len : Z) : Prop :=
  Forall (fun b => is_u8 b) bs ∧ 0 ≤ len ≤ zlen bs ∧ len < 2147483648.

(** ** Correctness of the lexer *)
Lemma short_size_cases h :
  short_size h = 0 ∨ short_size h = 1 ∨ short_size h = 2 ∨ short_size h = 4.
Proof.
  unfold short_size. pose proof (Z.mod_pos_bound h 4).
  destruct (Z.eqb_spec (h mod 4) 3); lia.
Qed.

Lemma le_val_bound bs : Forall (fun b => is_u8 b) bs → 0 ≤ le_val bs < 256 ^ zlen bs.
Proof.
  induction 1 as [|b bs Hb _ IH]; [done|]. rewrite zlen_cons. cbn [le_val].
  rewrite Z.pow_add_r, Z.pow_1_r by (try apply zlen_nonneg; lia). nia.
Qed.

(** The data loop assembles the payload little-endian. *)
Lemma HIDNextItem_bytes_spec (payload : list Z) : ∀ i iByte d rest,
  Forall (fun b => is_u8 b) payload →
  0 ≤ d_index d → d_index d + zlen payload < 4294967296 →
  drop (Z.to_nat (d_index d)) (d_descriptor d) = payload ++ rest →
  0 ≤ i → i + zlen payload ≤ 4 →
  0 ≤ it_unsignedValue (d_item d) < 2 ^ (8 * i) →
  HIDNextItem_bytes (length payload) i iByte d =
  Ret (d <| d_index := d_index d + zlen payload |>
         <| d_item := (d_item d) <| it_unsignedValue :=
              it_unsignedValue (d_item d) + 2 ^ (8 * i) * le_val payload |> |>,
       default iByte (last payload)).
Proof.
  induction payload as [|b payload IH]; intros i iByte d rest Hbs Hi0 Hi Hd Hi' Hi4 Hu.
  { cbn [length HIDNextItem_bytes le_val last]. change (zlen []) with 0.
    rewrite Z.mul_0_r, !Z.add_0_r. f_equal. f_equal. struct_eq. by destruct (d_item d). }
  apply Forall_cons in Hbs as [Hb Hbs]. rewrite zlen_cons in Hi, Hi4.
  pose proof (zlen_nonneg payload).
  apply drop_cons_at in Hd as [Hat Hrest]; [|done].
  cbn [length HIDNextItem_bytes]. rewrite (proj2 (aget_at _ _ _) Hat). cbn [obind].
  rewrite (u32_id (d_index d + 1)) by lia.
  assert (0 ≤ Z.shiftl b (i * 8) < 2 ^ (8 * (i + 1))) as Hs.
  { rewrite Z.shiftl_mul_pow2 by lia. replace (8 * (i + 1)) with (i * 8 + 8) by lia.
    rewrite Z.pow_add_r by lia. change (2 ^ 8) with 256.
    assert (0 < 2 ^ (i * 8)) by (apply Z.pow_pos_nonneg; lia). nia. }
  assert (2 ^ (8 * (i + 1)) ≤ 4294967296).
  { change 4294967296 with (2 ^ 32). apply Z.pow_le_mono_r; lia. }
  rewrite (u32_id (Z.shiftl b (i * 8))) by lia.
  replace (i * 8) with (8 * i) in * by lia.
  struct_simpl. rewrite lor_shift_add by lia.
  assert (2 ^ (8 * (i + 1)) = 2 ^ (8 * i) * 256) as Hp.
  { replace (8 * (i + 1)) with (8 * i + 8) by lia. by rewrite Z.pow_add_r by lia. }
  erewrite IH with (rest := rest); struct_simpl; try done; try lia.
  - f_equal. f_equal; [|by rewrite last_cons; destruct (last payload)].
    rewrite zlen_cons. cbn [le_val]. struct_eq; [lia|]. struct_eq. rewrite Hp. lia.
  - rewrite Hp. nia.
Qed.

Lemma sign_bit b : is_u8 b → (Z.land b 0x80 =? 0) = (b <? 128).
Proof.
  intros Hb. apply Bool.eqb_prop.
  by apply (byte_forall (fun b => Bool.eqb (Z.land b 0x80 =? 0) (b <? 128))).
Qed.

Lemma header_fields h : is_u8 h →
  Z.shiftr (Z.land h kHIDItemTypeMask) kHIDItemTypeShift = h / 4 mod 4 ∧
  Z.shiftr (Z.land h kHIDItemTagMask) kHIDItemTagShift = h / 16 ∧
  (if Z.land h kHIDItemSizeMask =? 3 then 4 else Z.land h kHIDItemSizeMask) = short_size h.
Proof.
  intros Hh.
  pose proof (byte_forall (fun h =>
    (Z.shiftr (Z.land h kHIDItemTypeMask) kHIDItemTypeShift =? h / 4 mod 4) &&
    (Z.shiftr (Z.land h kHIDItemTagMask) kHIDItemTagShift =? h / 16) &&
    ((if Z.land h kHIDItemSizeMask =? 3 then 4 else Z.land h kHIDItemSizeMask)
       =? short_size h)) h eq_refl Hh) as H.
  cbn beta in H. rewrite !andb_true_iff, !Z.eqb_eq in H. tauto.
Qed.

(** The sign extension of the code is the two's-complement reading. *)
Lemma sign_extension payload n :
  Forall (fun b => is_u8 b) payload → zlen payload = n → n = 1 ∨ n = 2 ∨ n = 4 →
  (if Z.land (default 0 (last payload)) 0x80 =? 0 then s32 (le_val payload)
   else HIDNextItem_extend (Z.to_nat (4 - n)) n (s32 (le_val payload)))
  = sext n (le_val payload).
Proof.
  intros Hbs Hlen Hn.
  assert (∀ a n, 0 ≤ n → 0 ≤ a < 2 ^ n → Z.lor a (Z.shiftl (-1) n) = a - 2 ^ n) as Hext.
  { intros a m ??. rewrite lor_shift_add by lia. lia. }
  destruct Hn as [-> | [-> | ->]].
  - destruct payload as [|a [|]]; try (unfold zlen in Hlen; simpl in Hlen; lia).
    decompose_Forall_hyps. cbn [last default le_val]. rewrite sign_bit by lia.
    rewrite s32_id by lia. unfold sext. change (2 ^ (8 * 1 - 1)) with 128.
    replace (a + 256 * 0) with a by lia. destruct (Z.ltb_spec a 128); [done|].
    change (HIDNextItem_extend _ _ _) with
      (Z.lor (Z.lor (Z.lor a 0xFF00) 0xFF0000) (-16777216)).
    rewrite <- !Z.lor_assoc. apply (Hext a 8); lia.
  - destruct payload as [|a [|b [|]]]; try (unfold zlen in Hlen; simpl in Hlen; lia).
    decompose_Forall_hyps. cbn [last default le_val]. rewrite sign_bit by lia.
    rewrite s32_id by lia. unfold sext. change (2 ^ (8 * 2 - 1)) with 32768.
    destruct (Z.ltb_spec b 128), (Z.ltb_spec (a + 256 * (b + 256 * 0)) 32768);
      try done; try lia.
    change (HIDNextItem_extend _ _ ?v) with (Z.lor (Z.lor v 0xFF0000) (-16777216)).
    rewrite <- !Z.lor_assoc. apply (Hext _ 16); lia.
  - destruct payload as [|a [|b [|c [|d [|]]]]]; try (unfold zlen in Hlen; simpl in Hlen; lia).
    decompose_Forall_hyps. cbn [last default le_val]. rewrite sign_bit by lia.
    change (HIDNextItem_extend _ _ ?v) with v.
    unfold sext. change (2 ^ (8 * 4 - 1)) with 2147483648.
    change (2 ^ (8 * 4)) with 4294967296.
    destruct (d <? 128); case_match; rewrite ?Z.ltb_lt, ?Z.ltb_ge in *;
      first [apply s32_id; lia | apply s32_high; lia].
Qed.

Lemma buffer_take bs len i n :
  buffer_ok bs len → 0 ≤ i → 0 ≤ n → i + n ≤ len →
  Forall (fun b => is_u8 b) (take (Z.to_nat n) (drop (Z.to_nat i) bs)) ∧
  zlen (take (Z.to_nat n) (drop (Z.to_nat i) bs)) = n.
Proof.
  intros (HF & Hl & _) ???. split; [by apply Forall_take, Forall_drop|].
  unfold zlen in *. rewrite length_take, length_drop. lia.
Qed.

Lemma buffer_at bs len i :
  buffer_ok bs len → 0 ≤ i < len → ∃ h, at_ bs i h ∧ is_u8 h.
Proof.
  intros (HF & Hl & _) ?. destruct (at_exists bs i) as [h Hh]; [lia|].
  exists h. split; [done|]. destruct Hh as [_ Hh]. by eapply Forall_lookup_1 in HF.
Qed.

(** [lexed d r]: the result of [HIDNextItem d] is what [lex] says it is.  At
    the end of the descriptor only [index] and [item] may have changed. *)
Definition lexed (d : HIDReportDescriptor) (r : lex_result) : Prop :=
  match r with
  | LexEnd => ∃ i it, HIDNextItem d =
      Ret (kHIDEndOfDescriptorErr, d <| d_index := i |> <| d_item := it |>)
  | LexLong => ∃ f, HIDNextItem d = Fault f ∧ (f = PastObject ∨ f = OutOfBounds)
  | LexItem it next => HIDNextItem d =
      Ret (kHIDSuccess, d <| d_index := next |> <| d_item := it |>)
  end.

Lemma HIDNextItem_lexed d :
  buffer_ok (d_descriptor d) (d_descriptorLength d) → 0 ≤ d_index d →
  lexed d (lex (d_descriptor d) (d_descriptorLength d) (d_index d)).
Proof.
  intros Hbuf Hi. pose proof Hbuf as (HF & Hl & Hl31).
  unfold lex, lexed, HIDNextItem.
  rewrite u32_s32, (u32_id (d_descriptorLength d)) by lia.
  destruct (Z.leb_spec (d_descriptorLength d) (d_index d)).
  { exists (d_index d), (d_item d). by destruct d. }
  destruct (buffer_at _ _ (d_index d) Hbuf) as (h & Hh & Hh8); [lia|].
  rewrite (proj2 (aget_at _ _ _) Hh). destruct Hh as [_ ->]. cbn [obind].
  rewrite (u32_id (d_index d + 1)) by lia. struct_simpl.
  destruct (Z.ltb_spec (d_descriptorLength d) (d_index d + 1)); [exfalso; lia|].
  destruct (header_fields h Hh8) as (-> & -> & ->).
  struct_simpl.
  destruct (Z.eqb_spec h kHIDLongItemHeader).
  { destruct (aget _ _) as [|f] eqn:E; cbn [obind]; [by eauto|].
    exists f. split; [done|]. right. by eapply aget_fault. }
  pose proof (short_size_cases h).
  rewrite (u32_id (d_index d + 1 + short_size h)) by lia.
  destruct (Z.ltb_spec (d_descriptorLength d) (d_index d + 1 + short_size h)).
  { by eexists _, _. }
  destruct (Z.eqb_spec (short_size h) 0) as [E0|E0].
  { unfold decode_short. rewrite E0. cbn [Z.to_nat take le_val Z.eqb].
    rewrite Z.add_0_r. by do 2 f_equal. }
  destruct (buffer_take _ _ (d_index d + 1) (short_size h) Hbuf) as [HFp Hlp]; [lia..|].
  set (payload := take _ _) in *.
  assert (Z.to_nat (short_size h) = length payload) as Hlen by (unfold zlen in Hlp; lia).
  rewrite Hlen at 1.
  erewrite HIDNextItem_bytes_spec with (rest := drop (Z.to_nat (short_size h)) (drop (Z.to_nat (d_index d + 1)) (d_descriptor d)));
    struct_simpl; try done; try lia;
    [|unfold payload; symmetry; apply take_drop].
  cbn [obind]. struct_simpl.
  replace (0 + 2 ^ (8 * 0) * le_val payload) with (le_val payload) by lia.
  rewrite (sign_extension payload (short_size h)) by (done || lia).
  unfold decode_short. rewrite Hlp, (proj2 (Z.eqb_neq _ _) E0).
  by do 2 f_equal.
Qed.

(** ** The item stream *)
Lemma lex_progress bs len pos it next :
  0 ≤ pos → lex bs len pos = LexItem it next → pos < next ≤ len.
Proof.
  unfold lex. intros Hp. destruct (Z.leb_spec len pos); [done|].
  destruct (bs !! _) as [h|]; [|done]. pose proof (short_size_cases h).
  destruct (h =? _); [done|]. destruct (Z.ltb_spec len (pos + 1 + short_size h)); [done|].
  intros [= _ <-]. lia.
Qed.

(** What every decoded item satisfies. *)
Definition item_ok (it : HIDItem) : Prop :=
  is_u32 (it_unsignedValue it) ∧ is_s32 (it_signedValue it) ∧
  0 ≤ it_itemType it < 4 ∧ 0 ≤ it_tag it < 16 ∧ 0 ≤ it_byteCount it ≤ 4.

Lemma lex_item_ok bs len pos it next :
  buffer_ok bs len → 0 ≤ pos → lex bs len pos = LexItem it next → item_ok it.
Proof.
  unfold lex. intros Hbuf Hp. destruct (Z.leb_spec len pos); [done|].
  destruct (buffer_at bs len pos Hbuf) as (h & [_ ->] & Hh); [lia|].
  pose proof (short_size_cases h) as Hs.
  destruct (h =? _); [done|]. destruct (Z.ltb_spec len (pos + 1 + short_size h)); [done|].
  intros [= <- _].
  destruct (buffer_take bs len (pos + 1) (short_size h) Hbuf) as [HF Hl]; [lia..|].
  set (payload := take _ _) in *.
  pose proof (le_val_bound _ HF) as Hv. rewrite Hl in Hv.
  assert (256 ^ short_size h ≤ 4294967296).
  { destruct Hs as [-> | [-> | [-> | ->]]]; vm_compute; congruence. }
  unfold item_ok, decode_short. cbn.
  repeat split; try lia; try (apply Z.mod_pos_bound; lia); try (apply Z.div_pos; lia);
    try (apply Z.div_lt_upper_bound; lia);
    destruct Hs as [E | [E | [E | E]]]; rewrite E in *; cbn [Z.eqb Pos.eqb]; try lia;
    unfold sext;
    change (256 ^ 1) with 256 in *; change (256 ^ 2) with 65536 in *;
    change (256 ^ 4) with 4294967296 in *;
    change (2 ^ (8 * 1 - 1)) with 128; change (2 ^ (8 * 2 - 1)) with 32768;
    change (2 ^ (8 * 4 - 1)) with 2147483648;
    change (2 ^ (8 * 1)) with 256; change (2 ^ (8 * 2)) with 65536;
    change (2 ^ (8 * 4)) with 4294967296;
    case_match; rewrite ?Z.ltb_lt, ?Z.ltb_ge in *; lia.
Qed.

Lemma lex_all_ok fuel bs len : ∀ pos its e,
  buffer_ok bs len → 0 ≤ pos → lex_all fuel bs len pos = (its, e) →
  Forall (fun p => item_ok p.1 ∧ 0 ≤ p.2 ≤ len) its ∧ (∀ it next, e ≠ LexItem it next) ∧
  zlen its ≤ Z.max 0 (len - pos).
Proof.
  induction fuel as [|fuel IH]; intros pos its e Hbuf Hp; cbn [lex_all].
  { intros [= <- <-]. repeat split; [done..|]. change (zlen []) with 0. lia. }
  destruct (lex bs len pos) as [| |it next] eqn:E.
  1,2: intros [= <- <-]; repeat split; [done..|]; change (zlen []) with 0; lia.
  destruct (lex_all fuel bs len next) as [its' e'] eqn:E'. intros [= <- <-].
  pose proof (lex_progress _ _ _ _ _ Hp E).
  destruct (IH next its' e') as (? & ? & ?); [done|lia|done|].
  repeat split; [|done|rewrite zlen_cons; lia].
  constructor; [|done]. cbn. split; [by eapply lex_item_ok|lia].
Qed.

(** The body of the loop run over an explicit item stream. *)
Fixpoint run_items {S}
    (body : HIDReportDescriptor → S → outcome (OSStatus * HIDReportDescriptor * S))
    (its : list (HIDItem * Z)) (d : HIDReportDescriptor) (s : S)
    : outcome (option OSStatus * HIDReportDescriptor * S) :=
  match its with
  | [] => Ret (None, d, s)
  | (it, next) :: its' =>
      let* '(st, d, s) := body (d <| d_index := next |> <| d_item := it |>) s in
      if st =? kHIDSuccess then run_items body its' d s else Ret (Some st, d, s)
  end.

(** A loop body that leaves the lexer's own fields alone. *)
Definition keeps_lexer (d d' : HIDReportDescriptor) : Prop :=
  d_descriptor d' = d_descriptor d ∧ d_descriptorLength d' = d_descriptorLength d ∧
  d_index d' = d_index d.

Definition frame {S}
    (body : HIDReportDescriptor → S → outcome (OSStatus * HIDReportDescriptor * S)) : Prop :=
  ∀ d s st d' s', body d s = Ret (st, d', s') → keeps_lexer d d'.

Section ItemLoop.
Context {S : Type}
  (body : HIDReportDescriptor → S → outcome (OSStatus * HIDReportDescriptor * S)).
Hypothesis Hframe : frame body.

(** With fuel for the bytes that are left, the loop is the run of its body
    over the item stream: it never stops for lack of fuel. *)
Lemma item_loop_run fuel : ∀ d s its e,
  buffer_ok (d_descriptor d) (d_descriptorLength d) → 0 ≤ d_index d →
  Z.max 0 (d_descriptorLength d - d_index d) < Z.of_nat fuel →
  lex_all fuel (d_descriptor d) (d_descriptorLength d) (d_index d) = (its, e) →
  match run_items body its d s with
  | Fault f => item_loop fuel body d s = Fault f
  | Ret (Some st, d', s') => item_loop fuel body d s = Ret (Returned st d' s')
  | Ret (None, d', s') =>
      match e with
      | LexLong => ∃ f, item_loop fuel body d s = Fault f ∧ (f = PastObject ∨ f = OutOfBounds)
      | _ => ∃ i it, item_loop fuel body d s =
               Ret (Finished kHIDEndOfDescriptorErr (d' <| d_index := i |> <| d_item := it |>) s')
      end
  end.
Proof using Hframe.
  induction fuel as [|fuel IH]; intros d s its e Hbuf Hi Hfuel Hlex; [lia|].
  cbn [lex_all] in Hlex. cbn [item_loop].
  pose proof (HIDNextItem_lexed d Hbuf Hi) as Hd.
  destruct (lex _ _ _) as [| |it next] eqn:El.
  - injection Hlex as <- <-. destruct Hd as (i & it & ->). cbn [run_items obind].
    eexists _, _. reflexivity.
  - injection Hlex as <- <-. destruct Hd as (f & -> & Hf). cbn [run_items obind]. by eauto.
  - pose proof (lex_progress _ _ _ _ _ Hi El).
    destruct (lex_all fuel _ _ next) as [its' e'] eqn:El'. injection Hlex as <- <-.
    cbn [lexed] in Hd. rewrite Hd. cbn [run_items obind]. rewrite Z.eqb_refl.
    set (d1 := setf d_item _ _). destruct (body d1 s) as [[[st d2] s2]|] eqn:Eb; [|done].
    cbn [obind]. destruct (Z.eqb_spec st kHIDSuccess); [|done].
    destruct (Hframe _ _ _ _ _ Eb) as (Hk1 & Hk2 & Hk3).
    subst d1. struct_simpl in Hk1. struct_simpl in Hk2. struct_simpl in Hk3.
    apply IH; rewrite ?Hk1, ?Hk2, ?Hk3; done || lia.
Qed.
End ItemLoop.

(** C27. [HIDNextItem] on a buffer of bytes decodes exactly the item the
    reference [lex] reads at the current position: it reports the end of the
    descriptor when the position is at the end or the item would cross it,
    faults on a long item, and otherwise succeeds with the decoded item
    (little-endian unsigned value, its two's-complement reading, tag, type,
    size), the position moved past it and every other field unchanged. *)
Theorem HIDNextItem_lexes d :
  buffer_ok (d_descriptor d) (d_descriptorLength d) → 0 ≤ d_index d →
  lexed d (lex (d_descriptor d) (d_descriptorLength d) (d_index d)).
Proof. apply HIDNextItem_lexed. Qed.

Definition mouse_cursor : HIDReportDescriptor :=
  any_stack <| d_descriptor := mouse_descriptor |> <| d_descriptorLength := 50 |> <| d_index := 38 |>.

Lemma mouse_buffer : buffer_ok mouse_descriptor 50.
Proof.
  split; [|by vm_compute]. apply Forall_forall. intros b Hb.
  assert (forallb (fun b => (0 <=? b) && (b <? 256)) mouse_descriptor = true) as H by done.
  rewrite forallb_forall in H. apply list_elem_of_In, H in Hb. apply andb_prop in Hb. lia.
Qed.

(** Item 0x15 0x81 at position 38: logical minimum -127. *)
Lemma HIDNextItem_lexes_witness :
  lexed mouse_cursor (LexItem (mkHIDItem 1 1 1 (-127) 129) 40).
Proof.
  change (LexItem (mkHIDItem 1 1 1 (-127) 129) 40)
    with (lex (d_descriptor mouse_cursor) (d_descriptorLength mouse_cursor) (d_index mouse_cursor)).
  apply (HIDNextItem_lexes mouse_cursor); [exact mouse_buffer|by vm_compute].
Defined.
