(* ===== verification/PoolAlloc.v ===== *)
(** * Kernel memory ([PoolAlloc.c])

    [IOMalloc] and [IOFree] belong to the kernel and are parameters: the
    class [KernelAlloc] names them, [KernelAllocLaws] what the parser relies
    on (a new block is fresh, a freed block is gone).  The two pool functions
    are the code's; freeing a block that is not live with exactly the given
    size is a fault. *)
From S2P Require Import Prelude HIDTypes.

Class KernelAlloc (H : Type) := {
  IOMalloc : Z → H → option Z * H;
  IOFree : Z → Z → H → H;
  live : H → gmap Z Z      (* block address to size *)
}.

Class KernelAllocLaws (H : Type) `{KernelAlloc H} : Prop := {
  malloc_live n h p h' :
    IOMalloc n h = (Some p, h') → live h !! p = None ∧ live h' = <[p := n]> (live h);
  malloc_fail n h h' : IOMalloc n h = (None, h') → live h' = live h;
  free_live p n h : live h !! p = Some n → live (IOFree p n h) = delete p (live h)
}.

Section Pool.
Context {H : Type} `{KernelAlloc H}.

(** [IOMalloc] then, when [clear] is set, [bzero] on whatever it returned. *)
Definition PoolAllocateResident (size : Z) (clear : bool) (h : H) : outcome (option Z * H) :=
  let '(mem, h) := IOMalloc size h in
  if clear then
    match mem with
    | Some _ => Ret (mem, h)
    | None => if size =? 0 then Ret (mem, h) else Fault NullDeref
    end
  else Ret (mem, h).

Definition PoolDeallocate (ptr : Z) (size : Z) (h : H) : outcome (OSStatus * H) :=
  if decide (live h !! ptr = Some size) then Ret (noErr, IOFree ptr size h)
  else Fault BadFree.

Lemma PoolDeallocate_live `{!KernelAllocLaws H} p n h :
  live h !! p = Some n →
  ∃ h', PoolDeallocate p n h = Ret (noErr, h') ∧ live h' = delete p (live h).
Proof.
  intros Hl. unfold PoolDeallocate. rewrite decide_True by done.
  eexists. split; [done|]. by apply free_live.
Qed.

(** A pool that is cleared is new memory, or the kernel had none and the
    null pointer was cleared. *)
Lemma PoolAllocateResident_cases `{!KernelAllocLaws H} n h :
  n ≠ 0 →
  (∃ p h', IOMalloc n h = (Some p, h') ∧ PoolAllocateResident n true h = Ret (Some p, h') ∧
    live h !! p = None ∧ live h' = <[p := n]> (live h)) ∨
  (∃ h', IOMalloc n h = (None, h') ∧ PoolAllocateResident n true h = Fault NullDeref).
Proof.
  intros Hn%Z.eqb_neq. unfold PoolAllocateResident. rewrite Hn.
  destruct (IOMalloc n h) as [[p|] h'] eqn:E; [left|right; by exists h'].
  exists p, h'. split; [done|]. split; [done|]. by apply (malloc_live n).
Qed.

Lemma PoolAllocateResident_some `{!KernelAllocLaws H} n h p h' :
  IOMalloc n h = (Some p, h') →
  PoolAllocateResident n true h = Ret (Some p, h') ∧
  live h !! p = None ∧ live h' = <[p := n]> (live h).
Proof.
  intros E. unfold PoolAllocateResident. rewrite E. split; [done|]. by apply (malloc_live n).
Qed.
End Pool.

(** A concrete allocator: the heap is the map of live blocks. *)
#[export] Instance gmap_alloc : KernelAlloc (gmap Z Z) := {
  IOMalloc n h := let p := 1 + map_fold (fun k _ acc => Z.max k acc) 0 h in (Some p, <[p := n]> h);
  IOFree p _ h := delete p h;
  live h := h
}.

Lemma map_fold_max_bound (h : gmap Z Z) k v :
  h !! k = Some v → k ≤ map_fold (fun k _ acc => Z.max k acc) 0 h.
Proof.
  revert k v. induction h as [|i x m Hi Hfold IH] using map_first_key_ind; intros k v.
  { by rewrite lookup_empty. }
  rewrite map_fold_insert_first_key by done.
  rewrite lookup_insert_Some. intros [[<- _]|[_ Hk]]; [lia|].
  apply IH in Hk. lia.
Qed.

#[export] Instance gmap_alloc_laws : KernelAllocLaws (gmap Z Z).
Proof.
  split.
  - intros n h p h' [= <- <-]. split; [|done]. cbn [live gmap_alloc].
    apply eq_None_not_Some. intros [v Hv]. apply map_fold_max_bound in Hv. lia.
  - done.
  - done.
Qed.
