(* ===== verification/HIDCount.v ===== *)
(** * [HIDCountDescriptorItems]: the first pass

    Counts the items of the descriptor, rejects malformed ones, allocates one
    pool and carves the arrays of the second pass out of it.  The thirteen
    local counters are the record [Counts]. *)
From S2P Require Import Prelude HIDTypes HIDNextItem PoolAlloc.

Record Counts := mkCounts {
  n_collectionCount : Z;
  n_reportItemCount : Z;
  n_iUsages : Z;
  n_iUsageRanges : Z;
  n_iStrings : Z;
  n_iStringRanges : Z;
  n_iDesigs : Z;
  n_iDesigRanges : Z;
  n_reportCount : Z;
  n_globalsNesting : Z;
  n_iMaxGlobalsNesting : Z;
  n_collectionNesting : Z;
  n_iMaxCollectionNesting : Z }.

#[export] Instance Counts_eta : Eta Counts :=
  fun r => mkCounts (n_collectionCount r) (n_reportItemCount r) (n_iUsages r)
    (n_iUsageRanges r) (n_iStrings r) (n_iStringRanges r) (n_iDesigs r)
    (n_iDesigRanges r) (n_reportCount r) (n_globalsNesting r)
    (n_iMaxGlobalsNesting r) (n_collectionNesting r) (n_iMaxCollectionNesting r).
#[export] Instance set_n_collectionCount : Setter n_collectionCount := ltac:(derive_setter).
#[export] Instance set_n_reportItemCount : Setter n_reportItemCount := ltac:(derive_setter).
#[export] Instance set_n_iUsages : Setter n_iUsages := ltac:(derive_setter).
#[export] Instance set_n_iUsageRanges : Setter n_iUsageRanges := ltac:(derive_setter).
#[export] Instance set_n_iStrings : Setter n_iStrings := ltac:(derive_setter).
#[export] Instance set_n_iStringRanges : Setter n_iStringRanges := ltac:(derive_setter).
#[export] Instance set_n_iDesigs : Setter n_iDesigs := ltac:(derive_setter).
#[export] Instance set_n_iDesigRanges : Setter n_iDesigRanges := ltac:(derive_setter).
#[export] Instance set_n_reportCount : Setter n_reportCount := ltac:(derive_setter).
#[export] Instance set_n_globalsNesting : Setter n_globalsNesting := ltac:(derive_setter).
#[export] Instance set_n_iMaxGlobalsNesting : Setter n_iMaxGlobalsNesting := ltac:(derive_setter).
#[export] Instance set_n_collectionNesting : Setter n_collectionNesting := ltac:(derive_setter).
#[export] Instance set_n_iMaxCollectionNesting : Setter n_iMaxCollectionNesting := ltac:(derive_setter).

(** Initial values of the counters. *)
Definition counts0 : Counts := mkCounts 1 0 0 0 0 0 0 0 1 0 0 0 0.

(** The [switch (ptItem->itemType)] of the counting loop.  A status other
    than [kHIDSuccess] is the code's early [return]. *)
Definition count_item (it : HIDItem) (c : Counts) : OSStatus * Counts :=
  let tag := it_tag it in
  if it_itemType it =? kHIDTypeMain then
    if tag =? kHIDTagCollection then
      let c := c <| n_collectionCount := n_collectionCount c + 1 |> in
      let c := c <| n_collectionNesting := n_collectionNesting c + 1 |> in
      let c := if n_iMaxCollectionNesting c <? n_collectionNesting c
               then c <| n_iMaxCollectionNesting := n_collectionNesting c |> else c in
      (kHIDSuccess, c)
    else if tag =? kHIDTagEndCollection then
      let old := n_collectionNesting c in
      let c := c <| n_collectionNesting := old - 1 |> in
      if old =? 0 then (kHIDInvalidPreparsedDataErr, c) else (kHIDSuccess, c)
    else if (tag =? kHIDTagInput) || (tag =? kHIDTagOutput) || (tag =? kHIDTagFeature) then
      (kHIDSuccess, c <| n_reportItemCount := n_reportItemCount c + 1 |>)
    else (kHIDSuccess, c)
  else if it_itemType it =? kHIDTypeGlobal then
    if tag =? kHIDTagReportID then
      (kHIDSuccess, c <| n_reportCount := n_reportCount c + 1 |>)
    else if tag =? kHIDTagPush then
      let c := c <| n_globalsNesting := n_globalsNesting c + 1 |> in
      let c := if n_iMaxGlobalsNesting c <? n_globalsNesting c
               then c <| n_iMaxGlobalsNesting := n_globalsNesting c |> else c in
      (kHIDSuccess, c)
    else if tag =? kHIDTagPop then
      let c := c <| n_globalsNesting := n_globalsNesting c - 1 |> in
      if n_globalsNesting c <? 0 then (kHIDInvalidPreparsedDataErr, c) else (kHIDSuccess, c)
    else (kHIDSuccess, c)
  else if it_itemType it =? kHIDTypeLocal then
    if tag =? kHIDTagUsage then
      (kHIDSuccess, c <| n_iUsages := n_iUsages c + 1 |>)
    else if (tag =? kHIDTagUsageMinimum) || (tag =? kHIDTagUsageMaximum) then
      (kHIDSuccess, c <| n_iUsageRanges := n_iUsageRanges c + 1 |>)
    else if tag =? kHIDTagStringIndex then
      (kHIDSuccess, c <| n_iStrings := n_iStrings c + 1 |>)
    else if (tag =? kHIDTagStringMinimum) || (tag =? kHIDTagStringMaximum) then
      (kHIDSuccess, c <| n_iStringRanges := n_iStringRanges c + 1 |>)
    else if tag =? kHIDTagDesignatorIndex then
      (kHIDSuccess, c <| n_iDesigs := n_iDesigs c + 1 |>)
    else if (tag =? kHIDTagDesignatorMinimum) || (tag =? kHIDTagDesignatorMaximum) then
      (kHIDSuccess, c <| n_iDesigRanges := n_iDesigRanges c + 1 |>)
    else (kHIDSuccess, c)
  else (kHIDSuccess, c).

Definition count_body (d : HIDReportDescriptor) (c : Counts)
    : outcome (OSStatus * HIDReportDescriptor * Counts) :=
  let '(st, c) := count_item (d_item d) c in Ret (st, d, c).

(** "Disallow malformed descriptors" *)
Definition malformed (c : Counts) : bool :=
  negb (n_collectionNesting c =? 0) || (n_collectionCount c =? 1) ||
  (n_reportItemCount c =? 0) || (Z.land (n_iUsageRanges c) 1 =? 1) ||
  (Z.land (n_iStringRanges c) 1 =? 1) || (Z.land (n_iDesigRanges c) 1 =? 1).

(** "Summarize the Indices and Ranges" *)
Definition usageCells (c : Counts) : Z := n_iUsages c + Z.quot (n_iUsageRanges c) 2.
Definition stringCells (c : Counts) : Z := n_iStrings c + Z.quot (n_iStringRanges c) 2.
Definition desigCells (c : Counts) : Z := n_iDesigs c + Z.quot (n_iDesigRanges c) 2.

Definition spaceRequired (c : Counts) : Z :=
  sizeof_HIDCollection * n_collectionCount c
  + sizeof_HIDReportItem * n_reportItemCount c
  + sizeof_HIDReportSizes * n_reportCount c
  + sizeof_HIDP_UsageItem * usageCells c
  + sizeof_HIDStringItem * stringCells c
  + sizeof_HIDStringItem * desigCells c
  + sizeof_int * n_iMaxCollectionNesting c
  + sizeof_HIDGlobalItems * n_iMaxGlobalsNesting c.

(** A zeroed array of [n] cells. *)
Definition cells {A} (n : Z) (zero : A) : list A := replicate (Z.to_nat n) zero.

(** "Allocate space to the various structures": the pool is cut into the
    arrays in the code's order. *)
Definition carve (c : Counts) (d : HIDReportDescriptor) (pd : HIDPreparsedData)
    : HIDReportDescriptor * HIDPreparsedData :=
  (d <| d_collectionStack := cells (n_iMaxCollectionNesting c) 0 |>
     <| d_collectionNesting := 0 |>
     <| d_globalsStack := cells (n_iMaxGlobalsNesting c) zeroGlobals |>
     <| d_globalsNesting := 0 |>,
   pd <| pd_collections := cells (n_collectionCount c) zeroCollection |>
      <| pd_collectionCount := 0 |>
      <| pd_reportItems := cells (n_reportItemCount c) zeroReportItem |>
      <| pd_reportItemCount := 0 |>
      <| pd_reports := cells (n_reportCount c) zeroReportSizes |>
      <| pd_reportCount := 0 |>
      <| pd_usageItems := cells (usageCells c) zeroUsageItem |>
      <| pd_usageItemCount := 0 |>
      <| pd_stringItems := cells (stringCells c) zeroStringItem |>
      <| pd_stringItemCount := 0 |>
      <| pd_desigItems := cells (desigCells c) zeroStringItem |>
      <| pd_desigItemCount := 0 |>).

Definition HIDCountDescriptorItems {H} `{KernelAlloc H}
    (d : HIDReportDescriptor) (pd : HIDPreparsedData) (h : H)
    : outcome (OSStatus * HIDReportDescriptor * HIDPreparsedData * H) :=
  let pd := pd <| pd_rawMemPtr := None |> in
  let d := d <| d_index := 0 |> in
  let* r := item_loop (S (Z.to_nat (d_descriptorLength d))) count_body d counts0 in
  match r with
  | Returned st d _ => Ret (st, d, pd, h)
  | Finished iStatus d c =>
      if malformed c then Ret (kHIDInvalidPreparsedDataErr, d, pd, h) else
      let iSpaceRequired := u32 (spaceRequired c) in
      let* '(pMem, h) := PoolAllocateResident iSpaceRequired true h in
      match pMem with
      | None => Ret (kHIDNotEnoughMemoryErr, d, pd, h)
      | Some mem =>
          let pd := pd <| pd_rawMemPtr := Some mem |>
                       <| pd_numBytesAllocated := iSpaceRequired |> in
          if iSpaceRequired <? spaceRequired c then Fault PoolOverrun else
          let '(d, pd) := carve c d pd in
          if iStatus =? kHIDEndOfDescriptorErr then Ret (kHIDSuccess, d, pd, h)
          else Ret (iStatus, d, pd, h)
      end
  end.

(** ** The counters over an item stream *)
Fixpoint count_run (its : list (HIDItem * Z)) (c : Counts) : OSStatus * Counts :=
  match its with
  | [] => (kHIDSuccess, c)
  | (it, _) :: its' =>
      let '(st, c) := count_item it c in
      if st =? kHIDSuccess then count_run its' c else (st, c)
  end.

Lemma count_body_frame : frame count_body.
Proof.
  intros d c st d' c'. unfold count_body. destruct (count_item _ _).
  intros [= _ <- _]. done.
Qed.

Lemma count_body_run its : ∀ d c,
  ∃ d', run_items count_body its d c =
    Ret (let '(st, c') := count_run its c in
         (if st =? kHIDSuccess then None else Some st, d', c')) ∧
    (∃ i it, d' = d <| d_index := i |> <| d_item := it |>).
Proof.
  induction its as [|[it next] its IH]; intros d c; cbn [run_items count_run].
  { exists d. split; [done|]. exists (d_index d), (d_item d). by destruct d. }
  unfold count_body at 1. struct_simpl.
  destruct (count_item it c) as [st c1]. cbn [obind].
  destruct (Z.eqb_spec st kHIDSuccess) as [->|Hst].
  - destruct (IH (d <| d_index := next |> <| d_item := it |>) c1) as (d' & -> & (i & it' & ->)).
    eexists. split; [done|]. exists i, it'. struct_eq.
  - eexists. rewrite (proj2 (Z.eqb_neq _ _) Hst). split; [done|]. by exists next, it.
Qed.

(** The invariant of the counting loop. *)
Record counts_ok (c : Counts) : Prop := {
  co_collections : 1 ≤ n_collectionCount c;
  co_items : 0 ≤ n_reportItemCount c;
  co_reports : 1 ≤ n_reportCount c;
  co_usages : 0 ≤ n_iUsages c ∧ 0 ≤ n_iUsageRanges c;
  co_strings : 0 ≤ n_iStrings c ∧ 0 ≤ n_iStringRanges c;
  co_desigs : 0 ≤ n_iDesigs c ∧ 0 ≤ n_iDesigRanges c;
  co_globals : 0 ≤ n_globalsNesting c ≤ n_iMaxGlobalsNesting c;
  co_nesting : 0 ≤ n_collectionNesting c ≤ n_iMaxCollectionNesting c }.

(** Every capacity only grows. *)
Record counts_le (c c' : Counts) : Prop := {
  cl_collections : n_collectionCount c ≤ n_collectionCount c';
  cl_items : n_reportItemCount c ≤ n_reportItemCount c';
  cl_reports : n_reportCount c ≤ n_reportCount c';
  cl_usages : n_iUsages c ≤ n_iUsages c' ∧ n_iUsageRanges c ≤ n_iUsageRanges c';
  cl_strings : n_iStrings c ≤ n_iStrings c' ∧ n_iStringRanges c ≤ n_iStringRanges c';
  cl_desigs : n_iDesigs c ≤ n_iDesigs c' ∧ n_iDesigRanges c ≤ n_iDesigRanges c';
  cl_globals : n_iMaxGlobalsNesting c ≤ n_iMaxGlobalsNesting c';
  cl_nesting : n_iMaxCollectionNesting c ≤ n_iMaxCollectionNesting c' }.

#[export] Instance counts_le_preorder : PreOrder counts_le.
Proof.
  split.
  - intros c. split; lia.
  - intros a b c [] []. split; lia.
Qed.

Lemma counts0_ok : counts_ok counts0.
Proof. split; cbn; lia. Qed.

Lemma count_item_spec it c c' :
  counts_ok c → count_item it c = (kHIDSuccess, c') →
  counts_ok c' ∧ counts_le c c' ∧ spaceRequired c' ≤ spaceRequired c + 88.
Proof.
  intros [] Hc. unfold count_item in Hc.
  tests; try discriminate Hc; injection Hc as <-;
    (split; [split|split; [split|unfold spaceRequired, usageCells, stringCells, desigCells,
      sizeof_HIDCollection, sizeof_HIDReportItem, sizeof_HIDReportSizes, sizeof_HIDP_UsageItem,
      sizeof_HIDStringItem, sizeof_int, sizeof_HIDGlobalItems]]);
    struct_simpl in *; try lia; Z.to_euclidean_division_equations; lia.
Qed.

Lemma count_run_spec its : ∀ c c',
  counts_ok c → count_run its c = (kHIDSuccess, c') →
  counts_ok c' ∧ counts_le c c' ∧ spaceRequired c' ≤ spaceRequired c + 88 * zlen its.
Proof.
  induction its as [|[it next] its IH]; intros c c' Hc; cbn [count_run].
  { intros [= <-]. change (zlen []) with 0. split; [done|]. split; [done|]. lia. }
  destruct (count_item it c) as [st c1] eqn:E.
  destruct (Z.eqb_spec st kHIDSuccess) as [->|Hst]; [|congruence].
  intros H. destruct (count_item_spec _ _ _ Hc E) as (Hc1 & Hle & Hs).
  destruct (IH _ _ Hc1 H) as (Hc' & Hle' & Hs').
  split; [done|]. split; [by etrans|]. rewrite zlen_cons. lia.
Qed.

(** Only the two nesting checks stop the counting loop. *)
Lemma count_item_status it c st c' :
  count_item it c = (st, c') → st = kHIDSuccess ∨ st = kHIDInvalidPreparsedDataErr.
Proof. unfold count_item. intros H. tests; injection H as <- _; auto. Qed.

Lemma count_run_status its : ∀ c st c',
  count_run its c = (st, c') → st = kHIDSuccess ∨ st = kHIDInvalidPreparsedDataErr.
Proof.
  induction its as [|[it next] its IH]; intros c st c'; cbn [count_run].
  { intros [= <- _]. auto. }
  destruct (count_item it c) as [st1 c1] eqn:E.
  destruct (Z.eqb_spec st1 kHIDSuccess) as [->|Hst]; [apply IH|].
  intros [= <- _]. by eapply count_item_status.
Qed.

Lemma spaceRequired_pos c : counts_ok c → 0 < spaceRequired c.
Proof.
  intros []. unfold spaceRequired, usageCells, stringCells, desigCells,
    sizeof_HIDCollection, sizeof_HIDReportItem, sizeof_HIDReportSizes, sizeof_HIDP_UsageItem,
    sizeof_HIDStringItem, sizeof_int, sizeof_HIDGlobalItems.
  Z.to_euclidean_division_equations; lia.
Qed.

(** What the first pass reports of a descriptor: its item stream, and
    whether it is accepted. *)
Definition stream (d : HIDReportDescriptor) : list (HIDItem * Z) :=
  (descriptor_items (d_descriptor d) (d_descriptorLength d)).1.
Definition stream_end (d : HIDReportDescriptor) : lex_result :=
  (descriptor_items (d_descriptor d) (d_descriptorLength d)).2.

(** Descriptors small enough for the pool size to fit 32 bits. *)
Definition max_descriptor : Z := 33554432.

Lemma stream_ok d :
  buffer_ok (d_descriptor d) (d_descriptorLength d) →
  Forall (fun p => item_ok p.1 ∧ 0 ≤ p.2 ≤ d_descriptorLength d) (stream d) ∧
  zlen (stream d) ≤ d_descriptorLength d.
Proof.
  intros Hbuf. unfold stream, descriptor_items.
  destruct (lex_all _ _ _ _) as [its e] eqn:E.
  destruct (lex_all_ok _ _ _ _ _ _ Hbuf (Z.le_refl 0) E) as (H1 & _ & H2).
  destruct Hbuf as (_ & ? & _). cbn. split; [done|]. lia.
Qed.

Lemma lexer_collapse d i it i' it' :
  d <| d_index := i |> <| d_item := it |> <| d_index := i' |> <| d_item := it' |>
  = d <| d_index := i' |> <| d_item := it' |>.
Proof. struct_eq. Qed.

Lemma index_collapse d i i' : d <| d_index := i |> <| d_index := i' |> = d <| d_index := i' |>.
Proof. struct_eq. Qed.

Lemma rawMemPtr_collapse pd m m' :
  pd <| pd_rawMemPtr := m |> <| pd_rawMemPtr := m' |> = pd <| pd_rawMemPtr := m' |>.
Proof. struct_eq. Qed.

Section Count.
Context {H : Type} `{KernelAlloc H} `{!KernelAllocLaws H}.

(** The first pass on a descriptor without long items: rejected, or a pool
    of exactly the arrays' size and the arrays carved to the counted
    capacities.  When the kernel has no memory for the pool, the null
    pointer is cleared. *)
Lemma HIDCountDescriptorItems_spec d pd (h : H) :
  buffer_ok (d_descriptor d) (d_descriptorLength d) →
  d_descriptorLength d < max_descriptor → stream_end d = LexEnd →
  match count_run (stream d) counts0 with
  | (st1, c) =>
      if (st1 =? kHIDSuccess) && negb (malformed c) then
        counts_ok c ∧ 0 < spaceRequired c ∧
        ((∃ i it p h',
          live h !! p = None ∧ live h' = <[p := spaceRequired c]> (live h) ∧
          let '(d', pd') := carve c (d <| d_index := i |> <| d_item := it |>)
              (pd <| pd_rawMemPtr := Some p |> <| pd_numBytesAllocated := spaceRequired c |>) in
          HIDCountDescriptorItems d pd h = Ret (kHIDSuccess, d', pd', h')) ∨
         (∃ h', IOMalloc (spaceRequired c) h = (None, h') ∧
          HIDCountDescriptorItems d pd h = Fault NullDeref))
      else ∃ i it, HIDCountDescriptorItems d pd h =
          Ret (kHIDInvalidPreparsedDataErr, d <| d_index := i |> <| d_item := it |>,
               pd <| pd_rawMemPtr := None |>, h)
  end.
Proof using All.
  intros Hbuf Hmax Hend. unfold HIDCountDescriptorItems. struct_simpl.
  set (d0 := d <| d_index := 0 |>).
  pose proof (item_loop_run count_body count_body_frame
    (S (Z.to_nat (d_descriptorLength d))) d0 counts0 (stream d) (stream_end d)
    Hbuf (Z.le_refl 0)) as Hloop.
  destruct Hbuf as (HF & Hl & Hl31).
  subst d0. struct_simpl in Hloop.
  specialize (Hloop ltac:(lia)).
  specialize (Hloop ltac:(unfold stream, stream_end, descriptor_items; by destruct (lex_all _ _ _ _))).
  destruct (count_body_run (stream d) (d <| d_index := 0 |>) counts0) as (d' & Hrun & i & it & ->).
  rewrite Hrun in Hloop. clear Hrun.
  destruct (count_run (stream d) counts0) as [st c] eqn:Ec.
  destruct (Z.eqb_spec st kHIDSuccess) as [->|Hst].
  2: { rewrite Hloop. cbn [obind andb]. rewrite index_collapse. exists i, it.
       destruct (count_run_status _ _ _ _ Ec) as [ | -> ]; done. }
  rewrite Hend in Hloop. destruct Hloop as (i' & it' & ->). cbn [obind andb].
  rewrite lexer_collapse, index_collapse.
  destruct (malformed c); cbn [negb]; [by exists i', it'|].
  destruct (count_run_spec _ _ _ counts0_ok Ec) as (Hok & _ & Hspace).
  pose proof (stream_ok d ltac:(by split)) as [_ Hsl].
  unfold max_descriptor in *. change (spaceRequired counts0) with 56 in Hspace.
  pose proof (spaceRequired_pos c Hok).
  rewrite (u32_id (spaceRequired c)) by lia.
  split; [done|]. split; [done|].
  destruct (PoolAllocateResident_cases (spaceRequired c) h ltac:(lia))
    as [(p & h' & _ & -> & Hfresh & Hlive)|(h' & E & ->)]; [left|right; by exists h'].
  cbn [obind]. rewrite Z.ltb_irrefl, rawMemPtr_collapse.
  exists i', it', p, h'. split; [done|]. split; [done|].
  destruct (carve _ _ _). by rewrite Z.eqb_refl.
Qed.
End Count.

(** ** What the first pass should count

    Written over the list of items alone: how often a kind of item occurs,
    how deep the bracketing kinds nest. *)
Definition counts_as (ty : Z) (tags : list Z) (p : HIDItem * Z) : bool :=
  (it_itemType p.1 =? ty) && existsb (Z.eqb (it_tag p.1)) tags.

(** The number of items of the type [ty] with one of the [tags]. *)
Definition tally (ty : Z) (tags : list Z) (its : list (HIDItem * Z)) : Z :=
  zlen (List.filter (counts_as ty tags) its).

(** The open brackets after the items. *)
Definition net (ty op cl : Z) (its : list (HIDItem * Z)) : Z :=
  tally ty [op] its - tally ty [cl] its.

Definition prefixes (its : list (HIDItem * Z)) : list (list (HIDItem * Z)) :=
  map (fun k => take k its) (seq 0 (S (length its))).

(** No bracket is closed that was not opened. *)
Definition nested (ty op cl : Z) (its : list (HIDItem * Z)) : bool :=
  forallb (fun l => 0 <=? net ty op cl l) (prefixes its).

(** The most brackets open at once. *)
Definition deepest (ty op cl : Z) (its : list (HIDItem * Z)) : Z :=
  foldr (fun l m => Z.max (net ty op cl l) m) 0 (prefixes its).

Definition collections_in := tally kHIDTypeMain [kHIDTagCollection].
Definition fields_in := tally kHIDTypeMain [kHIDTagInput; kHIDTagOutput; kHIDTagFeature].
Definition reports_in := tally kHIDTypeGlobal [kHIDTagReportID].
Definition usages_in := tally kHIDTypeLocal [kHIDTagUsage].
Definition usage_limits_in := tally kHIDTypeLocal [kHIDTagUsageMinimum; kHIDTagUsageMaximum].
Definition strings_in := tally kHIDTypeLocal [kHIDTagStringIndex].
Definition string_limits_in := tally kHIDTypeLocal [kHIDTagStringMinimum; kHIDTagStringMaximum].
Definition desigs_in := tally kHIDTypeLocal [kHIDTagDesignatorIndex].
Definition desig_limits_in :=
  tally kHIDTypeLocal [kHIDTagDesignatorMinimum; kHIDTagDesignatorMaximum].

(** A descriptor the first pass should accept: collections and pushes are
    properly bracketed, every collection is closed, there is a collection
    and a field, and limits come in pairs. *)
Definition acceptable (its : list (HIDItem * Z)) : bool :=
  nested kHIDTypeMain kHIDTagCollection kHIDTagEndCollection its &&
  nested kHIDTypeGlobal kHIDTagPush kHIDTagPop its &&
  (net kHIDTypeMain kHIDTagCollection kHIDTagEndCollection its =? 0) &&
  (1 <=? collections_in its) && (1 <=? fields_in its) &&
  Z.even (usage_limits_in its) && Z.even (string_limits_in its) && Z.even (desig_limits_in its).

(** The zeroed arrays for the items: one more collection and one more
    report than the descriptor names, one cell for each index and each pair
    of limits, and stacks as deep as the brackets nest. *)
Definition room_for (its : list (HIDItem * Z)) (d : HIDReportDescriptor) (pd : HIDPreparsedData) : Prop :=
  pd_collections pd = cells (1 + collections_in its) zeroCollection ∧
  pd_reportItems pd = cells (fields_in its) zeroReportItem ∧
  pd_reports pd = cells (1 + reports_in its) zeroReportSizes ∧
  pd_usageItems pd = cells (usages_in its + usage_limits_in its / 2) zeroUsageItem ∧
  pd_stringItems pd = cells (strings_in its + string_limits_in its / 2) zeroStringItem ∧
  pd_desigItems pd = cells (desigs_in its + desig_limits_in its / 2) zeroStringItem ∧
  d_collectionStack d = cells (deepest kHIDTypeMain kHIDTagCollection kHIDTagEndCollection its) 0 ∧
  d_globalsStack d = cells (deepest kHIDTypeGlobal kHIDTagPush kHIDTagPop its) zeroGlobals.

(** The bytes of those arrays. *)
Definition room_bytes (its : list (HIDItem * Z)) : Z :=
  sizeof_HIDCollection * (1 + collections_in its) + sizeof_HIDReportItem * fields_in its
  + sizeof_HIDReportSizes * (1 + reports_in its)
  + sizeof_HIDP_UsageItem * (usages_in its + usage_limits_in its / 2)
  + sizeof_HIDStringItem * (strings_in its + string_limits_in its / 2)
  + sizeof_HIDStringItem * (desigs_in its + desig_limits_in its / 2)
  + sizeof_int * deepest kHIDTypeMain kHIDTagCollection kHIDTagEndCollection its
  + sizeof_HIDGlobalItems * deepest kHIDTypeGlobal kHIDTagPush kHIDTagPop its.

Lemma tally_snoc ty tags its x :
  tally ty tags (its ++ [x]) = tally ty tags its + Z.b2z (counts_as ty tags x).
Proof.
  unfold tally. rewrite List.filter_app, zlen_app. cbn [List.filter].
  by destruct (counts_as ty tags x).
Qed.

Lemma tally_nonneg ty tags its : 0 ≤ tally ty tags its.
Proof. apply zlen_nonneg. Qed.

Lemma prefixes_snoc its x : prefixes (its ++ [x]) = prefixes its ++ [its ++ [x]].
Proof.
  unfold prefixes. rewrite length_app. cbn [length].
  replace (S (length its + 1)) with (S (length its) + 1)%nat by lia.
  rewrite seq_app, map_app. f_equal.
  - apply map_ext_in. intros k Hk%in_seq. rewrite take_app_le by lia. done.
  - cbn. by rewrite take_ge by (rewrite length_app; cbn; lia).
Qed.

Lemma nested_snoc ty op cl its x :
  nested ty op cl (its ++ [x]) = nested ty op cl its && (0 <=? net ty op cl (its ++ [x])).
Proof. unfold nested. rewrite prefixes_snoc, forallb_app; cbn [forallb]; by rewrite andb_true_r. Qed.

Lemma foldr_max_app {A} (f : A → Z) l m0 :
  0 ≤ m0 → foldr (fun a m => Z.max (f a) m) m0 l = Z.max m0 (foldr (fun a m => Z.max (f a) m) 0 l).
Proof. induction l as [|a l IH]; cbn; intros; [lia|]. rewrite IH by done. lia. Qed.

Lemma deepest_snoc ty op cl its x :
  deepest ty op cl (its ++ [x]) = Z.max (deepest ty op cl its) (net ty op cl (its ++ [x])).
Proof.
  unfold deepest. rewrite prefixes_snoc, foldr_app. cbn [foldr].
  rewrite foldr_max_app by lia.
  assert (0 ≤ foldr (fun l m => Z.max (net ty op cl l) m) 0 (prefixes its)); [|lia].
  generalize (prefixes its). intros l. induction l; cbn; lia.
Qed.

(** The counters after the items. *)
Definition tallied (its : list (HIDItem * Z)) : Counts :=
  mkCounts (1 + collections_in its) (fields_in its) (usages_in its) (usage_limits_in its)
    (strings_in its) (string_limits_in its) (desigs_in its) (desig_limits_in its)
    (1 + reports_in its)
    (net kHIDTypeGlobal kHIDTagPush kHIDTagPop its)
    (deepest kHIDTypeGlobal kHIDTagPush kHIDTagPop its)
    (net kHIDTypeMain kHIDTagCollection kHIDTagEndCollection its)
    (deepest kHIDTypeMain kHIDTagCollection kHIDTagEndCollection its).

Lemma net_snoc ty op cl its x :
  net ty op cl (its ++ [x]) =
    net ty op cl its + Z.b2z (counts_as ty [op] x) - Z.b2z (counts_as ty [cl] x).
Proof. unfold net. rewrite !tally_snoc. lia. Qed.

Lemma net_le_deepest ty op cl its : 0 ≤ deepest ty op cl its ∧ net ty op cl its ≤ deepest ty op cl its.
Proof. 
  induction its as [|x its IH] using rev_ind; [by vm_compute|].
  rewrite deepest_snoc. lia.
Qed.

Lemma count_run_snoc its x : ∀ c,
  count_run (its ++ [x]) c =
    (let '(st, c1) := count_run its c in
     if st =? kHIDSuccess then
       let '(st, c2) := count_item x.1 c1 in
       if st =? kHIDSuccess then (kHIDSuccess, c2) else (st, c2)
     else (st, c1)).
Proof.
  induction its as [|[it next] its IH]; intros c; cbn [count_run app].
  - rewrite Z.eqb_refl. destruct x as [it next]; cbn [count_run fst].
    destruct (count_item it c). done.
  - destruct (count_item it c) as [st c1].
    destruct (Z.eqb_spec st kHIDSuccess) as [->|Hst]; [by rewrite IH|].
    by rewrite (proj2 (Z.eqb_neq _ _) Hst).
Qed.

(** One item moves the counters as its kind demands, and is refused when
    it closes a bracket that is not open. *)
Lemma count_item_tallied its x :
  0 ≤ net kHIDTypeMain kHIDTagCollection kHIDTagEndCollection its →
  0 ≤ net kHIDTypeGlobal kHIDTagPush kHIDTagPop its →
  if (0 <=? net kHIDTypeMain kHIDTagCollection kHIDTagEndCollection (its ++ [x])) &&
     (0 <=? net kHIDTypeGlobal kHIDTagPush kHIDTagPop (its ++ [x]))
  then count_item x.1 (tallied its) = (kHIDSuccess, tallied (its ++ [x]))
  else (count_item x.1 (tallied its)).1 = kHIDInvalidPreparsedDataErr.
Proof.
  intros Hn1 Hn2.
  pose proof (net_le_deepest kHIDTypeMain kHIDTagCollection kHIDTagEndCollection its) as [_ Hd1].
  pose proof (net_le_deepest kHIDTypeGlobal kHIDTagPush kHIDTagPop its) as [_ Hd2].
  unfold tallied, collections_in, fields_in, reports_in, usages_in, usage_limits_in, strings_in,
    string_limits_in, desigs_in, desig_limits_in, count_item.
  rewrite !deepest_snoc, !net_snoc, !tally_snoc. unfold counts_as.
  repeat match goal with
  | |- context [tally ?ty ?tags its] =>
      let n := fresh "n" in set (n := tally ty tags its) in *; clearbody n
  | |- context [net ?ty ?op ?cl its] =>
      let n := fresh "n" in set (n := net ty op cl its) in *; clearbody n
  | |- context [deepest ?ty ?op ?cl its] =>
      let n := fresh "n" in set (n := deepest ty op cl its) in *; clearbody n
  end.
  unfold kHIDTypeMain, kHIDTypeGlobal, kHIDTypeLocal, kHIDTagCollection, kHIDTagEndCollection,
    kHIDTagInput, kHIDTagOutput, kHIDTagFeature, kHIDTagReportID, kHIDTagPush, kHIDTagPop,
    kHIDTagUsage, kHIDTagUsageMinimum, kHIDTagUsageMaximum, kHIDTagStringIndex,
    kHIDTagStringMinimum, kHIDTagStringMaximum, kHIDTagDesignatorIndex,
    kHIDTagDesignatorMinimum, kHIDTagDesignatorMaximum in *.
  destruct x as [[bc ty tag sv uv] next]; cbn [fst it_itemType it_tag existsb].
  repeat match goal with
  | |- context [Z.eqb ?x ?k] => is_var x;
      destruct (Z.eqb_spec x k) as [->|?]; cbn [Z.eqb Pos.eqb andb orb Z.b2z]
  end.
  all: try (rewrite !Z.max_l by lia).
  all: rewrite ?Z.sub_0_r, ?Z.add_0_r.
  all: rewrite ?(proj2 (Z.leb_le _ _)) by lia; cbn [andb].
  all: tests; cbv -[Z.add Z.sub Z.max Z.lt Z.le not] in *; try lia; try done.
  all: f_equal; f_equal; lia.
Qed.

(** The counting loop over the items of a descriptor: what it computes is
    the tallies, and it stops early at the first bracket that does not
    nest. *)
Lemma count_run_tallied its :
  if nested kHIDTypeMain kHIDTagCollection kHIDTagEndCollection its &&
     nested kHIDTypeGlobal kHIDTagPush kHIDTagPop its
  then count_run its counts0 = (kHIDSuccess, tallied its)
  else (count_run its counts0).1 = kHIDInvalidPreparsedDataErr.
Proof.
  assert (∀ ty op cl its, nested ty op cl its = true → 0 ≤ net ty op cl its) as Hnet.
  { intros ty op cl l. induction l as [|x l _] using rev_ind; [by vm_compute|].
    rewrite nested_snoc. intros [_ ?%Z.leb_le]%andb_prop. done. }
  induction its as [|x its IH] using rev_ind; [by vm_compute|].
  rewrite count_run_snoc, !nested_snoc.
  destruct (nested kHIDTypeMain _ _ its) eqn:E1; [destruct (nested kHIDTypeGlobal _ _ its) eqn:E2|];
    cbn [andb] in *; rewrite ?andb_false_r.
  2,3: destruct (count_run its counts0); cbn [fst] in *; subst; done.
  pose proof (count_item_tallied its x (Hnet _ _ _ _ E1) (Hnet _ _ _ _ E2)) as Hit.
  rewrite IH, Z.eqb_refl. destruct (_ && _).
  - by rewrite Hit, Z.eqb_refl.
  - destruct (count_item _ _); cbn [fst] in *. by subst.
Qed.

Lemma odd_land n : (Z.land n 1 =? 1) = negb (Z.even n).
Proof.
  change 1 with (Z.ones 1) at 1. rewrite Z.land_ones by lia. change (2 ^ 1) with 2. rewrite Zmod_odd, <- Z.negb_even.
  by destruct (Z.even n).
Qed.

Lemma malformed_tallied its :
  nested kHIDTypeMain kHIDTagCollection kHIDTagEndCollection its = true →
  nested kHIDTypeGlobal kHIDTagPush kHIDTagPop its = true →
  negb (malformed (tallied its)) = acceptable its.
Proof.
  intros E1 E2. unfold acceptable, malformed. rewrite E1, E2, !odd_land.
  unfold tallied. cbn [n_collectionNesting n_collectionCount n_reportItemCount n_iUsageRanges
    n_iStringRanges n_iDesigRanges].
  pose proof (tally_nonneg kHIDTypeMain [kHIDTagCollection] its).
  pose proof (tally_nonneg kHIDTypeMain [kHIDTagInput; kHIDTagOutput; kHIDTagFeature] its).
  unfold collections_in, fields_in.
  rewrite !negb_orb, !negb_involutive. cbn [andb].
  repeat f_equal; lia.
Qed.

(** The carved arrays are the room for the items, and the pool is as long
    as they are. *)
Lemma carve_room its d pd : let '(d', pd') := carve (tallied its) d pd in room_for its d' pd'.
Proof.
  unfold carve, room_for, tallied, usageCells, stringCells, desigCells. struct_simpl.
  cbn [n_collectionCount n_reportItemCount n_reportCount n_iUsages n_iUsageRanges n_iStrings
    n_iStringRanges n_iDesigs n_iDesigRanges n_iMaxCollectionNesting n_iMaxGlobalsNesting].
  rewrite !Z.quot_div_nonneg by (done || apply tally_nonneg). done.
Qed.

Lemma spaceRequired_tallied its : spaceRequired (tallied its) = room_bytes its.
Proof.
  unfold spaceRequired, room_bytes, tallied, usageCells, stringCells, desigCells.
  cbn [n_collectionCount n_reportItemCount n_reportCount n_iUsages n_iUsageRanges n_iStrings
    n_iStringRanges n_iDesigs n_iDesigRanges n_iMaxCollectionNesting n_iMaxGlobalsNesting].
  rewrite !Z.quot_div_nonneg by (done || apply tally_nonneg). done.
Qed.

Lemma carve_blocks c d pd :
  pd_rawMemPtr (carve c d pd).2 = pd_rawMemPtr pd ∧
  pd_numBytesAllocated (carve c d pd).2 = pd_numBytesAllocated pd.
Proof. unfold carve. cbn [snd]. by struct_simpl. Qed.

(** C21. The first pass over a descriptor without long items (shorter than
    2^25 bytes) accepts it exactly when its items are acceptable: collections
    and pushes properly bracketed, every collection closed, at least one
    collection and one field, and the usage, string and designator limits in
    even number.  Then it takes one block of memory of exactly the bytes the
    items need and hands out zeroed arrays of exactly the needed lengths,
    or, when the kernel has no such block, clears the null pointer.
    Otherwise it returns the invalid-data error and takes no memory. *)
Theorem count_pass_exact {H} `{KernelAlloc H} `{!KernelAllocLaws H} d pd (h : H) :
  buffer_ok (d_descriptor d) (d_descriptorLength d) →
  d_descriptorLength d < max_descriptor → stream_end d = LexEnd →
  let its := stream d in
  if acceptable its then
    (∃ d' pd' p h', HIDCountDescriptorItems d pd h = Ret (kHIDSuccess, d', pd', h') ∧
      room_for its d' pd' ∧ pd_rawMemPtr pd' = Some p ∧
      pd_numBytesAllocated pd' = room_bytes its ∧
      live h !! p = None ∧ live h' = <[p := room_bytes its]> (live h)) ∨
    (∃ h', IOMalloc (room_bytes its) h = (None, h') ∧
      HIDCountDescriptorItems d pd h = Fault NullDeref)
  else ∃ d', HIDCountDescriptorItems d pd h =
      Ret (kHIDInvalidPreparsedDataErr, d', pd <| pd_rawMemPtr := None |>, h).
Proof.
  intros Hb Hl He its. pose proof (HIDCountDescriptorItems_spec d pd h Hb Hl He) as Hspec.
  pose proof (count_run_tallied its) as Hrun. pose proof (malformed_tallied its) as Hmal.
  fold its in Hspec. destruct (nested kHIDTypeMain _ _ its) eqn:E1; cbn [andb] in Hrun.
  1: destruct (nested kHIDTypeGlobal _ _ its) eqn:E2; cbn [andb] in Hrun.
  2,3: replace (acceptable its) with false by (unfold acceptable; by rewrite ?E1, ?E2);
    destruct (count_run its counts0); cbn [fst] in Hrun; subst;
    destruct Hspec as (i & it & ->); by eexists.
  rewrite Hrun, Z.eqb_refl, Hmal in Hspec by done. cbn [andb] in Hspec.
  destruct (acceptable its); [|destruct Hspec as (i & it & ->); by eexists].
  rewrite spaceRequired_tallied in Hspec.
  destruct Hspec as (_ & _ & [(i & it & p & h' & Hp & Hl' & Hrun')|?]); [left|by right].
  destruct (carve _ _ _) as [d' pd'] eqn:Ec. exists d', pd', p, h'. split; [done|].
  pose proof (carve_room its (d <| d_index := i |> <| d_item := it |>)
    (pd <| pd_rawMemPtr := Some p |> <| pd_numBytesAllocated := room_bytes its |>)) as Hroom.
  pose proof (carve_blocks (tallied its) (d <| d_index := i |> <| d_item := it |>)
    (pd <| pd_rawMemPtr := Some p |> <| pd_numBytesAllocated := room_bytes its |>)) as [Hr Hn].
  rewrite Ec in Hroom, Hr, Hn. struct_simpl in Hr. struct_simpl in Hn. done.
Qed.

(** The sample mouse: three collections, three fields, one report and five
    usage cells, all in one block. *)
Definition zero_data : HIDPreparsedData := mkHIDPreparsedData 0 [] 0 [] 0 [] 0 [] 0 [] 0 [] 0 None 0 0.
Lemma count_pass_exact_witness :
  acceptable (stream mouse_cursor) = true ∧
  ∃ d' pd' (h' : gmap Z Z),
    HIDCountDescriptorItems mouse_cursor zero_data ∅ = Ret (kHIDSuccess, d', pd', h') ∧
    zlen (pd_collections pd') = 3 ∧ zlen (pd_reportItems pd') = 3 ∧ zlen (pd_usageItems pd') = 5.
Proof.
  pose proof (count_pass_exact mouse_cursor zero_data (∅ : gmap Z Z) mouse_buffer
    ltac:(by vm_compute) ltac:(by vm_compute)) as Hc. cbv zeta in Hc.
  assert (acceptable (stream mouse_cursor) = true) as Ha by by vm_compute.
  rewrite Ha in Hc. split; [done|].
  destruct Hc as [(d' & pd' & p & h' & E & (Hc1 & Hc2 & _ & Hc4 & _) & _)|(h' & E & _)]; [|clear -E; discriminate E].
  exists d', pd', h'. rewrite Hc1, Hc2, Hc4. split; [exact E|].
  repeat split; vm_compute; reflexivity.
Defined.
