(* ===== verification/HIDParse.v ===== *)
(** * [HIDParseDescriptor]: the second pass

    The item handlers of [HIDProcessCollection.c], [HIDProcessGlobalItem.c],
    [HIDProcessLocalItem.c], [HIDProcessReportItem.c] and
    [HIDProcessMainItem.c], and the loop of [HIDParseDescriptor.c].  A
    handler takes the descriptor state and the preparsed data and returns its
    status with both updated; every array access is checked. *)
From S2P Require Import Prelude HIDTypes HIDNextItem HIDCount.

Notation parser := (outcome (OSStatus * HIDReportDescriptor * HIDPreparsedData)) (only parsing).

(** ** Collections *)
Definition HIDProcessCollection (d : HIDReportDescriptor) (pd : HIDPreparsedData) : parser :=
  (* Initialize the new Collection Structure *)
  let iCollection := pd_collectionCount pd in
  let pd := pd <| pd_collectionCount := iCollection + 1 |> in
  let* ptCollection := aget (pd_collections pd) iCollection in
  let parent := d_parent d in
  let ptCollection := ptCollection
    <| c_data := s32 (it_unsignedValue (d_item d)) |>
    <| c_firstUsageItem := d_firstUsageItem d |>
    <| c_usageItemCount := pd_usageItemCount pd - d_firstUsageItem d |>
    <| c_children := 0 |>
    <| c_nextSibling := d_sibling d |>
    <| c_firstChild := 0 |>
    <| c_usagePage := s32 (g_usagePage (d_globals d)) |>
    <| c_firstReportItem := pd_reportItemCount pd |>
    <| c_parent := parent |> in
  let* collections := aset (pd_collections pd) iCollection ptCollection in
  (* Set up the relationship with the parent Collection *)
  let* ptParent := aget collections parent in
  let* collections := aset collections parent
    (ptParent <| c_firstChild := iCollection |> <| c_children := c_children ptParent + 1 |>) in
  (* Save the parent Collection Information on the stack *)
  let* collectionStack := aset (d_collectionStack d) (d_collectionNesting d) parent in
  let d := d <| d_firstUsageItem := pd_usageItemCount pd |>
             <| d_sibling := 0 |>
             <| d_parent := iCollection |>
             <| d_collectionStack := collectionStack |>
             <| d_collectionNesting := d_collectionNesting d + 1 |> in
  Ret (kHIDSuccess, d, pd <| pd_collections := collections |>).

Definition HIDProcessEndCollection (d : HIDReportDescriptor) (pd : HIDPreparsedData) : parser :=
  (* Remember the number of ReportItem MainItems in this Collection *)
  let* ptCollection := aget (pd_collections pd) (d_parent d) in
  let* collections := aset (pd_collections pd) (d_parent d)
    (ptCollection <| c_reportItemCount := pd_reportItemCount pd - c_firstReportItem ptCollection |>) in
  (* Restore the parent Collection Data *)
  let collectionNesting := d_collectionNesting d - 1 in
  let* iCollection := aget (d_collectionStack d) collectionNesting in
  let d := d <| d_collectionNesting := collectionNesting |>
             <| d_sibling := d_parent d |>
             <| d_parent := iCollection |> in
  Ret (kHIDSuccess, d, pd <| pd_collections := collections |>).

(** ** Report items *)

(** "Reality Check on the Report Main Item": clamp the logical range to what
    the report size can hold and swap an inverted one.  Returns the first
    error found, the repaired globals and the item's flags. *)
Definition realMax (g : HIDGlobalItems) : Z :=
  let posSize := if 32 <=? g_reportSize g then 31 else g_reportSize g in
  s32 (s32 (Z.shiftl 1 posSize) - 1).

Definition check_logical (g : HIDGlobalItems) : OSStatus * HIDGlobalItems * Z :=
  let '(error, g) :=
    if realMax g <? g_logicalMinimum g
    then (kHIDBadLogicalMinimumErr, g <| g_logicalMinimum := 0 |>) else (noErr, g) in
  let '(error, g) :=
    if realMax g <? g_logicalMaximum g
    then (if error =? noErr then kHIDBadLogicalMaximumErr else error,
          g <| g_logicalMaximum := realMax g |>) else (error, g) in
  if g_logicalMaximum g <? g_logicalMinimum g
  then (if error =? noErr then kHIDInvertedLogicalRangeErr else error,
        g <| g_logicalMaximum := g_logicalMinimum g |> <| g_logicalMinimum := g_logicalMaximum g |>,
        Z.lor 0 kHIDReportItemFlag_Reversed)
  else (error, g, 0).

(** "if the physical min/max are out of wack, use the logical values" *)
Definition check_physical (error : OSStatus) (g : HIDGlobalItems) : OSStatus * HIDGlobalItems :=
  if g_physicalMaximum g <=? g_physicalMinimum g then
    (if (error =? noErr) && (g_physicalMaximum g <? g_physicalMinimum g)
     then kHIDInvertedPhysicalRangeErr else error,
     g <| g_physicalMinimum := g_logicalMinimum g |> <| g_physicalMaximum := g_logicalMaximum g |>)
  else (error, g).

(** "check to see if we got half a range" *)
Definition check_half_ranges (error : OSStatus) (d : HIDReportDescriptor) : OSStatus :=
  let error := if (error =? noErr) && (d_haveUsageMin d || d_haveUsageMax d)
               then kHIDUnmatchedUsageRangeErr else error in
  let error := if (error =? noErr) && (d_haveStringMin d || d_haveStringMax d)
               then kHIDUnmatchedStringRangeErr else error in
  if (error =? noErr) && (d_haveDesigMin d || d_haveDesigMax d)
  then kHIDUnmatchedDesignatorRangeErr else error.

(** "Update the Report by the size of this item": the report type, the start
    bit and the report's new size for a main item of the given tag. *)
Definition place_item (tag iBits : Z) (r : HIDReportSizes) : Z * Z * HIDReportSizes :=
  if tag =? kHIDTagFeature then
    (kHIDFeatureReport, rs_featureBitCount r,
     r <| rs_featureBitCount := s32 (rs_featureBitCount r + iBits) |>)
  else if tag =? kHIDTagOutput then
    (kHIDOutputReport, rs_outputBitCount r,
     r <| rs_outputBitCount := s32 (rs_outputBitCount r + iBits) |>)
  else if tag =? kHIDTagInput then
    (kHIDInputReport, rs_inputBitCount r,
     r <| rs_inputBitCount := s32 (rs_inputBitCount r + iBits) |>)
  else (kHIDUnknownReport, 0, r).

Definition HIDProcessReportItem (d : HIDReportDescriptor) (pd : HIDPreparsedData) : parser :=
  (* Begin to initialize the new Report Item structure *)
  let iItem := pd_reportItemCount pd in
  let pd := pd <| pd_reportItemCount := iItem + 1 |> in
  let* ri := aget (pd_reportItems pd) iItem in
  let '(error, g, flags) := check_logical (d_globals d) in
  let error := check_half_ranges error d in
  let '(error, g) := check_physical error g in
  let ri := ri <| ri_dataModes := s32 (it_unsignedValue (d_item d)) |>
               <| ri_globals := g |>
               <| ri_flags := flags |> in
  (* if strict error checking is true, return any errors *)
  if negb (error =? noErr) && negb (Z.land (pd_flags pd) kHIDFlag_StrictErrorChecking =? 0) then
    let* reportItems := aset (pd_reportItems pd) iItem ri in
    Ret (error, d, pd <| pd_reportItems := reportItems |>)
  else
  (* Continue to initialize the new Report Item structure *)
  let ri := ri
    <| ri_parent := d_parent d |>
    <| ri_firstUsageItem := d_firstUsageItem d |>
    <| ri_usageItemCount := pd_usageItemCount pd - d_firstUsageItem d |>
    <| ri_firstStringItem := d_firstStringItem d |>
    <| ri_stringItemCount := pd_stringItemCount pd - d_firstStringItem d |>
    <| ri_firstDesigItem := d_firstDesigItem d |>
    <| ri_desigItemCount := pd_desigItemCount pd - d_firstDesigItem d |> in
  let d := d <| d_firstUsageItem := pd_usageItemCount pd |>
             <| d_firstStringItem := pd_stringItemCount pd |>
             <| d_firstDesigItem := pd_desigItemCount pd |> in
  (* Update the Report by the size of this item *)
  let* ptReport := aget (pd_reports pd) (g_reportIndex g) in
  let iBits := s32 (g_reportSize g * g_reportCount g) in
  let '(reportType, startBit, ptReport) := place_item (it_tag (d_item d)) iBits ptReport in
  let ri := ri <| ri_reportType := reportType |> <| ri_startBit := startBit |> in
  let* reports := aset (pd_reports pd) (g_reportIndex g) ptReport in
  let* reportItems := aset (pd_reportItems pd) iItem ri in
  Ret (kHIDSuccess, d, pd <| pd_reports := reports |> <| pd_reportItems := reportItems |>).

(** ** Main items *)
Definition HIDProcessMainItem (d : HIDReportDescriptor) (pd : HIDPreparsedData) : parser :=
  let tag := it_tag (d_item d) in
  if tag =? kHIDTagCollection then HIDProcessCollection d pd
  else if tag =? kHIDTagEndCollection then HIDProcessEndCollection d pd
  else if (tag =? kHIDTagInput) || (tag =? kHIDTagOutput) || (tag =? kHIDTagFeature) then
    HIDProcessReportItem d pd
  else Ret (kHIDSuccess, d, pd).

(** ** Global items *)

(** "Look for the Report ID in the table": the index of the first report with
    that ID among the first [n], starting at [i]; [i + n] when there is none.
    ([SInt32] against [UInt32]: the comparison is unsigned.) *)
Fixpoint find_report (n : nat) (i : Z) (reports : list HIDReportSizes) (id : Z) : outcome Z :=
  match n with
  | O => Ret i
  | S n' =>
      let* r := aget reports i in
      if u32 (rs_reportID r) =? id then Ret i else find_report n' (i + 1) reports id
  end.

Definition HIDProcessGlobalItem (d : HIDReportDescriptor) (pd : HIDPreparsedData) : parser :=
  let it := d_item d in
  let g := d_globals d in
  let tag := it_tag it in
  let put g := Ret (kHIDSuccess, d <| d_globals := g |>, pd) in
  if tag =? kHIDTagUsagePage then put (g <| g_usagePage := it_unsignedValue it |>)
  else if tag =? kHIDTagLogicalMinimum then put (g <| g_logicalMinimum := it_signedValue it |>)
  else if tag =? kHIDTagLogicalMaximum then put (g <| g_logicalMaximum := it_signedValue it |>)
  else if tag =? kHIDTagPhysicalMinimum then put (g <| g_physicalMinimum := it_signedValue it |>)
  else if tag =? kHIDTagPhysicalMaximum then put (g <| g_physicalMaximum := it_signedValue it |>)
  else if tag =? kHIDTagUnitExponent then put (g <| g_unitExponent := it_signedValue it |>)
  else if tag =? kHIDTagUnit then put (g <| g_units := s32 (it_unsignedValue it) |>)
  else if tag =? kHIDTagReportSize then put (g <| g_reportSize := it_unsignedValue it |>)
  else if tag =? kHIDTagReportID then
    let* reportIndex := find_report (Z.to_nat (pd_reportCount pd)) 0 (pd_reports pd)
                          (it_unsignedValue it) in
    (* Initialize the entry if it's new: start with 8 bits for the Report ID *)
    let* pd :=
      if reportIndex =? pd_reportCount pd then
        let* reports := aset (pd_reports pd) (pd_reportCount pd)
                          (mkHIDReportSizes (s32 (it_unsignedValue it)) 8 8 8) in
        Ret (pd <| pd_reports := reports |> <| pd_reportCount := pd_reportCount pd + 1 |>)
      else Ret pd in
    Ret (kHIDSuccess,
         d <| d_globals := g <| g_reportID := s32 (it_unsignedValue it) |>
                             <| g_reportIndex := reportIndex |> |>, pd)
  else if tag =? kHIDTagReportCount then put (g <| g_reportCount := s32 (it_unsignedValue it) |>)
  else if tag =? kHIDTagPush then
    let* globalsStack := aset (d_globalsStack d) (d_globalsNesting d) g in
    Ret (kHIDSuccess, d <| d_globalsStack := globalsStack |>
                        <| d_globalsNesting := d_globalsNesting d + 1 |>, pd)
  else if tag =? kHIDTagPop then
    let globalsNesting := d_globalsNesting d - 1 in
    let* g := aget (d_globalsStack d) globalsNesting in
    Ret (kHIDSuccess, d <| d_globalsNesting := globalsNesting |> <| d_globals := g |>, pd)
  else Ret (kHIDSuccess, d, pd).

(** ** Local items *)

(** A four-byte usage carries its page in the high half; a shorter one is on
    the current usage page.  The pair is (page, usage). *)
Definition extended_usage (d : HIDReportDescriptor) : Z * Z :=
  let v := it_unsignedValue (d_item d) in
  if it_byteCount (d_item d) =? 4 then (Z.shiftr v 16, Z.land v 0xFFFF)
  else (g_usagePage (d_globals d), v).

(** The two range cases, which complete a pending half range or record one. *)
Definition usage_minimum (d : HIDReportDescriptor) (pd : HIDPreparsedData) : parser :=
  let '(page, v) := extended_usage d in
  if d_haveUsageMax d then
    let iItem := pd_usageItemCount pd in
    let pd := pd <| pd_usageItemCount := iItem + 1 |> in
    let* ui := aget (pd_usageItems pd) iItem in
    let ui := ui <| ui_isRange := true |> <| ui_usagePage := page |>
                 <| ui_usageMinimum := s32 v |> in
    if negb (page =? u32 (d_rangeUsagePage d)) then
      let* usageItems := aset (pd_usageItems pd) iItem ui in
      Ret (kHIDInvalidRangePageErr, d, pd <| pd_usageItems := usageItems |>)
    else
      let ui := ui <| ui_usageMaximum := d_usageMaximum d |> in
      let* usageItems := aset (pd_usageItems pd) iItem ui in
      let pd := pd <| pd_usageItems := usageItems |> in
      if ui_usageMaximum ui <? ui_usageMinimum ui then Ret (kHIDInvertedUsageRangeErr, d, pd)
      else Ret (kHIDSuccess, d <| d_haveUsageMax := false |> <| d_haveUsageMin := false |>, pd)
  else
    Ret (kHIDSuccess, d <| d_rangeUsagePage := s32 page |> <| d_usageMinimum := s32 v |>
                        <| d_haveUsageMin := true |>, pd).

Definition usage_maximum (d : HIDReportDescriptor) (pd : HIDPreparsedData) : parser :=
  let '(page, v) := extended_usage d in
  if d_haveUsageMin d then
    let iItem := pd_usageItemCount pd in
    let pd := pd <| pd_usageItemCount := iItem + 1 |> in
    let* ui := aget (pd_usageItems pd) iItem in
    let ui := ui <| ui_isRange := true |> <| ui_usagePage := page |>
                 <| ui_usageMaximum := s32 v |> in
    if negb (page =? u32 (d_rangeUsagePage d)) then
      let* usageItems := aset (pd_usageItems pd) iItem ui in
      Ret (kHIDInvalidRangePageErr, d, pd <| pd_usageItems := usageItems |>)
    else
      let ui := ui <| ui_usageMinimum := d_usageMinimum d |> in
      let* usageItems := aset (pd_usageItems pd) iItem ui in
      let pd := pd <| pd_usageItems := usageItems |> in
      if ui_usageMaximum ui <? ui_usageMinimum ui then Ret (kHIDInvertedUsageRangeErr, d, pd)
      else Ret (kHIDSuccess, d <| d_haveUsageMax := false |> <| d_haveUsageMin := false |>, pd)
  else
    Ret (kHIDSuccess, d <| d_rangeUsagePage := s32 page |> <| d_usageMaximum := s32 v |>
                        <| d_haveUsageMax := true |>, pd).

(** One cell of the string or designator table. *)
Definition index_item (v : Z) (si : HIDStringItem) : HIDStringItem :=
  si <| si_isRange := false |> <| si_index := s32 v |>.
Definition range_item (lo hi : Z) (si : HIDStringItem) : HIDStringItem :=
  si <| si_isRange := true |> <| si_minimum := lo |> <| si_maximum := hi |>.

(** Append to the designator table, respectively the string table. *)
Definition add_desig (f : HIDStringItem → HIDStringItem) (pd : HIDPreparsedData)
    : outcome HIDPreparsedData :=
  let iItem := pd_desigItemCount pd in
  let* si := aget (pd_desigItems pd) iItem in
  let* items := aset (pd_desigItems pd) iItem (f si) in
  Ret (pd <| pd_desigItemCount := iItem + 1 |> <| pd_desigItems := items |>).

Definition add_string (f : HIDStringItem → HIDStringItem) (pd : HIDPreparsedData)
    : outcome HIDPreparsedData :=
  let iItem := pd_stringItemCount pd in
  let* si := aget (pd_stringItems pd) iItem in
  let* items := aset (pd_stringItems pd) iItem (f si) in
  Ret (pd <| pd_stringItemCount := iItem + 1 |> <| pd_stringItems := items |>).

Definition HIDProcessLocalItem (d : HIDReportDescriptor) (pd : HIDPreparsedData) : parser :=
  let tag := it_tag (d_item d) in
  let v := it_unsignedValue (d_item d) in
  if tag =? kHIDTagUsage then
    let '(page, usage) := extended_usage d in
    let iItem := pd_usageItemCount pd in
    let* ui := aget (pd_usageItems pd) iItem in
    let* usageItems := aset (pd_usageItems pd) iItem
      (ui <| ui_isRange := false |> <| ui_usagePage := page |> <| ui_usage := usage |>) in
    Ret (kHIDSuccess, d, pd <| pd_usageItemCount := iItem + 1 |> <| pd_usageItems := usageItems |>)
  else if tag =? kHIDTagUsageMinimum then usage_minimum d pd
  else if tag =? kHIDTagUsageMaximum then usage_maximum d pd
  else if tag =? kHIDTagDesignatorIndex then
    let* pd := add_desig (index_item v) pd in Ret (kHIDSuccess, d, pd)
  else if tag =? kHIDTagDesignatorMinimum then
    if d_haveDesigMax d then
      let* pd := add_desig (range_item (s32 v) (d_desigMaximum d)) pd in
      Ret (kHIDSuccess, d <| d_haveDesigMin := false |> <| d_haveDesigMax := false |>, pd)
    else Ret (kHIDSuccess, d <| d_desigMinimum := s32 v |> <| d_haveDesigMin := true |>, pd)
  else if tag =? kHIDTagDesignatorMaximum then
    if d_haveDesigMin d then
      let* pd := add_desig (range_item (d_desigMinimum d) (s32 v)) pd in
      Ret (kHIDSuccess, d <| d_haveDesigMin := false |> <| d_haveDesigMax := false |>, pd)
    else Ret (kHIDSuccess, d <| d_desigMaximum := s32 v |> <| d_haveDesigMax := true |>, pd)
  else if tag =? kHIDTagStringIndex then
    let* pd := add_string (index_item v) pd in Ret (kHIDSuccess, d, pd)
  else if tag =? kHIDTagStringMinimum then
    if d_haveStringMax d then
      let* pd := add_string (range_item (s32 v) (d_stringMaximum d)) pd in
      Ret (kHIDSuccess, d <| d_haveStringMin := false |> <| d_haveStringMax := false |>, pd)
    else Ret (kHIDSuccess, d <| d_stringMinimum := s32 v |> <| d_haveStringMin := true |>, pd)
  else if tag =? kHIDTagStringMaximum then
    if d_haveStringMin d then
      let* pd := add_string (range_item (d_stringMinimum d) (s32 v)) pd in
      Ret (kHIDSuccess, d <| d_haveStringMin := false |> <| d_haveStringMax := false |>, pd)
    else Ret (kHIDSuccess, d <| d_stringMaximum := s32 v |> <| d_haveStringMax := true |>, pd)
  else (* kHIDTagSetDelimiter and unknown tags are not processed *)
    Ret (kHIDSuccess, d, pd).

(** ** The loop of [HIDParseDescriptor] *)
Definition parse_body (d : HIDReportDescriptor) (pd : HIDPreparsedData) : parser :=
  let ty := it_itemType (d_item d) in
  if ty =? kHIDTypeMain then HIDProcessMainItem d pd
  else if ty =? kHIDTypeGlobal then HIDProcessGlobalItem d pd
  else if ty =? kHIDTypeLocal then HIDProcessLocalItem d pd
  else Ret (kHIDSuccess, d, pd).

(** "Initialize Counters", "the Descriptor Data", "the virtual collection"
    and "the default report". *)
Definition parse_init (d : HIDReportDescriptor) (pd : HIDPreparsedData)
    : outcome (HIDReportDescriptor * HIDPreparsedData) :=
  let* c0 := aget (pd_collections pd) 0 in
  let* collections := aset (pd_collections pd) 0 zeroCollection in
  let* r0 := aget (pd_reports pd) 0 in
  let* reports := aset (pd_reports pd) 0 zeroReportSizes in
  let pd := pd <| pd_collections := collections |> <| pd_reports := reports |>
    <| pd_collectionCount := 1 |> <| pd_reportItemCount := 0 |> <| pd_reportCount := 1 |>
    <| pd_usageItemCount := 0 |> <| pd_stringItemCount := 0 |> <| pd_desigItemCount := 0 |> in
  let d := d <| d_index := 0 |> <| d_collectionNesting := 0 |> <| d_globalsNesting := 0 |>
    <| d_firstUsageItem := 0 |> <| d_firstStringItem := 0 |> <| d_firstDesigItem := 0 |>
    <| d_parent := 0 |> <| d_sibling := 0 |> <| d_globals := zeroGlobals |>
    <| d_haveUsageMin := false |> <| d_haveUsageMax := false |>
    <| d_haveStringMin := false |> <| d_haveStringMax := false |>
    <| d_haveDesigMin := false |> <| d_haveDesigMax := false |> in
  Ret (d, pd).

Definition HIDParseDescriptor (d : HIDReportDescriptor) (pd : HIDPreparsedData) : parser :=
  let* '(d, pd) := parse_init d pd in
  let* r := item_loop (S (Z.to_nat (d_descriptorLength d))) parse_body d pd in
  match r with
  | Returned iStatus d pd => Ret (iStatus, d, pd)
  | Finished iStatus d pd =>
      let iStatus := if iStatus =? kHIDEndOfDescriptorErr then kHIDSuccess else iStatus in
      (* Update the virtual collection *)
      let* ptCollection := aget (pd_collections pd) 0 in
      let* collections := aset (pd_collections pd) 0
        (ptCollection <| c_reportItemCount := pd_reportItemCount pd |>) in
      Ret (iStatus, d, pd <| pd_collections := collections |>)
  end.
