(* ===== verification/HIDOpenClose.v ===== *)
(** * Opening and closing a report descriptor ([HIDOpenCloseDescriptor.c]) *)
From S2P Require Import Prelude HIDTypes HIDNextItem PoolAlloc HIDCount HIDParse.

Definition zeroPreparsedData : HIDPreparsedData :=
  mkHIDPreparsedData 0 [] 0 [] 0 [] 0 [] 0 [] 0 [] 0 None 0 0.

(** A [HIDPreparsedDataRef]: the address of the struct and its contents. *)
Definition PreparsedRef : Type := Z * HIDPreparsedData.

Section OpenClose.
Context {H : Type} `{KernelAlloc H}.

(** [hidReportDescriptor] and [preparsedDataRef] may be null; [stack] is
    what the uninitialised local [tDescriptor] holds on entry.  The result
    is the status and the new value of [*preparsedDataRef]. *)
Definition HIDOpenReportDescriptor (stack : HIDReportDescriptor)
    (hidReportDescriptor : option (list Z)) (descriptorLength : Z)
    (preparsedDataRef : option (option PreparsedRef)) (flags : Z) (h : H)
    : outcome (OSStatus * option (option PreparsedRef) * H) :=
  match hidReportDescriptor, preparsedDataRef with
  | None, _ | _, None => Ret (kHIDNullPointerErr, preparsedDataRef, h)
  | Some bytes, Some _ =>
      let* '(mem, h) := PoolAllocateResident sizeof_HIDPreparsedData true h in
      match mem with
      | None => Ret (kHIDNotEnoughMemoryErr, Some None, h)
      | Some p =>
          let pd := zeroPreparsedData <| pd_flags := flags |> <| pd_rawMemPtr := None |> in
          let tDescriptor := stack <| d_descriptor := bytes |>
                                   <| d_descriptorLength := descriptorLength |> in
          let* '(iStatus, tDescriptor, pd, h) := HIDCountDescriptorItems tDescriptor pd h in
          let* '(iStatus, pd) :=
            (if iStatus =? kHIDSuccess then
              let* '(iStatus, _, pd) := HIDParseDescriptor tDescriptor pd in
              Ret (iStatus, pd)
            else Ret (iStatus, pd)) in
          match pd_rawMemPtr pd with
          | Some raw =>
              if iStatus =? kHIDSuccess then
                Ret (kHIDSuccess, Some (Some (p, pd <| pd_hidTypeIfValid := kHIDOSType |>)), h)
              else
                let* '(_, h) := PoolDeallocate raw (pd_numBytesAllocated pd) h in
                let* '(_, h) := PoolDeallocate p sizeof_HIDPreparsedData h in
                Ret (iStatus, Some None, h)
          | None =>
              let* '(_, h) := PoolDeallocate p sizeof_HIDPreparsedData h in
              Ret (if iStatus =? kHIDSuccess then kHIDNotEnoughMemoryErr else iStatus,
                   Some None, h)
          end
      end
  end.

(** The struct behind a reference is read and written only while its block
    is live. *)
Definition deref_struct (p : Z) (h : H) : outcome unit :=
  if decide (live h !! p = Some sizeof_HIDPreparsedData) then Ret tt else Fault Dangling.

(** The two stores into the struct ([rawMemPtr], [hidTypeIfValid]) precede
    its release, so nothing of them is left to return: after a close the
    caller's reference dangles. *)
Definition HIDCloseReportDescriptor (preparsedDataRef : option PreparsedRef) (h : H)
    : outcome (OSStatus * H) :=
  match preparsedDataRef with
  | None => Ret (kHIDNullPointerErr, h)
  | Some (p, pd) =>
      let* _ := deref_struct p h in
      if negb (pd_hidTypeIfValid pd =? kHIDOSType) then
        Ret (kHIDInvalidPreparsedDataErr, h)
      else
        let* h :=
          (match pd_rawMemPtr pd with
           | Some raw =>
               let* '(_, h) := PoolDeallocate raw (pd_numBytesAllocated pd) h in
               let* _ := deref_struct p h in
               Ret h
           | None => Ret h
           end) in
        let* _ := deref_struct p h in
        PoolDeallocate p sizeof_HIDPreparsedData h
  end.

Lemma deref_struct_live p h :
  live h !! p = Some sizeof_HIDPreparsedData → deref_struct p h = Ret tt.
Proof. intros Hp. unfold deref_struct. by rewrite decide_True. Qed.

Lemma deref_struct_freed p h : live h !! p = None → deref_struct p h = Fault Dangling.
Proof. intros Hp. unfold deref_struct. by rewrite decide_False by congruence. Qed.
End OpenClose.

(** The sample mouse, opened with strict error checking. *)
Definition open_mouse : outcome (OSStatus * option (option PreparsedRef) * gmap Z Z) :=
  HIDOpenReportDescriptor any_stack (Some mouse_descriptor) (zlen mouse_descriptor)
    (Some None) kHIDFlag_StrictErrorChecking ∅.

Definition mouse_pd : HIDPreparsedData := Eval vm_compute in
  match open_mouse with Ret (_, Some (Some (_, pd)), _) => pd | _ => zeroPreparsedData end.
Definition mouse_heap : gmap Z Z := Eval vm_compute in
  match open_mouse with Ret (_, _, h) => h | _ => ∅ end.

Lemma open_mouse_eq :
  HIDOpenReportDescriptor any_stack (Some mouse_descriptor) 50 (Some None) 1 (∅ : gmap Z Z) =
    Ret (kHIDSuccess, Some (Some (1, mouse_pd)), mouse_heap).
Proof. vm_compute. reflexivity. Qed.
