(* ===== verification/HIDParseInv.v ===== *)
(** * The second pass stays inside the arrays the first pass sized

    The invariant that ties the parser's state after a prefix of the item
    stream to the first pass's counters after the same prefix, and the proof
    that every handler preserves it and performs no access out of bounds. *)
From S2P Require Import Prelude HIDTypes HIDNextItem HIDCount HIDParse.

(** ** Well-formed table entries *)
Record globals_ok (nReports : Z) (g : HIDGlobalItems) : Prop := {
  go_index : 0 ≤ g_reportIndex g < nReports;
  go_page : is_u32 (g_usagePage g);
  go_size : is_u32 (g_reportSize g);
  go_count : is_s32 (g_reportCount g);
  go_id : is_s32 (g_reportID g);
  go_lmin : is_s32 (g_logicalMinimum g);
  go_lmax : is_s32 (g_logicalMaximum g);
  go_pmin : is_s32 (g_physicalMinimum g);
  go_pmax : is_s32 (g_physicalMaximum g) }.

(** A window [first, first + count) of a table of [n] entries. *)
Definition window (first count n : Z) : Prop := 0 ≤ first ∧ 0 ≤ count ∧ first + count ≤ n.

Record report_item_ok (pd : HIDPreparsedData) (ri : HIDReportItem) : Prop := {
  ro_globals : globals_ok (pd_reportCount pd) (ri_globals ri);
  ro_logical : g_logicalMinimum (ri_globals ri) ≤ g_logicalMaximum (ri_globals ri);
  ro_physical : g_physicalMinimum (ri_globals ri) ≤ g_physicalMaximum (ri_globals ri);
  ro_realMax : g_logicalMaximum (ri_globals ri) ≤ realMax (ri_globals ri);
  ro_parent : 0 ≤ ri_parent ri < pd_collectionCount pd;
  ro_usages : window (ri_firstUsageItem ri) (ri_usageItemCount ri) (pd_usageItemCount pd);
  ro_strings : window (ri_firstStringItem ri) (ri_stringItemCount ri) (pd_stringItemCount pd);
  ro_desigs : window (ri_firstDesigItem ri) (ri_desigItemCount ri) (pd_desigItemCount pd);
  ro_type : 1 ≤ ri_reportType ri ≤ 3;
  ro_start : is_s32 (ri_startBit ri) }.

Record collection_ok (pd : HIDPreparsedData) (col : HIDCollection) : Prop := {
  ko_usages : window (c_firstUsageItem col) (c_usageItemCount col) (pd_usageItemCount pd);
  ko_first : 0 ≤ c_firstReportItem col;
  ko_items : 0 ≤ c_reportItemCount col;
  ko_total : c_firstReportItem col + c_reportItemCount col ≤ pd_reportItemCount pd;
  ko_parent : 0 ≤ c_parent col < pd_collectionCount pd;
  ko_child : 0 ≤ c_firstChild col < pd_collectionCount pd;
  ko_sibling : 0 ≤ c_nextSibling col < pd_collectionCount pd }.

Record usage_item_ok (ui : HIDP_UsageItem) : Prop := {
  uo_page : is_u32 (ui_usagePage ui);
  uo_usage : ui_isRange ui = false → is_u32 (ui_usage ui);
  uo_min : ui_isRange ui = true → is_s32 (ui_usageMinimum ui);
  uo_max : ui_isRange ui = true → is_s32 (ui_usageMaximum ui);
  uo_range : ui_isRange ui = true → ui_usageMinimum ui ≤ ui_usageMaximum ui }.

Definition report_sizes_ok (r : HIDReportSizes) : Prop :=
  is_s32 (rs_inputBitCount r) ∧ is_s32 (rs_outputBitCount r) ∧ is_s32 (rs_featureBitCount r).

(** Every entry below [n] of a table satisfies [P]. *)
Definition table {A} (P : A → Prop) (l : list A) (n : Z) : Prop :=
  ∀ i a, i < n → at_ l i a → P a.

(** ** The invariant *)
Definition b2z (b : bool) : Z := if b then 1 else 0.

(** [half n m used min max]: [used] entries, and a pending half range, are
    paid for by [n] single items and [m] range halves. *)
Definition half (n m used : Z) (hmin hmax : bool) : Prop :=
  0 ≤ used ∧ 2 * used + b2z hmin + b2z hmax ≤ 2 * n + m ∧ (hmin && hmax = false).

Record capacities (cF : Counts) (d : HIDReportDescriptor) (pd : HIDPreparsedData) : Prop := {
  cap_collections : zlen (pd_collections pd) = n_collectionCount cF;
  cap_items : zlen (pd_reportItems pd) = n_reportItemCount cF;
  cap_reports : zlen (pd_reports pd) = n_reportCount cF;
  cap_usages : zlen (pd_usageItems pd) = usageCells cF;
  cap_strings : zlen (pd_stringItems pd) = stringCells cF;
  cap_desigs : zlen (pd_desigItems pd) = desigCells cF;
  cap_stack : zlen (d_collectionStack d) = n_iMaxCollectionNesting cF;
  cap_globals : zlen (d_globalsStack d) = n_iMaxGlobalsNesting cF }.

Record counters (c : Counts) (d : HIDReportDescriptor) (pd : HIDPreparsedData) : Prop := {
  ct_collections : pd_collectionCount pd = n_collectionCount c;
  ct_items : pd_reportItemCount pd = n_reportItemCount c;
  ct_reports : 1 ≤ pd_reportCount pd ≤ n_reportCount c;
  ct_usages : half (n_iUsages c) (n_iUsageRanges c) (pd_usageItemCount pd)
                (d_haveUsageMin d) (d_haveUsageMax d);
  ct_strings : half (n_iStrings c) (n_iStringRanges c) (pd_stringItemCount pd)
                 (d_haveStringMin d) (d_haveStringMax d);
  ct_desigs : half (n_iDesigs c) (n_iDesigRanges c) (pd_desigItemCount pd)
                (d_haveDesigMin d) (d_haveDesigMax d);
  ct_nesting : d_collectionNesting d = n_collectionNesting c;
  ct_globals : d_globalsNesting d = n_globalsNesting c }.

Record cursor (d : HIDReportDescriptor) (pd : HIDPreparsedData) : Prop := {
  cu_usage : 0 ≤ d_firstUsageItem d ≤ pd_usageItemCount pd;
  cu_string : 0 ≤ d_firstStringItem d ≤ pd_stringItemCount pd;
  cu_desig : 0 ≤ d_firstDesigItem d ≤ pd_desigItemCount pd;
  cu_parent : 0 ≤ d_parent d < pd_collectionCount pd;
  cu_sibling : 0 ≤ d_sibling d < pd_collectionCount pd;
  cu_stack : table (fun i => 0 ≤ i < pd_collectionCount pd) (d_collectionStack d) (d_collectionNesting d);
  cu_globals : globals_ok (pd_reportCount pd) (d_globals d);
  cu_gstack : table (globals_ok (pd_reportCount pd)) (d_globalsStack d) (d_globalsNesting d);
  cu_umin : is_s32 (d_usageMinimum d) ∨ d_haveUsageMin d = false;
  cu_umax : is_s32 (d_usageMaximum d) ∨ d_haveUsageMax d = false }.

Record tables (pd : HIDPreparsedData) : Prop := {
  tb_fresh : ∀ i col, pd_collectionCount pd ≤ i → at_ (pd_collections pd) i col →
               col = zeroCollection;
  tb_root : ∀ col, at_ (pd_collections pd) 0 col → c_firstReportItem col = 0;
  tb_collections : table (collection_ok pd) (pd_collections pd) (pd_collectionCount pd);
  tb_items : table (report_item_ok pd) (pd_reportItems pd) (pd_reportItemCount pd);
  tb_usages : table usage_item_ok (pd_usageItems pd) (pd_usageItemCount pd);
  tb_reports : table report_sizes_ok (pd_reports pd) (pd_reportCount pd) }.

Record pinv (c cF : Counts) (d : HIDReportDescriptor) (pd : HIDPreparsedData) : Prop := {
  pi_caps : capacities cF d pd;
  pi_ctrs : counters c d pd;
  pi_cursor : cursor d pd;
  pi_tables : tables pd }.

(** ** Growing tables keep their entries well-formed *)
Definition grows (pd pd' : HIDPreparsedData) : Prop :=
  pd_collectionCount pd ≤ pd_collectionCount pd' ∧
  pd_reportItemCount pd ≤ pd_reportItemCount pd' ∧
  pd_reportCount pd ≤ pd_reportCount pd' ∧
  pd_usageItemCount pd ≤ pd_usageItemCount pd' ∧
  pd_stringItemCount pd ≤ pd_stringItemCount pd' ∧
  pd_desigItemCount pd ≤ pd_desigItemCount pd'.

Lemma globals_ok_mono n n' g : n ≤ n' → globals_ok n g → globals_ok n' g.
Proof. intros ? []. split; lia. Qed.

Lemma window_mono a b n n' : n ≤ n' → window a b n → window a b n'.
Proof. unfold window. lia. Qed.

Lemma report_item_ok_mono pd pd' ri : grows pd pd' → report_item_ok pd ri → report_item_ok pd' ri.
Proof.
  intros (? & ? & ? & ? & ? & ?) []. split; try (eapply window_mono; [|done]; done); try lia.
  by eapply globals_ok_mono.
Qed.

Lemma collection_ok_mono pd pd' col : grows pd pd' → collection_ok pd col → collection_ok pd' col.
Proof.
  intros (? & ? & ? & ? & ? & ?) []. split; try (eapply window_mono; [|done]; done); lia.
Qed.

Lemma table_mono {A} (P Q : A → Prop) l n : (∀ a, P a → Q a) → table P l n → table Q l n.
Proof. intros H Ht i a ??. eauto. Qed.

(** Overwriting cell [i] with a good entry. *)
Lemma table_insert {A} (P : A → Prop) l n i v :
  0 ≤ i → P v → table P l n → table P (<[Z.to_nat i := v]> l) n.
Proof.
  intros Hi Hv Ht j a Hj Ha. apply at_insert in Ha as [[-> ->]|[? ?]]; eauto.
Qed.

(** Appending: the cell [n] becomes the last entry. *)
Lemma table_push {A} (P : A → Prop) l n v :
  0 ≤ n → P v → table P l n → table P (<[Z.to_nat n := v]> l) (n + 1).
Proof.
  intros Hn Hv Ht j a Hj Ha. apply at_insert in Ha as [[-> ->]|[? ?]]; [done| |done].
  apply (Ht j); [lia|done].
Qed.

Lemma table_take {A} (P : A → Prop) l n m : m ≤ n → table P l n → table P l m.
Proof. intros ? Ht i a ? ?. apply (Ht i); [lia|done]. Qed.

(** ** The handlers leave the lexer's fields alone *)
Ltac unbind H :=
  repeat match type of H with
  | obind ?c _ = Ret _ =>
      let a := fresh "a" in destruct c as [a|] eqn:?; [cbn [obind] in H|discriminate H]
  | (if ?b then _ else _) = Ret _ => destruct b eqn:?
  | (let '(_, _) := ?p in _) = Ret _ => destruct p eqn:?
  | (match ?p with (_, _) => _ end) = Ret _ => destruct p eqn:?
  end.

Lemma parse_body_frame : frame parse_body.
Proof.
  intros d pd st d' pd' Hb. unfold keeps_lexer.
  unfold parse_body, HIDProcessMainItem, HIDProcessGlobalItem, HIDProcessLocalItem,
    HIDProcessCollection, HIDProcessEndCollection, HIDProcessReportItem,
    usage_minimum, usage_maximum in Hb.
  cbv zeta in Hb. unbind Hb;
    injection Hb as <- <- <-; struct_simpl; repeat split; reflexivity.
Qed.

(** ** Every handler preserves the invariant and stays in bounds *)
Definition same_meta (pd pd' : HIDPreparsedData) : Prop :=
  pd_rawMemPtr pd' = pd_rawMemPtr pd ∧ pd_numBytesAllocated pd' = pd_numBytesAllocated pd ∧
  pd_flags pd' = pd_flags pd ∧ pd_hidTypeIfValid pd' = pd_hidTypeIfValid pd.

Definition step_post (c' cF : Counts) (pd : HIDPreparsedData)
    (r : OSStatus * HIDReportDescriptor * HIDPreparsedData) : Prop :=
  let '(st, d', pd') := r in
  same_meta pd pd' ∧ (st = kHIDSuccess → pinv c' cF d' pd').

Ltac arith := struct_simpl; rewrite ?zlen_insert; lia.
(** One array access of the goal [wp (obind (aget l i) k) P F] or
    [wp (obind (aset l i v) k) P F]. *)
Ltac access x Hx :=
  lazymatch goal with
  | |- wp (obind (aget _ _) _) _ _ =>
      apply wp_bind; eapply wp_mono; [apply aget_safe; arith | intros x Hx | done]
  | |- wp (obind (aset _ _ _) _) _ _ =>
      rewrite aset_in by arith; cbn [obind]
  end.

(** Evaluate [count_item] on an item of known type and tag. *)
Ltac count_as H Hty Htag :=
  unfold count_item in H; rewrite Hty, ?Htag in H; cbn in H;
  repeat match type of H with
  | (if ?b then _ else _) = _ => destruct b eqn:?
  | (_, if ?b then _ else _) = _ => destruct b eqn:?
  end; tests_to_Z;
  try discriminate H; injection H as <-.

(** Select the branch of the tag switches of the goal. *)
Ltac on_tag Htag :=
  rewrite Htag; cbn [Z.eqb Pos.eqb kHIDTagUsagePage kHIDTagLogicalMinimum
    kHIDTagLogicalMaximum kHIDTagPhysicalMinimum kHIDTagPhysicalMaximum kHIDTagUnitExponent
    kHIDTagUnit kHIDTagReportSize kHIDTagReportID kHIDTagReportCount kHIDTagPush kHIDTagPop
    kHIDTagUsage kHIDTagUsageMinimum kHIDTagUsageMaximum kHIDTagDesignatorIndex
    kHIDTagDesignatorMinimum kHIDTagDesignatorMaximum kHIDTagStringIndex kHIDTagStringMinimum
    kHIDTagStringMaximum].

(** The tables after a collection was appended and hung below its parent. *)
Lemma collection_tables pd new p parent :
  let n := pd_collectionCount pd in
  let pd' := pd <| pd_collectionCount := n + 1 |> <| pd_collections :=
      <[Z.to_nat parent := p <| c_firstChild := n |> <| c_children := c_children p + 1 |>]>
        (<[Z.to_nat n := new]> (pd_collections pd)) |> in
  tables pd → 0 ≤ parent < n → collection_ok pd' new →
  at_ (<[Z.to_nat n := new]> (pd_collections pd)) parent p →
  tables pd'.
Proof.
  intros n pd' [Hfresh Hroot Hcol Hitem Huse Hrep] Hpar Hnew Hp.
  assert (grows pd pd') as Hg by (unfold grows, pd'; struct_simpl; lia).
  assert (collection_ok pd p) as Hpok.
  { apply at_insert in Hp as [[-> ->]|[? ?]]; [lia| |lia]. apply (Hcol parent); [lia|done]. }
  split; unfold pd' in *; struct_simpl.
  - intros i col Hi Ha. apply at_insert in Ha as [[-> _]|[? Ha]]; [lia| |lia].
    apply at_insert in Ha as [[-> _]|[? Ha]]; [lia| |lia]. apply (Hfresh i); [lia|done].
  - intros col Ha. apply at_insert in Ha as [[<- ->]|[? Ha]]; [struct_simpl| |lia].
    + apply Hroot. apply at_insert in Hp as [[? _]|[? ?]]; [lia|done|lia].
    + apply at_insert in Ha as [[? _]|[? Ha]]; [lia|by apply Hroot|lia].
  - intros i col Hi Ha. apply at_insert in Ha as [[-> ->]|[? Ha]]; [| |lia].
    { destruct (collection_ok_mono _ _ _ Hg Hpok). split; struct_simpl in *; done || lia. }
    apply at_insert in Ha as [[-> ->]|[? Ha]]; [done| |lia].
    eapply collection_ok_mono; [done|]. apply (Hcol i); [lia|done].
  - eapply table_mono; [|done]. intros ?. by apply report_item_ok_mono.
  - done.
  - done.
Qed.

(** The tables after cell [i] was rewritten with another good collection. *)
Lemma collection_update_tables pd i col :
  tables pd → 0 ≤ i < pd_collectionCount pd → collection_ok pd col →
  (i = 0 → c_firstReportItem col = 0) →
  tables (pd <| pd_collections := <[Z.to_nat i := col]> (pd_collections pd) |>).
Proof.
  intros [Hfresh Hroot Hcol Hitem Huse Hrep] Hi Hok H0.
  assert (∀ l, grows pd (pd <| pd_collections := l |>)) as Hg
    by (intros l; unfold grows; struct_simpl; lia).
  split; struct_simpl; [| |apply table_insert; [lia|..]|..]; try done.
  - intros j c Hj Ha. apply at_insert in Ha as [[-> _]|[? Ha]]; [lia| |lia]. by apply (Hfresh j).
  - intros c Ha. apply at_insert in Ha as [[<- ->]|[? Ha]]; [by apply H0|by apply Hroot|lia].
  - by eapply collection_ok_mono.
  - eapply table_mono; [|done]. intros ?. by apply collection_ok_mono.
  - eapply table_mono; [|done]. intros ?. by apply report_item_ok_mono.
Qed.

(** The tables after a report item was appended and its report resized. *)
Lemma report_item_tables pd ri i r :
  let pd' := pd <| pd_reportItemCount := pd_reportItemCount pd + 1 |>
    <| pd_reports := <[Z.to_nat i := r]> (pd_reports pd) |>
    <| pd_reportItems := <[Z.to_nat (pd_reportItemCount pd) := ri]> (pd_reportItems pd) |> in
  tables pd → 0 ≤ pd_reportItemCount pd → 0 ≤ i → report_sizes_ok r → report_item_ok pd' ri →
  tables pd'.
Proof.
  intros pd' [Hfresh Hroot Hcol Hitem Huse Hrep] Hn Hi Hr Hok.
  assert (grows pd pd') as Hg by (unfold grows, pd'; struct_simpl; lia).
  split; unfold pd' at 2 3 || idtac; try (subst pd'; struct_simpl; done).
  - eapply table_mono; [intros ?; by apply collection_ok_mono|]. by subst pd'; struct_simpl.
  - replace (pd_reportItemCount pd') with (pd_reportItemCount pd + 1) by (subst pd'; by struct_simpl).
    replace (pd_reportItems pd') with (<[Z.to_nat (pd_reportItemCount pd):=ri]> (pd_reportItems pd))
      by (subst pd'; by struct_simpl).
    apply table_push; [done..|]. eapply table_mono; [|done]. intros ?. by apply report_item_ok_mono.
  - subst pd'. struct_simpl. by apply table_insert.
Qed.

(** ** The range repairs of a report item *)
Lemma realMax_range g : is_u32 (g_reportSize g) → 0 ≤ realMax g < 2147483648.
Proof.
  intros Hs. unfold realMax. destruct (Z.leb_spec 32 (g_reportSize g)); [by vm_compute|].
  destruct (decide (g_reportSize g = 31)) as [->|]; [by vm_compute|].
  rewrite Z.shiftl_1_l.
  assert (1 ≤ 2 ^ g_reportSize g ≤ 2 ^ 30).
  { split; [|apply Z.pow_le_mono_r; lia].
    change 1 with (2 ^ 0) at 1. apply Z.pow_le_mono_r; lia. }
  rewrite !s32_id; rewrite ?s32_id; lia.
Qed.

Definition same_layout (g g' : HIDGlobalItems) : Prop :=
  g_reportIndex g' = g_reportIndex g ∧ g_reportSize g' = g_reportSize g ∧
  g_reportCount g' = g_reportCount g ∧ g_reportID g' = g_reportID g ∧
  g_usagePage g' = g_usagePage g.

Lemma check_logical_ok n g :
  globals_ok n g →
  let '(_, g', flags) := check_logical g in
  globals_ok n g' ∧ same_layout g g' ∧
  g_logicalMinimum g' ≤ g_logicalMaximum g' ≤ realMax g'.
Proof.
  intros [Hi Hp Hs]. pose proof (realMax_range g Hs) as Hr.
  assert (∀ g v, realMax (g <| g_logicalMaximum := v |>) = realMax g) as R2 by done.
  assert (∀ g v, realMax (g <| g_logicalMinimum := v |>) = realMax g) as R3 by done.
  unfold check_logical, same_layout.
  do 3 (match goal with |- context [?a <? ?b] => destruct (Z.ltb_spec a b) end;
        rewrite ?R2, ?R3 in *; struct_simpl in *; cbv beta iota).
  all: rewrite ?R2, ?R3; repeat split; struct_simpl; lia.
Qed.

Lemma check_physical_ok n e g :
  globals_ok n g → g_logicalMinimum g ≤ g_logicalMaximum g ≤ realMax g →
  let '(_, g') := check_physical e g in
  globals_ok n g' ∧ same_layout g g' ∧
  g_logicalMinimum g' ≤ g_logicalMaximum g' ≤ realMax g' ∧
  g_physicalMinimum g' ≤ g_physicalMaximum g'.
Proof.
  intros [] ?. unfold check_physical, same_layout.
  destruct (Z.leb_spec (g_physicalMaximum g) (g_physicalMinimum g));
    repeat split; struct_simpl; try lia; done.
Qed.

Lemma place_item_ok tag iBits r :
  tag = kHIDTagInput ∨ tag = kHIDTagOutput ∨ tag = kHIDTagFeature → report_sizes_ok r →
  let '(ty, start, r') := place_item tag iBits r in
  1 ≤ ty ≤ 3 ∧ is_s32 start ∧ report_sizes_ok r'.
Proof.
  intros Ht (? & ? & ?). unfold place_item, report_sizes_ok, kHIDTagInput, kHIDTagOutput, kHIDTagFeature in *.
  pose proof (s32_range (rs_inputBitCount r + iBits)).
  pose proof (s32_range (rs_outputBitCount r + iBits)).
  pose proof (s32_range (rs_featureBitCount r + iBits)).
  destruct Ht as [-> | [-> | ->]]; cbn [Z.eqb Pos.eqb];
    unfold kHIDInputReport, kHIDOutputReport, kHIDFeatureReport; struct_simpl; lia.
Qed.

Lemma find_report_spec reports id : ∀ n i,
  0 ≤ i → i + Z.of_nat n ≤ zlen reports →
  safe (find_report n i reports id) (fun j => i ≤ j ≤ i + Z.of_nat n).
Proof.
  induction n as [|n IH]; intros i Hi Hl; cbn [find_report]; [cbn; lia|].
  access r Hr. destruct (_ =? id); [cbn; lia|].
  eapply wp_mono; [apply IH; lia|cbn; lia|done].
Qed.

(** The tables after a report was added at the end of the report table. *)
Lemma new_report_tables pd r :
  tables pd → 0 ≤ pd_reportCount pd → report_sizes_ok r →
  tables (pd <| pd_reports := <[Z.to_nat (pd_reportCount pd) := r]> (pd_reports pd) |>
             <| pd_reportCount := pd_reportCount pd + 1 |>).
Proof.
  intros [Hfresh Hroot Hcol Hitem Huse Hrep] Hn Hr. set (pd' := setf _ _ _).
  assert (grows pd pd') as Hg by (unfold grows, pd'; struct_simpl; lia).
  split.
  1,2,5: subst pd'; struct_simpl; done.
  - eapply table_mono; [intros ?; by apply collection_ok_mono|]. by subst pd'; struct_simpl.
  - eapply table_mono; [intros ?; by apply report_item_ok_mono|]. by subst pd'; struct_simpl.
  - subst pd'. struct_simpl. by apply table_push.
Qed.

(** Items and range halves read so far never need more cells than were
    reserved for all of them. *)
Lemma half_room n m used hmin hmax nF mF :
  half n m used hmin hmax → n ≤ nF → 0 ≤ m ≤ mF → used ≤ nF + Z.quot mF 2.
Proof.
  intros (? & Hu & _) ??. assert (0 ≤ b2z hmin ∧ 0 ≤ b2z hmax) by (unfold b2z; repeat case_match; lia).
  Z.to_euclidean_division_equations; lia.
Qed.

Lemma extended_usage_ok n d page v :
  item_ok (d_item d) → globals_ok n (d_globals d) → extended_usage d = (page, v) →
  is_u32 page ∧ is_u32 v.
Proof.
  intros (Hu & _) []. unfold extended_usage. case_match; intros [= <- <-]; [|lia].
  rewrite Z.shiftr_div_pow2 by lia. change 0xFFFF with (Z.ones 16). rewrite Z.land_ones by lia.
  change (2 ^ 16) with 65536. Z.div_mod_to_equations. lia.
Qed.

Lemma usage_tables pd ui :
  tables pd → 0 ≤ pd_usageItemCount pd → usage_item_ok ui →
  tables (pd <| pd_usageItemCount := pd_usageItemCount pd + 1 |>
             <| pd_usageItems := <[Z.to_nat (pd_usageItemCount pd) := ui]> (pd_usageItems pd) |>).
Proof.
  intros [Hfresh Hroot Hcol Hitem Huse Hrep] Hn Hok. set (pd' := setf _ _ _).
  assert (grows pd pd') as Hg by (unfold grows, pd'; struct_simpl; lia).
  split.
  1,2,6: subst pd'; struct_simpl; done.
  - eapply table_mono; [intros ?; by apply collection_ok_mono|]. by subst pd'; struct_simpl.
  - eapply table_mono; [intros ?; by apply report_item_ok_mono|]. by subst pd'; struct_simpl.
  - subst pd'. struct_simpl. by apply table_push.
Qed.

(** The string and designator tables: their entries carry no references. *)
Lemma index_tables pd nd ns ld ls :
  tables pd → pd_desigItemCount pd ≤ nd → pd_stringItemCount pd ≤ ns →
  tables (pd <| pd_desigItemCount := nd |> <| pd_desigItems := ld |>
             <| pd_stringItemCount := ns |> <| pd_stringItems := ls |>).
Proof.
  intros [Hfresh Hroot Hcol Hitem Huse Hrep] Hd Hs. set (pd' := setf _ _ _).
  assert (grows pd pd') as Hg by (unfold grows, pd'; struct_simpl; lia).
  split.
  1,2,5,6: subst pd'; struct_simpl; done.
  - eapply table_mono; [intros ?; by apply collection_ok_mono|]. by subst pd'; struct_simpl.
  - eapply table_mono; [intros ?; by apply report_item_ok_mono|]. by subst pd'; struct_simpl.
Qed.

Lemma desig_tables pd nd ld :
  tables pd → pd_desigItemCount pd ≤ nd →
  tables (pd <| pd_desigItemCount := nd |> <| pd_desigItems := ld |>).
Proof.
  intros Ht Hn. pose proof (index_tables pd nd (pd_stringItemCount pd) ld (pd_stringItems pd) Ht Hn) as H.
  replace (setf pd_desigItems _ _) with (pd <| pd_desigItemCount := nd |> <| pd_desigItems := ld |>
    <| pd_stringItemCount := pd_stringItemCount pd |> <| pd_stringItems := pd_stringItems pd |>)
    by struct_eq. apply H. lia.
Qed.

Lemma string_tables pd ns ls :
  tables pd → pd_stringItemCount pd ≤ ns →
  tables (pd <| pd_stringItemCount := ns |> <| pd_stringItems := ls |>).
Proof.
  intros Ht Hn. pose proof (index_tables pd (pd_desigItemCount pd) ns (pd_desigItems pd) ls Ht) as H.
  replace (setf pd_stringItems _ _) with (pd <| pd_desigItemCount := pd_desigItemCount pd |>
    <| pd_desigItems := pd_desigItems pd |> <| pd_stringItemCount := ns |> <| pd_stringItems := ls |>)
    by struct_eq. apply H; lia.
Qed.

(** A single item pays for one cell, a second range half completes a pending
    one, and a first half leaves one pending. *)
Lemma half_single n m used hmin hmax :
  half n m used hmin hmax → half (n + 1) m (used + 1) hmin hmax.
Proof. intros (? & ? & ?). repeat split; [lia..|done]. Qed.
Lemma half_close n m used hmin hmax :
  half n m used hmin hmax → hmin || hmax = true → half n (m + 1) (used + 1) false false.
Proof. intros (? & ? & ?) ?. repeat split; [lia|]. destruct hmin, hmax; cbn in *; done || lia. Qed.
Lemma half_open_min n m used hmin :
  half n m used hmin false → half n (m + 1) used true false.
Proof. intros (? & ? & ?). repeat split; [lia|]. destruct hmin; cbn in *; lia. Qed.
Lemma half_open_max n m used hmax :
  half n m used false hmax → half n (m + 1) used false true.
Proof. intros (? & ? & ?). repeat split; [lia|]. destruct hmax; cbn in *; lia. Qed.

Section Handlers.
Context (cF c c' : Counts) (d : HIDReportDescriptor) (pd : HIDPreparsedData).
Hypothesis Hc : counts_ok c.
Hypothesis Hi : item_ok (d_item d).
Hypothesis Hinv : pinv c cF d pd.
Hypothesis Hcount : count_item (d_item d) c = (kHIDSuccess, c').
Hypothesis Hle : counts_le c' cF.

Lemma HIDProcessCollection_inv :
  it_itemType (d_item d) = kHIDTypeMain → it_tag (d_item d) = kHIDTagCollection →
  safe (HIDProcessCollection d pd) (step_post c' cF pd).
Proof using All.
  intros Hty Htag. destruct (count_item_spec _ _ _ Hc Hcount) as (Hok & _ & _).
  count_as Hcount Hty Htag.
  all: destruct Hinv as [[] [] [] []], Hc, Hok, Hle; struct_simpl in *.
  all: unfold HIDProcessCollection; cbv zeta.
  all: access col Hcol; struct_simpl in Hcol.
  all: access x Hx; access p Hp; struct_simpl in Hp; access x Hx; access x Hx.
  all: split; [by struct_simpl|intros _].
  all: assert (col = zeroCollection) as -> by (eapply tb_fresh0; [|done]; lia).
  all: split; [split; struct_simpl; rewrite ?zlen_insert; done|split; struct_simpl; lia || done
    |split; struct_simpl; try done; try lia|].
  1,3: apply table_push; [lia..|]; eapply table_mono; [|done]; cbn; lia.
  all: struct_simpl; apply collection_tables; try done; split; unfold window; struct_simpl; cbn; lia.
Qed.

Lemma HIDProcessEndCollection_inv :
  it_itemType (d_item d) = kHIDTypeMain → it_tag (d_item d) = kHIDTagEndCollection →
  safe (HIDProcessEndCollection d pd) (step_post c' cF pd).
Proof using All.
  intros Hty Htag. destruct (count_item_spec _ _ _ Hc Hcount) as (Hok & _ & _).
  count_as Hcount Hty Htag.
  pose proof (pi_tables _ _ _ _ Hinv) as Htab.
  destruct Hinv as [[] [] [] []], Hc, Hok, Hle; struct_simpl in *.
  unfold HIDProcessEndCollection; cbv zeta.
  access col Hcol. access x Hx. access p Hp.
  split; [by struct_simpl|intros _].
  pose proof (tb_collections0 _ _ (proj2 cu_parent0) Hcol) as Hcok.
  assert (0 ≤ p < pd_collectionCount pd) by (eapply (cu_stack0 _ p); [|done]; lia).
  split; [split; struct_simpl; rewrite ?zlen_insert; done|split; struct_simpl; lia || done
    |split; struct_simpl; try done; try lia|].
  - eapply table_take; [|done]. lia.
  - apply collection_update_tables; [done..| |].
    + destruct Hcok. split; struct_simpl; done || lia.
    + intros E0. struct_simpl. rewrite E0 in Hcol. by apply tb_root0.
Qed.

Lemma HIDProcessReportItem_inv :
  it_itemType (d_item d) = kHIDTypeMain →
  it_tag (d_item d) = kHIDTagInput ∨ it_tag (d_item d) = kHIDTagOutput ∨
  it_tag (d_item d) = kHIDTagFeature →
  safe (HIDProcessReportItem d pd) (step_post c' cF pd).
Proof using All.
  intros Hty Htag. destruct (count_item_spec _ _ _ Hc Hcount) as (Hok & _ & _).
  assert (c' = c <| n_reportItemCount := n_reportItemCount c + 1 |>) as ->.
  { destruct Htag as [E | [E | E]]; by count_as Hcount Hty E. }
  pose proof (pi_tables _ _ _ _ Hinv) as Htab.
  destruct Hinv as [[] [] [] []], Hc, Hok, Hle; struct_simpl in *.
  unfold HIDProcessReportItem; cbv zeta.
  access ri Hri.
  pose proof (check_logical_ok _ _ cu_globals0) as Hl.
  destruct (check_logical _) as [[e1 g1] flags]. destruct Hl as (Hg1 & Hs1 & Hl1).
  pose proof (check_physical_ok _ (check_half_ranges e1 d) _ Hg1 Hl1) as Hp.
  destruct (check_physical _ _) as [e2 g2]. destruct Hp as (Hg2 & Hs2 & Hl2 & Hp2).
  destruct (_ && _) eqn:Estrict.
  { access x Hx. split; [by struct_simpl|]. intros ->. by apply andb_prop in Estrict as [? _]. }
  pose proof (go_index _ _ Hg2).
  access r Hr. struct_simpl in Hr.
  pose proof (place_item_ok (it_tag (d_item d)) (s32 (g_reportSize g2 * g_reportCount g2)) r
    Htag (tb_reports0 _ _ (proj2 H) Hr)) as Hpl.
  destruct (place_item _ _ _) as [[ty start] r']. destruct Hpl as (Hty' & Hst & Hr').
  access x Hx. access x Hx.
  split; [by struct_simpl|intros _].
  split; [split; struct_simpl; rewrite ?zlen_insert; done|split; struct_simpl; lia || done
    |split; struct_simpl; done || lia|].
  struct_simpl. apply report_item_tables; try done; try lia.
  split; unfold window; struct_simpl; done || lia.
Qed.

Lemma pinv_globals g :
  c' = c → globals_ok (pd_reportCount pd) g →
  safe (Ret (kHIDSuccess, d <| d_globals := g |>, pd)) (step_post c' cF pd).
Proof using Hinv.
  clear Hcount Hle. intros -> Hg. split; [done|intros _]. destruct Hinv as [[] [] [] []].
  split; split; struct_simpl; done.
Qed.

Lemma report_id_inv :
  it_itemType (d_item d) = kHIDTypeGlobal → it_tag (d_item d) = kHIDTagReportID →
  safe (HIDProcessGlobalItem d pd) (step_post c' cF pd).
Proof using All.
  intros Hty Htag. destruct (count_item_spec _ _ _ Hc Hcount) as (Hok & _ & _).
  count_as Hcount Hty Htag. pose proof Hi as (Hu & _).
  pose proof (pi_tables _ _ _ _ Hinv) as Htab.
  destruct Hinv as [[] [] [] []], Hc, Hok, Hle; struct_simpl in *.
  unfold HIDProcessGlobalItem; cbv zeta. on_tag Htag.
  apply wp_bind. eapply wp_mono; [apply find_report_spec; lia|intros j Hj; cbv beta in Hj|done].
  pose proof (s32_range (it_unsignedValue (d_item d))).
  destruct (Z.eqb_spec j (pd_reportCount pd)) as [->|Hne].
  - rewrite aset_in by lia. cbn [obind wp]. split; [by struct_simpl|intros _].
    split; [split; struct_simpl; rewrite ?zlen_insert; done|split; struct_simpl; lia || done| |].
    + split; struct_simpl; try done; try lia.
      * destruct cu_globals0. split; struct_simpl; lia.
      * eapply table_mono; [|done]. intros ?. apply globals_ok_mono. lia.
    + apply new_report_tables; [done|lia|]. cbn. unfold report_sizes_ok. cbn. lia.
  - cbn [obind wp]. split; [done|intros _].
    split; [split; struct_simpl; done|split; struct_simpl; lia || done| |done].
    destruct cu_globals0. split; struct_simpl; try done. split; struct_simpl; lia.
Qed.

Lemma push_inv :
  it_itemType (d_item d) = kHIDTypeGlobal → it_tag (d_item d) = kHIDTagPush →
  safe (HIDProcessGlobalItem d pd) (step_post c' cF pd).
Proof using All.
  intros Hty Htag. destruct (count_item_spec _ _ _ Hc Hcount) as (Hok & _ & _).
  pose proof (pi_tables _ _ _ _ Hinv) as Htab. count_as Hcount Hty Htag.
  all: destruct Hinv as [[] [] [] []], Hc, Hok, Hle; struct_simpl in *.
  all: unfold HIDProcessGlobalItem; cbv zeta; on_tag Htag.
  all: access x Hx; split; [done|intros _].
  all: split; [split; struct_simpl; rewrite ?zlen_insert; done|split; struct_simpl; lia || done| |done].
  all: split; struct_simpl; try done; try lia. all: apply table_push; done || lia.
Qed.

Lemma pop_inv :
  it_itemType (d_item d) = kHIDTypeGlobal → it_tag (d_item d) = kHIDTagPop →
  safe (HIDProcessGlobalItem d pd) (step_post c' cF pd).
Proof using All.
  intros Hty Htag. destruct (count_item_spec _ _ _ Hc Hcount) as (Hok & _ & _).
  pose proof (pi_tables _ _ _ _ Hinv) as Htab. count_as Hcount Hty Htag.
  destruct Hinv as [[] [] [] []], Hc, Hok, Hle; struct_simpl in *.
  unfold HIDProcessGlobalItem; cbv zeta; on_tag Htag.
  access g Hg. split; [done|intros _].
  split; [split; struct_simpl; done|split; struct_simpl; lia || done| |done].
  split; struct_simpl; try done; try lia.
  - eapply cu_gstack0; [|done]. lia.
  - eapply table_take; [|done]. lia.
Qed.

Lemma HIDProcessGlobalItem_inv :
  it_itemType (d_item d) = kHIDTypeGlobal →
  safe (HIDProcessGlobalItem d pd) (step_post c' cF pd).
Proof using All.
  intros Hty.
  destruct (Z.eqb_spec (it_tag (d_item d)) kHIDTagReportID) as [|H1]; [by apply report_id_inv|].
  destruct (Z.eqb_spec (it_tag (d_item d)) kHIDTagPush) as [|H2]; [by apply push_inv|].
  destruct (Z.eqb_spec (it_tag (d_item d)) kHIDTagPop) as [|H3]; [by apply pop_inv|].
  assert (c' = c) as Ec.
  { apply Z.eqb_neq in H1, H2, H3. unfold count_item in Hcount.
    rewrite Hty, H1, H2, H3 in Hcount. cbn in Hcount. congruence. }
  pose proof Hi as (Hu & Hs & _). pose proof (s32_range (it_unsignedValue (d_item d))).
  pose proof (cu_globals _ _ (pi_cursor _ _ _ _ Hinv)) as Hg.
  apply Z.eqb_neq in H1, H2, H3. unfold HIDProcessGlobalItem. rewrite H1, H2, H3.
  repeat case_match; try (apply pinv_globals; [done|destruct Hg; split; struct_simpl; lia]).
  split; [done|]. by rewrite Ec.
Qed.

Lemma usage_inv :
  it_itemType (d_item d) = kHIDTypeLocal → it_tag (d_item d) = kHIDTagUsage →
  safe (HIDProcessLocalItem d pd) (step_post c' cF pd).
Proof using All.
  intros Hty Htag. destruct (count_item_spec _ _ _ Hc Hcount) as (Hok & _ & _).
  count_as Hcount Hty Htag. pose proof (pi_tables _ _ _ _ Hinv) as Htab.
  destruct Hinv as [[] [] [] []], Hc, Hok, Hle; struct_simpl in *.
  unfold HIDProcessLocalItem; cbv zeta; on_tag Htag.
  destruct (extended_usage d) as [page v] eqn:Ex.
  destruct (extended_usage_ok _ _ _ _ Hi cu_globals0 Ex).
  pose proof (half_single _ _ _ _ _ ct_usages0) as Hh.
  pose proof (half_room _ _ _ _ _ (n_iUsages cF) (n_iUsageRanges cF) Hh) as Hroom.
  unfold usageCells in *. specialize (Hroom ltac:(lia) ltac:(lia)).
  assert (0 ≤ pd_usageItemCount pd) by apply ct_usages0.
  access ui Hui. access x Hx. split; [done|intros _].
  split; [split; struct_simpl; rewrite ?zlen_insert; done| | |].
  - split; struct_simpl; done.
  - split; struct_simpl; done || lia.
  - by apply usage_tables.
Qed.

(** The two halves of a usage range. *)
Lemma usage_range_inv :
  c' = c <| n_iUsageRanges := n_iUsageRanges c + 1 |> →
  safe (usage_minimum d pd) (step_post c' cF pd) ∧
  safe (usage_maximum d pd) (step_post c' cF pd).
Proof using Hc Hi Hinv Hle.
  clear Hcount. intros Ec. rewrite Ec in *.
  pose proof (pi_tables _ _ _ _ Hinv) as Htab.
  destruct Hinv as [[] [] [] []], Hc, Hle; struct_simpl in *.
  unfold usage_minimum, usage_maximum; cbv zeta.
  destruct (extended_usage d) as [page v] eqn:Ex.
  destruct (extended_usage_ok _ _ _ _ Hi cu_globals0 Ex).
  assert (0 ≤ pd_usageItemCount pd) by apply ct_usages0.
  pose proof (s32_range v).
  split.
  - destruct (d_haveUsageMax d) eqn:Emax.
    + pose proof (half_close _ _ _ _ _ ct_usages0 (orb_true_r _)) as Hh.
      pose proof (half_room _ _ _ _ _ (n_iUsages cF) (n_iUsageRanges cF) Hh) as Hroom.
      unfold usageCells in *. specialize (Hroom ltac:(lia) ltac:(lia)).
      access ui Hui. destruct (negb _); access x Hx; [by split|].
      destruct (_ <? _) eqn:Eord; [by split|]. apply Z.ltb_ge in Eord.
      split; [done|intros _].
      split; [split; struct_simpl; rewrite ?zlen_insert; done|split; struct_simpl; done
        |split; struct_simpl; auto; lia|].
      struct_simpl in *. apply usage_tables; try done.
      destruct cu_umin0, cu_umax0; split; struct_simpl; intros; done || lia.
    + pose proof (half_open_min _ _ _ _ ct_usages0) as Hh. split; [done|intros _].
      split; [split; struct_simpl; done|split; struct_simpl; try rewrite Emax; done
        |split; struct_simpl; auto|done].
  - destruct (d_haveUsageMin d) eqn:Emin.
    + pose proof (half_close _ _ _ _ _ ct_usages0 eq_refl) as Hh.
      pose proof (half_room _ _ _ _ _ (n_iUsages cF) (n_iUsageRanges cF) Hh) as Hroom.
      unfold usageCells in *. specialize (Hroom ltac:(lia) ltac:(lia)).
      access ui Hui. destruct (negb _); access x Hx; [by split|].
      destruct (_ <? _) eqn:Eord; [by split|]. apply Z.ltb_ge in Eord.
      split; [done|intros _].
      split; [split; struct_simpl; rewrite ?zlen_insert; done|split; struct_simpl; done
        |split; struct_simpl; auto; lia|].
      struct_simpl in *. apply usage_tables; try done.
      destruct cu_umin0, cu_umax0; split; struct_simpl; intros; done || lia.
    + pose proof (half_open_max _ _ _ _ ct_usages0) as Hh. split; [done|intros _].
      split; [split; struct_simpl; done|split; struct_simpl; try rewrite Emin; done
        |split; struct_simpl; auto|done].
Qed.

(** Appending to the designator or the string table. *)
Lemma desig_push_inv f hmin hmax :
  counts_ok c' → half (n_iDesigs c') (n_iDesigRanges c') (pd_desigItemCount pd + 1) hmin hmax →
  (∃ n m, c' = c <| n_iDesigs := n |> <| n_iDesigRanges := m |>) →
  safe (add_desig f pd) (fun pd' => same_meta pd pd' ∧
    pinv c' cF (d <| d_haveDesigMin := hmin |> <| d_haveDesigMax := hmax |>) pd').
Proof using Hinv Hle.
  clear Hcount. intros Hok Hh (n & m & Ec).
  pose proof (pi_tables _ _ _ _ Hinv) as Htab.
  pose proof (half_room _ _ _ _ _ (n_iDesigs cF) (n_iDesigRanges cF) Hh) as Hroom.
  destruct Hinv as [[] [] [] []], Hok, Hle. unfold desigCells in *.
  specialize (Hroom ltac:(lia) ltac:(lia)).
  assert (0 ≤ pd_desigItemCount pd) by apply ct_desigs0.
  unfold add_desig. access si Hsi. access x Hx. split; [done|].
  split; [split; struct_simpl; rewrite ?zlen_insert; done
    |split; struct_simpl; try done; by rewrite Ec
    |split; struct_simpl; done || lia|apply desig_tables; done || lia].
Qed.

Lemma string_push_inv f hmin hmax :
  counts_ok c' → half (n_iStrings c') (n_iStringRanges c') (pd_stringItemCount pd + 1) hmin hmax →
  (∃ n m, c' = c <| n_iStrings := n |> <| n_iStringRanges := m |>) →
  safe (add_string f pd) (fun pd' => same_meta pd pd' ∧
    pinv c' cF (d <| d_haveStringMin := hmin |> <| d_haveStringMax := hmax |>) pd').
Proof using Hinv Hle.
  clear Hcount. intros Hok Hh (n & m & Ec).
  pose proof (pi_tables _ _ _ _ Hinv) as Htab.
  pose proof (half_room _ _ _ _ _ (n_iStrings cF) (n_iStringRanges cF) Hh) as Hroom.
  destruct Hinv as [[] [] [] []], Hok, Hle. unfold stringCells in *.
  specialize (Hroom ltac:(lia) ltac:(lia)).
  assert (0 ≤ pd_stringItemCount pd) by apply ct_strings0.
  unfold add_string. access si Hsi. access x Hx. split; [done|].
  split; [split; struct_simpl; rewrite ?zlen_insert; done
    |split; struct_simpl; try done; by rewrite Ec
    |split; struct_simpl; done || lia|apply string_tables; done || lia].
Qed.

Lemma desig_inv :
  it_itemType (d_item d) = kHIDTypeLocal →
  it_tag (d_item d) = kHIDTagDesignatorIndex ∨ it_tag (d_item d) = kHIDTagDesignatorMinimum ∨
  it_tag (d_item d) = kHIDTagDesignatorMaximum →
  safe (HIDProcessLocalItem d pd) (step_post c' cF pd).
Proof using All.
  intros Hty Htag. destruct (count_item_spec _ _ _ Hc Hcount) as (Hok & _ & _).
  pose proof (ct_desigs _ _ _ (pi_ctrs _ _ _ _ Hinv)) as Hh.
  destruct Htag as [Htag | [Htag | Htag]].
  all: unfold HIDProcessLocalItem; cbv zeta; on_tag Htag.
  - apply wp_bind. eapply wp_mono; [apply (desig_push_inv _ (d_haveDesigMin d) (d_haveDesigMax d))| |done].
    1: done.
    1: count_as Hcount Hty Htag; struct_simpl; by apply half_single.
    1: count_as Hcount Hty Htag; generalize c; intros c0; exists (n_iDesigs c0 + 1), (n_iDesigRanges c0); by destruct c0.
    intros pd' [Hm Hp]. split; [done|intros _].
    by replace d with (d <| d_haveDesigMin := d_haveDesigMin d |> <| d_haveDesigMax := d_haveDesigMax d |>)
      by struct_eq.
  - destruct (d_haveDesigMax d) eqn:E.
    + apply wp_bind. eapply wp_mono; [apply (desig_push_inv _ false false)| |done].
      1: done.
      1: count_as Hcount Hty Htag; struct_simpl; by eapply half_close; [|apply orb_true_r].
      1: count_as Hcount Hty Htag; generalize c; intros c0; exists (n_iDesigs c0), (n_iDesigRanges c0 + 1); by destruct c0.
      intros pd' [Hm Hp]. by split.
    + count_as Hcount Hty Htag. split; [done|intros _]. apply half_open_min in Hh.
      destruct Hinv as [[] [] [] []]. split; split; struct_simpl; by rewrite ?E.
  - destruct (d_haveDesigMin d) eqn:E.
    + apply wp_bind. eapply wp_mono; [apply (desig_push_inv _ false false)| |done].
      1: done.
      1: count_as Hcount Hty Htag; struct_simpl; by eapply half_close.
      1: count_as Hcount Hty Htag; generalize c; intros c0; exists (n_iDesigs c0), (n_iDesigRanges c0 + 1); by destruct c0.
      intros pd' [Hm Hp]. by split.
    + count_as Hcount Hty Htag. split; [done|intros _]. apply half_open_max in Hh.
      destruct Hinv as [[] [] [] []]. split; split; struct_simpl; by rewrite ?E.
Qed.

Lemma string_inv :
  it_itemType (d_item d) = kHIDTypeLocal →
  it_tag (d_item d) = kHIDTagStringIndex ∨ it_tag (d_item d) = kHIDTagStringMinimum ∨
  it_tag (d_item d) = kHIDTagStringMaximum →
  safe (HIDProcessLocalItem d pd) (step_post c' cF pd).
Proof using All.
  intros Hty Htag. destruct (count_item_spec _ _ _ Hc Hcount) as (Hok & _ & _).
  pose proof (ct_strings _ _ _ (pi_ctrs _ _ _ _ Hinv)) as Hh.
  destruct Htag as [Htag | [Htag | Htag]].
  all: unfold HIDProcessLocalItem; cbv zeta; on_tag Htag.
  - apply wp_bind. eapply wp_mono; [apply (string_push_inv _ (d_haveStringMin d) (d_haveStringMax d))| |done].
    1: done.
    1: count_as Hcount Hty Htag; struct_simpl; by apply half_single.
    1: count_as Hcount Hty Htag; generalize c; intros c0; exists (n_iStrings c0 + 1), (n_iStringRanges c0); by destruct c0.
    intros pd' [Hm Hp]. split; [done|intros _].
    by replace d with (d <| d_haveStringMin := d_haveStringMin d |> <| d_haveStringMax := d_haveStringMax d |>)
      by struct_eq.
  - destruct (d_haveStringMax d) eqn:E.
    + apply wp_bind. eapply wp_mono; [apply (string_push_inv _ false false)| |done].
      1: done.
      1: count_as Hcount Hty Htag; struct_simpl; by eapply half_close; [|apply orb_true_r].
      1: count_as Hcount Hty Htag; generalize c; intros c0; exists (n_iStrings c0), (n_iStringRanges c0 + 1); by destruct c0.
      intros pd' [Hm Hp]. by split.
    + count_as Hcount Hty Htag. split; [done|intros _]. apply half_open_min in Hh.
      destruct Hinv as [[] [] [] []]. split; split; struct_simpl; by rewrite ?E.
  - destruct (d_haveStringMin d) eqn:E.
    + apply wp_bind. eapply wp_mono; [apply (string_push_inv _ false false)| |done].
      1: done.
      1: count_as Hcount Hty Htag; struct_simpl; by eapply half_close.
      1: count_as Hcount Hty Htag; generalize c; intros c0; exists (n_iStrings c0), (n_iStringRanges c0 + 1); by destruct c0.
      intros pd' [Hm Hp]. by split.
    + count_as Hcount Hty Htag. split; [done|intros _]. apply half_open_max in Hh.
      destruct Hinv as [[] [] [] []]. split; split; struct_simpl; by rewrite ?E.
Qed.

Lemma HIDProcessLocalItem_inv :
  it_itemType (d_item d) = kHIDTypeLocal →
  safe (HIDProcessLocalItem d pd) (step_post c' cF pd).
Proof using All.
  intros Hty. set (t := it_tag (d_item d)).
  destruct (Z.eqb_spec t kHIDTagUsage) as [E|H0]; [by apply usage_inv|].
  destruct (Z.eqb_spec t kHIDTagUsageMinimum) as [E|H1].
  { unfold t in E. unfold HIDProcessLocalItem; cbv zeta; on_tag E. apply usage_range_inv.
    by count_as Hcount Hty E. }
  destruct (Z.eqb_spec t kHIDTagUsageMaximum) as [E|H2].
  { unfold t in E. unfold HIDProcessLocalItem; cbv zeta; on_tag E. apply usage_range_inv.
    by count_as Hcount Hty E. }
  destruct (Z.eqb_spec t kHIDTagDesignatorIndex); [apply desig_inv; auto|].
  destruct (Z.eqb_spec t kHIDTagDesignatorMinimum); [apply desig_inv; auto|].
  destruct (Z.eqb_spec t kHIDTagDesignatorMaximum); [apply desig_inv; auto|].
  destruct (Z.eqb_spec t kHIDTagStringIndex); [apply string_inv; auto|].
  destruct (Z.eqb_spec t kHIDTagStringMinimum); [apply string_inv; auto|].
  destruct (Z.eqb_spec t kHIDTagStringMaximum); [apply string_inv; auto|].
  unfold HIDProcessLocalItem, count_item in *. fold t in Hcount |- *. rewrite Hty in Hcount.
  repeat rewrite (proj2 (Z.eqb_neq t _)) in Hcount |- * by done.
  cbn in Hcount. injection Hcount as ->. by split.
Qed.

Lemma HIDProcessMainItem_inv :
  it_itemType (d_item d) = kHIDTypeMain →
  safe (HIDProcessMainItem d pd) (step_post c' cF pd).
Proof using All.
  intros Hty. unfold HIDProcessMainItem. cbv zeta.
  destruct (Z.eqb_spec (it_tag (d_item d)) kHIDTagCollection) as [E|H0];
    [by apply HIDProcessCollection_inv|].
  destruct (Z.eqb_spec (it_tag (d_item d)) kHIDTagEndCollection) as [E|H1];
    [by apply HIDProcessEndCollection_inv|].
  destruct (_ || _) eqn:E; [apply HIDProcessReportItem_inv; [done|]; tests_to_Z; tauto|].
  unfold count_item in Hcount. apply Z.eqb_neq in H0, H1. rewrite Hty, H0, H1, E in Hcount.
  cbn in Hcount. injection Hcount as ->. by split.
Qed.

(** One item of the second pass. *)
Lemma parse_body_inv : safe (parse_body d pd) (step_post c' cF pd).
Proof using All.
  unfold parse_body. cbv zeta.
  destruct (Z.eqb_spec (it_itemType (d_item d)) kHIDTypeMain) as [|H0];
    [by apply HIDProcessMainItem_inv|].
  destruct (Z.eqb_spec (it_itemType (d_item d)) kHIDTypeGlobal) as [|H1];
    [by apply HIDProcessGlobalItem_inv|].
  destruct (Z.eqb_spec (it_itemType (d_item d)) kHIDTypeLocal) as [|H2];
    [by apply HIDProcessLocalItem_inv|].
  unfold count_item in Hcount. apply Z.eqb_neq in H0, H1, H2. rewrite H0, H1, H2 in Hcount.
  injection Hcount as ->. by split.
Qed.
End Handlers.

(** ** The whole run *)
Lemma pinv_lexer c cF d pd i it :
  pinv c cF d pd → pinv c cF (d <| d_index := i |> <| d_item := it |>) pd.
Proof. intros [[] [] [] []]. split; split; struct_simpl; done. Qed.

Lemma parse_run cF its : ∀ c c' d pd,
  counts_ok c → Forall (fun p => item_ok p.1) its → pinv c cF d pd →
  count_run its c = (kHIDSuccess, c') → counts_le c' cF →
  safe (run_items parse_body its d pd) (fun '(o, d', pd') =>
    same_meta pd pd' ∧
    match o with None => pinv c' cF d' pd' | Some st => st ≠ kHIDSuccess end).
Proof.
  induction its as [|[it next] its IH]; intros c c' d pd Hc HF Hinv Hrun Hle;
    cbn [run_items count_run] in *.
  { by injection Hrun as <-. }
  apply Forall_cons in HF as [Hit HF].
  destruct (count_item it c) as [st c1] eqn:Ec.
  destruct (Z.eqb_spec st kHIDSuccess) as [->|]; [|congruence].
  destruct (count_item_spec _ _ _ Hc Ec) as (Hc1 & Hle1 & _).
  destruct (count_run_spec _ _ _ Hc1 Hrun) as (_ & Hle2 & _).
  apply wp_bind.
  eapply (wp_mono _ (step_post c1 cF pd)); [|intros [[st d1] pd1] [Hm Hp]|done].
  { apply (parse_body_inv cF c c1); [done| | |by struct_simpl|by etrans].
    - by struct_simpl.
    - by apply pinv_lexer. }
  destruct (Z.eqb_spec st kHIDSuccess) as [->|]; [|by split].
  eapply wp_mono; [by apply (IH c1 c' d1 pd1); auto|intros [[o d2] pd2] [Hm2 Ho]|done].
  split; [|done]. destruct Hm as (? & ? & ? & ?), Hm2 as (? & ? & ? & ?).
  repeat split; congruence.
Qed.
