(* ===== verification/HIDNesting.v ===== *)
(** * Brackets in the item stream

    Push/Pop items bracket the global state and Collection/End Collection
    items the current collection.  The second pass keeps both on explicit
    stacks; a bracketed, balanced stretch of items leaves what is below its
    opening item alone and its closing item restores it. *)
From S2P Require Import Prelude HIDTypes HIDNextItem HIDCount HIDParse HIDParseInv.

(** ** Stacks *)

(** What one item does to a stack: a state is the array, its depth and the
    current element. *)
Inductive stack_step {A} : Z → list A * Z * A → list A * Z * A → Prop :=
| step_keep s n a a' : stack_step 0 (s, n, a) (s, n, a')
| step_push s n a s' a' : aset s n a = Ret s' → stack_step 1 (s, n, a) (s', n + 1, a')
| step_pop s n a a' : aget s (n - 1) = Ret a' → stack_step (-1) (s, n, a) (s, n - 1, a').

Inductive stack_steps {A} : list Z → list A * Z * A → list A * Z * A → Prop :=
| steps_nil x : stack_steps [] x x
| steps_cons δ δs x y z : stack_step δ x y → stack_steps δs y z → stack_steps (δ :: δs) x z.

(** No prefix closes more than it opened. *)
Fixpoint above (n : Z) (δs : list Z) : bool :=
  (0 <=? n) && match δs with [] => true | δ :: δs => above (n + δ) δs end.
Definition sum (δs : list Z) : Z := foldr Z.add 0 δs.
Definition balanced (δs : list Z) : Prop := above 0 δs = true ∧ sum δs = 0.

Section Stacks.
Context {A : Type}.
Implicit Types (s : list A) (a : A).

(** Steps that stay at depth [b] or above do not touch the cells below. *)
Lemma stack_steps_below δs b (x y : list A * Z * A) :
  stack_steps δs x y → above (x.1.2 - b) δs = true →
  y.1.2 = x.1.2 + sum δs ∧ ∀ k a, k < b → at_ x.1.1 k a → at_ y.1.1 k a.
Proof.
  intros Hs. induction Hs as [|δ δs x y z Hstep _ IH]; intros Ha; cbn [above sum foldr] in *.
  { split; [lia|done]. }
  apply andb_prop in Ha as [H0%Z.leb_le Ha].
  destruct Hstep as [s n a a'|s n a s' a' Hset|s n a a' Hget]; cbn [fst snd] in *.
  - rewrite Z.add_0_r in Ha. destruct (IH Ha) as [-> Hk]. split; [unfold sum; lia|done].
  - replace (n - b + 1) with (n + 1 - b) in Ha by lia. destruct (IH Ha) as [-> Hk].
    split; [unfold sum; lia|]. intros k c Hkb Hc. apply Hk; [done|].
    apply aset_Ret in Hset as [? ->]. apply at_insert_ne; [lia|lia|done].
  - replace (n - b + -1) with (n - 1 - b) in Ha by lia. destruct (IH Ha) as [-> Hk].
    split; [unfold sum; lia|done].
Qed.

Lemma stack_steps_snoc δs δ (x z : list A * Z * A) :
  stack_steps (δs ++ [δ]) x z → ∃ y, stack_steps δs x y ∧ stack_step δ y z.
Proof.
  revert x. induction δs as [|δ' δs IH]; intros x; cbn [app]; inversion 1; subst.
  - match goal with H : stack_steps [] _ _ |- _ => inversion H; subst end.
    eexists. split; [constructor|done].
  - match goal with H : stack_steps (_ ++ _) _ _ |- _ => apply IH in H as (y0 & ? & ?) end.
    exists y0. split; [by econstructor|done].
Qed.

(** Open, a balanced stretch, close: depth and current element are back,
    and everything below is as it was. *)
Lemma stack_bracket δs s n a s' n' a' :
  0 ≤ n → balanced δs → stack_steps (1 :: δs ++ [-1]) (s, n, a) (s', n', a') →
  n' = n ∧ a' = a ∧ ∀ k c, k < n → at_ s k c → at_ s' k c.
Proof.
  intros Hn [Ha Hsum]. inversion 1 as [|? ? ? y1 ? Hopen Hrest]; subst.
  apply stack_steps_snoc in Hrest as (y2 & Hmid & Hclose).
  inversion Hopen as [|? ? ? s1 a1 Hset|]; subst.
  destruct (stack_steps_below δs (n + 1) _ _ Hmid) as [Hdepth Hkeep];
    [cbn; by rewrite Z.sub_diag|]. cbn [fst snd] in *.
  inversion Hclose as [| |s2 n2 a2 a3 Hget]; subst. cbn [fst snd] in *. rewrite Hsum in Hdepth.
  apply aset_Ret in Hset as [Hr ->]. split; [lia|]. split.
  - apply aget_at in Hget. replace (n2 - 1) with n in Hget by lia.
    eapply at_fun; [exact Hget|]. apply Hkeep; [lia|]. by apply at_insert_eq.
  - intros k c Hk Hc. apply Hkeep; [lia|]. apply at_insert_ne; [lia|done|done].
Qed.
End Stacks.

(** ** The two stacks of the parser *)
Definition globals_delta (it : HIDItem) : Z :=
  if it_itemType it =? kHIDTypeGlobal then
    if it_tag it =? kHIDTagPush then 1 else if it_tag it =? kHIDTagPop then -1 else 0
  else 0.
Definition collection_delta (it : HIDItem) : Z :=
  if it_itemType it =? kHIDTypeMain then
    if it_tag it =? kHIDTagCollection then 1 else if it_tag it =? kHIDTagEndCollection then -1 else 0
  else 0.

Definition globals_state (d : HIDReportDescriptor) := (d_globalsStack d, d_globalsNesting d, d_globals d).
Definition collection_state (d : HIDReportDescriptor) :=
  (d_collectionStack d, d_collectionNesting d, d_parent d).

Lemma parse_body_globals d pd d' pd' :
  parse_body d pd = Ret (kHIDSuccess, d', pd') →
  stack_step (globals_delta (d_item d)) (globals_state d) (globals_state d').
Proof.
  unfold parse_body, globals_delta, globals_state. cbv zeta. intros H.
  destruct (Z.eqb_spec (it_itemType (d_item d)) kHIDTypeMain) as [->|_].
  { change (kHIDTypeMain =? kHIDTypeGlobal) with false. cbn [negb].
    unfold HIDProcessMainItem, HIDProcessCollection, HIDProcessEndCollection, HIDProcessReportItem in H.
    cbv zeta in H. unbind H; inversion H; subst; clear H; struct_simpl; constructor. }
  destruct (it_itemType (d_item d) =? kHIDTypeGlobal).
  - unfold HIDProcessGlobalItem in H. cbv zeta in H.
    repeat match type of H with
    | (if ?t =? ?c then _ else _) = _ =>
        destruct (Z.eqb_spec t c) as [E|_];
        [rewrite ?E in *; unbind H; injection H as <- <-; struct_simpl;
         try (constructor; first [done | struct_simpl in *; done])|]
    end.
    injection H as <- <-. constructor.
  - destruct (_ =? kHIDTypeLocal); [|injection H as <- <-; constructor].
    unfold HIDProcessLocalItem, usage_minimum, usage_maximum in H. cbv zeta in H.
    unbind H; inversion H; subst; clear H; struct_simpl; constructor.
Qed.

Lemma parse_body_collection d pd d' pd' :
  parse_body d pd = Ret (kHIDSuccess, d', pd') →
  stack_step (collection_delta (d_item d)) (collection_state d) (collection_state d').
Proof.
  unfold parse_body, collection_delta, collection_state. cbv zeta. intros H.
  destruct (it_itemType (d_item d) =? kHIDTypeMain).
  - unfold HIDProcessMainItem in H. cbv zeta in H.
    destruct (_ =? kHIDTagCollection).
    { unfold HIDProcessCollection in H. cbv zeta in H. unbind H. inversion H; subst; clear H.
      struct_simpl. by constructor. }
    destruct (_ =? kHIDTagEndCollection).
    { unfold HIDProcessEndCollection in H. cbv zeta in H. unbind H. inversion H; subst; clear H.
      struct_simpl. by constructor. }
    unfold HIDProcessReportItem in H. cbv zeta in H.
    unbind H; inversion H; subst; clear H; struct_simpl; constructor.
  - unfold HIDProcessGlobalItem, HIDProcessLocalItem, usage_minimum, usage_maximum in H. cbv zeta in H.
    unbind H; inversion H; subst; clear H; struct_simpl; constructor.
Qed.

(** A completed run of items is a sequence of steps on each stack. *)
Lemma run_items_stacks its : ∀ d pd d' pd',
  run_items parse_body its d pd = Ret (None, d', pd') →
  stack_steps (map (fun p => globals_delta p.1) its) (globals_state d) (globals_state d') ∧
  stack_steps (map (fun p => collection_delta p.1) its) (collection_state d) (collection_state d').
Proof.
  induction its as [|[it next] its IH]; intros d pd d' pd' H; cbn [run_items map] in *.
  { injection H as <- <-. split; constructor. }
  apply obind_Ret_inv in H as ([[st d1] pd1] & Hb & H).
  destruct (Z.eqb_spec st kHIDSuccess) as [->|]; [|done]. destruct (IH _ _ _ _ H) as [Hg Hc].
  pose proof (parse_body_globals _ _ _ _ Hb) as Hg1. pose proof (parse_body_collection _ _ _ _ Hb) as Hc1.
  unfold globals_state, collection_state in *. struct_simpl in Hg1. struct_simpl in Hc1.
  split; econstructor; done.
Qed.

(** C37. Global items between a Push and its Pop have no effect after the Pop:
    when a Push, a stretch of items balanced in Push and Pop and a Pop are
    processed without error, the global state, the depth of the stack and
    all saved states below are as before the Push. *)
Theorem push_pop_restores push its pop i j d pd d' pd' :
  globals_delta push = 1 → globals_delta pop = -1 → balanced (map (fun p => globals_delta p.1) its) →
  0 ≤ d_globalsNesting d →
  run_items parse_body ((push, i) :: its ++ [(pop, j)]) d pd = Ret (None, d', pd') →
  d_globals d' = d_globals d ∧ d_globalsNesting d' = d_globalsNesting d ∧
  ∀ k g, k < d_globalsNesting d → at_ (d_globalsStack d) k g → at_ (d_globalsStack d') k g.
Proof.
  intros Ho Hc Hb Hn H. apply run_items_stacks in H as [H _]. cbn [map] in H.
  rewrite map_app in H. cbn [map fst] in H. rewrite Ho, Hc in H.
  destruct (stack_bracket _ _ _ _ _ _ _ Hn Hb H) as (? & ? & ?). done.
Qed.

(** The items of a collection leave the enclosing collection current:
    when a Collection item, a stretch balanced in Collection and End
    Collection and an End Collection are processed without error, the
    current collection, the nesting depth and the saved collections below
    are as before. *)
Theorem collection_restores_parent open its close i j d pd d' pd' :
  collection_delta open = 1 → collection_delta close = -1 →
  balanced (map (fun p => collection_delta p.1) its) → 0 ≤ d_collectionNesting d →
  run_items parse_body ((open, i) :: its ++ [(close, j)]) d pd = Ret (None, d', pd') →
  d_parent d' = d_parent d ∧ d_collectionNesting d' = d_collectionNesting d ∧
  ∀ k c, k < d_collectionNesting d → at_ (d_collectionStack d) k c → at_ (d_collectionStack d') k c.
Proof.
  intros Ho Hc Hb Hn H. apply run_items_stacks in H as [_ H]. cbn [map] in H.
  rewrite map_app in H. cbn [map fst] in H. rewrite Ho, Hc in H.
  destruct (stack_bracket _ _ _ _ _ _ _ Hn Hb H) as (? & ? & ?). done.
Qed.

(** The theorems on short item streams. *)
Definition item (ty tag v : Z) : HIDItem := mkHIDItem 1 ty tag v v.
Definition one_slot : HIDReportDescriptor :=
  any_stack <| d_globalsStack := [zeroGlobals] |> <| d_globalsNesting := 0 |>
            <| d_collectionStack := [0; 0] |> <| d_collectionNesting := 0 |> <| d_parent := 0 |>.
Definition two_collections : HIDPreparsedData :=
  mkHIDPreparsedData 0 [zeroCollection; zeroCollection; zeroCollection] 1 [] 0 [] 0 [] 0 [] 0 [] 0 None 0 0.

Definition after (its : list (HIDItem * Z)) : HIDReportDescriptor * HIDPreparsedData :=
  match run_items parse_body its one_slot two_collections with
  | Ret (_, d, pd) => (d, pd) | Fault _ => (one_slot, two_collections) end.

Definition push_run : list (HIDItem * Z) :=
  (item kHIDTypeGlobal kHIDTagPush 0, 1) :: [(item kHIDTypeGlobal kHIDTagReportSize 9, 2)]
    ++ [(item kHIDTypeGlobal kHIDTagPop 0, 3)].
Definition collection_run : list (HIDItem * Z) :=
  (item kHIDTypeMain kHIDTagCollection 1, 1) ::
  [(item kHIDTypeMain kHIDTagCollection 2, 2); (item kHIDTypeMain kHIDTagEndCollection 0, 3)]
    ++ [(item kHIDTypeMain kHIDTagEndCollection 0, 4)].

Lemma push_pop_restores_witness :
  d_globals (after push_run).1 = d_globals one_slot ∧ d_globalsNesting (after push_run).1 = 0 ∧
  ∀ k g, k < 0 → at_ [zeroGlobals] k g → at_ (d_globalsStack (after push_run).1) k g.
Proof.
  apply (push_pop_restores (item kHIDTypeGlobal kHIDTagPush 0) [(item kHIDTypeGlobal kHIDTagReportSize 9, 2)]
    (item kHIDTypeGlobal kHIDTagPop 0) 1 3 one_slot two_collections (after push_run).1 (after push_run).2);
    by vm_compute.
Defined.

Lemma collection_restores_parent_witness :
  d_parent (after collection_run).1 = 0 ∧ d_collectionNesting (after collection_run).1 = 0 ∧
  ∀ k c, k < 0 → at_ [0; 0] k c → at_ (d_collectionStack (after collection_run).1) k c.
Proof.
  apply (collection_restores_parent (item kHIDTypeMain kHIDTagCollection 1)
    [(item kHIDTypeMain kHIDTagCollection 2, 2); (item kHIDTypeMain kHIDTagEndCollection 0, 3)]
    (item kHIDTypeMain kHIDTagEndCollection 0) 1 4 one_slot two_collections
    (after collection_run).1 (after collection_run).2); by vm_compute.
Defined.
