(* ===== verification/HIDLayout.v ===== *)
(** * Where the fields lie

    The second pass gives every report item a start bit in its report.  As
    long as the items are of a realistic size the fields of one report
    neither overlap nor leave it, and a report with an ID keeps its first
    byte free. *)
From S2P Require Import Prelude HIDTypes HIDNextItem HIDCount HIDParse HIDParseInv.

Definition item_bits (ri : HIDReportItem) : Z :=
  g_reportSize (ri_globals ri) * g_reportCount (ri_globals ri).

(** An item of fewer than 2^16 bits, and a descriptor of fewer than 2^14
    items: the 32-bit sums of the code cannot wrap. *)
Definition small_item (ri : HIDReportItem) : Prop :=
  0 ≤ g_reportCount (ri_globals ri) ∧ item_bits ri < 65536.
Definition small (pd : HIDPreparsedData) : Prop :=
  pd_reportItemCount pd < 16384 ∧
  table small_item (pd_reportItems pd) (pd_reportItemCount pd).

Definition bits_of (reportType : Z) (r : HIDReportSizes) : Z :=
  if reportType =? kHIDFeatureReport then rs_featureBitCount r
  else if reportType =? kHIDOutputReport then rs_outputBitCount r
  else rs_inputBitCount r.

(** The report of an item. *)
Definition same_report (a b : HIDReportItem) : Prop :=
  g_reportIndex (ri_globals a) = g_reportIndex (ri_globals b) ∧ ri_reportType a = ri_reportType b.

Record layout (pd : HIDPreparsedData) : Prop := {
  (* the fields of an item lie inside its report, past the ID byte *)
  ly_inside : ∀ i ri, i < pd_reportItemCount pd → at_ (pd_reportItems pd) i ri →
    0 ≤ ri_startBit ri ∧ (1 ≤ g_reportIndex (ri_globals ri) → 8 ≤ ri_startBit ri) ∧
    ∀ r, at_ (pd_reports pd) (g_reportIndex (ri_globals ri)) r →
      ri_startBit ri + item_bits ri ≤ bits_of (ri_reportType ri) r;
  (* a later item of the same report starts after an earlier one ends *)
  ly_order : ∀ i j a b, i < j → j < pd_reportItemCount pd →
    at_ (pd_reportItems pd) i a → at_ (pd_reportItems pd) j b → same_report a b →
    ri_startBit a + item_bits a ≤ ri_startBit b;
  (* report sizes are bounded by the items seen; reports with an ID hold it *)
  ly_sizes : ∀ k r ty, k < pd_reportCount pd → at_ (pd_reports pd) k r →
    (if 1 <=? k then 8 else 0) ≤ bits_of ty r ≤ 8 + 65536 * pd_reportItemCount pd }.

Definition laid_out (pd : HIDPreparsedData) : Prop := small pd → layout pd.

(** ** What one item changes *)
Definition same_fields (pd pd' : HIDPreparsedData) : Prop :=
  pd_reportItems pd' = pd_reportItems pd ∧ pd_reportItemCount pd' = pd_reportItemCount pd ∧
  pd_reports pd' = pd_reports pd ∧ pd_reportCount pd' = pd_reportCount pd.

Definition new_report (pd pd' : HIDPreparsedData) : Prop :=
  pd_reportItems pd' = pd_reportItems pd ∧ pd_reportItemCount pd' = pd_reportItemCount pd ∧
  pd_reportCount pd' = pd_reportCount pd + 1 ∧
  ∃ id, pd_reports pd' = <[Z.to_nat (pd_reportCount pd) := mkHIDReportSizes id 8 8 8]> (pd_reports pd).

Definition new_item (tag : Z) (pd pd' : HIDPreparsedData) : Prop :=
  pd_reportItemCount pd' = pd_reportItemCount pd + 1 ∧ pd_reportCount pd' = pd_reportCount pd ∧
  ∃ ri r r' start ty, let k := g_reportIndex (ri_globals ri) in
    at_ (pd_reports pd) k r ∧
    place_item tag (s32 (item_bits ri)) r = (ty, start, r') ∧
    ri_reportType ri = ty ∧ ri_startBit ri = start ∧
    pd_reports pd' = <[Z.to_nat k := r']> (pd_reports pd) ∧
    pd_reportItems pd' = <[Z.to_nat (pd_reportItemCount pd) := ri]> (pd_reportItems pd).

Lemma report_item_effect d pd d' pd' :
  HIDProcessReportItem d pd = Ret (kHIDSuccess, d', pd') → new_item (it_tag (d_item d)) pd pd'.
Proof.
  unfold HIDProcessReportItem. cbv zeta. struct_simpl.
  intros (ri & Hri & H)%obind_Ret_inv.
  destruct (check_logical _) as [[e1 g1] flags]. destruct (check_physical _ _) as [e2 g2].
  destruct (_ && _) eqn:Es.
  { apply obind_Ret_inv in H as (x & _ & [= -> _ _]). by apply andb_prop in Es as [? _]. }
  apply obind_Ret_inv in H as (r & Hr & H). struct_simpl in Hr.
  destruct (place_item _ _ _) as [[ty start] r'] eqn:Ep.
  apply obind_Ret_inv in H as (reports & Hreports & H). apply obind_Ret_inv in H as (items & Hitems & H).
  injection H as <- <-. apply aset_Ret in Hreports as [_ ->], Hitems as [_ ->].
  split; [by struct_simpl|]. split; [by struct_simpl|]. struct_simpl.
  eexists _, r, r', start, ty. cbv zeta. split; [|split; [|split; [|split; [|split]]]];
    [|..|reflexivity]; struct_simpl; unfold item_bits; struct_simpl; try reflexivity; [by apply aget_at|exact Ep].
Qed.

Lemma report_id_effect d pd d' pd' :
  HIDProcessGlobalItem d pd = Ret (kHIDSuccess, d', pd') → same_fields pd pd' ∨ new_report pd pd'.
Proof.
  unfold HIDProcessGlobalItem. cbv zeta. intros H. unbind H; injection H as <- <-; try (by left).
  match goal with E : (if _ =? _ then _ else _) = Ret _ |- _ => unbind E; injection E as <- end; [|by left].
  right. match goal with E : aset _ _ _ = _ |- _ => apply aset_Ret in E as [_ ->] end.
  split; [by struct_simpl|]. split; [by struct_simpl|]. split; [by struct_simpl|].
  eexists. by struct_simpl.
Qed.

Lemma add_desig_effect f pd pd' : add_desig f pd = Ret pd' → same_fields pd pd'.
Proof. unfold add_desig. cbv zeta. intros H. unbind H. injection H as <-. by struct_simpl. Qed.
Lemma add_string_effect f pd pd' : add_string f pd = Ret pd' → same_fields pd pd'.
Proof. unfold add_string. cbv zeta. intros H. unbind H. injection H as <-. by struct_simpl. Qed.

Lemma parse_body_effect d pd d' pd' :
  parse_body d pd = Ret (kHIDSuccess, d', pd') →
  same_fields pd pd' ∨ new_report pd pd' ∨
  (it_itemType (d_item d) = kHIDTypeMain ∧
   (it_tag (d_item d) = kHIDTagInput ∨ it_tag (d_item d) = kHIDTagOutput ∨
    it_tag (d_item d) = kHIDTagFeature) ∧ new_item (it_tag (d_item d)) pd pd').
Proof.
  unfold parse_body. cbv zeta. intros H.
  destruct (Z.eqb_spec (it_itemType (d_item d)) kHIDTypeMain) as [Ety|_].
  - unfold HIDProcessMainItem in H. cbv zeta in H.
    destruct (_ =? kHIDTagCollection).
    { left. unfold HIDProcessCollection in H. cbv zeta in H. unbind H. injection H as <- <-. by struct_simpl. }
    destruct (_ =? kHIDTagEndCollection).
    { left. unfold HIDProcessEndCollection in H. cbv zeta in H. unbind H. injection H as <- <-. by struct_simpl. }
    destruct (_ || _) eqn:Et; [|left; by injection H as <- <-].
    right; right. split; [done|]. split; [tests_to_Z; tauto|]. by eapply report_item_effect.
  - destruct (_ =? kHIDTypeGlobal); [by apply report_id_effect in H as [|]; auto|].
    left. destruct (_ =? kHIDTypeLocal); [|by injection H as <- <-].
    unfold HIDProcessLocalItem, usage_minimum, usage_maximum in H.
    cbv zeta in H. unbind H;
      try (injection H as Hbad _ _; vm_compute in Hbad; discriminate Hbad);
      injection H as <- <-; eauto using add_desig_effect, add_string_effect;
      unfold same_fields; struct_simpl; done.
Qed.

(** ** Every step keeps the layout *)
Lemma laid_out_same pd pd' : same_fields pd pd' → laid_out pd → laid_out pd'.
Proof.
  intros (Hi & Hn & Hr & Hc) Hl Hs. unfold small in Hs. rewrite Hi, Hn in Hs. destruct (Hl Hs).
  split; rewrite ?Hi, ?Hn, ?Hr, ?Hc; done.
Qed.

Lemma laid_out_report pd pd' :
  tables pd → 0 ≤ pd_reportItemCount pd → 1 ≤ pd_reportCount pd → new_report pd pd' →
  laid_out pd → laid_out pd'.
Proof.
  intros Ht Hn0 Hc1 (Hi & Hn & Hc & id & Hr) Hl Hs. unfold small in Hs. rewrite Hi, Hn in Hs.
  destruct (Hl Hs) as [Hin Ho Hz]. split; rewrite ?Hi, ?Hn, ?Hr, ?Hc; [| done |].
  - intros i ri Hlt Ha. destruct (Hin i ri Hlt Ha) as (H0 & H8 & Hb). split; [done|]. split; [done|].
    intros r [[E _]|[_ Hr']]%at_insert; [|by apply Hb|lia].
    pose proof (go_index _ _ (ro_globals _ _ (tb_items _ Ht i ri Hlt Ha))). lia.
  - intros k r ty Hk [[-> ->]|[? Hr']]%at_insert; [|apply Hz; [lia|done]|lia].
    rewrite (proj2 (Z.leb_le 1 _)) by lia. unfold bits_of. cbn. repeat case_match; lia.
Qed.

(** The three kinds of report, one case. *)
Lemma place_item_bits tag iBits r ty start r' :
  tag = kHIDTagInput ∨ tag = kHIDTagOutput ∨ tag = kHIDTagFeature →
  place_item tag iBits r = (ty, start, r') →
  start = bits_of ty r ∧ bits_of ty r' = s32 (start + iBits) ∧
  (∀ ty', bits_of ty' r' = bits_of ty' r ∨ bits_of ty' r' = bits_of ty r' ∧ bits_of ty' r = bits_of ty r) ∧
  (∀ ty', 1 ≤ ty' ≤ 3 → ty' ≠ ty → bits_of ty' r' = bits_of ty' r).
Proof.
  intros [-> | [-> | ->]]; cbn; intros [= <- <- <-]; unfold bits_of,
    kHIDInputReport, kHIDOutputReport, kHIDFeatureReport; cbn [Z.eqb Pos.eqb]; struct_simpl;
    (split; [done|]); (split; [done|]); split; intros ty'.
  all: try (destruct (ty' =? 3), (ty' =? 2); struct_simpl; tauto).
  all: intros ? Hne; destruct (Z.eqb_spec ty' 3), (Z.eqb_spec ty' 2); struct_simpl; done || lia.
Qed.

Section NewItem.
Context (tag : Z) (pd pd' : HIDPreparsedData).
Hypothesis Htab : tables pd.
Hypothesis Htab' : tables pd'.
Hypothesis Hn0 : 0 ≤ pd_reportItemCount pd < zlen (pd_reportItems pd).
Hypothesis Htag : tag = kHIDTagInput ∨ tag = kHIDTagOutput ∨ tag = kHIDTagFeature.
Hypothesis Hnew : new_item tag pd pd'.
Hypothesis Hlaid : laid_out pd.

(** The fields of [pd'] in terms of those of [pd]. *)
Lemma laid_out_item : laid_out pd'.
Proof using All.
  destruct Hnew as (Hn & Hc & ri & r & r' & start & ty & Hr & Hp & Hty & Hst & Hreps & Hitems).
  intros [Hfew Hsmall]. rewrite Hn in Hfew, Hsmall.
  assert (at_ (pd_reportItems pd') (pd_reportItemCount pd) ri) as Hri.
  { rewrite Hitems. by apply at_insert_eq. }
  assert (∀ i a, i < pd_reportItemCount pd → at_ (pd_reportItems pd) i a → at_ (pd_reportItems pd') i a)
    as Hold by (intros i a Hlt Ha; rewrite Hitems; apply at_insert_ne; [lia|lia|done]).
  assert (small pd) as Hs.
  { split; [lia|]. intros i a Hlt Ha. apply (Hsmall i); [lia|by apply Hold]. }
  destruct (Hlaid Hs) as [Hin Ho Hz].
  destruct (place_item_bits _ _ _ _ _ _ Htag Hp) as (Hstart & Hbits & Hall & Hother).
  pose proof (tb_items _ Htab' (pd_reportItemCount pd) ri ltac:(rewrite Hn; lia) Hri) as Hok.
  pose proof (go_index _ _ (ro_globals _ _ Hok)) as Hk. rewrite Hc in Hk.
  pose proof (ro_type _ _ Hok) as Hty3. rewrite Hty in Hty3.
  destruct (Hsmall (pd_reportItemCount pd) ri ltac:(lia) Hri) as [Hcnt Hbit].
  pose proof (go_size _ _ (ro_globals _ _ Hok)) as Hsz.
  assert (0 ≤ item_bits ri) by (unfold item_bits; nia).
  pose proof (Hz _ r ty (proj2 Hk) Hr) as Hzr. rewrite <- Hstart in Hzr.
  assert (bits_of ty r' = start + item_bits ri) as Hgrow.
  { rewrite Hbits, (s32_id (item_bits ri)), s32_id; [done|..]; destruct (1 <=? _); lia. }
  assert (∀ ty', bits_of ty' r ≤ bits_of ty' r') as Hmono.
  { intros ty'. destruct (Hall ty') as [|[-> ->]]; lia. }
  split; rewrite ?Hn, ?Hc, ?Hreps, ?Hitems.
  - intros i a Hlt [[-> ->]|[Hne Ha]]%at_insert; [| |lia].
    + rewrite Hst, Hty. split; [destruct (1 <=? _); lia|]. split.
      * intros H1. rewrite (proj2 (Z.leb_le 1 _)) in Hzr by done. lia.
      * intros rr [[_ ->]|[? _]]%at_insert; [lia|done|lia].
    + destruct (Hin i a ltac:(lia) Ha) as (H0 & H8 & Hb). split; [done|]. split; [done|].
      intros rr [[Ek ->]|[_ Hrr]]%at_insert; [|by apply Hb|lia].
      rewrite Ek in Hb. specialize (Hb r Hr). specialize (Hmono (ri_reportType a)). lia.
  - intros i j a b Hij Hj [[-> ->]|[Hnei Ha]]%at_insert Hb Hsame; [lia| |lia].
    apply at_insert in Hb as [[-> ->]|[Hnej Hb]]; [| |lia].
    + destruct Hsame as [Ek Et]. destruct (Hin i a ltac:(lia) Ha) as (_ & _ & Hba).
      rewrite Ek, Et, Hty in Hba. specialize (Hba r Hr). lia.
    + by apply (Ho i j); [|lia|..].
  - intros k rr ty' Hlt [[-> ->]|[? Hrr]]%at_insert; [| |lia].
    + pose proof (Hz _ r ty' (proj2 Hk) Hr). specialize (Hmono ty').
      destruct (Hall ty') as [E|[E _]]; rewrite E in *; destruct (1 <=? _); lia.
    + pose proof (Hz k rr ty' Hlt Hrr). destruct (1 <=? k); lia.
Qed.
End NewItem.

Lemma parse_body_laid_out c c' cF d pd d' pd' :
  counts_ok c → counts_le c' cF → pinv c cF d pd → pinv c' cF d' pd' →
  parse_body d pd = Ret (kHIDSuccess, d', pd') → laid_out pd → laid_out pd'.
Proof.
  intros [] [] [[] [] _ Ht] [_ [] _ Ht'] H Hl.
  destruct (parse_body_effect _ _ _ _ H) as [Hs|[Hr|(Hty & Htag & Hn)]].
  - by eapply (laid_out_same pd).
  - apply (laid_out_report pd); [done|lia|lia|done|done].
  - eapply (laid_out_item _ pd); try done. pose proof Hn as (Hn1 & _). lia.
Qed.

Lemma parse_run_laid_out cF its : ∀ c c' d pd d' pd',
  counts_ok c → Forall (fun p => item_ok p.1) its → pinv c cF d pd → laid_out pd →
  count_run its c = (kHIDSuccess, c') → counts_le c' cF →
  run_items parse_body its d pd = Ret (None, d', pd') → laid_out pd'.
Proof.
  induction its as [|[it next] its IH]; intros c c' d pd d' pd' Hc HF Hinv Hlaid Hrun Hle Hr;
    cbn [run_items count_run] in *.
  { by injection Hr as <- <-. }
  apply Forall_cons in HF as [Hit HF].
  destruct (count_item it c) as [st c1] eqn:Ec.
  destruct (Z.eqb_spec st kHIDSuccess) as [->|]; [|congruence].
  destruct (count_item_spec _ _ _ Hc Ec) as (Hc1 & Hle1 & _).
  destruct (count_run_spec _ _ _ Hc1 Hrun) as (_ & Hle2 & _).
  pose proof (parse_body_inv cF c c1 (d <| d_index := next |> <| d_item := it |>) pd Hc) as Hb.
  specialize (Hb ltac:(by struct_simpl) ltac:(by apply pinv_lexer) ltac:(by struct_simpl) ltac:(by etrans)).
  apply safe_elim in Hb as ([[st d1] pd1] & Eb & Hm & Hp). rewrite Eb in Hr. cbn [obind] in Hr.
  destruct (Z.eqb_spec st kHIDSuccess) as [->|]; [|done].
  specialize (Hp eq_refl).
  apply (IH c1 c' d1 pd1 d' pd'); try done.
  eapply (parse_body_laid_out c c1 cF); [done|by etrans|by apply pinv_lexer|exact Hp|exact Eb|done].
Qed.

Lemma table_Forall {A} (P : A → Prop) l n : Forall P l → table P l n.
Proof. intros HF i a _ [_ Ha]. by apply (Forall_lookup_1 _ _ _ _ HF Ha). Qed.
