(* ===== verification/HIDOpenSafe.v ===== *)
(** * Opening a descriptor is memory safe and leaks nothing

    The second pass establishes the well-formedness of the preparsed data on
    every accepted descriptor, and [HIDOpenReportDescriptor] followed by
    [HIDCloseReportDescriptor] gives every block back.  The kernel may run
    out of memory at either allocation: the code then clears the null
    pointer, and every theorem names that run. *)
From S2P Require Import Prelude HIDTypes HIDNextItem PoolAlloc HIDCount HIDParse HIDOpenClose HIDParseInv HIDLayout.

(** What every function of the library may rely on in an open descriptor. *)
Record preparsed_ok (pd : HIDPreparsedData) : Prop := {
  pk_collections : 1 ≤ pd_collectionCount pd ≤ zlen (pd_collections pd);
  pk_items : 0 ≤ pd_reportItemCount pd ≤ zlen (pd_reportItems pd);
  pk_reports : 1 ≤ pd_reportCount pd ≤ zlen (pd_reports pd);
  pk_usages : 0 ≤ pd_usageItemCount pd ≤ zlen (pd_usageItems pd);
  pk_strings : 0 ≤ pd_stringItemCount pd ≤ zlen (pd_stringItems pd);
  pk_desigs : 0 ≤ pd_desigItemCount pd ≤ zlen (pd_desigItems pd);
  pk_tables : tables pd;
  pk_layout : laid_out pd;
  pk_root : ∀ root, at_ (pd_collections pd) 0 root →
    c_firstReportItem root = 0 ∧ c_reportItemCount root = pd_reportItemCount pd }.

Lemma pinv_preparsed_ok c cF d pd :
  counts_ok c → counts_le c cF → pinv c cF d pd → laid_out pd →
  (∀ root, at_ (pd_collections pd) 0 root → c_reportItemCount root = pd_reportItemCount pd) →
  preparsed_ok pd.
Proof.
  intros [] [] [[] [] [] Ht] Hlaid Hroot.
  pose proof (half_room _ _ _ _ _ (n_iUsages cF) (n_iUsageRanges cF) ct_usages).
  pose proof (half_room _ _ _ _ _ (n_iStrings cF) (n_iStringRanges cF) ct_strings).
  pose proof (half_room _ _ _ _ _ (n_iDesigs cF) (n_iDesigRanges cF) ct_desigs).
  unfold usageCells, stringCells, desigCells, half in *.
  split; try done; try lia. intros root Hr. split; [by apply (tb_root _ Ht)|by apply Hroot].
Qed.

(** The tables are never empty. *)
Lemma pinv_collections c cF d pd :
  counts_ok c → counts_le c cF → pinv c cF d pd → 1 ≤ pd_collectionCount pd ≤ zlen (pd_collections pd).
Proof. intros [] [] [[] [] [] Ht]. lia. Qed.

Lemma zlen_cells {A} n (z : A) : 0 ≤ n → zlen (cells n z) = n.
Proof. intros. unfold cells. rewrite zlen_replicate. lia. Qed.

Lemma at_cells {A} n (z : A) i a : at_ (cells n z) i a → a = z.
Proof. intros [_ H]. by apply lookup_replicate in H as [-> _]. Qed.

Lemma parse_init_inv c d pd :
  counts_ok c →
  let '(d0, pd0) := carve c d pd in
  safe (parse_init d0 pd0) (fun '(d', pd') =>
    pinv counts0 c d' pd' ∧ laid_out pd' ∧ same_meta pd pd' ∧ d_index d' = 0 ∧
    d_descriptor d' = d_descriptor d ∧ d_descriptorLength d' = d_descriptorLength d).
Proof.
  intros []. unfold carve, parse_init.
  assert (0 ≤ usageCells c ∧ 0 ≤ stringCells c ∧ 0 ≤ desigCells c) as (? & ? & ?).
  { unfold usageCells, stringCells, desigCells. Z.to_euclidean_division_equations; lia. }
  struct_simpl.
  assert (zlen (cells (n_collectionCount c) zeroCollection) = n_collectionCount c)
    by (apply zlen_cells; lia).
  assert (zlen (cells (n_reportCount c) zeroReportSizes) = n_reportCount c)
    by (apply zlen_cells; lia).
  access c0 Hc0. access x Hx. access r0 Hr0. access y Hy.
  split; [|split; [|by struct_simpl]].
  2: { intros _. split; struct_simpl.
       - intros i a ? [? _]. lia.
       - intros i j a b ? ? [? _]. lia.
       - intros k r ty Hk Ha. assert (k = 0) as -> by (apply at_range in Ha; lia).
         apply at_insert in Ha as [[_ ->]|[? _]]; [|done|done]. cbn. unfold bits_of. cbn.
         repeat case_match; lia. }
  split.
  - split; struct_simpl; rewrite ?zlen_insert, ?zlen_cells; lia.
  - split; struct_simpl; try done; unfold half; cbn; lia.
  - split; struct_simpl; cbn; try lia; auto.
    + intros i a ? [? _]. lia.
    + split; cbn; lia.
    + intros i a ? [? _]. lia.
  - split; struct_simpl.
    + intros i col Hi. intros [[_ ->]|[_ Ha%at_cells]]%at_insert; done.
    + intros col [[_ ->]|[? _]]%at_insert; done.
    + intros i col Hi Ha. assert (i = 0) as -> by (apply at_range in Ha; lia).
      apply at_insert in Ha as [[_ ->]|[? _]]; [|done|done].
      split; struct_simpl; cbn; unfold window; lia.
    + intros i a ? [? _]. lia.
    + intros i a ? [? _]. lia.
    + intros i r Hi Ha. assert (i = 0) as -> by (apply at_range in Ha; lia).
      apply at_insert in Ha as [[_ ->]|[? _]]; [|done|done]. by cbn.
Qed.

(** The virtual collection spans every report item. *)
Lemma pinv_close_root c cF d pd col :
  counts_ok c → pinv c cF d pd → at_ (pd_collections pd) 0 col →
  pinv c cF d (pd <| pd_collections :=
    <[Z.to_nat 0 := col <| c_reportItemCount := pd_reportItemCount pd |>]>
      (pd_collections pd) |>).
Proof.
  intros [] [[] [] [] Ht] Hcol.
  split; [split; struct_simpl; rewrite ?zlen_insert; done|split; struct_simpl; done
    |split; struct_simpl; done|].
  pose proof (tb_root _ Ht col Hcol).
  apply collection_update_tables; [done|lia| |by struct_simpl].
  destruct (tb_collections _ Ht 0 col ltac:(lia) Hcol). split; struct_simpl; done || lia.
Qed.

(** The second pass on an accepted stream: no fault, and on success the
    tables are well-formed. *)
Lemma HIDParseDescriptor_safe d pd c i it :
  buffer_ok (d_descriptor d) (d_descriptorLength d) → stream_end d = LexEnd →
  count_run (stream d) counts0 = (kHIDSuccess, c) →
  let '(d0, pd0) := carve c (d <| d_index := i |> <| d_item := it |>) pd in
  safe (HIDParseDescriptor d0 pd0) (fun '(st, d', pd') =>
    same_meta pd pd' ∧ (st = kHIDSuccess → preparsed_ok pd')).
Proof.
  intros Hbuf Hend Hc. pose proof (stream_ok d Hbuf) as [Hits _].
  destruct (count_run_spec _ _ _ counts0_ok Hc) as (Hok & Hle & _).
  pose proof (parse_init_inv c (d <| d_index := i |> <| d_item := it |>) pd Hok) as Hinit.
  destruct (carve _ _ _) as [d0 pd0]. unfold HIDParseDescriptor.
  apply wp_bind. eapply wp_mono; [exact Hinit| |done]. clear Hinit.
  intros [d1 pd1] (Hinv & Hlaid & Hm & Hix & Hd & Hl). struct_simpl in *. rewrite Hl.
  pose proof (item_loop_run parse_body parse_body_frame (S (Z.to_nat (d_descriptorLength d)))
    d1 pd1 (stream d) (stream_end d)) as Hloop.
  rewrite Hd, Hl, Hix in Hloop. destruct Hbuf as (HF & Hlen & H31).
  specialize (Hloop ltac:(done) ltac:(lia) ltac:(lia)
    ltac:(unfold stream, stream_end, descriptor_items; by destruct (lex_all _ _ _ _))).
  pose proof (parse_run c (stream d) counts0 c d1 pd1 counts0_ok) as Hrun.
  assert (Forall (fun p => item_ok p.1) (stream d)) as Hits'
    by (eapply Forall_impl; [exact Hits|]; by intros ? [? _]).
  specialize (Hrun Hits' Hinv Hc (reflexivity c)).
  apply safe_elim in Hrun as ([[[st|] d2] pd2] & Erun & Hm2 & Hinv2); rewrite Erun in Hloop.
  - rewrite Hloop. cbn [obind wp]. split; [|done].
    destruct Hm as (?&?&?&?), Hm2 as (?&?&?&?). repeat split; congruence.
  - rewrite Hend in Hloop. destruct Hloop as (i' & it' & ->). cbn [obind].
    pose proof (parse_run_laid_out c (stream d) counts0 c d1 pd1 d2 pd2 counts0_ok Hits' Hinv Hlaid Hc
      (reflexivity c) Erun) as Hlaid2.
    pose proof (pinv_collections _ _ _ _ Hok (reflexivity c) Hinv2).
    access col Hcol. access x Hx. split.
    + destruct Hm as (?&?&?&?), Hm2 as (?&?&?&?). repeat split; struct_simpl; congruence.
    + intros _. eapply (pinv_preparsed_ok c c d2); [done|done|by apply pinv_close_root|..].
      * by apply (laid_out_same pd2); [by struct_simpl|].
      * intros root Hr. struct_simpl in Hr. struct_simpl.
        apply at_insert in Hr as [[_ ->]|[? _]]; [by struct_simpl|done|lia].
Qed.

(** ** Open and close *)

(** The heap with the two blocks of an open descriptor. *)
Definition opened {H} `{KernelAlloc H} (h h' : H) (p : Z) (pd : HIDPreparsedData) : Prop :=
  ∃ raw, pd_rawMemPtr pd = Some raw ∧ raw ≠ p ∧ live h !! p = None ∧ live h !! raw = None ∧
    live h' = <[raw := pd_numBytesAllocated pd]> (<[p := sizeof_HIDPreparsedData]> (live h)).

(** What opening may leave behind: a descriptor that is valid, well-formed
    and owns its two blocks, or an error and no block at all. *)
Definition open_result {H} `{KernelAlloc H} (h : H)
    (r : OSStatus * option (option PreparsedRef) * H) : Prop :=
  let '(st, ref, h') := r in
  match ref with
  | Some (Some (p, pd)) => st = kHIDSuccess ∧ preparsed_ok pd ∧
      pd_hidTypeIfValid pd = kHIDOSType ∧ opened h h' p pd
  | Some None => st ≠ kHIDSuccess ∧ live h' = live h
  | None => False
  end.

Lemma tables_hidType pd t : tables pd → tables (pd <| pd_hidTypeIfValid := t |>).
Proof.
  intros [Hfresh Hroot Hcol Hitem Huse Hrep]. set (pd' := setf _ _ _).
  assert (grows pd pd') as Hg by (unfold grows, pd'; struct_simpl; lia).
  split.
  1,2,5,6: subst pd'; struct_simpl; done.
  - eapply table_mono; [intros ?; by apply collection_ok_mono|]. by subst pd'; struct_simpl.
  - eapply table_mono; [intros ?; by apply report_item_ok_mono|]. by subst pd'; struct_simpl.
Qed.

Lemma preparsed_ok_hidType pd t : preparsed_ok pd → preparsed_ok (pd <| pd_hidTypeIfValid := t |>).
Proof.
  intros []. split; [struct_simpl; done..|by apply tables_hidType| |by struct_simpl].
  by apply (laid_out_same pd); [by struct_simpl|].
Qed.

(** The kernel refuses one of the two blocks opening asks for: the struct,
    or the pool behind it. *)
Definition out_of_memory {H} `{KernelAlloc H} (h : H) : Prop :=
  (∃ h', IOMalloc sizeof_HIDPreparsedData h = (None, h')) ∨
  (∃ p h1 n h2, IOMalloc sizeof_HIDPreparsedData h = (Some p, h1) ∧ 0 < n ∧
    IOMalloc n h1 = (None, h2)).

Section OpenSafe.
Context {H : Type} `{KernelAlloc H} `{!KernelAllocLaws H}.
Context (stack : HIDReportDescriptor) (bytes : list Z) (len flags : Z)
  (old : option PreparsedRef) (h : H).
Hypothesis Hbuf : buffer_ok bytes len.
Hypothesis Hlen : len < max_descriptor.

Let d := stack <| d_descriptor := bytes |> <| d_descriptorLength := len |>.

Lemma open_safe :
  (descriptor_items bytes len).2 = LexEnd →
  let run := HIDOpenReportDescriptor stack (Some bytes) len (Some old) flags h in
  safe run (open_result h) ∨ (run = Fault NullDeref ∧ out_of_memory h).
Proof using All.
  intros Hend. cbv zeta. unfold HIDOpenReportDescriptor.
  destruct (PoolAllocateResident_cases sizeof_HIDPreparsedData h ltac:(done))
    as [(p & h1 & Hp1 & -> & Hp & Hl1)|(h' & E & ->)]; [|by right; split; [|left; exists h']].
  cbn [obind]. fold d. set (pd0 := zeroPreparsedData <| _ := _ |> <| _ := _ |>).
  assert (buffer_ok (d_descriptor d) (d_descriptorLength d)) as Hbuf' by (unfold d; by struct_simpl).
  assert (stream_end d = LexEnd) as Hend' by (unfold d, stream_end; by struct_simpl).
  pose proof (HIDCountDescriptorItems_spec d pd0 h1 Hbuf' ltac:(unfold d; by struct_simpl) Hend')
    as Hcount.
  destruct (count_run (stream d) counts0) as [st c] eqn:Ec.
  destruct (_ && _) eqn:Eacc.
  - apply andb_prop in Eacc as [->%Z.eqb_eq _].
    destruct Hcount as (Hok & Hpos & [(i & it & raw & h2 & Hraw & Hl2 & Hcount)|(h2 & E & ->)]).
    2: { right. split; [done|]. right. by exists p, h1, (spaceRequired c), h2. }
    left. pose proof (HIDParseDescriptor_safe d
      (pd0 <| pd_rawMemPtr := Some raw |> <| pd_numBytesAllocated := spaceRequired c |>) c i it
      Hbuf' Hend' Ec) as Hparse.
    destruct (carve _ _ _) as [d1 pd1]. rewrite Hcount. cbn [obind]. rewrite Z.eqb_refl.
    apply safe_elim in Hparse as ([[st d2] pd2] & -> & (Hm1 & Hm2 & _) & Hpok).
    cbn [obind]. rewrite Hm1. struct_simpl in *.
    rewrite Hl1 in Hraw, Hl2. apply lookup_insert_None in Hraw as [Hraw Hne].
    destruct (Z.eqb_spec st kHIDSuccess) as [->|Hst].
    + split; [done|]. split; [by apply preparsed_ok_hidType, Hpok|]. split; [done|].
      exists raw. by struct_simpl; rewrite Hm2.
    + rewrite Hm2.
      destruct (PoolDeallocate_live raw (spaceRequired c) h2) as (h3 & -> & Hl3).
      { rewrite Hl2. apply lookup_insert_eq. }
      cbn [obind].
      destruct (PoolDeallocate_live p sizeof_HIDPreparsedData h3) as (h4 & -> & Hl4).
      { rewrite Hl3, Hl2, delete_insert_id, lookup_insert_eq; [done|].
        rewrite lookup_insert_ne; done. }
      split; [done|]. rewrite Hl4, Hl3, Hl2, delete_insert_id, delete_insert_id; [done..|].
      by rewrite lookup_insert_ne.
  - left. destruct Hcount as (i & it & ->). cbn [obind]. struct_simpl.
    replace (kHIDInvalidPreparsedDataErr =? kHIDSuccess) with false by done. cbn [obind].
    struct_simpl.
    destruct (PoolDeallocate_live p sizeof_HIDPreparsedData h1) as (h2 & -> & Hl2).
    { rewrite Hl1. apply lookup_insert_eq. }
    split; [done|]. by rewrite Hl2, Hl1, delete_insert_id.
Qed.
End OpenSafe.

(** Closing an open descriptor frees both blocks, and closing it again
    reads the struct in freed memory. *)
Lemma close_opened {H} `{KernelAlloc H} `{!KernelAllocLaws H} (h h' : H) p pd :
  pd_hidTypeIfValid pd = kHIDOSType → opened h h' p pd →
  ∃ h'', HIDCloseReportDescriptor (Some (p, pd)) h' = Ret (noErr, h'') ∧
    live h'' = live h ∧
    ∀ pd', HIDCloseReportDescriptor (Some (p, pd')) h'' = Fault Dangling.
Proof.
  intros Hv (raw & Hraw & Hne & Hp & Hr & Hl). unfold HIDCloseReportDescriptor.
  rewrite deref_struct_live by (by rewrite Hl, lookup_insert_ne, lookup_insert_eq).
  cbn [obind]. rewrite Hv, Z.eqb_refl. cbn [negb]. rewrite Hraw.
  destruct (PoolDeallocate_live raw (pd_numBytesAllocated pd) h') as (h1 & -> & Hl1).
  { rewrite Hl. apply lookup_insert_eq. }
  cbn [obind]. rewrite Hl, delete_insert_id in Hl1 by (rewrite lookup_insert_ne; done).
  rewrite deref_struct_live by (by rewrite Hl1, lookup_insert_eq). cbn [obind].
  rewrite deref_struct_live by (by rewrite Hl1, lookup_insert_eq). cbn [obind].
  destruct (PoolDeallocate_live p sizeof_HIDPreparsedData h1) as (h2 & -> & Hl2).
  { rewrite Hl1. apply lookup_insert_eq. }
  rewrite Hl1, delete_insert_id in Hl2 by done.
  exists h2. split; [done|]. split; [done|].
  intros pd'. by rewrite deref_struct_freed by (by rewrite Hl2).
Qed.

Lemma opened_result {H} `{KernelAlloc H} `{!KernelAllocLaws H} stack bytes len flags old (h : H) st p pd h' :
  buffer_ok bytes len → len < max_descriptor →
  (descriptor_items bytes len).2 = LexEnd →
  HIDOpenReportDescriptor stack (Some bytes) len (Some old) flags h = Ret (st, Some (Some (p, pd)), h') →
  st = kHIDSuccess ∧ preparsed_ok pd ∧ pd_hidTypeIfValid pd = kHIDOSType ∧ opened h h' p pd.
Proof.
  intros Hb Hl He Ho.
  destruct (open_safe stack bytes len flags old h Hb Hl He) as [Hs|[Hs _]]; [|congruence].
  rewrite Ho in Hs. exact Hs.
Qed.

(** ** Theorems *)
Section OpenTheorems.
Context {H : Type} `{KernelAlloc H} `{!KernelAllocLaws H}.
Context (stack : HIDReportDescriptor) (bytes : list Z) (len flags : Z)
  (old : option PreparsedRef) (h : H).
Hypothesis Hbuf : buffer_ok bytes len.
Hypothesis Hlen : len < max_descriptor.

(** C1. Opening any descriptor of bytes without long items and shorter than
    2^25 bytes, whatever the stack holds and whenever the kernel runs out of
    memory, performs no out-of-bounds access, no bad free and no pool
    overrun and terminates.  It returns either success with a valid
    descriptor whose tables are well-formed and which owns exactly its two
    memory blocks, or an error, a null reference and the heap as it was.
    The one run that faults is the one where the kernel refuses one of the
    two blocks: the code then clears memory at the null pointer. *)
Theorem open_memory_safe :
  (descriptor_items bytes len).2 = LexEnd →
  let run := HIDOpenReportDescriptor stack (Some bytes) len (Some old) flags h in
  safe run (open_result h) ∨ (run = Fault NullDeref ∧ out_of_memory h).
Proof using All. by apply open_safe. Qed.

(** C36. Every descriptor that opens can be closed: closing succeeds and
    gives back every block opening took.  The struct goes with them, so a
    second close through the same reference, whatever the freed memory then
    holds, reads a struct that is no longer there. *)
Theorem open_close_restores_heap st p pd h' :
  (descriptor_items bytes len).2 = LexEnd →
  HIDOpenReportDescriptor stack (Some bytes) len (Some old) flags h
    = Ret (st, Some (Some (p, pd)), h') →
  ∃ h'', HIDCloseReportDescriptor (Some (p, pd)) h' = Ret (noErr, h'') ∧
    live h'' = live h ∧
    ∀ pd', HIDCloseReportDescriptor (Some (p, pd')) h'' = Fault Dangling.
Proof using All.
  intros He Ho. destruct (opened_result _ _ _ _ _ _ _ _ _ _ Hbuf Hlen He Ho) as (_ & _ & Hv & Hop).
  by apply close_opened.
Qed.

(** C14. In an opened descriptor of realistic size (items below 2^16 bits,
    fewer than 2^14 of them) the fields of every item lie inside its
    report, past the ID byte of a report that has one, and no two items of
    one report overlap: a later one starts where all earlier ones have
    ended. *)
Theorem opened_fields_laid_out st p pd h' :
  (descriptor_items bytes len).2 = LexEnd →
  HIDOpenReportDescriptor stack (Some bytes) len (Some old) flags h
    = Ret (st, Some (Some (p, pd)), h') →
  small pd → layout pd.
Proof using All.
  intros He Ho Hs. destruct (opened_result _ _ _ _ _ _ _ _ _ _ Hbuf Hlen He Ho) as (_ & Hpk & _).
  by apply (pk_layout _ Hpk).
Qed.

(** C26. In an opened descriptor every reference stays inside its table:
    the usage, string and designator windows of the report items, the
    report-item windows of the collections, and every parent, child and
    sibling link; every item's logical and physical ranges are ordered and
    the logical maximum fits the report size. *)
Theorem opened_tables_closed st p pd h' :
  (descriptor_items bytes len).2 = LexEnd →
  HIDOpenReportDescriptor stack (Some bytes) len (Some old) flags h
    = Ret (st, Some (Some (p, pd)), h') →
  table (report_item_ok pd) (pd_reportItems pd) (pd_reportItemCount pd) ∧
  table (collection_ok pd) (pd_collections pd) (pd_collectionCount pd) ∧
  table usage_item_ok (pd_usageItems pd) (pd_usageItemCount pd) ∧
  pd_reportItemCount pd ≤ zlen (pd_reportItems pd) ∧
  pd_collectionCount pd ≤ zlen (pd_collections pd) ∧
  pd_usageItemCount pd ≤ zlen (pd_usageItems pd).
Proof using All.
  intros He Ho. destruct (opened_result _ _ _ _ _ _ _ _ _ _ Hbuf Hlen He Ho) as (_ & [] & _).
  destruct pk_tables0. do 3 (split; [done|]). lia.
Qed.
End OpenTheorems.

(** ** Where opening leaves defined behaviour *)
Section OpenFaults.
Context {H : Type} `{KernelAlloc H} `{!KernelAllocLaws H}.
Context (stack : HIDReportDescriptor) (bytes : list Z) (len flags : Z)
  (old : option PreparsedRef) (h : H).

(** A long item is not parsed: on a descriptor whose items before its
    first long item are counted without error, opening reads through a
    pointer that has been moved off its object. *)
Theorem open_long_item_faults c p h1 :
  IOMalloc sizeof_HIDPreparsedData h = (Some p, h1) → buffer_ok bytes len →
  (descriptor_items bytes len).2 = LexLong →
  count_run (descriptor_items bytes len).1 counts0 = (kHIDSuccess, c) →
  ∃ f, HIDOpenReportDescriptor stack (Some bytes) len (Some old) flags h = Fault f ∧
    (f = PastObject ∨ f = OutOfBounds).
Proof using All.
  intros Hmem Hbuf Hend Hcount. unfold HIDOpenReportDescriptor.
  destruct (PoolAllocateResident_some _ _ _ _ Hmem) as (-> & _ & _).
  cbn [obind]. unfold HIDCountDescriptorItems. struct_simpl.
  set (d := stack <| d_descriptor := bytes |> <| d_descriptorLength := len |> <| d_index := 0 |>).
  pose proof (item_loop_run count_body count_body_frame (S (Z.to_nat len)) d counts0
    (descriptor_items bytes len).1 (descriptor_items bytes len).2) as Hloop.
  unfold d in Hloop at 1 2 3 4 5 6 7. struct_simpl in Hloop. destruct Hbuf as (HF & Hl & H31).
  specialize (Hloop ltac:(done) ltac:(lia) ltac:(lia)
    ltac:(unfold descriptor_items; by destruct (lex_all _ _ _ _))).
  destruct (count_body_run (descriptor_items bytes len).1 d counts0) as (d' & Hrun & _).
  rewrite Hrun, Hcount, Z.eqb_refl, Hend in Hloop. destruct Hloop as (f & Hf & Hcases).
  exists f. split; [|done]. subst d. struct_simpl. by rewrite Hf.
Qed.

(** Running out of memory is not reported: when the kernel has no
    memory for the struct, the null pointer is cleared before it is
    tested. *)
Theorem open_out_of_memory_faults h' :
  IOMalloc sizeof_HIDPreparsedData h = (None, h') →
  HIDOpenReportDescriptor stack (Some bytes) len (Some old) flags h = Fault NullDeref.
Proof using.
  intros Hm. unfold HIDOpenReportDescriptor, PoolAllocateResident. by rewrite Hm.
Qed.
End OpenFaults.

(** The theorems at the sample mouse. *)
Lemma mouse_end : (descriptor_items mouse_descriptor 50).2 = LexEnd.
Proof. reflexivity. Qed.

Lemma mouse_short : 50 < max_descriptor.
Proof. reflexivity. Qed.

Lemma mouse_small : small mouse_pd.
Proof.
  split; [by vm_compute|]. apply table_Forall. repeat constructor; by vm_compute.
Qed.

Lemma open_memory_safe_witness :
  let run := HIDOpenReportDescriptor any_stack (Some mouse_descriptor) 50 (Some None) 1 (∅ : gmap Z Z) in
  safe run (open_result (∅ : gmap Z Z)) ∨ (run = Fault NullDeref ∧ out_of_memory (∅ : gmap Z Z)).
Proof.
  exact (open_memory_safe any_stack mouse_descriptor 50 1 None ∅
    mouse_buffer mouse_short mouse_end).
Defined.

Lemma open_close_restores_heap_witness :
  ∃ h'' : gmap Z Z,
    HIDCloseReportDescriptor (Some (1, mouse_pd)) mouse_heap = Ret (noErr, h'') ∧
    live h'' = ∅ ∧
    ∀ pd', HIDCloseReportDescriptor (Some (1, pd')) h'' = Fault Dangling.
Proof.
  exact (open_close_restores_heap any_stack mouse_descriptor 50 1 None ∅
    mouse_buffer mouse_short kHIDSuccess 1 mouse_pd mouse_heap mouse_end open_mouse_eq).
Defined.

Lemma opened_fields_laid_out_witness : layout mouse_pd.
Proof.
  exact (opened_fields_laid_out any_stack mouse_descriptor 50 1 None ∅
    mouse_buffer mouse_short kHIDSuccess 1 mouse_pd mouse_heap mouse_end open_mouse_eq mouse_small).
Defined.

Lemma opened_tables_closed_witness :
  table (report_item_ok mouse_pd) (pd_reportItems mouse_pd) 3 ∧
  table (collection_ok mouse_pd) (pd_collections mouse_pd) 3 ∧
  table usage_item_ok (pd_usageItems mouse_pd) 5 ∧ 3 ≤ 3 ∧ 3 ≤ 3 ∧ 5 ≤ 5.
Proof.
  exact (opened_tables_closed any_stack mouse_descriptor 50 1 None ∅
    mouse_buffer mouse_short kHIDSuccess 1 mouse_pd mouse_heap mouse_end open_mouse_eq).
Defined.

Lemma mouse_ok : preparsed_ok mouse_pd ∧ pd_hidTypeIfValid mouse_pd = kHIDOSType.
Proof.
  destruct (opened_result any_stack mouse_descriptor 50 1 None (∅ : gmap Z Z) kHIDSuccess 1 mouse_pd
    mouse_heap mouse_buffer mouse_short mouse_end open_mouse_eq) as (_ & ? & ? & _).
  done.
Qed.

(** Usage Page, then a long item. *)
Lemma open_long_item_faults_witness :
  ∃ f, HIDOpenReportDescriptor any_stack (Some [5; 1; 0xFE; 1; 0; 0]) 6 (Some None) 0 (∅ : gmap Z Z) = Fault f ∧
    (f = PastObject ∨ f = OutOfBounds).
Proof.
  apply (open_long_item_faults any_stack [5; 1; 0xFE; 1; 0; 0] 6 0 None (∅ : gmap Z Z) counts0
    1 {[1 := sizeof_HIDPreparsedData]}); [done|split; [repeat constructor; lia|by vm_compute]|by vm_compute|by vm_compute].
Defined.

(** A kernel with no memory left. *)
Definition exhausted : KernelAlloc unit :=
  {| IOMalloc _ h := (None, h); IOFree _ _ h := h; live _ := ∅ |}.
Lemma exhausted_laws : @KernelAllocLaws unit exhausted.
Proof. split; cbn; [done|done|]. intros p n h. by rewrite lookup_empty. Qed.

Lemma open_out_of_memory_faults_witness :
  @HIDOpenReportDescriptor unit exhausted any_stack (Some mouse_descriptor) 50 (Some None) 1 tt = Fault NullDeref.
Proof.
  apply (@open_out_of_memory_faults unit exhausted any_stack mouse_descriptor 50 1 None tt tt).
  by vm_compute.
Defined.
