(* ===== verification/HIDBits.v ===== *)
(** * Bit fields of a report ([HIDGetData.c], [HIDPutData.c])

    A report is a buffer of bytes; a field is [size] bits from bit [start],
    least significant bit first.  The reference is the little-endian number
    the whole report spells: a field is a slice of its binary digits. *)
From S2P Require Import Prelude HIDTypes HIDNextItem.

(** ** The code *)

(** "Pick up the data bytes backwards": from [iCurrentByte] down to
    [iStartByte]. *)
Fixpoint HIDGetData_bytes (fuel : nat) (psReport : list Z)
    (iCurrentByte iStartByte iLastByte iLastBit data : Z) : outcome Z :=
  if iStartByte <=? iCurrentByte then
    match fuel with
    | O => Fault OutOfFuel
    | S fuel =>
        let data := u32 (Z.shiftl data 8) in
        let iMask := if iCurrentByte =? iLastByte
                     then u32 (Z.shiftl 1 (iLastBit mod 8 + 1) - 1) else 0xff in
        let* b := aget psReport iCurrentByte in
        HIDGetData_bytes fuel psReport (iCurrentByte - 1) iStartByte iLastByte iLastBit
          (Z.lor data (Z.land b iMask))
    end
  else Ret data.

(** "Sign extend the report item" *)
Definition HIDGetData_extend (data iSize : Z) : outcome Z :=
  let* iSignBit :=
    (if 1 <? iSize then
      if 32 <=? iSize - 1 then Fault BadShift else Ret (u32 (Z.shiftl 1 (iSize - 1)))
    else Ret 1) in
  let iExtendMask := u32 (u32 (Z.shiftl iSignBit 1) - 1) in
  Ret (if Z.land data iSignBit =? 0 then Z.land data iExtendMask
       else Z.lor data (u32 (Z.lnot iExtendMask))).

(** The second component is the value stored through [piValue], if any. *)
Definition HIDGetData (psReport : list Z) (iReportLength iStart iSize : Z) (bSignExtend : bool)
    : outcome (OSStatus * option Z) :=
  let iStartByte := iStart / 8 in
  let startBit := Z.land iStart 7 in
  let iLastBit := u32 (iStart + iSize - 1) in
  let iLastByte := iLastBit / 8 in
  if (iSize =? 0) || (iReportLength <=? iLastByte) || (iLastByte <? iStartByte) then
    Ret (kHIDBadParameterErr, None)
  else
    let* data := HIDGetData_bytes (Z.to_nat (iLastByte - iStartByte + 1)) psReport
                   iLastByte iStartByte iLastByte iLastBit 0 in
    let data := Z.shiftr data startBit in
    let* data := (if bSignExtend then HIDGetData_extend data iSize else Ret data) in
    Ret (kHIDSuccess, Some (s32 data)).

(** "Store out an intermediate bytes": [while (++iStartByte < iLastByte)]. *)
Fixpoint HIDPutData_middle (fuel : nat) (psReport : list Z) (iStartByte iLastByte iShiftedData : Z)
    : outcome (list Z * Z * Z) :=
  match fuel with
  | O => Fault OutOfFuel
  | S fuel =>
      let iStartByte := u32 (iStartByte + 1) in
      if iStartByte <? iLastByte then
        let* psReport := aset psReport iStartByte (u8 iShiftedData) in
        HIDPutData_middle fuel psReport iStartByte iLastByte (Z.shiftr iShiftedData 8)
      else Ret (psReport, iStartByte, iShiftedData)
  end.

Definition HIDPutData (psReport : list Z) (reportLength start size value : Z)
    : outcome (OSStatus * list Z) :=
  let iLastByte := u32 (start + size - 1) / 8 in
  if (start <? 0) || (size <=? 0) || (reportLength <=? iLastByte) then
    Ret (kHIDBadParameterErr, psReport)
  else
    let iLastBit := Z.land (u32 (start + size - 1)) 7 in
    let iLastMask := u32 (Z.lnot (Z.shiftl 1 (iLastBit + 1) - 1)) in
    let iStartByte := start / 8 in
    let startBit := Z.land start 7 in
    let iStartMask := Z.shiftl 1 startBit - 1 in
    let* '(psReport, iStartByte, data) :=
      (if iStartByte =? iLastByte then
        let* data := aget psReport iStartByte in
        let iDataMask := Z.lor iStartMask iLastMask in
        let data := s32 (Z.land (u32 data) iDataMask) in
        let iShiftedData := s32 (Z.shiftl value startBit) in
        let iShiftedData := s32 (Z.land (u32 iShiftedData) (u32 (Z.lnot iDataMask))) in
        Ret (psReport, iStartByte, Z.lor data iShiftedData)
      else
        let* data := aget psReport iStartByte in
        let data := s32 (Z.land (u32 data) iStartMask) in
        let iShiftedData := s32 (Z.shiftl value startBit) in
        let data := Z.lor data iShiftedData in
        let* psReport := aset psReport iStartByte (u8 data) in
        let* '(psReport, iStartByte, iShiftedData) :=
          HIDPutData_middle (S (Z.to_nat (iLastByte - iStartByte))) psReport iStartByte iLastByte
            (Z.shiftr iShiftedData 8) in
        let* data := aget psReport iLastByte in
        let data := s32 (Z.land (u32 data) iLastMask) in
        let iShiftedData := s32 (Z.land (u32 iShiftedData) (u32 (Z.lnot iLastMask))) in
        Ret (psReport, iStartByte, Z.lor data iShiftedData)) in
    let* psReport := aset psReport iStartByte (u8 data) in
    Ret (kHIDSuccess, psReport).

(** ** The reference *)
Definition report_num (rep : list Z) : Z := le_val rep.
Definition field (rep : list Z) (start size : Z) : Z := report_num rep / 2 ^ start mod 2 ^ size.
Definition signed (size v : Z) : Z := if Z.testbit v (size - 1) then v - 2 ^ size else v.
Definition rbit (rep : list Z) (k : Z) : bool := Z.testbit (report_num rep) k.

Lemma report_num_nonneg rep : bytes_ok rep → 0 ≤ report_num rep.
Proof. intros H. apply le_val_bound in H. unfold report_num. lia. Qed.

(** Digit [k] of the report is digit [k mod 8] of byte [k / 8]. *)
Lemma rbit_at rep : ∀ k b, bytes_ok rep → 0 ≤ k → at_ rep (k / 8) b → rbit rep k = Z.testbit b (k mod 8).
Proof.
  unfold rbit, report_num.
  induction rep as [|x rep IH]; intros k b HF Hk Ha; [by apply at_range in Ha; change (zlen []) with 0 in Ha; lia|].
  apply Forall_cons in HF as [Hx HF]. cbn [le_val].
  replace (x + 256 * le_val rep) with (Z.lor x (Z.shiftl (le_val rep) 8))
    by (rewrite lor_shift_add by lia; by change (2 ^ 8) with 256).
  rewrite Z.lor_spec, Z.shiftl_spec by lia.
  destruct (Z_lt_le_dec k 8) as [Hlt|Hge].
  - rewrite Z.div_small in Ha by lia. destruct Ha as [_ [= ->]].
    rewrite Z.mod_small, (Z.testbit_neg_r (le_val rep)), orb_false_r by lia. done.
  - rewrite (testbit_small x 8) by lia. cbn [orb].
    replace (k mod 8) with ((k - 8) mod 8) by (Z.div_mod_to_equations; lia).
    apply IH; [done|lia|]. destruct Ha as [_ Ha]. split; [apply Z.div_pos; lia|].
    replace (k / 8) with (1 + (k - 8) / 8) in Ha by (Z.div_mod_to_equations; lia).
    replace (Z.to_nat (1 + (k - 8) / 8)) with (S (Z.to_nat ((k - 8) / 8))) in Ha; [done|].
    assert (0 ≤ (k - 8) / 8) by (apply Z.div_pos; lia). lia.
Qed.

(** Storing a byte replaces its eight digits. *)
Lemma rbit_insert rep i b k :
  bytes_ok rep → is_u8 b → 0 ≤ i < zlen rep → 0 ≤ k →
  rbit (<[Z.to_nat i := b]> rep) k = if k / 8 =? i then Z.testbit b (k mod 8) else rbit rep k.
Proof.
  intros HF Hb Hi Hk. assert (0 ≤ k / 8) by (apply Z.div_pos; lia).
  pose proof (bytes_ok_insert rep i b HF Hb) as HF'.
  destruct (Z.eqb_spec (k / 8) i) as [E|E].
  - apply rbit_at; [done..|]. rewrite E. by apply at_insert_eq.
  - destruct (Z_lt_le_dec (k / 8) (zlen rep)).
    + destruct (at_exists rep (k / 8)) as [x Hx]; [lia|].
      rewrite (rbit_at rep k x) by done. apply rbit_at; [done..|]. apply at_insert_ne; [done|lia|done].
    + assert (∀ r, bytes_ok r → zlen r = zlen rep → rbit r k = false) as Hhigh.
      { intros r Hr Hl. apply (testbit_small _ (8 * zlen rep)); [lia| |Z.div_mod_to_equations; lia].
        pose proof (le_val_bound r Hr) as Hv. rewrite Hl in Hv. unfold report_num.
        rewrite Z.pow_mul_r by lia. exact Hv. }
      rewrite !Hhigh by (done || by rewrite ?zlen_insert). done.
Qed.

Lemma field_testbit rep start size i :
  0 ≤ start → 0 ≤ size → 0 ≤ i →
  Z.testbit (field rep start size) i = (i <? size) && rbit rep (start + i).
Proof.
  intros. unfold field, rbit. destruct (Z.ltb_spec i size).
  - rewrite Z.mod_pow2_bits_low, Z.div_pow2_bits by lia. cbn. f_equal. lia.
  - by rewrite Z.mod_pow2_bits_high by lia.
Qed.

Lemma field_range rep start size : 0 ≤ size → 0 ≤ field rep start size < 2 ^ size.
Proof. intros. apply Z.mod_pos_bound. lia. Qed.

(** ** [HIDGetData] reads the field *)
Lemma land7 z : Z.land z 7 = z mod 8.
Proof. change 7 with (Z.ones 3). by rewrite Z.land_ones by lia. Qed.

Section GetBytes.
Context (rep : list Z) (iStartByte iLastBit : Z).
Let iLastByte := iLastBit / 8.
Hypothesis Hrep : bytes_ok rep.
Hypothesis Hs : 0 ≤ iStartByte ≤ iLastByte.
Hypothesis Hlen : iLastByte < zlen rep.

(** [data] holds the digits from byte [j] up to [iLastBit], 32 at most. *)
Definition gathered (j data : Z) : Prop :=
  ∀ i, 0 ≤ i → Z.testbit data i = (i <? 32) && (8 * j + i <=? iLastBit) && rbit rep (8 * j + i).

Lemma gather_byte j b data :
  iStartByte ≤ j ≤ iLastByte → at_ rep j b → gathered (j + 1) data →
  gathered j (Z.lor (u32 (Z.shiftl data 8)) (Z.land b
    (if j =? iLastByte then u32 (Z.shiftl 1 (iLastBit mod 8 + 1) - 1) else 0xff))).
Proof using Hrep Hs.
  intros Hj Hb Hdata i Hi. unfold iLastByte in *.
  pose proof (bytes_ok_at _ _ _ Hrep Hb) as Hb8.
  rewrite Z.lor_spec, u32_testbit, Z.shiftl_spec, Z.land_spec by lia.
  assert (Z.testbit (if j =? iLastBit / 8 then u32 (Z.shiftl 1 (iLastBit mod 8 + 1) - 1) else 0xff) i
    = (i <? 8) && (8 * j + i <=? iLastBit)) as ->.
  { pose proof (Z.mod_pos_bound iLastBit 8). destruct (Z.eqb_spec j (iLastBit / 8)).
    - rewrite u32_testbit, shiftl1_testbit by lia.
      destruct (Z.ltb_spec i 32), (Z.ltb_spec i (iLastBit mod 8 + 1)), (Z.ltb_spec i 8),
        (Z.leb_spec (8 * j + i) iLastBit); try done; Z.div_mod_to_equations; lia.
    - change 0xff with (Z.ones 8). rewrite Z.testbit_ones_nonneg by lia.
      destruct (Z.ltb_spec i 8), (Z.leb_spec (8 * j + i) iLastBit); try done;
        Z.div_mod_to_equations; lia. }
  destruct (Z.ltb_spec i 8).
  - rewrite (Z.testbit_neg_r data), andb_false_r by lia. cbn [orb andb].
    rewrite (rbit_at rep _ b); [|done|lia|].
    2: { by replace ((8 * j + i) / 8) with j by (Z.div_mod_to_equations; lia). }
    replace ((8 * j + i) mod 8) with i by (Z.div_mod_to_equations; lia).
    rewrite (proj2 (Z.ltb_lt i 32)) by lia. by rewrite andb_comm.
  - rewrite Hdata by lia. cbn [andb]. rewrite andb_false_r, orb_false_r.
    replace (8 * (j + 1) + (i - 8)) with (8 * j + i) by lia.
    destruct (Z.ltb_spec i 32), (Z.ltb_spec (i - 8) 32); try done; lia.
Qed.

Lemma HIDGetData_bytes_spec n : ∀ j data,
  Z.of_nat n = j - iStartByte + 1 → j ≤ iLastByte → gathered (j + 1) data →
  safe (HIDGetData_bytes n rep j iStartByte iLastByte iLastBit data) (gathered iStartByte).
Proof using Hrep Hs Hlen.
  induction n as [|n IH]; intros j data Hn Hj Hdata; cbn [HIDGetData_bytes].
  { rewrite (proj2 (Z.leb_gt iStartByte j)) by lia. by replace iStartByte with (j + 1) by lia. }
  rewrite (proj2 (Z.leb_le iStartByte j)) by lia.
  apply wp_bind. eapply wp_mono; [apply aget_safe; lia|intros b Hb|done].
  apply IH; [lia..|]. replace (j - 1 + 1) with j by lia. apply gather_byte; [lia|done|done].
Qed.
End GetBytes.

(** The field [start, start + size) lies in a report of [len] bytes. *)
Definition in_report (rep : list Z) (len start size : Z) : Prop :=
  bytes_ok rep ∧ 0 ≤ len ≤ zlen rep ∧ 0 ≤ start ∧ 0 < size ∧ start + size ≤ 8 * len ∧
  start + size < 4294967296.

(** Digits beyond the 32nd from the field's first byte are lost. *)
Definition kept (start size : Z) : Z := Z.min size (32 - start mod 8).

Lemma HIDGetData_run rep len start size sgn :
  in_report rep len start size →
  HIDGetData rep len start size sgn =
    let* data := (if sgn then HIDGetData_extend (field rep start (kept start size)) size
                  else Ret (field rep start (kept start size))) in
    Ret (kHIDSuccess, Some (s32 data)).
Proof.
  intros (HF & Hlen & Hs & Hz & Hend & Hw).
  unfold HIDGetData. cbv zeta. rewrite (u32_id (start + size - 1)), land7 by lia.
  rewrite (proj2 (Z.eqb_neq size 0)), (proj2 (Z.leb_gt len _)), (proj2 (Z.ltb_ge _ (start / 8)))
    by (Z.div_mod_to_equations; lia). cbn [orb].
  destruct (safe_elim _ _ (HIDGetData_bytes_spec rep (start / 8) (start + size - 1) HF
    ltac:(Z.div_mod_to_equations; lia) ltac:(Z.div_mod_to_equations; lia)
    (Z.to_nat ((start + size - 1) / 8 - start / 8 + 1)) ((start + size - 1) / 8) 0
    ltac:(Z.div_mod_to_equations; lia) (Z.le_refl _)
    ltac:(intros i Hi; rewrite Z.bits_0, (proj2 (Z.leb_gt _ (start + size - 1))), andb_false_r;
          [done|Z.div_mod_to_equations; lia]))) as (data & -> & Hdata).
  cbn [obind].
  replace (Z.shiftr data (start mod 8)) with (field rep start (kept start size)); [done|].
  apply Z.bits_inj'. intros i Hi. pose proof (Z.mod_pos_bound start 8).
  rewrite Z.shiftr_spec, field_testbit, Hdata by (unfold kept; lia).
  replace (8 * (start / 8) + (i + start mod 8)) with (start + i) by (Z.div_mod_to_equations; lia).
  f_equal. unfold kept.
  destruct (Z.ltb_spec i (Z.min size (32 - start mod 8))), (Z.ltb_spec (i + start mod 8) 32),
    (Z.leb_spec (start + i) (start + size - 1)); done || lia.
Qed.

Lemma land_pow2_eqb v n : 0 ≤ n → (Z.land v (2 ^ n) =? 0) = negb (Z.testbit v n).
Proof.
  intros Hn. destruct (Z.testbit v n) eqn:E; cbn.
  - apply Z.eqb_neq. intros H. assert (Z.testbit (Z.land v (2 ^ n)) n = false) as H'
      by (by rewrite H, Z.bits_0).
    by rewrite Z.land_spec, E, Z.pow2_bits_true in H'.
  - apply Z.eqb_eq, Z.bits_inj'. intros k Hk. rewrite Z.land_spec, Z.bits_0.
    destruct (decide (k = n)) as [->|]; [by rewrite E|].
    by rewrite Z.pow2_bits_false, andb_false_r by done.
Qed.

Lemma HIDGetData_signed rep len start size :
  in_report rep len start size → start mod 8 + size ≤ 32 →
  HIDGetData rep len start size true =
    Ret (kHIDSuccess, Some (signed size (field rep start size))).
Proof.
  intros Hin Hfit. rewrite (HIDGetData_run _ _ _ _ _ Hin).
  destruct Hin as (HF & Hlen & Hs & Hz & Hend & Hw). pose proof (Z.mod_pos_bound start 8).
  replace (kept start size) with size by (unfold kept; lia).
  set (v := field rep start size). pose proof (field_range rep start size ltac:(lia)) as Hv. fold v in Hv.
  assert (2 ^ size = 2 * 2 ^ (size - 1)) as Hp.
  { replace size with (1 + (size - 1)) at 1 by lia. by rewrite Z.pow_add_r by lia. }
  assert (1 ≤ 2 ^ (size - 1) ≤ 2 ^ 31) as Hp1.
  { split; [|apply Z.pow_le_mono_r; lia]. change 1 with (2 ^ 0) at 1. apply Z.pow_le_mono_r; lia. }
  unfold HIDGetData_extend.
  assert ((if 1 <? size then if 32 <=? size - 1 then Fault BadShift
    else Ret (u32 (Z.shiftl 1 (size - 1))) else Ret 1) = Ret (2 ^ (size - 1))) as ->.
  { destruct (Z.ltb_spec 1 size).
    - rewrite (proj2 (Z.leb_gt 32 (size - 1))), Z.shiftl_1_l, u32_id by lia. done.
    - by replace size with 1 by lia. }
  cbn [obind]. rewrite Z.shiftl_mul_pow2 by lia. change (2 ^ 1) with 2.
  assert (u32 (u32 (2 ^ (size - 1) * 2) - 1) = 2 ^ size - 1) as ->.
  { destruct (decide (size = 32)) as [->|]; [done|].
    assert (2 ^ size ≤ 2 ^ 31) by (apply Z.pow_le_mono_r; lia).
    rewrite !u32_id; rewrite ?u32_id; lia. }
  rewrite land_pow2_eqb by lia. unfold signed.
  assert (∀ i, size ≤ i → Z.testbit v i = false) as Hhigh
    by (intros; apply (testbit_small v size); lia).
  replace (2 ^ size - 1) with (Z.ones size) by (rewrite Z.ones_equiv; lia).
  destruct (Z.testbit v (size - 1)) eqn:Esign; cbn [negb obind]; do 3 f_equal.
  - apply Z.bits_inj'. intros i Hi.
    replace (v - 2 ^ size) with (Z.lor v (Z.shiftl (-1) size)) by (rewrite lor_shift_add by lia; lia).
    rewrite s32_testbit, !Z.lor_spec, u32_testbit, Z.lnot_spec, Z.testbit_ones_nonneg, Z.shiftl_spec by lia.
    destruct (Z_lt_le_dec i size).
    + rewrite Z.min_l, (proj2 (Z.ltb_lt i size)), (Z.testbit_neg_r (-1)) by lia.
      cbn [negb]. by rewrite andb_false_r.
    + replace (Z.testbit (-1) (i - size)) with true by (symmetry; apply (Z.bits_m1 (i - size)); lia).
      destruct (Z.ltb_spec (Z.min i 31) size).
      * replace (Z.min i 31) with (size - 1) by lia. by rewrite Esign, !orb_true_r.
      * rewrite (proj2 (Z.ltb_lt (Z.min i 31) 32)) by lia. by rewrite !orb_true_r.
  - rewrite Z.land_ones, Z.mod_small by lia.
    apply s32_id. assert (v < 2 ^ (size - 1)); [|lia].
    destruct (Z_lt_le_dec v (2 ^ (size - 1))); [done|].
    rewrite Z.testbit_odd, Z.shiftr_div_pow2 in Esign by lia.
    replace (v / 2 ^ (size - 1)) with 1 in Esign; [done|].
    apply Z.div_unique with (v - 2 ^ (size - 1)); lia.
Qed.

(** ** [HIDPutData] replaces the field *)
Lemma HIDPutData_middle_spec last n : ∀ rep j sh,
  bytes_ok rep → 0 ≤ j < last → last < zlen rep → last < 4294967296 → last - j ≤ Z.of_nat n →
  ∃ rep', HIDPutData_middle n rep j last sh = Ret (rep', last, Z.shiftr sh (8 * (last - j - 1))) ∧
    zlen rep' = zlen rep ∧ bytes_ok rep' ∧
    ∀ k, 0 ≤ k → rbit rep' k =
      if (8 * (j + 1) <=? k) && (k <? 8 * last) then Z.testbit sh (k - 8 * (j + 1)) else rbit rep k.
Proof.
  induction n as [|n IH]; intros rep j sh HF Hj Hlen Hw Hn; [lia|].
  cbn [HIDPutData_middle]. rewrite (u32_id (j + 1)) by lia.
  destruct (Z.ltb_spec (j + 1) last) as [Hlt|Hge].
  - rewrite aset_in by lia. cbn [obind].
    destruct (IH (<[Z.to_nat (j + 1) := u8 sh]> rep) (j + 1) (Z.shiftr sh 8)) as (rep' & -> & Hl & HF' & Hbits).
    { apply bytes_ok_insert; [done|apply u8_range]. } { lia. } { by rewrite zlen_insert. } { lia. } { lia. }
    rewrite zlen_insert in Hl. exists rep'. split.
    { rewrite Z.shiftr_shiftr by lia. do 3 f_equal. lia. }
    split; [done|]. split; [done|]. intros k Hk. rewrite Hbits by done.
    rewrite rbit_insert by (done || lia || apply u8_range).
    destruct (Z.leb_spec (8 * (j + 1 + 1)) k), (Z.leb_spec (8 * (j + 1)) k), (Z.ltb_spec k (8 * last)),
      (Z.eqb_spec (k / 8) (j + 1)); cbn [andb]; try done; try (exfalso; Z.div_mod_to_equations; lia).
    + rewrite Z.shiftr_spec by lia. f_equal. lia.
    + pose proof (Z.mod_pos_bound k 8).
      rewrite u8_testbit, (proj2 (Z.ltb_lt (k mod 8) 8)) by lia. cbn. f_equal. Z.div_mod_to_equations. lia.
  - assert (j + 1 = last) as <- by lia. exists rep.
    replace (8 * (j + 1 - j - 1)) with 0 by lia. rewrite Z.shiftr_0_r. do 3 (split; [done|]).
    intros k Hk. destruct (Z.leb_spec (8 * (j + 1)) k), (Z.ltb_spec k (8 * (j + 1))); done || lia.
Qed.

(** Merging a byte under a mask of kept digits. *)
Lemma merge_testbit b v mask i :
  is_u8 b → 0 ≤ i < 8 → is_u32 mask →
  Z.testbit (u8 (Z.lor (s32 (Z.land (u32 b) mask)) (s32 (Z.land (u32 v) (u32 (Z.lnot mask)))))) i =
  if Z.testbit mask i then Z.testbit b i else Z.testbit v i.
Proof.
  intros Hb Hi Hm. rewrite u8_testbit, Z.lor_spec, !s32_testbit, !Z.min_l, !Z.land_spec, !u32_testbit,
    Z.lnot_spec, (proj2 (Z.ltb_lt i 8)), (proj2 (Z.ltb_lt i 32)) by lia.
  by destruct (Z.testbit mask i), (Z.testbit b i), (Z.testbit v i).
Qed.

Lemma mask_range n : 0 ≤ n < 32 → is_u32 (Z.shiftl 1 n - 1).
Proof.
  intros. rewrite Z.shiftl_1_l. assert (2 ^ n ≤ 2 ^ 32) by (apply Z.pow_le_mono_r; lia).
  assert (0 < 2 ^ n) by lia. lia.
Qed.

Lemma lor_range a b : is_u32 a → is_u32 b → is_u32 (Z.lor a b).
Proof.
  intros Ha Hb. assert (Z.lor a b = u32 (Z.lor a b)) as ->; [|apply u32_range].
  apply Z.bits_inj'. intros i Hi. rewrite u32_testbit, Z.lor_spec by done.
  destruct (Z.ltb_spec i 32); [done|].
  by rewrite (testbit_small a 32), (testbit_small b 32) by lia.
Qed.

Lemma last_mask_testbit n i :
  0 ≤ n < 31 → 0 ≤ i < 32 → Z.testbit (u32 (Z.lnot (Z.shiftl 1 (n + 1) - 1))) i = (n <? i).
Proof.
  intros. rewrite u32_testbit, Z.lnot_spec, shiftl1_testbit, (proj2 (Z.ltb_lt i 32)) by lia.
  destruct (Z.ltb_spec i (n + 1)), (Z.ltb_spec n i); done || lia.
Qed.

(** The digits [HIDPutData] stores: the value moved to the field's first
    byte, as a 32-bit integer, and sign-extended beyond. *)
Definition placed (start value : Z) (k : Z) : bool :=
  Z.testbit (s32 (Z.shiftl value (start mod 8))) (k - 8 * (start / 8)).

Definition put_bits (rep : list Z) (start size value : Z) (k : Z) : bool :=
  if (start <=? k) && (k <? start + size) then placed start value k else rbit rep k.

(** The first byte of a field that spans several. *)
Lemma start_byte_testbit b value sb i :
  is_u8 b → 0 ≤ sb < 8 → 0 ≤ i < 8 →
  Z.testbit (u8 (Z.lor (s32 (Z.land (u32 b) (Z.shiftl 1 sb - 1))) (s32 (Z.shiftl value sb)))) i =
  if i <? sb then Z.testbit b i else Z.testbit (s32 (Z.shiftl value sb)) i.
Proof.
  intros. rewrite u8_testbit, Z.lor_spec, !s32_testbit, !Z.min_l, Z.land_spec, u32_testbit,
    shiftl1_testbit, (proj2 (Z.ltb_lt i 8)), (proj2 (Z.ltb_lt i 32)), Z.shiftl_spec by lia.
  destruct (Z.ltb_spec i sb); [|by rewrite andb_false_r].
  rewrite (Z.testbit_neg_r value) by lia. by rewrite andb_true_r, orb_false_r.
Qed.

Section Put.
Context (rep : list Z) (len start size value : Z).
Hypothesis Hin : in_report rep len start size.
Let sB := start / 8.
Let sb := start mod 8.
Let lB := (start + size - 1) / 8.
Let lb := (start + size - 1) mod 8.
Let V := s32 (Z.shiftl value sb).
Let mask := u32 (Z.lnot (Z.shiftl 1 (lb + 1) - 1)).

Lemma put_geometry :
  0 ≤ sB ≤ lB ∧ lB < len ∧ start = 8 * sB + sb ∧ start + size - 1 = 8 * lB + lb ∧
  0 ≤ sb < 8 ∧ 0 ≤ lb < 8.
Proof using All.
  destruct Hin as (HF & Hlen & Hs & Hz & Hend & Hw). unfold sB, lB, lb, sb.
  Z.div_mod_to_equations. lia.
Qed.

Lemma put_one_byte b :
  sB = lB → at_ rep sB b →
  let m := Z.lor (Z.shiftl 1 sb - 1) mask in
  ∀ k, 0 ≤ k → rbit (<[Z.to_nat sB := u8 (Z.lor (s32 (Z.land (u32 b) m))
                        (s32 (Z.land (u32 V) (u32 (Z.lnot m)))))]> rep) k
    = put_bits rep start size value k.
Proof using All.
  intros E Hb m k Hk. pose proof put_geometry as (?&?&?&?&?&?).
  destruct Hin as (HF & Hlen & _). unfold put_bits, placed. fold sb sB V.
  rewrite rbit_insert by (done || lia || apply u8_range).
  destruct (Z.eqb_spec (k / 8) sB) as [Ek|Ek].
  - pose proof (Z.mod_pos_bound k 8). pose proof (bytes_ok_at _ _ _ HF Hb).
    rewrite merge_testbit; [|done|lia|apply lor_range; [apply mask_range; lia|apply u32_range]].
    unfold m, mask. rewrite Z.lor_spec, shiftl1_testbit, last_mask_testbit by lia.
    rewrite (rbit_at rep k b) by (done || by rewrite Ek).
    assert (k = 8 * sB + k mod 8) as Hk8 by (Z.div_mod_to_equations; lia).
    replace (k - 8 * sB) with (k mod 8) by lia.
    destruct (Z.ltb_spec (k mod 8) sb), (Z.ltb_spec lb (k mod 8)), (Z.leb_spec start k),
      (Z.ltb_spec k (start + size)); cbn; done || lia.
  - destruct (Z.leb_spec start k), (Z.ltb_spec k (start + size)); cbn; try done.
    Z.div_mod_to_equations. lia.
Qed.

Lemma put_many_bytes b rep1 c :
  sB ≠ lB → at_ rep sB b →
  let rep0 := <[Z.to_nat sB := u8 (Z.lor (s32 (Z.land (u32 b) (Z.shiftl 1 sb - 1))) V)]> rep in
  bytes_ok rep1 → zlen rep1 = zlen rep → at_ rep1 lB c →
  (∀ k, 0 ≤ k → rbit rep1 k = if (8 * (sB + 1) <=? k) && (k <? 8 * lB)
     then Z.testbit (Z.shiftr V 8) (k - 8 * (sB + 1)) else rbit rep0 k) →
  ∀ k, 0 ≤ k → rbit (<[Z.to_nat lB := u8 (Z.lor (s32 (Z.land (u32 c) mask))
      (s32 (Z.land (u32 (Z.shiftr (Z.shiftr V 8) (8 * (lB - sB - 1)))) (u32 (Z.lnot mask)))))]> rep1) k
    = put_bits rep start size value k.
Proof using All.
  intros E Hb rep0 HF1 Hl1 Hc Hbits1 k Hk. pose proof put_geometry as (?&?&?&?&?&?).
  destruct Hin as (HF & Hlen & _). unfold put_bits, placed. fold sb sB V.
  pose proof (Z.mod_pos_bound k 8). pose proof (bytes_ok_at _ _ _ HF Hb).
  assert (∀ k, 0 ≤ k → rbit rep0 k =
    if k / 8 =? sB then if k mod 8 <? sb then Z.testbit b (k mod 8) else Z.testbit V (k mod 8)
    else rbit rep k) as Hr0.
  { intros j Hj. pose proof (Z.mod_pos_bound j 8). unfold rep0.
    rewrite rbit_insert by (done || lia || apply u8_range).
    unfold V. by rewrite start_byte_testbit by lia. }
  rewrite rbit_insert by (done || lia || apply u8_range).
  destruct (Z.eqb_spec (k / 8) lB) as [Ek|Ek].
  - pose proof (bytes_ok_at _ _ _ HF1 Hc).
    rewrite merge_testbit by (done || lia || apply u32_range). unfold mask. rewrite last_mask_testbit by lia.
    assert (k = 8 * lB + k mod 8) as Hk8 by (Z.div_mod_to_equations; lia).
    rewrite <- (rbit_at rep1 k c) by (done || by rewrite Ek).
    rewrite Hbits1, Hr0 by done.
    rewrite (proj2 (Z.ltb_ge k (8 * lB))), andb_false_r, (proj2 (Z.eqb_neq (k / 8) sB)) by lia.
    rewrite !Z.shiftr_spec by lia.
    replace (k mod 8 + 8 * (lB - sB - 1) + 8) with (k - 8 * sB) by lia.
    destruct (Z.ltb_spec lb (k mod 8)), (Z.leb_spec start k),
      (Z.ltb_spec k (start + size)); cbn; done || lia.
  - rewrite Hbits1, Hr0 by done.
    assert (k = 8 * (k / 8) + k mod 8) as Hk8 by (Z.div_mod_to_equations; lia).
    destruct (Z.leb_spec (8 * (sB + 1)) k), (Z.ltb_spec k (8 * lB)); cbn [andb].
    + rewrite Z.shiftr_spec by lia. rewrite (proj2 (Z.leb_le start k)), (proj2 (Z.ltb_lt k _)) by lia.
      cbn. f_equal. lia.
    + rewrite (proj2 (Z.eqb_neq (k / 8) sB)) by lia.
      rewrite (proj2 (Z.ltb_ge k (start + size))), andb_false_r by lia. done.
    + destruct (Z.eqb_spec (k / 8) sB) as [Es|Es].
      * rewrite (proj2 (Z.ltb_lt k (start + size))), andb_true_r by lia.
        rewrite (rbit_at rep k b) by (done || by rewrite Es).
        replace (k - 8 * sB) with (k mod 8) by lia.
        destruct (Z.ltb_spec (k mod 8) sb), (Z.leb_spec start k); done || lia.
      * rewrite (proj2 (Z.leb_gt start k)) by lia. done.
    + lia.
Qed.

Lemma HIDPutData_spec :
  ∃ rep', HIDPutData rep len start size value = Ret (kHIDSuccess, rep') ∧
    zlen rep' = zlen rep ∧ bytes_ok rep' ∧
    ∀ k, 0 ≤ k → rbit rep' k = put_bits rep start size value k.
Proof using All.
  pose proof put_geometry as (?&?&?&?&?&?).
  pose proof Hin as (HF & Hlen & Hs & Hz & Hend & Hw).
  unfold HIDPutData. cbv zeta. rewrite (u32_id (start + size - 1)), !land7 by lia.
  fold sB sb lB lb. fold V mask.
  rewrite (proj2 (Z.ltb_ge start 0)), (proj2 (Z.leb_gt size 0)), (proj2 (Z.leb_gt len _)) by lia.
  cbn [orb]. destruct (at_exists rep sB) as [b Hb]; [lia|]. rewrite (proj2 (aget_at _ _ _) Hb).
  cbn [obind]. destruct (Z.eqb_spec sB lB) as [E|E].
  - cbn [obind]. rewrite aset_in by lia. cbn [obind]. eexists. split; [done|].
    rewrite zlen_insert. split; [done|]. split; [apply bytes_ok_insert; [done|apply u8_range]|].
    by apply put_one_byte.
  - rewrite aset_in by lia. cbn [obind].
    destruct (HIDPutData_middle_spec lB (S (Z.to_nat (lB - sB)))
      (<[Z.to_nat sB := u8 (Z.lor (s32 (Z.land (u32 b) (Z.shiftl 1 sb - 1))) V)]> rep) sB (Z.shiftr V 8))
      as (rep1 & -> & Hl1 & HF1 & Hbits1); [|lia|rewrite zlen_insert; lia|lia..|].
    { apply bytes_ok_insert; [done|apply u8_range]. }
    rewrite zlen_insert in Hl1. cbn [obind].
    destruct (at_exists rep1 lB) as [c Hc]; [lia|]. rewrite (proj2 (aget_at _ _ _) Hc). cbn [obind].
    rewrite aset_in by lia. cbn [obind]. eexists. split; [done|].
    rewrite zlen_insert. split; [done|]. split; [apply bytes_ok_insert; [done|apply u8_range]|].
    by apply (put_many_bytes b).
Qed.
End Put.

(** ** What the bit-field store promises to its clients *)
Definition fits (start size : Z) : Prop := start mod 8 + size ≤ 32.

Definition disjoint_fields (s1 z1 s2 z2 : Z) : Prop := s1 + z1 ≤ s2 ∨ s2 + z2 ≤ s1.

Lemma placed_value start size value k :
  0 ≤ start → fits start size → start ≤ k < start + size →
  placed start value k = Z.testbit value (k - start).
Proof.
  unfold fits, placed. intros. pose proof (Z.mod_pos_bound start 8).
  assert (start = 8 * (start / 8) + start mod 8) by (Z.div_mod_to_equations; lia).
  rewrite s32_testbit, Z.min_l, Z.shiftl_spec by lia. f_equal. lia.
Qed.

Lemma put_field_same rep rep' start size value :
  0 ≤ start → 0 ≤ size → fits start size →
  (∀ k, 0 ≤ k → rbit rep' k = put_bits rep start size value k) →
  field rep' start size = value mod 2 ^ size.
Proof.
  intros ? ? Hfit Hbits. apply Z.bits_inj'. intros i Hi. rewrite field_testbit by lia.
  destruct (Z.ltb_spec i size); [|by rewrite Z.mod_pow2_bits_high by lia].
  rewrite Z.mod_pow2_bits_low, Hbits by lia. unfold put_bits.
  rewrite (proj2 (Z.leb_le _ _)), (proj2 (Z.ltb_lt _ _)) by lia. cbn.
  rewrite (placed_value _ size) by (done || lia). f_equal. lia.
Qed.

Lemma put_field_other rep rep' start size value s z :
  0 ≤ s → 0 ≤ z → disjoint_fields s z start size →
  (∀ k, 0 ≤ k → rbit rep' k = put_bits rep start size value k) →
  field rep' s z = field rep s z.
Proof.
  intros ? ? Hd Hbits. apply Z.bits_inj'. intros i Hi. rewrite !field_testbit by lia.
  destruct (Z.ltb_spec i z); [|done]. cbn. rewrite Hbits by lia. unfold put_bits.
  unfold disjoint_fields in Hd.
  destruct (Z.leb_spec start (s + i)), (Z.ltb_spec (s + i) (start + size)); done || lia.
Qed.

(** The contract of a pair of field operations. *)
Class FieldStore (get : list Z → Z → Z → Z → bool → outcome (OSStatus * option Z))
    (put : list Z → Z → Z → Z → Z → outcome (OSStatus * list Z)) : Prop := {
  store_get rep len start size sgn :
    in_report rep len start size → fits start size →
    get rep len start size sgn = Ret (kHIDSuccess,
      Some (if sgn then signed size (field rep start size) else s32 (field rep start size)));
  store_put rep len start size value :
    in_report rep len start size → fits start size →
    ∃ rep', put rep len start size value = Ret (kHIDSuccess, rep') ∧
      zlen rep' = zlen rep ∧ bytes_ok rep' ∧
      field rep' start size = value mod 2 ^ size ∧
      ∀ s z, 0 ≤ s → 0 ≤ z → disjoint_fields s z start size → field rep' s z = field rep s z }.

#[export] Instance HID_FieldStore : FieldStore HIDGetData HIDPutData.
Proof.
  split.
  - intros rep len start size [] Hin Hfit; [by apply HIDGetData_signed|].
    rewrite (HIDGetData_run _ _ _ _ _ Hin). unfold fits, kept in *.
    by rewrite Z.min_l by lia.
  - intros rep len start size value Hin Hfit.
    destruct (HIDPutData_spec rep len start size value Hin) as (rep' & -> & Hl & HF & Hbits).
    destruct Hin as (_ & _ & ? & ? & _).
    exists rep'. split; [done|]. split; [done|]. split; [done|]. split.
    + by eapply put_field_same; [lia|lia|done|].
    + intros. by eapply put_field_other.
Qed.

(** A [size]-bit signed value survives being stored and sign-extended. *)
Lemma signed_mod size value :
  0 < size → - 2 ^ (size - 1) ≤ value < 2 ^ (size - 1) → signed size (value mod 2 ^ size) = value.
Proof.
  intros Hz Hv. assert (2 ^ size = 2 * 2 ^ (size - 1)) as Hp.
  { replace size with (1 + (size - 1)) at 1 by lia. by rewrite Z.pow_add_r by lia. }
  unfold signed. rewrite Z.mod_pow2_bits_low by lia.
  rewrite Z.testbit_odd, Z.shiftr_div_pow2 by lia.
  destruct (Z_lt_le_dec value 0).
  - replace (value / 2 ^ (size - 1)) with (-1) by (apply Z.div_unique with (value + 2 ^ (size - 1)); lia).
    cbn. replace (value mod 2 ^ size) with (value + 2 ^ size); [lia|].
    apply Z.mod_unique with (-1); lia.
  - rewrite Z.div_small by lia. cbn. apply Z.mod_small. lia.
Qed.

Section StoreClient.
Context (get : list Z → Z → Z → Z → bool → outcome (OSStatus * option Z))
  (put : list Z → Z → Z → Z → Z → outcome (OSStatus * list Z)) `{!FieldStore get put}.

(** Store then load. *)
Lemma store_roundtrip rep len start size value (sgn : bool) :
  in_report rep len start size → fits start size →
  (if sgn then - 2 ^ (size - 1) ≤ value < 2 ^ (size - 1) else 0 ≤ value < 2 ^ size) →
  ∃ rep', put rep len start size value = Ret (kHIDSuccess, rep') ∧
    get rep' len start size sgn = Ret (kHIDSuccess, Some (if sgn then value else s32 value)).
Proof using All.
  intros Hin Hfit Hv.
  destruct (store_put rep len start size value Hin Hfit) as (rep' & -> & Hl & HF & Hsame & _).
  destruct Hin as (_ & ? & ? & ? & ?).
  exists rep'. split; [done|]. rewrite store_get, Hsame; [|by repeat split; try lia|done].
  destruct sgn; [by rewrite signed_mod by lia|by rewrite Z.mod_small].
Qed.

(** Storing a field leaves every disjoint field as it was. *)
Lemma store_frame rep len start size value s z sgn :
  in_report rep len start size → fits start size →
  in_report rep len s z → fits s z → disjoint_fields s z start size →
  ∃ rep', put rep len start size value = Ret (kHIDSuccess, rep') ∧
    get rep' len s z sgn = get rep len s z sgn.
Proof using All.
  intros Hin Hfit Hin' Hfit' Hd.
  destruct (store_put rep len start size value Hin Hfit) as (rep' & -> & Hl & HF & _ & Hother).
  pose proof Hin' as (_ & ? & ? & ? & ?).
  exists rep'. split; [done|].
  rewrite !store_get, Hother; [done|lia|lia|done|done|done|by repeat split; try lia|done].
Qed.
End StoreClient.

(** ** No access outside the report *)
Lemma HIDGetData_bytes_safe rep iStartByte iLastByte iLastBit n : ∀ j data,
  0 ≤ iStartByte → j - iStartByte + 1 ≤ Z.of_nat n → j < zlen rep →
  safe (HIDGetData_bytes n rep j iStartByte iLastByte iLastBit data) (fun _ => True).
Proof.
  induction n as [|n IH]; intros j data H0 Hn Hj; cbn [HIDGetData_bytes];
    destruct (Z.leb_spec iStartByte j); try done; [lia|].
  apply wp_bind. eapply wp_mono; [apply aget_safe; lia|intros b Hb|done]. apply IH; lia.
Qed.

(** Whatever the field, [HIDGetData] reads only inside the report; only the
    sign extension of a field wider than 32 bits is undefined. *)
Lemma HIDGetData_safe rep len start size (sgn : bool) :
  len ≤ zlen rep → 0 ≤ start → (sgn = true → size ≤ 32) →
  safe (HIDGetData rep len start size sgn)
    (fun '(st, v) => (st = kHIDSuccess ∧ is_Some v) ∨ (st = kHIDBadParameterErr ∧ v = None)).
Proof.
  intros Hl H0 Hw. unfold HIDGetData. cbv zeta. destruct (_ || _) eqn:E; [by right|].
  apply orb_false_iff in E as [[Hz%Z.eqb_neq Hlen%Z.leb_gt]%orb_false_iff Hs%Z.ltb_ge].
  apply wp_bind. eapply wp_mono; [apply HIDGetData_bytes_safe; Z.div_mod_to_equations; lia|intros data _|done].
  destruct sgn; [|by left]. specialize (Hw eq_refl). unfold HIDGetData_extend.
  destruct (Z.ltb_spec 1 size); [|by left]. rewrite (proj2 (Z.leb_gt 32 (size - 1))) by lia. by left.
Qed.

(** Both reject an empty field and one that ends past the report, and touch
    nothing. *)
Lemma HIDGetData_reject rep len start size sgn :
  size = 0 ∨ len ≤ u32 (start + size - 1) / 8 →
  HIDGetData rep len start size sgn = Ret (kHIDBadParameterErr, None).
Proof.
  intros Hbad. unfold HIDGetData. cbv zeta.
  replace ((size =? 0) || (len <=? u32 (start + size - 1) / 8)) with true; [done|].
  destruct Hbad as [->|]; [done|]. by rewrite (proj2 (Z.leb_le len _)), orb_true_r.
Qed.

Lemma HIDPutData_reject rep len start size value :
  0 ≤ start → size = 0 ∨ len ≤ u32 (start + size - 1) / 8 →
  HIDPutData rep len start size value = Ret (kHIDBadParameterErr, rep).
Proof.
  intros H0 Hbad. unfold HIDPutData. cbv zeta.
  rewrite <- (orb_assoc (start <? 0)).
  replace ((size <=? 0) || (len <=? u32 (start + size - 1) / 8)) with true; [by rewrite orb_true_r|].
  destruct Hbad as [->|]; [done|]. by rewrite (proj2 (Z.leb_le len _)), orb_true_r.
Qed.

(** ** Theorems *)

(** C28. [HIDPutData] then [HIDGetData] on the same field gives the value
    back, signed or unsigned, for every value the field can hold, when the
    field and its bit offset fit 32 bits. *)
Theorem put_get_roundtrip rep len start size value (sgn : bool) :
  in_report rep len start size → fits start size →
  (if sgn then - 2 ^ (size - 1) ≤ value < 2 ^ (size - 1) else 0 ≤ value < 2 ^ size) →
  ∃ rep', HIDPutData rep len start size value = Ret (kHIDSuccess, rep') ∧
    HIDGetData rep' len start size sgn = Ret (kHIDSuccess, Some (if sgn then value else s32 value)).
Proof. apply store_roundtrip, HID_FieldStore. Qed.

(** C20. [HIDPutData] replaces the digits of its field and no other digit of
    the report: digit [k] of the result is digit [k - start] of the value
    inside the field and unchanged outside; the length is unchanged. *)
Theorem put_replaces_digits rep len start size value :
  in_report rep len start size → fits start size →
  ∃ rep', HIDPutData rep len start size value = Ret (kHIDSuccess, rep') ∧ zlen rep' = zlen rep ∧
    ∀ k, 0 ≤ k → rbit rep' k =
      if (start <=? k) && (k <? start + size) then Z.testbit value (k - start) else rbit rep k.
Proof.
  intros Hin Hfit. destruct (HIDPutData_spec rep len start size value Hin) as (rep' & -> & Hl & _ & Hb).
  exists rep'. split; [done|]. split; [done|]. intros k Hk. rewrite Hb by done. unfold put_bits.
  destruct (Z.leb_spec start k), (Z.ltb_spec k (start + size)); cbn [andb]; try done.
  destruct Hin as (_ & _ & ? & _). by apply (placed_value start size).
Qed.

(** [HIDGetData] returns the binary digits of its field: exactly the
    field, sign-extended if asked for, when the field and its bit offset fit
    32 bits; in general, unsigned, the field cut to the digits the 32-bit
    accumulator holds. *)
Theorem get_reads_digits rep len start size :
  in_report rep len start size →
  HIDGetData rep len start size false =
    Ret (kHIDSuccess, Some (s32 (field rep start (kept start size)))) ∧
  (fits start size →
   HIDGetData rep len start size true = Ret (kHIDSuccess, Some (signed size (field rep start size)))).
Proof.
  intros Hin. split; [by rewrite (HIDGetData_run _ _ _ _ _ Hin)|]. by apply HIDGetData_signed.
Qed.

(** A field that is empty or ends past the stated report length is
    rejected by both functions with the parameter error, before any access:
    nothing is stored. *)
Theorem bad_fields_rejected rep len start size value sgn :
  0 ≤ start → size = 0 ∨ len ≤ u32 (start + size - 1) / 8 →
  HIDGetData rep len start size sgn = Ret (kHIDBadParameterErr, None) ∧
  HIDPutData rep len start size value = Ret (kHIDBadParameterErr, rep).
Proof. intros. split; [by apply HIDGetData_reject|by apply HIDPutData_reject]. Qed.

(** The sign extension of a field wider than 32 bits shifts by the
    width of the type or more, which C leaves undefined. *)
Theorem wide_sign_extension_undefined rep len start size :
  in_report rep len start size → 32 < size →
  HIDGetData rep len start size true = Fault BadShift.
Proof.
  intros Hin Hw. rewrite (HIDGetData_run _ _ _ _ _ Hin). unfold HIDGetData_extend.
  by rewrite (proj2 (Z.ltb_lt 1 size)), (proj2 (Z.leb_le 32 (size - 1))) by lia.
Qed.

(** The theorems at a 20-bit field that starts in the middle of a byte. *)
Definition sample_report : list Z := [0xff; 0x0f; 0x00; 0xf0; 0x55; 0x0a; 0x80].

Lemma sample_in_report size : 0 < size ≤ 48 → in_report sample_report 7 5 size.
Proof. intros. split; [repeat constructor; lia|]. change (zlen sample_report) with 7. lia. Qed.

Lemma put_get_roundtrip_witness :
  ∃ rep', HIDPutData sample_report 7 5 20 (-300000) = Ret (kHIDSuccess, rep') ∧
    HIDGetData rep' 7 5 20 true = Ret (kHIDSuccess, Some (-300000)).
Proof.
  apply (put_get_roundtrip sample_report 7 5 20 (-300000) true); [apply sample_in_report; lia|..];
    by vm_compute.
Defined.

Lemma put_replaces_digits_witness :
  ∃ rep', HIDPutData sample_report 7 5 20 77 = Ret (kHIDSuccess, rep') ∧ zlen rep' = 7 ∧
    ∀ k, 0 ≤ k → rbit rep' k =
      if (5 <=? k) && (k <? 5 + 20) then Z.testbit 77 (k - 5) else rbit sample_report k.
Proof.
  apply (put_replaces_digits sample_report 7 5 20 77); [apply sample_in_report; lia|by vm_compute].
Defined.

Lemma get_reads_digits_witness :
  HIDGetData sample_report 7 5 20 false = Ret (kHIDSuccess, Some (field sample_report 5 20)) ∧
  HIDGetData sample_report 7 5 20 true = Ret (kHIDSuccess, Some (signed 20 (field sample_report 5 20))).
Proof.
  destruct (get_reads_digits sample_report 7 5 20) as [H1 H2]; [apply sample_in_report; lia|].
  split; [rewrite H1; by vm_compute|apply H2; by vm_compute].
Defined.

Lemma bad_fields_rejected_witness :
  HIDGetData sample_report 7 50 8 true = Ret (kHIDBadParameterErr, None) ∧
  HIDPutData sample_report 7 50 8 3 = Ret (kHIDBadParameterErr, sample_report).
Proof. apply (bad_fields_rejected sample_report 7 50 8 3 true); [lia|by right; vm_compute]. Defined.

Lemma wide_sign_extension_undefined_witness :
  HIDGetData sample_report 7 5 40 true = Fault BadShift.
Proof. apply wide_sign_extension_undefined; [apply sample_in_report; lia|lia]. Defined.
