(* ===== verification/HIDUsage.v ===== *)
(** * Usages of a report item

    [HIDUsageInRange.c], [HIDHasUsage.c], [HIDUsageAndPageFromIndex.c] and
    [HIDIsButtonOrValue.c].  A pointer the code compares with [NULL] is an
    [option]; a [UInt32] met with an [SInt32] compares unsigned.  The
    reference is the list of usages an item spells out, ranges expanded. *)
From S2P Require Import Prelude HIDTypes HIDNextItem PoolAlloc HIDCount HIDParse HIDOpenClose.
From S2P Require Import HIDParseInv HIDLayout HIDOpenSafe.

Record HIDUsageAndPage := mkHIDUsageAndPage { up_usage : Z; up_usagePage : Z }.

#[export] Instance HIDUsageAndPage_eq_dec : EqDecision HIDUsageAndPage.
Proof. solve_decision. Defined.

(** ** The code *)
Definition HIDUsageInRange (ptUsage : option HIDP_UsageItem) (usagePage usage : Z) : bool :=
  match ptUsage with
  | None => false
  | Some ui =>
      if negb (usagePage =? 0) && negb (ui_usagePage ui =? usagePage) then false
      else if usage =? 0 then true
      else if ui_isRange ui then
        negb ((usage <? u32 (ui_usageMinimum ui)) || (u32 (ui_usageMaximum ui) <? usage))
      else ui_usage ui =? usage
  end.

(** The number of usages a range covers, "off by one adjustment AFTER sign
    correction". *)
Definition range_usages (ui : HIDP_UsageItem) : Z :=
  let iUsages := s32 (ui_usageMaximum ui - ui_usageMinimum ui) in
  let iUsages := if iUsages <? 0 then s32 (- iUsages) else iUsages in
  s32 (iUsages + 1).

(** The loop of [HIDHasUsage] over [n] more usage items.  [piIndex] and
    [piCount] are the values last stored through the two pointers. *)
Fixpoint HIDHasUsage_loop (n : nat) (pd : HIDPreparsedData) (ri : HIDReportItem)
    (usagePage usage i iUsageIndex : Z) (piIndex piCount : option Z)
    : outcome (bool * option Z * option Z) :=
  match n with
  | O => Ret (false, piIndex, piCount)
  | S n =>
      let* ui := aget (pd_usageItems pd) (ri_firstUsageItem ri + i) in
      let bOnPage := (usagePage =? 0) || (usagePage =? ui_usagePage ui) in
      let last := i + 1 =? ri_usageItemCount ri in
      let counts left := Some (if 1 <? left then u32 left else 1) in
      if ui_isRange ui then
        let hit := (u32 (ui_usageMinimum ui) <=? usage) && (usage <=? u32 (ui_usageMaximum ui)) in
        let piIndex := if hit then Some (u32 (iUsageIndex + (ui_usageMinimum ui - usage))) else piIndex in
        let piCount :=
          if hit then
            if last && (usage =? u32 (ui_usageMaximum ui))
            then counts (s32 (g_reportCount (ri_globals ri) - iUsageIndex - 1))
            else Some 1
          else piCount in
        if hit && bOnPage then Ret (true, piIndex, piCount)
        else HIDHasUsage_loop n pd ri usagePage usage (i + 1) (u32 (iUsageIndex + range_usages ui))
               piIndex piCount
      else
        let hit := usage =? ui_usage ui in
        let piIndex := if hit then Some iUsageIndex else piIndex in
        let piCount :=
          if hit then
            if last then counts (s32 (g_reportCount (ri_globals ri) - iUsageIndex)) else Some 1
          else piCount in
        if hit && bOnPage then Ret (true, piIndex, piCount)
        else HIDHasUsage_loop n pd ri usagePage usage (i + 1) (u32 (iUsageIndex + 1)) piIndex piCount
  end.

Definition HIDHasUsage (ptPreparsedData : option HIDPreparsedData)
    (ptReportItem : option HIDReportItem) (usagePage usage : Z)
    : outcome (bool * option Z * option Z) :=
  match ptPreparsedData, ptReportItem with
  | Some pd, Some ri =>
      if negb (pd_hidTypeIfValid pd =? kHIDOSType) then Ret (false, None, None)
      else HIDHasUsage_loop (Z.to_nat (ri_usageItemCount ri)) pd ri usagePage usage 0 0 None None
  | _, _ => Ret (false, None, None)
  end.

(** The loop of [HIDUsageAndPageFromIndex]; [ptUsageItem] is the usage item
    of the previous iteration, if any.  [None]: nothing stored. *)
Fixpoint HIDUsageAndPageFromIndex_loop (n : nat) (pd : HIDPreparsedData)
    (iUsageItem index : Z) (ptUsageItem : option HIDP_UsageItem) : outcome (option HIDUsageAndPage) :=
  match n with
  | O =>
      Ret (match ptUsageItem with
           | Some ui => Some (mkHIDUsageAndPage
               (if ui_isRange ui then u32 (ui_usageMaximum ui) else ui_usage ui) (ui_usagePage ui))
           | None => None
           end)
  | S n =>
      let* ui := aget (pd_usageItems pd) iUsageItem in
      if ui_isRange ui then
        let iUsages := range_usages ui in
        if index <? u32 iUsages then
          Ret (Some (mkHIDUsageAndPage (u32 (ui_usageMinimum ui + index)) (ui_usagePage ui)))
        else HIDUsageAndPageFromIndex_loop n pd (iUsageItem + 1) (u32 (index - iUsages)) (Some ui)
      else
        if index =? 0 then Ret (Some (mkHIDUsageAndPage (ui_usage ui) (ui_usagePage ui)))
        else HIDUsageAndPageFromIndex_loop n pd (iUsageItem + 1) (u32 (index - 1)) (Some ui)
  end.

(** [ptUsageAndPage] is null, or points at a struct whose contents may be
    uninitialised ([Some None]); the result is its new contents. *)
Definition HIDUsageAndPageFromIndex (ptPreparsedData : option HIDPreparsedData)
    (ptReportItem : option HIDReportItem) (index : Z)
    (ptUsageAndPage : option (option HIDUsageAndPage)) : outcome (option HIDUsageAndPage) :=
  match ptUsageAndPage, ptReportItem, ptPreparsedData with
  | None, _, _ => Fault NullDeref
  | Some old, Some ri, Some pd =>
      let* new := HIDUsageAndPageFromIndex_loop (Z.to_nat (ri_usageItemCount ri)) pd
                    (ri_firstUsageItem ri) index None in
      Ret (match new with Some _ => new | None => old end)
  | Some old, _, _ =>
      Ret (match old with Some up => Some (mkHIDUsageAndPage (up_usage up) 0) | None => None end)
  end.

(** "Remove items that are constant and have no usage", shared by the two
    classifiers. *)
Definition bit_filler (ri : HIDReportItem) (pd : HIDPreparsedData) : outcome bool :=
  if Z.land (ri_dataModes ri) kHIDDataConstantBit =? kHIDDataConstant then
    if ri_usageItemCount ri =? 0 then Ret true
    else if u32 (ri_firstUsageItem ri) <? pd_usageItemCount pd then
      let* ui := aget (pd_usageItems pd) (ri_firstUsageItem ri) in
      Ret ((ui_isRange ui && (ui_usageMinimum ui =? 0) && (ui_usageMaximum ui =? 0))
           && (negb (ui_isRange ui) && (ui_usage ui =? 0)))
    else Ret false
  else Ret false.

Definition HIDIsButton (ptReportItem : option HIDReportItem) (pd : HIDPreparsedData) : outcome bool :=
  match ptReportItem with
  | None => Ret false
  | Some ri =>
      let* filler := bit_filler ri pd in
      if filler then Ret false
      else Ret ((Z.land (ri_dataModes ri) kHIDDataArrayBit =? kHIDDataArray)
                || (g_reportSize (ri_globals ri) =? 1))
  end.

Definition HIDIsVariable (ptReportItem : option HIDReportItem) (pd : HIDPreparsedData) : outcome bool :=
  match ptReportItem with
  | None => Ret false
  | Some ri =>
      let* filler := bit_filler ri pd in
      if filler then Ret false
      else Ret (negb (Z.land (ri_dataModes ri) kHIDDataArrayBit =? kHIDDataArray)
                && negb (g_reportSize (ri_globals ri) =? 1))
  end.

(** ** The reference: the usages of an item, ranges expanded *)
Definition item_usages (ui : HIDP_UsageItem) : list HIDUsageAndPage :=
  if ui_isRange ui then
    map (fun u => mkHIDUsageAndPage u (ui_usagePage ui))
      (seqZ (ui_usageMinimum ui) (ui_usageMaximum ui - ui_usageMinimum ui + 1))
  else [mkHIDUsageAndPage (ui_usage ui) (ui_usagePage ui)].

Definition usages_of (its : list HIDP_UsageItem) : list HIDUsageAndPage := its ≫= item_usages.

(** The usage items of a report item. *)
Definition usage_items (pd : HIDPreparsedData) (ri : HIDReportItem) : list HIDP_UsageItem :=
  take (Z.to_nat (ri_usageItemCount ri)) (drop (Z.to_nat (ri_firstUsageItem ri)) (pd_usageItems pd)).

(** No range reaches below zero (every usage the parser reads is 16 bits or,
    unextended, at most 32 bits; a range is stored as two [SInt32]). *)
Definition plain_item (ui : HIDP_UsageItem) : Prop :=
  is_u32 (ui_usage ui) ∧ (ui_isRange ui = true → 0 ≤ ui_usageMinimum ui ≤ ui_usageMaximum ui) ∧
  ui_usageMaximum ui < 2147483648.

Lemma range_usages_plain ui :
  plain_item ui → ui_isRange ui = true →
  u32 (range_usages ui) = ui_usageMaximum ui - ui_usageMinimum ui + 1 ∧
  ∀ z, u32 (z - range_usages ui) = u32 (z - (ui_usageMaximum ui - ui_usageMinimum ui + 1)).
Proof.
  intros (_ & Hr & Hmax) E. specialize (Hr E). unfold range_usages. cbv zeta.
  rewrite (s32_id (ui_usageMaximum ui - ui_usageMinimum ui)) by lia.
  rewrite (proj2 (Z.ltb_ge (ui_usageMaximum ui - ui_usageMinimum ui) 0)), u32_s32 by lia. split.
  - apply u32_id. lia.
  - intros z. destruct (decide (ui_usageMaximum ui - ui_usageMinimum ui = 2147483647)) as [->|].
    + rewrite s32_high by lia. Transparent u32. unfold u32. Opaque u32.
      replace (z - (2147483647 + 1 - 4294967296)) with (z - (2147483647 + 1) + 1 * 4294967296) by lia.
      by rewrite Z.mod_add.
    + by rewrite s32_id by lia.
Qed.

Lemma item_usages_lookup ui k :
  plain_item ui → ui_isRange ui = true →
  zlen (item_usages ui) = ui_usageMaximum ui - ui_usageMinimum ui + 1 ∧
  (0 ≤ k < zlen (item_usages ui) →
   item_usages ui !! Z.to_nat k = Some (mkHIDUsageAndPage (ui_usageMinimum ui + k) (ui_usagePage ui))).
Proof.
  intros (_ & Hr & _) E. specialize (Hr E). unfold item_usages. rewrite E.
  assert (zlen (map (λ u, mkHIDUsageAndPage u (ui_usagePage ui))
    (seqZ (ui_usageMinimum ui) (ui_usageMaximum ui - ui_usageMinimum ui + 1)))
    = ui_usageMaximum ui - ui_usageMinimum ui + 1) as ->.
  { unfold zlen. rewrite length_map, length_seqZ. lia. }
  split; [done|]. intros Hk. rewrite list_lookup_fmap, lookup_seqZ_lt by lia. cbn. do 2 f_equal. lia.
Qed.

(** The usage the code falls back to: the last one of the last item. *)
Definition last_usage (ui : HIDP_UsageItem) : HIDUsageAndPage :=
  mkHIDUsageAndPage (if ui_isRange ui then u32 (ui_usageMaximum ui) else ui_usage ui) (ui_usagePage ui).

Lemma last_item_usages ui : plain_item ui → last (item_usages ui) = Some (last_usage ui).
Proof.
  intros Hp. unfold last_usage. destruct (ui_isRange ui) eqn:E; [|by unfold item_usages; rewrite E].
  pose proof Hp as (_ & Hr & Hm). specialize (Hr E).
  destruct (item_usages_lookup ui (zlen (item_usages ui) - 1) Hp E) as [Hl Hk].
  rewrite last_lookup. unfold zlen in Hk. replace (Z.to_nat (Z.of_nat (length (item_usages ui)) - 1))
    with (pred (length (item_usages ui))) in Hk by lia.
  rewrite Hk by (unfold zlen in Hl; lia). unfold zlen in Hl. rewrite Hl, u32_id by lia. do 2 f_equal. lia.
Qed.

Definition nth_usage (us : list HIDUsageAndPage) (index : Z) (old : option HIDUsageAndPage)
    : option HIDUsageAndPage :=
  match us !! Z.to_nat index with
  | Some u => Some u
  | None => match last us with Some u => Some u | None => old end
  end.

Lemma nth_usage_cons ui its index old :
  plain_item ui → 0 ≤ index →
  nth_usage (item_usages ui ++ usages_of its) index old =
  if index <? zlen (item_usages ui) then item_usages ui !! Z.to_nat index
  else nth_usage (usages_of its) (index - zlen (item_usages ui)) (Some (last_usage ui)).
Proof.
  intros Hp Hi. unfold nth_usage. destruct (Z.ltb_spec index (zlen (item_usages ui))) as [Hlt|Hge].
  - destruct (at_exists (item_usages ui) index) as [u [_ Hu]]; [lia|].
    by rewrite lookup_app_l_Some with (x := u), Hu by done.
  - rewrite lookup_app_r by (unfold zlen in *; lia).
    replace (Z.to_nat index - length (item_usages ui))%nat
      with (Z.to_nat (index - zlen (item_usages ui))) by (unfold zlen in *; lia).
    case_match; [done|]. rewrite last_app. destruct (last (usages_of its)); [done|].
    by rewrite last_item_usages.
Qed.

Lemma HIDUsageAndPageFromIndex_loop_spec pd its : ∀ i index prev rest,
  Forall plain_item its → 0 ≤ i → is_u32 index → drop (Z.to_nat i) (pd_usageItems pd) = its ++ rest →
  HIDUsageAndPageFromIndex_loop (length its) pd i index prev =
    Ret (nth_usage (usages_of its) index (last_usage <$> prev)).
Proof.
  induction its as [|ui its IH]; intros i index prev rest HF Hi Hix Hd;
    cbn [HIDUsageAndPageFromIndex_loop length].
  { unfold nth_usage. cbn. by destruct prev. }
  apply Forall_cons in HF as [Hp HF].
  change (usages_of (ui :: its)) with (item_usages ui ++ usages_of its).
  rewrite nth_usage_cons by (done || lia).
  destruct (drop_cons_at _ _ _ _ Hi Hd) as [Ha Hd'].
  rewrite (proj2 (aget_at _ _ _) Ha). cbn [obind].
  destruct (ui_isRange ui) eqn:E.
  - destruct (range_usages_plain ui Hp E) as [Hn Hsub].
    destruct (item_usages_lookup ui index Hp E) as [Hl Hk].
    pose proof Hp as (_ & Hr & Hm). specialize (Hr E).
    rewrite Hn, <- Hl. destruct (Z.ltb_spec index (zlen (item_usages ui))).
    + rewrite Hk, u32_id by lia. done.
    + rewrite Hsub, <- Hl, u32_id by lia.
      by rewrite (IH (i + 1) _ (Some ui) rest) by (done || lia).
  - assert (item_usages ui = [mkHIDUsageAndPage (ui_usage ui) (ui_usagePage ui)]) as ->
      by (unfold item_usages; by rewrite E).
    change (zlen [_]) with 1. destruct (Z.eqb_spec index 0) as [->|]; [done|].
    rewrite (proj2 (Z.ltb_ge index 1)), u32_id by lia.
    by rewrite (IH (i + 1) _ (Some ui) rest) by (done || lia).
Qed.

(** The window of a well-formed report item is inside the usage table. *)
Lemma usage_items_window pd ri :
  preparsed_ok pd → report_item_ok pd ri →
  0 ≤ ri_firstUsageItem ri ∧
  Z.to_nat (ri_usageItemCount ri) = length (usage_items pd ri) ∧
  drop (Z.to_nat (ri_firstUsageItem ri)) (pd_usageItems pd) =
    usage_items pd ri ++ drop (Z.to_nat (ri_usageItemCount ri))
      (drop (Z.to_nat (ri_firstUsageItem ri)) (pd_usageItems pd)).
Proof.
  intros [] []. unfold window, usage_items in *. split; [lia|]. split; [|by rewrite take_drop].
  rewrite length_take, length_drop. unfold zlen in *. lia.
Qed.

Lemma FromIndex_nth pd ri index old :
  preparsed_ok pd → report_item_ok pd ri → Forall plain_item (usage_items pd ri) → is_u32 index →
  HIDUsageAndPageFromIndex (Some pd) (Some ri) index (Some old) =
    Ret (nth_usage (usages_of (usage_items pd ri)) index old).
Proof.
  intros Hpd Hri HF Hix. destruct (usage_items_window _ _ Hpd Hri) as (H0 & Hn & Hd).
  unfold HIDUsageAndPageFromIndex. rewrite Hn.
  rewrite (HIDUsageAndPageFromIndex_loop_spec pd _ _ index None _ HF H0 Hix Hd). cbn [obind fmap option_fmap option_map].
  unfold nth_usage. change (last_usage <$> None) with (@None HIDUsageAndPage).
  destruct (_ !! _); [done|]. by destruct (last _).
Qed.

(** ** [HIDHasUsage] searches the item's usages *)

(** A usage item the caller's page and usage select. *)
Definition selects (usagePage usage : Z) (ui : HIDP_UsageItem) : bool :=
  ((usagePage =? 0) || (usagePage =? ui_usagePage ui)) &&
  (if ui_isRange ui then (ui_usageMinimum ui <=? usage) && (usage <=? ui_usageMaximum ui)
   else usage =? ui_usage ui).

Lemma HIDHasUsage_loop_found pd ri usagePage usage its : ∀ i iUsageIndex piIndex piCount rest,
  Forall plain_item its → 0 ≤ ri_firstUsageItem ri + i → is_u32 usage →
  drop (Z.to_nat (ri_firstUsageItem ri + i)) (pd_usageItems pd) = its ++ rest →
  ∃ idx cnt,
    HIDHasUsage_loop (length its) pd ri usagePage usage i iUsageIndex piIndex piCount =
      Ret (existsb (selects usagePage usage) its, idx, cnt) ∧
    (existsb (selects usagePage usage) its = true → is_Some idx ∧ is_Some cnt).
Proof.
  induction its as [|ui its IH]; intros i iUsageIndex piIndex piCount rest HF Hi Hu Hd;
    cbn [HIDHasUsage_loop length existsb].
  { by exists piIndex, piCount. }
  apply Forall_cons in HF as [Hp HF].
  destruct (drop_cons_at _ _ _ _ Hi Hd) as [Ha Hd'].
  rewrite (proj2 (aget_at _ _ _) Ha). cbn [obind]. unfold selects at 1 3.
  destruct (ui_isRange ui) eqn:E.
  - pose proof Hp as (_ & Hr & Hm). specialize (Hr E). rewrite (u32_id (ui_usageMinimum ui)), (u32_id (ui_usageMaximum ui)) by lia.
    rewrite (andb_comm (_ || _)). destruct ((_ <=? _) && (_ <=? _) && (_ || _)) eqn:Eh.
    { apply andb_prop in Eh as [-> _]. eexists _, _. split; [done|]. by case_match. }
    cbn [orb]. apply IH with rest; [done|lia|done|]. by rewrite Z.add_assoc.
  - rewrite (andb_comm (_ || _)). destruct ((_ =? _) && (_ || _)) eqn:Eh.
    { apply andb_prop in Eh as [-> _]. eexists _, _. split; [done|]. by case_match. }
    cbn [orb]. apply IH with rest; [done|lia|done|]. by rewrite Z.add_assoc.
Qed.

Lemma HasUsage_found pd ri usagePage usage :
  preparsed_ok pd → pd_hidTypeIfValid pd = kHIDOSType → report_item_ok pd ri →
  Forall plain_item (usage_items pd ri) → is_u32 usage →
  ∃ idx cnt, HIDHasUsage (Some pd) (Some ri) usagePage usage =
      Ret (existsb (selects usagePage usage) (usage_items pd ri), idx, cnt) ∧
    (existsb (selects usagePage usage) (usage_items pd ri) = true → is_Some idx ∧ is_Some cnt).
Proof.
  intros Hpd Hv Hri HF Hu. destruct (usage_items_window _ _ Hpd Hri) as (H0 & Hn & Hd).
  unfold HIDHasUsage. rewrite Hv, Z.eqb_refl. cbn [negb]. rewrite Hn.
  eapply HIDHasUsage_loop_found; [done|lia|done|]. by rewrite Z.add_0_r.
Qed.

Lemma selects_spec usagePage usage ui :
  selects usagePage usage ui = true ↔
  ∃ up, up ∈ item_usages ui ∧ up_usage up = usage ∧ (usagePage = 0 ∨ usagePage = up_usagePage up).
Proof.
  unfold selects, item_usages. rewrite andb_true_iff, orb_true_iff, !Z.eqb_eq.
  destruct (ui_isRange ui) eqn:E.
  - rewrite andb_true_iff, !Z.leb_le. split.
    + intros [Hp Hu]. exists (mkHIDUsageAndPage usage (ui_usagePage ui)). split; [|done].
      apply list_elem_of_fmap. exists usage. split; [done|]. apply elem_of_seqZ. lia.
    + intros (up & (u & -> & Hu%elem_of_seqZ)%list_elem_of_fmap & <- & Hp). cbn in *. split; [done|lia].
  - rewrite Z.eqb_eq. split.
    + intros [Hp ->]. eexists. split; [by apply list_elem_of_singleton|]. done.
    + intros (up & ->%list_elem_of_singleton & <- & Hp). done.
Qed.

Lemma existsb_selects usagePage usage its :
  existsb (selects usagePage usage) its = true ↔
  ∃ up, up ∈ usages_of its ∧ up_usage up = usage ∧ (usagePage = 0 ∨ usagePage = up_usagePage up).
Proof.
  rewrite existsb_exists. setoid_rewrite selects_spec. unfold usages_of. split.
  - intros (ui & Hin & up & Hup & ?). exists up. split; [|done].
    apply list_elem_of_bind. exists ui. split; [done|]. by apply list_elem_of_In.
  - intros (up & (ui & Hup & Hin)%list_elem_of_bind & ?). exists ui. rewrite <- list_elem_of_In.
    split; [done|]. by exists up.
Qed.

Lemma UsageInRange_selects ui usagePage usage :
  plain_item ui → usage ≠ 0 → HIDUsageInRange (Some ui) usagePage usage = selects usagePage usage ui.
Proof.
  intros (Hu & Hr & Hm) H0. unfold HIDUsageInRange, selects. rewrite (Z.eqb_sym usagePage (ui_usagePage ui)).
  destruct (usagePage =? 0), (ui_usagePage ui =? usagePage); cbn [negb andb orb]; try done;
    rewrite (proj2 (Z.eqb_neq usage 0)) by done;
    (destruct (ui_isRange ui) eqn:E; [|apply Z.eqb_sym]); specialize (Hr eq_refl);
    rewrite !u32_id by lia; rewrite negb_orb, <- !Z.leb_antisym; done.
Qed.

(** On items without ranges the index [HIDHasUsage] stores is the position
    of the usage, and [HIDUsageAndPageFromIndex] maps it back. *)
Definition single_item (ui : HIDP_UsageItem) : Prop := ui_isRange ui = false ∧ is_u32 (ui_usage ui).

Lemma HIDHasUsage_loop_single pd ri usagePage usage its : ∀ i piIndex piCount rest,
  Forall single_item its → 0 ≤ ri_firstUsageItem ri + i → 0 ≤ i → i + zlen its < 4294967296 →
  drop (Z.to_nat (ri_firstUsageItem ri + i)) (pd_usageItems pd) = its ++ rest →
  match HIDHasUsage_loop (length its) pd ri usagePage usage i i piIndex piCount with
  | Ret (true, idx, _) => ∃ k up, idx = Some (i + k) ∧ 0 ≤ k ∧
      usages_of its !! Z.to_nat k = Some up ∧
      up_usage up = usage ∧ (usagePage = 0 ∨ usagePage = up_usagePage up)
  | Ret (false, _, _) => True
  | Fault _ => False
  end.
Proof.
  induction its as [|ui its IH]; intros i piIndex piCount rest HF Hi H0 Hl Hd;
    cbn [HIDHasUsage_loop length]; [done|].
  apply Forall_cons in HF as [[E Hu] HF].
  destruct (drop_cons_at _ _ _ _ Hi Hd) as [Ha Hd'].
  rewrite (proj2 (aget_at _ _ _) Ha). cbn [obind]. rewrite E. rewrite zlen_cons in Hl.
  pose proof (zlen_nonneg its).
  change (usages_of (ui :: its)) with (item_usages ui ++ usages_of its).
  assert (item_usages ui = [mkHIDUsageAndPage (ui_usage ui) (ui_usagePage ui)]) as ->
    by (unfold item_usages; by rewrite E).
  destruct ((usage =? ui_usage ui) && _) eqn:Eh.
  { apply andb_prop in Eh as [Eu Ep]. rewrite Eu. apply Z.eqb_eq in Eu as ->.
    exists 0, (mkHIDUsageAndPage (ui_usage ui) (ui_usagePage ui)). rewrite Z.add_0_r.
    split; [done|]. split; [done|]. split; [done|]. split; [done|].
    apply orb_true_iff in Ep as [->%Z.eqb_eq | ->%Z.eqb_eq]; auto. }
  rewrite u32_id by lia. match goal with |- context [HIDHasUsage_loop _ _ _ _ _ _ _ ?a ?b] =>
    specialize (IH (i + 1) a b rest HF) end.
  rewrite Z.add_assoc in IH. specialize (IH ltac:(lia) ltac:(lia) ltac:(lia) Hd').
  destruct (HIDHasUsage_loop _ _ _ _ _ _ _ _ _) as [[[[] idx] cnt]|]; [|done..].
  destruct IH as (k & up & -> & Hk & Hlk & ?). exists (1 + k), up.
  split; [f_equal; lia|]. split; [lia|]. split; [|done].
  by replace (Z.to_nat (1 + k)) with (S (Z.to_nat k)) by lia.
Qed.

Lemma usages_of_single its : Forall single_item its → zlen (usages_of its) = zlen its.
Proof.
  induction 1 as [|ui its [E _] _ IH]; [done|].
  change (usages_of (ui :: its)) with (item_usages ui ++ usages_of its).
  rewrite zlen_app, zlen_cons, IH. unfold item_usages. by rewrite E.
Qed.

Lemma single_plain its :
  Forall single_item its → Forall (fun ui => ui_usageMaximum ui < 2147483648) its → Forall plain_item its.
Proof.
  intros H1 H2. apply Forall_lookup. intros i ui Hi. rewrite Forall_lookup in H1, H2.
  destruct (H1 _ _ Hi) as [E ?]. specialize (H2 _ _ Hi). cbn in H2. split; [done|]. by rewrite E.
Qed.

Lemma HasUsage_index_single pd ri usagePage usage old k cnt :
  preparsed_ok pd → pd_hidTypeIfValid pd = kHIDOSType → report_item_ok pd ri →
  Forall single_item (usage_items pd ri) →
  Forall (fun ui => ui_usageMaximum ui < 2147483648) (usage_items pd ri) →
  ri_usageItemCount ri < 4294967296 →
  HIDHasUsage (Some pd) (Some ri) usagePage usage = Ret (true, Some k, cnt) →
  ∃ up, HIDUsageAndPageFromIndex (Some pd) (Some ri) k (Some old) = Ret (Some up) ∧
    up_usage up = usage ∧ (usagePage = 0 ∨ usagePage = up_usagePage up).
Proof.
  intros Hpd Hv Hri HF HM Hc H. destruct (usage_items_window _ _ Hpd Hri) as (H0 & Hn & Hd).
  pose proof (ro_usages _ _ Hri) as (_ & Hcnt & _).
  unfold HIDHasUsage in H. rewrite Hv, Z.eqb_refl in H. cbn [negb] in H. rewrite Hn in H.
  pose proof (λ r, HIDHasUsage_loop_single pd ri usagePage usage _ 0 None None r HF) as Hs.
  setoid_rewrite Z.add_0_r in Hs.
  specialize (Hs _ H0 (Z.le_refl 0) ltac:(unfold zlen; rewrite <- Hn; lia) Hd). rewrite H in Hs.
  destruct Hs as (k' & up & [= ->] & Hk & Hlk & Hup). exists up. split; [|done].
  pose proof (lookup_lt_Some _ _ _ Hlk) as Hlt.
  pose proof (usages_of_single _ HF) as Hul. unfold zlen in Hul.
  rewrite Z.add_0_l, FromIndex_nth; [|done|done|by apply single_plain|lia].
  unfold nth_usage. by rewrite Hlk.
Qed.

(** A range gives the index with its sign reversed. *)
Lemma HasUsage_range_index pd ri ui its usagePage usage :
  pd_hidTypeIfValid pd = kHIDOSType → 0 ≤ ri_firstUsageItem ri → 0 < ri_usageItemCount ri →
  drop (Z.to_nat (ri_firstUsageItem ri)) (pd_usageItems pd) = ui :: its →
  plain_item ui → ui_isRange ui = true → ui_usageMinimum ui ≤ usage ≤ ui_usageMaximum ui →
  usagePage = ui_usagePage ui →
  ∃ cnt, HIDHasUsage (Some pd) (Some ri) usagePage usage =
    Ret (true, Some (u32 (ui_usageMinimum ui - usage)), cnt).
Proof.
  intros Hv H0 Hc Hd Hp E Hu ->. unfold HIDHasUsage. rewrite Hv, Z.eqb_refl. cbn [negb].
  destruct (Z.to_nat (ri_usageItemCount ri)) as [|n] eqn:En; [lia|]. cbn [HIDHasUsage_loop].
  rewrite Z.add_0_r. destruct (drop_cons_at _ _ _ _ H0 Hd) as [Ha _].
  rewrite (proj2 (aget_at _ _ _) Ha). cbn [obind]. rewrite E.
  destruct Hp as (_ & Hr & Hm). specialize (Hr E).
  rewrite (u32_id (ui_usageMinimum ui)), (u32_id (ui_usageMaximum ui)) by lia.
  rewrite (proj2 (Z.leb_le _ _)), (proj2 (Z.leb_le usage _)), Z.eqb_refl, orb_true_r by lia.
  cbn [andb]. by eexists.
Qed.

(** ** The searches stay inside the tables *)
Lemma HIDHasUsage_loop_safe pd ri usagePage usage n : ∀ i iUsageIndex piIndex piCount,
  0 ≤ ri_firstUsageItem ri + i → ri_firstUsageItem ri + i + Z.of_nat n ≤ zlen (pd_usageItems pd) →
  safe (HIDHasUsage_loop n pd ri usagePage usage i iUsageIndex piIndex piCount)
    (fun '(found, idx, cnt) => found = true → is_Some idx ∧ is_Some cnt).
Proof.
  induction n as [|n IH]; intros i iUsageIndex piIndex piCount H0 Hl; cbn [HIDHasUsage_loop]; [done|].
  access ui Hui. cbv zeta. destruct (ui_isRange ui).
  - destruct (_ && _ && _) eqn:Eh; [|apply IH; lia].
    apply andb_prop in Eh as [-> _]. intros _. split; [done|]. by case_match.
  - destruct (_ && _) eqn:Eh; [|apply IH; lia].
    apply andb_prop in Eh as [-> _]. intros _. split; [done|]. by case_match.
Qed.

Lemma HIDHasUsage_safe pd ri usagePage usage :
  preparsed_ok pd → report_item_ok pd ri →
  safe (HIDHasUsage (Some pd) (Some ri) usagePage usage)
    (fun '(found, idx, cnt) => found = true → is_Some idx ∧ is_Some cnt).
Proof.
  intros [] []. unfold HIDHasUsage. case_match; [done|]. unfold window in *.
  apply HIDHasUsage_loop_safe; lia.
Qed.

Lemma bit_filler_safe pd ri :
  preparsed_ok pd → report_item_ok pd ri → safe (bit_filler ri pd) (fun _ => True).
Proof.
  intros [] []. unfold bit_filler, window in *. repeat (case_match; try done).
  tests_to_Z. destruct ro_usages as (? & ? & ?).
  apply wp_bind. eapply wp_mono; [apply aget_safe; lia|done|done].
Qed.

Lemma HIDIsVariable_safe pd ri :
  preparsed_ok pd → report_item_ok pd ri → safe (HIDIsVariable (Some ri) pd) (fun _ => True).
Proof.
  intros Hpd Hri. apply wp_bind. eapply wp_mono; [by apply bit_filler_safe|intros [] _; done|done].
Qed.

Lemma HIDIsButton_safe pd ri :
  preparsed_ok pd → report_item_ok pd ri → safe (HIDIsButton (Some ri) pd) (fun _ => True).
Proof.
  intros Hpd Hri. apply wp_bind. eapply wp_mono; [by apply bit_filler_safe|intros [] _; done|done].
Qed.

(** ** Theorems *)
Section Theorems.
Context (pd : HIDPreparsedData) (ri : HIDReportItem).
Hypothesis Hpd : preparsed_ok pd.
Hypothesis Hvalid : pd_hidTypeIfValid pd = kHIDOSType.
Hypothesis Hri : report_item_ok pd ri.

(** [HIDUsageAndPageFromIndex] indexes the list of usages the item
    spells out, ranges expanded: it stores the usage at that index, the
    last usage when the index is past the end, and nothing when the item
    has no usages. *)
Theorem from_index_is_nth index old :
  Forall plain_item (usage_items pd ri) → is_u32 index →
  HIDUsageAndPageFromIndex (Some pd) (Some ri) index (Some old) =
    Ret (nth_usage (usages_of (usage_items pd ri)) index old).
Proof using Hpd Hri. by apply FromIndex_nth. Qed.

(** C32. [HIDHasUsage] answers true exactly when the usage is among the
    item's usages on the requested page (any page for page 0), it stays
    inside the usage table, and a true answer has stored index and
    count. *)
Theorem has_usage_iff_member usagePage usage :
  Forall plain_item (usage_items pd ri) → is_u32 usage →
  ∃ found idx cnt, HIDHasUsage (Some pd) (Some ri) usagePage usage = Ret (found, idx, cnt) ∧
    (found = true ↔ ∃ up, up ∈ usages_of (usage_items pd ri) ∧ up_usage up = usage ∧
                      (usagePage = 0 ∨ usagePage = up_usagePage up)) ∧
    (found = true → is_Some idx ∧ is_Some cnt).
Proof using Hpd Hri Hvalid.
  intros HF Hu. destruct (HasUsage_found pd ri usagePage usage Hpd Hvalid Hri HF Hu) as (idx & cnt & -> & Hs).
  eexists _, idx, cnt. split; [done|]. split; [apply existsb_selects|done].
Qed.

(** For an item without usage ranges the index [HIDHasUsage] stores
    is the one [HIDUsageAndPageFromIndex] maps back to the same usage. *)
Theorem has_usage_index_roundtrip usagePage usage old k cnt :
  Forall single_item (usage_items pd ri) →
  Forall (fun ui => ui_usageMaximum ui < 2147483648) (usage_items pd ri) →
  ri_usageItemCount ri < 4294967296 →
  HIDHasUsage (Some pd) (Some ri) usagePage usage = Ret (true, Some k, cnt) →
  ∃ up, HIDUsageAndPageFromIndex (Some pd) (Some ri) k (Some old) = Ret (Some up) ∧
    up_usage up = usage ∧ (usagePage = 0 ∨ usagePage = up_usagePage up).
Proof using Hpd Hri Hvalid. by apply HasUsage_index_single. Qed.

(** Every item is a button item, a variable item or bit filler: the
    two classifiers never both accept, and one of them accepts every item
    that is not constant without usages. *)
Theorem button_or_variable :
  ∃ f b v, bit_filler ri pd = Ret f ∧ HIDIsButton (Some ri) pd = Ret b ∧
    HIDIsVariable (Some ri) pd = Ret v ∧
    b && v = false ∧ (f = false → b || v = true) ∧
    (f = true → b = false ∧ v = false ∧ ri_usageItemCount ri = 0 ∧
                Z.land (ri_dataModes ri) kHIDDataConstantBit = kHIDDataConstant).
Proof using Hpd Hri.
  destruct (safe_elim _ _ (bit_filler_safe pd ri Hpd Hri)) as (f & Ef & _).
  exists f. unfold HIDIsButton, HIDIsVariable. rewrite Ef. cbn [obind].
  destruct f; eexists _, _; (split; [done|]); (split; [reflexivity|]); (split; [reflexivity|]).
  - split; [done|]. split; [done|]. intros _. split; [done|]. split; [done|].
    unfold bit_filler in Ef. destruct (Z.eqb_spec (Z.land (ri_dataModes ri) kHIDDataConstantBit) kHIDDataConstant);
      [|done]. destruct (Z.eqb_spec (ri_usageItemCount ri) 0); [done|].
    case_match; [|done]. apply obind_Ret_inv in Ef as (ui & _ & [= Hx]).
    by destruct (ui_isRange ui); rewrite ?andb_false_r in Hx.
  - by destruct (_ =? kHIDDataArray), (_ =? 1).
Qed.
End Theorems.

(** The filler test of the two classifiers asks a usage item to be both
    a range and not a range, so a constant item that has usages is never
    filler, whatever its usages are. *)
Theorem zero_usage_filler_unreachable pd ri f :
  ri_usageItemCount ri ≠ 0 → bit_filler ri pd = Ret f → f = false.
Proof.
  unfold bit_filler. intros Hn H. rewrite (proj2 (Z.eqb_neq _ _) Hn) in H.
  unbind H; injection H as <-; try done. by destruct (ui_isRange _); rewrite ?andb_false_r.
Qed.

(** For a usage inside a range the index stored is the distance to the
    range's minimum with the sign reversed, taken modulo 2^32: only the
    minimum itself gets the index it has in the item's list of usages. *)
Theorem range_index_reversed pd ri ui its usagePage usage :
  pd_hidTypeIfValid pd = kHIDOSType → 0 ≤ ri_firstUsageItem ri → 0 < ri_usageItemCount ri →
  drop (Z.to_nat (ri_firstUsageItem ri)) (pd_usageItems pd) = ui :: its →
  plain_item ui → ui_isRange ui = true → ui_usageMinimum ui < usage ≤ ui_usageMaximum ui →
  usagePage = ui_usagePage ui →
  ∃ cnt, HIDHasUsage (Some pd) (Some ri) usagePage usage =
      Ret (true, Some (4294967296 - (usage - ui_usageMinimum ui)), cnt) ∧
    item_usages ui !! Z.to_nat (usage - ui_usageMinimum ui) =
      Some (mkHIDUsageAndPage usage (ui_usagePage ui)).
Proof.
  intros Hv H0 Hc Hd Hp E Hu Hpage. pose proof Hp as (_ & Hr & Hm). specialize (Hr E).
  destruct (HasUsage_range_index pd ri ui its usagePage usage Hv H0 Hc Hd Hp E ltac:(lia) Hpage) as [cnt ->].
  exists cnt. split.
  - do 3 f_equal. rewrite u32_neg; [f_equal|]; lia.
  - destruct (item_usages_lookup ui (usage - ui_usageMinimum ui) Hp E) as [Hl Hk].
    rewrite Hk by lia. do 2 f_equal. lia.
Qed.

(** The theorems at the sample mouse: its button item (a range) and its X/Y
    item (single usages). *)
Definition mouse_buttons_item : HIDReportItem := Eval vm_compute in
  match pd_reportItems mouse_pd with b :: _ => b | _ => zeroReportItem end.
Definition mouse_axes_item : HIDReportItem := Eval vm_compute in
  match pd_reportItems mouse_pd with [_; _; xy] => xy | _ => zeroReportItem end.

Lemma mouse_item_ok i ri : (i < 3)%nat → pd_reportItems mouse_pd !! i = Some ri → report_item_ok mouse_pd ri.
Proof.
  intros Hi Ha. apply (tb_items _ (pk_tables _ (proj1 mouse_ok)) (Z.of_nat i)).
  - change (pd_reportItemCount mouse_pd) with 3. lia.
  - split; [lia|]. by rewrite Nat2Z.id.
Qed.
Lemma mouse_buttons_ok : report_item_ok mouse_pd mouse_buttons_item.
Proof. by apply (mouse_item_ok 0); [lia|]. Qed.
Lemma mouse_axes_ok : report_item_ok mouse_pd mouse_axes_item.
Proof. by apply (mouse_item_ok 2); [lia|]. Qed.
Lemma mouse_plain ri : ri = mouse_buttons_item ∨ ri = mouse_axes_item → Forall plain_item (usage_items mouse_pd ri).
Proof. intros [-> | ->]; repeat constructor; by vm_compute. Qed.

Lemma from_index_is_nth_witness :
  HIDUsageAndPageFromIndex (Some mouse_pd) (Some mouse_buttons_item) 1 (Some None) =
    Ret (Some (mkHIDUsageAndPage 2 9)).
Proof.
  rewrite (from_index_is_nth mouse_pd mouse_buttons_item (proj1 mouse_ok) mouse_buttons_ok 1 None
    (mouse_plain _ (or_introl eq_refl)) ltac:(lia)). by vm_compute.
Defined.

Lemma has_usage_iff_member_witness :
  ∃ found idx cnt, HIDHasUsage (Some mouse_pd) (Some mouse_axes_item) 1 0x31 = Ret (found, idx, cnt) ∧
    (found = true ↔ ∃ up, up ∈ usages_of (usage_items mouse_pd mouse_axes_item) ∧ up_usage up = 0x31 ∧
                      (1 = 0 ∨ 1 = up_usagePage up)) ∧
    (found = true → is_Some idx ∧ is_Some cnt).
Proof.
  apply (has_usage_iff_member mouse_pd mouse_axes_item (proj1 mouse_ok) (proj2 mouse_ok) mouse_axes_ok
    1 0x31 (mouse_plain _ (or_intror eq_refl)) ltac:(lia)).
Defined.

Lemma has_usage_index_roundtrip_witness :
  ∃ up, HIDUsageAndPageFromIndex (Some mouse_pd) (Some mouse_axes_item) 1 (Some None) = Ret (Some up) ∧
    up_usage up = 0x31 ∧ (1 = 0 ∨ 1 = up_usagePage up).
Proof.
  apply (has_usage_index_roundtrip mouse_pd mouse_axes_item (proj1 mouse_ok) (proj2 mouse_ok) mouse_axes_ok
    1 0x31 None 1 (Some 1)); [repeat constructor; by vm_compute..|by vm_compute|by vm_compute].
Defined.

Lemma button_or_variable_witness :
  ∃ f b v, bit_filler mouse_buttons_item mouse_pd = Ret f ∧
    HIDIsButton (Some mouse_buttons_item) mouse_pd = Ret b ∧
    HIDIsVariable (Some mouse_buttons_item) mouse_pd = Ret v ∧
    b && v = false ∧ (f = false → b || v = true) ∧
    (f = true → b = false ∧ v = false ∧ ri_usageItemCount mouse_buttons_item = 0 ∧
                Z.land (ri_dataModes mouse_buttons_item) kHIDDataConstantBit = kHIDDataConstant).
Proof. apply (button_or_variable mouse_pd mouse_buttons_item (proj1 mouse_ok) mouse_buttons_ok). Defined.

Lemma zero_usage_filler_unreachable_witness :
  false = false ∧ bit_filler (mouse_buttons_item <| ri_dataModes := 1 |>) mouse_pd = Ret false.
Proof.
  split; [|by vm_compute].
  apply (zero_usage_filler_unreachable mouse_pd (mouse_buttons_item <| ri_dataModes := 1 |>) false);
    [done|by vm_compute].
Defined.

Lemma range_index_reversed_witness :
  ∃ cnt, HIDHasUsage (Some mouse_pd) (Some mouse_buttons_item) 9 2 = Ret (true, Some 4294967295, cnt) ∧
    item_usages (mkHIDP_UsageItem true 9 0 1 2) !! 1%nat = Some (mkHIDUsageAndPage 2 9).
Proof.
  apply (range_index_reversed mouse_pd mouse_buttons_item (mkHIDP_UsageItem true 9 0 1 2)
    (drop 3 (pd_usageItems mouse_pd)) 9 2); by vm_compute.
Defined.
