(* ===== verification/HIDValues.v ===== *)
(** * Usage values of a report

    [HIDCheckReport.c], [HIDPostProcessRIValue.c], [HIDScaleUsageValue.c],
    [HIDGetUsageValue.c], [HIDSetUsageValue.c], [HIDSetScaledUsageValue.c],
    [HIDGetUsageValueArray.c] and [HIDSetUsageValueArray.c].

    A report is [Some] buffer or a null pointer; an output parameter is null
    or the contents of the cell it points at, [None] while uninitialised. *)
From S2P Require Import Prelude HIDTypes HIDNextItem PoolAlloc HIDCount HIDParse HIDOpenClose.
From S2P Require Import HIDParseInv HIDLayout HIDOpenSafe HIDBits HIDUsage.

(** ** Report checks and value conversions *)

(** C's truncating division of 32-bit integers; a zero divisor and
    [INT_MIN / -1] trap. *)
Definition sdiv (a b : Z) : outcome Z :=
  if (b =? 0) || ((a =? -2147483648) && (b =? -1)) then Fault DivByZero else Ret (Z.quot a b).

(** The size of a report of a type, in bits; [None] for an unknown type. *)
Definition report_bits (reportType : Z) (r : HIDReportSizes) : option Z :=
  if reportType =? kHIDInputReport then Some (rs_inputBitCount r)
  else if reportType =? kHIDOutputReport then Some (rs_outputBitCount r)
  else if reportType =? kHIDFeatureReport then Some (rs_featureBitCount r)
  else None.

Definition HIDCheckReport (reportType : Z) (pd : HIDPreparsedData) (ri : HIDReportItem)
    (psReport : list Z) (iReportLength : Z) : outcome OSStatus :=
  let* b := aget psReport 0 in
  let reportID := Z.land b 0xFF in
  if (1 <? pd_reportCount pd) && negb (reportID =? g_reportID (ri_globals ri)) then
    Ret kHIDIncompatibleReportErr
  else if negb (reportType =? ri_reportType ri) then Ret kHIDIncompatibleReportErr
  else
    let reportIndex := g_reportIndex (ri_globals ri) in
    if (reportType =? kHIDInputReport) || (reportType =? kHIDOutputReport)
       || (reportType =? kHIDFeatureReport) then
      let* r := aget (pd_reports pd) reportIndex in
      let bits := default 0 (report_bits reportType r) in
      let iExpectedLength := Z.quot (s32 (bits + 7)) 8 in
      if iReportLength <? u32 iExpectedLength then Ret kHIDInvalidReportLengthErr
      else Ret kHIDSuccess
    else Ret kHIDInvalidReportTypeErr.

(** The two processing steps return [kHIDSuccess] and the new value. *)
Definition HIDPostProcessRIValue (ri : HIDReportItem) (value : Z) : OSStatus * Z :=
  (kHIDSuccess,
   if negb (Z.land (ri_flags ri) kHIDReportItemFlag_Reversed =? 0)
   then s32 (s32 (g_logicalMinimum (ri_globals ri) - value) + g_logicalMaximum (ri_globals ri))
   else value).

Definition HIDPreProcessRIValue (ri : HIDReportItem) (value : Z) : OSStatus * Z :=
  (kHIDSuccess,
   if negb (Z.land (ri_flags ri) kHIDReportItemFlag_Reversed =? 0)
   then s32 (s32 (g_logicalMinimum (ri_globals ri) - value) + g_logicalMaximum (ri_globals ri))
   else value).

(** The status and the value stored through [piScaledValue], if any. *)
Definition HIDScaleUsageValueIn (ptReportItem : option HIDReportItem) (iValue : Z)
    (piScaledValue : option (option Z)) : outcome (OSStatus * option Z) :=
  match ptReportItem, piScaledValue with
  | None, _ | _, None => Ret (kHIDNullPointerErr, None)
  | Some ri, Some _ =>
      let lData := s32 iValue in
      let lLMax := g_logicalMaximum (ri_globals ri) in
      let lLMin := g_logicalMinimum (ri_globals ri) in
      if (lData <? lLMin) || (lLMax <? lData) then
        if Z.land (ri_dataModes ri) kHIDDataNullStateBit =? kHIDDataNullState
        then Ret (kHIDNullStateErr, None)
        else Ret (kHIDValueOutOfRangeErr, None)
      else
        let lDeltaL := s32 (lLMax - lLMin) in
        let lDeltaP := s32 (g_physicalMaximum (ri_globals ri) - g_physicalMinimum (ri_globals ri)) in
        if (lDeltaL =? 0) || (lDeltaP =? 0) then Ret (kHIDBadLogPhysValuesErr, None)
        else
          let lL := s32 (lData - g_logicalMinimum (ri_globals ri)) in
          let* lP := sdiv (s32 (lL * lDeltaP)) lDeltaL in
          Ret (kHIDSuccess, Some (s32 (lP + g_physicalMinimum (ri_globals ri))))
  end.

Definition HIDScaleUsageValueOut (ri : HIDReportItem) (iValue : Z) : outcome (OSStatus * option Z) :=
  let lData := s32 iValue in
  let lPMax := g_physicalMaximum (ri_globals ri) in
  let lPMin := g_physicalMinimum (ri_globals ri) in
  if (lData <? lPMin) || (lPMax <? lData) then
    if Z.land (ri_dataModes ri) kHIDDataNullStateBit =? kHIDDataNullState
    then Ret (kHIDNullStateErr, None)
    else Ret (kHIDValueOutOfRangeErr, None)
  else
    let lDeltaL := s32 (g_logicalMaximum (ri_globals ri) - g_logicalMinimum (ri_globals ri)) in
    let lDeltaP := s32 (g_physicalMaximum (ri_globals ri) - g_physicalMinimum (ri_globals ri)) in
    if (lDeltaL =? 0) || (lDeltaP =? 0) then Ret (kHIDBadLogPhysValuesErr, None)
    else
      let lP := s32 (lData - g_physicalMinimum (ri_globals ri)) in
      let* lL := sdiv (s32 (lP * lDeltaL)) lDeltaP in
      Ret (kHIDSuccess, Some (s32 (lL + g_logicalMinimum (ri_globals ri)))).

(** ** The search every accessor performs *)

(** The checks on the preparsed data and the collection. *)
Definition check_collection (pd : HIDPreparsedData) (iCollection : Z) : OSStatus :=
  if negb (pd_hidTypeIfValid pd =? kHIDOSType) then kHIDInvalidPreparsedDataErr
  else if (iCollection <? 0) || (pd_collectionCount pd <=? iCollection) then kHIDBadParameterErr
  else kHIDSuccess.

(** "Search only the scope of the Collection specified": the first report
    item the filter accepts, whose report matches, is handled by [found]; an
    item of another report is remembered and skipped. *)
Fixpoint search_items {A B} (n : nat) (iReportItem : Z) (pd : HIDPreparsedData)
    (filter : HIDReportItem → outcome (option B)) (check : HIDReportItem → outcome OSStatus)
    (found : HIDReportItem → B → outcome A) (fail : OSStatus → A)
    (bIncompatibleReport : bool) : outcome A :=
  match n with
  | O => Ret (fail (if bIncompatibleReport then kHIDIncompatibleReportErr else kHIDUsageNotFoundErr))
  | S n =>
      let* ri := aget (pd_reportItems pd) iReportItem in
      let* sel := filter ri in
      match sel with
      | None => search_items n (iReportItem + 1) pd filter check found fail bIncompatibleReport
      | Some b =>
          let* iStatus := check ri in
          if iStatus =? kHIDIncompatibleReportErr then
            search_items n (iReportItem + 1) pd filter check found fail true
          else if negb (iStatus =? kHIDSuccess) then Ret (fail iStatus)
          else found ri b
      end
  end.

Definition search_collection {A B} (pd : HIDPreparsedData) (iCollection : Z)
    (filter : HIDReportItem → outcome (option B)) (check : HIDReportItem → outcome OSStatus)
    (found : HIDReportItem → B → outcome A) (fail : OSStatus → A) : outcome A :=
  let st := check_collection pd iCollection in
  if negb (st =? kHIDSuccess) then Ret (fail st) else
  let* col := aget (pd_collections pd) iCollection in
  search_items (Z.to_nat (c_reportItemCount col)) (c_firstReportItem col) pd filter check found
    fail false.

(** [HIDIsVariable && HIDHasUsage]: the usage's index and count. *)
Definition variable_usage (pd : HIDPreparsedData) (usagePage usage : Z) (ri : HIDReportItem)
    : outcome (option (Z * Z)) :=
  let* v := HIDIsVariable (Some ri) pd in
  if v then
    let* '(has, iUsageIndex, iCount) := HIDHasUsage (Some pd) (Some ri) usagePage usage in
    if has : bool then
      match iUsageIndex, iCount with
      | Some i, Some c => Ret (Some (i, c))
      | _, _ => Fault Uninit
      end
    else Ret None
  else Ret None.

(** The field of the [iUsageIndex]-th value of a report item, as the
    [UInt32] the field functions receive. *)
Definition item_start (ri : HIDReportItem) (iUsageIndex : Z) : Z :=
  s32 (ri_startBit ri + g_reportSize (ri_globals ri) * iUsageIndex).
Definition item_signed (ri : HIDReportItem) : bool :=
  (g_logicalMinimum (ri_globals ri) <? 0) || (g_logicalMaximum (ri_globals ri) <? 0).

(** ** Get and set *)
Section Accessors.
Context (reportType usagePage iCollection usage : Z).

Definition HIDGetUsageValue (piUsageValue : option (option Z))
    (ptPreparsedData : option HIDPreparsedData) (psReport : option (list Z)) (iReportLength : Z)
    : outcome (OSStatus * option (option Z)) :=
  match ptPreparsedData, piUsageValue, psReport with
  | Some pd, Some old, Some rep =>
      search_collection pd iCollection (variable_usage pd usagePage usage)
        (fun ri => HIDCheckReport reportType pd ri rep iReportLength)
        (fun ri '(iUsageIndex, _) =>
           let* '(iStatus, iValue) := HIDGetData rep iReportLength (u32 (item_start ri iUsageIndex))
                              (g_reportSize (ri_globals ri)) (item_signed ri) in
           (* on failure the uninitialised local is copied out *)
           let '(iStatus, iValue) :=
             match iValue with
             | Some v => if iStatus =? 0 then let '(st, v) := HIDPostProcessRIValue ri v in (st, Some v)
                         else (iStatus, Some v)
             | None => (iStatus, None)
             end in
           Ret (iStatus, Some iValue))
        (fun st => (st, Some old))
  | _, _, _ => Ret (kHIDNullPointerErr, piUsageValue)
  end.

Definition HIDGetScaledUsageValue (piUsageValue : option (option Z))
    (ptPreparsedData : option HIDPreparsedData) (psReport : option (list Z)) (iReportLength : Z)
    : outcome (OSStatus * option (option Z)) :=
  match ptPreparsedData, piUsageValue, psReport with
  | Some pd, Some old, Some rep =>
      search_collection pd iCollection (variable_usage pd usagePage usage)
        (fun ri => HIDCheckReport reportType pd ri rep iReportLength)
        (fun ri '(iUsageIndex, _) =>
           let* '(iStatus, iValue) := HIDGetData rep iReportLength (u32 (item_start ri iUsageIndex))
                              (g_reportSize (ri_globals ri)) (item_signed ri) in
           match iValue with
           | Some v =>
               let '(iStatus, v) := if iStatus =? 0 then HIDPostProcessRIValue ri v else (iStatus, v) in
               if negb (iStatus =? kHIDSuccess) then Ret (iStatus, Some old) else
               (* Try to scale the data *)
               let* '(iStatus, scaled) := HIDScaleUsageValueIn (Some ri) (u32 v) (Some (Some v)) in
               Ret (iStatus, Some (Some (default v scaled)))
           | None => Ret (iStatus, Some old)
           end)
        (fun st => (st, Some old))
  | _, _, _ => Ret (kHIDNullPointerErr, piUsageValue)
  end.

Definition HIDSetUsageValue (iUsageValue : Z) (ptPreparsedData : option HIDPreparsedData)
    (psReport : option (list Z)) (iReportLength : Z) : outcome (OSStatus * option (list Z)) :=
  match ptPreparsedData, psReport with
  | Some pd, Some rep =>
      search_collection pd iCollection (variable_usage pd usagePage usage)
        (fun ri => HIDCheckReport reportType pd ri rep iReportLength)
        (fun ri '(iUsageIndex, _) =>
           let '(_, iUsageValue) := HIDPreProcessRIValue ri iUsageValue in
           let* '(iStatus, rep) := HIDPutData rep iReportLength (u32 (item_start ri iUsageIndex))
                              (g_reportSize (ri_globals ri)) iUsageValue in
           if negb (iStatus =? kHIDSuccess) then Ret (iStatus, Some rep)
           else Ret (kHIDSuccess, Some rep))
        (fun st => (st, Some rep))
  | _, _ => Ret (kHIDNullPointerErr, psReport)
  end.

Definition HIDSetScaledUsageValue (iUsageValue : Z) (ptPreparsedData : option HIDPreparsedData)
    (psReport : option (list Z)) (iReportLength : Z) : outcome (OSStatus * option (list Z)) :=
  match ptPreparsedData, psReport with
  | Some pd, Some rep =>
      search_collection pd iCollection
        (fun ri => if ri_reportType ri =? reportType then variable_usage pd usagePage usage ri
                   else Ret None)
        (fun ri => HIDCheckReport reportType pd ri rep iReportLength)
        (fun ri '(iUsageIndex, _) =>
           let* '(iStatus, data) := HIDScaleUsageValueOut ri (u32 iUsageValue) in
           match data with
           | Some data =>
               if negb (iStatus =? kHIDSuccess) then Ret (iStatus, Some rep) else
               let '(_, data) := HIDPreProcessRIValue ri data in
               let* '(iStatus, rep) := HIDPutData rep iReportLength (u32 (item_start ri iUsageIndex))
                                  (g_reportSize (ri_globals ri)) data in
               if negb (iStatus =? kHIDSuccess) then Ret (iStatus, Some rep)
               else Ret (kHIDSuccess, Some rep)
           | None => Ret (iStatus, Some rep)
           end)
        (fun st => (st, Some rep))
  | _, _ => Ret (kHIDNullPointerErr, psReport)
  end.

(** The copy loops of the two array accessors, over [n] more bytes from
    byte [i] of the usage buffer. *)
Fixpoint get_array (n : nat) (i iStart : Z) (ri : HIDReportItem) (rep : list Z) (len : Z)
    (psUsageBuffer : list Z) : outcome (OSStatus * list Z) :=
  match n with
  | O => Ret (kHIDSuccess, psUsageBuffer)
  | S n =>
      let* '(iStatus, iValue) := HIDGetData rep len (u32 iStart) 8 (item_signed ri) in
      match iValue with
      | None => Ret (iStatus, psUsageBuffer)
      | Some v =>
          let '(iStatus, v) := if iStatus =? 0 then HIDPostProcessRIValue ri v else (iStatus, v) in
          if negb (iStatus =? kHIDSuccess) then Ret (iStatus, psUsageBuffer) else
          let* psUsageBuffer := aset psUsageBuffer i (u8 v) in
          get_array n (i + 1) (s32 (iStart + 8)) ri rep len psUsageBuffer
      end
  end.

Fixpoint set_array (n : nat) (i iStart : Z) (ri : HIDReportItem) (rep : list Z) (len : Z)
    (psUsageBuffer : list Z) : outcome (OSStatus * list Z) :=
  match n with
  | O => Ret (kHIDSuccess, rep)
  | S n =>
      let* b := aget psUsageBuffer i in
      let '(_, v) := HIDPreProcessRIValue ri b in
      let* '(iStatus, rep) := HIDPutData rep len (u32 iStart) 8 v in
      if negb (iStatus =? kHIDSuccess) then Ret (iStatus, rep)
      else set_array n (i + 1) (s32 (iStart + 8)) ri rep len psUsageBuffer
  end.

(** The number of bytes copied. *)
Definition array_bytes (ri : HIDReportItem) (iCount iByteLength : Z) : Z :=
  let byteCount := u32 (g_reportSize (ri_globals ri) * iCount + 7) / 8 in
  if iByteLength <? byteCount then iByteLength else byteCount.

Definition HIDGetUsageValueArray (psUsageBuffer : option (list Z)) (iByteLength : Z)
    (ptPreparsedData : option HIDPreparsedData) (psReport : option (list Z)) (iReportLength : Z)
    : outcome (OSStatus * option (list Z)) :=
  match ptPreparsedData, psUsageBuffer, psReport with
  | Some pd, Some buf, Some rep =>
      search_collection pd iCollection (variable_usage pd usagePage usage)
        (fun ri => HIDCheckReport reportType pd ri rep iReportLength)
        (fun ri '(iUsageIndex, iCount) =>
           (* Disallow single count variables *)
           if iCount <=? 1 then Ret (kHIDNotValueArrayErr, Some buf) else
           let* '(iStatus, buf) := get_array (Z.to_nat (array_bytes ri iCount iByteLength)) 0
                              (item_start ri iUsageIndex) ri rep iReportLength buf in
           Ret (iStatus, Some buf))
        (fun st => (st, Some buf))
  | _, _, _ => Ret (kHIDNullPointerErr, psUsageBuffer)
  end.

Definition HIDSetUsageValueArray (psUsageBuffer : option (list Z)) (iByteLength : Z)
    (ptPreparsedData : option HIDPreparsedData) (psReport : option (list Z)) (iReportLength : Z)
    : outcome (OSStatus * option (list Z)) :=
  match ptPreparsedData, psUsageBuffer, psReport with
  | Some pd, Some buf, Some rep =>
      search_collection pd iCollection (variable_usage pd usagePage usage)
        (fun ri => HIDCheckReport reportType pd ri rep iReportLength)
        (fun ri '(iUsageIndex, iCount) =>
           if iCount <=? 1 then Ret (kHIDNotValueArrayErr, Some rep) else
           let* '(iStatus, rep) := set_array (Z.to_nat (array_bytes ri iCount iByteLength)) 0
                              (item_start ri iUsageIndex) ri rep iReportLength buf in
           Ret (iStatus, Some rep))
        (fun st => (st, Some rep))
  | _, _, _ => Ret (kHIDNullPointerErr, psReport)
  end.
End Accessors.

(** ** The search, factored *)

(** Where the search stops: a status, or the item to act on. *)
Definition locate {B} (pd : HIDPreparsedData) (iCollection : Z)
    (filter : HIDReportItem → outcome (option B)) (check : HIDReportItem → outcome OSStatus)
    : outcome (OSStatus + HIDReportItem * B) :=
  search_collection pd iCollection filter check (fun ri b => Ret (inr (ri, b))) inl.

Lemma search_items_locate {A B} pd filter check (found : HIDReportItem → B → outcome A) fail n :
  ∀ i bad,
  search_items n i pd filter check found fail bad =
  let* r := search_items n i pd filter check (fun ri b => Ret (inr (ri, b))) inl bad in
  match r with inl st => Ret (fail st) | inr (ri, b) => found ri b end.
Proof.
  induction n as [|n IH]; intros i bad; cbn [search_items]; [done|].
  destruct (aget _ _) as [ri|]; [|done]. cbn [obind]. destruct (filter ri) as [[b|]|]; cbn [obind]; [|done..].
  destruct (check ri) as [st|]; [|done]. cbn [obind].
  destruct (st =? kHIDIncompatibleReportErr); [done|]. by destruct (negb (st =? kHIDSuccess)).
Qed.

Lemma search_collection_locate {A B} pd iCollection filter check
    (found : HIDReportItem → B → outcome A) fail :
  search_collection pd iCollection filter check found fail =
  let* r := locate pd iCollection filter check in
  match r with inl st => Ret (fail st) | inr (ri, b) => found ri b end.
Proof.
  unfold locate, search_collection. destruct (negb _); [done|].
  destruct (aget _ _) as [col|]; [|done]. cbn [obind]. apply search_items_locate.
Qed.

(** The report items of an open descriptor. *)
Definition item_of (pd : HIDPreparsedData) (ri : HIDReportItem) : Prop :=
  ∃ i, i < pd_reportItemCount pd ∧ at_ (pd_reportItems pd) i ri.

Lemma item_of_ok pd ri : preparsed_ok pd → item_of pd ri → report_item_ok pd ri.
Proof. intros Hpd (i & Hi & Ha). by apply (tb_items _ (pk_tables _ Hpd) i). Qed.

Section Search.
Context (pd : HIDPreparsedData).
Hypothesis Hpd : preparsed_ok pd.

Lemma search_items_safe {B} filter check n : ∀ i bad,
  (∀ ri, report_item_ok pd ri → safe (filter ri) (fun _ => True)) →
  (∀ ri, report_item_ok pd ri → safe (check ri) (fun _ => True)) →
  0 ≤ i → i + Z.of_nat n ≤ pd_reportItemCount pd →
  safe (search_items (B := B) n i pd filter check (fun ri b => Ret (inr (ri, b))) inl bad)
    (fun r => match r with inl st => st ≠ kHIDSuccess | inr (ri, _) => item_of pd ri end).
Proof using Hpd.
  pose proof (pk_items _ Hpd). induction n as [|n IH]; intros i bad Hf Hc Hi Hn; cbn [search_items].
  { by destruct bad. }
  access ri Hri. apply (tb_items _ (pk_tables _ Hpd)) in Hri as Hok; [|lia].
  apply wp_bind. eapply wp_mono; [by apply Hf|intros [b|] _|done]; [|apply IH; done || lia].
  apply wp_bind. eapply wp_mono; [by apply Hc|intros st _|done].
  destruct (_ =? kHIDIncompatibleReportErr); [apply IH; done || lia|].
  destruct (Z.eqb_spec st kHIDSuccess); [|done]. exists i. split; [lia|done].
Qed.

Lemma locate_safe {B} iCollection (filter : HIDReportItem → outcome (option B)) check :
  (∀ ri, report_item_ok pd ri → safe (filter ri) (fun _ => True)) →
  (∀ ri, report_item_ok pd ri → safe (check ri) (fun _ => True)) →
  safe (locate pd iCollection filter check)
    (fun r => match r with inl st => st ≠ kHIDSuccess | inr (ri, _) => item_of pd ri end).
Proof using Hpd.
  intros Hf Hc. unfold locate, search_collection. cbv zeta.
  destruct (Z.eqb_spec (check_collection pd iCollection) kHIDSuccess) as [E|]; [|done]. cbn [negb].
  unfold check_collection in E. destruct (negb _); [done|]. destruct (_ || _) eqn:Er; [done|].
  tests_to_Z. destruct Er as [H0 H1]. pose proof (pk_collections _ Hpd).
  access col Hcol. apply (tb_collections _ (pk_tables _ Hpd)) in Hcol as []; [|lia].
  apply search_items_safe; try done; lia.
Qed.

Lemma variable_usage_safe usagePage usage ri :
  report_item_ok pd ri → safe (variable_usage pd usagePage usage ri) (fun _ => True).
Proof using Hpd.
  intros Hri. apply wp_bind. eapply wp_mono; [by apply HIDIsVariable_safe|intros [] _|done]; [|done].
  apply wp_bind. eapply wp_mono; [by apply HIDHasUsage_safe| |done].
  intros [[[] idx] cnt] Hs; [|done]. by destruct (Hs eq_refl) as [[? ->] [? ->]].
Qed.

Lemma HIDCheckReport_safe reportType ri rep len :
  report_item_ok pd ri → 0 < zlen rep →
  safe (HIDCheckReport reportType pd ri rep len) (fun _ => True).
Proof using Hpd.
  intros [] Hl. unfold HIDCheckReport. pose proof (pk_reports _ Hpd). destruct ro_globals.
  access b Hb. repeat (case_match; try done). cbv zeta. access r Hr. by case_match.
Qed.
End Search.

(** ** Reading never leaves the report *)

(** No signed item is wider than a 32-bit integer. *)
Definition narrow (pd : HIDPreparsedData) : Prop :=
  ∀ ri, item_of pd ri → item_signed ri = true → g_reportSize (ri_globals ri) ≤ 32.

Lemma item_start_range ri i : is_u32 (u32 (item_start ri i)).
Proof. apply u32_range. Qed.

Section ReadSafe.
Context (reportType usagePage iCollection usage : Z) (pd : HIDPreparsedData) (rep : list Z) (len : Z).
Hypothesis Hpd : preparsed_ok pd.
Hypothesis Hnarrow : narrow pd.
Hypothesis Hlen : len ≤ zlen rep.
Hypothesis Hrep : 0 < zlen rep.

Lemma locate_variable_safe :
  safe (locate pd iCollection (variable_usage pd usagePage usage)
          (fun ri => HIDCheckReport reportType pd ri rep len))
    (fun r => match r with inl st => st ≠ kHIDSuccess | inr (ri, _) => item_of pd ri end).
Proof using Hpd Hrep.
  apply locate_safe; [done|..]; intros ri Hri; [by apply variable_usage_safe|by apply HIDCheckReport_safe].
Qed.

Lemma field_read_safe ri i :
  item_of pd ri →
  safe (HIDGetData rep len (u32 (item_start ri i)) (g_reportSize (ri_globals ri)) (item_signed ri))
    (fun '(st, v) => (st = kHIDSuccess ∧ is_Some v) ∨ (st = kHIDBadParameterErr ∧ v = None)).
Proof using Hnarrow Hlen.
  intros Hri. apply HIDGetData_safe; [done|apply u32_range|]. by apply Hnarrow.
Qed.

(** The value is defined exactly when the status is success. *)
Lemma GetUsageValue_safe old :
  safe (HIDGetUsageValue reportType usagePage iCollection usage (Some old) (Some pd) (Some rep) len)
    (fun '(st, v) => st = kHIDSuccess → ∃ x, v = Some (Some x)).
Proof using Hpd Hnarrow Hlen Hrep.
  unfold HIDGetUsageValue. rewrite search_collection_locate.
  apply wp_bind. eapply wp_mono; [apply locate_variable_safe| |done].
  intros [st|[ri [i c]]] Hr; [by intros ?|].
  apply wp_bind. eapply wp_mono; [by apply field_read_safe| |done].
  intros [st v] [[-> [x ->]]|[-> ->]]; [|done]. intros _. by eexists.
Qed.
End ReadSafe.

(** ** What is set is what is got *)
Lemma search_items_ext {A B} pd filter check check' (found : HIDReportItem → B → outcome A) fail n :
  (∀ ri, check ri = check' ri) → ∀ i bad,
  search_items n i pd filter check found fail bad = search_items n i pd filter check' found fail bad.
Proof.
  intros Hc. induction n as [|n IH]; intros i bad; cbn [search_items]; [done|].
  destruct (aget _ _) as [ri|]; [|done]. cbn [obind]. destruct (filter ri) as [[b|]|]; cbn [obind]; try done.
  rewrite Hc. destruct (check' ri) as [st|]; [|done]. cbn [obind]. by rewrite IH.
Qed.

Lemma locate_ext {B} pd iCollection (filter : HIDReportItem → outcome (option B)) check check' :
  (∀ ri, check ri = check' ri) →
  locate pd iCollection filter check = locate pd iCollection filter check'.
Proof.
  intros Hc. unfold locate, search_collection. destruct (negb _); [done|].
  destruct (aget _ _) as [col|]; [|done]. cbn [obind]. by apply search_items_ext.
Qed.

(** The first byte, which holds the report ID. *)
Lemma first_byte rep : bytes_ok rep → 0 < zlen rep → aget rep 0 = Ret (field rep 0 8).
Proof.
  intros HF Hl. destruct rep as [|b rep]; [by change (zlen []) with 0 in Hl|].
  apply Forall_cons in HF as [Hb HF]. unfold field, report_num. cbn [le_val].
  change (2 ^ 0) with 1. change (2 ^ 8) with 256. rewrite Z.div_1_r, Z.mul_comm, Z.mod_add, Z.mod_small by lia.
  apply aget_at. by split.
Qed.

Lemma HIDCheckReport_same reportType pd ri rep rep' len :
  bytes_ok rep → bytes_ok rep' → 0 < zlen rep → zlen rep' = zlen rep →
  (1 < pd_reportCount pd → field rep' 0 8 = field rep 0 8) →
  HIDCheckReport reportType pd ri rep' len = HIDCheckReport reportType pd ri rep len.
Proof.
  intros HF HF' Hl Hl' Hid. unfold HIDCheckReport.
  rewrite !first_byte by (done || lia). cbn [obind].
  destruct (Z.ltb_spec 1 (pd_reportCount pd)); [|done]. by rewrite Hid.
Qed.

Lemma pre_post ri v : is_s32 v → (HIDPostProcessRIValue ri (HIDPreProcessRIValue ri v).2).2 = v.
Proof.
  intros Hv. unfold HIDPostProcessRIValue, HIDPreProcessRIValue. cbn. destruct (negb _); [|done].
  rewrite !s32_add_l, <- Z.add_sub_swap, s32_sub_r. rewrite <- (s32_id v Hv) at 2. f_equal. lia.
Qed.

Lemma pre_is_s32 ri v : is_s32 v → is_s32 (HIDPreProcessRIValue ri v).2.
Proof. intros Hv. cbn. destruct (negb _); [apply s32_range|done]. Qed.

(** [v] can be held by the field of [ri] once preprocessed. *)
Definition holds (ri : HIDReportItem) (v : Z) : Prop :=
  let w := (HIDPreProcessRIValue ri v).2 in
  let size := g_reportSize (ri_globals ri) in
  if item_signed ri then - 2 ^ (size - 1) ≤ w < 2 ^ (size - 1) else 0 ≤ w < 2 ^ size.

Section SetGet.
Context (reportType usagePage iCollection usage : Z) (pd : HIDPreparsedData) (rep : list Z) (len : Z).
Context (ri : HIDReportItem) (i c : Z).
Let start := u32 (item_start ri i).
Let size := g_reportSize (ri_globals ri).
Hypothesis Hlocate : locate pd iCollection (variable_usage pd usagePage usage)
  (fun ri => HIDCheckReport reportType pd ri rep len) = Ret (inr (ri, (i, c))).
Hypothesis Hin : in_report rep len start size.
Hypothesis Hfits : fits start size.
Hypothesis Hid : 1 < pd_reportCount pd → 8 ≤ start.

Lemma set_usage_value v :
  ∃ rep', HIDSetUsageValue reportType usagePage iCollection usage v (Some pd) (Some rep) len
    = Ret (kHIDSuccess, Some rep') ∧
    zlen rep' = zlen rep ∧ bytes_ok rep' ∧
    field rep' start size = (HIDPreProcessRIValue ri v).2 mod 2 ^ size ∧
    (∀ s z, 0 ≤ s → 0 ≤ z → disjoint_fields s z start size → field rep' s z = field rep s z) ∧
    (∀ ri, HIDCheckReport reportType pd ri rep' len = HIDCheckReport reportType pd ri rep len).
Proof using Hlocate Hin Hfits Hid.
  destruct (store_put rep len start size (HIDPreProcessRIValue ri v).2 Hin Hfits)
    as (rep' & Hput & Hl & HF & Hsame & Hother).
  exists rep'. unfold HIDSetUsageValue. rewrite search_collection_locate, Hlocate. cbn [obind].
  fold start size. unfold HIDPreProcessRIValue in *. cbn [snd] in Hput. rewrite Hput. cbn [obind].
  split; [done|]. do 4 (split; [done|]).
  destruct Hin as (HFr & Hlen & ? & ? & ? & ?). intros ri'.
  apply HIDCheckReport_same; try done; [lia|]. intros Hmany. apply Hother; [lia..|].
  left. specialize (Hid Hmany). lia.
Qed.

Lemma set_get_usage_value v old :
  is_s32 v → holds ri v →
  ∃ rep', HIDSetUsageValue reportType usagePage iCollection usage v (Some pd) (Some rep) len
    = Ret (kHIDSuccess, Some rep') ∧
    HIDGetUsageValue reportType usagePage iCollection usage (Some old) (Some pd) (Some rep') len
    = Ret (kHIDSuccess, Some (Some v)).
Proof using Hlocate Hin Hfits Hid.
  intros Hv Hh. destruct (set_usage_value v) as (rep' & Hset & Hl & HF & Hsame & _ & Hcheck).
  exists rep'. split; [done|]. unfold HIDGetUsageValue. rewrite search_collection_locate.
  rewrite (locate_ext _ _ _ _ _ Hcheck), Hlocate. cbn [obind]. fold start size.
  assert (in_report rep' len start size) as Hin'.
  { destruct Hin as (_ & ? & ? & ? & ?). repeat split; done || lia. }
  rewrite store_get, Hsame by done. cbn [obind].
  set (w := (HIDPreProcessRIValue ri v).2) in *.
  assert ((if item_signed ri then signed size (w mod 2 ^ size) else s32 (w mod 2 ^ size)) = w) as ->.
  { pose proof (pre_is_s32 ri v Hv). unfold holds in Hh. fold w size in Hh.
    destruct Hin as (_ & _ & _ & ? & _).
    destruct (item_signed ri); [by apply signed_mod|]. rewrite Z.mod_small by done. by apply s32_id. }
  replace (kHIDSuccess =? 0) with true by done.
  pose proof (pre_post ri v Hv) as Hpp. fold w in Hpp. destruct (HIDPostProcessRIValue ri w) eqn:E.
  cbn in Hpp. subst. by injection E as <- _.
Qed.
End SetGet.

(** A field disjoint from the one that was set reads the same. *)
Section SetFrame.
Context (reportType usagePage iCollection usage : Z) (pd : HIDPreparsedData) (rep : list Z) (len : Z).
Context (usagePage' iCollection' usage' : Z) (ri ri' : HIDReportItem) (i c i' c' : Z).
Let start := u32 (item_start ri i).
Let size := g_reportSize (ri_globals ri).
Let start' := u32 (item_start ri' i').
Let size' := g_reportSize (ri_globals ri').
Hypothesis Hlocate : locate pd iCollection (variable_usage pd usagePage usage)
  (fun ri => HIDCheckReport reportType pd ri rep len) = Ret (inr (ri, (i, c))).
Hypothesis Hlocate' : locate pd iCollection' (variable_usage pd usagePage' usage')
  (fun ri => HIDCheckReport reportType pd ri rep len) = Ret (inr (ri', (i', c'))).
Hypothesis Hin : in_report rep len start size.
Hypothesis Hfits : fits start size.
Hypothesis Hin' : in_report rep len start' size'.
Hypothesis Hfits' : fits start' size'.
Hypothesis Hid : 1 < pd_reportCount pd → 8 ≤ start.
Hypothesis Hdisj : disjoint_fields start' size' start size.

Lemma set_other_usage v old :
  ∃ rep', HIDSetUsageValue reportType usagePage iCollection usage v (Some pd) (Some rep) len
    = Ret (kHIDSuccess, Some rep') ∧
    HIDGetUsageValue reportType usagePage' iCollection' usage' (Some old) (Some pd) (Some rep') len
    = HIDGetUsageValue reportType usagePage' iCollection' usage' (Some old) (Some pd) (Some rep) len.
Proof using All.
  destruct (set_usage_value reportType usagePage iCollection usage pd rep len ri i c Hlocate Hin Hfits Hid v)
    as (rep' & Hset & Hl & HF & _ & Hother & Hcheck).
  exists rep'. split; [done|]. unfold HIDGetUsageValue. rewrite !search_collection_locate.
  rewrite (locate_ext _ _ _ _ _ Hcheck), Hlocate'. cbn [obind]. fold start' size'.
  rewrite !store_get, Hother; try done; destruct Hin' as (? & ? & ? & ? & ?); try lia.
  repeat split; done || lia.
Qed.
End SetFrame.

(** ** Scaling *)

(** The affine map of [lo1, hi1] onto [lo2, hi2], rounded down. *)
Definition scale (lo1 hi1 lo2 hi2 v : Z) : Z := lo2 + (v - lo1) * (hi2 - lo2) / (hi1 - lo1).

Definition range_error (ri : HIDReportItem) : OSStatus :=
  if Z.land (ri_dataModes ri) kHIDDataNullStateBit =? kHIDDataNullState
  then kHIDNullStateErr else kHIDValueOutOfRangeErr.

Lemma scale_bounds lo1 hi1 lo2 hi2 v :
  lo1 < hi1 → lo2 ≤ hi2 → lo1 ≤ v ≤ hi1 → lo2 ≤ scale lo1 hi1 lo2 hi2 v ≤ hi2.
Proof.
  intros. unfold scale.
  assert (0 ≤ (v - lo1) * (hi2 - lo2) / (hi1 - lo1)) by (apply Z.div_pos; nia).
  assert ((v - lo1) * (hi2 - lo2) / (hi1 - lo1) ≤ hi2 - lo2); [|lia].
  apply Z.div_le_upper_bound; nia.
Qed.

Lemma scale_mono lo1 hi1 lo2 hi2 v w :
  lo1 < hi1 → lo2 ≤ hi2 → v ≤ w → scale lo1 hi1 lo2 hi2 v ≤ scale lo1 hi1 lo2 hi2 w.
Proof. intros. unfold scale. apply Z.add_le_mono_l, Z.div_le_mono; nia. Qed.

Lemma scale_ends lo1 hi1 lo2 hi2 :
  lo1 < hi1 → scale lo1 hi1 lo2 hi2 lo1 = lo2 ∧ scale lo1 hi1 lo2 hi2 hi1 = hi2.
Proof.
  intros. unfold scale. rewrite Z.sub_diag, Z.mul_0_l, Z.div_0_l by lia.
  rewrite Z.mul_comm, Z.div_mul by lia. lia.
Qed.

(** Scaling to a range at least as fine and back loses at most one step. *)
Lemma scale_back lo1 hi1 lo2 hi2 v :
  lo1 < hi1 → hi1 - lo1 ≤ hi2 - lo2 → lo1 ≤ v ≤ hi1 →
  v - 1 ≤ scale lo2 hi2 lo1 hi1 (scale lo1 hi1 lo2 hi2 v) ≤ v.
Proof.
  intros. unfold scale. set (x := v - lo1). set (dL := hi1 - lo1) in *. set (dP := hi2 - lo2) in *.
  replace (lo2 + x * dP / dL - lo2) with (x * dP / dL) by lia.
  pose proof (Z.div_mod (x * dP) dL ltac:(lia)). pose proof (Z.mod_pos_bound (x * dP) dL ltac:(lia)).
  set (y := x * dP / dL) in *.
  assert (y * dL / dP ≤ x) by (apply Z.div_le_upper_bound; nia).
  assert (x - 1 ≤ y * dL / dP) by (apply Z.div_le_lower_bound; nia). lia.
Qed.

(** The ranges of an item, small enough for the 32-bit products. *)
Record scalable (ri : HIDReportItem) : Prop := {
  sc_log : g_logicalMinimum (ri_globals ri) < g_logicalMaximum (ri_globals ri);
  sc_phys : g_physicalMinimum (ri_globals ri) < g_physicalMaximum (ri_globals ri);
  sc_s32 : is_s32 (g_logicalMinimum (ri_globals ri)) ∧ is_s32 (g_logicalMaximum (ri_globals ri)) ∧
           is_s32 (g_physicalMinimum (ri_globals ri)) ∧ is_s32 (g_physicalMaximum (ri_globals ri));
  sc_product : (g_logicalMaximum (ri_globals ri) - g_logicalMinimum (ri_globals ri)) *
               (g_physicalMaximum (ri_globals ri) - g_physicalMinimum (ri_globals ri)) < 2147483648 }.

Lemma sdiv_pos a b : 0 ≤ a → 0 < b → sdiv a b = Ret (a / b).
Proof.
  intros. unfold sdiv. rewrite (proj2 (Z.eqb_neq b 0)), (proj2 (Z.eqb_neq a _)) by lia. cbn.
  by rewrite Z.quot_div_nonneg by lia.
Qed.

Lemma ScaleIn_spec ri v old :
  scalable ri → is_s32 v →
  HIDScaleUsageValueIn (Some ri) (u32 v) (Some old) = Ret (
    if (g_logicalMinimum (ri_globals ri) <=? v) && (v <=? g_logicalMaximum (ri_globals ri))
    then (kHIDSuccess, Some (scale (g_logicalMinimum (ri_globals ri)) (g_logicalMaximum (ri_globals ri))
            (g_physicalMinimum (ri_globals ri)) (g_physicalMaximum (ri_globals ri)) v))
    else (range_error ri, None)).
Proof.
  intros [Hl Hp (?&?&?&?) Hx] Hv. unfold HIDScaleUsageValueIn, range_error. cbv zeta.
  rewrite s32_u32, (s32_id v) by done.
  set (a := g_logicalMinimum _) in *. set (b := g_logicalMaximum _) in *.
  set (p := g_physicalMinimum _) in *. set (q := g_physicalMaximum _) in *.
  destruct (Z.leb_spec a v), (Z.leb_spec v b); cbn [andb];
    [|rewrite (proj2 (Z.ltb_lt b v)), orb_true_r by lia; by destruct (_ =? kHIDDataNullState)
     |rewrite (proj2 (Z.ltb_lt v a)) by lia; by destruct (_ =? kHIDDataNullState)..].
  rewrite (proj2 (Z.ltb_ge v a)), (proj2 (Z.ltb_ge b v)) by lia. cbn [orb].
  assert (b - a < 2147483648 ∧ q - p < 2147483648) as [??] by nia.
  rewrite (s32_id (b - a)), (s32_id (q - p)), (s32_id (v - a)) by lia.
  rewrite (proj2 (Z.eqb_neq (b - a) 0)), (proj2 (Z.eqb_neq (q - p) 0)) by lia. cbn [orb].
  assert (0 ≤ (v - a) * (q - p) < 2147483648) by nia.
  rewrite (s32_id (_ * _)), sdiv_pos by lia. cbn [obind].
  pose proof (scale_bounds a b p q v). unfold scale in *. rewrite s32_id by lia. do 3 f_equal. lia.
Qed.

Lemma ScaleOut_spec ri v :
  scalable ri → is_s32 v →
  HIDScaleUsageValueOut ri (u32 v) = Ret (
    if (g_physicalMinimum (ri_globals ri) <=? v) && (v <=? g_physicalMaximum (ri_globals ri))
    then (kHIDSuccess, Some (scale (g_physicalMinimum (ri_globals ri)) (g_physicalMaximum (ri_globals ri))
            (g_logicalMinimum (ri_globals ri)) (g_logicalMaximum (ri_globals ri)) v))
    else (range_error ri, None)).
Proof.
  intros [Hl Hp (?&?&?&?) Hx] Hv. unfold HIDScaleUsageValueOut, range_error. cbv zeta.
  rewrite s32_u32, (s32_id v) by done.
  set (a := g_logicalMinimum _) in *. set (b := g_logicalMaximum _) in *.
  set (p := g_physicalMinimum _) in *. set (q := g_physicalMaximum _) in *.
  destruct (Z.leb_spec p v), (Z.leb_spec v q); cbn [andb];
    [|rewrite (proj2 (Z.ltb_lt q v)), orb_true_r by lia; by destruct (_ =? kHIDDataNullState)
     |rewrite (proj2 (Z.ltb_lt v p)) by lia; by destruct (_ =? kHIDDataNullState)..].
  rewrite (proj2 (Z.ltb_ge v p)), (proj2 (Z.ltb_ge q v)) by lia. cbn [orb].
  assert (b - a < 2147483648 ∧ q - p < 2147483648) as [??] by nia.
  rewrite (s32_id (b - a)), (s32_id (q - p)), (s32_id (v - p)) by lia.
  rewrite (proj2 (Z.eqb_neq (b - a) 0)), (proj2 (Z.eqb_neq (q - p) 0)) by lia. cbn [orb].
  assert (0 ≤ (v - p) * (b - a) < 2147483648) by nia.
  rewrite (s32_id (_ * _)), sdiv_pos by lia. cbn [obind].
  pose proof (scale_bounds p q a b v). unfold scale in *. rewrite s32_id by lia. do 3 f_equal. lia.
Qed.

(** ** The fields of an open descriptor *)
Section Fields.
Context (pd : HIDPreparsedData).
Hypothesis Hpd : preparsed_ok pd.
Hypothesis Hsmall : small pd.

Lemma search_items_inr {B} filter check n : ∀ i bad ri (b : B),
  0 ≤ i → i + Z.of_nat n ≤ pd_reportItemCount pd →
  search_items n i pd filter check (fun ri b => Ret (inr (ri, b))) (@inl OSStatus _) bad
    = Ret (inr (ri, b)) →
  item_of pd ri ∧ filter ri = Ret (Some b) ∧ check ri = Ret kHIDSuccess.
Proof using.
  induction n as [|n IH]; intros i bad ri b Hi Hn; cbn [search_items]; [by destruct bad|].
  intros (ri' & Hri & H)%obind_Ret_inv. apply obind_Ret_inv in H as (sel & Hf & H).
  destruct sel as [b'|]; [|by eapply IH; [| |exact H]; lia].
  apply obind_Ret_inv in H as (st & Hc & H).
  destruct (st =? kHIDIncompatibleReportErr); [by eapply IH; [| |exact H]; lia|].
  destruct (Z.eqb_spec st kHIDSuccess) as [->|]; [|done]. injection H as <- <-.
  split; [|done]. exists i. split; [lia|]. by apply aget_at.
Qed.

(** An item the search found is an item of the descriptor whose report
    was checked. *)
Lemma locate_inr {B} iCollection filter check ri (b : B) :
  locate pd iCollection filter check = Ret (inr (ri, b)) →
  item_of pd ri ∧ filter ri = Ret (Some b) ∧ check ri = Ret kHIDSuccess.
Proof using Hpd.
  unfold locate, search_collection. cbv zeta.
  destruct (Z.eqb_spec (check_collection pd iCollection) kHIDSuccess) as [E|]; [|done]. cbn [negb].
  unfold check_collection in E. destruct (negb _); [done|]. destruct (_ || _) eqn:Er; [done|].
  tests_to_Z. destruct Er as [H0 H1].
  intros (col & Hcol & H)%obind_Ret_inv. apply aget_at in Hcol.
  apply (tb_collections _ (pk_tables _ Hpd)) in Hcol as []; [|lia].
  by eapply search_items_inr; [| |exact H]; lia.
Qed.

Lemma checked_length reportType ri rep len :
  item_of pd ri → 0 < zlen rep →
  HIDCheckReport reportType pd ri rep len = Ret kHIDSuccess →
  reportType = ri_reportType ri ∧ ri_startBit ri + item_bits ri ≤ 8 * len.
Proof using Hpd Hsmall.
  intros Hri Hl H. pose proof (item_of_ok _ _ Hpd Hri) as Hok. destruct Hri as (i & Hi & Ha).
  destruct (pk_layout _ Hpd Hsmall) as [Hin _ Hz]. destruct (Hin i ri Hi Ha) as (_ & _ & Hb).
  unfold HIDCheckReport in H. cbv zeta in H. apply obind_Ret_inv in H as (b & _ & H).
  destruct (_ && _); [done|]. destruct (Z.eqb_spec reportType (ri_reportType ri)) as [->|]; [|done].
  split; [done|]. cbn [negb] in H.
  pose proof (ro_type _ _ Hok) as Hty. pose proof (go_index _ _ (ro_globals _ _ Hok)) as Hk.
  replace ((ri_reportType ri =? kHIDInputReport) || (ri_reportType ri =? kHIDOutputReport)
    || (ri_reportType ri =? kHIDFeatureReport)) with true in H.
  2: { symmetry. rewrite !orb_true_iff, !Z.eqb_eq.
       unfold kHIDInputReport, kHIDOutputReport, kHIDFeatureReport. lia. }
  apply obind_Ret_inv in H as (r & Hr%aget_at & H). specialize (Hb r Hr).
  pose proof (Hz _ r (ri_reportType ri) (proj2 Hk) Hr) as Hzr.
  replace (default 0 (report_bits (ri_reportType ri) r)) with (bits_of (ri_reportType ri) r) in H.
  2: { unfold report_bits, bits_of, kHIDInputReport, kHIDOutputReport, kHIDFeatureReport.
       assert (ri_reportType ri = 1 ∨ ri_reportType ri = 2 ∨ ri_reportType ri = 3)
         as [-> | [-> | ->]] by lia; done. }
  destruct Hsmall as [Hfew _]. destruct (pk_items _ Hpd) as [Hn0 _].
  assert (0 ≤ bits_of (ri_reportType ri) r ≤ 1073741832) by (destruct (1 <=? _); lia).
  rewrite s32_id, Z.quot_div_nonneg, u32_id in H by (Z.div_mod_to_equations; lia).
  destruct (Z.ltb_spec len ((bits_of (ri_reportType ri) r + 7) / 8)); [done|].
  Z.div_mod_to_equations. lia.
Qed.

(** Element [k] of an item whose report was checked lies in the report, at
    its start bit plus [k] times its size. *)
Lemma element_in_report reportType ri rep len k :
  item_of pd ri → bytes_ok rep → len ≤ zlen rep → 0 < zlen rep →
  HIDCheckReport reportType pd ri rep len = Ret kHIDSuccess →
  0 < g_reportSize (ri_globals ri) → 0 ≤ k < g_reportCount (ri_globals ri) →
  u32 (item_start ri k) = ri_startBit ri + g_reportSize (ri_globals ri) * k ∧
  in_report rep len (u32 (item_start ri k)) (g_reportSize (ri_globals ri)).
Proof using Hpd Hsmall.
  intros Hri HF Hlen Hl Hc Hz Hk. destruct (checked_length _ _ _ _ Hri Hl Hc) as [_ Hbits].
  destruct Hri as (i & Hi & Ha). destruct (pk_layout _ Hpd Hsmall) as [Hin _ Hzs].
  destruct (Hin i ri Hi Ha) as (H0 & _ & Hb). destruct Hsmall as [Hfew Ht].
  destruct (Ht i ri Hi Ha) as [_ Hsm]. unfold item_bits in *.
  pose proof (tb_items _ (pk_tables _ Hpd) i ri Hi Ha) as Hok.
  pose proof (go_index _ _ (ro_globals _ _ Hok)) as Hix. pose proof (pk_reports _ Hpd).
  destruct (at_exists (pd_reports pd) (g_reportIndex (ri_globals ri))) as [r Hr]; [lia|].
  specialize (Hb r Hr). pose proof (Hzs _ r (ri_reportType ri) (proj2 Hix) Hr).
  assert (g_reportSize (ri_globals ri) * (k + 1) ≤ g_reportSize (ri_globals ri) * g_reportCount (ri_globals ri))
    by nia.
  assert (u32 (item_start ri k) = ri_startBit ri + g_reportSize (ri_globals ri) * k) as ->.
  { unfold item_start. rewrite u32_s32, u32_id; [done|]. nia. }
  split; [done|]. split; [done|]. repeat split; nia.
Qed.

(** Different elements of one report do not overlap. *)
Lemma elements_disjoint a b k l i j :
  i < pd_reportItemCount pd → at_ (pd_reportItems pd) i a →
  j < pd_reportItemCount pd → at_ (pd_reportItems pd) j b →
  same_report a b → i ≠ j ∨ k ≠ l →
  0 ≤ k < g_reportCount (ri_globals a) → 0 ≤ l < g_reportCount (ri_globals b) →
  disjoint_fields (ri_startBit a + g_reportSize (ri_globals a) * k) (g_reportSize (ri_globals a))
                  (ri_startBit b + g_reportSize (ri_globals b) * l) (g_reportSize (ri_globals b)).
Proof using Hpd Hsmall.
  intros Hi Ha Hj Hb Hs Hne Hk Hl. destruct (pk_layout _ Hpd Hsmall) as [_ Ho _].
  pose proof (go_size _ _ (ro_globals _ _ (tb_items _ (pk_tables _ Hpd) i a Hi Ha))).
  pose proof (go_size _ _ (ro_globals _ _ (tb_items _ (pk_tables _ Hpd) j b Hj Hb))).
  unfold disjoint_fields, item_bits in *. destruct (Z.lt_trichotomy i j) as [Hlt|[->|Hlt]].
  - specialize (Ho i j a b Hlt Hj Ha Hb Hs). left. nia.
  - assert (a = b) as -> by (by eapply at_fun). destruct (Z_lt_le_dec k l); [left|right]; nia.
  - specialize (Ho j i b a Hlt Hi Hb Ha ltac:(destruct Hs; by split)). right. nia.
Qed.
End Fields.

(** ** Theorems *)

(** The item and element a value accessor acts on. *)
Definition located (reportType usagePage iCollection usage : Z) (pd : HIDPreparsedData) (rep : list Z)
    (len : Z) (ri : HIDReportItem) (k : Z) : Prop :=
  ∃ c, locate pd iCollection (variable_usage pd usagePage usage)
         (fun ri => HIDCheckReport reportType pd ri rep len) = Ret (inr (ri, (k, c))).

(** An element whose 32-bit window holds it, and whose report's ID byte (if
    there is one) is not part of it. *)
Record settable (pd : HIDPreparsedData) (ri : HIDReportItem) (k : Z) : Prop := {
  st_size : 0 < g_reportSize (ri_globals ri);
  st_element : 0 ≤ k < g_reportCount (ri_globals ri);
  st_fits : fits (ri_startBit ri + g_reportSize (ri_globals ri) * k) (g_reportSize (ri_globals ri));
  st_report : 1 < pd_reportCount pd → 1 ≤ g_reportIndex (ri_globals ri) }.

Section Theorems.
Context (pd : HIDPreparsedData) (rep : list Z) (len : Z).
Hypothesis Hpd : preparsed_ok pd.
Hypothesis Hsmall : small pd.
Hypothesis Hrep : bytes_ok rep.
Hypothesis Hlen : len ≤ zlen rep.
Hypothesis Hne : 0 < zlen rep.

Lemma settable_field reportType usagePage iCollection usage ri k :
  located reportType usagePage iCollection usage pd rep len ri k → settable pd ri k →
  u32 (item_start ri k) = ri_startBit ri + g_reportSize (ri_globals ri) * k ∧
  in_report rep len (u32 (item_start ri k)) (g_reportSize (ri_globals ri)) ∧
  fits (u32 (item_start ri k)) (g_reportSize (ri_globals ri)) ∧
  (1 < pd_reportCount pd → 8 ≤ u32 (item_start ri k)) ∧ item_of pd ri.
Proof using All.
  intros [c Hloc] [Hz Hk Hf Hid]. destruct (locate_inr pd Hpd _ _ _ _ _ Hloc) as (Hri & _ & Hc).
  destruct (element_in_report pd Hpd Hsmall _ ri rep len k Hri Hrep Hlen Hne Hc Hz Hk) as [Es Hin].
  split; [done|]. split; [done|]. split; [by rewrite Es|]. split; [|done].
  intros H1. specialize (Hid H1). destruct Hri as (i & Hi & Ha).
  destruct (ly_inside _ (pk_layout _ Hpd Hsmall) i ri Hi Ha) as (_ & H8 & _). rewrite Es. nia.
Qed.



(** Reading is memory safe on any report: [HIDGetUsageValue] on an
    open descriptor without signed items wider than 32 bits never accesses
    memory out of bounds, whatever usage is asked for and whatever the
    report holds, and on success it has stored a value. *)
Theorem get_usage_value_safe reportType usagePage iCollection usage old :
  narrow pd →
  safe (HIDGetUsageValue reportType usagePage iCollection usage (Some old) (Some pd) (Some rep) len)
    (fun '(st, v) => st = kHIDSuccess → ∃ x, v = Some (Some x)).
Proof using Hpd Hlen Hne. intros Hn. by apply GetUsageValue_safe. Qed.
End Theorems.

(** Scaling in: a logical value inside the item's range is mapped to
    the physical range by the affine map (rounded down), so the result is in
    the physical range, keeps the order and maps the ends to the ends; a
    value outside is reported as null state or out of range. *)
Theorem scale_in_correct ri v old :
  scalable ri → is_s32 v →
  let g := ri_globals ri in
  let f := scale (g_logicalMinimum g) (g_logicalMaximum g) (g_physicalMinimum g) (g_physicalMaximum g) in
  HIDScaleUsageValueIn (Some ri) (u32 v) (Some old) = Ret (
    if (g_logicalMinimum g <=? v) && (v <=? g_logicalMaximum g)
    then (kHIDSuccess, Some (f v)) else (range_error ri, None)) ∧
  (g_logicalMinimum g ≤ v ≤ g_logicalMaximum g → g_physicalMinimum g ≤ f v ≤ g_physicalMaximum g) ∧
  (∀ w, v ≤ w → f v ≤ f w) ∧
  f (g_logicalMinimum g) = g_physicalMinimum g ∧ f (g_logicalMaximum g) = g_physicalMaximum g.
Proof.
  intros Hs Hv g f. pose proof Hs as [Hl Hp _ _]. fold g in Hl, Hp.
  split; [by apply ScaleIn_spec|]. split; [intros; apply scale_bounds; lia|].
  split; [intros; apply scale_mono; lia|]. apply scale_ends. lia.
Qed.

(** Scaling out and back: a logical value scaled in and the physical
    result scaled out again gives the value or its predecessor, when the
    physical range is at least as fine as the logical one. *)
Theorem scale_roundtrip ri v old :
  scalable ri → is_s32 v →
  g_logicalMinimum (ri_globals ri) ≤ v ≤ g_logicalMaximum (ri_globals ri) →
  g_logicalMaximum (ri_globals ri) - g_logicalMinimum (ri_globals ri) ≤
    g_physicalMaximum (ri_globals ri) - g_physicalMinimum (ri_globals ri) →
  ∃ p w, HIDScaleUsageValueIn (Some ri) (u32 v) (Some old) = Ret (kHIDSuccess, Some p) ∧
    HIDScaleUsageValueOut ri (u32 p) = Ret (kHIDSuccess, Some w) ∧ v - 1 ≤ w ≤ v.
Proof.
  intros Hs Hv Hr Hfine. pose proof Hs as [Hl Hp (?&?&?&?) _].
  pose proof (scale_bounds _ _ _ _ v Hl (Z.lt_le_incl _ _ Hp) Hr) as Hb.
  rewrite ScaleIn_spec by done. rewrite (proj2 (Z.leb_le _ v)), (proj2 (Z.leb_le v _)) by lia.
  eexists _, _. split; [done|]. rewrite ScaleOut_spec by (done || lia).
  destruct Hb as [Hb1%Z.leb_le Hb2%Z.leb_le]. rewrite Hb1, Hb2. cbn [andb].
  split; [done|]. apply scale_back; done.
Qed.

(** An output report (ID 1) of two 16-bit values given as one usage range. *)
Definition pair_descriptor : list Z :=
  [ 0x05; 0x01; 0x09; 0x04; 0xA1; 0x01; 0x85; 0x01; 0x19; 0x30; 0x29; 0x31; 0x15; 0x00;
    0x26; 0xff; 0x7f; 0x75; 0x10; 0x95; 0x02; 0x91; 0x02; 0xC0 ].
Definition pair_pd : HIDPreparsedData := Eval vm_compute in
  match HIDOpenReportDescriptor any_stack (Some pair_descriptor) 24 (Some None) 1 (∅ : gmap Z Z) with
  | Ret (_, Some (Some (_, pd)), _) => pd | _ => zeroPreparsedData end.

(** The reversed index of a usage range (see [HIDHasUsage]) reaches
    memory: on an output report of two 16-bit values given as one usage
    range, setting the second value writes out of bounds, while the first
    one is set as intended. *)
Example set_range_usage_out_of_bounds :
  (∃ h, HIDOpenReportDescriptor any_stack (Some pair_descriptor) 24 (Some None) 1 (∅ : gmap Z Z) =
     Ret (kHIDSuccess, Some (Some (1, pair_pd)), h)) ∧
  HIDSetUsageValue kHIDOutputReport 1 0 0x30 7 (Some pair_pd) (Some [1; 0; 0; 0; 0]) 5 =
    Ret (kHIDSuccess, Some [1; 7; 0; 0; 0]) ∧
  HIDSetUsageValue kHIDOutputReport 1 0 0x31 7 (Some pair_pd) (Some [1; 0; 0; 0; 0]) 5 = Fault OutOfBounds.
Proof. split; [eexists; by vm_compute|]. split; by vm_compute. Qed.

(** The theorems at the sample mouse: X and Y, signed bytes after the
    button byte. *)
Definition mouse_xy : HIDReportItem := Eval vm_compute in
  match pd_reportItems mouse_pd with [_; _; xy] => xy | _ => zeroReportItem end.
Definition mouse_report : list Z := [1; 5; 250].

Lemma mouse_report_ok : bytes_ok mouse_report.
Proof. repeat constructor; lia. Qed.
Lemma mouse_located usage k : (usage, k) ∈ [(0x30, 0); (0x31, 1)] →
  located kHIDInputReport 1 0 usage mouse_pd mouse_report 3 mouse_xy k.
Proof.
  intros [[= -> ->]|[[= -> ->]|[]%not_elem_of_nil]%elem_of_cons]%elem_of_cons; exists 1; by vm_compute.
Qed.
Lemma mouse_settable k : 0 ≤ k < 2 → settable mouse_pd mouse_xy k.
Proof.
  intros Hk. assert (k = 0 ∨ k = 1) as [-> | ->] by lia; split; by vm_compute.
Qed.



Lemma mouse_narrow : narrow mouse_pd.
Proof.
  intros ri (i & _ & Hi). assert (Forall (fun ri => g_reportSize (ri_globals ri) ≤ 32)
    (pd_reportItems mouse_pd)) as HF by (repeat constructor; by vm_compute).
  intros _. apply (Forall_lookup_1 _ _ _ _ HF (proj2 Hi)).
Qed.

Lemma get_usage_value_safe_witness :
  safe (HIDGetUsageValue 3 7 1 77 (Some None) (Some mouse_pd) (Some [200]) 1)
    (fun '(st, v) => st = kHIDSuccess → ∃ x, v = Some (Some x)).
Proof.
  apply (get_usage_value_safe mouse_pd [200] 1 (proj1 mouse_ok) ltac:(by vm_compute)
    ltac:(by vm_compute) 3 7 1 77 None mouse_narrow).
Defined.

Lemma mouse_scalable : scalable mouse_xy.
Proof. split; by vm_compute. Qed.

Lemma scale_in_correct_witness :
  HIDScaleUsageValueIn (Some mouse_xy) (u32 (-5)) (Some None) = Ret (kHIDSuccess, Some (-5)).
Proof.
  pose proof (scale_in_correct mouse_xy (-5) None mouse_scalable ltac:(lia)) as [H _].
  rewrite H. by vm_compute.
Defined.

Lemma scale_roundtrip_witness :
  ∃ p w, HIDScaleUsageValueIn (Some mouse_xy) (u32 100) (Some None) = Ret (kHIDSuccess, Some p) ∧
    HIDScaleUsageValueOut mouse_xy (u32 p) = Ret (kHIDSuccess, Some w) ∧ 100 - 1 ≤ w ≤ 100.
Proof.
  apply (scale_roundtrip mouse_xy 100 None mouse_scalable); [lia|by vm_compute|by vm_compute].
Defined.
