(* ===== verification/HIDButtons.v ===== *)
(** * Buttons

    [HIDGetButtons.c], [HIDGetButtonsOnPage.c], [HIDSetButtons.c],
    [HIDUsageListDifference.c] and [HIDMaxUsageListLength.c].  A list the
    caller supplies is an array of cells; a cell holding [None] is
    uninitialised. *)
From S2P Require Import Prelude HIDTypes HIDNextItem PoolAlloc HIDCount HIDParse HIDOpenClose.
From S2P Require Import HIDParseInv HIDLayout HIDOpenSafe HIDBits HIDUsage HIDValues.

Definition is_array (ri : HIDReportItem) : bool :=
  Z.land (ri_dataModes ri) kHIDDataArrayBit =? kHIDDataArray.

(** A C loop body either returns from the function or goes on. *)
Inductive flow (A S : Type) : Type := Return (a : A) | Continue (s : S).
Arguments Return {A S} a.
Arguments Continue {A S} s.

(** [HIDGetData] then, when it succeeds, [HIDPostProcessRIValue]; the value
    is the local's new contents, [old] when nothing was stored. *)
Definition get_processed (ri : HIDReportItem) (rep : list Z) (len start size : Z) (sgn : bool)
    (old : option Z) : outcome (OSStatus * option Z) :=
  let* '(st, v) := HIDGetData rep len start size sgn in
  match v with
  | Some v => if st =? 0 then let '(st, v) := HIDPostProcessRIValue ri v in Ret (st, Some v)
              else Ret (st, Some v)
  | None => Ret (st, old)
  end.

(** ** [HIDGetButtons] *)
Section GetButtons.
Context (reportType : Z) (pd : HIDPreparsedData) (rep : list Z) (iReportLength iMaxUsages : Z).

(** The usage list, its length and the local [tUsageAndPage]. *)
Definition buttons_state : Type :=
  list (option HIDUsageAndPage) * Z * option HIDUsageAndPage.

(** Append the usage of element [iE]. *)
Definition add_button (ri : HIDReportItem) (iE : Z) (s : buttons_state)
    : outcome (flow (OSStatus * buttons_state) buttons_state) :=
  let '(l, n, t) := s in
  let* t := HIDUsageAndPageFromIndex (Some pd) (Some ri)
              (u32 (g_logicalMinimum (ri_globals ri) + iE)) (Some t) in
  if iMaxUsages <=? n then Ret (Return (kHIDBufferTooSmallErr, (l, n, t)))
  else
    let* l := aset l n t in
    Ret (Continue (l, n + 1, t)).

Fixpoint HIDGetButtons_elements (m : nat) (iE iStart : Z) (ri : HIDReportItem) (s : buttons_state)
    : outcome (flow (OSStatus * buttons_state) buttons_state) :=
  match m with
  | O => Ret (Continue s)
  | S m =>
      let size := if is_array ri then g_reportSize (ri_globals ri) else 1 in
      let* '(status, iValue) := get_processed ri rep iReportLength (u32 iStart) size false (Some 0) in
      if negb (status =? 0) then Ret (Return (status, s)) else
      let iStart := s32 (iStart + size) in
      if is_array ri || negb (default 0 iValue =? 0) then
        let* r := add_button ri iE s in
        match r with
        | Return a => Ret (Return a)
        | Continue s => HIDGetButtons_elements m (iE + 1) iStart ri s
        end
      else HIDGetButtons_elements m (iE + 1) iStart ri s
  end.

Fixpoint HIDGetButtons_items (m : nat) (iReportItem : Z) (s : buttons_state)
    : outcome (OSStatus * buttons_state) :=
  match m with
  | O => Ret (kHIDSuccess, s)
  | S m =>
      let* ri := aget (pd_reportItems pd) iReportItem in
      let* button := (if ri_reportType ri =? reportType then HIDIsButton (Some ri) pd else Ret false) in
      if button then
        let* r := HIDGetButtons_elements (Z.to_nat (g_reportCount (ri_globals ri))) 0
                    (ri_startBit ri) ri s in
        match r with
        | Return a => Ret a
        | Continue s => HIDGetButtons_items m (iReportItem + 1) s
        end
      else HIDGetButtons_items m (iReportItem + 1) s
  end.
End GetButtons.

(** The collection is not range-checked here.  Result: status, list, and the
    number of usages stored through [piUsageListLength]. *)
Definition HIDGetButtons (reportType iCollection : Z) (ptUsageList : option (list (option HIDUsageAndPage)))
    (piUsageListLength : option Z) (ptPreparsedData : option HIDPreparsedData)
    (psReport : option (list Z)) (iReportLength : Z)
    : outcome (OSStatus * option (list (option HIDUsageAndPage)) * option Z) :=
  match ptPreparsedData, ptUsageList, piUsageListLength, psReport with
  | Some pd, Some l, Some max, Some rep =>
      if negb (pd_hidTypeIfValid pd =? kHIDOSType) then
        Ret (kHIDInvalidPreparsedDataErr, ptUsageList, piUsageListLength)
      else
        let* col := aget (pd_collections pd) iCollection in
        let* '(st, (l, n, _)) :=
          HIDGetButtons_items reportType pd rep iReportLength max
            (Z.to_nat (c_reportItemCount col)) (c_firstReportItem col) (l, 0, None) in
        Ret (st, Some l, Some n)
  | _, _, _, _ => Ret (kHIDNullPointerErr, ptUsageList, piUsageListLength)
  end.

(** ** [HIDGetButtonsOnPage] *)
Section ButtonsOnPage.
Context (reportType usagePage : Z) (pd : HIDPreparsedData) (rep : list Z)
  (iReportLength iMaxUsages : Z).

(** The usage list, its length, and the locals [iValue] and
    [tUsageAndPage], which keep their contents between elements. *)
Definition page_state : Type := list Z * Z * option Z * option HIDUsageAndPage.

(** "if (usagePage == tUsageAndPage.usagePage)" and the append. *)
Definition add_on_page (t : option HIDUsageAndPage) (u : HIDUsageAndPage → Z) (s : page_state)
    : outcome (flow (OSStatus * page_state) page_state) :=
  let '(l, n, iValue, _) := s in
  match t with
  | None => Fault Uninit
  | Some up =>
      if usagePage =? up_usagePage up then
        if iMaxUsages <=? n then Ret (Return (kHIDBufferTooSmallErr, (l, n, iValue, t)))
        else
          let* l := aset l n (u up) in
          Ret (Continue (l, n + 1, iValue, t))
      else Ret (Continue (l, n, iValue, t))
  end.

Definition page_element (iE iStart : Z) (ri : HIDReportItem) (s : page_state)
    : outcome (flow (OSStatus * page_state) page_state) :=
  let '(l, n, iValue, t) := s in
  if is_array ri then
    let* '(_, iValue) := get_processed ri rep iReportLength (u32 iStart)
                           (g_reportSize (ri_globals ri)) false iValue in
    match iValue with
    | None => Fault Uninit
    | Some v =>
        let* t := HIDUsageAndPageFromIndex (Some pd) (Some ri)
                    (u32 (v - g_logicalMinimum (ri_globals ri))) (Some t) in
        add_on_page t (fun _ => u32 v) (l, n, iValue, t)
    end
  else
    let* '(st, iValue) := get_processed ri rep iReportLength (u32 iStart) 1 false iValue in
    if (st =? 0) && negb (default 0 iValue =? 0) then
      let* t := HIDUsageAndPageFromIndex (Some pd) (Some ri) iE (Some t) in
      add_on_page t up_usage (l, n, iValue, t)
    else Ret (Continue (l, n, iValue, t)).

Fixpoint page_elements (m : nat) (iE iStart : Z) (ri : HIDReportItem) (s : page_state)
    : outcome (flow (OSStatus * page_state) page_state) :=
  match m with
  | O => Ret (Continue s)
  | S m =>
      let* r := page_element iE iStart ri s in
      match r with
      | Return a => Ret (Return a)
      | Continue s =>
          page_elements m (iE + 1)
            (s32 (iStart + (if is_array ri then g_reportSize (ri_globals ri) else 1))) ri s
      end
  end.

Fixpoint page_items (m : nat) (iReportItem : Z) (bIncompatibleReport butNotReally : bool)
    (s : page_state) : outcome (OSStatus * page_state) :=
  match m with
  | O =>
      let '(_, n, _, _) := s in
      Ret (if n =? 0 then
             if bIncompatibleReport && negb butNotReally then kHIDIncompatibleReportErr
             else kHIDUsageNotFoundErr
           else kHIDSuccess, s)
  | S m =>
      let* ri := aget (pd_reportItems pd) iReportItem in
      let* button := HIDIsButton (Some ri) pd in
      if button then
        let* iStatus := HIDCheckReport reportType pd ri rep iReportLength in
        if iStatus =? kHIDIncompatibleReportErr then page_items m (iReportItem + 1) true butNotReally s
        else if negb (iStatus =? kHIDSuccess) then Ret (iStatus, s)
        else
          let* r := page_elements (Z.to_nat (g_reportCount (ri_globals ri))) 0 (ri_startBit ri) ri s in
          match r with
          | Return a => Ret a
          | Continue s => page_items m (iReportItem + 1) bIncompatibleReport true s
          end
      else page_items m (iReportItem + 1) bIncompatibleReport butNotReally s
  end.
End ButtonsOnPage.

Definition HIDGetButtonsOnPage (reportType usagePage iCollection : Z) (piUsageList : option (list Z))
    (piUsageListLength : option Z) (ptPreparsedData : option HIDPreparsedData)
    (psReport : option (list Z)) (iReportLength : Z)
    : outcome (OSStatus * option (list Z) * option Z) :=
  match ptPreparsedData, piUsageList, piUsageListLength, psReport with
  | Some pd, Some l, Some max, Some rep =>
      let st := check_collection pd iCollection in
      if negb (st =? kHIDSuccess) then Ret (st, piUsageList, piUsageListLength) else
      let* col := aget (pd_collections pd) iCollection in
      let* '(st, (l, n, _, _)) :=
        page_items reportType usagePage pd rep iReportLength max
          (Z.to_nat (c_reportItemCount col)) (c_firstReportItem col) false false (l, 0, None, None) in
      Ret (st, Some l, Some n)
  | _, _, _, _ => Ret (kHIDNullPointerErr, piUsageList, piUsageListLength)
  end.

(** ** [HIDSetButton], [HIDSetButtons] *)

(** "Save Arrays": the first element that reads zero takes the button. *)
Fixpoint set_array_button (m : nat) (iX : Z) (ri : HIDReportItem) (rep : list Z) (len iUsageIndex : Z)
    : outcome (OSStatus * list Z) :=
  match m with
  | O => Ret (kHIDBufferTooSmallErr, rep)
  | S m =>
      let iStart := s32 (ri_startBit ri + g_reportSize (ri_globals ri) * iX) in
      let* '(iStatus, data) :=
        get_processed ri rep len (u32 iStart) (g_reportSize (ri_globals ri)) true None in
      if negb (iStatus =? kHIDSuccess) then Ret (iStatus, rep) else
      match data with
      | None => Fault Uninit
      | Some data =>
          if data =? 0 then
            HIDPutData rep len (u32 iStart) (g_reportSize (ri_globals ri))
              (s32 (iUsageIndex + g_logicalMinimum (ri_globals ri)))
          else set_array_button m (iX + 1) ri rep len iUsageIndex
      end
  end.

(** [HIDIsButton && HIDHasUsage]: the usage's index. *)
Definition button_usage (pd : HIDPreparsedData) (usagePage usage : Z) (ri : HIDReportItem)
    : outcome (option Z) :=
  let* b := HIDIsButton (Some ri) pd in
  if b then
    let* '(has, iUsageIndex, _) := HIDHasUsage (Some pd) (Some ri) usagePage usage in
    if has : bool then match iUsageIndex with Some i => Ret (Some i) | None => Fault Uninit end
    else Ret None
  else Ret None.

Fixpoint set_button_items (m : nat) (iReportItem : Z) (pd : HIDPreparsedData)
    (reportType usagePage usage : Z) (rep : list Z) (len : Z) (bIncompatibleReport butNotReally : bool)
    : outcome (OSStatus * list Z) :=
  match m with
  | O => Ret (if bIncompatibleReport && negb butNotReally then kHIDIncompatibleReportErr
              else kHIDUsageNotFoundErr, rep)
  | S m =>
      let* ri := aget (pd_reportItems pd) iReportItem in
      let* sel := button_usage pd usagePage usage ri in
      match sel with
      | None => set_button_items m (iReportItem + 1) pd reportType usagePage usage rep len
                  bIncompatibleReport butNotReally
      | Some iUsageIndex =>
          let* iStatus := HIDCheckReport reportType pd ri rep len in
          if iStatus =? kHIDIncompatibleReportErr then
            set_button_items m (iReportItem + 1) pd reportType usagePage usage rep len true butNotReally
          else if negb (iStatus =? kHIDSuccess) then Ret (iStatus, rep)
          else if is_array ri then
            set_array_button (Z.to_nat (g_reportCount (ri_globals ri))) 0 ri rep len iUsageIndex
          else if g_reportSize (ri_globals ri) =? 1 then
            HIDPutData rep len (u32 (item_start ri iUsageIndex)) (g_reportSize (ri_globals ri)) (-1)
          else set_button_items m (iReportItem + 1) pd reportType usagePage usage rep len
                 bIncompatibleReport true
      end
  end.

Definition HIDSetButton (reportType usagePage collection usage : Z)
    (ptPreparsedData : option HIDPreparsedData) (report : option (list Z)) (reportLength : Z)
    : outcome (OSStatus * option (list Z)) :=
  match ptPreparsedData, report with
  | Some pd, Some rep =>
      let st := check_collection pd collection in
      if negb (st =? kHIDSuccess) then Ret (st, report) else
      let* col := aget (pd_collections pd) collection in
      let* '(st, rep) := set_button_items (Z.to_nat (c_reportItemCount col)) (c_firstReportItem col) pd
                           reportType usagePage usage rep reportLength false false in
      Ret (st, Some rep)
  | _, _ => Ret (kHIDNullPointerErr, report)
  end.

(** The loop of [HIDSetButtons]; the [Z] is [*usageListSize]. *)
Fixpoint set_buttons (m : nat) (k : Z) (usageList : list Z) (usageListSize : Z)
    (set : Z → option (list Z) → outcome (OSStatus * option (list Z))) (report : option (list Z))
    : outcome (OSStatus * Z * option (list Z)) :=
  match m with
  | O => Ret (kHIDSuccess, usageListSize, report)
  | S m =>
      let* usage := aget usageList k in
      let* '(iStatus, report) := set usage report in
      if negb (iStatus =? kHIDSuccess) then Ret (iStatus, k, report)
      else set_buttons m (k + 1) usageList k set report
  end.

Definition HIDSetButtons (reportType usagePage collection : Z) (usageList : option (list Z))
    (usageListSize : option Z) (ptPreparsedData : option HIDPreparsedData)
    (report : option (list Z)) (reportLength : Z) : outcome (OSStatus * option Z * option (list Z)) :=
  match ptPreparsedData, usageList, usageListSize, report with
  | Some pd, Some l, Some n, Some _ =>
      if negb (pd_hidTypeIfValid pd =? kHIDOSType) then
        Ret (kHIDInvalidPreparsedDataErr, usageListSize, report)
      else
        let* '(st, n, report) := set_buttons (Z.to_nat (s32 n)) 0 l n
          (fun usage report => HIDSetButton reportType usagePage collection usage ptPreparsedData
                                 report reportLength) report in
        Ret (st, Some n, report)
  | _, _, _, _ => Ret (kHIDNullPointerErr, usageListSize, report)
  end.

(** ** Usage lists *)
Fixpoint IsUsageInUsageList (n : nat) (i : Z) (piUsageList : list Z) (usage : Z) : outcome bool :=
  match n with
  | O => Ret false
  | S n =>
      let* u := aget piUsageList i in
      if u =? usage then Ret true else IsUsageInUsageList n (i + 1) piUsageList usage
  end.

(** "If in [from] but not in [other] then" append it to [out], once. *)
Definition add_difference (usage : Z) (other : list Z) (iUsageListLength : Z) (out : list Z * Z)
    : outcome (list Z * Z) :=
  let '(l, n) := out in
  if usage =? 0 then Ret (l, n) else
  let* in_other := IsUsageInUsageList (Z.to_nat iUsageListLength) 0 other usage in
  if in_other : bool then Ret (l, n) else
  let* in_out := IsUsageInUsageList (Z.to_nat n) 0 l usage in
  if in_out : bool then Ret (l, n) else
  let* l := aset l n usage in
  Ret (l, n + 1).

Fixpoint difference_loop (m : nat) (i : Z) (piPreviousUL piCurrentUL : list Z) (len : Z)
    (make brk : list Z * Z) : outcome ((list Z * Z) * (list Z * Z)) :=
  match m with
  | O => Ret (make, brk)
  | S m =>
      let* usage := aget piCurrentUL i in
      let* make := add_difference usage piPreviousUL len make in
      let* usage := aget piPreviousUL i in
      let* brk := add_difference usage piCurrentUL len brk in
      difference_loop m (i + 1) piPreviousUL piCurrentUL len make brk
  end.

(** "Clear the rest of the usage Lists" *)
Fixpoint clear_rest (m : nat) (i : Z) (l : list Z) : outcome (list Z) :=
  match m with
  | O => Ret l
  | S m => let* l := aset l i 0 in clear_rest m (i + 1) l
  end.

(** Result: the status, the make list and the break list. *)
Definition HIDUsageListDifference (piPreviousUL piCurrentUL piBreakUL piMakeUL : list Z)
    (iUsageListLength : Z) : outcome (OSStatus * list Z * list Z) :=
  let* '((make, nm), (brk, nb)) :=
    difference_loop (Z.to_nat iUsageListLength) 0 piPreviousUL piCurrentUL iUsageListLength
      (piMakeUL, 0) (piBreakUL, 0) in
  let* make := clear_rest (Z.to_nat (iUsageListLength - nm)) nm make in
  let* brk := clear_rest (Z.to_nat (iUsageListLength - nb)) nb brk in
  Ret (kHIDSuccess, make, brk).

Fixpoint count_buttons (n : nat) (i : Z) (reportType : Z) (pd : HIDPreparsedData) (iButtons : Z)
    : outcome Z :=
  match n with
  | O => Ret iButtons
  | S n =>
      let* ri := aget (pd_reportItems pd) i in
      let* b := (if ri_reportType ri =? reportType then HIDIsButton (Some ri) pd else Ret false) in
      count_buttons n (i + 1) reportType pd
        (if b : bool then s32 (iButtons + g_reportCount (ri_globals ri)) else iButtons)
  end.

Definition HIDMaxUsageListLength (reportType usagePage : Z) (ptPreparsedData : option HIDPreparsedData)
    : outcome Z :=
  match ptPreparsedData with
  | None => Ret 0
  | Some pd =>
      if negb (pd_hidTypeIfValid pd =? kHIDOSType) then Ret (u32 kHIDInvalidPreparsedDataErr)
      else let* n := count_buttons (Z.to_nat (pd_reportItemCount pd)) 0 reportType pd 0 in Ret (u32 n)
  end.

(** ** Usage-list differences are set differences *)

(** The reference: the non-zero members of [xs] that are not in [other], in
    order, each once. *)
Fixpoint diff_from (acc xs other : list Z) : list Z :=
  match xs with
  | [] => acc
  | x :: xs =>
      diff_from (if decide (x = 0 ∨ x ∈ other ∨ x ∈ acc) then acc else acc ++ [x]) xs other
  end.
Definition difference (xs other : list Z) : list Z := diff_from [] xs other.

Lemma diff_from_elem xs other : ∀ acc u,
  u ∈ diff_from acc xs other ↔ u ∈ acc ∨ (u ∈ xs ∧ u ≠ 0 ∧ u ∉ other).
Proof.
  induction xs as [|x xs IH]; intros acc u; cbn [diff_from]; [set_solver|].
  rewrite IH. destruct (decide _); set_solver.
Qed.

Lemma diff_from_nodup xs other : ∀ acc, NoDup acc → NoDup (diff_from acc xs other).
Proof.
  induction xs as [|x xs IH]; intros acc Hacc; cbn [diff_from]; [done|]. apply IH.
  destruct (decide _); [done|]. apply NoDup_app. split; [done|]. split; [set_solver|].
  apply NoDup_singleton.
Qed.

Lemma diff_from_snoc xs x other : ∀ acc,
  diff_from acc (xs ++ [x]) other =
  let acc := diff_from acc xs other in
  if decide (x = 0 ∨ x ∈ other ∨ x ∈ acc) then acc else acc ++ [x].
Proof. induction xs as [|y xs IH]; intros acc; cbn [diff_from app]; [done|]. apply IH. Qed.

Lemma diff_from_length xs other : ∀ acc, (length (diff_from acc xs other) ≤ length acc + length xs)%nat.
Proof.
  induction xs as [|x xs IH]; intros acc; cbn [diff_from length]; [lia|].
  etrans; [apply IH|]. destruct (decide _); rewrite ?length_app; cbn; lia.
Qed.

Lemma IsUsageInUsageList_spec usage n : ∀ i l,
  0 ≤ i → i + Z.of_nat n ≤ zlen l →
  IsUsageInUsageList n i l usage = Ret (bool_decide (usage ∈ take n (drop (Z.to_nat i) l))).
Proof.
  induction n as [|n IH]; intros i l Hi Hl; cbn [IsUsageInUsageList].
  { rewrite take_0. by rewrite bool_decide_false by apply not_elem_of_nil. }
  destruct (at_exists l i) as [u Hu]; [lia|]. rewrite (proj2 (aget_at _ _ _) Hu). cbn [obind].
  destruct Hu as [_ Hu]. rewrite (drop_S _ _ _ Hu). cbn [take].
  destruct (Z.eqb_spec u usage) as [->|Hne].
  - by rewrite bool_decide_true by set_solver.
  - rewrite IH by lia. replace (Z.to_nat (i + 1)) with (S (Z.to_nat i)) by lia. f_equal.
    apply bool_decide_ext. set_solver.
Qed.

(** An output array: the differences so far, then its old contents. *)
Definition out_ok (n : Z) (acc : list Z) (out : list Z * Z) : Prop :=
  zlen out.1 = n ∧ out.2 = zlen acc ∧ take (length acc) out.1 = acc.

Lemma add_difference_spec usage other n acc out :
  zlen other = n → out_ok n acc out → zlen acc < n →
  ∃ out', add_difference usage other n out = Ret out' ∧
    out_ok n (if decide (usage = 0 ∨ usage ∈ other ∨ usage ∈ acc) then acc else acc ++ [usage]) out'.
Proof.
  intros Ho Hok Hlt. destruct out as [l k]. pose proof Hok as (Hl & Hk & Ht). cbn in Hl, Hk, Ht. subst k.
  unfold add_difference. destruct (Z.eqb_spec usage 0) as [->|H0].
  { eexists. split; [done|]. by rewrite decide_True by auto. }
  rewrite IsUsageInUsageList_spec, drop_0, take_ge by (try apply Nat2Z.inj_le; unfold zlen in *; lia).
  cbn [obind]. case_bool_decide as Hin.
  { eexists. split; [done|]. by rewrite decide_True by auto. }
  rewrite IsUsageInUsageList_spec, drop_0 by (unfold zlen in *; lia). cbn [obind].
  replace (Z.to_nat (zlen acc)) with (length acc) by (unfold zlen; lia). rewrite Ht.
  case_bool_decide as Hacc.
  { eexists. split; [done|]. by rewrite decide_True by auto. }
  rewrite aset_in by (pose proof (zlen_nonneg acc); lia). cbn [obind]. eexists. split; [done|].
  rewrite decide_False by tauto. unfold out_ok. cbn [fst snd].
  rewrite zlen_insert, zlen_app. split; [done|]. split; [done|].
  replace (Z.to_nat (zlen acc)) with (length acc) by (unfold zlen; lia).
  rewrite length_app. cbn [length]. rewrite Nat.add_1_r, (take_S_r _ _ usage).
  - f_equal. rewrite take_insert_ge by lia. done.
  - apply list_lookup_insert_eq. unfold zlen in *. lia.
Qed.

Lemma clear_rest_spec m : ∀ i l,
  0 ≤ i → i + Z.of_nat m = zlen l →
  clear_rest m i l = Ret (take (Z.to_nat i) l ++ replicate m 0).
Proof.
  induction m as [|m IH]; intros i l Hi Hl; cbn [clear_rest].
  { rewrite take_ge by (unfold zlen in *; lia). by rewrite app_nil_r. }
  rewrite aset_in by lia. cbn [obind]. rewrite IH by (rewrite ?zlen_insert; lia).
  replace (Z.to_nat (i + 1)) with (S (Z.to_nat i)) by lia.
  rewrite (take_S_r _ _ 0) by (apply list_lookup_insert_eq; unfold zlen in *; lia).
  rewrite take_insert_ge by lia. by rewrite <- app_assoc.
Qed.

Lemma difference_short n i xs other : 0 ≤ i < n → zlen xs = n → zlen (difference (take (Z.to_nat i) xs) other) < n.
Proof.
  intros Hi Hx. pose proof (diff_from_length (take (Z.to_nat i) xs) other []) as H.
  rewrite length_take in H. unfold zlen, difference in *. cbn in H. lia.
Qed.

Section Difference.
Context (prev cur : list Z) (n : Z).
Hypothesis Hprev : zlen prev = n.
Hypothesis Hcur : zlen cur = n.

Lemma difference_loop_spec m : ∀ i make brk,
  0 ≤ i → i + Z.of_nat m = n →
  out_ok n (difference (take (Z.to_nat i) cur) prev) make →
  out_ok n (difference (take (Z.to_nat i) prev) cur) brk →
  ∃ make' brk', difference_loop m i prev cur n make brk = Ret (make', brk') ∧
    out_ok n (difference cur prev) make' ∧ out_ok n (difference prev cur) brk'.
Proof using Hprev Hcur.
  induction m as [|m IH]; intros i make brk Hi Hn Hm Hb; cbn [difference_loop].
  { exists make, brk. split; [done|]. rewrite !take_ge in Hm, Hb by (unfold zlen in *; lia). done. }
  destruct (at_exists cur i) as [u Hu]; [lia|]. rewrite (proj2 (aget_at _ _ _) Hu). cbn [obind].
  destruct (add_difference_spec u prev n _ make Hprev Hm) as (make' & -> & Hm');
    [apply difference_short; lia|]. cbn [obind].
  destruct (at_exists prev i) as [w Hw]; [lia|]. rewrite (proj2 (aget_at _ _ _) Hw). cbn [obind].
  destruct (add_difference_spec w cur n _ brk Hcur Hb) as (brk' & -> & Hb');
    [apply difference_short; lia|]. cbn [obind].
  apply IH; [lia..| |];
    replace (Z.to_nat (i + 1)) with (S (Z.to_nat i)) by lia; unfold difference.
  - by rewrite (take_S_r _ _ u (proj2 Hu)), diff_from_snoc.
  - by rewrite (take_S_r _ _ w (proj2 Hw)), diff_from_snoc.
Qed.

Lemma UsageListDifference_spec brk make :
  zlen brk = n → zlen make = n →
  HIDUsageListDifference prev cur brk make n =
    Ret (kHIDSuccess,
         difference cur prev ++ replicate (Z.to_nat (n - zlen (difference cur prev))) 0,
         difference prev cur ++ replicate (Z.to_nat (n - zlen (difference prev cur))) 0).
Proof using Hprev Hcur.
  intros Hbrk Hmake. unfold HIDUsageListDifference. pose proof (zlen_nonneg prev).
  destruct (difference_loop_spec (Z.to_nat n) 0 (make, 0) (brk, 0))
    as ([mk km] & [bk kb] & -> & (Hl & Hk & Ht) & (Hl' & Hk' & Ht')); [lia..|by split|by split|].
  cbn [obind fst snd] in *. subst km kb.
  assert (∀ xs other, zlen xs = n → zlen (difference xs other) ≤ n) as Hbound.
  { intros xs other Hx. pose proof (diff_from_length xs other []) as Hd. unfold zlen, difference in *.
    cbn in Hd. lia. }
  pose proof (Hbound cur prev Hcur). pose proof (Hbound prev cur Hprev).
  pose proof (zlen_nonneg (difference cur prev)). pose proof (zlen_nonneg (difference prev cur)).
  rewrite clear_rest_spec by lia. cbn [obind]. rewrite clear_rest_spec by lia. cbn [obind].
  replace (Z.to_nat (zlen (difference cur prev))) with (length (difference cur prev)) by (unfold zlen; lia).
  replace (Z.to_nat (zlen (difference prev cur))) with (length (difference prev cur)) by (unfold zlen; lia).
  by rewrite Ht, Ht'.
Qed.
End Difference.
