(* ===== verification/HIDButtonsSpec.v ===== *)
(** * What the button functions compute

    [HIDGetButtonsOnPage] lists the pressed buttons of a bitmap in order, up
    to the room the caller gives; [HIDSetButton] presses one;
    [HIDUsageListDifference] is a pair of set differences. *)
From S2P Require Import Prelude HIDTypes HIDNextItem PoolAlloc HIDCount HIDParse HIDOpenClose.
From S2P Require Import HIDParseInv HIDLayout HIDOpenSafe HIDBits HIDUsage HIDValues HIDButtons.

(** ** Pressed buttons *)

(** A button item with one bit per button and at least one usage. *)
Record bitmap (pd : HIDPreparsedData) (ri : HIDReportItem) : Prop := {
  bm_variable : is_array ri = false;
  bm_size : g_reportSize (ri_globals ri) = 1;
  bm_plain : Forall plain_item (usage_items pd ri);
  bm_usages : usages_of (usage_items pd ri) ≠ [] }.

(** The bit of element [iE] says pressed (with reversal applied). *)
Definition pressed_bit (ri : HIDReportItem) (rep : list Z) (iE : Z) : bool :=
  negb ((HIDPostProcessRIValue ri (Z.b2z (rbit rep (ri_startBit ri + iE)))).2 =? 0).

Definition element_usage (pd : HIDPreparsedData) (ri : HIDReportItem) (iE : Z) : option HIDUsageAndPage :=
  nth_usage (usages_of (usage_items pd ri)) iE None.

(** The usage element [iE] contributes to the list of a page. *)
Definition pressed_on (pd : HIDPreparsedData) (usagePage : Z) (ri : HIDReportItem) (rep : list Z) (iE : Z)
    : option Z :=
  if pressed_bit ri rep iE then
    match element_usage pd ri iE with
    | Some up => if usagePage =? up_usagePage up then Some (up_usage up) else None
    | None => None
    end
  else None.

Definition pressed_from (pd : HIDPreparsedData) (usagePage : Z) (ri : HIDReportItem) (rep : list Z)
    (iE : Z) (m : nat) : list Z :=
  omap (pressed_on pd usagePage ri rep) (seqZ iE (Z.of_nat m)).

(** All pressed buttons of an item, in order. *)
Definition pressed (pd : HIDPreparsedData) (usagePage : Z) (ri : HIDReportItem) (rep : list Z) : list Z :=
  pressed_from pd usagePage ri rep 0 (Z.to_nat (g_reportCount (ri_globals ri))).

Lemma pressed_from_S pd usagePage ri rep iE m :
  pressed_from pd usagePage ri rep iE (S m) =
  match pressed_on pd usagePage ri rep iE with Some u => [u] | None => [] end
  ++ pressed_from pd usagePage ri rep (iE + 1) m.
Proof.
  unfold pressed_from. rewrite (seqZ_cons iE) by lia.
  replace (Z.pred (Z.of_nat (S m))) with (Z.of_nat m) by lia.
  change (Z.succ iE) with (iE + 1). cbn [omap list_omap]. by case_match.
Qed.

Lemma field_one rep start : 0 ≤ start → s32 (field rep start 1) = Z.b2z (rbit rep start).
Proof.
  intros H. rewrite s32_id by (pose proof (field_range rep start 1 ltac:(lia)); lia).
  apply Z.bits_inj'. intros i Hi. rewrite field_testbit by lia.
  destruct (Z.ltb_spec i 1).
  - replace i with 0 by lia. rewrite Z.add_0_r. by destruct (rbit rep start).
  - cbn. destruct (rbit rep start); [|by rewrite Z.bits_0].
    symmetry. apply (testbit_small 1 1); lia.
Qed.

(** Without usages an element's usage is whatever the local held; with
    usages it does not matter. *)
Lemma nth_usage_old us index old old' : us ≠ [] → nth_usage us index old = nth_usage us index old'.
Proof.
  intros Hne. unfold nth_usage. case_match; [done|].
  destruct (last us) eqn:E; [done|]. by apply last_None in E.
Qed.

Lemma element_usage_Some pd ri iE :
  usages_of (usage_items pd ri) ≠ [] → is_Some (element_usage pd ri iE).
Proof.
  intros Hne. unfold element_usage, nth_usage. case_match; [done|].
  destruct (last _) eqn:E; [done|]. by apply last_None in E.
Qed.

(** The outcome of appending the usages [us] to a list of capacity [max]
    that already holds [pre]: what is stored, and whether all of it fits. *)
Definition appended (max : Z) (pre us rest : list Z) : list Z :=
  let k := Z.to_nat (max - zlen pre) in pre ++ take k us ++ drop (length (take k us)) rest.

Lemma appended_nil max pre rest : appended max pre [] rest = pre ++ rest.
Proof. unfold appended. by rewrite take_nil. Qed.

Lemma appended_cons max pre u us x rest :
  zlen pre < max →
  appended max pre (u :: us) (x :: rest) = appended max (pre ++ [u]) us rest.
Proof.
  intros Hlt. unfold appended. rewrite zlen_app. change (zlen [u]) with 1.
  destruct (Z.to_nat (max - zlen pre)) as [|k] eqn:Ek; [lia|].
  replace (Z.to_nat (max - (zlen pre + 1))) with k by lia. cbn [take length drop].
  by rewrite <- app_assoc.
Qed.

Lemma appended_fits max pre us rest :
  zlen pre + zlen us ≤ max → appended max pre us rest = (pre ++ us) ++ drop (length us) rest.
Proof.
  intros H. unfold appended. rewrite take_ge by (unfold zlen in *; lia). by rewrite app_assoc.
Qed.

Lemma appended_app max pre us vs rest :
  appended max pre (us ++ vs) rest =
  if zlen pre + zlen us <=? max then appended max (pre ++ us) vs (drop (length us) rest)
  else appended max pre us rest.
Proof.
  unfold appended. rewrite zlen_app. destruct (Z.leb_spec (zlen pre + zlen us) max).
  - rewrite take_app_ge by (unfold zlen in *; lia).
    replace (Z.to_nat (max - zlen pre) - length us)%nat
      with (Z.to_nat (max - (zlen pre + zlen us))) by (unfold zlen in *; lia).
    rewrite length_app, <- drop_drop. by rewrite <- !app_assoc.
  - by rewrite take_app_le by (unfold zlen in *; lia).
Qed.

Section OnPage.
Context (usagePage : Z) (pd : HIDPreparsedData) (rep : list Z) (len max : Z).
Hypothesis Hpd : preparsed_ok pd.
Hypothesis Hsmall : small pd.
Hypothesis Hrep : bytes_ok rep.
Hypothesis Hlen : len ≤ zlen rep.
Hypothesis Hne : 0 < zlen rep.

(** Every element of a checked bitmap reads its own bit. *)
Lemma bitmap_element reportType ri iE old :
  item_of pd ri → bitmap pd ri → HIDCheckReport reportType pd ri rep len = Ret kHIDSuccess →
  0 ≤ iE < g_reportCount (ri_globals ri) →
  get_processed ri rep len (u32 (s32 (ri_startBit ri + iE))) 1 false old =
    Ret (0, Some (HIDPostProcessRIValue ri (Z.b2z (rbit rep (ri_startBit ri + iE)))).2).
Proof using Hpd Hsmall Hrep Hlen Hne.
  intros Hri [_ Hz _ _] Hc HiE.
  destruct (element_in_report pd Hpd Hsmall reportType ri rep len iE Hri Hrep Hlen Hne Hc ltac:(lia) HiE)
    as [Es Hin]. unfold item_start in Es, Hin. rewrite Hz, Z.mul_1_l in Es, Hin. rewrite Es in Hin |- *.
  unfold get_processed. rewrite store_get; [|done|unfold fits; Z.div_mod_to_equations; lia].
  cbn [obind]. rewrite field_one by (destruct Hin; lia). change (kHIDSuccess =? 0) with true. cbn [negb].
  by unfold HIDPostProcessRIValue.
Qed.

Lemma page_elements_bitmap reportType ri m : ∀ iE pre rest iValue t,
  item_of pd ri → bitmap pd ri → HIDCheckReport reportType pd ri rep len = Ret kHIDSuccess →
  0 ≤ iE → iE + Z.of_nat m = g_reportCount (ri_globals ri) → iE + Z.of_nat m < 4294967296 →
  zlen pre ≤ max ≤ zlen pre + zlen rest →
  let us := pressed_from pd usagePage ri rep iE m in
  ∃ iValue' t', page_elements usagePage pd rep len max m iE (s32 (ri_startBit ri + iE)) ri
      (pre ++ rest, zlen pre, iValue, t) =
    Ret (if zlen pre + zlen us <=? max
         then Continue (appended max pre us rest, zlen pre + zlen us, iValue', t')
         else Return (kHIDBufferTooSmallErr, (appended max pre us rest, max, iValue', t'))).
Proof using Hpd Hsmall Hrep Hlen Hne.
  induction m as [|m IH]; intros iE pre rest iValue t Hri Hb Hc HiE Hm Hw Hmax us;
    subst us; cbn [page_elements].
  { exists iValue, t. unfold pressed_from. cbn. rewrite appended_nil.
    change (zlen []) with 0. rewrite Z.add_0_r, (proj2 (Z.leb_le (zlen pre) max)) by lia. done. }
  rewrite pressed_from_S. set (us := pressed_from pd usagePage ri rep (iE + 1) m).
  unfold page_element. rewrite (bm_variable _ _ Hb).
  rewrite (bitmap_element reportType) by (done || lia). cbn [obind default].
  change (0 =? 0) with true. cbn [andb]. rewrite s32_add_l, <- Z.add_assoc.
  unfold pressed_on, pressed_bit. set (v := (HIDPostProcessRIValue ri _).2).
  destruct (negb (v =? 0)) eqn:Ev; unfold default, id; rewrite Ev.
  2: { cbn [obind app]. eapply IH; try done; lia. }
  rewrite FromIndex_nth; [|done|by apply (item_of_ok pd)|apply (bm_plain _ _ Hb)|lia]. cbn [obind].
  rewrite (nth_usage_old _ _ t None) by apply (bm_usages _ _ Hb).
  destruct (element_usage_Some pd ri iE (bm_usages _ _ Hb)) as [up Hup]. unfold element_usage in *.
  rewrite Hup. cbn [add_on_page]. destruct (usagePage =? up_usagePage up).
  2: { cbn [obind app]. eapply IH; try done; lia. }
  rewrite zlen_app. change (zlen [up_usage up]) with 1. pose proof (zlen_nonneg us).
  destruct (Z.leb_spec max (zlen pre)).
  - cbn [obind]. rewrite (proj2 (Z.leb_gt (_ + _) max)) by lia. exists (Some v), (Some up).
    replace max with (zlen pre) by lia. unfold appended. rewrite Z.sub_diag. done.
  - destruct rest as [|x rest]; [change (zlen []) with 0 in *; lia|]. rewrite zlen_cons in Hmax.
    rewrite aset_in by (rewrite zlen_app, zlen_cons; pose proof (zlen_nonneg pre); lia). cbn [obind].
    replace (<[Z.to_nat (zlen pre):=up_usage up]> (pre ++ x :: rest)) with ((pre ++ [up_usage up]) ++ rest).
    2: { unfold zlen. rewrite Nat2Z.id, insert_app_r_alt, Nat.sub_diag by lia. by rewrite <- app_assoc. }
    destruct (IH (iE + 1) (pre ++ [up_usage up]) rest (Some v) (Some up)) as (iV' & t' & E);
      try done; try lia; [rewrite zlen_app; change (zlen [up_usage up]) with 1; lia|].
    fold us in E. rewrite zlen_app in E. change (zlen [up_usage up]) with 1 in E.
    exists iV', t'. cbn [app]. rewrite appended_cons by lia.
    rewrite (Z.add_assoc (zlen pre)). exact E.
Qed.

(** The items of a report type whose report this is. *)
Context (reportType : Z).
Definition is_button (ri : HIDReportItem) : bool :=
  match HIDIsButton (Some ri) pd with Ret b => b | Fault _ => false end.
Definition accepted (ri : HIDReportItem) : bool :=
  match HIDCheckReport reportType pd ri rep len with Ret st => st =? kHIDSuccess | Fault _ => false end.

(** The buttons of a list of items, in order. *)
Definition pressed_buttons (items : list HIDReportItem) : list Z :=
  items ≫= fun ri => if is_button ri && accepted ri then pressed pd usagePage ri rep else [].

(** "If nothing was returned then change the status" *)
Definition page_status (items : list HIDReportItem) (us : list Z) (inc really : bool) : OSStatus :=
  match us with
  | [] => if (inc || existsb (fun ri => is_button ri && negb (accepted ri)) items)
             && negb (really || existsb (fun ri => is_button ri && accepted ri) items)
          then kHIDIncompatibleReportErr else kHIDUsageNotFoundErr
  | _ => kHIDSuccess
  end.

(** Every button item either belongs to another report, or is a bitmap of
    this one and the report is long enough. *)
Definition readable (ri : HIDReportItem) : Prop :=
  HIDIsButton (Some ri) pd = Ret true →
  HIDCheckReport reportType pd ri rep len = Ret kHIDIncompatibleReportErr ∨
  HIDCheckReport reportType pd ri rep len = Ret kHIDSuccess ∧ bitmap pd ri.

Lemma item_start_small ri :
  item_of pd ri → HIDCheckReport reportType pd ri rep len = Ret kHIDSuccess →
  g_reportSize (ri_globals ri) = 1 →
  s32 (ri_startBit ri) = ri_startBit ri ∧ 0 ≤ g_reportCount (ri_globals ri) < 65536.
Proof using Hpd Hsmall.
  intros (i & Hi & Ha) Hc Hz. destruct (pk_layout _ Hpd Hsmall) as [Hin _ Hzs].
  destruct (Hin i ri Hi Ha) as (H0 & _ & Hb). destruct Hsmall as [Hfew Ht].
  destruct (Ht i ri Hi Ha) as [? Hsm]. unfold item_bits in *. rewrite Hz in *.
  pose proof (tb_items _ (pk_tables _ Hpd) i ri Hi Ha) as Hok.
  pose proof (go_index _ _ (ro_globals _ _ Hok)) as Hix. pose proof (pk_reports _ Hpd).
  destruct (at_exists (pd_reports pd) (g_reportIndex (ri_globals ri))) as [r Hr]; [lia|].
  specialize (Hb r Hr). pose proof (Hzs _ r (ri_reportType ri) (proj2 Hix) Hr).
  split; [|lia]. apply s32_id. lia.
Qed.

Lemma page_items_spec m : ∀ i inc really pre rest iValue t,
  0 ≤ i → i + Z.of_nat m ≤ pd_reportItemCount pd →
  let items := take m (drop (Z.to_nat i) (pd_reportItems pd)) in
  let us := pressed_buttons items in
  Forall readable items →
  zlen pre ≤ max ≤ zlen pre + zlen rest →
  ∃ iValue' t', page_items reportType usagePage pd rep len max m i inc really
      (pre ++ rest, zlen pre, iValue, t) =
    Ret (if zlen pre + zlen us <=? max
         then (page_status items (pre ++ us) inc really,
               (appended max pre us rest, zlen pre + zlen us, iValue', t'))
         else (kHIDBufferTooSmallErr, (appended max pre us rest, max, iValue', t'))).
Proof using Hpd Hsmall Hrep Hlen Hne.
  pose proof (pk_items _ Hpd). induction m as [|m IH];
    intros i inc really pre rest iValue t Hi Hm items us HF Hmax; subst items us; cbn [page_items].
  { exists iValue, t. rewrite take_0 in *. unfold pressed_buttons. cbn [mbind list_bind].
    change (zlen []) with 0. rewrite Z.add_0_r, app_nil_r, appended_nil, (proj2 (Z.leb_le (zlen pre) max)) by lia.
    unfold page_status. cbn [existsb]. rewrite !orb_false_r. destruct pre; [done|].
    rewrite zlen_cons, (proj2 (Z.eqb_neq (1 + _) 0)) by (pose proof (zlen_nonneg pre); lia). done. }
  destruct (at_exists (pd_reportItems pd) i) as [ri Ha]; [lia|].
  rewrite (proj2 (aget_at _ _ _) Ha). cbn [obind].
  rewrite (drop_S _ _ _ (proj2 Ha)) in *. cbn [take] in *. replace (S (Z.to_nat i)) with (Z.to_nat (i + 1)) in * by lia.
  apply Forall_cons in HF as [Hr HF]. set (items := take m _) in *.
  assert (item_of pd ri) as Hri by (exists i; split; [lia|done]).
  pose proof (item_of_ok pd ri Hpd Hri) as Hok.
  destruct (safe_elim _ _ (HIDIsButton_safe pd ri Hpd Hok)) as (b & Eb & _). rewrite Eb. cbn [obind].
  assert (is_button ri = b) as Hbut by (unfold is_button; by rewrite Eb).
  unfold pressed_buttons, page_status. cbn [mbind list_bind existsb]. rewrite Hbut.
  destruct b; cbn [andb orb app].
  2: { specialize (IH (i + 1) inc really pre rest iValue t ltac:(lia) ltac:(lia) HF Hmax). exact IH. }
  destruct (Hr Eb) as [Ec|[Ec Hb]]; rewrite Ec; cbn [obind].
  { assert (accepted ri = false) as -> by (unfold accepted; by rewrite Ec).
    change (kHIDIncompatibleReportErr =? kHIDIncompatibleReportErr) with true. cbn [negb app orb].
    rewrite orb_true_r.
    specialize (IH (i + 1) true really pre rest iValue t ltac:(lia) ltac:(lia) HF Hmax). exact IH. }
  assert (accepted ri = true) as -> by (unfold accepted; by rewrite Ec).
  change (kHIDSuccess =? kHIDIncompatibleReportErr) with false.
  change (negb (kHIDSuccess =? kHIDSuccess)) with false. cbn [negb orb]. rewrite orb_true_r.
  destruct (item_start_small ri Hri Ec (bm_size _ _ Hb)) as [Es Hcnt].
  destruct (page_elements_bitmap reportType ri (Z.to_nat (g_reportCount (ri_globals ri))) 0 pre rest iValue t)
    as (iV1 & t1 & E1); try done; try lia.
  rewrite Z.add_0_r, Es in E1. rewrite E1. cbn [obind]. clear E1.
  fold (pressed pd usagePage ri rep). set (us := pressed pd usagePage ri rep).
  rewrite zlen_app, appended_app, Z.add_assoc. fold (pressed_buttons items).
  pose proof (zlen_nonneg us). pose proof (zlen_nonneg (pressed_buttons items)).
  destruct (Z.leb_spec (zlen pre + zlen us) max).
  2: { rewrite (proj2 (Z.leb_gt (_ + _ + _) max)) by lia. by exists iV1, t1. }
  rewrite appended_fits by done.
  assert (zlen (drop (length us) rest) = zlen rest - zlen us) as Hd
    by (unfold zlen in *; rewrite length_drop; lia).
  destruct (IH (i + 1) inc true (pre ++ us) (drop (length us) rest) iV1 t1) as (iV2 & t2 & E2);
    [lia|lia|done|rewrite zlen_app; lia|].
  rewrite zlen_app in E2. exists iV2, t2. rewrite E2. fold items.
  unfold page_status. rewrite <- app_assoc. done.
Qed.
End OnPage.

(** The report items of a collection. *)
Definition collection_items (pd : HIDPreparsedData) (col : HIDCollection) : list HIDReportItem :=
  take (Z.to_nat (c_reportItemCount col)) (drop (Z.to_nat (c_firstReportItem col)) (pd_reportItems pd)).

Lemma check_collection_valid pd iCollection :
  pd_hidTypeIfValid pd = kHIDOSType → 0 ≤ iCollection < pd_collectionCount pd →
  check_collection pd iCollection = kHIDSuccess.
Proof.
  intros Hv Hc. unfold check_collection. rewrite Hv, Z.eqb_refl. cbn [negb].
  by rewrite (proj2 (Z.ltb_ge iCollection 0)), (proj2 (Z.leb_gt _ iCollection)) by lia.
Qed.

(** ** Pressing a button *)
Section SetButton.
Context (reportType usagePage usage : Z) (pd : HIDPreparsedData) (rep : list Z) (len : Z).

(** The first button item of this report that has the usage, and the
    index [HIDHasUsage] gives it. *)
Fixpoint find_button (items : list HIDReportItem) : option (HIDReportItem * Z) :=
  match items with
  | [] => None
  | ri :: items =>
      match button_usage pd usagePage usage ri, HIDCheckReport reportType pd ri rep len with
      | Ret None, _ => find_button items
      | Ret (Some k), Ret st =>
          if st =? kHIDIncompatibleReportErr then find_button items
          else if st =? kHIDSuccess then Some (ri, k) else None
      | _, _ => None
      end
  end.

(** What the code does to the item it finds. *)
Definition press (ri : HIDReportItem) (k : Z) : outcome (OSStatus * list Z) :=
  if is_array ri then set_array_button (Z.to_nat (g_reportCount (ri_globals ri))) 0 ri rep len k
  else HIDPutData rep len (u32 (item_start ri k)) (g_reportSize (ri_globals ri)) (-1).

Lemma set_button_items_found ri k m : ∀ i inc really,
  0 ≤ i → (is_array ri = false → g_reportSize (ri_globals ri) = 1) →
  Z.of_nat m = zlen (take m (drop (Z.to_nat i) (pd_reportItems pd))) →
  find_button (take m (drop (Z.to_nat i) (pd_reportItems pd))) = Some (ri, k) →
  set_button_items m i pd reportType usagePage usage rep len inc really = press ri k.
Proof using.
  induction m as [|m IH]; intros i inc really Hi Hone Hl Hf; [done|].
  destruct (drop (Z.to_nat i) (pd_reportItems pd)) as [|ri0 rest] eqn:Ed;
    [by rewrite take_nil in Hl; change (zlen []) with 0 in Hl; lia|].
  destruct (drop_cons_at _ _ _ _ Hi Ed) as [Ha Ed']. cbn [set_button_items take] in *.
  rewrite (proj2 (aget_at _ _ _) Ha). cbn [obind find_button] in *. rewrite zlen_cons in Hl.
  rewrite <- Ed' in *.
  destruct (button_usage pd usagePage usage ri0) as [[k0|]|]; cbn [obind];
    [|apply IH; try done; lia|done].
  destruct (HIDCheckReport reportType pd ri0 rep len) as [st|]; [|done]. cbn [obind].
  destruct (st =? kHIDIncompatibleReportErr); [apply IH; try done; lia|].
  destruct (st =? kHIDSuccess); [|done]. injection Hf as -> ->. cbn [negb]. unfold press.
  destruct (is_array ri); [done|]. by rewrite Hone.
Qed.

Lemma find_button_inv items ri k :
  find_button items = Some (ri, k) →
  ri ∈ items ∧ HIDCheckReport reportType pd ri rep len = Ret kHIDSuccess ∧
  button_usage pd usagePage usage ri = Ret (Some k).
Proof using.
  induction items as [|ri0 items IH]; cbn [find_button]; [done|]. intros Hf.
  assert (find_button items = Some (ri, k) →
    ri ∈ ri0 :: items ∧ HIDCheckReport reportType pd ri rep len = Ret kHIDSuccess ∧
    button_usage pd usagePage usage ri = Ret (Some k)) as IH'.
  { intros (? & ?)%IH. split; [by right|done]. }
  destruct (button_usage pd usagePage usage ri0) as [[k0|]|] eqn:Eb; [|by apply IH'|done].
  destruct (HIDCheckReport reportType pd ri0 rep len) as [st|] eqn:Ec; [|done].
  destruct (_ =? kHIDIncompatibleReportErr); [by apply IH'|].
  destruct (Z.eqb_spec st kHIDSuccess) as [->|]; [|done]. injection Hf as -> ->.
  split; [by left|done].
Qed.
End SetButton.

Lemma collection_items_of pd col i :
  preparsed_ok pd → i < pd_collectionCount pd → at_ (pd_collections pd) i col →
  0 ≤ c_firstReportItem col ∧ c_firstReportItem col + c_reportItemCount col ≤ pd_reportItemCount pd ∧
  Z.of_nat (Z.to_nat (c_reportItemCount col)) = zlen (collection_items pd col) ∧
  ∀ ri, ri ∈ collection_items pd col → item_of pd ri.
Proof.
  intros Hpd Hi Hcol. pose proof (pk_items _ Hpd) as Hit. unfold zlen in Hit.
  destruct (tb_collections _ (pk_tables _ Hpd) i col Hi Hcol). 
  split; [lia|]. split; [lia|]. split.
  - unfold collection_items, zlen. rewrite length_take, length_drop. lia.
  - intros ri (j & Hj)%list_elem_of_lookup. unfold collection_items in Hj.
    apply lookup_take_Some in Hj as [Hj Hlt]. rewrite lookup_drop in Hj.
    exists (c_firstReportItem col + Z.of_nat j). split; [lia|]. split; [lia|].
    by replace (Z.to_nat (c_firstReportItem col + Z.of_nat j)) with (Z.to_nat (c_firstReportItem col) + j)%nat by lia.
Qed.

(** ** Theorems *)
Section Theorems.
Context (reportType usagePage iCollection : Z) (pd : HIDPreparsedData) (col : HIDCollection).
Context (rep : list Z) (len : Z).
Hypothesis Hpd : preparsed_ok pd.
Hypothesis Hvalid : pd_hidTypeIfValid pd = kHIDOSType.
Hypothesis Hsmall : small pd.
Hypothesis Hrange : 0 ≤ iCollection < pd_collectionCount pd.
Hypothesis Hcol : at_ (pd_collections pd) iCollection col.
Hypothesis Hrep : bytes_ok rep.
Hypothesis Hlen : len ≤ zlen rep.
Hypothesis Hne : 0 < zlen rep.


(** [HIDSetButton] presses the button and nothing else: when the first
    button item of this report with the usage is a bitmap and the index
    found is one of its elements, exactly that bit of the report becomes
    set; and when the item's usages are single ones and its values are not
    reversed, the button is then among the pressed buttons of the item. *)
Theorem set_button_presses usage ri k :
  find_button reportType usagePage usage pd rep len (collection_items pd col) = Some (ri, k) →
  bitmap pd ri → 0 ≤ k < g_reportCount (ri_globals ri) →
  ∃ rep', HIDSetButton reportType usagePage iCollection usage (Some pd) (Some rep) len
      = Ret (kHIDSuccess, Some rep') ∧
    zlen rep' = zlen rep ∧
    (∀ j, 0 ≤ j → rbit rep' j = (j =? ri_startBit ri + k) || rbit rep j) ∧
    (Forall single_item (usage_items pd ri) → usagePage ≠ 0 → ri_flags ri = 0 →
     ri_usageItemCount ri < 4294967296 → usage ∈ pressed pd usagePage ri rep').
Proof using All.
  intros Hf Hb Hk. destruct (collection_items_of pd col iCollection Hpd ltac:(lia) Hcol) as (H0 & H1 & Hl & Hof).
  destruct (find_button_inv _ _ _ _ _ _ _ _ _ Hf) as (Hin & Hc & Hu). apply Hof in Hin as Hri.
  destruct (element_in_report pd Hpd Hsmall reportType ri rep len k Hri Hrep Hlen Hne Hc)
    as [Es Hfield]; [rewrite (bm_size _ _ Hb); lia|done|].
  rewrite (bm_size _ _ Hb), Z.mul_1_l in Es. rewrite (bm_size _ _ Hb) in Hfield.
  destruct (HIDPutData_spec rep len _ 1 (-1) Hfield) as (rep' & Hput & Hz & _ & Hbits).
  assert (∀ j, 0 ≤ j → rbit rep' j = (j =? ri_startBit ri + k) || rbit rep j) as Hbits'.
  { intros j Hj. rewrite Hbits by done. unfold put_bits. rewrite Es.
    destruct (Z.eqb_spec j (ri_startBit ri + k)) as [->|].
    - rewrite (proj2 (Z.leb_le _ _)), (proj2 (Z.ltb_lt _ _)) by lia. cbn [andb orb].
      rewrite <- Es. rewrite (placed_value _ 1); [|destruct Hfield as (?&?&?&?&?); lia
        |unfold fits; Z.div_mod_to_equations; lia|lia].
      by rewrite Z.sub_diag.
    - destruct (Z.leb_spec (ri_startBit ri + k) j), (Z.ltb_spec j (ri_startBit ri + k + 1)); done || lia. }
  exists rep'. split; [|split; [done|split; [done|]]].
  - unfold HIDSetButton. cbv zeta. rewrite check_collection_valid by done.
    change (kHIDSuccess =? kHIDSuccess) with true. cbn [negb].
    rewrite (proj2 (aget_at _ _ _) Hcol). cbn [obind].
    rewrite (set_button_items_found reportType usagePage usage pd rep len ri k);
      [|done|by intros _; apply bm_size with pd|exact Hl|exact Hf].
    unfold press. rewrite (bm_variable _ _ Hb), (bm_size _ _ Hb), Hput. done.
  - intros HS Hpage Hfl Hcnt. unfold button_usage in Hu.
    apply obind_Ret_inv in Hu as ([] & _ & Hu); [|done].
    apply obind_Ret_inv in Hu as ([[[] idx] cnt] & Hhas & Hu); [|done].
    destruct idx as [idx|]; [|done]. injection Hu as ->.
    destruct (HasUsage_index_single pd ri usagePage usage None k cnt Hpd Hvalid
      (item_of_ok _ _ Hpd Hri) HS) as (up & Hup & <- & Hp); [|done|done|].
    { eapply Forall_impl; [apply (bm_plain _ _ Hb)|]. by intros ? (_ & _ & ?). }
    destruct Hp as [?|Hp]; [done|].
    destruct (item_start_small pd rep len Hpd Hsmall reportType ri Hri Hc (bm_size _ _ Hb)) as [_ Hrc].
    rewrite FromIndex_nth in Hup; [|done|by apply (item_of_ok pd)|apply (bm_plain _ _ Hb)|lia].
    injection Hup as Hup. apply list_elem_of_omap. exists k. split; [apply elem_of_seqZ; lia|].
    unfold pressed_on, pressed_bit, element_usage. rewrite Hup, Hp, Z.eqb_refl.
    destruct Hri as (i & Hi & Ha). destruct (ly_inside _ (pk_layout _ Hpd Hsmall) i ri Hi Ha) as (Hs0 & _).
    rewrite Hbits', Z.eqb_refl by lia. unfold HIDPostProcessRIValue. by rewrite Hfl.
Qed.
End Theorems.

(** [HIDUsageListDifference] computes the two set differences: with four
    lists of the given length, the make list holds, each once, the non-zero
    usages that are in the current list and not in the previous one, the
    break list those that are in the previous one and not in the current
    one, and both are zero from there on. *)
Theorem usage_list_difference prev cur brk make n :
  zlen prev = n → zlen cur = n → zlen brk = n → zlen make = n →
  ∃ made broken,
    HIDUsageListDifference prev cur brk make n =
      Ret (kHIDSuccess, made ++ replicate (Z.to_nat (n - zlen made)) 0,
           broken ++ replicate (Z.to_nat (n - zlen broken)) 0) ∧
    NoDup made ∧ NoDup broken ∧
    (∀ u, u ∈ made ↔ u ∈ cur ∧ u ≠ 0 ∧ u ∉ prev) ∧ (∀ u, u ∈ broken ↔ u ∈ prev ∧ u ≠ 0 ∧ u ∉ cur).
Proof.
  intros Hp Hc Hb Hm. exists (difference cur prev), (difference prev cur).
  split; [by apply UsageListDifference_spec|]. unfold difference.
  split; [apply diff_from_nodup, NoDup_nil_2|]. split; [apply diff_from_nodup, NoDup_nil_2|].
  split; intros u; rewrite diff_from_elem; set_solver.
Qed.

(** [HIDGetButtons] does not check the collection: a collection past the
    end of the table is read out of bounds, where [HIDGetButtonsOnPage]
    returns an error. *)
Theorem get_buttons_unchecked reportType usagePage iCollection l ul max pd rep len :
  pd_hidTypeIfValid pd = kHIDOSType → zlen (pd_collections pd) ≤ iCollection →
  pd_collectionCount pd ≤ zlen (pd_collections pd) →
  HIDGetButtons reportType iCollection (Some l) (Some max) (Some pd) (Some rep) len = Fault OutOfBounds ∧
  HIDGetButtonsOnPage reportType usagePage iCollection (Some ul) (Some max) (Some pd) (Some rep) len =
    Ret (kHIDBadParameterErr, Some ul, Some max).
Proof.
  intros Hv Hi Hc. split.
  - unfold HIDGetButtons. rewrite Hv, Z.eqb_refl. cbn [negb]. unfold aget.
    by rewrite (proj2 (Z.ltb_ge iCollection _)), andb_false_r by lia.
  - unfold HIDGetButtonsOnPage, check_collection. rewrite Hv, Z.eqb_refl. cbn [negb].
    by rewrite (proj2 (Z.leb_le _ iCollection)), orb_true_r by lia.
Qed.

(** The theorems at samples: the mouse, and an output report of two lamps
    (single usages of the LED page) followed by padding. *)
Definition lamps_descriptor : list Z :=
  [ 0x05; 0x01; 0x09; 0x06; 0xA1; 0x01; 0x05; 0x08; 0x09; 0x01; 0x09; 0x02; 0x15; 0x00; 0x25; 0x01;
    0x95; 0x02; 0x75; 0x01; 0x91; 0x02; 0x95; 0x01; 0x75; 0x06; 0x91; 0x03; 0xC0 ].
Definition lamps_open : outcome (OSStatus * option (option PreparsedRef) * gmap Z Z) :=
  HIDOpenReportDescriptor any_stack (Some lamps_descriptor) 29 (Some None) 1 ∅.
Definition lamps_pd : HIDPreparsedData := Eval vm_compute in
  match lamps_open with Ret (_, Some (Some (_, pd)), _) => pd | _ => zeroPreparsedData end.
Definition lamps_heap : gmap Z Z := Eval vm_compute in
  match lamps_open with Ret (_, _, h) => h | _ => ∅ end.

Lemma lamps_ok : preparsed_ok lamps_pd ∧ pd_hidTypeIfValid lamps_pd = kHIDOSType.
Proof.
  destruct (opened_result any_stack lamps_descriptor 29 1 None (∅ : gmap Z Z) kHIDSuccess 1 lamps_pd
    lamps_heap) as (_ & ? & ? & _); try done.
  split; [repeat constructor; lia|]. by vm_compute.
Qed.
Lemma lamps_small : small lamps_pd.
Proof. split; [by vm_compute|]. apply table_Forall. repeat constructor; by vm_compute. Qed.

Definition first_item (pd : HIDPreparsedData) : HIDReportItem :=
  match pd_reportItems pd with ri :: _ => ri | [] => zeroReportItem end.
Definition first_collection (pd : HIDPreparsedData) : HIDCollection :=
  match pd_collections pd with c :: _ => c | [] => zeroCollection end.

Lemma lamps_bitmap : bitmap lamps_pd (first_item lamps_pd).
Proof. split; [done|done|repeat constructor; by vm_compute|done]. Qed.
Lemma lamps_byte b : is_u8 b → bytes_ok [b].
Proof. intros H. by apply Forall_singleton. Qed.


Lemma set_button_presses_witness :
  ∃ rep', HIDSetButton kHIDOutputReport 8 0 2 (Some lamps_pd) (Some [0]) 1 = Ret (kHIDSuccess, Some rep') ∧
    zlen rep' = 1 ∧ (∀ j, 0 ≤ j → rbit rep' j = (j =? 1) || rbit [0] j) ∧
    2 ∈ pressed lamps_pd 8 (first_item lamps_pd) rep'.
Proof.
  destruct (set_button_presses kHIDOutputReport 8 0 lamps_pd (first_collection lamps_pd) [0] 1
    (proj1 lamps_ok) (proj2 lamps_ok) lamps_small ltac:(by vm_compute) ltac:(by split)
    ltac:(by apply lamps_byte) ltac:(done) ltac:(done) 2 (first_item lamps_pd) 1 ltac:(by vm_compute)
    lamps_bitmap ltac:(by vm_compute)) as (rep' & Hset & Hl & Hb & Hp).
  exists rep'. split; [done|]. split; [done|]. split; [done|].
  apply Hp; [repeat constructor; by vm_compute|done|done|by vm_compute].
Defined.

Lemma usage_list_difference_witness :
  ∃ made broken, HIDUsageListDifference [4; 5; 0] [5; 6; 6] [9; 9; 9] [9; 9; 9] 3 =
      Ret (kHIDSuccess, made ++ replicate (Z.to_nat (3 - zlen made)) 0,
           broken ++ replicate (Z.to_nat (3 - zlen broken)) 0) ∧
    NoDup made ∧ NoDup broken ∧
    (∀ u, u ∈ made ↔ u ∈ [5; 6; 6] ∧ u ≠ 0 ∧ u ∉ [4; 5; 0]) ∧
    (∀ u, u ∈ broken ↔ u ∈ [4; 5; 0] ∧ u ≠ 0 ∧ u ∉ [5; 6; 6]).
Proof. apply (usage_list_difference [4; 5; 0] [5; 6; 6] [9; 9; 9] [9; 9; 9] 3); reflexivity. Defined.

Lemma get_buttons_unchecked_witness :
  HIDGetButtons 1 3 (Some [None]) (Some 1) (Some mouse_pd) (Some mouse_report) 3 = Fault OutOfBounds ∧
  HIDGetButtonsOnPage 1 9 3 (Some [0]) (Some 1) (Some mouse_pd) (Some mouse_report) 3 =
    Ret (kHIDBadParameterErr, Some [0], Some 1).
Proof. apply (get_buttons_unchecked 1 9 3 [None] [0] 1 mouse_pd mouse_report 3); by vm_compute. Defined.
