(* ===== verification/HIDReport.v ===== *)
(** * Report lengths and initial reports ([HIDGetReportLength.c],
    [HIDInitReport.c]) *)
From S2P Require Import Prelude HIDTypes HIDNextItem PoolAlloc HIDCount HIDParse HIDOpenClose.
From S2P Require Import HIDParseInv HIDLayout HIDOpenSafe HIDBits HIDUsage HIDValues HIDButtons.

(** ** The code *)

(** "Go through the Reports": the length of the first report with that ID,
    zero when there is none; [None] for an unknown report type. *)
Fixpoint report_length (n : nat) (iR : Z) (pd : HIDPreparsedData) (reportType reportID : Z)
    : outcome (option Z) :=
  match n with
  | O => Ret (Some 0)
  | S n =>
      let* r := aget (pd_reports pd) iR in
      if rs_reportID r =? reportID then
        Ret (match report_bits reportType r with
             | Some bits => Some (u32 (Z.quot (s32 (bits + 7)) 8))
             | None => None
             end)
      else report_length n (iR + 1) pd reportType reportID
  end.

(** Result: the status and the contents of [*reportLength]. *)
Definition HIDGetReportLength (reportType reportID : Z) (reportLength : option (option Z))
    (ptPreparsedData : option HIDPreparsedData) : outcome (OSStatus * option (option Z)) :=
  match ptPreparsedData, reportLength with
  | Some pd, Some _ =>
      if negb (pd_hidTypeIfValid pd =? kHIDOSType) then Ret (kHIDInvalidPreparsedDataErr, reportLength)
      else
        let* r := report_length (Z.to_nat (pd_reportCount pd)) 0 pd reportType reportID in
        match r with
        | None => Ret (kHIDInvalidReportTypeErr, reportLength)
        | Some dataLength =>
            if ((reportID =? 0) && (0 <? dataLength)) || (1 <? dataLength)
            then Ret (noErr, Some (Some dataLength))
            else Ret (kHIDUsageNotFoundErr, Some (Some 0))
        end
  | _, _ => Ret (kHIDNullPointerErr, reportLength)
  end.

(** "Is there a null value for this item?": the value an item outside its
    logical range starts with; zero when it has none or needs none. *)
Definition null_value (ri : HIDReportItem) : outcome Z :=
  let g := ri_globals ri in
  if (0 <? g_logicalMinimum g) || (g_logicalMaximum g <? 0) then Ret 0
  else
    let bitSize := s32 (g_reportSize g) in
    if (bitSize - 1 <? 0) || (32 <=? bitSize - 1) then Fault BadShift else
    let bitwiseMin := s32 (Z.shiftl (-1) (bitSize - 1)) in
    let isSigned := (g_logicalMinimum g <? 0) || (Z.land (g_logicalMaximum g) bitwiseMin =? 0) in
    let bitSize := if isSigned then bitSize - 1 else bitSize in
    let bitwiseMin := if isSigned then bitwiseMin else 0 in
    let bitSize := if 32 <=? bitSize then 31 else bitSize in
    let bitwiseMax := s32 (s32 (Z.shiftl 1 bitSize) - 1) in
    Ret (if g_logicalMaximum g <? bitwiseMax then bitwiseMax
         else if bitwiseMin <? g_logicalMinimum g then bitwiseMin
         else 0).

(** "there can be multiple identical usages": one field per usage item. *)
Fixpoint put_nulls (n : nat) (lR : Z) (ri : HIDReportItem) (nullValue : Z) (rep : list Z) (len : Z)
    (iStatus : OSStatus) : outcome (OSStatus * list Z) :=
  match n with
  | O => Ret (iStatus, rep)
  | S n =>
      let* '(tempStatus, rep) := HIDPutData rep len
        (u32 (s32 (ri_startBit ri + g_reportSize (ri_globals ri) * lR)))
        (g_reportSize (ri_globals ri)) nullValue in
      put_nulls n (lR + 1) ri nullValue rep len
        (if negb (tempStatus =? 0) then tempStatus else iStatus)
  end.

(** The body of the loop over the report items. *)
Definition init_item (ri : HIDReportItem) (reportType reportID : Z) (rep : list Z) (len : Z)
    (iStatus : OSStatus) : outcome (OSStatus * list Z) :=
  if (ri_reportType ri =? reportType) && (g_reportID (ri_globals ri) =? reportID) then
    let* nullValue := null_value ri in
    if negb (nullValue =? 0) then
      let '(_, nullValue) := HIDPreProcessRIValue ri nullValue in
      put_nulls (Z.to_nat (ri_usageItemCount ri)) 0 ri nullValue rep len iStatus
    else Ret (iStatus, rep)
  else Ret (iStatus, rep).

Fixpoint init_items (n : nat) (iR : Z) (pd : HIDPreparsedData) (reportType reportID : Z)
    (rep : list Z) (len : Z) (iStatus : OSStatus) : outcome (OSStatus * list Z) :=
  match n with
  | O => Ret (iStatus, rep)
  | S n =>
      let* ri := aget (pd_reportItems pd) iR in
      let* '(iStatus, rep) := init_item ri reportType reportID rep len iStatus in
      init_items n (iR + 1) pd reportType reportID rep len iStatus
  end.

Definition HIDInitReport (reportType reportID : Z) (ptPreparsedData : option HIDPreparsedData)
    (report : option (list Z)) (reportLength : Z) : outcome (OSStatus * option (list Z)) :=
  match ptPreparsedData, report with
  | Some pd, Some rep =>
      if negb (pd_hidTypeIfValid pd =? kHIDOSType) then Ret (kHIDInvalidPreparsedDataErr, report)
      else if reportLength =? 0 then Ret (kHIDReportSizeZeroErr, report)
      else
        let* '(_, minLength) := HIDGetReportLength reportType reportID (Some None) ptPreparsedData in
        match minLength with
        | Some (Some minLength) =>
            if reportLength <? minLength then Ret (kHIDInvalidReportLengthErr, report) else
            (* First byte of report must be reportID, the rest zero *)
            let* rep := aset rep 0 reportID in
            let* rep := clear_rest (Z.to_nat (reportLength - 1)) 1 rep in
            let* '(st, rep) := init_items (Z.to_nat (pd_reportItemCount pd)) 0 pd reportType reportID
                                 rep reportLength kHIDSuccess in
            Ret (st, Some rep)
        | _ => Fault Uninit
        end
  | _, _ => Ret (kHIDNullPointerErr, report)
  end.

(** ** Null values *)
Lemma shiftl_m1 k : 0 ≤ k → Z.shiftl (-1) k = - 2 ^ k.
Proof. intros. rewrite Z.shiftl_mul_pow2 by done. lia. Qed.

(** A non-negative number meets the mask of the digits from [k] up exactly
    when it is at least [2^k]. *)
Lemma land_high m k : 0 ≤ m → 0 ≤ k → (Z.land m (- 2 ^ k) =? 0) = (m <? 2 ^ k).
Proof.
  intros Hm Hk. replace (- 2 ^ k) with (Z.lnot (Z.ones k)) by (rewrite Z.ones_equiv; unfold Z.lnot; lia).
  rewrite <- Z.ldiff_land, Z.ldiff_ones_r, Z.shiftl_mul_pow2, Z.shiftr_div_pow2 by done.
  assert (0 < 2 ^ k) by lia. destruct (Z.ltb_spec m (2 ^ k)).
  - by rewrite Z.div_small.
  - apply Z.eqb_neq. pose proof (Z.div_le_lower_bound m (2 ^ k) 1 ltac:(lia) ltac:(lia)). nia.
Qed.

Section Null.
Context (ri : HIDReportItem).
Let lo := g_logicalMinimum (ri_globals ri).
Let hi := g_logicalMaximum (ri_globals ri).
Let size := g_reportSize (ri_globals ri).
Hypothesis Hsize : 1 ≤ size ≤ 32.
Hypothesis Hlo : is_s32 lo.
Hypothesis Hhi : is_s32 hi.

(** The values the code takes the field to hold: signed when the range has
    negative values or leaves the top digit clear. *)
Definition field_min : Z := if (lo <? 0) || (hi <? 2 ^ (size - 1)) then - 2 ^ (size - 1) else 0.
Definition field_max : Z :=
  if (lo <? 0) || (hi <? 2 ^ (size - 1)) then 2 ^ (size - 1) - 1 else 2 ^ size - 1.

Lemma null_value_spec :
  null_value ri = Ret (
    if (0 <? lo) || (hi <? 0) then 0
    else if hi <? field_max then field_max
    else if field_min <? lo then field_min else 0).
Proof using Hsize Hlo Hhi.
  unfold null_value, field_min, field_max. fold lo hi size.
  destruct ((0 <? lo) || (hi <? 0)) eqn:E0; [done|].
  apply orb_false_iff in E0 as [_ H0%Z.ltb_ge]. cbv zeta.
  rewrite (s32_id size) by lia.
  rewrite (proj2 (Z.ltb_ge (size - 1) 0)), (proj2 (Z.leb_gt 32 (size - 1))) by lia. cbn [orb].
  assert (2 ^ (size - 1) ≤ 2 ^ 31) by (apply Z.pow_le_mono_r; lia).
  assert (0 < 2 ^ (size - 1)) by lia.
  rewrite shiftl_m1, (s32_id (- _)), land_high by lia.
  assert (∀ k, 0 ≤ k ≤ 31 → s32 (s32 (Z.shiftl 1 k) - 1) = 2 ^ k - 1) as Hmax.
  { intros k Hk. rewrite Z.shiftl_1_l. destruct (decide (k = 31)) as [->|]; [done|].
    assert (2 ^ k ≤ 2 ^ 30) by (apply Z.pow_le_mono_r; lia). assert (0 < 2 ^ k) by lia.
    rewrite !s32_id by (rewrite ?s32_id; lia). done. }
  destruct (_ || _) eqn:Es.
  - rewrite (proj2 (Z.leb_gt 32 (size - 1))), Hmax by lia. done.
  - assert (size ≠ 32) by (intros E; rewrite E in Es; apply orb_false_iff in Es as [_ ?%Z.ltb_ge]; lia).
    rewrite (proj2 (Z.leb_gt 32 size)), Hmax by lia. done.
Qed.
End Null.

(** ** The length of a report *)
Lemma report_length_first pd reportType reportID n : ∀ i k r bits,
  0 ≤ i ≤ k → k < i + Z.of_nat n → at_ (pd_reports pd) k r → rs_reportID r = reportID →
  (∀ j r', i ≤ j < k → at_ (pd_reports pd) j r' → rs_reportID r' ≠ reportID) →
  report_bits reportType r = Some bits →
  report_length n i pd reportType reportID = Ret (Some (u32 (Z.quot (s32 (bits + 7)) 8))).
Proof.
  induction n as [|n IH]; intros i k r bits Hi Hn Hr Hid Hfirst Hb; [lia|]. cbn [report_length].
  pose proof (at_range _ _ _ Hr). destruct (at_exists (pd_reports pd) i) as [r0 Hr0]; [lia|].
  rewrite (proj2 (aget_at _ _ _) Hr0). cbn [obind].
  destruct (decide (i = k)) as [->|].
  - assert (r0 = r) as -> by (by eapply at_fun). by rewrite Hid, Z.eqb_refl, Hb.
  - rewrite (proj2 (Z.eqb_neq _ _)) by (apply (Hfirst i); [lia|done]).
    apply (IH (i + 1) k r); try done; [lia|lia|]. intros j r' Hj. apply Hfirst. lia.
Qed.

(** ** The initial report *)
Section Init.
Context (pd : HIDPreparsedData) (reportType reportID len index : Z).
Hypothesis Hpd : preparsed_ok pd.
Hypothesis Hsmall : small pd.

Definition belongs (ri : HIDReportItem) : Prop :=
  ri_reportType ri = reportType ∧ g_reportID (ri_globals ri) = reportID.

(** What the initial report relies on in an item of the report: a field of
    1 to 32 bits for every usage, inside the given length and the field
    functions' window, in the report of that index, past its ID byte. *)
Record initialisable (ri : HIDReportItem) : Prop := {
  in_size : 1 ≤ g_reportSize (ri_globals ri) ≤ 32;
  in_index : g_reportIndex (ri_globals ri) = index;
  in_id : reportID ≠ 0 → 8 ≤ ri_startBit ri;
  in_usages : ri_usageItemCount ri ≤ g_reportCount (ri_globals ri);
  in_length : ri_startBit ri + item_bits ri ≤ 8 * len;
  in_fits : ∀ k, 0 ≤ k < ri_usageItemCount ri →
    fits (ri_startBit ri + g_reportSize (ri_globals ri) * k) (g_reportSize (ri_globals ri)) }.

(** The start of an item's [k]-th field. *)
Definition nth_start (ri : HIDReportItem) (k : Z) : Z :=
  ri_startBit ri + g_reportSize (ri_globals ri) * k.

(** The null value of an item, zero when it has none. *)
Definition null_of (ri : HIDReportItem) : Z :=
  match null_value ri with Ret v => v | Fault _ => 0 end.

(** The value stored in every usage's field. *)
Definition initial (ri : HIDReportItem) : Z :=
  if null_of ri =? 0 then 0 else (HIDPreProcessRIValue ri (null_of ri)).2.

(** The field [s, s + z) keeps clear of the item's usages. *)
Definition clear_of (s z : Z) (ri : HIDReportItem) : Prop :=
  disjoint_fields s z (ri_startBit ri) (g_reportSize (ri_globals ri) * ri_usageItemCount ri).

Lemma null_of_value ri :
  item_of pd ri → initialisable ri → null_value ri = Ret (null_of ri).
Proof using Hpd.
  intros Hri Hin. destruct (ro_globals _ _ (item_of_ok _ _ Hpd Hri)).
  unfold null_of. by rewrite (null_value_spec ri (in_size _ Hin) go_lmin go_lmax).
Qed.

Lemma item_window ri : item_of pd ri → 0 ≤ ri_startBit ri < 1073741840 ∧ 0 ≤ ri_usageItemCount ri.
Proof using Hpd Hsmall.
  intros (i & Hi & Ha). destruct (ly_inside _ (pk_layout _ Hpd Hsmall) i ri Hi Ha) as (H0 & _ & Hb).
  pose proof (tb_items _ (pk_tables _ Hpd) i ri Hi Ha) as Hok.
  pose proof (go_index _ _ (ro_globals _ _ Hok)) as Hix. pose proof (pk_reports _ Hpd).
  destruct (at_exists (pd_reports pd) (g_reportIndex (ri_globals ri))) as [r Hr]; [lia|].
  specialize (Hb r Hr). pose proof (ly_sizes _ (pk_layout _ Hpd Hsmall) _ r (ri_reportType ri) (proj2 Hix) Hr).
  destruct Hsmall as [Hfew Ht]. destruct (Ht i ri Hi Ha) as [Hc _].
  pose proof (go_size _ _ (ro_globals _ _ Hok)). destruct (ro_usages _ _ Hok) as (_ & ? & _).
  unfold item_bits in Hb. split; [|done]. split; [done|]. nia.
Qed.

(** One item: all its usages' fields hold the value, the rest is kept. *)
Lemma put_nulls_spec ri v n : ∀ k rep st,
  item_of pd ri → initialisable ri → zlen rep = len → bytes_ok rep →
  0 ≤ k → k + Z.of_nat n = ri_usageItemCount ri →
  ∃ rep', put_nulls n k ri v rep len st = Ret (st, rep') ∧ zlen rep' = len ∧ bytes_ok rep' ∧
    (∀ j, k ≤ j < ri_usageItemCount ri →
      field rep' (nth_start ri j) (g_reportSize (ri_globals ri)) = v mod 2 ^ g_reportSize (ri_globals ri)) ∧
    (∀ s z, 0 ≤ s → 0 ≤ z →
      disjoint_fields s z (nth_start ri k) (g_reportSize (ri_globals ri) * Z.of_nat n) →
      field rep' s z = field rep s z).
Proof using Hpd Hsmall.
  induction n as [|n IH]; intros k rep st Hri Hin Hl HF Hk Hn; cbn [put_nulls].
  { exists rep. split; [done|]. split; [done|]. split; [done|]. split; [lia|done]. }
  destruct (item_window ri Hri) as [Hs0 _]. pose proof Hin as [Hz _ _ Hu Hlen Hf].
  unfold nth_start in *. set (size := g_reportSize (ri_globals ri)) in *.
  assert (size * (k + 1) ≤ item_bits ri) by (unfold item_bits; fold size; nia).
  assert (item_bits ri < 65536) as Hsm.
  { destruct Hri as (i & Hi & Ha). by destruct (proj2 Hsmall i ri Hi Ha). }
  assert (in_report rep len (ri_startBit ri + size * k) size) as Hir
    by (split; [done|]; repeat split; nia).
  rewrite u32_s32, u32_id by nia.
  destruct (store_put rep len _ size v Hir (Hf k ltac:(lia))) as (rep1 & -> & Hl1 & HF1 & Hsame & Hother).
  cbn [obind]. change (negb (kHIDSuccess =? 0)) with false. cbn [negb].
  destruct (IH (k + 1) rep1 st Hri Hin ltac:(lia) HF1 ltac:(lia) ltac:(lia))
    as (rep' & -> & Hl' & HF' & Hset & Hkeep).
  exists rep'. split; [done|]. split; [done|]. split; [done|]. split.
  - intros j Hj. destruct (decide (j = k)) as [->|]; [|apply Hset; lia].
    rewrite Hkeep; [done|nia|lia|]. left. nia.
  - intros s z Hs Hz0 Hd. unfold disjoint_fields in *.
    rewrite Hkeep by (done || (destruct Hd; [left|right]; nia)).
    apply Hother; [done..|]. destruct Hd; [left|right]; nia.
Qed.

(** One item of any report. *)
Lemma init_item_spec ri rep st :
  item_of pd ri → (belongs ri → initialisable ri) → zlen rep = len → bytes_ok rep →
  ∃ rep', init_item ri reportType reportID rep len st = Ret (st, rep') ∧
    zlen rep' = len ∧ bytes_ok rep' ∧
    (belongs ri → ∀ k, 0 ≤ k < ri_usageItemCount ri →
      field rep' (nth_start ri k) (g_reportSize (ri_globals ri)) =
        if null_of ri =? 0 then field rep (nth_start ri k) (g_reportSize (ri_globals ri))
        else initial ri mod 2 ^ g_reportSize (ri_globals ri)) ∧
    (∀ s z, 0 ≤ s → 0 ≤ z → (belongs ri → clear_of s z ri) → field rep' s z = field rep s z).
Proof using Hpd Hsmall.
  intros Hri Hinit Hl HF. unfold init_item. destruct (_ && _) eqn:Eb.
  2: { exists rep. repeat split; try done. intros [E1%Z.eqb_eq E2%Z.eqb_eq]. by rewrite E1, E2 in Eb. }
  apply andb_prop in Eb as [E1%Z.eqb_eq E2%Z.eqb_eq]. assert (belongs ri) as Hb by done.
  pose proof (Hinit Hb) as Hin. rewrite (null_of_value ri Hri Hin). cbn [obind].
  unfold initial. destruct (null_of ri =? 0); cbn [negb]; [by exists rep|].
  destruct (HIDPreProcessRIValue ri (null_of ri)) as [? v]. cbn [snd].
  destruct (item_window ri Hri) as [Hs0 Hu0].
  destruct (put_nulls_spec ri v (Z.to_nat (ri_usageItemCount ri)) 0 rep st)
    as (rep1 & -> & ? & ? & Hs & Hk); [done|done|done|done|lia|lia|].
  exists rep1. split; [done|]. split; [done|]. split; [done|]. split.
  - intros _ k Hk0. by apply Hs.
  - intros s z Hs' Hz Hc. apply Hk; [done..|]. specialize (Hc Hb). unfold clear_of in Hc.
    unfold nth_start. rewrite Z.mul_0_r, Z.add_0_r, Z2Nat.id by done. done.
Qed.

(** Items of the report do not overlap. *)
Lemma items_apart i j a b :
  i < j < pd_reportItemCount pd → at_ (pd_reportItems pd) i a → at_ (pd_reportItems pd) j b →
  belongs a → belongs b → initialisable a → initialisable b →
  nth_start a (ri_usageItemCount a) ≤ ri_startBit b.
Proof using Hpd Hsmall.
  intros Hij Ha Hb [Ta _] [Tb _] [? Ia _ ? _ _] [_ Ib _ _ _ _].
  pose proof (ly_order _ (pk_layout _ Hpd Hsmall) i j a b ltac:(lia) ltac:(lia) Ha Hb) as Ho.
  specialize (Ho ltac:(split; congruence)). unfold nth_start, item_bits in *. nia.
Qed.

Lemma init_items_spec n : ∀ i rep st,
  0 ≤ i → i + Z.of_nat n = pd_reportItemCount pd → zlen rep = len → bytes_ok rep →
  (∀ ri, item_of pd ri → belongs ri → initialisable ri) →
  ∃ rep', init_items n i pd reportType reportID rep len st = Ret (st, rep') ∧
    zlen rep' = len ∧ bytes_ok rep' ∧
    (∀ j ri k, i ≤ j < pd_reportItemCount pd → at_ (pd_reportItems pd) j ri → belongs ri →
      0 ≤ k < ri_usageItemCount ri →
      field rep' (nth_start ri k) (g_reportSize (ri_globals ri)) =
        if null_of ri =? 0 then field rep (nth_start ri k) (g_reportSize (ri_globals ri))
        else initial ri mod 2 ^ g_reportSize (ri_globals ri)) ∧
    (∀ s z, 0 ≤ s → 0 ≤ z →
      (∀ j ri, i ≤ j < pd_reportItemCount pd → at_ (pd_reportItems pd) j ri → belongs ri → clear_of s z ri) →
      field rep' s z = field rep s z).
Proof using Hpd Hsmall.
  pose proof (pk_items _ Hpd). induction n as [|n IH]; intros i rep st Hi Hn Hl HF Hinit; cbn [init_items].
  { exists rep. split; [done|]. split; [done|]. split; [done|]. split; [lia|done]. }
  destruct (at_exists (pd_reportItems pd) i) as [ri Ha]; [lia|].
  rewrite (proj2 (aget_at _ _ _) Ha). cbn [obind].
  assert (∀ j ri, i ≤ j < pd_reportItemCount pd → at_ (pd_reportItems pd) j ri → item_of pd ri) as Hof
    by (intros j ri' Hj ?; exists j; split; [lia|done]).
  assert (item_of pd ri) as Hri by (apply (Hof i); [lia|done]).
  destruct (init_item_spec ri rep st Hri (Hinit ri Hri) Hl HF) as (rep1 & -> & Hl1 & HF1 & Hset1 & Hkeep1).
  cbn [obind]. destruct (IH (i + 1) rep1 st ltac:(lia) ltac:(lia) Hl1 HF1 Hinit)
    as (rep' & -> & Hl' & HF' & Hset & Hkeep).
  exists rep'. split; [done|]. split; [done|]. split; [done|].
  assert (∀ j ri', i < j < pd_reportItemCount pd → at_ (pd_reportItems pd) j ri' → belongs ri →
    belongs ri' → nth_start ri (ri_usageItemCount ri) ≤ ri_startBit ri') as Hapart.
  { intros j ri' Hj Ha' Hb Hb'. apply (items_apart i j); try done; apply Hinit; try done. apply (Hof j); [lia|done]. }
  assert (∀ j ri' k, i ≤ j < pd_reportItemCount pd → at_ (pd_reportItems pd) j ri' → belongs ri' →
    0 ≤ k → 0 ≤ ri_startBit ri' ≤ nth_start ri' k ∧ 0 ≤ ri_usageItemCount ri' ∧
    1 ≤ g_reportSize (ri_globals ri')) as Hpos.
  { intros j ri' k Hj Ha' Hb' Hk. pose proof (Hof j ri' Hj Ha') as Hri'.
    destruct (item_window ri' Hri'). destruct (Hinit ri' Hri' Hb'). unfold nth_start. split; [nia|lia]. }
  split.
  - intros j ri' k Hj Ha' Hb' Hk. destruct (Hpos j ri' k Hj Ha' Hb' ltac:(lia)) as (? & ? & ?).
    destruct (decide (j = i)) as [->|].
    + assert (ri' = ri) as -> by (by eapply at_fun). rewrite Hkeep; [by apply Hset1|lia..|].
      intros j' ri' Hj' Ha'' Hb''. left. specialize (Hapart j' ri' ltac:(lia) Ha'' Hb' Hb'').
      unfold nth_start in *. nia.
    + rewrite (Hset j ri' k) by (done || lia). destruct (null_of ri' =? 0); [|done].
      apply Hkeep1; [lia..|]. intros Hb. right. specialize (Hapart j ri' ltac:(lia) Ha' Hb Hb').
      unfold nth_start in *. nia.
  - intros s z Hs Hz Hc. rewrite Hkeep, Hkeep1; try done.
    + intros Hb. apply (Hc i); [lia|done|done].
    + intros j ri' Hj. apply Hc. lia.
Qed.
End Init.

(** The report before the null values: the ID, then zeros. *)
Lemma blank_field reportID m s z :
  is_u8 reportID → 0 ≤ s → 0 ≤ z → reportID = 0 ∨ 8 ≤ s →
  field (reportID :: replicate m 0) s z = 0.
Proof.
  intros Hid Hs Hz H. unfold field, report_num. cbn [le_val].
  assert (le_val (replicate m 0) = 0) as -> by (induction m; cbn [replicate le_val]; lia).
  rewrite Z.mul_0_r, Z.add_0_r. assert (reportID / 2 ^ s = 0) as ->; [|by apply Z.mod_0_l; lia].
  destruct H as [->|H]; [by apply Z.div_0_l; lia|]. apply Z.div_small.
  assert (2 ^ 8 ≤ 2 ^ s) by (by apply Z.pow_le_mono_r; lia). lia.
Qed.

Lemma blank_bytes reportID m : is_u8 reportID → bytes_ok (reportID :: replicate m 0).
Proof. intros H. apply Forall_cons. split; [done|]. by apply Forall_replicate. Qed.

Lemma blank_id reportID m : is_u8 reportID → field (reportID :: replicate m 0) 0 8 = reportID.
Proof.
  intros H. pose proof (first_byte _ (blank_bytes reportID m H)) as E.
  rewrite zlen_cons, zlen_replicate in E. specialize (E ltac:(lia)). by injection E as <-.
Qed.

(** ** Theorems *)

(** The null value the initial report chooses: for a field of 1 to 32
    bits whose logical range contains 0, a non-zero choice lies outside the
    logical range and is one of the values the field can hold; the choice is
    zero (no null value) only when every value the field can hold is inside
    the logical range.  When the range does not contain 0, zero itself is
    the null value and nothing is stored. *)
Theorem null_value_correct ri :
  let g := ri_globals ri in
  1 ≤ g_reportSize g ≤ 32 → is_s32 (g_logicalMinimum g) → is_s32 (g_logicalMaximum g) →
  ∃ v, null_value ri = Ret v ∧
    (v ≠ 0 → (v < g_logicalMinimum g ∨ g_logicalMaximum g < v) ∧ field_min ri ≤ v ≤ field_max ri) ∧
    (v = 0 → g_logicalMinimum g ≤ 0 ≤ g_logicalMaximum g →
     ∀ x, field_min ri ≤ x ≤ field_max ri → g_logicalMinimum g ≤ x ≤ g_logicalMaximum g).
Proof.
  intros g Hs Hlo Hhi. exists (null_of ri).
  assert (0 < 2 ^ (g_reportSize g - 1)) by lia. assert (0 < 2 ^ g_reportSize g) by lia.
  assert (field_min ri ≤ 0 ≤ field_max ri) as Hf
    by (unfold field_min, field_max; fold g; destruct (_ || _); lia).
  unfold null_of. rewrite (null_value_spec ri Hs Hlo Hhi). split; [done|]. fold g.
  destruct (Z.ltb_spec 0 (g_logicalMinimum g)), (Z.ltb_spec (g_logicalMaximum g) 0); cbn [orb];
    [split; intros; lia..|].
  destruct (Z.ltb_spec (g_logicalMaximum g) (field_max ri)); [split; intros; lia|].
  destruct (Z.ltb_spec (field_min ri) (g_logicalMinimum g)); split; intros; lia.
Qed.

(** C19. [HIDInitReport] writes a report in its initial state, when every
    item of the report is initialisable: fields of 1 to 32 bits inside the
    given length that span at most four bytes, no more usage items than
    fields, one report with that ID.  In a buffer at least as long as the
    report it succeeds, stores the ID in the first byte of a report that has
    one, and gives the first fields of every item, one for each of its usage
    items, the item's null value (reversed where the item is), or zero when
    it has none, even though it writes the items one after the other.  Every
    other digit after the ID is zero: so are the further fields of an item
    whose usage item is a range, null value or not. *)
Theorem init_report_initial pd reportType reportID index rep st m :
  preparsed_ok pd → pd_hidTypeIfValid pd = kHIDOSType → small pd →
  is_u8 reportID → 0 < zlen rep →
  (∀ ri, item_of pd ri → belongs reportType reportID ri → initialisable reportID (zlen rep) index ri) →
  HIDGetReportLength reportType reportID (Some None) (Some pd) = Ret (st, Some (Some m)) → m ≤ zlen rep →
  ∃ rep', HIDInitReport reportType reportID (Some pd) (Some rep) (zlen rep) = Ret (kHIDSuccess, Some rep') ∧
    zlen rep' = zlen rep ∧ (reportID ≠ 0 → field rep' 0 8 = reportID) ∧
    (∀ ri k, item_of pd ri → belongs reportType reportID ri → 0 ≤ k < ri_usageItemCount ri →
      field rep' (nth_start ri k) (g_reportSize (ri_globals ri)) =
        initial ri mod 2 ^ g_reportSize (ri_globals ri)) ∧
    (∀ s z, 0 ≤ s → 0 ≤ z → reportID = 0 ∨ 8 ≤ s →
      (∀ ri, item_of pd ri → belongs reportType reportID ri → clear_of s z ri) →
      field rep' s z = 0).
Proof.
  intros Hpd Hv Hsmall Hid Hl Hinit Hlen Hm. pose proof (pk_items _ Hpd).
  set (n := Z.to_nat (zlen rep - 1)).
  assert (zlen (reportID :: replicate n 0) = zlen rep) as Hz by (rewrite zlen_cons, zlen_replicate; lia).
  destruct (init_items_spec pd reportType reportID (zlen rep) index Hpd Hsmall
    (Z.to_nat (pd_reportItemCount pd)) 0 (reportID :: replicate n 0) kHIDSuccess)
    as (rep' & Hrun & Hl' & HF' & Hset & Hkeep);
    [lia|lia|done|by apply blank_bytes|done|].
  exists rep'. split; [|split; [done|split; [|split]]].
  4: { intros s z Hs Hz' Hid8 Hc. rewrite Hkeep; [by apply blank_field|done|done|].
       intros j ri Hj Ha Hb. apply Hc; [|done]. exists j. split; [lia|done]. }
  - unfold HIDInitReport. rewrite Hv, Z.eqb_refl. cbn [negb].
    rewrite (proj2 (Z.eqb_neq (zlen rep) 0)), Hlen by lia. cbn [obind].
    rewrite (proj2 (Z.ltb_ge (zlen rep) m)), aset_in by lia. cbn [obind].
    rewrite clear_rest_spec by (rewrite ?zlen_insert; lia). cbn [obind].
    replace (take (Z.to_nat 1) (<[Z.to_nat 0:=reportID]> rep)) with [reportID].
    2: { destruct rep; [by change (zlen []) with 0 in Hl|]. done. }
    cbn [app]. fold n. rewrite Hrun. done.
  - intros Hnz. rewrite Hkeep; [by apply blank_id|lia|lia|].
    intros j ri Hj Ha Hb. left. apply (in_id reportID (zlen rep) index ri); [|done].
    apply Hinit; [|done]. exists j. split; [lia|done].
  - intros ri k Hri Hb Hk. pose proof (Hinit ri Hri Hb) as Hin. pose proof (in_size _ _ _ _ Hin).
    destruct (item_window pd Hpd Hsmall ri Hri) as [Hs0 _]. pose proof Hri as (j & Hj & Ha).
    pose proof (proj1 Ha). rewrite (Hset j ri k) by (done || lia). unfold initial.
    destruct (null_of ri =? 0); [|done]. rewrite Z.mod_0_l by lia.
    apply blank_field; [done|unfold nth_start; nia|lia|].
    destruct (decide (reportID = 0)) as [|Hnz]; [by left|right].
    pose proof (in_id _ _ _ _ Hin Hnz). unfold nth_start. nia.
Qed.

(** [HIDGetReportLength] and [HIDCheckReport] agree: for the first report
    with the ID, a successful answer is the size of the report in bytes,
    rounded up, and a buffer of at least that length that starts with the ID
    passes the check for every item of that report. *)
Theorem report_length_passes_check pd reportType reportID n k r ri rep len :
  preparsed_ok pd → small pd →
  HIDGetReportLength reportType reportID (Some None) (Some pd) = Ret (noErr, Some (Some n)) →
  k < pd_reportCount pd → at_ (pd_reports pd) k r → rs_reportID r = reportID →
  (∀ j r', 0 ≤ j < k → at_ (pd_reports pd) j r' → rs_reportID r' ≠ reportID) →
  item_of pd ri → belongs reportType reportID ri → g_reportIndex (ri_globals ri) = k →
  n ≤ len → at_ rep 0 reportID → is_u8 reportID →
  n = (bits_of reportType r + 7) / 8 ∧ HIDCheckReport reportType pd ri rep len = Ret kHIDSuccess.
Proof.
  intros Hpd Hsmall Hlen Hk Hr Hid Hfirst Hri [Hty Hrid] Hix Hn Hb Hu8.
  pose proof (ro_type _ _ (item_of_ok _ _ Hpd Hri)) as H13. rewrite Hty in H13.
  pose proof (at_range _ _ _ Hr). destruct Hsmall as [Hfew Ht]. pose proof (pk_items _ Hpd).
  pose proof (ly_sizes _ (pk_layout _ Hpd (conj Hfew Ht)) k r reportType Hk Hr) as Hbits.
  assert (0 ≤ bits_of reportType r ≤ 1073741832) as Hsz by (destruct (1 <=? k); lia).
  assert (report_bits reportType r = Some (bits_of reportType r)) as Hrb.
  { unfold report_bits, bits_of, kHIDInputReport, kHIDOutputReport, kHIDFeatureReport.
    assert (reportType = 1 ∨ reportType = 2 ∨ reportType = 3) as [-> | [-> | ->]] by lia; done. }
  assert (u32 (Z.quot (s32 (bits_of reportType r + 7)) 8) = (bits_of reportType r + 7) / 8) as Hq
    by (rewrite s32_id, Z.quot_div_nonneg, u32_id by (Z.div_mod_to_equations; lia); done).
  assert (n = (bits_of reportType r + 7) / 8) as En.
  { unfold HIDGetReportLength in Hlen. destruct (negb _); [done|].
    rewrite (report_length_first pd reportType reportID _ 0 k r (bits_of reportType r)) in Hlen
      by (done || lia). cbn [obind] in Hlen. rewrite Hq in Hlen. destruct (_ || _); [|done].
    by injection Hlen as <-. }
  split; [done|]. unfold HIDCheckReport. rewrite (proj2 (aget_at _ _ _) Hb). cbn [obind].
  replace (Z.land reportID 255) with reportID
    by (change 255 with (Z.ones 8); rewrite Z.land_ones by lia; by rewrite Z.mod_small by lia).
  rewrite Hrid, Hty, !Z.eqb_refl, andb_false_r. cbn [negb].
  replace ((reportType =? kHIDInputReport) || (reportType =? kHIDOutputReport)
    || (reportType =? kHIDFeatureReport)) with true.
  2: { symmetry. rewrite !orb_true_iff, !Z.eqb_eq.
       unfold kHIDInputReport, kHIDOutputReport, kHIDFeatureReport. lia. }
  rewrite Hix, (proj2 (aget_at _ _ _) Hr). cbn [obind]. rewrite Hrb. unfold default, id.
  by rewrite Hq, (proj2 (Z.ltb_ge len _)) by lia.
Qed.

(** The theorems at the sample mouse: X and Y start out as -128, outside
    their range -127 to 127. *)
Lemma null_value_correct_witness :
  ∃ v, null_value mouse_xy = Ret v ∧
    (v ≠ 0 → (v < -127 ∨ 127 < v) ∧ field_min mouse_xy ≤ v ≤ field_max mouse_xy) ∧
    (v = 0 → -127 ≤ 0 ≤ 127 → ∀ x, field_min mouse_xy ≤ x ≤ field_max mouse_xy → -127 ≤ x ≤ 127).
Proof. apply (null_value_correct mouse_xy); vm_compute; by split. Defined.

Lemma mouse_items (P : HIDReportItem → Prop) :
  Forall P (pd_reportItems mouse_pd) → ∀ ri, item_of mouse_pd ri → P ri.
Proof. intros HF ri (i & _ & _ & Hi). by apply (Forall_lookup_1 _ _ _ _ HF Hi). Qed.

Lemma mouse_initialisable ri : item_of mouse_pd ri → initialisable 0 3 0 ri.
Proof.
  apply (mouse_items (initialisable 0 3 0)).
  repeat apply Forall_cons_2; [..|by apply Forall_nil_2]; split; try (by vm_compute).
  - intros k Hk. cbn in Hk. assert (k = 0) as -> by lia. by vm_compute.
  - intros k Hk. cbn in Hk. lia.
  - intros k Hk. cbn in Hk. assert (k = 0 ∨ k = 1) as [-> | ->] by lia; by vm_compute.
Qed.

Lemma init_report_initial_witness :
  ∃ rep', HIDInitReport 1 0 (Some mouse_pd) (Some [9; 9; 9]) 3 = Ret (kHIDSuccess, Some rep') ∧
    zlen rep' = 3 ∧ field rep' 8 8 = 0x80 ∧ field rep' 16 8 = 0x80.
Proof.
  destruct (init_report_initial mouse_pd 1 0 0 [9; 9; 9] noErr 3 (proj1 mouse_ok) (proj2 mouse_ok)
    mouse_small ltac:(lia) ltac:(by vm_compute) (fun ri H _ => mouse_initialisable ri H)
    ltac:(by vm_compute) ltac:(by vm_compute)) as (rep' & Hrun & Hl & _ & Hset & _).
  exists rep'. split; [done|]. split; [done|].
  assert (item_of mouse_pd mouse_xy) as Hxy by (exists 2; by split).
  pose proof (Hset mouse_xy 0 Hxy (conj eq_refl eq_refl) ltac:(by vm_compute)) as H0.
  pose proof (Hset mouse_xy 1 Hxy (conj eq_refl eq_refl) ltac:(by vm_compute)) as H1.
  change (g_reportSize (ri_globals mouse_xy)) with 8 in H0, H1.
  change (nth_start mouse_xy 0) with 8 in H0. change (nth_start mouse_xy 1) with 16 in H1.
  split; [rewrite H0|rewrite H1]; by vm_compute.
Defined.

Lemma report_length_passes_check_witness :
  3 = (bits_of 1 (mkHIDReportSizes 0 24 0 0) + 7) / 8 ∧
  HIDCheckReport 1 mouse_pd mouse_xy [0; 7; 7] 3 = Ret kHIDSuccess.
Proof.
  apply (report_length_passes_check mouse_pd 1 0 3 0 (mkHIDReportSizes 0 24 0 0) mouse_xy [0; 7; 7] 3
    (proj1 mouse_ok) mouse_small); try done; try (intros; lia); by exists 2.
Defined.
