(* ===== verification/HIDCaps.v ===== *)
(** * Capabilities

    [HIDGetCaps.c], [HIDGetCollectionNodes.c], [HIDGetNextButtonInfo.c],
    [HIDGetNextUsageValueInfo.c], [HIDGetButtonCaps.c] and
    [HIDGetValueCaps.c]: what a descriptor offers, copied into structs of the
    caller. *)
From S2P Require Import Prelude HIDTypes HIDNextItem PoolAlloc HIDCount HIDParse HIDOpenClose.
From S2P Require Import HIDParseInv HIDLayout HIDOpenSafe HIDBits HIDUsage HIDValues HIDButtons.

(** ** Device capabilities *)

(** [HIDCaps]; [HIDCapabilities] has the same fields. *)
Record HIDCaps := mkHIDCaps {
  cp_usage : Z;
  cp_usagePage : Z;
  cp_inputReportByteLength : Z;
  cp_outputReportByteLength : Z;
  cp_featureReportByteLength : Z;
  cp_numberCollectionNodes : Z;
  cp_numberInputButtonCaps : Z;
  cp_numberInputValueCaps : Z;
  cp_numberOutputButtonCaps : Z;
  cp_numberOutputValueCaps : Z;
  cp_numberFeatureButtonCaps : Z;
  cp_numberFeatureValueCaps : Z }.

(** "Report Capabilities Summary": the largest bit count of each type.  The
    length fields are unsigned, so the comparison is. *)
Fixpoint max_bits (n : nat) (i : Z) (pd : HIDPreparsedData) (inp out fea : Z) : outcome (Z * Z * Z) :=
  match n with
  | O => Ret (inp, out, fea)
  | S n =>
      let* r := aget (pd_reports pd) i in
      max_bits n (i + 1) pd
        (if inp <? u32 (rs_inputBitCount r) then u32 (rs_inputBitCount r) else inp)
        (if out <? u32 (rs_outputBitCount r) then u32 (rs_outputBitCount r) else out)
        (if fea <? u32 (rs_featureBitCount r) then u32 (rs_featureBitCount r) else fea)
  end.

(** "Sum the capabilities types": (buttons, values) for each report type. *)
Record CapSums := mkCapSums { cs_input : Z * Z; cs_output : Z * Z; cs_feature : Z * Z }.

Definition add_caps (button variable : bool) (n : Z) (p : Z * Z) : Z * Z :=
  if button then (u32 (p.1 + n), p.2) else if variable then (p.1, u32 (p.2 + n)) else p.

(** The switch on the report type. *)
Definition add_to (ty : Z) (add : Z * Z → Z * Z) (s : CapSums) : CapSums :=
  if ty =? kHIDInputReport then mkCapSums (add (cs_input s)) (cs_output s) (cs_feature s)
  else if ty =? kHIDOutputReport then mkCapSums (cs_input s) (add (cs_output s)) (cs_feature s)
  else mkCapSums (cs_input s) (cs_output s) (add (cs_feature s)).

Fixpoint sum_caps (n : nat) (i : Z) (pd : HIDPreparsedData) (s : CapSums) : outcome CapSums :=
  match n with
  | O => Ret s
  | S n =>
      let* ri := aget (pd_reportItems pd) i in
      let ty := ri_reportType ri in
      let* s :=
        (if (ty =? kHIDInputReport) || (ty =? kHIDOutputReport) || (ty =? kHIDFeatureReport) then
          let* button := HIDIsButton (Some ri) pd in
          let* variable := (if button : bool then Ret false else HIDIsVariable (Some ri) pd) in
          Ret (add_to ty (add_caps button variable (ri_usageItemCount ri)) s)
        else Ret s) in
      sum_caps n (i + 1) pd s
  end.

Definition HIDGetCaps (ptPreparsedData : option HIDPreparsedData)
    (ptCapabilities : option (option HIDCaps)) : outcome (OSStatus * option (option HIDCaps)) :=
  match ptPreparsedData, ptCapabilities with
  | Some pd, Some _ =>
      if negb (pd_hidTypeIfValid pd =? kHIDOSType) then Ret (kHIDInvalidPreparsedDataErr, ptCapabilities)
      else
        let* ptCollection := aget (pd_collections pd) 1 in
        let iFirstUsage := c_firstUsageItem ptCollection in
        let* ui := aget (pd_usageItems pd) iFirstUsage in
        let* '(inp, out, fea) := max_bits (Z.to_nat (pd_reportCount pd)) 0 pd 0 0 0 in
        let* s := sum_caps (Z.to_nat (pd_reportItemCount pd)) 0 pd (mkCapSums (0, 0) (0, 0) (0, 0)) in
        Ret (kHIDSuccess, Some (Some (mkHIDCaps (ui_usage ui) (u32 (c_usagePage ptCollection))
          (u32 (inp + 7) / 8) (u32 (out + 7) / 8) (u32 (fea + 7) / 8) (pd_collectionCount pd)
          (cs_input s).1 (cs_input s).2 (cs_output s).1 (cs_output s).2
          (cs_feature s).1 (cs_feature s).2)))
  | _, _ => Ret (kHIDNullPointerErr, ptCapabilities)
  end.

(** "This is exactly the same as HIDGetCaps." *)
Definition HIDGetCapabilities (ptPreparsedData : option HIDPreparsedData)
    (ptCapabilities : option (option HIDCaps)) : outcome (OSStatus * option (option HIDCaps)) :=
  match ptPreparsedData, ptCapabilities with
  | Some pd, Some _ =>
      if negb (pd_hidTypeIfValid pd =? kHIDOSType) then Ret (kHIDInvalidPreparsedDataErr, ptCapabilities)
      else
        let* ptCollection := aget (pd_collections pd) 1 in
        let* ui := aget (pd_usageItems pd) (c_firstUsageItem ptCollection) in
        let* '(inp, out, fea) := max_bits (Z.to_nat (pd_reportCount pd)) 0 pd 0 0 0 in
        let* s := sum_caps (Z.to_nat (pd_reportItemCount pd)) 0 pd (mkCapSums (0, 0) (0, 0) (0, 0)) in
        Ret (kHIDSuccess, Some (Some (mkHIDCaps (ui_usage ui) (u32 (c_usagePage ptCollection))
          (u32 (inp + 7) / 8) (u32 (out + 7) / 8) (u32 (fea + 7) / 8) (pd_collectionCount pd)
          (cs_input s).1 (cs_input s).2 (cs_output s).1 (cs_output s).2
          (cs_feature s).1 (cs_feature s).2)))
  | _, _ => Ret (kHIDNullPointerErr, ptCapabilities)
  end.

(** ** Collection nodes *)

(** [HIDCollectionNode], and the extra [data] of
    [HIDCollectionExtendedNode]. *)
Record HIDCollectionNode := mkHIDCollectionNode {
  cn_collectionUsage : Z;
  cn_collectionUsagePage : Z;
  cn_parent : Z;
  cn_numberOfChildren : Z;
  cn_nextSibling : Z;
  cn_firstChild : Z }.

Definition HIDCollectionExtendedNode : Type := HIDCollectionNode * Z.

Definition collection_node (pd : HIDPreparsedData) (i : Z) : outcome (HIDCollectionNode * HIDCollection) :=
  let* c := aget (pd_collections pd) i in
  let* ui := aget (pd_usageItems pd) (c_firstUsageItem c) in
  Ret (mkHIDCollectionNode (ui_usage ui) (u32 (c_usagePage c)) (u32 (c_parent c))
         (u32 (c_children c)) (u32 (c_nextSibling c)) (u32 (c_firstChild c)), c).

(** "Copy the nodes" *)
Fixpoint copy_nodes {N} (node : HIDCollectionNode * HIDCollection → N) (n : nat) (i : Z)
    (pd : HIDPreparsedData) (l : list (option N)) : outcome (list (option N)) :=
  match n with
  | O => Ret l
  | S n =>
      let* nc := collection_node pd i in
      let* l := aset l i (Some (node nc)) in
      copy_nodes node n (i + 1) pd l
  end.

(** The function both entry points share, line by line; [node] selects what
    is copied. *)
Definition get_nodes {N} (node : HIDCollectionNode * HIDCollection → N)
    (ptLinkCollectionNodes : option (list (option N))) (piLinkCollectionNodesLength : option Z)
    (ptPreparsedData : option HIDPreparsedData)
    : outcome (OSStatus * option (list (option N)) * option Z) :=
  match ptLinkCollectionNodes, piLinkCollectionNodesLength, ptPreparsedData with
  | Some l, Some max, Some pd =>
      if negb (pd_hidTypeIfValid pd =? kHIDOSType) then
        Ret (kHIDInvalidPreparsedDataErr, ptLinkCollectionNodes, piLinkCollectionNodesLength)
      else
        let iMaxNodes := s32 max in
        let collectionCount := s32 (pd_collectionCount pd) in
        if iMaxNodes <? collectionCount then
          Ret (kHIDBufferTooSmallErr, Some l, Some (u32 collectionCount))
        else
          let* l := copy_nodes node (Z.to_nat collectionCount) 0 pd l in
          Ret (if u32 iMaxNodes <? pd_collectionCount pd then kHIDBufferTooSmallErr else kHIDSuccess,
               Some l, Some (u32 collectionCount))
  | _, _, _ => Ret (kHIDNullPointerErr, ptLinkCollectionNodes, piLinkCollectionNodesLength)
  end.

Definition HIDGetCollectionNodes :
    option (list (option HIDCollectionNode)) → option Z → option HIDPreparsedData →
    outcome (OSStatus * option (list (option HIDCollectionNode)) * option Z) :=
  get_nodes (fun nc => nc.1).

Definition HIDGetCollectionExtendedNodes :
    option (list (option HIDCollectionExtendedNode)) → option Z → option HIDPreparsedData →
    outcome (OSStatus * option (list (option HIDCollectionExtendedNode)) * option Z) :=
  get_nodes (fun nc => (nc.1, u32 (c_data nc.2))).

(** ** Next collection with a usage *)

(** The loop of the two "next info" functions; [kind] is [HIDIsButton] or
    [HIDIsVariable].  [newReportID] is a [UInt8]. *)
Fixpoint next_info (n : nat) (iR : Z) (pd : HIDPreparsedData)
    (kind : option HIDReportItem → HIDPreparsedData → outcome bool)
    (reportType usagePage usage iCollection : Z) (found : bool) (newCollection newReportID : Z)
    : outcome (bool * Z * Z) :=
  match n with
  | O => Ret (found, newCollection, newReportID)
  | S n =>
      let* ri := aget (pd_reportItems pd) iR in
      let* thisUsage := aget (pd_usageItems pd) (ri_firstUsageItem ri) in
      let minUsage := if ui_isRange thisUsage then ui_usageMinimum thisUsage else s32 (ui_usage thisUsage) in
      let maxUsage := if ui_isRange thisUsage then ui_usageMaximum thisUsage else s32 (ui_usage thisUsage) in
      let* sel :=
        (if (ri_reportType ri =? reportType)
            && ((usagePage =? 0) || (g_usagePage (ri_globals ri) =? usagePage))
            && ((u32 minUsage <=? usage) && (usage <=? u32 maxUsage))
            && (iCollection <? u32 (ri_parent ri))
         then kind (Some ri) pd else Ret false) in
      if (sel : bool) && (u32 (ri_parent ri) <? newCollection) then
        next_info n (iR + 1) pd kind reportType usagePage usage iCollection true
          (u32 (ri_parent ri)) (u8 iR)
      else next_info n (iR + 1) pd kind reportType usagePage usage iCollection found
             newCollection newReportID
  end.

Definition get_next_info (kind : option HIDReportItem → HIDPreparsedData → outcome bool)
    (reportType usagePage usage : Z) (collection reportID : option Z)
    (ptPreparsedData : option HIDPreparsedData) : outcome (OSStatus * option Z * option Z) :=
  match ptPreparsedData, collection, reportID with
  | Some pd, Some iCollection, Some _ =>
      let st := check_collection pd iCollection in
      if negb (st =? kHIDSuccess) then Ret (st, collection, reportID) else
      let* '(found, newCollection, newReportID) :=
        next_info (Z.to_nat (pd_reportItemCount pd)) 0 pd kind reportType usagePage usage iCollection
          false 0xFFFFFFFF 0 in
      if found : bool then Ret (noErr, Some newCollection, Some newReportID)
      else Ret (kHIDUsageNotFoundErr, collection, reportID)
  | _, _, _ => Ret (kHIDNullPointerErr, collection, reportID)
  end.

Definition HIDGetNextButtonInfo := get_next_info HIDIsButton.
Definition HIDGetNextUsageValueInfo := get_next_info HIDIsVariable.

(** ** Button and value capabilities *)

(** The union [u] of the capability structs, six [UInt32] slots: [range] is
    usageMin, usageMax, stringMin, stringMax, designatorMin, designatorMax;
    [notRange] is usage, reserved1, stringIndex, reserved2, designatorIndex,
    reserved3. *)
Record CapUnion := mkCapUnion { u_0 : Z; u_1 : Z; u_2 : Z; u_3 : Z; u_4 : Z; u_5 : Z }.

(** The fields the four capability structs share. *)
Record CapCommon := mkCapCommon {
  cc_usagePage : Z;
  cc_reportID : Z;
  cc_bitField : Z;
  cc_collection : Z;
  cc_collectionUsage : Z;
  cc_collectionUsagePage : Z;
  cc_isRange : bool;
  cc_isStringRange : bool;
  cc_isDesignatorRange : bool;
  cc_isAbsolute : bool;
  cc_startBit : Z;
  cc_u : CapUnion }.

Definition HIDButtonCaps : Type := CapCommon.

Record HIDButtonCapabilities := mkHIDButtonCapabilities {
  bc_common : CapCommon;
  bc_unitExponent : Z;
  bc_units : Z;
  bc_pbVersion : Z }.

Record HIDValueCaps := mkHIDValueCaps {
  vc_common : CapCommon;
  vc_bitSize : Z;
  vc_reportCount : Z;
  vc_logicalMin : Z;
  vc_logicalMax : Z;
  vc_physicalMin : Z;
  vc_physicalMax : Z }.

Record HIDValueCapabilities := mkHIDValueCapabilities {
  vx_caps : HIDValueCaps;
  vx_unitExponent : Z;
  vx_units : Z;
  vx_pbVersion : Z }.

(** The usage, string and designator parts of the union. *)
Definition fill_usage (ui : HIDP_UsageItem) (u : CapUnion) : CapUnion :=
  if ui_isRange ui
  then mkCapUnion (u32 (ui_usageMinimum ui)) (u32 (ui_usageMaximum ui)) (u_2 u) (u_3 u) (u_4 u) (u_5 u)
  else mkCapUnion (ui_usage ui) (u_1 u) (u_2 u) (u_3 u) (u_4 u) (u_5 u).

Definition fill_string (pd : HIDPreparsedData) (ri : HIDReportItem) (iU : Z) (u : CapUnion)
    : outcome (bool * CapUnion) :=
  if iU <? ri_stringItemCount ri then
    let* si := aget (pd_stringItems pd) (ri_firstStringItem ri + iU) in
    Ret (si_isRange si,
         if si_isRange si
         then mkCapUnion (u_0 u) (u_1 u) (u32 (si_minimum si)) (u32 (si_maximum si)) (u_4 u) (u_5 u)
         else mkCapUnion (u_0 u) (u_1 u) (u32 (si_index si)) (u_3 u) (u_4 u) (u_5 u))
  else Ret (false, mkCapUnion (u_0 u) (u_1 u) 0 (u_3 u) (u_4 u) (u_5 u)).

Definition fill_desig (pd : HIDPreparsedData) (ri : HIDReportItem) (iU : Z) (u : CapUnion)
    : outcome (bool * CapUnion) :=
  if iU <? ri_desigItemCount ri then
    let* di := aget (pd_desigItems pd) (ri_firstDesigItem ri + iU) in
    Ret (si_isRange di,
         if si_isRange di
         then mkCapUnion (u_0 u) (u_1 u) (u_2 u) (u_3 u) (u32 (si_minimum di)) (u32 (si_maximum di))
         else mkCapUnion (u_0 u) (u_1 u) (u_2 u) (u_3 u) (u32 (si_index di)) (u_5 u))
  else Ret (false, mkCapUnion (u_0 u) (u_1 u) (u_2 u) (u_3 u) 0 (u_5 u)).

(** "Populate the Capability Structure": the shared part. *)
Definition fill_common (pd : HIDPreparsedData) (ri : HIDReportItem) (iU : Z) (ui : HIDP_UsageItem)
    (startBit : Z) (u : CapUnion) : outcome CapCommon :=
  let* ptParent := aget (pd_collections pd) (ri_parent ri) in
  let* first := aget (pd_usageItems pd) (c_firstUsageItem ptParent) in
  let u := fill_usage ui u in
  let* '(isStringRange, u) := fill_string pd ri iU u in
  let* '(isDesignatorRange, u) := fill_desig pd ri iU u in
  Ret (mkCapCommon (ui_usagePage ui) (u32 (g_reportID (ri_globals ri))) (u32 (ri_dataModes ri))
         (u32 (ri_parent ri)) (ui_usage first) (u32 (c_usagePage ptParent)) (ui_isRange ui)
         isStringRange isDesignatorRange (Z.land (ri_dataModes ri) kHIDDataRelative =? 0) startBit u).

(** The walk the four functions share.  [fill] populates one struct and
    returns the new [startBit] and [iCount]; [after] is what happens to
    [startBit] after every usage, matching or not. *)
Section CapsWalk.
Context {Cap : Type} (pd : HIDPreparsedData) (usagePage usage iMaxCaps : Z)
  (select : HIDReportItem → outcome bool)
  (fill : HIDReportItem → Z → HIDP_UsageItem → Z → option Z → Cap → outcome (Cap * Z * option Z))
  (after : HIDReportItem → Z → Z).

(** The array, the number of entries stored and the local [iCount]. *)
Definition caps_state : Type := list Cap * Z * option Z.

Fixpoint caps_usages (m : nat) (iU : Z) (ri : HIDReportItem) (startBit : Z) (s : caps_state)
    : outcome (flow (OSStatus * caps_state) caps_state) :=
  match m with
  | O => Ret (Continue s)
  | S m =>
      let '(l, n, iCount) := s in
      let* ui := aget (pd_usageItems pd) (ri_firstUsageItem ri + iU) in
      if HIDUsageInRange (Some ui) usagePage usage then
        if iMaxCaps <=? n then Ret (Return (kHIDBufferTooSmallErr, s)) else
        let* old := aget l n in
        let* '(cap, startBit, iCount) := fill ri iU ui startBit iCount old in
        let* l := aset l n cap in
        caps_usages m (iU + 1) ri (after ri startBit) (l, n + 1, iCount)
      else caps_usages m (iU + 1) ri (after ri startBit) s
  end.

Fixpoint caps_items (m : nat) (iReportItem : Z) (s : caps_state) : outcome (OSStatus * caps_state) :=
  match m with
  | O => Ret (kHIDSuccess, s)
  | S m =>
      let* ri := aget (pd_reportItems pd) iReportItem in
      let* sel := select ri in
      if sel : bool then
        let* r := caps_usages (Z.to_nat (ri_usageItemCount ri)) 0 ri (u32 (ri_startBit ri)) s in
        match r with
        | Return a => Ret a
        | Continue s => caps_items m (iReportItem + 1) s
        end
      else caps_items m (iReportItem + 1) s
  end.
End CapsWalk.

Definition specific_caps {Cap} (usagePage iCollection usage : Z)
    (select : HIDPreparsedData → HIDReportItem → outcome bool)
    (fill : HIDPreparsedData → HIDReportItem → Z → HIDP_UsageItem → Z → option Z → Cap →
            outcome (Cap * Z * option Z))
    (after : HIDReportItem → Z → Z)
    (caps : option (list Cap)) (piCapsLength : option Z) (ptPreparsedData : option HIDPreparsedData)
    : outcome (OSStatus * option (list Cap) * option Z) :=
  match caps, piCapsLength, ptPreparsedData with
  | Some l, Some iMaxCaps, Some pd =>
      if negb (pd_hidTypeIfValid pd =? kHIDOSType) then Ret (kHIDInvalidPreparsedDataErr, caps, piCapsLength)
      else if (iCollection <? 0) || (pd_collectionCount pd <=? iCollection) then
        Ret (kHIDBadParameterErr, caps, Some 0)
      else
        let* col := aget (pd_collections pd) iCollection in
        let* '(st, (l, n, _)) :=
          caps_items pd usagePage usage iMaxCaps (select pd) (fill pd) after
            (Z.to_nat (c_reportItemCount col)) (c_firstReportItem col) (l, 0, None) in
        Ret (st, Some l, Some n)
  | _, _, _ => Ret (kHIDNullPointerErr, caps, piCapsLength)
  end.

(** A variable item's fields follow each other; an array item's do not. *)
Definition next_button_bit (ri : HIDReportItem) (startBit : Z) : Z :=
  if Z.land (ri_dataModes ri) kHIDDataVariableBit =? kHIDDataVariable
  then u32 (startBit + g_reportSize (ri_globals ri)) else startBit.

Definition select_button (reportType : Z) (pd : HIDPreparsedData) (ri : HIDReportItem) : outcome bool :=
  if ri_reportType ri =? reportType then HIDIsButton (Some ri) pd else Ret false.

Definition fill_button_caps (pd : HIDPreparsedData) (ri : HIDReportItem) (iU : Z) (ui : HIDP_UsageItem)
    (startBit : Z) (iCount : option Z) (old : HIDButtonCaps) : outcome (HIDButtonCaps * Z * option Z) :=
  let* c := fill_common pd ri iU ui (s32 startBit) (cc_u old) in
  Ret (c, startBit, iCount).

Definition HIDGetSpecificButtonCaps (reportType usagePage iCollection usage : Z)
    : option (list HIDButtonCaps) → option Z → option HIDPreparsedData →
      outcome (OSStatus * option (list HIDButtonCaps) * option Z) :=
  specific_caps usagePage iCollection usage (select_button reportType) fill_button_caps next_button_bit.

Definition HIDGetButtonCaps (reportType : Z) := HIDGetSpecificButtonCaps reportType 0 0 0.

(** "HACK FOR ARRAY ITEMS": the report size and count travel in the unit
    fields, the logical range in reserved slots of the union. *)
Definition array_hack (ri : HIDReportItem) (u : CapUnion) : Z * Z * CapUnion :=
  let g := ri_globals ri in
  if is_array ri then
    let '(lo, hi) :=
      if negb (Z.land (ri_flags ri) kHIDReportItemFlag_Reversed =? 0)
      then (g_logicalMaximum g, g_logicalMinimum g) else (g_logicalMinimum g, g_logicalMaximum g) in
    (s32 (g_reportSize g), g_reportCount g, mkCapUnion (u_0 u) (u_1 u) (u_2 u) (u32 lo) (u_4 u) (u32 hi))
  else (g_unitExponent g, g_units g, u).

Definition fill_button_capabilities (pd : HIDPreparsedData) (ri : HIDReportItem) (iU : Z)
    (ui : HIDP_UsageItem) (startBit : Z) (iCount : option Z) (old : HIDButtonCapabilities)
    : outcome (HIDButtonCapabilities * Z * option Z) :=
  let '(unitExponent, units, u) := array_hack ri (cc_u (bc_common old)) in
  let* c := fill_common pd ri iU ui (s32 startBit) u in
  Ret (mkHIDButtonCapabilities c unitExponent units 2, startBit, iCount).

Definition HIDGetSpecificButtonCapabilities (reportType usagePage iCollection usage : Z)
    : option (list HIDButtonCapabilities) → option Z → option HIDPreparsedData →
      outcome (OSStatus * option (list HIDButtonCapabilities) * option Z) :=
  specific_caps usagePage iCollection usage (select_button reportType) fill_button_capabilities
    next_button_bit.

Definition HIDGetButtonCapabilities (reportType : Z) := HIDGetSpecificButtonCapabilities reportType 0 0 0.

Definition select_value (reportType usagePage : Z) (pd : HIDPreparsedData) (ri : HIDReportItem)
    : outcome bool :=
  if (ri_reportType ri =? reportType)
     && ((g_usagePage (ri_globals ri) =? usagePage) || (usagePage =? 0))
  then HIDIsVariable (Some ri) pd else Ret false.

(** The number of values of a usage item: the width of a range, or what
    [HIDHasUsage] says.  ([iCount] is unsigned, so it is never negative.) *)
Definition usage_count (pd : HIDPreparsedData) (ri : HIDReportItem) (ui : HIDP_UsageItem)
    (iCount : option Z) : outcome (option Z) :=
  if ui_isRange ui then Ret (Some (u32 (u32 (ui_usageMaximum ui - ui_usageMinimum ui) + 1)))
  else
    let* '(_, _, c) := HIDHasUsage (Some pd) (Some ri) (ui_usagePage ui) (ui_usage ui) in
    Ret (match c with Some _ => c | None => iCount end).

Definition fill_value_caps (pd : HIDPreparsedData) (ri : HIDReportItem) (iU : Z) (ui : HIDP_UsageItem)
    (startBit : Z) (iCount : option Z) (old : HIDValueCaps) : outcome (HIDValueCaps * Z * option Z) :=
  let g := ri_globals ri in
  let* c := fill_common pd ri iU ui startBit (cc_u (vc_common old)) in
  let* iCount := usage_count pd ri ui iCount in
  match iCount with
  | None => Fault Uninit
  | Some n =>
      Ret (mkHIDValueCaps c (g_reportSize g) n (g_logicalMinimum g) (g_logicalMaximum g)
             (g_physicalMinimum g) (g_physicalMaximum g),
           u32 (startBit + g_reportSize g * n), iCount)
  end.

Definition HIDGetSpecificValueCaps (reportType usagePage iCollection usage : Z)
    : option (list HIDValueCaps) → option Z → option HIDPreparsedData →
      outcome (OSStatus * option (list HIDValueCaps) * option Z) :=
  specific_caps usagePage iCollection usage (select_value reportType usagePage) fill_value_caps
    (fun _ startBit => startBit).

Definition HIDGetValueCaps (reportType : Z) := HIDGetSpecificValueCaps reportType 0 0 0.

Definition fill_value_capabilities (pd : HIDPreparsedData) (ri : HIDReportItem) (iU : Z)
    (ui : HIDP_UsageItem) (startBit : Z) (iCount : option Z) (old : HIDValueCapabilities)
    : outcome (HIDValueCapabilities * Z * option Z) :=
  let g := ri_globals ri in
  let* c := fill_common pd ri iU ui (s32 startBit) (cc_u (vc_common (vx_caps old))) in
  let* iCount := usage_count pd ri ui iCount in
  match iCount with
  | None => Fault Uninit
  | Some n =>
      Ret (mkHIDValueCapabilities
             (mkHIDValueCaps c (g_reportSize g) n (g_logicalMinimum g) (g_logicalMaximum g)
                (g_physicalMinimum g) (g_physicalMaximum g))
             (g_unitExponent g) (g_units g) 2,
           u32 (startBit + g_reportSize g * n), iCount)
  end.

Definition HIDGetSpecificValueCapabilities (reportType usagePage iCollection usage : Z)
    : option (list HIDValueCapabilities) → option Z → option HIDPreparsedData →
      outcome (OSStatus * option (list HIDValueCapabilities) * option Z) :=
  specific_caps usagePage iCollection usage (select_value reportType usagePage) fill_value_capabilities
    (fun _ startBit => startBit).

Definition HIDGetValueCapabilities (reportType : Z) := HIDGetSpecificValueCapabilities reportType 0 0 0.
