(* ===== verification/HIDCapsSpec.v ===== *)
(** * What the capability functions promise

    [HIDGetCaps] tells a client how many entries the four capability lists
    have; the list functions deliver exactly that many.  The collection nodes
    are a copy of the collection table, and the "next info" functions find
    the nearest following collection. *)
From S2P Require Import Prelude HIDTypes HIDNextItem PoolAlloc HIDCount HIDParse HIDOpenClose.
From S2P Require Import HIDParseInv HIDLayout HIDOpenSafe HIDBits HIDUsage HIDValues HIDButtons HIDReport HIDCaps.

Lemma u32_add_l a b : u32 (u32 a + b) = u32 (a + b).
Proof. Transparent u32. unfold u32. Opaque u32. by rewrite Zplus_mod_idemp_l. Qed.

(** Every collection has a first usage to report.  (The code reads it
    without looking at the number of usages.) *)
Definition collections_named (pd : HIDPreparsedData) : Prop :=
  table (fun c => c_firstUsageItem c < zlen (pd_usageItems pd)) (pd_collections pd) (pd_collectionCount pd).

(** The entries a list of items asks for: one per usage item of a selected
    item. *)
Fixpoint cap_total (sel : HIDReportItem → bool) (items : list HIDReportItem) : Z :=
  match items with
  | [] => 0
  | ri :: items => (if sel ri then ri_usageItemCount ri else 0) + cap_total sel items
  end.

Definition all_items (pd : HIDPreparsedData) : list HIDReportItem :=
  take (Z.to_nat (pd_reportItemCount pd)) (pd_reportItems pd).

Section Totals.
Context (pd : HIDPreparsedData).
Hypothesis Hpd : preparsed_ok pd.

Lemma cap_total_window sel i m :
  0 ≤ i → i + Z.of_nat m ≤ pd_reportItemCount pd →
  0 ≤ cap_total sel (take m (drop (Z.to_nat i) (pd_reportItems pd))).
Proof using Hpd.
  intros Hi Hm.
  assert (Forall (fun ri => 0 ≤ ri_usageItemCount ri) (take m (drop (Z.to_nat i) (pd_reportItems pd)))) as HF.
  { apply Forall_lookup. intros j a Hj. apply lookup_take_Some in Hj as [Hj Hlt]. rewrite lookup_drop in Hj.
    assert (report_item_ok pd a) as Hok.
    { apply (tb_items _ (pk_tables _ Hpd) (i + Z.of_nat j)); [lia|]. split; [lia|].
      by replace (Z.to_nat (i + Z.of_nat j)) with (Z.to_nat i + j)%nat by lia. }
    by destruct (ro_usages _ _ Hok) as (_ & ? & _). }
  induction HF; cbn [cap_total]; [lia|]. destruct (sel _); lia.
Qed.

Lemma cap_total_nonneg sel : 0 ≤ cap_total sel (all_items pd).
Proof using Hpd.
  pose proof (pk_items _ Hpd). pose proof (cap_total_window sel 0 (Z.to_nat (pd_reportItemCount pd))) as H0.
  rewrite drop_0 in H0. apply H0; lia.
Qed.
End Totals.

(** ** The walk *)
Section Walk.
Context {Cap : Type} (pd : HIDPreparsedData) (max : Z) (select : HIDReportItem → outcome bool)
  (sel : HIDReportItem → bool)
  (fill : HIDReportItem → Z → HIDP_UsageItem → Z → option Z → Cap → outcome (Cap * Z * option Z))
  (after : HIDReportItem → Z → Z).
Hypothesis Hpd : preparsed_ok pd.
Hypothesis Hsel : ∀ ri, report_item_ok pd ri → select ri = Ret (sel ri).
Hypothesis Hfill : ∀ ri iU ui startBit iCount old, report_item_ok pd ri → 0 ≤ iU < ri_usageItemCount ri →
  at_ (pd_usageItems pd) (ri_firstUsageItem ri + iU) ui →
  safe (fill ri iU ui startBit iCount old) (fun _ => True).

(** The list [l] of [n] entries receives [m] more, if there is room. *)
Definition received (l : list Cap) (n m : Z) (l' : list Cap) (n' : Z) (all : bool) : Prop :=
  zlen l' = zlen l ∧ all = (n + m <=? max) ∧ n' = Z.min (n + m) max.

Lemma caps_usages_spec m : ∀ iU ri startBit l n iCount,
  report_item_ok pd ri → 0 ≤ iU → iU + Z.of_nat m = ri_usageItemCount ri →
  0 ≤ n ≤ max → max ≤ zlen l →
  safe (caps_usages pd 0 0 max fill after m iU ri startBit (l, n, iCount)) (fun r => ∃ l' n' iCount' all,
    received l n (Z.of_nat m) l' n' all ∧
    r = if all : bool then Continue (l', n', iCount')
        else Return (kHIDBufferTooSmallErr, (l', n', iCount'))).
Proof using Hpd Hfill.
  pose proof (pk_usages _ Hpd). induction m as [|m IH]; intros iU ri startBit l n iCount Hri HiU Hm Hn Hl;
    cbn [caps_usages].
  { exists l, n, iCount, true. unfold received. rewrite Z.add_0_r, Z.min_l, (proj2 (Z.leb_le n max)) by lia. done. }
  destruct (ro_usages _ _ Hri) as (? & ? & ?). access ui Hui. cbn [HIDUsageInRange].
  change (negb (0 =? 0) && _) with false. change (0 =? 0) with true. cbn [andb].
  destruct (Z.leb_spec max n).
  { exists l, n, iCount, false. unfold received.
    rewrite (proj2 (Z.leb_gt (n + _) max)), Z.min_r by lia. split; [|done]. split; [done|]. lia. }
  access old Hold. apply wp_bind. eapply wp_mono; [apply Hfill; [done|lia|done]|intros [[cap sb] ic] _|done].
  access l' Hl'. eapply wp_mono; [apply IH; rewrite ?zlen_insert; done || lia| |done].
  intros r (l' & n' & ic' & all & (Hz & -> & ->) & ->). exists l', (Z.min (n + Z.of_nat (S m)) max), ic', (n + Z.of_nat (S m) <=? max).
  unfold received. rewrite zlen_insert in Hz. split; [done|].
  by replace (n + 1 + Z.of_nat m) with (n + Z.of_nat (S m)) by lia.
Qed.

Lemma caps_items_spec m : ∀ i l n iCount,
  0 ≤ i → i + Z.of_nat m ≤ pd_reportItemCount pd → 0 ≤ n ≤ max → max ≤ zlen l →
  safe (caps_items pd 0 0 max select fill after m i (l, n, iCount)) (fun '(st, (l', n', _)) => ∃ all,
    received l n (cap_total sel (take m (drop (Z.to_nat i) (pd_reportItems pd)))) l' n' all ∧
    st = if all : bool then kHIDSuccess else kHIDBufferTooSmallErr).
Proof using Hpd Hsel Hfill.
  pose proof (pk_items _ Hpd). induction m as [|m IH]; intros i l n iCount Hi Hm Hn Hl; cbn [caps_items].
  { exists true. cbn. unfold received. rewrite Z.add_0_r, Z.min_l, (proj2 (Z.leb_le n max)) by lia. done. }
  destruct (at_exists (pd_reportItems pd) i) as [ri Ha]; [lia|].
  rewrite (proj2 (aget_at _ _ _) Ha). cbn [obind]. rewrite (drop_S _ _ _ (proj2 Ha)). cbn [take cap_total].
  replace (S (Z.to_nat i)) with (Z.to_nat (i + 1)) by lia. set (items := take m _).
  pose proof (tb_items _ (pk_tables _ Hpd) i ri ltac:(lia) Ha) as Hri.
  pose proof (cap_total_window pd Hpd sel (i + 1) m ltac:(lia) ltac:(lia)) as Htot. fold items in Htot.
  rewrite Hsel by done. cbn [obind]. destruct (sel ri); [|by apply IH; lia].
  destruct (ro_usages _ _ Hri) as (? & ? & ?).
  apply wp_bind. eapply wp_mono; [apply caps_usages_spec; done || lia| |done].
  intros r (l' & n' & ic' & all & (Hz & Hall & Hn') & ->). rewrite Z2Nat.id in * by lia.
  destruct all; symmetry in Hall.
  - apply Z.leb_le in Hall. rewrite Z.min_l in Hn' by lia. subst n'.
    eapply wp_mono; [apply IH; lia| |done]. intros [st [[l2 n2] ic2]] (all & (Hz2 & -> & ->) & ->).
    fold items. rewrite <- Z.add_assoc. exists (n + (ri_usageItemCount ri + cap_total sel items) <=? max).
    split; [|done]. split; [congruence|done].
  - apply Z.leb_gt in Hall. exists false. split; [|done]. split; [done|].
    rewrite (proj2 (Z.leb_gt (n + (_ + _)) max)) by lia. split; [done|]. lia.
Qed.
End Walk.

(** A capability list for the whole device: the root collection, any page
    and any usage. *)
Lemma specific_caps_total {Cap} pd max (select : HIDPreparsedData → HIDReportItem → outcome bool) sel
    (fill : HIDPreparsedData → HIDReportItem → Z → HIDP_UsageItem → Z → option Z → Cap →
            outcome (Cap * Z * option Z)) after l :
  preparsed_ok pd → pd_hidTypeIfValid pd = kHIDOSType →
  (∀ ri, report_item_ok pd ri → select pd ri = Ret (sel ri)) →
  (∀ ri iU ui startBit iCount old, report_item_ok pd ri → 0 ≤ iU < ri_usageItemCount ri →
    at_ (pd_usageItems pd) (ri_firstUsageItem ri + iU) ui →
    safe (fill pd ri iU ui startBit iCount old) (fun _ => True)) →
  0 ≤ max ≤ zlen l →
  let total := cap_total sel (all_items pd) in
  ∃ l', specific_caps 0 0 0 select fill after (Some l) (Some max) (Some pd) =
      Ret (if total <=? max then kHIDSuccess else kHIDBufferTooSmallErr, Some l', Some (Z.min total max)) ∧
    zlen l' = zlen l.
Proof.
  intros Hpd Hv Hsel Hfill Hmax total. unfold specific_caps. rewrite Hv, Z.eqb_refl. cbn [negb].
  pose proof (pk_collections _ Hpd). rewrite (proj2 (Z.leb_gt (pd_collectionCount pd) 0)) by lia. cbn [Z.ltb orb].
  change (0 <? 0) with false. cbn [orb].
  destruct (at_exists (pd_collections pd) 0) as [root Hroot]; [lia|].
  rewrite (proj2 (aget_at _ _ _) Hroot). cbn [obind]. destruct (pk_root _ Hpd root Hroot) as [-> ->].
  pose proof (pk_items _ Hpd).
  pose proof (caps_items_spec pd max (select pd) sel (fill pd) after Hpd Hsel Hfill
    (Z.to_nat (pd_reportItemCount pd)) 0 l 0 None ltac:(lia) ltac:(lia) ltac:(lia) ltac:(lia)) as Hs.
  apply safe_elim in Hs as ([st [[l' n'] ic]] & -> & (all & (Hz & -> & ->) & ->)). cbn [obind].
  rewrite drop_0. fold (all_items pd). fold total. rewrite Z.add_0_l. by exists l'.
Qed.

(** ** Filling one entry never faults *)
Section Fill.
Context (pd : HIDPreparsedData).
Hypothesis Hpd : preparsed_ok pd.
Hypothesis Hnamed : collections_named pd.
Context (ri : HIDReportItem) (iU : Z) (ui : HIDP_UsageItem).
Hypothesis Hri : report_item_ok pd ri.
Hypothesis HiU : 0 ≤ iU < ri_usageItemCount ri.
Hypothesis Hui : at_ (pd_usageItems pd) (ri_firstUsageItem ri + iU) ui.

Lemma fill_common_safe startBit u : safe (fill_common pd ri iU ui startBit u) (fun _ => True).
Proof using Hpd Hnamed Hri HiU.
  unfold fill_common. destruct Hri, Hpd. unfold window in *.
  access c Hc. pose proof (Hnamed (ri_parent ri) c ltac:(lia) Hc) as Hn. cbn in Hn.
  destruct (tb_collections _ pk_tables _ c (proj2 ro_parent) Hc). unfold window in *. access f Hf.
  apply wp_bind. unfold fill_string. destruct (Z.ltb_spec iU (ri_stringItemCount ri)).
  - access si Hsi. apply wp_bind. unfold fill_desig. destruct (Z.ltb_spec iU (ri_desigItemCount ri)); [|done].
    by access di Hdi.
  - apply wp_bind. unfold fill_desig. destruct (Z.ltb_spec iU (ri_desigItemCount ri)); [|done].
    by access di Hdi.
Qed.

Lemma fill_button_caps_safe startBit iCount old :
  safe (fill_button_caps pd ri iU ui startBit iCount old) (fun _ => True).
Proof using Hpd Hnamed Hri HiU. apply wp_bind. eapply wp_mono; [apply fill_common_safe|done|done]. Qed.

Lemma fill_button_capabilities_safe startBit iCount old :
  safe (fill_button_capabilities pd ri iU ui startBit iCount old) (fun _ => True).
Proof using Hpd Hnamed Hri HiU.
  unfold fill_button_capabilities. destruct (array_hack _ _) as [[? ?] ?].
  apply wp_bind. eapply wp_mono; [apply fill_common_safe|done|done].
Qed.

(** The item itself has the usage, so [HIDHasUsage] stores a count. *)
Lemma usage_count_Some iCount :
  pd_hidTypeIfValid pd = kHIDOSType → safe (usage_count pd ri ui iCount) (fun c => is_Some c).
Proof using Hpd Hri HiU Hui.
  intros Hv. unfold usage_count. destruct (ui_isRange ui) eqn:E; [by eexists|].
  apply wp_bind. unfold HIDHasUsage. rewrite Hv, Z.eqb_refl. cbn [negb].
  destruct Hri, Hpd. unfold window in *.
  enough (∀ n i idx a b, 0 ≤ i ≤ iU → i + Z.of_nat n = ri_usageItemCount ri →
    safe (HIDHasUsage_loop n pd ri (ui_usagePage ui) (ui_usage ui) i idx a b)
      (fun '(_, _, c) => is_Some c)) as H.
  { eapply wp_mono; [apply H; lia| |done]. intros [[? ?] c] [? ->]. cbn. by eexists. }
  induction n as [|n IH]; intros i idx a b Hi Hn; [lia|]. cbn [HIDHasUsage_loop].
  destruct (decide (i = iU)) as [->|].
  - rewrite (proj2 (aget_at _ _ _) Hui). cbn [obind]. rewrite E, !Z.eqb_refl, orb_true_r. cbn [andb].
    cbn. case_match; by eexists.
  - access ui0 Hui0. cbv zeta. destruct (ui_isRange ui0);
      (destruct (_ && _) eqn:Eh; [|apply IH; lia]); apply andb_prop in Eh as [-> _]; cbn; case_match; by eexists.
Qed.

Lemma fill_value_caps_safe startBit iCount old :
  pd_hidTypeIfValid pd = kHIDOSType → safe (fill_value_caps pd ri iU ui startBit iCount old) (fun _ => True).
Proof using All.
  intros Hv. apply wp_bind. eapply wp_mono; [apply fill_common_safe|intros c _|done].
  apply wp_bind. eapply wp_mono; [by apply usage_count_Some|by intros ? [? ->]|done].
Qed.

Lemma fill_value_capabilities_safe startBit iCount old :
  pd_hidTypeIfValid pd = kHIDOSType →
  safe (fill_value_capabilities pd ri iU ui startBit iCount old) (fun _ => True).
Proof using All.
  intros Hv. apply wp_bind. eapply wp_mono; [apply fill_common_safe|intros c _|done].
  apply wp_bind. eapply wp_mono; [by apply usage_count_Some|by intros ? [? ->]|done].
Qed.
End Fill.

(** ** The numbers [HIDGetCaps] reports *)
Section Sums.
Context (pd : HIDPreparsedData).
Hypothesis Hpd : preparsed_ok pd.

Definition button_of (reportType : Z) (ri : HIDReportItem) : bool :=
  (ri_reportType ri =? reportType) && match HIDIsButton (Some ri) pd with Ret b => b | Fault _ => false end.
Definition value_of (reportType : Z) (ri : HIDReportItem) : bool :=
  (ri_reportType ri =? reportType) && match HIDIsVariable (Some ri) pd with Ret b => b | Fault _ => false end.

Lemma select_button_spec reportType ri :
  report_item_ok pd ri → select_button reportType pd ri = Ret (button_of reportType ri).
Proof using Hpd.
  intros Hri. unfold select_button, button_of. destruct (_ =? reportType); [|done].
  by destruct (safe_elim _ _ (HIDIsButton_safe pd ri Hpd Hri)) as (b & -> & _).
Qed.

Lemma select_value_spec reportType ri :
  report_item_ok pd ri → select_value reportType 0 pd ri = Ret (value_of reportType ri).
Proof using Hpd.
  intros Hri. unfold select_value, value_of. change (0 =? 0) with true. rewrite orb_true_r, andb_true_r.
  destruct (_ =? reportType); [|done].
  by destruct (safe_elim _ _ (HIDIsVariable_safe pd ri Hpd Hri)) as (b & -> & _).
Qed.

(** The two sums of a report type. *)
Definition sums_of (reportType : Z) (s : CapSums) : Z * Z :=
  if reportType =? kHIDInputReport then cs_input s
  else if reportType =? kHIDOutputReport then cs_output s else cs_feature s.

Definition pair_ok (p : Z * Z) : Prop := is_u32 p.1 ∧ is_u32 p.2.
Definition sums_ok (s : CapSums) : Prop := pair_ok (cs_input s) ∧ pair_ok (cs_output s) ∧ pair_ok (cs_feature s).

Lemma add_caps_ok b v n p : pair_ok p → pair_ok (add_caps b v n p).
Proof using. intros [? ?]. unfold add_caps. destruct b, v; split; cbn; auto using u32_range. Qed.

Lemma add_to_ok ty b v n s : sums_ok s → sums_ok (add_to ty (add_caps b v n) s).
Proof using.
  intros (? & ? & ?). unfold add_to, sums_ok. repeat case_match; cbn; auto using add_caps_ok.
Qed.

Lemma sums_of_add_to ty reportType f s :
  1 ≤ ty ≤ 3 → 1 ≤ reportType ≤ 3 →
  sums_of reportType (add_to ty f s) =
  if ty =? reportType then f (sums_of reportType s) else sums_of reportType s.
Proof using.
  intros H1 H2. assert (ty = 1 ∨ ty = 2 ∨ ty = 3) as [-> | [-> | ->]] by lia;
    assert (reportType = 1 ∨ reportType = 2 ∨ reportType = 3) as [-> | [-> | ->]] by lia; done.
Qed.

(** The classifiers of [HIDGetCaps] at one item. *)
Lemma classify ri :
  report_item_ok pd ri →
  ∃ b v, HIDIsButton (Some ri) pd = Ret b ∧ HIDIsVariable (Some ri) pd = Ret v ∧ (b = true → v = false).
Proof using Hpd.
  intros Hri. destruct (safe_elim _ _ (bit_filler_safe pd ri Hpd Hri)) as (f & Ef & _).
  unfold HIDIsButton, HIDIsVariable. rewrite Ef. cbn [obind].
  destruct f; eexists _, _; (split; [reflexivity|]); (split; [reflexivity|]); [done|].
  by destruct (_ =? kHIDDataArray), (_ =? 1).
Qed.

Lemma sum_caps_spec reportType n : ∀ i s,
  0 ≤ i → i + Z.of_nat n ≤ pd_reportItemCount pd → sums_ok s → 1 ≤ reportType ≤ 3 →
  let items := take n (drop (Z.to_nat i) (pd_reportItems pd)) in
  safe (sum_caps n i pd s) (fun s' => sums_of reportType s' =
    (u32 ((sums_of reportType s).1 + cap_total (button_of reportType) items),
     u32 ((sums_of reportType s).2 + cap_total (value_of reportType) items))).
Proof using Hpd.
  pose proof (pk_items _ Hpd). intros i s Hi Hn Hs Hty. revert i s Hi Hn Hs.
  induction n as [|n IH]; intros i s Hi Hn Hs items; subst items; cbn [sum_caps].
  { cbn. rewrite !Z.add_0_r. destruct Hs as ([] & [] & []). unfold sums_of.
    repeat case_match; rewrite !u32_id by done; by destruct (cs_input s), (cs_output s), (cs_feature s). }
  destruct (at_exists (pd_reportItems pd) i) as [ri Ha]; [lia|].
  rewrite (proj2 (aget_at _ _ _) Ha). cbn [obind]. rewrite (drop_S _ _ _ (proj2 Ha)). cbn [take cap_total].
  replace (S (Z.to_nat i)) with (Z.to_nat (i + 1)) by lia.
  pose proof (tb_items _ (pk_tables _ Hpd) i ri ltac:(lia) Ha) as Hri.
  pose proof (ro_type _ _ Hri) as H13. cbv zeta.
  replace ((ri_reportType ri =? kHIDInputReport) || (ri_reportType ri =? kHIDOutputReport)
    || (ri_reportType ri =? kHIDFeatureReport)) with true.
  2: { symmetry. rewrite !orb_true_iff, !Z.eqb_eq.
       unfold kHIDInputReport, kHIDOutputReport, kHIDFeatureReport. lia. }
  destruct (classify ri Hri) as (b & v & Eb & Ev & Hbv). rewrite Eb. cbn [obind].
  assert ((if b then Ret false else HIDIsVariable (Some ri) pd) = Ret v) as ->
    by (destruct b; [by rewrite Hbv|done]).
  cbn [obind]. eapply wp_mono; [apply IH; [lia..|by apply add_to_ok]| |done].
  intros s' ->. rewrite sums_of_add_to by done.
  assert (button_of reportType ri = (ri_reportType ri =? reportType) && b) as ->
    by (unfold button_of; by rewrite Eb).
  assert (value_of reportType ri = (ri_reportType ri =? reportType) && v) as ->
    by (unfold value_of; by rewrite Ev).
  destruct (_ =? reportType); cbn [andb]; [|by rewrite !Z.add_0_l].
  unfold add_caps. destruct b; cbn [fst snd]; [rewrite Hbv by done|destruct v; cbn [fst snd]];
    rewrite ?Z.add_0_l, ?u32_add_l, ?Z.add_assoc; done.
Qed.
End Sums.

Definition button_number (reportType : Z) (c : HIDCaps) : Z :=
  if reportType =? kHIDInputReport then cp_numberInputButtonCaps c
  else if reportType =? kHIDOutputReport then cp_numberOutputButtonCaps c
  else cp_numberFeatureButtonCaps c.
Definition value_number (reportType : Z) (c : HIDCaps) : Z :=
  if reportType =? kHIDInputReport then cp_numberInputValueCaps c
  else if reportType =? kHIDOutputReport then cp_numberOutputValueCaps c
  else cp_numberFeatureValueCaps c.

Lemma GetCaps_numbers pd reportType old caps :
  preparsed_ok pd → 1 ≤ reportType ≤ 3 →
  HIDGetCaps (Some pd) (Some old) = Ret (kHIDSuccess, Some (Some caps)) →
  button_number reportType caps = u32 (cap_total (button_of pd reportType) (all_items pd)) ∧
  value_number reportType caps = u32 (cap_total (value_of pd reportType) (all_items pd)).
Proof.
  intros Hpd Hty H. unfold HIDGetCaps in H. cbv zeta in H. destruct (negb _); [done|].
  apply obind_Ret_inv in H as (c & _ & H). apply obind_Ret_inv in H as (ui & _ & H).
  apply obind_Ret_inv in H as ([[inp out] fea] & _ & H). apply obind_Ret_inv in H as (s & Hs & H).
  injection H as <-. pose proof (pk_items _ Hpd).
  assert (sums_ok (mkCapSums (0, 0) (0, 0) (0, 0))) as H0 by (repeat split; cbn; lia).
  pose proof (sum_caps_spec pd Hpd reportType (Z.to_nat (pd_reportItemCount pd)) 0 _ ltac:(lia) ltac:(lia) H0 Hty)
    as Hsum. rewrite Hs in Hsum. cbn [wp] in Hsum. rewrite drop_0 in Hsum. fold (all_items pd) in Hsum.
  assert ((sums_of reportType (mkCapSums (0, 0) (0, 0) (0, 0))) = (0, 0)) as Ez
    by (unfold sums_of; repeat case_match; done).
  rewrite Ez in Hsum. cbn [fst snd] in Hsum. rewrite !Z.add_0_l in Hsum.
  unfold button_number, value_number, sums_of in *. repeat case_match; cbn; rewrite Hsum; done.
Qed.

(** ** Theorems *)
Section CapsTheorems.
Context (pd : HIDPreparsedData) (reportType : Z) (caps : HIDCaps) (old : option HIDCaps).
Hypothesis Hpd : preparsed_ok pd.
Hypothesis Hvalid : pd_hidTypeIfValid pd = kHIDOSType.
Hypothesis Hnamed : collections_named pd.
Hypothesis Htype : 1 ≤ reportType ≤ 3.
Hypothesis Hcaps : HIDGetCaps (Some pd) (Some old) = Ret (kHIDSuccess, Some (Some caps)).

(** C25. The number of button capabilities [HIDGetCaps] reports for a report
    type is what the two button lists deliver: with room for that many,
    [HIDGetButtonCaps] and [HIDGetButtonCapabilities] succeed and store
    exactly that many entries, without leaving the caller's array. *)
Theorem button_caps_complete l l2 :
  let n := button_number reportType caps in
  cap_total (button_of pd reportType) (all_items pd) < 4294967296 →
  n ≤ zlen l → n ≤ zlen l2 → 0 ≤ n ∧
  (∃ l', HIDGetButtonCaps reportType (Some l) (Some n) (Some pd) = Ret (kHIDSuccess, Some l', Some n) ∧
    zlen l' = zlen l) ∧
  (∃ l', HIDGetButtonCapabilities reportType (Some l2) (Some n) (Some pd)
      = Ret (kHIDSuccess, Some l', Some n) ∧ zlen l' = zlen l2).
Proof using All.
  intros n Hsm Hl Hl2. destruct (GetCaps_numbers pd reportType old caps Hpd Htype Hcaps) as [Hn _].
  fold n in Hn. pose proof (cap_total_nonneg pd Hpd (button_of pd reportType)). rewrite u32_id in Hn by lia.
  split; [lia|]. split.
  - destruct (specific_caps_total pd n (select_button reportType) (button_of pd reportType)
      fill_button_caps next_button_bit l Hpd Hvalid) as (l' & E & Hz);
      [by apply select_button_spec|intros; by apply fill_button_caps_safe|lia|].
    rewrite <- Hn, Z.leb_refl, Z.min_id in E. by exists l'.
  - destruct (specific_caps_total pd n (select_button reportType) (button_of pd reportType)
      fill_button_capabilities next_button_bit l2 Hpd Hvalid) as (l' & E & Hz);
      [by apply select_button_spec|intros; by apply fill_button_capabilities_safe|lia|].
    rewrite <- Hn, Z.leb_refl, Z.min_id in E. by exists l'.
Qed.

(** The same for values: [HIDGetValueCaps] and
    [HIDGetValueCapabilities] deliver exactly the number of value
    capabilities [HIDGetCaps] reports. *)
Theorem value_caps_complete l l2 :
  let n := value_number reportType caps in
  cap_total (value_of pd reportType) (all_items pd) < 4294967296 →
  n ≤ zlen l → n ≤ zlen l2 → 0 ≤ n ∧
  (∃ l', HIDGetValueCaps reportType (Some l) (Some n) (Some pd) = Ret (kHIDSuccess, Some l', Some n) ∧
    zlen l' = zlen l) ∧
  (∃ l', HIDGetValueCapabilities reportType (Some l2) (Some n) (Some pd)
      = Ret (kHIDSuccess, Some l', Some n) ∧ zlen l' = zlen l2).
Proof using All.
  intros n Hsm Hl Hl2. destruct (GetCaps_numbers pd reportType old caps Hpd Htype Hcaps) as [_ Hn].
  fold n in Hn. pose proof (cap_total_nonneg pd Hpd (value_of pd reportType)). rewrite u32_id in Hn by lia.
  split; [lia|]. split.
  - destruct (specific_caps_total pd n (select_value reportType 0) (value_of pd reportType)
      fill_value_caps (fun _ b => b) l Hpd Hvalid) as (l' & E & Hz);
      [by apply select_value_spec|intros; by apply fill_value_caps_safe|lia|].
    rewrite <- Hn, Z.leb_refl, Z.min_id in E. by exists l'.
  - destruct (specific_caps_total pd n (select_value reportType 0) (value_of pd reportType)
      fill_value_capabilities (fun _ b => b) l2 Hpd Hvalid) as (l' & E & Hz);
      [by apply select_value_spec|intros; by apply fill_value_capabilities_safe|lia|].
    rewrite <- Hn, Z.leb_refl, Z.min_id in E. by exists l'.
Qed.
End CapsTheorems.

(** ** Collection nodes *)

(** The node of a collection: its links and its first usage. *)
Definition node_of (pd : HIDPreparsedData) (i : Z) (n : HIDCollectionNode) (c : HIDCollection) : Prop :=
  ∃ ui, at_ (pd_collections pd) i c ∧ at_ (pd_usageItems pd) (c_firstUsageItem c) ui ∧
    n = mkHIDCollectionNode (ui_usage ui) (u32 (c_usagePage c)) (u32 (c_parent c))
          (u32 (c_children c)) (u32 (c_nextSibling c)) (u32 (c_firstChild c)).

Section Nodes.
Context (pd : HIDPreparsedData).
Hypothesis Hpd : preparsed_ok pd.
Hypothesis Hnamed : collections_named pd.

Lemma collection_node_spec i :
  0 ≤ i < pd_collectionCount pd → ∃ n c, collection_node pd i = Ret (n, c) ∧ node_of pd i n c.
Proof using Hpd Hnamed.
  intros Hi. pose proof (pk_collections _ Hpd). pose proof (pk_usages _ Hpd).
  destruct (at_exists (pd_collections pd) i) as [c Hc]; [lia|].
  destruct (tb_collections _ (pk_tables _ Hpd) i c (proj2 Hi) Hc). unfold window in *.
  pose proof (Hnamed i c (proj2 Hi) Hc) as Hn. cbn in Hn.
  destruct (at_exists (pd_usageItems pd) (c_firstUsageItem c)) as [ui Hui]; [lia|].
  unfold collection_node. rewrite (proj2 (aget_at _ _ _) Hc). cbn [obind].
  rewrite (proj2 (aget_at _ _ _) Hui). cbn [obind]. eexists _, c. split; [done|]. by exists ui.
Qed.

Lemma copy_nodes_spec {N} (node : HIDCollectionNode * HIDCollection → N) m : ∀ i l,
  0 ≤ i → i + Z.of_nat m = pd_collectionCount pd → pd_collectionCount pd ≤ zlen l →
  ∃ l', copy_nodes node m i pd l = Ret l' ∧ zlen l' = zlen l ∧
    (∀ j, i ≤ j < pd_collectionCount pd → ∃ n c, node_of pd j n c ∧ at_ l' j (Some (node (n, c)))) ∧
    (∀ j a, 0 ≤ j → j < i ∨ pd_collectionCount pd ≤ j → at_ l j a → at_ l' j a).
Proof using Hpd Hnamed.
  induction m as [|m IH]; intros i l Hi Hm Hl; cbn [copy_nodes].
  { exists l. split; [done|]. split; [done|]. split; [lia|done]. }
  destruct (collection_node_spec i) as (n & c & -> & Hnode); [lia|]. cbn [obind].
  rewrite aset_in by lia. cbn [obind].
  destruct (IH (i + 1) (<[Z.to_nat i:=Some (node (n, c))]> l)) as (l' & -> & Hz & Hset & Hkeep);
    [lia|lia|by rewrite zlen_insert|].
  rewrite zlen_insert in Hz. exists l'. split; [done|]. split; [done|]. split.
  - intros j Hj. destruct (decide (j = i)) as [->|]; [|apply Hset; lia].
    exists n, c. split; [done|]. apply Hkeep; [lia|lia|]. apply at_insert_eq. lia.
  - intros j a Hj0 Hj Ha. apply Hkeep; [done|lia|]. apply at_insert_ne; [lia|done|done].
Qed.

Lemma get_nodes_spec {N} (node : HIDCollectionNode * HIDCollection → N) l max :
  pd_hidTypeIfValid pd = kHIDOSType → pd_collectionCount pd < 2147483648 → 0 ≤ max < 2147483648 →
  max ≤ zlen l →
  let count := pd_collectionCount pd in
  if max <? count then
    get_nodes node (Some l) (Some max) (Some pd) = Ret (kHIDBufferTooSmallErr, Some l, Some count)
  else ∃ l', get_nodes node (Some l) (Some max) (Some pd) = Ret (kHIDSuccess, Some l', Some count) ∧
    zlen l' = zlen l ∧
    (∀ j, 0 ≤ j < count → ∃ n c, node_of pd j n c ∧ at_ l' j (Some (node (n, c)))) ∧
    (∀ j a, count ≤ j → at_ l j a → at_ l' j a).
Proof using Hpd Hnamed.
  intros Hv Hc Hmax Hl count. pose proof (pk_collections _ Hpd). unfold get_nodes.
  rewrite Hv, Z.eqb_refl. cbn [negb]. rewrite (s32_id max), (s32_id (pd_collectionCount pd)) by lia.
  fold count. rewrite (u32_id count), (u32_id max) by lia. destruct (Z.ltb_spec max count); [done|].
  destruct (copy_nodes_spec node (Z.to_nat count) 0 l) as (l' & -> & Hz & Hset & Hkeep); [lia|lia|lia|].
  exists l'. cbn [obind]. split; [done|]. split; [done|]. split; [done|].
  intros j a Hj. apply Hkeep; lia.
Qed.
End Nodes.

(** The collection nodes are a copy of the collection table: with room
    for all, node [j] of the caller's array describes collection [j] (its
    links, and the usage and page it starts with; the extended node adds the
    collection's data), the rest of the array is untouched; with less room
    nothing is stored and the needed number is returned. *)
Theorem collection_nodes_copied pd l l2 max :
  preparsed_ok pd → collections_named pd → pd_hidTypeIfValid pd = kHIDOSType →
  pd_collectionCount pd < 2147483648 → 0 ≤ max < 2147483648 → max ≤ zlen l → max ≤ zlen l2 →
  let count := pd_collectionCount pd in
  if max <? count then
    HIDGetCollectionNodes (Some l) (Some max) (Some pd) = Ret (kHIDBufferTooSmallErr, Some l, Some count) ∧
    HIDGetCollectionExtendedNodes (Some l2) (Some max) (Some pd)
      = Ret (kHIDBufferTooSmallErr, Some l2, Some count)
  else
    ∃ l' l2', HIDGetCollectionNodes (Some l) (Some max) (Some pd) = Ret (kHIDSuccess, Some l', Some count) ∧
      HIDGetCollectionExtendedNodes (Some l2) (Some max) (Some pd) = Ret (kHIDSuccess, Some l2', Some count) ∧
      (∀ j, 0 ≤ j < count → ∃ n c, node_of pd j n c ∧ at_ l' j (Some n)) ∧
      (∀ j, 0 ≤ j < count → ∃ n c, node_of pd j n c ∧ at_ l2' j (Some (n, u32 (c_data c)))) ∧
      (∀ j a, count ≤ j → at_ l j a → at_ l' j a).
Proof.
  intros Hpd Hn Hv Hc Hmax Hl Hl2 count.
  pose proof (get_nodes_spec pd Hpd Hn (fun nc => nc.1) l max Hv Hc Hmax Hl) as H1.
  pose proof (get_nodes_spec pd Hpd Hn (fun nc => (nc.1, u32 (c_data nc.2))) l2 max Hv Hc Hmax Hl2) as H2.
  cbv zeta in H1, H2. fold count in H1, H2. destruct (max <? count); [done|].
  destruct H1 as (l' & ? & _ & ? & ?), H2 as (l2' & ? & _ & ? & _). by exists l', l2'.
Qed.

(** ** The next collection *)
Section Next.
Context (pd : HIDPreparsedData) (kind : option HIDReportItem → HIDPreparsedData → outcome bool)
  (reportType usagePage usage iCollection : Z).
Hypothesis Hpd : preparsed_ok pd.
Hypothesis Hkind : ∀ ri, report_item_ok pd ri → safe (kind (Some ri) pd) (fun _ => True).
(** Every report item has a first usage to compare with. *)
Hypothesis Hnamed : table (fun ri => ri_firstUsageItem ri < zlen (pd_usageItems pd))
  (pd_reportItems pd) (pd_reportItemCount pd).

(** An item of a later collection that has the usage first. *)
Definition candidate (ri : HIDReportItem) : bool :=
  match aget (pd_usageItems pd) (ri_firstUsageItem ri), kind (Some ri) pd with
  | Ret ui, Ret k =>
      let lo := if ui_isRange ui then ui_usageMinimum ui else s32 (ui_usage ui) in
      let hi := if ui_isRange ui then ui_usageMaximum ui else s32 (ui_usage ui) in
      (ri_reportType ri =? reportType)
      && ((usagePage =? 0) || (g_usagePage (ri_globals ri) =? usagePage))
      && ((u32 lo <=? usage) && (usage <=? u32 hi))
      && (iCollection <? u32 (ri_parent ri)) && k
  | _, _ => false
  end.

(** The nearest collection so far, with the index of its first item. *)
Definition nearest (upto : Z) (found : bool) (c id : Z) : Prop :=
  (∀ j ri, j < upto → at_ (pd_reportItems pd) j ri → candidate ri = true →
    found = true ∧ c ≤ u32 (ri_parent ri)) ∧
  (found = true → ∃ j ri, j < upto ∧ at_ (pd_reportItems pd) j ri ∧ candidate ri = true ∧
    c = u32 (ri_parent ri) ∧ id = u8 j) ∧
  (found = false → c = 0xFFFFFFFF).

Lemma next_info_spec n : ∀ i found c id,
  0 ≤ i → i + Z.of_nat n = pd_reportItemCount pd → pd_collectionCount pd < 0xFFFFFFFF →
  nearest i found c id →
  safe (next_info n i pd kind reportType usagePage usage iCollection found c id)
    (fun '(found, c, id) => nearest (pd_reportItemCount pd) found c id).
Proof using Hpd Hkind Hnamed.
  pose proof (pk_items _ Hpd). pose proof (pk_usages _ Hpd).
  induction n as [|n IH]; intros i found c id Hi Hn Hcc Hne; cbn [next_info].
  { by replace (pd_reportItemCount pd) with i by lia. }
  destruct (at_exists (pd_reportItems pd) i) as [ri Ha]; [lia|].
  rewrite (proj2 (aget_at _ _ _) Ha). cbn [obind].
  pose proof (tb_items _ (pk_tables _ Hpd) i ri ltac:(lia) Ha) as Hri.
  pose proof (Hnamed i ri ltac:(lia) Ha) as Hfirst. cbn in Hfirst.
  pose proof (ro_parent _ _ Hri) as Hpar. destruct (ro_usages _ _ Hri) as (? & _ & _).
  destruct (at_exists (pd_usageItems pd) (ri_firstUsageItem ri)) as [ui Hui]; [lia|].
  rewrite (proj2 (aget_at _ _ _) Hui). cbn [obind]. cbv zeta.
  destruct (safe_elim _ _ (Hkind ri Hri)) as (k & Ek & _). rewrite Ek.
  match goal with |- context [if ?t then Ret k else Ret false] => set (test := t) end.
  assert ((if test then Ret k else Ret false) = Ret (candidate ri)) as ->.
  { unfold candidate. rewrite (proj2 (aget_at _ _ _) Hui), Ek. cbv zeta. fold test. by destruct test. }
  cbn [obind]. destruct Hne as (Hall & Hex & Hno).
  (* items before [i + 1] are those before [i], and [ri] *)
  assert (∀ j a, j < i + 1 → at_ (pd_reportItems pd) j a → j < i ∧ at_ (pd_reportItems pd) j a ∨ a = ri) as Hj.
  { intros j a Hj Haj. destruct (decide (j = i)) as [->|]; [right; by eapply at_fun|left; split; [lia|done]]. }
  destruct (candidate ri) eqn:Ec; cbn [andb]; [destruct (Z.ltb_spec (u32 (ri_parent ri)) c)|];
    apply IH; try lia; (split; [|split]); try done.
  - intros j a Hlt Haj Hca. split; [done|]. destruct (Hj j a Hlt Haj) as [[Hlt' _]| ->]; [|done].
    destruct (Hall j a Hlt' Haj Hca). lia.
  - intros _. exists i, ri. split; [lia|done].
  - intros j a Hlt Haj Hca. destruct (Hj j a Hlt Haj) as [[Hlt' _]| ->]; [by apply (Hall j)|].
    split; [|done]. destruct found; [done|]. rewrite (Hno eq_refl), u32_id in * by lia. lia.
  - intros Hf. destruct (Hex Hf) as (j & a & ? & ?). exists j, a. split; [lia|done].
  - intros j a Hlt Haj Hca. destruct (Hj j a Hlt Haj) as [[Hlt' _]| ->]; [by apply (Hall j)|congruence].
  - intros Hf. destruct (Hex Hf) as (j & a & ? & ?). exists j, a. split; [lia|done].
Qed.
End Next.

(** The answer of a "next info" query that asked from collection
    [iCollection] and report ID cell [id0]. *)
Definition next_answer (pd : HIDPreparsedData)
    (kind : option HIDReportItem → HIDPreparsedData → outcome bool)
    (reportType usagePage usage iCollection id0 : Z) (r : OSStatus * option Z * option Z) : Prop :=
  let cand := candidate pd kind reportType usagePage usage iCollection in
  (∃ j ri, j < pd_reportItemCount pd ∧ at_ (pd_reportItems pd) j ri ∧ cand ri = true ∧
     r = (noErr, Some (u32 (ri_parent ri)), Some (u8 j)) ∧
     ∀ j' ri', j' < pd_reportItemCount pd → at_ (pd_reportItems pd) j' ri' → cand ri' = true →
       u32 (ri_parent ri) ≤ u32 (ri_parent ri')) ∨
  (r = (kHIDUsageNotFoundErr, Some iCollection, Some id0) ∧
     ∀ j ri, j < pd_reportItemCount pd → at_ (pd_reportItems pd) j ri → cand ri = false).

Lemma get_next_info_spec pd kind reportType usagePage usage iCollection id0 :
  preparsed_ok pd → pd_hidTypeIfValid pd = kHIDOSType →
  (∀ ri, report_item_ok pd ri → safe (kind (Some ri) pd) (fun _ => True)) →
  table (fun ri => ri_firstUsageItem ri < zlen (pd_usageItems pd)) (pd_reportItems pd) (pd_reportItemCount pd) →
  pd_collectionCount pd < 0xFFFFFFFF → 0 ≤ iCollection < pd_collectionCount pd →
  safe (get_next_info kind reportType usagePage usage (Some iCollection) (Some id0) (Some pd))
    (next_answer pd kind reportType usagePage usage iCollection id0).
Proof.
  intros Hpd Hv Hkind Hnamed Hcc Hi. unfold get_next_info.
  assert (check_collection pd iCollection = kHIDSuccess) as ->.
  { unfold check_collection. rewrite Hv, Z.eqb_refl. cbn [negb].
    by rewrite (proj2 (Z.ltb_ge iCollection 0)), (proj2 (Z.leb_gt _ iCollection)) by lia. }
  change (negb (kHIDSuccess =? kHIDSuccess)) with false. cbn [negb]. pose proof (pk_items _ Hpd).
  apply wp_bind. eapply wp_mono; [apply (next_info_spec pd kind reportType usagePage usage iCollection Hpd Hkind Hnamed);
    try lia| |done].
  { split; [|done]. intros j ri Hj [? _]. lia. }
  intros [[found c] id] (Hall & Hex & _). destruct found.
  - destruct (Hex eq_refl) as (j & ri & Hj & Ha & Hc & -> & ->). left. exists j, ri.
    do 3 (split; [done|]). split; [done|]. intros j' ri' Hj' Ha' Hc'. by apply (Hall j').
  - right. split; [done|]. intros j ri Hj Ha.
    destruct (candidate _ _ _ _ _ _ ri) eqn:E; [|done]. by destruct (Hall j ri Hj Ha E).
Qed.

(** [HIDGetNextButtonInfo] and [HIDGetNextUsageValueInfo] find the
    nearest following collection: among the button (value) items of the
    report type and page whose first usage item has the usage and whose
    collection follows the given one, the collection returned is the
    smallest; when there is none the parameters are left alone.  What is
    stored through [reportID] is the low byte of the item's index. *)
Theorem next_collection_nearest pd reportType usagePage usage iCollection id0 :
  preparsed_ok pd → pd_hidTypeIfValid pd = kHIDOSType →
  table (fun ri => ri_firstUsageItem ri < zlen (pd_usageItems pd)) (pd_reportItems pd) (pd_reportItemCount pd) →
  pd_collectionCount pd < 0xFFFFFFFF → 0 ≤ iCollection < pd_collectionCount pd →
  safe (HIDGetNextButtonInfo reportType usagePage usage (Some iCollection) (Some id0) (Some pd))
    (next_answer pd HIDIsButton reportType usagePage usage iCollection id0) ∧
  safe (HIDGetNextUsageValueInfo reportType usagePage usage (Some iCollection) (Some id0) (Some pd))
    (next_answer pd HIDIsVariable reportType usagePage usage iCollection id0).
Proof.
  intros Hpd Hv Hn Hcc Hi. split; apply get_next_info_spec; try done; intros ri Hri;
    [by apply HIDIsButton_safe|by apply HIDIsVariable_safe].
Qed.

(** Preparsed data without the type mark (before opening succeeded, or
    after closing) is refused by every function that reads it: the status is
    the invalid-data error and no output is written. *)
Theorem invalid_data_rejected pd ty page col usage v l lu n rep len old bc bx vc vx nd xd cp id :
  pd_hidTypeIfValid pd ≠ kHIDOSType →
  let e := kHIDInvalidPreparsedDataErr in
  HIDGetUsageValue ty page col usage (Some old) (Some pd) (Some rep) len = Ret (e, Some old) ∧
  HIDGetScaledUsageValue ty page col usage (Some old) (Some pd) (Some rep) len = Ret (e, Some old) ∧
  HIDSetUsageValue ty page col usage v (Some pd) (Some rep) len = Ret (e, Some rep) ∧
  HIDSetScaledUsageValue ty page col usage v (Some pd) (Some rep) len = Ret (e, Some rep) ∧
  HIDGetUsageValueArray ty page col usage (Some l) n (Some pd) (Some rep) len = Ret (e, Some l) ∧
  HIDSetUsageValueArray ty page col usage (Some l) n (Some pd) (Some rep) len = Ret (e, Some rep) ∧
  HIDGetButtons ty col (Some lu) (Some n) (Some pd) (Some rep) len = Ret (e, Some lu, Some n) ∧
  HIDGetButtonsOnPage ty page col (Some l) (Some n) (Some pd) (Some rep) len = Ret (e, Some l, Some n) ∧
  HIDSetButton ty page col usage (Some pd) (Some rep) len = Ret (e, Some rep) ∧
  HIDSetButtons ty page col (Some l) (Some n) (Some pd) (Some rep) len = Ret (e, Some n, Some rep) ∧
  HIDGetReportLength ty id (Some old) (Some pd) = Ret (e, Some old) ∧
  HIDInitReport ty id (Some pd) (Some rep) len = Ret (e, Some rep) ∧
  HIDGetCaps (Some pd) (Some cp) = Ret (e, Some cp) ∧
  HIDGetCapabilities (Some pd) (Some cp) = Ret (e, Some cp) ∧
  HIDGetCollectionNodes (Some nd) (Some n) (Some pd) = Ret (e, Some nd, Some n) ∧
  HIDGetCollectionExtendedNodes (Some xd) (Some n) (Some pd) = Ret (e, Some xd, Some n) ∧
  HIDGetNextButtonInfo ty page usage (Some col) (Some id) (Some pd) = Ret (e, Some col, Some id) ∧
  HIDGetNextUsageValueInfo ty page usage (Some col) (Some id) (Some pd) = Ret (e, Some col, Some id) ∧
  HIDGetSpecificButtonCaps ty page col usage (Some bc) (Some n) (Some pd) = Ret (e, Some bc, Some n) ∧
  HIDGetSpecificButtonCapabilities ty page col usage (Some bx) (Some n) (Some pd) = Ret (e, Some bx, Some n) ∧
  HIDGetSpecificValueCaps ty page col usage (Some vc) (Some n) (Some pd) = Ret (e, Some vc, Some n) ∧
  HIDGetSpecificValueCapabilities ty page col usage (Some vx) (Some n) (Some pd) = Ret (e, Some vx, Some n).
Proof.
  intros H%Z.eqb_neq e. 
  assert (check_collection pd col = e) as Hc by (unfold check_collection; by rewrite H).
  unfold HIDGetUsageValue, HIDGetScaledUsageValue, HIDSetUsageValue, HIDSetScaledUsageValue,
    HIDGetUsageValueArray, HIDSetUsageValueArray, HIDGetButtons, HIDGetButtonsOnPage, HIDSetButton,
    HIDSetButtons, HIDGetReportLength, HIDInitReport, HIDGetCaps, HIDGetCapabilities,
    HIDGetCollectionNodes, HIDGetCollectionExtendedNodes, get_nodes, HIDGetNextButtonInfo,
    HIDGetNextUsageValueInfo, get_next_info, HIDGetSpecificButtonCaps, HIDGetSpecificButtonCapabilities,
    HIDGetSpecificValueCaps, HIDGetSpecificValueCapabilities, specific_caps, search_collection.
  rewrite H, Hc. repeat split.
Qed.

(** The start bit of a value queried by usage is wrong for all but the
    first usage of an item: the walk only advances past usages that match.
    In the sample mouse, Y is the second byte after the buttons: the list of
    all values says bit 16, the query for Y says bit 8. *)
Example value_caps_start_bit (blank : HIDValueCaps) :
  ∃ x y y', 
    HIDGetValueCaps kHIDInputReport (Some [blank; blank]) (Some 2) (Some mouse_pd) =
      Ret (kHIDSuccess, Some [x; y], Some 2) ∧
    HIDGetSpecificValueCaps kHIDInputReport 1 0 0x31 (Some [blank]) (Some 1) (Some mouse_pd) =
      Ret (kHIDSuccess, Some [y'], Some 1) ∧
    (cc_startBit (vc_common x), cc_startBit (vc_common y), cc_startBit (vc_common y')) = (8, 16, 8) ∧
    u_0 (cc_u (vc_common y)) = 0x31 ∧ u_0 (cc_u (vc_common y')) = 0x31 ∧
    u32 (item_start mouse_xy 1) = 16.
Proof. eexists _, _, _. by repeat split. Qed.

(** The theorems at the sample mouse. *)
Lemma mouse_named : collections_named mouse_pd.
Proof. apply table_Forall. repeat apply Forall_cons_2; [..|by apply Forall_nil_2]; by vm_compute. Qed.
Lemma mouse_items_named :
  table (fun ri => ri_firstUsageItem ri < zlen (pd_usageItems mouse_pd)) (pd_reportItems mouse_pd)
    (pd_reportItemCount mouse_pd).
Proof. apply table_Forall. repeat apply Forall_cons_2; [..|by apply Forall_nil_2]; by vm_compute. Qed.

Definition blank_common : CapCommon :=
  mkCapCommon 0 0 0 0 0 0 false false false false 0 (mkCapUnion 0 0 0 0 0 0).
Definition blank_value : HIDValueCaps := mkHIDValueCaps blank_common 0 0 0 0 0 0.
Definition mouse_caps : HIDCaps := Eval vm_compute in
  match HIDGetCaps (Some mouse_pd) (Some None) with
  | Ret (_, Some (Some c)) => c | _ => mkHIDCaps 0 0 0 0 0 0 0 0 0 0 0 0 end.
Lemma mouse_caps_eq : HIDGetCaps (Some mouse_pd) (Some None) = Ret (kHIDSuccess, Some (Some mouse_caps)).
Proof. vm_compute. reflexivity. Qed.

Lemma button_caps_complete_witness :
  0 ≤ 1 ∧
  (∃ l', HIDGetButtonCaps 1 (Some [blank_common; blank_common]) (Some 1) (Some mouse_pd) =
     Ret (kHIDSuccess, Some l', Some 1) ∧ zlen l' = 2) ∧
  (∃ l', HIDGetButtonCapabilities 1 (Some [mkHIDButtonCapabilities blank_common 0 0 0]) (Some 1) (Some mouse_pd) =
     Ret (kHIDSuccess, Some l', Some 1) ∧ zlen l' = 1).
Proof.
  apply (button_caps_complete mouse_pd 1 mouse_caps None (proj1 mouse_ok) (proj2 mouse_ok) mouse_named
    ltac:(lia) mouse_caps_eq [blank_common; blank_common] [mkHIDButtonCapabilities blank_common 0 0 0]);
    by vm_compute.
Defined.

Lemma value_caps_complete_witness :
  0 ≤ 2 ∧
  (∃ l', HIDGetValueCaps 1 (Some [blank_value; blank_value]) (Some 2) (Some mouse_pd) =
     Ret (kHIDSuccess, Some l', Some 2) ∧ zlen l' = 2) ∧
  (∃ l', HIDGetValueCapabilities 1 (Some (replicate 3 (mkHIDValueCapabilities blank_value 0 0 0))) (Some 2)
       (Some mouse_pd) = Ret (kHIDSuccess, Some l', Some 2) ∧ zlen l' = 3).
Proof.
  apply (value_caps_complete mouse_pd 1 mouse_caps None (proj1 mouse_ok) (proj2 mouse_ok) mouse_named
    ltac:(lia) mouse_caps_eq [blank_value; blank_value] (replicate 3 (mkHIDValueCapabilities blank_value 0 0 0)));
    by vm_compute.
Defined.

Lemma collection_nodes_copied_witness :
  ∃ l' l2', HIDGetCollectionNodes (Some (replicate 4 None)) (Some 3) (Some mouse_pd)
      = Ret (kHIDSuccess, Some l', Some 3) ∧
    HIDGetCollectionExtendedNodes (Some (replicate 3 None)) (Some 3) (Some mouse_pd)
      = Ret (kHIDSuccess, Some l2', Some 3) ∧
    (∀ j, 0 ≤ j < 3 → ∃ n c, node_of mouse_pd j n c ∧ at_ l' j (Some n)) ∧
    (∀ j, 0 ≤ j < 3 → ∃ n c, node_of mouse_pd j n c ∧ at_ l2' j (Some (n, u32 (c_data c)))) ∧
    (∀ j a, 3 ≤ j → at_ (replicate 4 None) j a → at_ l' j a).
Proof.
  apply (collection_nodes_copied mouse_pd (replicate 4 None) (replicate 3 None) 3 (proj1 mouse_ok)
    mouse_named (proj2 mouse_ok)); by vm_compute.
Defined.

Lemma next_collection_nearest_witness :
  safe (HIDGetNextButtonInfo 1 9 1 (Some 0) (Some 77) (Some mouse_pd))
    (next_answer mouse_pd HIDIsButton 1 9 1 0 77) ∧
  safe (HIDGetNextUsageValueInfo 1 9 1 (Some 0) (Some 77) (Some mouse_pd))
    (next_answer mouse_pd HIDIsVariable 1 9 1 0 77).
Proof.
  apply (next_collection_nearest mouse_pd 1 9 1 0 77 (proj1 mouse_ok) (proj2 mouse_ok) mouse_items_named);
    by vm_compute.
Defined.

Lemma invalid_data_rejected_witness :
  HIDGetUsageValue 1 1 0 0x30 (Some None) (Some zeroPreparsedData) (Some [0]) 1 =
    Ret (kHIDInvalidPreparsedDataErr, Some None).
Proof.
  apply (invalid_data_rejected zeroPreparsedData 1 1 0 0x30 0 [] [] 0 [0] 1 None [] [] [] [] [] [] None 0).
  by vm_compute.
Defined.
