(* ===== verification/Bytes.v ===== *)
(** Byte buffers of the DNS code: what a buffer holds at an offset, writes of
    runs of bytes, the copy loops, and big-endian words.

    A buffer is a list of cells and a pointer into it an offset from its
    start.  [holds l p bs] says that the bytes [bs] stand in [l] from offset
    [p] on, [write l p bs] is [l] with them stored there. *)
From S2P Require Import Prelude.

Section Buffers.
Context {A : Type}.
Implicit Types (l a b bs : list A) (p q n i : Z) (x : A).

Definition holds l p bs : Prop :=
  0 ≤ p ≤ zlen l ∧ bs `prefix_of` drop (Z.to_nat p) l.

Definition write l p bs : list A :=
  take (Z.to_nat p) l ++ bs ++ drop (Z.to_nat p + length bs) l.

Lemma holds_split l p bs :
  holds l p bs ↔ ∃ pre post, l = pre ++ bs ++ post ∧ zlen pre = p.
Proof.
  split.
  - intros [[? ?] [post Hp]]. exists (take (Z.to_nat p) l), post. split.
    + by rewrite <- Hp, take_drop.
    + unfold zlen in *. rewrite length_take. lia.
  - intros (pre & post & -> & <-). split.
    + rewrite zlen_app. pose proof (zlen_nonneg pre). pose proof (zlen_nonneg (bs ++ post)). lia.
    + unfold zlen. rewrite Nat2Z.id, drop_app_length. by exists post.
Qed.

Lemma holds_range l p bs : holds l p bs → 0 ≤ p ∧ p + zlen bs ≤ zlen l.
Proof.
  intros (pre & post & -> & <-)%holds_split. rewrite !zlen_app.
  pose proof (zlen_nonneg pre). pose proof (zlen_nonneg post). lia.
Qed.

Lemma holds_nil l p : 0 ≤ p ≤ zlen l → holds l p [].
Proof. intros. split; [done|]. apply prefix_nil. Qed.

Lemma holds_app l p a b : holds l p (a ++ b) ↔ holds l p a ∧ holds l (p + zlen a) b.
Proof.
  split.
  - intros (pre & post & -> & <-)%holds_split. split; apply holds_split.
    + exists pre, (b ++ post). by rewrite <- app_assoc.
    + exists (pre ++ a), post. by rewrite <- !app_assoc, zlen_app.
  - intros [(pre & post & -> & <-)%holds_split [? [post' Hb]]].
    apply holds_split. exists pre, post'. split; [|done].
    replace (Z.to_nat (zlen pre + zlen a)) with (length (pre ++ a)) in Hb
      by (rewrite length_app; unfold zlen; lia).
    rewrite app_assoc, drop_app_length in Hb. by rewrite Hb, <- app_assoc.
Qed.

Lemma holds_cons l p x bs : holds l p (x :: bs) ↔ at_ l p x ∧ holds l (p + 1) bs.
Proof.
  change (x :: bs) with ([x] ++ bs). rewrite holds_app. unfold zlen at 1. simpl.
  enough (holds l p [x] ↔ at_ l p x) as -> by done. split.
  - intros (pre & post & -> & <-)%holds_split. split; [apply zlen_nonneg|].
    unfold zlen. rewrite Nat2Z.id. by apply list_lookup_middle.
  - intros H. pose proof (at_range _ _ _ H). destruct H as [? H]. split; [lia|].
    exists (drop (S (Z.to_nat p)) l). by rewrite (drop_S l x).
Qed.

Lemma holds_at l p bs i x : holds l p bs → at_ bs i x → at_ l (p + i) x.
Proof.
  intros (pre & post & -> & <-)%holds_split Hi. pose proof (at_range _ _ _ Hi) as [Hi0 Hi1].
  destruct Hi as [_ Hx]. pose proof (zlen_nonneg pre). split; [lia|].
  replace (Z.to_nat (zlen pre + i)) with (length pre + Z.to_nat i)%nat by (unfold zlen; lia).
  rewrite lookup_app_r, Nat.add_comm, Nat.add_sub by lia. by apply lookup_app_l_Some.
Qed.

Lemma holds_fun l p a b : holds l p a → holds l p b → length a = length b → a = b.
Proof.
  intros [_ [k1 H1]] [_ [k2 H2]] Hl. rewrite H1 in H2. by apply app_inj_1 in H2 as [].
Qed.

Lemma holds_all l : holds l 0 l.
Proof. split; [pose proof (zlen_nonneg l); lia|]. done. Qed.

Lemma holds_exists l p n : 0 ≤ p → 0 ≤ n → p + n ≤ zlen l → ∃ bs, holds l p bs ∧ zlen bs = n.
Proof.
  intros. exists (take (Z.to_nat n) (drop (Z.to_nat p) l)). split.
  - split; [lia|]. exists (drop (Z.to_nat n) (drop (Z.to_nat p) l)). by rewrite take_drop.
  - unfold zlen in *. rewrite length_take, length_drop. lia.
Qed.

Lemma holds_sub l p bs q a : holds l p bs → holds bs q a → holds l (p + q) a.
Proof.
  intros Hl (pre & post & -> & <-)%holds_split.
  apply holds_app in Hl as [_ Hl]. by apply holds_app in Hl as [Hl _].
Qed.

(** ** Writes *)
Lemma write_nil l p : 0 ≤ p ≤ zlen l → write l p [] = l.
Proof. intros. unfold write. simpl. by rewrite Nat.add_0_r, take_drop. Qed.

Lemma zlen_write l p bs : 0 ≤ p → p + zlen bs ≤ zlen l → zlen (write l p bs) = zlen l.
Proof.
  intros. unfold write, zlen in *. rewrite !length_app, length_take, length_drop. lia.
Qed.

Lemma write_split pre bs post mid :
  length mid = length bs → write (pre ++ mid ++ post) (zlen pre) bs = pre ++ bs ++ post.
Proof.
  intros Hm. unfold write, zlen. rewrite Nat2Z.id, take_app_length.
  rewrite <- drop_drop, drop_app_length, <- Hm, drop_app_length. done.
Qed.

(** Every write in range splits its buffer in three. *)
Lemma write_cases l p bs : 0 ≤ p → p + zlen bs ≤ zlen l →
  ∃ pre mid post, l = pre ++ mid ++ post ∧ zlen pre = p ∧ length mid = length bs ∧
    write l p bs = pre ++ bs ++ post.
Proof.
  intros Hp Hb. destruct (holds_exists l p (zlen bs)) as (mid & Hm & Hl);
    [done|apply zlen_nonneg|done|].
  apply holds_split in Hm as (pre & post & -> & <-). exists pre, mid, post.
  assert (length mid = length bs) by (unfold zlen in Hl; lia). by rewrite write_split.
Qed.

Lemma write_holds l p bs : 0 ≤ p → p + zlen bs ≤ zlen l → holds (write l p bs) p bs.
Proof.
  intros. destruct (write_cases l p bs) as (pre & mid & post & -> & <- & _ & ->); try done.
  apply holds_split. eauto.
Qed.

Lemma write_at_other l p bs i : 0 ≤ p → p + zlen bs ≤ zlen l → i < p ∨ p + zlen bs ≤ i →
  ∀ x, at_ (write l p bs) i x ↔ at_ l i x.
Proof.
  intros Hp Hb Hi x. destruct (write_cases l p bs) as (pre & mid & post & -> & <- & Hm & ->); try done.
  unfold at_. enough (0 ≤ i → (pre ++ bs ++ post) !! Z.to_nat i = (pre ++ mid ++ post) !! Z.to_nat i) as He
    by (split; intros [? Hx]; (split; [done|]); [rewrite <- He|rewrite He]; done).
  intros Hi0. destruct Hi as [Hi|Hi].
  - rewrite !lookup_app_l by (unfold zlen in Hi; lia). done.
  - unfold zlen in Hi. rewrite !app_assoc, !(lookup_app_r (_ ++ _)) by (rewrite length_app; lia).
    by rewrite !length_app, Hm.
Qed.

Lemma holds_ext l l' p bs : holds l p bs → zlen l' = zlen l →
  (∀ i x, p ≤ i < p + zlen bs → at_ l i x → at_ l' i x) → holds l' p bs.
Proof.
  intros H Hlen. revert p H. induction bs as [|x bs IH]; intros p H Hext.
  - apply holds_nil. rewrite Hlen. apply H.
  - pose proof (holds_range _ _ _ H) as Hr. rewrite zlen_cons in *. pose proof (zlen_nonneg bs).
    apply holds_cons in H as [H1 H2]. apply holds_cons. split.
    + apply Hext; [lia|done].
    + apply IH; [done|]. intros i y Hi. apply Hext. lia.
Qed.

Lemma holds_write_other l p bs q a : 0 ≤ p → p + zlen bs ≤ zlen l →
  q + zlen a ≤ p ∨ p + zlen bs ≤ q → holds l q a → holds (write l p bs) q a.
Proof.
  intros Hp Hb Hd Ha. apply (holds_ext l); [done|by apply zlen_write|].
  intros i x Hi Hx. apply write_at_other; [done|done|lia|done].
Qed.

Lemma insert_write l p x : 0 ≤ p < zlen l → <[Z.to_nat p := x]> l = write l p [x].
Proof.
  intros. unfold write. rewrite insert_take_drop by (unfold zlen in *; lia).
  simpl. by rewrite Nat.add_1_r.
Qed.

Lemma aset_write l p x : 0 ≤ p < zlen l → aset l p x = Ret (write l p [x]).
Proof. intros. by rewrite aset_in, insert_write. Qed.

Lemma write_app l p a b : 0 ≤ p → p + zlen a + zlen b ≤ zlen l →
  write (write l p a) (p + zlen a) b = write l p (a ++ b).
Proof.
  intros Hp Hl. pose proof (zlen_nonneg a). pose proof (zlen_nonneg b).
  destruct (write_cases l p (a ++ b)) as (pre & mid & post & -> & <- & Hm & ->);
    [done|rewrite zlen_app; lia|].
  rewrite length_app in Hm.
  rewrite <- (take_drop (length a) mid), <- app_assoc.
  rewrite write_split by (rewrite length_take; lia).
  rewrite <- zlen_app, app_assoc, write_split by (rewrite length_drop; lia).
  by rewrite <- !app_assoc.
Qed.

Lemma write_before l p a b : 0 ≤ p → p + zlen a + zlen b ≤ zlen l →
  write (write l (p + zlen a) b) p a = write l p (a ++ b).
Proof.
  intros Hp Hl. pose proof (zlen_nonneg a). pose proof (zlen_nonneg b).
  destruct (write_cases l p (a ++ b)) as (pre & mid & post & -> & <- & Hm & ->);
    [done|rewrite zlen_app; lia|].
  rewrite length_app in Hm.
  rewrite <- (take_drop (length a) mid), <- app_assoc.
  replace (zlen pre + zlen a) with (zlen (pre ++ take (length a) mid))
    by (unfold zlen; rewrite length_app, length_take; lia).
  rewrite app_assoc, write_split by (rewrite length_drop; lia).
  rewrite <- app_assoc, write_split by (rewrite length_take; lia). by rewrite <- app_assoc.
Qed.

Lemma write_over l p a b : 0 ≤ p → p + zlen a ≤ zlen l → length a = length b →
  write (write l p a) p b = write l p b.
Proof.
  intros Hp Hl Hab. destruct (write_cases l p a) as (pre & mid & post & -> & <- & Hm & ->); try done.
  rewrite !write_split by congruence. done.
Qed.

(** One more byte after a run of bytes just written. *)
Lemma aset_app l q xs p x : 0 ≤ q → p = q + zlen xs → p < zlen l →
  aset (write l q xs) p x = Ret (write l q (xs ++ [x])).
Proof.
  intros Hq -> Hl. pose proof (zlen_nonneg xs). rewrite aset_write by (rewrite zlen_write; lia).
  rewrite write_app; [done|done|]. change (zlen [x]) with 1. lia.
Qed.
End Buffers.

Lemma write_bytes_ok l p bs : bytes_ok l → bytes_ok bs → bytes_ok (write l p bs).
Proof.
  intros. apply Forall_app. split; [by apply Forall_take|]. apply Forall_app.
  split; [done|]. by apply Forall_drop.
Qed.

Lemma holds_bytes_ok l p bs : bytes_ok l → holds l p bs → bytes_ok bs.
Proof. intros Hl (pre & post & -> & _)%holds_split. unfold bytes_ok in *. decompose_Forall. done. Qed.

(** ** Copy loops: [for (i = 0; i < n; i++) *d++ = *s++] between two objects *)
Fixpoint copy_loop {A} (n : nat) (src : list A) (s : Z) (dst : list A) (d : Z) : outcome (list A) :=
  match n with
  | O => Ret dst
  | S n =>
    let* x := aget src s in
    let* dst := aset dst d x in
    copy_loop n src (s + 1) dst (d + 1)
  end.
Definition copy {A} (n : Z) (src : list A) (s : Z) (dst : list A) (d : Z) : outcome (list A) :=
  copy_loop (Z.to_nat n) src s dst d.

Lemma copy_write {A} (src dst bs : list A) s d : holds src s bs → 0 ≤ d → d + zlen bs ≤ zlen dst →
  copy (zlen bs) src s dst d = Ret (write dst d bs).
Proof.
  unfold copy. replace (Z.to_nat (zlen bs)) with (length bs) by (unfold zlen; lia).
  revert s dst d. induction bs as [|x bs IH]; intros s dst d Hs Hd Hl.
  - simpl. unfold zlen in Hl. simpl in Hl. rewrite write_nil; [done|unfold zlen; lia].
  - apply holds_cons in Hs as [Hx Hs]. rewrite zlen_cons in Hl. pose proof (zlen_nonneg bs).
    simpl. rewrite (proj2 (aget_at _ _ _) Hx). simpl. rewrite aset_write by lia. simpl.
    rewrite IH; [|done|lia|rewrite zlen_write; unfold zlen in *; simpl in *; lia].
    f_equal. change (x :: bs) with ([x] ++ bs). rewrite <- write_app; [done|done|].
    unfold zlen in *. simpl. lia.
Qed.

(** A copy whose source is in range stores the bytes found there. *)
Lemma copy_range {A} (src dst : list A) n s d : 0 ≤ s → 0 ≤ n → s + n ≤ zlen src →
  0 ≤ d → d + n ≤ zlen dst →
  ∃ bs, holds src s bs ∧ zlen bs = n ∧ copy n src s dst d = Ret (write dst d bs).
Proof.
  intros Hs Hn Hsl Hd Hdl. destruct (holds_exists src s n) as (bs & Hb & <-); try done.
  exists bs. split; [done|]. split; [done|]. by apply copy_write.
Qed.

(** ** Big-endian words *)
Definition be16 (v : Z) : list Z := [v / 256; v mod 256].
Definition be32 (v : Z) : list Z := [v / 16777216; v / 65536 mod 256; v / 256 mod 256; v mod 256].

Abbreviation is_u16 z := (0 ≤ z < 65536).

Lemma be16_ok v : is_u16 v → bytes_ok (be16 v).
Proof. intros. repeat constructor; Z.div_mod_to_equations; lia. Qed.
Lemma be32_ok v : is_u32 v → bytes_ok (be32 v).
Proof. intros. repeat constructor; Z.div_mod_to_equations; lia. Qed.

Lemma join16 hi lo : is_u8 lo → Z.lor (Z.shiftl hi 8) lo = hi * 256 + lo.
Proof.
  intros Hl. rewrite Z.lor_comm, lor_shift_add by lia. change (2 ^ 8) with 256. lia.
Qed.
Lemma join32 a b c d : is_u8 b → is_u8 c → is_u8 d →
  Z.lor (Z.lor (Z.lor (Z.shiftl a 24) (Z.shiftl b 16)) (Z.shiftl c 8)) d = a * 16777216 + b * 65536 + c * 256 + d.
Proof.
  intros Hb Hc Hd. change 24 with (16 + 8). rewrite <- Z.shiftl_shiftl by lia.
  change 16 with (8 + 8). rewrite <- !Z.shiftl_shiftl by lia. rewrite <- !Z.shiftl_lor.
  rewrite !join16 by done. lia.
Qed.
