(* ===== verification/DNSTypes.v ===== *)
(** Domain names of mDNSResponder: the limits of [mDNSEmbeddedAPI.h], the
    character classes of [DNSCommon.h], and the reference encoding the
    theorems compare the code with.

    A [domainname] is a buffer of 256 bytes that holds a sequence of labels,
    each a length byte and that many bytes, and a final zero byte.  The
    reference view of a name is the list of its labels; [encode] is its
    encoding.  A pointer to a name, or into one, is the memory from that
    pointer to the end of its object: [ptr_add d k] is the C pointer [d + k]. *)
From S2P Require Import Prelude Bytes.

Definition MAX_DOMAIN_LABEL : Z := 63.
Definition MAX_DOMAIN_NAME : Z := 255.

(** ** Character classes *)
Definition mdnsIsDigit (x : Z) : bool := (48 <=? x) && (x <=? 57).
Definition mDNSIsUpperCase (x : Z) : bool := (65 <=? x) && (x <=? 90).
Definition mDNSIsLowerCase (x : Z) : bool := (97 <=? x) && (x <=? 122).
Definition mdnsIsLetter (x : Z) : bool := mDNSIsUpperCase x || mDNSIsLowerCase x.
Definition mdnsValidHostChar (x : Z) (notfirst notlast : bool) : bool :=
  mdnsIsLetter x || mdnsIsDigit x || (notfirst && notlast && (x =? 45)).

Definition ptr_add (d : list Z) (k : Z) : list Z := drop (Z.to_nat k) d.

(** ** The reference encoding *)
Abbreviation label := (list Z).

Definition encode_label (l : label) : list Z := zlen l :: l.
Definition encode_labels (ls : list label) : list Z := concat (map encode_label ls).
Definition encode (ls : list label) : list Z := encode_labels ls ++ [0].

Definition label_ok (l : label) : Prop := 1 ≤ zlen l ≤ MAX_DOMAIN_LABEL ∧ bytes_ok l.
Definition name_ok (ls : list label) : Prop :=
  Forall label_ok ls ∧ zlen (encode ls) ≤ MAX_DOMAIN_NAME.

(** [is_name d ls]: the memory at [d] starts with the encoding of [ls]. *)
Definition is_name (d : list Z) (ls : list label) : Prop := holds d 0 (encode ls).

(** The same conditions as tests, for concrete names. *)
Definition byteb (b : Z) : bool := (0 <=? b) && (b <? 256).
Definition label_okb (l : label) : bool :=
  (1 <=? zlen l) && (zlen l <=? MAX_DOMAIN_LABEL) && forallb byteb l.
Definition name_okb (ls : list label) : bool :=
  forallb label_okb ls && (zlen (encode ls) <=? MAX_DOMAIN_NAME).

Lemma bytes_okb_ok l : forallb byteb l = true → bytes_ok l.
Proof.
  intros H. apply Forall_forall. intros b Hb%list_elem_of_In. rewrite forallb_forall in H.
  specialize (H b Hb). unfold byteb in H. lia.
Qed.
Lemma labels_okb_ok ls : forallb label_okb ls = true → Forall label_ok ls.
Proof.
  intros H. apply Forall_forall. intros l Hl%list_elem_of_In. rewrite forallb_forall in H.
  specialize (H l Hl). unfold label_okb in H. rewrite !andb_true_iff in H. destruct H as [[? ?] ?].
  split; [lia|by apply bytes_okb_ok].
Qed.
Lemma name_okb_ok ls : name_okb ls = true → name_ok ls.
Proof. unfold name_okb. rewrite andb_true_iff. intros [? ?]. split; [by apply labels_okb_ok|lia]. Qed.

Lemma encode_labels_cons l ls : encode_labels (l :: ls) = zlen l :: l ++ encode_labels ls.
Proof. done. Qed.
Lemma encode_labels_app ls ls' : encode_labels (ls ++ ls') = encode_labels ls ++ encode_labels ls'.
Proof. unfold encode_labels. by rewrite map_app, concat_app. Qed.
Lemma encode_cons l ls : encode (l :: ls) = zlen l :: l ++ encode ls.
Proof. unfold encode. rewrite encode_labels_cons. simpl. by rewrite <- app_assoc. Qed.
Lemma encode_app ls ls' : encode (ls ++ ls') = encode_labels ls ++ encode ls'.
Proof. unfold encode. by rewrite encode_labels_app, app_assoc. Qed.
Lemma zlen_encode_label l : zlen (encode_label l) = 1 + zlen l.
Proof. apply zlen_cons. Qed.
Lemma zlen_encode_labels_cons l ls :
  zlen (encode_labels (l :: ls)) = 1 + zlen l + zlen (encode_labels ls).
Proof. rewrite encode_labels_cons, zlen_cons, zlen_app. lia. Qed.
Lemma zlen_encode ls : zlen (encode ls) = zlen (encode_labels ls) + 1.
Proof. unfold encode. by rewrite zlen_app. Qed.
Lemma zlen_encode_cons l ls : zlen (encode (l :: ls)) = 1 + zlen l + zlen (encode ls).
Proof. rewrite encode_cons, zlen_cons, zlen_app. lia. Qed.
Lemma zlen_encode_app ls ls' : zlen (encode (ls ++ ls')) = zlen (encode ls) - 1 + zlen (encode ls').
Proof. rewrite encode_app, zlen_app, (zlen_encode ls). lia. Qed.
Lemma zlen_encode_one l : zlen (encode [l]) = zlen l + 2.
Proof. rewrite zlen_encode_cons. change (zlen (encode [])) with 1. lia. Qed.
Lemma zlen_encode_snoc ls l : zlen (encode (ls ++ [l])) = zlen (encode ls) + 1 + zlen l.
Proof. rewrite zlen_encode_app, zlen_encode_one. lia. Qed.
Lemma zlen_encode_pos ls : 1 ≤ zlen (encode ls).
Proof. rewrite zlen_encode. pose proof (zlen_nonneg (encode_labels ls)). lia. Qed.

Lemma name_ok_cons l ls : name_ok (l :: ls) → label_ok l ∧ name_ok ls.
Proof.
  intros [[Hl Hls]%Forall_cons Hn]. rewrite zlen_encode_cons in Hn.
  pose proof (zlen_nonneg l). repeat split; try done; try apply Hl. lia.
Qed.

(** ** Pointers into names *)
Lemma holds_ptr_add {d p q bs} : 0 ≤ q → holds d (p + q) bs → 0 ≤ p → holds (ptr_add d p) q bs.
Proof.
  intros Hq [Hr Hp] ?. split.
  - unfold ptr_add, zlen in *. rewrite length_drop. lia.
  - unfold ptr_add. rewrite drop_drop. by replace (Z.to_nat p + Z.to_nat q)%nat with (Z.to_nat (p + q)) by lia.
Qed.

Lemma holds_ptr_add_inv {d p q bs} : 0 ≤ p ≤ zlen d → holds (ptr_add d p) q bs → holds d (p + q) bs.
Proof.
  intros Hp [Hr Hh]. unfold ptr_add in *. rewrite drop_drop in Hh. split.
  - unfold zlen in *. rewrite length_drop in Hr. lia.
  - by replace (Z.to_nat (p + q)) with (Z.to_nat p + Z.to_nat q)%nat by lia.
Qed.

Lemma is_name_ptr_add d p ls : holds d p (encode ls) → is_name (ptr_add d p) ls.
Proof.
  intros H. pose proof (holds_range _ _ _ H).
  apply holds_ptr_add; [done|by rewrite Z.add_0_r|lia].
Qed.

Lemma is_name_app ls rest : is_name (encode ls ++ rest) ls.
Proof. apply holds_split. by exists [], rest. Qed.
Lemma is_name_encode ls : is_name (encode ls) ls.
Proof. apply holds_all. Qed.

Lemma holds_encode_cons d p l ls : holds d p (encode (l :: ls)) ↔
  at_ d p (zlen l) ∧ holds d (p + 1) l ∧ holds d (p + 1 + zlen l) (encode ls).
Proof. by rewrite encode_cons, holds_cons, holds_app. Qed.
Lemma holds_encode_nil d p : holds d p (encode []) ↔ at_ d p 0.
Proof.
  change (encode []) with [0]. rewrite holds_cons. split; [by intros []|].
  intros H. split; [done|]. apply holds_nil. pose proof (at_range _ _ _ H). lia.
Qed.

(** The length byte of the first label: zero exactly at the end. *)
Lemma encode_head d p ls : Forall label_ok ls → holds d p (encode ls) →
  ∃ b, at_ d p b ∧ (b = 0 ↔ ls = []) ∧ 0 ≤ b ≤ 63.
Proof.
  destruct ls as [|l ls]; intros H Hd; [rewrite holds_encode_nil in Hd; by exists 0|].
  apply holds_encode_cons in Hd as [Hd _]. apply Forall_cons in H as [[Hl _] _].
  unfold MAX_DOMAIN_LABEL in Hl. exists (zlen l). split; [done|]. split; [split; [lia|done]|lia].
Qed.

(** The encoding determines the labels, also among longer memories. *)
Lemma encode_inj ls : ∀ ls' d p, Forall label_ok ls → Forall label_ok ls' →
  holds d p (encode ls) → holds d p (encode ls') → ls = ls'.
Proof.
  induction ls as [|l ls IH]; intros ls' d p Hls Hls' H H'.
  all: destruct (encode_head d p _ Hls H) as (b & Hb & Hz & _).
  all: destruct (encode_head d p _ Hls' H') as (b' & Hb' & Hz' & _).
  all: rewrite (at_fun _ _ _ _ Hb Hb') in Hz; destruct ls' as [|l' ls']; try done;
    try discriminate (proj1 Hz (proj2 Hz' eq_refl)); try discriminate (proj1 Hz' (proj2 Hz eq_refl)).
  rewrite holds_encode_cons in *. destruct H as (H1 & H2 & H3), H' as (H1' & H2' & H3').
  apply Forall_cons in Hls as [_ Hls], Hls' as [_ Hls'].
  assert (zlen l = zlen l') as Hlen by exact (at_fun _ _ _ _ H1 H1').
  rewrite <- Hlen in H3'. rewrite (IH ls' d _ Hls Hls' H3 H3').
  f_equal. apply (holds_fun d (p + 1)); [done|done|]. unfold zlen in Hlen. lia.
Qed.

#[export] Hint Rewrite zlen_encode_cons zlen_encode_labels_cons : hid.
