(* ===== verification/DNSName.v ===== *)
(** Comparing, measuring and appending domain names: the "Domain Name Utility
    Functions" of [DNSCommon.c], [SameDomainLabel] to [AppendDomainName].

    The theorems relate the code on buffers to the list of labels the buffer
    encodes: [SameDomainName] is equality of the labels up to ASCII case,
    [DomainNameLength] decides whether a buffer holds a legal name, and the
    append operations concatenate label lists or fail without leaving the
    256-byte buffer. *)
From S2P Require Import Prelude Bytes DNSTypes.

(** ** Comparison *)
Definition to_lower (c : Z) : Z := if mDNSIsUpperCase c then c + 32 else c.

Fixpoint SameDomainLabel_loop (n : nat) (a b : list Z) (i : Z) : outcome bool :=
  match n with
  | O => Ret true
  | S n =>
    let* ac := aget a i in
    let* bc := aget b i in
    if negb (to_lower ac =? to_lower bc) then Ret false
    else SameDomainLabel_loop n a b (i + 1)
  end.
Definition SameDomainLabel (a b : list Z) : outcome bool :=
  let* len := aget a 0 in
  if MAX_DOMAIN_LABEL <? len then Ret false else
  let* blen := aget b 0 in
  if negb (len =? blen) then Ret false else
  SameDomainLabel_loop (Z.to_nat len) a b 1.

Fixpoint SameDomainName_loop (fuel : nat) (d1 d2 : list Z) (a b : Z) : outcome bool :=
  match fuel with
  | O => Fault OutOfFuel
  | S fuel =>
    let* ca := aget d1 a in
    let* stop := (if negb (ca =? 0) then Ret false else let* cb := aget d2 b in Ret (cb =? 0)) in
    if stop : bool then Ret true else
    if MAX_DOMAIN_NAME <=? a + 1 + ca then Ret false else
    let* same := SameDomainLabel (ptr_add d1 a) (ptr_add d2 b) in
    if negb same then Ret false else
    let* cb := aget d2 b in
    SameDomainName_loop fuel d1 d2 (a + 1 + ca) (b + 1 + cb)
  end.
Definition SameDomainName (d1 d2 : list Z) : outcome bool :=
  SameDomainName_loop (S (length d1)) d1 d2 0 0.

(** ** Length *)
Fixpoint DomainNameLengthLimit_loop (fuel : nat) (name : list Z) (limit src : Z) : outcome Z :=
  match fuel with
  | O => Fault OutOfFuel
  | S fuel =>
    if negb (src <? limit) then Ret (MAX_DOMAIN_NAME + 1) else
    let* c := aget name src in
    if negb (c <=? MAX_DOMAIN_LABEL) then Ret (MAX_DOMAIN_NAME + 1) else
    if c =? 0 then Ret ((src + 1) mod 65536)
    else DomainNameLengthLimit_loop fuel name limit (src + 1 + c)
  end.
Definition DomainNameLengthLimit (name : list Z) (limit : Z) : outcome Z :=
  DomainNameLengthLimit_loop (S (length name)) name limit 0.
Definition DomainNameLength (name : list Z) : outcome Z := DomainNameLengthLimit name (MAX_DOMAIN_NAME + 1).

(** [mDNSPlatformMemSame]: equality of two runs of bytes. *)
Fixpoint MemSame (n : nat) (a b : list Z) (i : Z) : outcome bool :=
  match n with
  | O => Ret true
  | S n =>
    let* x := aget a i in
    let* y := aget b i in
    if x =? y then MemSame n a b (i + 1) else Ret false
  end.
Definition SameDomainNameCS (d1 d2 : list Z) : outcome bool :=
  let* l1 := DomainNameLength d1 in
  let* l2 := DomainNameLength d2 in
  if (l1 <=? MAX_DOMAIN_NAME) && (l1 =? l2) then MemSame (Z.to_nat l1) d1 d2 0 else Ret false.

Fixpoint CompressedDomainNameLength_loop (fuel : nat) (name : list Z) (parent : option (list Z)) (src : Z)
    : outcome Z :=
  match fuel with
  | O => Fault OutOfFuel
  | S fuel =>
    let* c := aget name src in
    if c =? 0 then Ret ((src + 1) mod 65536) else
    if MAX_DOMAIN_LABEL <? c then Ret (MAX_DOMAIN_NAME + 1) else
    let* same := match parent with
                 | Some parent => SameDomainName (ptr_add name src) parent
                 | None => Ret false
                 end in
    if same : bool then Ret ((src + 2) mod 65536) else
    if MAX_DOMAIN_NAME <=? src + 1 + c then Ret (MAX_DOMAIN_NAME + 1)
    else CompressedDomainNameLength_loop fuel name parent (src + 1 + c)
  end.
Definition CompressedDomainNameLength (name : list Z) (parent : option (list Z)) : outcome Z :=
  let* parent := match parent with
                 | Some d => let* c := aget d 0 in Ret (if c =? 0 then None else Some d)
                 | None => Ret None
                 end in
  CompressedDomainNameLength_loop (S (length name)) name parent 0.

(** ** Walking over labels *)
Fixpoint CountLabels_loop (fuel : nat) (d : list Z) (ptr count : Z) : outcome Z :=
  match fuel with
  | O => Fault OutOfFuel
  | S fuel =>
    let* c := aget d ptr in
    if c =? 0 then Ret count else CountLabels_loop fuel d (ptr + c + 1) (s32 (count + 1))
  end.
Definition CountLabels (d : list Z) : outcome Z := CountLabels_loop (S (length d)) d 0 0.

Fixpoint SkipLeadingLabels_loop (fuel : nat) (d : list Z) (skip : Z) : outcome (list Z) :=
  match fuel with
  | O => Fault OutOfFuel
  | S fuel =>
    if negb (0 <? skip) then Ret d else
    let* c := aget d 0 in
    if c =? 0 then Ret d else SkipLeadingLabels_loop fuel (ptr_add d (1 + c)) (skip - 1)
  end.
Definition SkipLeadingLabels (d : list Z) (skip : Z) : outcome (list Z) :=
  SkipLeadingLabels_loop (S (length d)) d skip.

(** The names [local.], [254.169.in-addr.arpa.] and [{8,9,A,B}.E.F.ip6.arpa.]
    that are resolved by link-local multicast; each is a C string literal,
    hence ends in a zero byte. *)
Definition arpa : list Z := [4; 97; 114; 112; 97; 0].
Definition nL : list Z := [5; 108; 111; 99; 97; 108; 0].
Definition nR : list Z := [3; 50; 53; 52; 3; 49; 54; 57; 7; 105; 110; 45; 97; 100; 100; 114] ++ arpa.
Definition nE (c : Z) : list Z := [1; c; 1; 101; 1; 102; 3; 105; 112; 54] ++ arpa.

(** [d1] is the last non-root suffix met, [d5] the one four labels earlier. *)
Fixpoint IsLocalDomain_loop (fuel : nat) (d : list Z) (d1 d2 d3 d4 d5 : option (list Z))
    : outcome (option (list Z) * option (list Z) * option (list Z)) :=
  match fuel with
  | O => Fault OutOfFuel
  | S fuel =>
    let* c := aget d 0 in
    if c =? 0 then Ret (d1, d4, d5)
    else IsLocalDomain_loop fuel (ptr_add d (1 + c)) (Some d) d1 d2 d3 d4
  end.
Definition suffix_is (d : option (list Z)) (n : list Z) : outcome bool :=
  match d with Some d => SameDomainName d n | None => Ret false end.
Definition IsLocalDomain (d : list Z) : outcome bool :=
  let* '(d1, d4, d5) := IsLocalDomain_loop (S (length d)) d None None None None None in
  let* b := suffix_is d1 nL in if b : bool then Ret true else
  let* b := suffix_is d4 nR in if b : bool then Ret true else
  let* b := suffix_is d5 (nE 56) in if b : bool then Ret true else
  let* b := suffix_is d5 (nE 57) in if b : bool then Ret true else
  let* b := suffix_is d5 (nE 97) in if b : bool then Ret true else
  let* b := suffix_is d5 (nE 98) in if b : bool then Ret true else
  Ret false.

(** ** Appending.  A buffer is returned with the C result: the offset of the
    pointer, or [None] for NULL. *)
Fixpoint literal_loop (fuel : nat) (name : list Z) (ptr lim : Z) (cstr : list Z) (s : Z)
    : outcome (list Z * Z * Z) :=
  match fuel with
  | O => Fault OutOfFuel
  | S fuel =>
    let* c := aget cstr s in
    if negb (c =? 0) && (ptr <? lim) then
      let* name := aset name ptr c in
      literal_loop fuel name (ptr + 1) lim cstr (s + 1)
    else Ret (name, ptr, s)
  end.
Definition AppendLiteralLabelString (name cstr : list Z) : outcome (list Z * option Z) :=
  let* len := DomainNameLength name in
  let ptr := len - 1 in
  let lim1 := MAX_DOMAIN_NAME - 1 in
  let lim2 := ptr + 1 + MAX_DOMAIN_LABEL in
  let lim := if lim1 <? lim2 then lim1 else lim2 in
  let lengthbyte := ptr in
  let* '(name, ptr, s) := literal_loop (S (length cstr)) name (ptr + 1) lim cstr 0 in
  let* name := aset name lengthbyte (u8 (ptr - lengthbyte - 1)) in
  let* name := aset name ptr 0 in
  let* c := aget cstr s in
  Ret (name, if negb (c =? 0) then None else Some (ptr + 1)).

Definition AppendDomainLabel (name lab : list Z) : outcome (list Z * option Z) :=
  let* len := DomainNameLength name in
  let ptr := len - 1 in
  let* l0 := aget lab 0 in
  if MAX_DOMAIN_LABEL <? l0 then Ret (name, None) else
  if MAX_DOMAIN_NAME <? ptr + 1 + l0 + 1 then Ret (name, None) else
  let* name := copy (l0 + 1) lab 0 name ptr in
  let* name := aset name (ptr + (l0 + 1)) 0 in
  Ret (name, Some (ptr + (l0 + 1) + 1)).

Fixpoint AppendDomainName_loop (fuel : nat) (name : list Z) (ptr lim : Z) (append : list Z) (src : Z)
    : outcome (list Z * option Z) :=
  match fuel with
  | O => Fault OutOfFuel
  | S fuel =>
    let* c := aget append src in
    if c =? 0 then Ret (name, Some ptr) else
    if lim <? ptr + 1 + c then Ret (name, None) else
    let* name := copy (c + 1) append src name ptr in
    let* name := aset name (ptr + (c + 1)) 0 in
    AppendDomainName_loop fuel name (ptr + (c + 1)) lim append (src + (c + 1))
  end.
Definition AppendDomainName (name append : list Z) : outcome (list Z * option Z) :=
  let* len := DomainNameLength name in
  AppendDomainName_loop (S (length append)) name (len - 1) (MAX_DOMAIN_NAME - 1) append 0.

(** ** Reading a name with the code's loops *)
Section Walk.
Context (d : list Z).

Lemma name_get_cons p l ls : holds d p (encode (l :: ls)) → aget d p = Ret (zlen l).
Proof. intros (H & _ & _)%holds_encode_cons. by apply aget_at. Qed.
Lemma name_get_nil p : holds d p (encode []) → aget d p = Ret 0.
Proof. intros H%holds_encode_nil. by apply aget_at. Qed.
Lemma name_next p l ls : holds d p (encode (l :: ls)) → holds d (p + 1 + zlen l) (encode ls).
Proof. by intros (_ & _ & H)%holds_encode_cons. Qed.
Lemma name_fuel p ls : holds d p (encode ls) → p + zlen (encode ls) ≤ zlen d.
Proof. intros H%holds_range. lia. Qed.
End Walk.

(** A label count bounded by the bytes left: the fuel of the walks. *)
Lemma labels_le_bytes ls : Z.of_nat (length ls) < zlen (encode ls).
Proof.
  induction ls as [|l ls IH]; [done|]. rewrite zlen_encode_cons. simpl length.
  pose proof (zlen_nonneg l). lia.
Qed.

Lemma label_nonzero l : label_ok l → (zlen l =? 0) = false ∧ (MAX_DOMAIN_LABEL <? zlen l) = false ∧
  (zlen l <=? MAX_DOMAIN_LABEL) = true.
Proof. unfold label_ok, MAX_DOMAIN_LABEL. intros [? _]. repeat split; lia. Qed.

(** *** Length *)
Lemma DomainNameLengthLimit_loop_spec d lim ls : ∀ fuel p, Forall label_ok ls →
  holds d p (encode ls) → (length ls < fuel)%nat → 0 ≤ lim ≤ 256 →
  DomainNameLengthLimit_loop fuel d lim p =
    Ret (if p + zlen (encode ls) <=? lim then p + zlen (encode ls) else 256).
Proof.
  induction ls as [|l ls IH]; intros [|fuel] p Hok Hd Hf Hlim; simpl in Hf; try lia; simpl.
  - destruct (Z.ltb_spec p lim); simpl; [|by replace (p + _ <=? lim) with false
      by (symmetry; apply Z.leb_gt; change (zlen (encode [])) with 1; lia)].
    rewrite (name_get_nil _ _ Hd). simpl. pose proof (holds_range _ _ _ Hd).
    change (zlen (encode [])) with 1.
    replace (p + 1 <=? lim) with true by lia. by rewrite Z.mod_small by lia.
  - apply Forall_cons in Hok as [Hl Hok]. destruct (label_nonzero l Hl) as (Hz & _ & H63).
    pose proof (zlen_encode_pos ls). pose proof (zlen_nonneg l).
    destruct (Z.ltb_spec p lim); simpl; [|by replace (p + _ <=? lim) with false
      by (symmetry; apply Z.leb_gt; rewrite zlen_encode_cons; lia)].
    rewrite (name_get_cons _ _ _ _ Hd). simpl. rewrite H63, Hz. simpl.
    rewrite IH; [|done|by apply name_next|lia|done].
    rewrite zlen_encode_cons. by replace (p + (1 + zlen l + zlen (encode ls))) with (p + 1 + zlen l + zlen (encode ls)) by lia.
Qed.

Lemma DomainNameLengthLimit_spec d lim ls : Forall label_ok ls → is_name d ls → 0 ≤ lim ≤ 256 →
  DomainNameLengthLimit d lim = Ret (if zlen (encode ls) <=? lim then zlen (encode ls) else 256).
Proof.
  intros. unfold DomainNameLengthLimit. erewrite DomainNameLengthLimit_loop_spec; [done|done|done| |done].
  pose proof (labels_le_bytes ls). pose proof (name_fuel d 0 ls ltac:(done)). unfold zlen in *. lia.
Qed.

Lemma DomainNameLength_name d ls : name_ok ls → is_name d ls →
  DomainNameLength d = Ret (zlen (encode ls)).
Proof.
  intros [Hok Hlen] Hd. unfold DomainNameLength, MAX_DOMAIN_NAME in *.
  erewrite DomainNameLengthLimit_spec; [|done|done|lia]. by rewrite (proj2 (Z.leb_le _ _)) by lia.
Qed.

(** On any memory of at least [lim] bytes the walk stops, at a legal name or
    with the value 256. *)
Lemma DomainNameLengthLimit_loop_total d lim : bytes_ok d → lim ≤ 65535 → lim ≤ zlen d → ∀ fuel p,
  0 ≤ p → Z.max 0 (lim - p) < Z.of_nat fuel → ∃ n, DomainNameLengthLimit_loop fuel d lim p = Ret n ∧
    (n = 256 ∨ ∃ ls, Forall label_ok ls ∧ holds d p (encode ls) ∧ n = p + zlen (encode ls) ∧ n ≤ lim).
Proof.
  intros Hd Hlim Hlen. induction fuel as [|fuel IH]; intros p Hp Hf; [lia|]. simpl.
  destruct (Z.ltb_spec p lim) as [Hpl|]; simpl; [|by eauto].
  destruct (at_exists d p) as [c Hc]; [lia|]. rewrite (proj2 (aget_at _ _ _) Hc). simpl.
  pose proof (bytes_ok_at _ _ _ Hd Hc) as Hc8. unfold MAX_DOMAIN_LABEL.
  destruct (Z.leb_spec c 63) as [H63|]; simpl; [|by eauto].
  destruct (Z.eqb_spec c 0) as [->|Hz].
  - rewrite Z.mod_small by lia. eexists. split; [done|]. right. exists [].
    split; [done|]. split; [by apply holds_encode_nil|]. split; [done|]. lia.
  - destruct (IH (p + 1 + c)) as (n & -> & Hn); [lia|lia|]. exists n. split; [done|].
    destruct Hn as [->|(ls & Hok & Hls & -> & Hle)]; [by left|right].
    pose proof (holds_range _ _ _ Hls) as Hr. pose proof (zlen_encode_pos ls).
    destruct (holds_exists d (p + 1) c) as (l & Hl & Hlc); [lia|lia|lia|].
    exists (l :: ls). split.
    + constructor; [|done]. split; [unfold MAX_DOMAIN_LABEL; lia|]. by apply (holds_bytes_ok d (p + 1)).
    + split; [apply holds_encode_cons; rewrite Hlc; done|]. rewrite zlen_encode_cons. lia.
Qed.

Lemma DomainNameLength_total d : bytes_ok d → 256 ≤ zlen d → ∃ n, DomainNameLength d = Ret n ∧
    (n = 256 ∨ ∃ ls, name_ok ls ∧ is_name d ls ∧ n = zlen (encode ls)).
Proof.
  intros Hd Hl. destruct (DomainNameLengthLimit_loop_total d 256 Hd ltac:(lia) Hl (S (length d)) 0)
    as (n & Hn & Hc); [lia|unfold zlen in *; lia|].
  exists n. split; [done|]. destruct Hc as [->|(ls & Hok & Hls & -> & Hle)]; [by left|].
  destruct (decide (zlen (encode ls) = 256)); [left; lia|right]. exists ls.
  split; [|done]. split; [done|]. unfold MAX_DOMAIN_NAME. lia.
Qed.

(** [DomainNameLength] decides legality: on every [domainname] buffer it
    stays inside the buffer and returns a length from 1 to 256; the length is
    at most 255 exactly when the buffer holds a legal name, and is then the
    number of bytes of that name. *)
Theorem DomainNameLength_decides d : bytes_ok d → 256 ≤ zlen d →
  safe (DomainNameLength d) (fun n => 1 ≤ n ≤ 256 ∧
    (n ≤ 255 ↔ ∃ ls, name_ok ls ∧ is_name d ls) ∧
    (∀ ls, name_ok ls → is_name d ls → n = zlen (encode ls))).
Proof.
  intros Hd Hl. destruct (DomainNameLength_total d Hd Hl) as (n & Hn & Hc). rewrite Hn. simpl.
  assert (∀ ls, name_ok ls → is_name d ls → n = zlen (encode ls)) as Hfun.
  { intros ls Hok Hls. rewrite (DomainNameLength_name d ls Hok Hls) in Hn. by injection Hn. }
  assert (∀ ls, name_ok ls → is_name d ls → n ≤ 255) as Hle.
  { intros ls Hok Hls. rewrite (Hfun ls Hok Hls). apply Hok. }
  destruct Hc as [->|(ls & Hok & Hls & ->)].
  - split; [lia|]. split; [|done]. split; [lia|]. intros (ls & Hok & Hls). by apply (Hle ls).
  - split; [pose proof (zlen_encode_pos ls); destruct Hok as [_ Ho]; unfold MAX_DOMAIN_NAME in Ho; lia|].
    split; [|done]. split; [by eauto|]. intros _. apply Hok.
Qed.
Lemma DomainNameLength_decides_witness :
  safe (DomainNameLength (encode [[97; 98]; [99]] ++ replicate 250 255)) (fun n => 1 ≤ n ≤ 256 ∧
    (n ≤ 255 ↔ ∃ ls, name_ok ls ∧ is_name (encode [[97; 98]; [99]] ++ replicate 250 255) ls) ∧
    (∀ ls, name_ok ls → is_name (encode [[97; 98]; [99]] ++ replicate 250 255) ls → n = zlen (encode ls))).
Proof. apply DomainNameLength_decides; [by apply bytes_okb_ok|done]. Defined.

(** *** Comparison *)
#[local] Arguments bool_decide : simpl never.

Definition lower_label (l : label) : label := map to_lower l.
Arguments lower_label : simpl never.
Definition lower (ls : list label) : list label := map lower_label ls.

(** Names that differ in ASCII case only. *)
Definition same_name (ls ls' : list label) : Prop := lower ls = lower ls'.
#[export] Instance same_name_equivalence : Equivalence same_name.
Proof. split; unfold same_name; [intros ?|intros ???|intros ?????]; congruence. Qed.
#[export] Instance same_name_dec : RelDecision same_name.
Proof. intros ls ls'. unfold same_name. apply _. Defined.

Lemma SameDomainLabel_loop_spec a b la : ∀ lb i, holds a i la → holds b i lb → length la = length lb →
  SameDomainLabel_loop (length la) a b i = Ret (bool_decide (lower_label la = lower_label lb)).
Proof.
  induction la as [|x la IH]; intros [|y lb] i Ha Hb Hl; try discriminate; [done|].
  apply holds_cons in Ha as [Hx Ha], Hb as [Hy Hb]. injection Hl as Hl. simpl.
  rewrite (proj2 (aget_at _ _ _) Hx), (proj2 (aget_at _ _ _) Hy). simpl.
  destruct (Z.eqb_spec (to_lower x) (to_lower y)) as [He|He]; simpl.
  - rewrite (IH lb) by done. f_equal. apply bool_decide_ext. unfold lower_label. simpl. rewrite He. split; congruence.
  - f_equal. symmetry. apply bool_decide_eq_false. unfold lower_label. simpl. congruence.
Qed.

Lemma lower_label_zlen la lb : lower_label la = lower_label lb → zlen la = zlen lb.
Proof. intros H%(f_equal length). unfold lower_label in H. rewrite !length_map in H. unfold zlen. lia. Qed.

Lemma SameDomainLabel_spec a b la lb : holds a 0 (encode_label la) → holds b 0 (encode_label lb) →
  zlen la ≤ MAX_DOMAIN_LABEL →
  SameDomainLabel a b = Ret (bool_decide (lower_label la = lower_label lb)).
Proof.
  intros [Ha Hla]%holds_cons [Hb Hlb]%holds_cons Hl. unfold SameDomainLabel.
  rewrite (proj2 (aget_at _ _ _) Ha), (proj2 (aget_at _ _ _) Hb). simpl.
  rewrite (proj2 (Z.ltb_ge _ _)) by done.
  destruct (Z.eqb_spec (zlen la) (zlen lb)) as [He|He]; simpl.
  - replace (Z.to_nat (zlen la)) with (length la) by (unfold zlen; lia).
    apply SameDomainLabel_loop_spec; [done|done|]. unfold zlen in He. lia.
  - f_equal. symmetry. apply bool_decide_eq_false. intros H. by apply He, lower_label_zlen.
Qed.

(** The first label of a name, the root included, as [SameDomainLabel] reads it. *)
Lemma encode_first d p ls : holds d p (encode ls) → holds d p (encode_label (default [] (head ls))).
Proof.
  destruct ls as [|l ls]; [done|]. rewrite encode_cons. change (zlen l :: l ++ encode ls) with (encode_label l ++ encode ls).
  by intros [H _]%holds_app.
Qed.

Lemma SameDomainName_loop_spec d1 d2 l1 : ∀ l2 fuel p q, Forall label_ok l1 → Forall label_ok l2 →
  holds d1 p (encode l1) → holds d2 q (encode l2) → p + zlen (encode l1) ≤ MAX_DOMAIN_NAME →
  (length l1 < fuel)%nat →
  SameDomainName_loop fuel d1 d2 p q = Ret (bool_decide (same_name l1 l2)).
Proof.
  induction l1 as [|a l1 IH]; intros l2 [|fuel] p q Ho1 Ho2 H1 H2 Hlen Hf; simpl in Hf; try lia.
  all: pose proof (holds_range _ _ _ H1) as Hr1; pose proof (holds_range _ _ _ H2) as Hr2.
  all: assert (∀ bs, holds d1 p bs → holds (ptr_add d1 p) 0 bs) as Hp1
    by (intros; apply holds_ptr_add; [lia|by rewrite Z.add_0_r|lia]).
  all: assert (∀ bs, holds d2 q bs → holds (ptr_add d2 q) 0 bs) as Hp2
    by (intros; apply holds_ptr_add; [lia|by rewrite Z.add_0_r|lia]).
  all: pose proof (Hp1 _ (encode_first _ _ _ H1)) as Hf1; pose proof (Hp2 _ (encode_first _ _ _ H2)) as Hf2.
  - simpl. rewrite (name_get_nil _ _ H1). simpl. destruct l2 as [|b l2].
    + by rewrite (name_get_nil _ _ H2).
    + rewrite (name_get_cons _ _ _ _ H2). simpl.
      apply Forall_cons in Ho2 as [Hb Ho2]. rewrite (proj1 (label_nonzero b Hb)).
      assert (bool_decide (same_name [] (b :: l2)) = false) as -> by by apply bool_decide_eq_false.
      destruct (MAX_DOMAIN_NAME <=? p + 1 + 0); [done|].
      rewrite (SameDomainLabel_spec _ _ _ _ Hf1 Hf2) by done. simpl.
      rewrite bool_decide_eq_false_2; [done|]. destruct Hb as [Hb _]. intros H%lower_label_zlen. change (zlen []) with 0 in H. lia.
  - apply Forall_cons in Ho1 as [Ha Ho1]. destruct (label_nonzero a Ha) as (Hz & H63 & _).
    rewrite zlen_encode_cons in Hlen. pose proof (zlen_encode_pos l1).
    simpl. rewrite (name_get_cons _ _ _ _ H1). simpl. rewrite Hz. simpl.
    rewrite (proj2 (Z.leb_gt _ _)) by lia.
    rewrite (SameDomainLabel_spec _ _ _ _ Hf1 Hf2) by apply Ha. simpl.
    destruct l2 as [|b l2]; simpl.
    + rewrite !bool_decide_eq_false_2; [done|done|]. destruct Ha as [Ha _].
      intros H'%lower_label_zlen. change (zlen []) with 0 in H'. lia.
    + rewrite (name_get_cons _ _ _ _ H2). simpl. apply Forall_cons in Ho2 as [_ Ho2].
      destruct (bool_decide_reflect (lower_label a = lower_label b)) as [He|He]; simpl.
      * rewrite (IH l2); [|done|done|by apply name_next|by apply name_next|lia|lia].
        f_equal. apply bool_decide_ext. unfold same_name. simpl. rewrite He. split; congruence.
      * f_equal. symmetry. apply bool_decide_eq_false_2. unfold same_name. simpl. congruence.
Qed.

Lemma SameDomainName_spec d1 d2 l1 l2 : name_ok l1 → Forall label_ok l2 →
  is_name d1 l1 → is_name d2 l2 → SameDomainName d1 d2 = Ret (bool_decide (same_name l1 l2)).
Proof.
  intros [Ho1 Hl] Ho2 H1 H2. unfold SameDomainName. apply SameDomainName_loop_spec; try done.
  pose proof (labels_le_bytes l1). pose proof (name_fuel d1 0 l1 H1). unfold zlen in *. lia.
Qed.

(** *** Appending *)
Lemma is_name_append name ls ls' : is_name name ls → zlen (encode (ls ++ ls')) ≤ zlen name →
  is_name (write name (zlen (encode ls) - 1) (encode ls')) (ls ++ ls').
Proof.
  intros Hn Hl. pose proof (zlen_nonneg (encode_labels ls)). pose proof (zlen_nonneg (encode ls')).
  unfold is_name in *. rewrite encode_app in *. rewrite zlen_app in Hl.
  replace (zlen (encode ls) - 1) with (zlen (encode_labels ls)) by (rewrite zlen_encode; lia).
  apply holds_app. split.
  - apply holds_write_other; [lia|lia|lia|]. unfold encode in Hn. by apply holds_app in Hn as [Hn _].
  - by apply write_holds.
Qed.

(** Copying a label with its length byte and ending the name after it. *)
Lemma put_label src s name p l :
  holds src s (encode_label l) → 0 ≤ p → p + zlen (encode [l]) ≤ zlen name →
  obind (copy (zlen l + 1) src s name p) (fun name => aset name (p + (zlen l + 1)) 0) =
    Ret (write name p (encode [l])).
Proof.
  intros Hs Hp Hl. pose proof (zlen_nonneg l). rewrite zlen_encode_cons in Hl. change (zlen (encode [])) with 1 in Hl.
  replace (zlen l + 1) with (zlen (encode_label l)) by (rewrite zlen_encode_label; lia).
  pose proof (zlen_encode_label l). rewrite copy_write by (done || lia). simpl.
  rewrite aset_write by (rewrite zlen_write; lia). rewrite write_app; [|done|change (zlen [0]) with 1; lia].
  unfold encode, encode_labels. simpl. by rewrite app_nil_r.
Qed.

Lemma name_ok_bound ls : name_ok ls → zlen (encode ls) ≤ 255.
Proof. by intros []. Qed.
Lemma name_ok_app ls ls' : Forall label_ok ls → Forall label_ok ls' → zlen (encode (ls ++ ls')) ≤ 255 →
  name_ok (ls ++ ls').
Proof. intros. split; [by apply Forall_app|done]. Qed.

Lemma AppendDomainLabel_spec name lab ls l : name_ok ls → is_name name ls → 256 ≤ zlen name →
  holds lab 0 (encode_label l) → zlen l ≤ 63 →
  AppendDomainLabel name lab = Ret
    (if zlen (encode (ls ++ [l])) <=? 255
     then (write name (zlen (encode ls) - 1) (encode [l]), Some (zlen (encode (ls ++ [l]))))
     else (name, None)).
Proof.
  intros Hok Hn Hlen Hl H63. unfold AppendDomainLabel. rewrite (DomainNameLength_name name ls Hok Hn). simpl.
  assert (aget lab 0 = Ret (zlen l)) as -> by (apply holds_cons in Hl as [Hl _]; by apply aget_at).
  simpl. unfold MAX_DOMAIN_LABEL, MAX_DOMAIN_NAME. rewrite (proj2 (Z.ltb_ge _ _)) by done.
  rewrite zlen_encode_app, zlen_encode_cons. change (zlen (encode [])) with 1.
  pose proof (zlen_encode_pos ls). pose proof (zlen_nonneg l).
  destruct (Z.ltb_spec 255 (zlen (encode ls) - 1 + 1 + zlen l + 1)) as [Hlt|Hge].
  - by rewrite (proj2 (Z.leb_gt _ _)) by lia.
  - rewrite (proj2 (Z.leb_le _ _)) by lia.
    pose proof (put_label lab 0 name (zlen (encode ls) - 1) l Hl) as Hp.
    rewrite zlen_encode_cons in Hp. change (zlen (encode [])) with 1 in Hp.
    apply obind_Ret_inv in Hp as (n1 & Hc & Ha); [|lia|lia].
    rewrite Hc. simpl. rewrite Ha. simpl. do 3 f_equal. lia.
Qed.

(** What appending leaves alone: the length of the buffer and its last bytes. *)
Definition same_tail (name name' : list Z) : Prop :=
  zlen name' = zlen name ∧ ∀ i x, 255 ≤ i → at_ name' i x ↔ at_ name i x.
#[export] Instance same_tail_preorder : PreOrder same_tail.
Proof.
  split; [by intros ?|]. intros a b c [H1 H2] [H3 H4]. split; [congruence|].
  intros i x Hi. rewrite H4, H2 by done. done.
Qed.
Lemma same_tail_write name p bs : 0 ≤ p → p + zlen bs ≤ 255 → 256 ≤ zlen name → same_tail name (write name p bs).
Proof.
  intros. split; [rewrite zlen_write; lia|]. intros i x Hi. apply write_at_other; lia.
Qed.

Lemma AppendDomainName_loop_spec append ls' : ∀ fuel name ls src,
  name_ok ls → is_name name ls → 256 ≤ zlen name → Forall label_ok ls' → holds append src (encode ls') →
  (length ls' < fuel)%nat →
  ∃ name' r, AppendDomainName_loop fuel name (zlen (encode ls) - 1) (MAX_DOMAIN_NAME - 1) append src = Ret (name', r) ∧
    same_tail name name' ∧
    if zlen (encode (ls ++ ls')) <=? 255
    then r = Some (zlen (encode (ls ++ ls')) - 1) ∧ is_name name' (ls ++ ls')
    else r = None ∧ ∃ done rest, ls' = done ++ rest ∧ name_ok (ls ++ done) ∧ is_name name' (ls ++ done).
Proof.
  induction ls' as [|l ls' IH]; intros [|fuel] name ls src Hok Hn Hlen Hok' Ha Hf; simpl in Hf; try lia; simpl.
  - rewrite (name_get_nil _ _ Ha). simpl. eexists _, _. split; [done|]. split; [done|].
    rewrite app_nil_r, (proj2 (Z.leb_le _ _)) by apply Hok. done.
  - rewrite (name_get_cons _ _ _ _ Ha). simpl. apply Forall_cons in Hok' as [Hl Hok'].
    rewrite (proj1 (label_nonzero l Hl)). pose proof (zlen_encode_pos ls). pose proof (zlen_encode_pos ls').
    unfold MAX_DOMAIN_NAME. rewrite zlen_encode_app, zlen_encode_cons. pose proof (zlen_nonneg l).
    destruct (Z.ltb_spec (255 - 1) (zlen (encode ls) - 1 + 1 + zlen l)) as [Hlt|Hge].
    + eexists _, _. split; [done|]. split; [done|]. rewrite (proj2 (Z.leb_gt _ _)) by lia.
      split; [done|]. exists [], (l :: ls'). by rewrite app_nil_r.
    + assert (zlen (encode (ls ++ [l])) = zlen (encode ls) + 1 + zlen l) as Hl1.
      { rewrite zlen_encode_app, zlen_encode_cons. change (zlen (encode [])) with 1. lia. }
      pose proof (put_label append src name (zlen (encode ls) - 1) l (encode_first _ _ _ Ha)) as Hp.
      rewrite zlen_encode_cons in Hp. change (zlen (encode [])) with 1 in Hp.
      apply obind_Ret_inv in Hp as (n1 & Hc & Hs); [|lia|lia].
      rewrite Hc. simpl. rewrite Hs. simpl.
      assert (name_ok (ls ++ [l])) as Hok1. { apply name_ok_app; [apply Hok|by constructor|lia]. }
      assert (same_tail name (write name (zlen (encode ls) - 1) (encode [l]))) as Ht.
      { apply same_tail_write; rewrite ?zlen_encode_cons; change (zlen (encode [])) with 1; lia. }
      destruct (IH fuel (write name (zlen (encode ls) - 1) (encode [l])) (ls ++ [l]) (src + (zlen l + 1)))
        as (name' & r & Hr & Ht' & Hc'); [done|apply is_name_append; [done|lia]|destruct Ht; lia|done| |lia|].
      { replace (src + (zlen l + 1)) with (src + 1 + zlen l) by lia. by apply name_next. }
      replace (zlen (encode (ls ++ [l])) - 1) with (zlen (encode ls) - 1 + (zlen l + 1)) in Hr by lia.
      exists name', r. split; [done|]. split; [by etrans|].
      rewrite <- app_assoc in Hc'. simpl app in Hc'. rewrite zlen_encode_app, zlen_encode_cons in Hc'. destruct (_ <=? 255); [done|].
      destruct Hc' as (-> & done' & rest & -> & Ho & Hi). split; [done|].
      exists (l :: done'), rest. by rewrite <- app_assoc in *.
Qed.

Lemma AppendDomainName_spec name append ls ls' :
  name_ok ls → is_name name ls → 256 ≤ zlen name → Forall label_ok ls' → is_name append ls' →
  ∃ name' r, AppendDomainName name append = Ret (name', r) ∧ same_tail name name' ∧
    if zlen (encode (ls ++ ls')) <=? 255
    then r = Some (zlen (encode (ls ++ ls')) - 1) ∧ is_name name' (ls ++ ls')
    else r = None ∧ ∃ done rest, ls' = done ++ rest ∧ name_ok (ls ++ done) ∧ is_name name' (ls ++ done).
Proof.
  intros Hok Hn Hlen Hok' Ha. unfold AppendDomainName. rewrite (DomainNameLength_name name ls Hok Hn). cbn [obind].
  apply AppendDomainName_loop_spec; try done.
  pose proof (labels_le_bytes ls'). pose proof (name_fuel append 0 ls' Ha). unfold zlen in *. lia.
Qed.

(** A C string: its characters, none of them zero, and a zero byte. *)
Definition is_cstr (m : list Z) (p : Z) (cs : list Z) : Prop :=
  holds m p (cs ++ [0]) ∧ Forall (fun c => c ≠ 0) cs.

Lemma is_cstr_cons m p c cs : is_cstr m p (c :: cs) ↔ at_ m p c ∧ c ≠ 0 ∧ is_cstr m (p + 1) cs.
Proof. unfold is_cstr. simpl. rewrite holds_cons, Forall_cons. tauto. Qed.
Lemma is_cstr_nil m p : is_cstr m p [] ↔ at_ m p 0.
Proof. unfold is_cstr. simpl. rewrite (holds_encode_nil m p). split; [by intros []|done]. Qed.
Lemma is_cstr_get m p cs : is_cstr m p cs → at_ m p (default 0 (head cs)).
Proof. destruct cs; [by intros ?%is_cstr_nil|by intros (? & _)%is_cstr_cons]. Qed.
Lemma is_cstr_length m p cs : is_cstr m p cs → 0 ≤ p ∧ p + zlen cs < zlen m.
Proof. intros [H%holds_range _]. rewrite zlen_app in H. change (zlen [0]) with 1 in H. lia. Qed.

Lemma literal_loop_spec cstr lim cs : ∀ fuel name ptr s, is_cstr cstr s cs → (length cs < fuel)%nat →
  0 ≤ ptr ≤ zlen name → lim ≤ zlen name → ∃ pre post, cs = pre ++ post ∧
    literal_loop fuel name ptr lim cstr s = Ret (write name ptr pre, ptr + zlen pre, s + zlen pre) ∧
    (post = [] ∨ lim ≤ ptr + zlen pre) ∧ (pre = [] ∨ ptr + zlen pre ≤ lim).
Proof.
  induction cs as [|c cs IH]; intros [|fuel] name ptr s Hc Hf Hp Hl; simpl in Hf; try lia; simpl.
  - apply is_cstr_nil in Hc. rewrite (proj2 (aget_at _ _ _) Hc). simpl. exists [], [].
    rewrite write_nil by done. change (zlen []) with 0. rewrite !Z.add_0_r. repeat split; auto.
  - apply is_cstr_cons in Hc as (Hc & Hz & Hcs). rewrite (proj2 (aget_at _ _ _) Hc). simpl.
    rewrite (proj2 (Z.eqb_neq _ _) Hz). simpl. destruct (Z.ltb_spec ptr lim) as [Hlt|Hge].
    + rewrite aset_write by lia. simpl.
      destruct (IH fuel (write name ptr [c]) (ptr + 1) (s + 1)) as (pre & post & -> & -> & Hpost & Hpre);
        [done|lia|rewrite zlen_write; change (zlen [c]) with 1; lia|rewrite zlen_write; change (zlen [c]) with 1; lia|].
      pose proof (zlen_nonneg pre). exists (c :: pre), post. rewrite zlen_cons. split; [done|].
      split; [|split; [destruct Hpost; [by left|right; lia]|right; destruct Hpre as [->|]; [change (zlen []) with 0|]; lia]].
      do 2 f_equal; [|lia]. f_equal; [|lia]. change (c :: pre) with ([c] ++ pre).
      change (ptr + 1) with (ptr + zlen [c]). destruct Hpre as [->|Hpre].
      * rewrite app_nil_r, write_nil; [done|]. rewrite zlen_write; change (zlen [c]) with 1; lia.
      * rewrite write_app; [done|lia|]. change (zlen [c]) with 1. lia.
    + exists [], (c :: cs). rewrite write_nil by done. change (zlen []) with 0. rewrite !Z.add_0_r. repeat split; auto.
Qed.

(** An empty label written over the root label leaves the name as it was. *)
Lemma is_name_empty_label name ls : is_name name ls → zlen (encode ls) < zlen name →
  is_name (write name (zlen (encode ls) - 1) (encode [[]])) ls.
Proof.
  unfold is_name. intros Hn Hl. pose proof (zlen_encode ls) as Hze. pose proof (zlen_nonneg (encode_labels ls)).
  change (encode [[]]) with ([0] ++ [0]). change (encode ls) with (encode_labels ls ++ [0]) in Hn |- * at 2. apply holds_app in Hn as [Hn1 Hn2]. apply holds_app.
  split; [apply holds_write_other; rewrite ?zlen_app; change (zlen [0]) with 1; try lia; done|].
  replace (0 + zlen (encode_labels ls)) with (zlen (encode ls) - 1) by lia.
  eapply holds_app, write_holds; [lia|change (zlen ([0] ++ [0])) with 2; lia].
Qed.

Lemma AppendLiteralLabelString_spec name cstr ls cs :
  name_ok ls → is_name name ls → 256 ≤ zlen name → is_cstr cstr 0 cs → bytes_ok cs → cs ≠ [] →
  ∃ pre post, cs = pre ++ post ∧
    AppendLiteralLabelString name cstr = Ret (write name (zlen (encode ls) - 1) (encode [pre]),
      if bool_decide (post = []) then Some (zlen (encode (ls ++ [cs]))) else None) ∧
    name_ok (ls ++ if bool_decide (pre = []) then [] else [pre]) ∧
    is_name (write name (zlen (encode ls) - 1) (encode [pre])) (ls ++ if bool_decide (pre = []) then [] else [pre]) ∧
    (post = [] ↔ zlen cs ≤ 63 ∧ zlen (encode (ls ++ [cs])) ≤ 255).
Proof.
  intros Hok Hn Hlen Hc Hb Hne. pose proof (zlen_encode_pos ls) as HP. pose proof (name_ok_bound ls Hok) as HP'.
  pose proof (zlen_encode_snoc ls) as Happ.
  unfold AppendLiteralLabelString. rewrite (DomainNameLength_name name ls Hok Hn). cbn [obind].
  unfold MAX_DOMAIN_NAME, MAX_DOMAIN_LABEL.
  set (P := zlen (encode ls)) in *. replace (P - 1 + 1) with P by lia.
  set (lim := if 255 - 1 <? P + 63 then 255 - 1 else P + 63).
  assert (lim = Z.min 254 (P + 63)) as Hlim by (unfold lim; destruct (Z.ltb_spec (255 - 1) (P + 63)); lia).
  destruct (literal_loop_spec cstr lim cs (S (length cstr)) name P 0)
    as (pre & post & Hcs & -> & Hpost & Hpre);
    [done|apply is_cstr_length in Hc; unfold zlen in *; lia|lia|lia|].
  exists pre, post. split; [done|]. cbn [obind]. pose proof (zlen_nonneg pre) as Hp0. pose proof (zlen_nonneg post).
  assert (P + zlen pre ≤ 255 ∧ zlen pre ≤ 63) as [Hfit H63]
    by (destruct Hpre as [->|]; [change (zlen []) with 0|]; lia).
  pose proof (zlen_encode_one pre) as He.
  replace (P + zlen pre - (P - 1) - 1) with (zlen pre) by lia. rewrite u8_id by lia.
  rewrite aset_write by (rewrite zlen_write; lia). cbn [obind].
  replace (write (write name P pre) (P - 1) [zlen pre]) with (write name (P - 1) (encode_label pre)); cycle 1.
  { unfold encode_label. change (zlen pre :: pre) with ([zlen pre] ++ pre). rewrite <- write_before.
    - by replace (P - 1 + zlen [zlen pre]) with P by (change (zlen [zlen pre]) with 1; lia).
    - lia.
    - change (zlen [zlen pre]) with 1. lia. }
  pose proof (zlen_encode_label pre) as Hel.
  rewrite aset_write by (rewrite zlen_write; lia). cbn [obind].
  replace (P + zlen pre) with (P - 1 + zlen (encode_label pre)) by lia.
  rewrite write_app by (change (zlen [0]) with 1; lia).
  replace (encode_label pre ++ [0]) with (encode [pre])
    by (unfold encode, encode_labels; simpl; by rewrite app_nil_r).
  assert (is_cstr cstr (0 + zlen pre) post) as Hcp.
  { destruct Hc as [Hc Hz]. rewrite Hcs, <- app_assoc in Hc. apply holds_app in Hc as [_ Hc].
    rewrite Hcs in Hz. apply Forall_app in Hz as [_ Hz]. done. }
  rewrite (proj2 (aget_at _ _ _) (is_cstr_get _ _ _ Hcp)). cbn [obind].
  split_and!.
  - do 2 f_equal. destruct post as [|c post]; simpl.
    + rewrite app_nil_r in Hcs. subst cs. rewrite Happ. f_equal. lia.
    + apply is_cstr_cons in Hcp as (_ & Hz & _). by rewrite (proj2 (Z.eqb_neq _ _) Hz).
  - case_bool_decide as Hpe; [by rewrite app_nil_r|]. apply name_ok_app; [apply Hok| |rewrite Happ; destruct Hpre as [|]; [done|]; fold P; lia].
    constructor; [|done]. split.
    + unfold MAX_DOMAIN_LABEL. split; [|lia]. destruct pre; [done|]. rewrite zlen_cons. pose proof (zlen_nonneg pre). lia.
    + rewrite Hcs in Hb. by apply Forall_app in Hb as [Hb _].
  - case_bool_decide as Hpe.
    + subst pre. rewrite app_nil_r. apply is_name_empty_label; [done|]. fold P. lia.
    + apply is_name_append; [done|]. rewrite Happ. fold P. lia.
  - rewrite Happ. fold P. split.
    + intros ->. rewrite app_nil_r in Hcs. subst cs. destruct Hpre as [|]; [done|]. lia.
    + intros [Hs1 Hs2]. destruct Hpost as [|Hge]; [done|]. rewrite Hcs, zlen_app in Hs1, Hs2.
      assert (zlen post = 0) by lia. destruct post; [done|]. rewrite zlen_cons in *. pose proof (zlen_nonneg post). lia.
Qed.

(** *** Walks: counting, skipping and suffixes *)
Lemma CountLabels_loop_spec d ls : ∀ fuel p n, Forall label_ok ls → holds d p (encode ls) →
  (length ls < fuel)%nat → 0 ≤ n → n + Z.of_nat (length ls) < 2147483648 →
  CountLabels_loop fuel d p n = Ret (n + Z.of_nat (length ls)).
Proof.
  induction ls as [|l ls IH]; intros [|fuel] p n Hok Hd Hf Hn Hlt; simpl in Hf; try lia.
  - simpl. rewrite (name_get_nil _ _ Hd). simpl. by rewrite Z.add_0_r.
  - simpl length in Hlt. cbn [CountLabels_loop]. rewrite (name_get_cons _ _ _ _ Hd). cbn [obind].
    apply Forall_cons in Hok as [Hl Hok]. rewrite (proj1 (label_nonzero l Hl)), s32_id by lia.
    rewrite IH; [f_equal; simpl length; lia|done| |lia|lia|lia].
    replace (p + zlen l + 1) with (p + 1 + zlen l) by lia. by apply name_next.
Qed.

Lemma is_name_fuel d ls : is_name d ls → (length ls < S (length d))%nat.
Proof.
  intros Hd%name_fuel. pose proof (labels_le_bytes ls). unfold zlen in *. lia.
Qed.

Lemma CountLabels_spec d ls : name_ok ls → is_name d ls → CountLabels d = Ret (Z.of_nat (length ls)).
Proof.
  intros [Hok Hlen] Hd. pose proof (labels_le_bytes ls). unfold CountLabels, MAX_DOMAIN_NAME in *.
  rewrite (CountLabels_loop_spec d ls); [done|done|done|by apply is_name_fuel|lia|lia].
Qed.

Lemma is_name_next d l ls : is_name d (l :: ls) → is_name (ptr_add d (1 + zlen l)) ls.
Proof. intros H%name_next. by apply is_name_ptr_add. Qed.

Lemma SkipLeadingLabels_loop_spec ls : ∀ fuel d skip, Forall label_ok ls → is_name d ls →
  (length ls < fuel)%nat → ∃ d', SkipLeadingLabels_loop fuel d skip = Ret d' ∧ is_name d' (drop (Z.to_nat skip) ls).
Proof.
  induction ls as [|l ls IH]; intros [|fuel] d skip Hok Hd Hf; simpl in Hf; try lia; simpl.
  - rewrite (name_get_nil _ _ Hd). simpl. destruct (0 <? skip); simpl; exists d; by rewrite drop_nil.
  - destruct (Z.ltb_spec 0 skip); simpl; [|exists d; by replace (Z.to_nat skip) with 0%nat by lia].
    rewrite (name_get_cons _ _ _ _ Hd). cbn [obind]. apply Forall_cons in Hok as [Hl Hok].
    rewrite (proj1 (label_nonzero l Hl)).
    replace (Z.to_nat skip) with (S (Z.to_nat (skip - 1))) by lia. apply IH; [done| |lia]. by apply is_name_next.
Qed.

Lemma SkipLeadingLabels_spec d skip ls : Forall label_ok ls → is_name d ls →
  ∃ d', SkipLeadingLabels d skip = Ret d' ∧ is_name d' (drop (Z.to_nat skip) ls).
Proof. intros. apply SkipLeadingLabels_loop_spec; [done|done|by apply is_name_fuel]. Qed.

(** Names whose exact bytes agree. *)
Lemma MemSame_spec a b xs : ∀ ys i, holds a i xs → holds b i ys → length xs = length ys →
  MemSame (length xs) a b i = Ret (bool_decide (xs = ys)).
Proof.
  induction xs as [|x xs IH]; intros [|y ys] i Ha Hb Hl; try discriminate; [done|].
  apply holds_cons in Ha as [Hx Ha], Hb as [Hy Hb]. injection Hl as Hl. simpl.
  rewrite (proj2 (aget_at _ _ _) Hx), (proj2 (aget_at _ _ _) Hy). simpl.
  destruct (Z.eqb_spec x y) as [->|He].
  - rewrite (IH ys) by done. f_equal. apply bool_decide_ext. split; congruence.
  - f_equal. symmetry. apply bool_decide_eq_false_2. congruence.
Qed.

Lemma SameDomainNameCS_spec d1 d2 l1 l2 : name_ok l1 → name_ok l2 → is_name d1 l1 → is_name d2 l2 →
  SameDomainNameCS d1 d2 = Ret (bool_decide (l1 = l2)).
Proof.
  intros Ho1 Ho2 H1 H2. unfold SameDomainNameCS.
  rewrite (DomainNameLength_name d1 l1), (DomainNameLength_name d2 l2) by done. simpl.
  rewrite (proj2 (Z.leb_le _ _)) by apply Ho1. simpl.
  destruct (Z.eqb_spec (zlen (encode l1)) (zlen (encode l2))) as [He|He].
  - replace (Z.to_nat (zlen (encode l1))) with (length (encode l1)) by (unfold zlen; lia).
    rewrite (MemSame_spec d1 d2 (encode l1) (encode l2)); [|done|done|unfold zlen in He; lia].
    f_equal. apply bool_decide_ext. split; [|by intros ->]. intros He'.
    apply (encode_inj l1 l2 (encode l1) 0); [apply Ho1|apply Ho2|apply holds_all|rewrite <- He'; apply holds_all].
  - f_equal. symmetry. apply bool_decide_eq_false_2. intros ->. done.
Qed.

(** The length of a name whose longest suffix equal to [pl] is replaced by a
    two-byte pointer. *)
Fixpoint compressed_length (ls pl : list label) : Z :=
  match ls with
  | [] => 1
  | l :: ls' => if bool_decide (same_name ls pl) then 2 else 1 + zlen l + compressed_length ls' pl
  end.

Lemma compressed_length_nil ls : compressed_length ls [] = zlen (encode ls).
Proof. induction ls as [|l ls IH]; [done|]. rewrite zlen_encode_cons. simpl. by rewrite IH. Qed.

Lemma compressed_length_bound ls pl : 1 ≤ compressed_length ls pl ≤ zlen (encode ls) + 1.
Proof.
  induction ls as [|l ls IH]; [done|]. rewrite zlen_encode_cons. pose proof (zlen_nonneg l).
  pose proof (zlen_encode_pos ls). simpl. case_match; lia.
Qed.

Lemma CompressedDomainNameLength_loop_spec name ls pd pl : ∀ fuel p, Forall label_ok ls → Forall label_ok pl →
  holds name p (encode ls) → p + zlen (encode ls) ≤ MAX_DOMAIN_NAME → (length ls < fuel)%nat →
  match pd with Some d => is_name d pl ∧ pl ≠ [] | None => pl = [] end →
  CompressedDomainNameLength_loop fuel name pd p = Ret (p + compressed_length ls pl).
Proof.
  induction ls as [|l ls IH]; intros [|fuel] p Hok Hpl Hn Hlen Hf Hpd; simpl in Hf; try lia; simpl.
  all: pose proof (holds_range _ _ _ Hn) as Hr; unfold MAX_DOMAIN_NAME in *.
  - rewrite (name_get_nil _ _ Hn). simpl. rewrite Z.mod_small; [done|]. change (zlen (encode [])) with 1 in Hlen. lia.
  - rewrite (name_get_cons _ _ _ _ Hn). cbn [obind]. pose proof Hok as [Hl Hok']%Forall_cons.
    destruct (label_nonzero l Hl) as (-> & -> & _).
    assert (match pd with Some parent => SameDomainName (ptr_add name p) parent | None => Ret false end
      = Ret (bool_decide (same_name (l :: ls) pl))) as ->.
    { destruct pd as [d|]; [|by rewrite Hpd]. destruct Hpd as [Hd _].
      apply SameDomainName_spec; [|done|by apply is_name_ptr_add|done]. split; [done|]. unfold MAX_DOMAIN_NAME. lia. }
    rewrite zlen_encode_cons in *. pose proof (zlen_encode_pos ls). pose proof (zlen_nonneg l). cbn [obind].
    case_bool_decide; [by rewrite Z.mod_small by lia|]. rewrite (proj2 (Z.leb_gt _ _)) by lia.
    rewrite IH; [f_equal; lia|done|done|by apply name_next|lia|lia|done].
Qed.

Lemma CompressedDomainNameLength_spec name ls parent pl : name_ok ls → is_name name ls → Forall label_ok pl →
  match parent with Some d => is_name d pl | None => pl = [] end →
  CompressedDomainNameLength name parent = Ret (compressed_length ls pl).
Proof.
  intros [Hok Hlen] Hn Hpl Hp. unfold CompressedDomainNameLength.
  set (parent' := match pl with [] => None | _ => parent end).
  assert (match parent with
          | Some d => let* c := aget d 0 in Ret (if c =? 0 then None else Some d)
          | None => Ret None
          end = Ret parent') as ->.
  { destruct parent as [d|]; [|by subst pl]. destruct pl as [|l pl].
    - by rewrite (name_get_nil _ _ Hp).
    - rewrite (name_get_cons _ _ _ _ Hp). simpl. apply Forall_cons in Hpl as [Hl _].
      by rewrite (proj1 (label_nonzero l Hl)). }
  cbn [obind]. rewrite (CompressedDomainNameLength_loop_spec name ls parent' pl); try done.
  - by apply is_name_fuel.
  - destruct pl; [done|]. by destruct parent.
Qed.

(** *** Names resolved by link-local multicast *)
Definition arpa_labels : list label := [[97; 114; 112; 97]].
Definition local_domains : list (list label) :=
  [ [[108; 111; 99; 97; 108]];
    [[50; 53; 52]; [49; 54; 57]; [105; 110; 45; 97; 100; 100; 114]] ++ arpa_labels ] ++
  map (fun c => [[c]; [101]; [102]; [105; 112; 54]] ++ arpa_labels) [56; 57; 97; 98].

(** The suffix of [i] labels of a name of [n] labels, when it has that many. *)
Definition suffix_ptr (full : list label) (n i : nat) (o : option (list Z)) : Prop :=
  match o with
  | Some d => (i ≤ n)%nat ∧ is_name d (drop (n - i) full)
  | None => (n < i)%nat
  end.

Lemma suffix_ptr_shift full n i o : suffix_ptr full n i o → suffix_ptr full (S n) (S i) o.
Proof. destruct o; simpl; [intros []; split; [lia|done]|lia]. Qed.

Lemma IsLocalDomain_loop_spec full : Forall label_ok full → ∀ ls fuel d n d1 d2 d3 d4 d5,
  ls = drop n full → (n ≤ length full)%nat → is_name d ls → (length ls < fuel)%nat →
  suffix_ptr full n 1 d1 → suffix_ptr full n 2 d2 → suffix_ptr full n 3 d3 →
  suffix_ptr full n 4 d4 → suffix_ptr full n 5 d5 →
  ∃ e1 e4 e5, IsLocalDomain_loop fuel d d1 d2 d3 d4 d5 = Ret (e1, e4, e5) ∧
    suffix_ptr full (length full) 1 e1 ∧ suffix_ptr full (length full) 4 e4 ∧
    suffix_ptr full (length full) 5 e5.
Proof.
  intros Hfull. induction ls as [|l ls IH]; intros [|fuel] d n d1 d2 d3 d4 d5 Hdrop Hn Hd Hf H1 H2 H3 H4 H5;
    simpl in Hf; try lia; simpl.
  - rewrite (name_get_nil _ _ Hd). simpl. assert (n = length full) as ->; [|by eauto 8].
    apply (f_equal length) in Hdrop. rewrite length_drop in Hdrop. simpl in Hdrop. lia.
  - rewrite (name_get_cons _ _ _ _ Hd). cbn [obind].
    assert (Forall label_ok (l :: ls)) as [Hl Hok]%Forall_cons by (rewrite Hdrop; by apply Forall_drop).
    rewrite (proj1 (label_nonzero l Hl)).
    apply (IH fuel _ (S n)); try (by apply is_name_next); try lia.
    4-7: by apply suffix_ptr_shift.
    + replace (S n) with (n + 1)%nat by lia. by rewrite <- drop_drop, <- Hdrop.
    + apply (f_equal length) in Hdrop. rewrite length_drop in Hdrop. simpl in Hdrop. lia.
    + simpl. rewrite Nat.sub_0_r, <- Hdrop. split; [lia|done].
Qed.

Lemma suffix_is_spec full nl o n : name_ok full → is_name n nl → Forall label_ok nl →
  suffix_ptr full (length full) (length nl) o →
  suffix_is o n = Ret (bool_decide (same_name (drop (length full - length nl) full) nl)).
Proof.
  intros [Hok Hlen] Hn Hnl Ho. destruct o as [d|]; simpl in *.
  - destruct Ho as [Hle Hd]. apply SameDomainName_spec; [|done|done|done].
    split; [by apply Forall_drop|]. rewrite <- (take_drop (length full - length nl) full) in Hlen.
    rewrite zlen_encode_app in Hlen. pose proof (zlen_encode_pos (take (length full - length nl) full)). lia.
  - f_equal. symmetry. apply bool_decide_eq_false_2. unfold same_name, lower. intros H%(f_equal length).
    rewrite !length_map, length_drop in H. lia.
Qed.

(** [is_local ls]: the last labels of [ls] are one of [local_domains]. *)
Definition is_local (ls : list label) : bool :=
  existsb (fun n => bool_decide (same_name (drop (length ls - length n) ls) n)) local_domains.

Lemma IsLocalDomain_spec d ls : name_ok ls → is_name d ls → IsLocalDomain d = Ret (is_local ls).
Proof.
  intros Hok Hd. unfold IsLocalDomain.
  destruct (IsLocalDomain_loop_spec ls (proj1 Hok) ls (S (length d)) d 0 None None None None None)
    as (e1 & e4 & e5 & -> & H1 & H4 & H5); [by rewrite drop_0|lia|done|by apply is_name_fuel|simpl; lia..|].
  assert (∀ nl o n, n = encode nl → forallb label_okb nl = true → suffix_ptr ls (length ls) (length nl) o →
    suffix_is o n = Ret (bool_decide (same_name (drop (length ls - length nl) ls) nl))) as Hs.
  { intros nl o n -> Hnl Ho. apply suffix_is_spec; [done|apply is_name_encode|by apply labels_okb_ok|done]. }
  unfold is_local, local_domains. cbn [obind map app existsb].
  rewrite (Hs [[108; 111; 99; 97; 108]] e1 nL) by done. cbn [obind].
  case_bool_decide; [done|]. cbn [orb].
  rewrite (Hs ([[50; 53; 52]; [49; 54; 57]; [105; 110; 45; 97; 100; 100; 114]] ++ arpa_labels) e4 nR) by done.
  cbn [obind app]. case_bool_decide; [done|]. cbn [orb].
  assert (∀ c, is_u8 c → suffix_is e5 (nE c) = Ret (bool_decide (same_name
    (drop (length ls - length ([[c]; [101]; [102]; [105; 112; 54]] ++ arpa_labels)) ls)
    ([[c]; [101]; [102]; [105; 112; 54]] ++ arpa_labels)))) as HE.
  { intros c Hc. apply Hs; [done| |done]. simpl. unfold label_okb, byteb. simpl. unfold byteb. lia. }
  do 4 (rewrite HE by lia; cbn [obind app]; case_bool_decide; [done|]; cbn [orb]). done.
Qed.

(** ** Hashing *)
Fixpoint DomainNameHashValue_loop (fuel : nat) (name : list Z) (c sum : Z) : outcome Z :=
  match fuel with
  | O => Fault OutOfFuel
  | S fuel =>
    let* c0 := aget name c in
    if c0 =? 0 then Ret sum else
    let* c1 := aget name (c + 1) in
    if c1 =? 0 then Ret (u32 (sum + Z.shiftl (to_lower c0) 8)) else
    let sum := u32 (sum + Z.lor (Z.shiftl (to_lower c0) 8) (to_lower c1)) in
    let sum := Z.lor (u32 (Z.shiftl sum 3)) (Z.shiftr sum 29) in
    DomainNameHashValue_loop fuel name (c + 2) sum
  end.
Definition DomainNameHashValue (name : list Z) : outcome Z :=
  DomainNameHashValue_loop (S (length name)) name 0 0.

Lemma to_lower_zero c : to_lower c = 0 ↔ c = 0.
Proof. unfold to_lower, mDNSIsUpperCase. tests; lia. Qed.

Lemma lower_zero_test x y : to_lower x = to_lower y → (x =? 0) = (y =? 0).
Proof.
  intros H. pose proof (to_lower_zero x). pose proof (to_lower_zero y).
  destruct (Z.eqb_spec x 0), (Z.eqb_spec y 0); try done; naive_solver lia.
Qed.

(** The hash of a run of bytes that contains a zero depends on the bytes up
    to case only. *)
Lemma DomainNameHashValue_loop_lower d1 d2 n : ∀ xs ys fuel1 fuel2 p sum, (length xs ≤ n)%nat →
  holds d1 p xs → holds d2 p ys → map to_lower xs = map to_lower ys → 0 ∈ xs →
  (length xs ≤ fuel1)%nat → (length xs ≤ fuel2)%nat →
  ∃ h, DomainNameHashValue_loop fuel1 d1 p sum = Ret h ∧ DomainNameHashValue_loop fuel2 d2 p sum = Ret h.
Proof.
  induction n as [|n IH]; intros xs ys fuel1 fuel2 p sum Hn H1 H2 Hm H0 Hf1 Hf2.
  { destruct xs; [by apply elem_of_nil in H0|simpl in Hn; lia]. }
  destruct xs as [|x xs]; [by apply elem_of_nil in H0|]. destruct ys as [|y ys]; [done|].
  destruct fuel1 as [|fuel1]; [simpl in Hf1; lia|]. destruct fuel2 as [|fuel2]; [simpl in Hf2; lia|].
  simpl in Hm. injection Hm as Hxy Hm.
  apply holds_cons in H1 as [Hx H1], H2 as [Hy H2]. simpl.
  rewrite (proj2 (aget_at _ _ _) Hx), (proj2 (aget_at _ _ _) Hy). cbn [obind].
  rewrite <- (lower_zero_test x y Hxy). destruct (Z.eqb_spec x 0) as [|Hz]; [by eauto|].
  apply elem_of_cons in H0 as [|H0]; [done|]. 
  destruct xs as [|x' xs]; [by apply elem_of_nil in H0|]. destruct ys as [|y' ys]; [done|].
  simpl in Hm. injection Hm as Hxy' Hm. apply holds_cons in H1 as [Hx' H1], H2 as [Hy' H2].
  rewrite (proj2 (aget_at _ _ _) Hx'), (proj2 (aget_at _ _ _) Hy'). cbn [obind].
  rewrite <- (lower_zero_test x' y' Hxy'), <- Hxy, <- Hxy'. destruct (Z.eqb_spec x' 0) as [|Hz']; [by eauto|].
  apply elem_of_cons in H0 as [|H0]; [done|].
  replace (p + 1 + 1) with (p + 2) in * by lia. simpl in Hn, Hf1, Hf2.
  apply (IH xs ys); (done || lia).
Qed.

Lemma lower_encode l1 l2 : Forall label_ok l1 → Forall label_ok l2 → same_name l1 l2 →
  map to_lower (encode l1) = map to_lower (encode l2).
Proof.
  unfold same_name. revert l2. induction l1 as [|a l1 IH]; intros [|b l2] H1 H2 He; try done.
  simpl in He. injection He as Hab He. apply Forall_cons in H1 as [_ H1], H2 as [_ H2].
  rewrite !encode_cons. simpl. rewrite !map_app, (IH l2 H1 H2 He), (lower_label_zlen _ _ Hab).
  unfold lower_label in Hab. by rewrite Hab.
Qed.

Lemma DomainNameHashValue_spec d1 d2 l1 l2 : Forall label_ok l1 → Forall label_ok l2 →
  is_name d1 l1 → is_name d2 l2 → same_name l1 l2 →
  ∃ h, DomainNameHashValue d1 = Ret h ∧ DomainNameHashValue d2 = Ret h.
Proof.
  intros Ho1 Ho2 H1 H2 Hs. pose proof (lower_encode l1 l2 Ho1 Ho2 Hs) as Hm.
  pose proof (holds_range _ _ _ H1). pose proof (holds_range _ _ _ H2).
  pose proof (f_equal length Hm) as Hl. rewrite !length_map in Hl. unfold zlen in *.
  apply (DomainNameHashValue_loop_lower d1 d2 (length (encode l1)) (encode l1) (encode l2));
    [done|done|done|done| |lia|lia].
  unfold encode. apply elem_of_app. right. by apply list_elem_of_singleton.
Qed.

(** ** Properties *)

(** C34. [SameDomainName] decides equality of names: for every two legal names
    it returns, and it answers true exactly when the names have the same
    number of labels and the labels agree up to the case of ASCII letters,
    which is an equivalence relation. *)
Theorem SameDomainName_exact d1 d2 l1 l2 : name_ok l1 → name_ok l2 → is_name d1 l1 → is_name d2 l2 →
  SameDomainName d1 d2 = Ret (bool_decide (lower l1 = lower l2)) ∧ SameDomainName d2 d1 = SameDomainName d1 d2 ∧
  SameDomainName d1 d1 = Ret true.
Proof.
  intros Ho1 Ho2 H1 H2. rewrite (SameDomainName_spec d1 d2 l1 l2), (SameDomainName_spec d2 d1 l2 l1), (SameDomainName_spec d1 d1 l1 l1)
    by (done || apply Ho1 || apply Ho2).
  split; [done|]. split; f_equal; [apply bool_decide_ext; by split; intros ->|by apply bool_decide_eq_true].
Qed.
Lemma SameDomainName_exact_witness : SameDomainName (encode [[97; 66]; [99]]) (encode [[65; 98]; [67]]) = Ret true.
Proof.
  destruct (SameDomainName_exact (encode [[97; 66]; [99]]) (encode [[65; 98]; [67]]) [[97; 66]; [99]] [[65; 98]; [67]]) as [H _];
    [by apply name_okb_ok|by apply name_okb_ok|apply is_name_encode|apply is_name_encode|]. exact H.
Defined.

(** [AppendDomainName] concatenates two legal names when the result has at
    most 255 bytes and returns its length; otherwise it returns NULL and leaves
    a legal name, the first name with some of the labels of the second.  It
    never writes past the 255 bytes of a name. *)
Theorem AppendDomainName_concatenates name append ls ls' :
  name_ok ls → is_name name ls → 256 ≤ zlen name → name_ok ls' → is_name append ls' →
  ∃ name' r, AppendDomainName name append = Ret (name', r) ∧ same_tail name name' ∧
    if zlen (encode (ls ++ ls')) <=? 255
    then r = Some (zlen (encode (ls ++ ls')) - 1) ∧ is_name name' (ls ++ ls')
    else r = None ∧ ∃ some rest, ls' = some ++ rest ∧ name_ok (ls ++ some) ∧ is_name name' (ls ++ some).
Proof. intros Hok Hn Hl Hok' Hn'. by apply AppendDomainName_spec; [..|apply Hok'|]. Qed.
Lemma AppendDomainName_concatenates_witness : ∃ name',
  AppendDomainName (encode [[97]] ++ replicate 253 0) (encode [[98; 99]; [100]]) = Ret (name', Some 7) ∧
  is_name name' [[97]; [98; 99]; [100]].
Proof.
  destruct (AppendDomainName_concatenates (encode [[97]] ++ replicate 253 0) (encode [[98; 99]; [100]]) [[97]] [[98; 99]; [100]])
    as (name' & r & H & _ & -> & Hn); [by apply name_okb_ok|apply is_name_app|done|by apply name_okb_ok|apply is_name_encode|].
  exists name'. split; [exact H|exact Hn].
Defined.
