(* ===== verification/DNSText.v ===== *)
(** Domain names as text: [AppendDNSNameString],
    [MakeDomainLabelFromLiteralString], [MakeDomainNameFromDNSNameString] and
    the [ConvertDomain...ToCString_withescape] functions of [DNSCommon.c].

    A C string is a buffer of bytes read up to its zero byte; characters are
    bytes.  The main theorem is the round trip: the text printed for a legal
    name other than the root parses back to the same labels. *)
From S2P Require Import Prelude Bytes DNSTypes DNSName.

Definition dot : Z := 46.
Definition backslash : Z := 92.

(** ** Parsing *)

(** The character an escape stands for, from the character after the
    backslash on; also the position after the escape. *)
Definition escaped_char (cstr : list Z) (s : Z) : outcome (Z * Z) :=
  let* c := aget cstr s in
  let s := s + 1 in
  if negb (mdnsIsDigit c) then Ret (c, s) else
  let* d1 := aget cstr s in
  if negb (mdnsIsDigit d1) then Ret (c, s) else
  let* d2 := aget cstr (s + 1) in
  if negb (mdnsIsDigit d2) then Ret (c, s) else
  let val := (c - 48) * 100 + (d1 - 48) * 10 + (d2 - 48) in
  Ret (if val <=? 255 then (val, s + 2) else (c, s)).

(** The characters of one label. *)
Fixpoint label_chars (fuel : nat) (name : list Z) (ptr lim : Z) (cstr : list Z) (s : Z)
    : outcome (list Z * Z * Z) :=
  match fuel with
  | O => Fault OutOfFuel
  | S fuel =>
    let* c := aget cstr s in
    if negb (c =? 0) && negb (c =? dot) && (ptr <? lim) then
      let* '(c, s) := (if c =? backslash then escaped_char cstr (s + 1) else Ret (c, s + 1)) in
      let* name := aset name ptr c in
      label_chars fuel name (ptr + 1) lim cstr s
    else Ret (name, ptr, s)
  end.

Fixpoint AppendDNSNameString_loop (fuel : nat) (name : list Z) (ptr lim : Z) (cstr : list Z) (s : Z)
    : outcome (list Z * option Z) :=
  match fuel with
  | O => Fault OutOfFuel
  | S fuel =>
    let* c := aget cstr s in
    if negb (c =? 0) && (ptr <? lim) then
      let lengthbyte := ptr in
      if c =? dot then Ret (name, None) else
      let* '(name, ptr, s) := label_chars (S (length cstr)) name (ptr + 1) lim cstr s in
      let* c := aget cstr s in
      let s := if negb (c =? 0) then s + 1 else s in
      if MAX_DOMAIN_LABEL <? ptr - lengthbyte - 1 then Ret (name, None) else
      let* name := aset name lengthbyte (u8 (ptr - lengthbyte - 1)) in
      AppendDNSNameString_loop fuel name ptr lim cstr s
    else
      let* name := aset name ptr 0 in
      Ret (name, if negb (c =? 0) then None else Some (ptr + 1))
  end.
Definition AppendDNSNameString (name cstring : list Z) : outcome (list Z * option Z) :=
  let* len := DomainNameLength name in
  AppendDNSNameString_loop (S (length cstring)) name (len - 1) (MAX_DOMAIN_NAME - 1) cstring 0.

Definition MakeDomainNameFromDNSNameString (name cstr : list Z) : outcome (list Z * option Z) :=
  let* name := aset name 0 0 in
  AppendDNSNameString name cstr.

Definition MakeDomainLabelFromLiteralString (lab cstr : list Z) : outcome (list Z * bool) :=
  let* '(lab, ptr, s) := literal_loop (S (length cstr)) lab 1 (1 + MAX_DOMAIN_LABEL) cstr 0 in
  let* lab := aset lab 0 (u8 (ptr - 1)) in
  let* c := aget cstr s in
  Ret (lab, c =? 0).

(** ** Printing.  [out] is the buffer the text is written to. *)
Fixpoint ConvertDomainLabel_loop (n : nat) (lab : list Z) (src : Z) (out : list Z) (ptr esc : Z)
    : outcome (list Z * Z) :=
  match n with
  | O => Ret (out, ptr)
  | S n =>
    let* c := aget lab src in
    let* '(out, ptr, c) :=
      (if esc =? 0 then Ret (out, ptr, c) else
       if (c =? dot) || (c =? esc) then
         let* out := aset out ptr esc in Ret (out, ptr + 1, c)
       else if c <=? 32 then
         let* out := aset out ptr esc in
         let* out := aset out (ptr + 1) (48 + c / 100) in
         let* out := aset out (ptr + 2) (48 + c / 10 mod 10) in
         Ret (out, ptr + 3, u8 (48 + c mod 10))
       else Ret (out, ptr, c)) in
    let* out := aset out ptr c in
    ConvertDomainLabel_loop n lab (src + 1) out (ptr + 1) esc
  end.
Definition ConvertDomainLabelToCString_withescape (lab out : list Z) (ptr esc : Z)
    : outcome (list Z * option Z) :=
  let* len := aget lab 0 in
  if MAX_DOMAIN_LABEL <? len then Ret (out, None) else
  let* '(out, ptr) := ConvertDomainLabel_loop (Z.to_nat len) lab 1 out ptr esc in
  let* out := aset out ptr 0 in
  Ret (out, Some ptr).

Fixpoint ConvertDomainName_loop (fuel : nat) (name : list Z) (src : Z) (out : list Z) (ptr esc : Z)
    : outcome (list Z * option Z) :=
  match fuel with
  | O => Fault OutOfFuel
  | S fuel =>
    let* c := aget name src in
    if c =? 0 then
      let* out := aset out ptr 0 in Ret (out, Some (ptr + 1))
    else
    if MAX_DOMAIN_NAME <=? src + 1 + c then Ret (out, None) else
    let* '(out, r) := ConvertDomainLabelToCString_withescape (ptr_add name src) out ptr esc in
    match r with
    | None => Ret (out, None)
    | Some ptr =>
      let* out := aset out ptr dot in
      ConvertDomainName_loop fuel name (src + 1 + c) out (ptr + 1) esc
    end
  end.
Definition ConvertDomainNameToCString_withescape (name out : list Z) (ptr esc : Z) : outcome (list Z * option Z) :=
  let* c := aget name 0 in
  let* '(out, ptr) := (if c =? 0 then let* out := aset out ptr dot in Ret (out, ptr + 1) else Ret (out, ptr)) in
  ConvertDomainName_loop (S (length name)) name 0 out ptr esc.

(** ** The text of a name *)
Definition text_char (esc c : Z) : list Z :=
  if esc =? 0 then [c] else
  if (c =? dot) || (c =? esc) then [esc; c] else
  if c <=? 32 then [esc; 48 + c / 100; 48 + c / 10 mod 10; 48 + c mod 10] else [c].
Definition text_label (esc : Z) (l : label) : list Z := concat (map (text_char esc) l).
Definition text_labels (esc : Z) (ls : list label) : list Z := concat (map (fun l => text_label esc l ++ [dot]) ls).
Definition text_name (esc : Z) (ls : list label) : list Z :=
  match ls with [] => [dot] | _ => text_labels esc ls end.

Lemma text_label_cons esc c l : text_label esc (c :: l) = text_char esc c ++ text_label esc l.
Proof. done. Qed.
Lemma text_labels_cons esc l ls : text_labels esc (l :: ls) = text_label esc l ++ dot :: text_labels esc ls.
Proof. unfold text_labels. simpl. by rewrite <- app_assoc. Qed.

Lemma ConvertDomainLabel_loop_spec lab esc l : ∀ src out ptr, holds lab src l → bytes_ok l → 0 ≤ ptr →
  ptr + zlen (text_label esc l) ≤ zlen out →
  ConvertDomainLabel_loop (length l) lab src out ptr esc =
    Ret (write out ptr (text_label esc l), ptr + zlen (text_label esc l)).
Proof.
  induction l as [|c l IH]; intros src out ptr Hl Hb Hp Hfit.
  - simpl. change (text_label esc []) with (@nil Z) in *. change (zlen []) with 0 in *. rewrite write_nil by lia. do 2 f_equal. lia.
  - apply holds_cons in Hl as [Hc Hl]. apply Forall_cons in Hb as [Hc8 Hb].
    rewrite text_label_cons, zlen_app in *. pose proof (zlen_nonneg (text_label esc l)).
    assert (∃ n, n = zlen (text_char esc c) ∧ ConvertDomainLabel_loop (length (c :: l)) lab src out ptr esc =
      ConvertDomainLabel_loop (length l) lab (src + 1) (write out ptr (text_char esc c)) (ptr + n) esc) as (n & Hn & ->).
    { simpl. rewrite (proj2 (aget_at _ _ _) Hc). cbn [obind]. unfold text_char in *.
      destruct (esc =? 0), (Z.eqb_spec c dot), (c =? esc), (Z.leb_spec c 32); cbn [orb] in *;
        rewrite ?zlen_cons in Hfit; change (zlen []) with 0 in Hfit.
      all: eexists; split; [reflexivity|].
      all: cbn [obind]; repeat (first [rewrite aset_write by lia | rewrite aset_app by (done || lia)]; cbn [obind app]).
      all: try rewrite u8_id by (Z.div_mod_to_equations; lia).
      all: rewrite ?zlen_cons; change (zlen []) with 0; f_equal; lia. }
    subst n. rewrite IH; [|done|done|pose proof (zlen_nonneg (text_char esc c)); lia|rewrite zlen_write; pose proof (zlen_nonneg (text_char esc c)); lia].
    rewrite write_app by lia. do 2 f_equal. lia.
Qed.

Lemma ConvertDomainLabel_spec lab out ptr esc l : holds lab 0 (encode_label l) → bytes_ok l → zlen l ≤ 63 →
  0 ≤ ptr → ptr + zlen (text_label esc l) < zlen out →
  ConvertDomainLabelToCString_withescape lab out ptr esc =
    Ret (write out ptr (text_label esc l ++ [0]), Some (ptr + zlen (text_label esc l))).
Proof.
  intros [Hl0 Hl]%holds_cons Hb H63 Hp Hfit. unfold ConvertDomainLabelToCString_withescape, MAX_DOMAIN_LABEL.
  rewrite (proj2 (aget_at _ _ _) Hl0). cbn [obind]. rewrite (proj2 (Z.ltb_ge _ _)) by done.
  replace (Z.to_nat (zlen l)) with (length l) by (unfold zlen; lia).
  rewrite (ConvertDomainLabel_loop_spec lab esc l) by (done || lia). cbn [obind].
  by rewrite aset_app by (done || lia).
Qed.

Lemma ConvertDomainName_loop_spec name esc ls : ∀ fuel src out ptr, Forall label_ok ls →
  holds name src (encode ls) → src + zlen (encode ls) ≤ 255 → (length ls < fuel)%nat → 0 ≤ ptr →
  ptr + zlen (text_labels esc ls) < zlen out →
  ConvertDomainName_loop fuel name src out ptr esc =
    Ret (write out ptr (text_labels esc ls ++ [0]), Some (ptr + zlen (text_labels esc ls) + 1)).
Proof.
  induction ls as [|l ls IH]; intros [|fuel] src out ptr Hok Hn Hlen Hf Hp Hfit; simpl in Hf; try lia;
    cbn [ConvertDomainName_loop].
  - rewrite (name_get_nil _ _ Hn). cbn [obind Z.eqb]. change (text_labels esc []) with (@nil Z) in *.
    change (zlen []) with 0 in *. rewrite aset_write by lia. cbn [obind app]. do 3 f_equal. lia.
  - apply Forall_cons in Hok as [Hl Hok]. rewrite (name_get_cons _ _ _ _ Hn). cbn [obind].
    rewrite (proj1 (label_nonzero l Hl)). destruct Hl as [[Hl1 Hl2] Hlb]. unfold MAX_DOMAIN_LABEL, MAX_DOMAIN_NAME in *.
    rewrite zlen_encode_cons in Hlen. pose proof (zlen_encode_pos ls). rewrite (proj2 (Z.leb_gt _ _)) by lia.
    rewrite text_labels_cons, zlen_app, zlen_cons in *. pose proof (zlen_nonneg (text_label esc l)).
    pose proof (zlen_nonneg (text_labels esc ls)). pose proof (holds_range _ _ _ Hn).
    rewrite (ConvertDomainLabel_spec _ _ _ _ l); [|apply holds_ptr_add; [lia|rewrite Z.add_0_r; by apply (encode_first _ _ _ Hn)|lia]|done|done|lia|lia].
    cbn [obind]. rewrite <- write_app by (try lia; change (zlen [0]) with 1; lia).
    rewrite aset_write by (rewrite zlen_write; rewrite ?zlen_write; try change (zlen [0]) with 1; lia).
    rewrite write_over by (try done; rewrite ?zlen_write; try change (zlen [0]) with 1; lia). cbn [obind].
    rewrite write_app by (try lia; change (zlen [dot]) with 1; lia).
    replace (ptr + zlen (text_label esc l) + 1) with (ptr + zlen (text_label esc l ++ [dot]))
      by (rewrite zlen_app; change (zlen [dot]) with 1; lia).
    assert (zlen (text_label esc l ++ [dot]) = zlen (text_label esc l) + 1) as Hz by (rewrite zlen_app; done).
    rewrite IH; [|done|by apply name_next|lia|lia|lia|rewrite zlen_write; lia].
    rewrite write_app by (rewrite ?(zlen_app (text_labels esc ls)); try change (zlen [0]) with 1; lia).
    do 3 f_equal; [by rewrite <- !app_assoc|lia].
Qed.

Lemma ConvertDomainName_spec name out ptr esc ls : name_ok ls → is_name name ls → 0 ≤ ptr →
  ptr + zlen (text_name esc ls) < zlen out →
  ConvertDomainNameToCString_withescape name out ptr esc =
    Ret (write out ptr (text_name esc ls ++ [0]), Some (ptr + zlen (text_name esc ls) + 1)).
Proof.
  intros [Hok Hlen] Hn Hp Hfit. unfold ConvertDomainNameToCString_withescape, MAX_DOMAIN_NAME in *.
  destruct ls as [|l ls]; cbn [text_name] in *.
  - rewrite (name_get_nil _ _ Hn). cbn [obind Z.eqb]. change (zlen [dot]) with 1 in *.
    rewrite aset_write by lia. cbn [obind].
    assert (zlen (write out ptr [dot]) = zlen out) as Hz by (apply zlen_write; change (zlen [dot]) with 1; lia).
    rewrite (ConvertDomainName_loop_spec name esc []); [|done|done|lia|simpl; lia|lia|rewrite Hz; change (zlen (text_labels esc [])) with 0; lia].
    change (text_labels esc []) with (@nil Z). change (zlen []) with 0. cbn [app].
    change (ptr + 1) with (ptr + zlen [dot]).
    rewrite write_app by (done || (change (zlen [dot]) with 1; change (zlen [0]) with 1; lia)).
    do 3 f_equal. change (zlen [dot]) with 1. lia.
  - rewrite (name_get_cons _ _ _ _ Hn). cbn [obind]. pose proof Hok as [Hl _]%Forall_cons.
    rewrite (proj1 (label_nonzero l Hl)). cbn [obind].
    apply ConvertDomainName_loop_spec; (done || lia || by apply is_name_fuel).
Qed.

(** ** Parsing a printed name *)
(** One printed character, read back. *)
Lemma text_char_parse cstr s c : is_u8 c → holds cstr s (text_char backslash c) →
  ∃ b, at_ cstr s b ∧ b ≠ 0 ∧ b ≠ dot ∧
    (if b =? backslash then escaped_char cstr (s + 1) else Ret (b, s + 1)) =
    Ret (c, s + zlen (text_char backslash c)).
Proof.
  intros Hc. unfold text_char, backslash, dot. cbn [Z.eqb Pos.eqb].
  destruct (Z.eqb_spec c 46) as [Hc1|Hc1], (Z.eqb_spec c 92) as [Hc2|Hc2], (Z.leb_spec c 32); cbn [orb]; try lia; intros Hh.
  - apply holds_cons in Hh as [Hb [Hd _]%holds_cons]. exists 92. split; [done|]. split; [done|]. split; [done|].
    unfold escaped_char. cbn [Z.eqb Pos.eqb]. rewrite (proj2 (aget_at _ _ _) Hd). cbn [obind].
    replace (mdnsIsDigit c) with false by (unfold mdnsIsDigit; lia). cbn [negb].
    change (zlen [92; c]) with 2. do 2 f_equal. lia.
  - apply holds_cons in Hh as [Hb [Hd _]%holds_cons]. exists 92. split; [done|]. split; [done|]. split; [done|].
    unfold escaped_char. cbn [Z.eqb Pos.eqb]. rewrite (proj2 (aget_at _ _ _) Hd). cbn [obind].
    replace (mdnsIsDigit c) with false by (unfold mdnsIsDigit; lia). cbn [negb].
    change (zlen [92; c]) with 2. do 2 f_equal. lia.
  - apply holds_cons in Hh as [Hb [H1 [H2 [H3 _]%holds_cons]%holds_cons]%holds_cons].
    exists 92. split; [done|]. split; [done|]. split; [done|]. cbn [Z.eqb Pos.eqb]. unfold escaped_char.
    assert (∀ d, 0 ≤ d < 10 → mdnsIsDigit (48 + d) = true) as Hdig by (intros; unfold mdnsIsDigit; lia).
    rewrite (proj2 (aget_at _ _ _) H1). cbn [obind]. rewrite Hdig by (Z.div_mod_to_equations; lia). cbn [negb].
    rewrite (proj2 (aget_at _ _ _) H2). cbn [obind]. rewrite Hdig by (Z.div_mod_to_equations; lia). cbn [negb].
    rewrite (proj2 (aget_at _ _ _) H3). cbn [obind]. rewrite Hdig by (Z.div_mod_to_equations; lia). cbn [negb].
    replace ((48 + c / 100 - 48) * 100 + (48 + c / 10 mod 10 - 48) * 10 + (48 + c mod 10 - 48)) with c
      by (Z.div_mod_to_equations; lia).
    rewrite (proj2 (Z.leb_le _ _)) by lia. do 2 f_equal. rewrite !zlen_cons. change (zlen []) with 0. lia.
  - apply holds_cons in Hh as [Hb _]. exists c. split; [done|]. split; [lia|]. split; [done|].
    by rewrite (proj2 (Z.eqb_neq _ _)).
Qed.

Lemma text_char_pos esc c : 1 ≤ zlen (text_char esc c).
Proof. unfold text_char. repeat case_match; rewrite !zlen_cons; change (@zlen Z []) with 0; lia. Qed.

Lemma text_label_long esc l : zlen l ≤ zlen (text_label esc l).
Proof.
  induction l as [|c l IH]; [done|]. rewrite text_label_cons, zlen_app, zlen_cons. pose proof (text_char_pos esc c). lia.
Qed.

Lemma label_chars_spec cstr lim l : ∀ fuel name ptr s, bytes_ok l →
  holds cstr s (text_label backslash l ++ [dot]) → 0 ≤ ptr → ptr + zlen l ≤ lim → lim ≤ zlen name →
  (length l < fuel)%nat →
  label_chars fuel name ptr lim cstr s = Ret (write name ptr l, ptr + zlen l, s + zlen (text_label backslash l)).
Proof.
  induction l as [|c l IH]; intros [|fuel] name ptr s Hb Hh Hp Hlim Hn Hf; simpl in Hf; try lia; cbn [label_chars].
  - apply holds_cons in Hh as [Hd _]. rewrite (proj2 (aget_at _ _ _) Hd). cbn [obind].
    change (text_label backslash []) with (@nil Z). change (zlen []) with 0 in *. rewrite write_nil by lia.
    rewrite !Z.add_0_r. done.
  - apply Forall_cons in Hb as [Hc Hb]. rewrite text_label_cons, <- app_assoc in Hh.
    apply holds_app in Hh as [Hc1 Hrest]. destruct (text_char_parse cstr s c Hc Hc1) as (b & Hat & Hb0 & Hbd & Hparse).
    rewrite (proj2 (aget_at _ _ _) Hat). cbn [obind]. rewrite zlen_cons in *. pose proof (zlen_nonneg l).
    rewrite (proj2 (Z.eqb_neq b 0)), (proj2 (Z.eqb_neq b dot)), (proj2 (Z.ltb_lt _ _)) by (done || lia).
    cbn [negb andb]. rewrite Hparse. cbn [obind]. rewrite aset_write by lia. cbn [obind].
    assert (zlen (write name ptr [c]) = zlen name) as Hz by (apply zlen_write; change (zlen [c]) with 1; lia).
    rewrite IH by (done || lia). change (ptr + 1) with (ptr + zlen [c]).
    rewrite write_app by (try done; change (zlen [c]) with 1; lia).
    rewrite text_label_cons, zlen_app. change (zlen [c]) with 1. do 2 f_equal; [f_equal; lia|lia].
Qed.

Lemma text_label_head l : label_ok l → ∃ b t, text_label backslash l = b :: t ∧ b ≠ 0 ∧ b ≠ dot.
Proof.
  intros [[Hl _] Hb]. destruct l as [|c l]; [done|]. apply Forall_cons in Hb as [Hc _].
  pose proof (text_char_pos backslash c) as Hpos.
  destruct (text_char_parse (text_char backslash c) 0 c Hc (holds_all _)) as (b & Hat & Hb0 & Hbd & _).
  rewrite text_label_cons. destruct (text_char backslash c) as [|b' t]; [done|].
  destruct Hat as [_ [= ->]]. by exists b, (t ++ text_label backslash l).
Qed.

Lemma AppendDNSNameString_loop_spec cstr ls : ∀ fuel name p s, Forall label_ok ls →
  holds cstr s (text_labels backslash ls ++ [0]) → 0 ≤ p → p + zlen (encode ls) ≤ 255 → 255 ≤ zlen name →
  (length ls < fuel)%nat →
  AppendDNSNameString_loop fuel name p 254 cstr s = Ret (write name p (encode ls), Some (p + zlen (encode ls))).
Proof.
  induction ls as [|l ls IH]; intros [|fuel] name p s Hok Hh Hp Hfit Hn Hf; simpl in Hf; try lia;
    cbn [AppendDNSNameString_loop].
  - apply holds_cons in Hh as [Hz _]. rewrite (proj2 (aget_at _ _ _) Hz). cbn [obind Z.eqb negb andb].
    change (zlen (encode [])) with 1 in *. by rewrite aset_write by lia.
  - apply Forall_cons in Hok as [Hl Hok]. destruct (text_label_head l Hl) as (b & t & Ht & Hb0 & Hbd).
    pose proof Hl as [[Hl1 Hl2] Hlb]. unfold MAX_DOMAIN_LABEL in *. rewrite zlen_encode_cons in *.
    pose proof (zlen_encode_pos ls). pose proof (zlen_encode_label l) as Hel.
    rewrite text_labels_cons, <- app_assoc in Hh. simpl in Hh.
    assert (at_ cstr s b) as Hb by (rewrite Ht in Hh; by apply holds_cons in Hh as [? _]).
    rewrite (proj2 (aget_at _ _ _) Hb). cbn [obind].
    rewrite (proj2 (Z.eqb_neq b 0)), (proj2 (Z.eqb_neq b dot)), (proj2 (Z.ltb_lt p 254)) by (done || lia). cbn [negb andb].
    pose proof (holds_range _ _ _ Hh) as Hr. rewrite zlen_app in Hr. pose proof (text_label_long backslash l).
    change (dot :: ?x) with ([dot] ++ x) in Hh. rewrite app_assoc in Hh. apply holds_app in Hh as [Hh1 Hh2].
    rewrite (label_chars_spec cstr 254 l); [|done|done|lia|lia|lia|].
    2: { pose proof (zlen_nonneg (dot :: text_labels backslash ls ++ [0])). unfold zlen in *. lia. }
    cbn [obind]. apply holds_app in Hh1 as [_ [Hd _]%holds_cons]. rewrite (proj2 (aget_at _ _ _) Hd). cbn [obind].
    cbn [dot Z.eqb negb]. rewrite (proj2 (Z.ltb_ge _ _)) by lia.
    replace (p + 1 + zlen l - p - 1) with (zlen l) by lia. rewrite u8_id by lia.
    rewrite aset_write by (rewrite zlen_write; lia). cbn [obind].
    change (p + 1) with (p + zlen [zlen l]). rewrite write_before by (try done; change (zlen [zlen l]) with 1; lia).
    change ([zlen l] ++ l) with (encode_label l). change (zlen [zlen l]) with 1.
    replace (p + 1 + zlen l) with (p + zlen (encode_label l)) by lia.
    rewrite IH; [|done| |lia|lia|rewrite zlen_write; lia|lia].
    + rewrite write_app by lia. rewrite encode_cons. do 3 f_equal. lia.
    + replace (s + zlen (text_label backslash l) + 1) with (s + zlen (text_label backslash l ++ [dot])); [done|].
      rewrite zlen_app. change (zlen [dot]) with 1. lia.
Qed.

Lemma text_labels_count esc ls : Z.of_nat (length ls) ≤ zlen (text_labels esc ls).
Proof.
  induction ls as [|l ls IH]; [done|]. rewrite text_labels_cons, zlen_app, zlen_cons. simpl length.
  pose proof (zlen_nonneg (text_label esc l)). lia.
Qed.

Lemma MakeDomainName_text name cstr ls : name_ok ls → 256 ≤ zlen name →
  holds cstr 0 (text_labels backslash ls ++ [0]) →
  ∃ name', MakeDomainNameFromDNSNameString name cstr = Ret (name', Some (zlen (encode ls))) ∧
    is_name name' ls ∧ zlen name' = zlen name.
Proof.
  intros Hok Hn Hc. pose proof Hok as [Hls Hlen]. unfold MakeDomainNameFromDNSNameString, AppendDNSNameString.
  rewrite aset_write by lia. cbn [obind].
  assert (zlen (write name 0 [0]) = zlen name) as Hz by (apply zlen_write; change (zlen [0]) with 1; lia).
  rewrite (DomainNameLength_name _ []); [|by apply name_okb_ok|].
  2: { apply holds_encode_nil. rewrite <- insert_write by lia. apply at_insert_eq. lia. }
  cbn [obind]. unfold MAX_DOMAIN_NAME in *. change (zlen (encode []) - 1) with 0. change (255 - 1) with 254.
  assert (length ls < S (length cstr))%nat as Hf.
  { apply holds_range in Hc. rewrite zlen_app in Hc. pose proof (text_labels_count backslash ls). unfold zlen in *. lia. }
  rewrite (AppendDNSNameString_loop_spec cstr ls) by (done || lia). eexists. split; [done|].
  rewrite zlen_write by lia. split; [|done]. apply write_holds; lia.
Qed.

Lemma MakeDomainLabel_spec lab cstr cs : 64 ≤ zlen lab → is_cstr cstr 0 cs →
  ∃ pre post, cs = pre ++ post ∧ zlen pre = Z.min 63 (zlen cs) ∧
    MakeDomainLabelFromLiteralString lab cstr = Ret (write lab 0 (encode_label pre), bool_decide (zlen cs ≤ 63)).
Proof.
  intros Hl Hc. unfold MakeDomainLabelFromLiteralString, MAX_DOMAIN_LABEL.
  destruct (literal_loop_spec cstr (1 + 63) cs (S (length cstr)) lab 1 0) as (pre & post & -> & -> & Hpost & Hpre);
    [done|apply is_cstr_length in Hc; unfold zlen in *; lia|lia|lia|].
  exists pre, post. split; [done|]. rewrite zlen_app. pose proof (zlen_nonneg pre). pose proof (zlen_nonneg post).
  assert (zlen pre ≤ 63) as H63 by (destruct Hpre as [->|]; [done|lia]).
  split; [destruct Hpost as [->|]; [change (zlen []) with 0|]; lia|]. cbn [obind].
  replace (1 + zlen pre - 1) with (zlen pre) by lia. rewrite u8_id by lia.
  rewrite aset_write by (rewrite zlen_write; lia). cbn [obind].
  assert (is_cstr cstr (0 + zlen pre) post) as Hcp.
  { destruct Hc as [Hc Hz]. rewrite <- app_assoc in Hc. apply holds_app in Hc as [_ Hc].
    by apply Forall_app in Hz as [_ Hz]. }
  rewrite (proj2 (aget_at _ _ _) (is_cstr_get _ _ _ Hcp)). cbn [obind].
  change 1 with (0 + zlen [zlen pre]) at 1. rewrite write_before by (try done; change (zlen [zlen pre]) with 1; lia).
  do 2 f_equal. destruct post as [|c post]; simpl.
  - symmetry. apply bool_decide_eq_true. change (zlen []) with 0. lia.
  - apply is_cstr_cons in Hcp as (_ & Hz & _). rewrite (proj2 (Z.eqb_neq _ _) Hz). symmetry.
    apply bool_decide_eq_false. rewrite zlen_cons in *. pose proof (zlen_nonneg post). destruct Hpost; [done|lia].
Qed.

(** ** [MAX_ESCAPED_DOMAIN_NAME] *)
Definition MAX_ESCAPED_DOMAIN_NAME : Z := 1005.

Lemma text_char_bound esc c : zlen (text_char esc c) ≤ 4.
Proof. unfold text_char. repeat case_match; rewrite !zlen_cons; change (@zlen Z []) with 0; lia. Qed.

Lemma text_label_bound esc l : zlen (text_label esc l) ≤ 4 * zlen l.
Proof.
  induction l as [|c l IH]; [done|]. rewrite text_label_cons, zlen_app, zlen_cons. pose proof (text_char_bound esc c). lia.
Qed.

(** [n] labels of [s] bytes in all print as at most [4 * s + n] characters. *)
Lemma text_labels_bound esc ls : Forall label_ok ls → let n := Z.of_nat (length ls) in
  zlen (text_labels esc ls) ≤ 4 * (zlen (encode_labels ls) - n) + n ∧
  zlen (encode_labels ls) ≤ 64 * n.
Proof.
  induction 1 as [|l ls [[_ Hl] _] Hok IH]; [done|]. simpl length. unfold MAX_DOMAIN_LABEL in Hl.
  rewrite text_labels_cons, zlen_app, zlen_cons, zlen_encode_labels_cons. pose proof (text_label_bound esc l).
  simpl in IH. lia.
Qed.

Lemma text_name_bound esc ls : name_ok ls → zlen (text_name esc ls) + 1 ≤ MAX_ESCAPED_DOMAIN_NAME.
Proof.
  intros [Hok Hlen]. unfold MAX_DOMAIN_NAME, MAX_ESCAPED_DOMAIN_NAME in *. destruct ls as [|l ls]; [done|].
  cbn [text_name]. pose proof (text_labels_bound esc (l :: ls) Hok) as [H1 H2]. rewrite zlen_encode in Hlen. lia.
Qed.

(** The text of a name holds no zero byte. *)
Lemma text_labels_cstr out p ls : holds out p (text_labels backslash ls ++ [0]) →
  Forall label_ok ls → is_cstr out p (text_labels backslash ls).
Proof.
  intros Hh Hok. split; [done|]. clear Hh. induction Hok as [|l ls [_ Hb] Hok IH]; [done|].
  rewrite text_labels_cons. apply Forall_app. split; [|by constructor].
  clear IH Hok. induction Hb as [|c l Hc Hb IH]; [done|]. rewrite text_label_cons. apply Forall_app. split; [|done].
  unfold text_char, backslash, dot. cbn [Z.eqb Pos.eqb].
  destruct (Z.eqb_spec c 46), (Z.eqb_spec c 92), (Z.leb_spec c 32); cbn [orb];
    repeat constructor; Z.div_mod_to_equations; lia.
Qed.

(** ** Properties *)

(** C22. Printing and parsing names are inverse: the text
    [ConvertDomainNameToCString] makes of a legal name other than the root,
    with dots, backslashes and control characters escaped, fits into 1005
    bytes, is ended by its only zero byte, and is parsed by
    [MakeDomainNameFromDNSNameString] back into exactly the name. *)
Theorem name_text_roundtrip name out ls name2 : name_ok ls → ls ≠ [] → is_name name ls →
  MAX_ESCAPED_DOMAIN_NAME ≤ zlen out → 256 ≤ zlen name2 →
  ∃ out' n name', ConvertDomainNameToCString_withescape name out 0 backslash = Ret (out', Some n) ∧
    n ≤ MAX_ESCAPED_DOMAIN_NAME ∧ (∃ cs, is_cstr out' 0 cs ∧ zlen cs = n - 1) ∧
    MakeDomainNameFromDNSNameString name2 out' = Ret (name', Some (zlen (encode ls))) ∧ is_name name' ls.
Proof.
  intros Hok Hne Hn Hout Hname2. pose proof (text_name_bound backslash ls Hok) as Hb. unfold MAX_ESCAPED_DOMAIN_NAME in *.
  rewrite (ConvertDomainName_spec name out 0 backslash ls) by (done || lia).
  set (out' := write out 0 _). assert (holds out' 0 (text_labels backslash ls ++ [0])) as Hh.
  { unfold out'. destruct ls as [|l ls]; [done|]. apply write_holds; [lia|]. rewrite zlen_app.
    change (zlen [0]) with 1. cbn [text_name] in Hb. lia. }
  destruct (MakeDomainName_text name2 out' ls Hok Hname2 Hh) as (name' & Hp & Hn' & _).
  exists out', (0 + zlen (text_name backslash ls) + 1), name'. split; [done|]. split; [lia|].
  split; [|done]. exists (text_labels backslash ls). split; [by apply text_labels_cstr; [|apply Hok]|].
  destruct ls as [|l ls]; [done|]. cbn [text_name]. lia.
Qed.
Lemma name_text_roundtrip_witness : ∃ out' n name',
  ConvertDomainNameToCString_withescape (encode [[97; 46; 98]; [7; 92]]) (replicate 1005 1) 0 backslash = Ret (out', Some n) ∧
  MakeDomainNameFromDNSNameString (replicate 256 1) out' = Ret (name', Some (zlen (encode [[97; 46; 98]; [7; 92]]))) ∧
  is_name name' [[97; 46; 98]; [7; 92]].
Proof.
  destruct (name_text_roundtrip (encode [[97; 46; 98]; [7; 92]]) (replicate 1005 1) [[97; 46; 98]; [7; 92]] (replicate 256 1))
    as (out' & n & name' & H1 & _ & _ & H2 & H3); [by apply name_okb_ok|done|apply is_name_encode|done|done|].
  exists out', n, name'. split; [exact H1|]. split; [exact H2|exact H3].
Defined.
