(* ===== verification/DNSService.v ===== *)
(** Service names: [ConstructServiceName], [DeconstructServiceName] and
    [ConvertUTF8PstringToRFC1034HostLabel] of [DNSCommon.c].

    A service name is an instance label, an application protocol label, a
    transport label and a domain.  Construction checks the protocol labels and
    concatenates; deconstruction splits.  The buffers the C functions fill are
    arguments and results. *)
From S2P Require Import Prelude Bytes DNSTypes DNSName.

(** ** Host labels *)
Fixpoint ConvertUTF8_loop (fuel : nat) (u : list Z) (src e : Z) (h : list Z) (ptr lim : Z) : outcome (list Z * Z) :=
  match fuel with
  | O => Fault OutOfFuel
  | S fuel =>
    if negb (src <? e) then Ret (h, ptr) else
    let* c := aget u src in
    if c =? 39 then ConvertUTF8_loop fuel u (src + 1) e h ptr lim else
    let* curly := (if (src + 2 <? e) && (c =? 0xE2) then
                     let* c1 := aget u (src + 1) in
                     if negb (c1 =? 0x80) then Ret false else
                     let* c2 := aget u (src + 2) in Ret (c2 =? 0x99)
                   else Ret false) in
    if curly : bool then ConvertUTF8_loop fuel u (src + 3) e h ptr lim else
    let* '(h, ptr) :=
      (if ptr <? lim then
         if mdnsValidHostChar c (1 <? ptr) (src <? e - 1) then
           let* h := aset h ptr c in Ret (h, ptr + 1)
         else if 1 <? ptr then
           let* p := aget h (ptr - 1) in
           if negb (p =? 45) then let* h := aset h ptr 45 in Ret (h, ptr + 1) else Ret (h, ptr)
         else Ret (h, ptr)
       else Ret (h, ptr)) in
    ConvertUTF8_loop fuel u (src + 1) e h ptr lim
  end.
Fixpoint strip_hyphens (fuel : nat) (h : list Z) (ptr : Z) : outcome Z :=
  match fuel with
  | O => Fault OutOfFuel
  | S fuel =>
    if negb (1 <? ptr) then Ret ptr else
    let* p := aget h (ptr - 1) in
    if p =? 45 then strip_hyphens fuel h (ptr - 1) else Ret ptr
  end.
Definition ConvertUTF8PstringToRFC1034HostLabel (UTF8Name hostlabel : list Z) : outcome (list Z) :=
  let* n := aget UTF8Name 0 in
  let* '(h, ptr) := ConvertUTF8_loop (S (length UTF8Name)) UTF8Name 1 (1 + n) hostlabel 1 (1 + MAX_DOMAIN_LABEL) in
  let* ptr := strip_hyphens (S (length h)) h ptr in
  aset h 0 (u8 (ptr - 1)).

(** ** Construction *)

(** [X] is a label at offset [x] of [d]: is it [_udp] or [_tcp]? *)
Definition ValidTransportProtocol (d : list Z) (x : Z) : outcome bool :=
  let* x0 := aget d x in
  if negb (x0 =? 4) then Ret false else
  let* x1 := aget d (x + 1) in
  if negb (x1 =? 95) then Ret false else
  let* x2 := aget d (x + 2) in
  let k := Z.lor x2 0x20 in
  if negb ((k =? 117) || (k =? 116)) then Ret false else
  let* x3 := aget d (x + 3) in
  if negb (Z.lor x3 0x20 =? (if k =? 117 then 100 else 99)) then Ret false else
  let* x4 := aget d (x + 4) in
  Ret (Z.lor x4 0x20 =? 112).

(** [local], [\x04_sub], [_services._dns-sd._udp] and [local.arpa]. *)
Definition localdomain : list Z := nL.
Definition SubTypeLabel : list Z := [4; 95; 115; 117; 98].
Definition services_dns_sd_udp : list Z :=
  [9; 95; 115; 101; 114; 118; 105; 99; 101; 115; 7; 95; 100; 110; 115; 45; 115; 100; 4; 95; 117; 100; 112; 0].
Definition local_arpa : list Z := [5; 108; 111; 99; 97; 108; 4; 97; 114; 112; 97; 0].

(** A subtype label before the type, allowed only when there is no name: the
    fqdn buffer, the bytes written and the offset of the type proper. *)
Definition put_subtype (fqdn type : list Z) : outcome (list Z * Z * Z) :=
  let* l0 := aget type 0 in
  if (l0 =? 0) || negb (l0 <? 0x40) then Ret (fqdn, 0, 0) else
  let s1 := 1 + l0 in
  let* l1 := aget type s1 in
  if (l1 =? 0) || negb (l1 <? 0x40) then Ret (fqdn, 0, 0) else
  let s2 := s1 + 1 + l1 in
  let* l2 := aget type s2 in
  if (l2 =? 0) || negb (l2 <? 0x40) then Ret (fqdn, 0, 0) else
  let* last := aget type (s2 + (1 + l2)) in
  if negb (last =? 0) then Ret (fqdn, 0, 0) else
  let* fqdn := copy (l0 + 1) type 0 fqdn 0 in
  let* fqdn := copy 5 SubTypeLabel 0 fqdn (l0 + 1) in
  let dst := l0 + 1 + 5 in
  let* same := SameDomainName type services_dns_sd_udp in
  Ret (fqdn, if same : bool then dst - 5 else dst, s1).

(** The characters of the application protocol label from index [i] on. *)
Fixpoint protocol_chars (n : nat) (type : list Z) (src len i : Z) : outcome bool :=
  match n with
  | O => Ret true
  | S n =>
    let* c := aget type (src + i) in
    if mdnsIsLetter c || mdnsIsDigit c then protocol_chars n type src len (i + 1) else
    if ((c =? 45) || (c =? 95)) && (2 <? i) && (i <? len) then protocol_chars n type src len (i + 1)
    else Ret false
  end.

Definition ConstructServiceName (fqdn : list Z) (name : option (list Z)) (type : option (list Z)) (domain : list Z)
    : outcome (list Z * option Z) :=
  let* '(fqdn, dst, src) :=
    match name, type with
    | None, Some type => put_subtype fqdn type
    | _, _ => Ret (fqdn, 0, 0)
    end in
  let* '(fqdn, dst, ok) :=
    match name with
    | Some name =>
      let* len := aget name 0 in
      if len =? 0 then Ret (fqdn, dst, true) else
      if 0x40 <=? len then Ret (fqdn, dst, false) else
      let* fqdn := copy (len + 1) name 0 fqdn dst in Ret (fqdn, dst + (len + 1), true)
    | None => Ret (fqdn, dst, true)
    end in
  if negb ok then Ret (fqdn, None) else
  match type with
  | None => Fault NullDeref
  | Some type =>
    let* len := aget type src in
    if (len <? 2) || (0x40 <=? len) then Ret (fqdn, None) else
    let* long := (if 15 <? len then let* same := SameDomainName domain localdomain in Ret (negb same) else Ret false) in
    if long : bool then Ret (fqdn, None) else
    let* c1 := aget type (src + 1) in
    if negb (c1 =? 95) then Ret (fqdn, None) else
    let* ok := protocol_chars (Z.to_nat (len - 1)) type src len 2 in
    if negb ok then Ret (fqdn, None) else
    let* fqdn := copy (len + 1) type src fqdn dst in
    let dst := dst + (len + 1) in
    let src := src + (len + 1) in
    let* len := aget type src in
    let* ok := ValidTransportProtocol type src in
    if negb ok then Ret (fqdn, None) else
    let* fqdn := copy (len + 1) type src fqdn dst in
    let dst := dst + (len + 1) in
    let src := src + (len + 1) in
    let* c := aget type src in
    if negb (c =? 0) then Ret (fqdn, None) else
    let* fqdn := aset fqdn dst 0 in
    let* d0 := aget domain 0 in
    if d0 =? 0 then Ret (fqdn, None) else
    let* same := SameDomainName domain local_arpa in
    if same : bool then Ret (fqdn, None) else
    AppendDomainName fqdn domain
  end.

(** ** Deconstruction *)
Fixpoint Deconstruct_domain (fuel : nat) (fqdn : list Z) (src max : Z) (domain : list Z) (dst : Z)
    : outcome (list Z * bool) :=
  match fuel with
  | O => Fault OutOfFuel
  | S fuel =>
    let* len := aget fqdn src in
    if len =? 0 then
      let* domain := aset domain dst 0 in Ret (domain, true)
    else
    if 0x40 <=? len then Ret (domain, false) else
    if max <=? src + 1 + len + 1 then Ret (domain, false) else
    let* domain := copy (len + 1) fqdn src domain dst in
    Deconstruct_domain fuel fqdn (src + (len + 1)) max domain (dst + (len + 1))
  end.

Definition DeconstructServiceName (fqdn name type domain : list Z)
    : outcome (list Z * list Z * list Z * bool) :=
  let* len := aget fqdn 0 in
  if len =? 0 then Ret (name, type, domain, false) else
  if 0x40 <=? len then Ret (name, type, domain, false) else
  let* name := copy (len + 1) fqdn 0 name 0 in
  let src := len + 1 in
  let* len := aget fqdn src in
  if len =? 0 then Ret (name, type, domain, false) else
  if 0x40 <=? len then Ret (name, type, domain, false) else
  let* c1 := aget fqdn (src + 1) in
  if negb (c1 =? 95) then Ret (name, type, domain, false) else
  let* type := copy (len + 1) fqdn src type 0 in
  let src := src + (len + 1) in
  let dst := len + 1 in
  let* len := aget fqdn src in
  if len =? 0 then Ret (name, type, domain, false) else
  let* type := copy (len + 1) fqdn src type dst in
  let* type := aset type (dst + (len + 1)) 0 in
  let src := src + (len + 1) in
  let* '(domain, ok) := Deconstruct_domain (S (length fqdn)) fqdn src MAX_DOMAIN_NAME domain 0 in
  Ret (name, type, domain, ok).

(** ** The parts of a service name *)

(** The test of the characters of the application protocol label. *)
Definition protocol_text (t : label) : bool :=
  match t with
  | u :: cs => (u =? 95) && forallb (fun '(i, c) =>
      mdnsIsLetter c || mdnsIsDigit c || ((c =? 45) || (c =? 95)) && (2 <? i) && (i <? zlen t))
      (zip (seqZ 2 (zlen cs)) cs)
  | [] => false
  end.

(** The protocol labels [ConstructServiceName] accepts. *)
Definition protocol_ok (t1 t2 : label) (ds : list label) : bool :=
  (2 <=? zlen t1) && (zlen t1 <? 64) && ((zlen t1 <=? 15) || bool_decide (same_name ds [[108; 111; 99; 97; 108]])) &&
  protocol_text t1 && bool_decide (lower_label t2 ∈ [[95; 117; 100; 112]; [95; 116; 99; 112]]).

(** The domains it accepts. *)
Definition domain_ok (ds : list label) : bool :=
  negb (bool_decide (ds = [])) && negb (bool_decide (same_name ds [[108; 111; 99; 97; 108]; [97; 114; 112; 97]])).

(** ** Construction concatenates the parts *)
Lemma copy_label src s dst d l : holds src s (encode_label l) → 0 ≤ d → d + (zlen l + 1) ≤ zlen dst →
  copy (zlen l + 1) src s dst d = Ret (write dst d (encode_label l)).
Proof.
  intros Hs Hd Hl. replace (zlen l + 1) with (zlen (encode_label l)) in * by (rewrite zlen_encode_label; lia).
  by apply copy_write.
Qed.

Lemma protocol_chars_spec type src len cs : ∀ i, holds type (src + i) cs → 
  protocol_chars (length cs) type src len i = Ret (forallb (fun '(i, c) =>
      mdnsIsLetter c || mdnsIsDigit c || ((c =? 45) || (c =? 95)) && (2 <? i) && (i <? len))
      (zip (seqZ i (zlen cs)) cs)).
Proof.
  induction cs as [|c cs IH]; intros i Hh; [done|]. apply holds_cons in Hh as [Hc Hh].
  cbn [length protocol_chars]. rewrite (proj2 (aget_at _ _ _) Hc). cbn [obind].
  rewrite zlen_cons, seqZ_cons by (pose proof (zlen_nonneg cs); lia).
  replace (Z.succ i) with (i + 1) by lia. replace (Z.pred (1 + zlen cs)) with (zlen cs) by lia.
  cbn [zip zip_with forallb]. replace (src + i + 1) with (src + (i + 1)) in Hh by lia. rewrite (IH (i + 1) Hh).
  by destruct (mdnsIsLetter c || mdnsIsDigit c), ((c =? 45) || (c =? 95)), (2 <? i), (i <? len).
Qed.

(** The case-insensitive test of two letters through [| 0x20]. *)
Lemma or_lower b k : is_u8 b → k ∈ [117; 116; 100; 99; 112] → (Z.lor b 0x20 =? k) = (to_lower b =? k).
Proof.
  intros Hb Hk. apply eqb_prop.
  apply (byte_forall (fun b => forallb (fun k => eqb (Z.lor b 32 =? k) (to_lower b =? k)) [117; 116; 100; 99; 112])) in Hb;
    [|by vm_compute].
  rewrite forallb_forall in Hb. by apply Hb, list_elem_of_In.
Qed.

Lemma transport_test a b c d : bool_decide (lower_label [a; b; c; d] ∈ [[95; 117; 100; 112]; [95; 116; 99; 112]]) =
  (a =? 95) && ((to_lower b =? 117) && (to_lower c =? 100) || (to_lower b =? 116) && (to_lower c =? 99)) &&
  (to_lower d =? 112).
Proof.
  assert (to_lower a = 95 ↔ a = 95) as Ha by (unfold to_lower, mDNSIsUpperCase; tests; lia).
  apply eq_bool_prop_intro. rewrite bool_decide_spec, Is_true_true, !andb_true_iff, orb_true_iff, !andb_true_iff, !Z.eqb_eq.
  unfold lower_label. simpl. rewrite !elem_of_cons, elem_of_nil, <- Ha. split.
  - intros [[= -> -> -> ->]|[[= -> -> -> ->]|[]]]; tauto.
  - intros [[-> [[-> ->]|[-> ->]]] ->]; tauto.
Qed.

Lemma ValidTransportProtocol_spec d x t : holds d x (encode_label t) → bytes_ok t →
  ValidTransportProtocol d x = Ret (bool_decide (lower_label t ∈ [[95; 117; 100; 112]; [95; 116; 99; 112]])).
Proof.
  intros [H0 Ht]%holds_cons Hb. unfold ValidTransportProtocol. rewrite (proj2 (aget_at _ _ _) H0). cbn [obind].
  destruct (Z.eqb_spec (zlen t) 4) as [Hlen|Hlen]; cbn [negb]; cycle 1.
  { f_equal. symmetry. apply bool_decide_eq_false_2. rewrite !elem_of_cons, elem_of_nil.
    intros [H%(f_equal length)|[H%(f_equal length)|[]]];
      unfold zlen, lower_label in *; rewrite length_map in H; simpl in H; lia. }
  destruct t as [|a [|b [|c [|d' [|? ?]]]]]; try (unfold zlen in Hlen; simpl in Hlen; lia).
  rewrite transport_test. apply holds_cons in Ht as [Ha [Hb' [Hc [Hd _]%holds_cons]%holds_cons]%holds_cons].
  apply Forall_cons in Hb as [_ [Hb8 [Hc8 [Hd8 _]%Forall_cons]%Forall_cons]%Forall_cons].
  replace (x + 1 + 1) with (x + 2) in * by lia. replace (x + 2 + 1) with (x + 3) in * by lia.
  replace (x + 3 + 1) with (x + 4) in * by lia.
  rewrite (proj2 (aget_at _ _ _) Ha). cbn [obind]. destruct (a =? 95); cbn [negb andb]; [|done].
  rewrite (proj2 (aget_at _ _ _) Hb'). cbn [obind].
  rewrite !(or_lower b) by (done || set_solver).
  destruct (Z.eqb_spec (to_lower b) 117) as [E|E], (Z.eqb_spec (to_lower b) 116) as [E'|E']; try lia; cbn [orb negb andb];
    try done; rewrite (proj2 (aget_at _ _ _) Hc); cbn [obind]; rewrite (or_lower c) by (done || set_solver);
    [destruct (to_lower c =? 100)|destruct (to_lower c =? 99)]; cbn [negb andb orb]; try done;
    rewrite (proj2 (aget_at _ _ _) Hd); cbn [obind]; by rewrite (or_lower d') by (done || set_solver).
Qed.

(** The protocol part of the construction, from the type at [src] on. *)
Section Construct.
Context (tp dm : list Z) (t1 t2 : label) (ds : list label).
Hypothesis Htype : is_name tp [t1; t2].
Hypothesis Ht1 : label_ok t1.
Hypothesis Ht2 : label_ok t2.
Hypothesis Hdomain : is_name dm ds.
Hypothesis Hds : name_ok ds.

Lemma local_same : SameDomainName dm localdomain = Ret (bool_decide (same_name ds [[108; 111; 99; 97; 108]])).
Proof.
  apply SameDomainName_spec; [done|by apply labels_okb_ok|done|exact (is_name_encode [[108; 111; 99; 97; 108]])].
Qed.
Lemma local_arpa_same :
  SameDomainName dm local_arpa = Ret (bool_decide (same_name ds [[108; 111; 99; 97; 108]; [97; 114; 112; 97]])).
Proof.
  apply SameDomainName_spec; [done|by apply labels_okb_ok|done|].
  exact (is_name_encode [[108; 111; 99; 97; 108]; [97; 114; 112; 97]]).
Qed.

Lemma long_type_test : (if 15 <? zlen t1 then let* same := SameDomainName dm localdomain in Ret (negb same) else Ret false) =
  Ret (negb ((zlen t1 <=? 15) || bool_decide (same_name ds [[108; 111; 99; 97; 108]]))).
Proof. rewrite local_same, Z.ltb_antisym. by destruct (zlen t1 <=? 15). Qed.

Lemma protocol_text_test {B} (yes no : outcome B) : 1 ≤ zlen t1 →
  (let* c1 := aget tp (0 + 1) in
   if negb (c1 =? 95) then no else
   let* ok := protocol_chars (Z.to_nat (zlen t1 - 1)) tp 0 (zlen t1) 2 in
   if negb ok then no else yes) = if protocol_text t1 then yes else no.
Proof.
  intros H1. pose proof Htype as (_ & Ht & _)%holds_encode_cons. destruct t1 as [|u cs]; [done|].
  apply holds_cons in Ht as [Hu Hcs]. rewrite (proj2 (aget_at _ _ _) Hu). cbn [obind protocol_text].
  destruct (u =? 95); cbn [negb andb]; [|done].
  replace (Z.to_nat (zlen (u :: cs) - 1)) with (length cs) by (unfold zlen; simpl; lia).
  rewrite (protocol_chars_spec tp 0 (zlen (u :: cs)) cs) by done. cbn [obind]. by destruct (forallb _ _).
Qed.

(** The transport label, the end of the type and the domain. *)
Lemma construct_tail fqdn n : 256 ≤ zlen fqdn → label_ok n → 
  let f2 := write fqdn 0 (encode_label n ++ encode_label t1) in
  let dst := zlen (encode_label n) + (zlen t1 + 1) in
  ∃ fqdn' r, (
    let* fqdn := copy (zlen t2 + 1) tp (0 + (zlen t1 + 1)) f2 dst in
    let* c := aget tp (0 + (zlen t1 + 1) + (zlen t2 + 1)) in
    if negb (c =? 0) then Ret (fqdn, None) else
    let* fqdn := aset fqdn (dst + (zlen t2 + 1)) 0 in
    let* d0 := aget dm 0 in
    if d0 =? 0 then Ret (fqdn, None) else
    let* same := SameDomainName dm local_arpa in
    if same : bool then Ret (fqdn, None) else AppendDomainName fqdn dm) = Ret (fqdn', r) ∧ zlen fqdn' = zlen fqdn ∧
    if domain_ok ds && (zlen (encode (n :: t1 :: t2 :: ds)) <=? 255)
    then r = Some (zlen (encode (n :: t1 :: t2 :: ds)) - 1) ∧ is_name fqdn' (n :: t1 :: t2 :: ds)
    else r = None.
Proof.
  intros Hf Hn f2 dst. pose proof Hn as [[Hn1 Hn2] _]. pose proof Ht1 as [[Ht11 Ht12] _]. pose proof Ht2 as [[Ht21 Ht22] _].
  unfold MAX_DOMAIN_LABEL in *. pose proof (zlen_encode_label n). pose proof (zlen_encode_label t1). pose proof (zlen_encode_label t2).
  pose proof (name_next _ _ _ _ Htype) as Ht. replace (0 + 1 + zlen t1) with (0 + (zlen t1 + 1)) in Ht by lia.
  pose proof (name_next _ _ _ _ Ht) as Hend.
  replace (0 + (zlen t1 + 1) + 1 + zlen t2) with (0 + (zlen t1 + 1) + (zlen t2 + 1)) in Hend by lia.
  assert (zlen f2 = zlen fqdn) as Hz2 by (apply zlen_write; rewrite ?zlen_app; lia).
  rewrite (copy_label _ _ _ _ t2) by (lia || by apply (encode_first _ _ _ Ht)). cbn [obind].
  rewrite (name_get_nil _ _ Hend). cbn [obind Z.eqb negb].
  assert (write f2 dst (encode_label t2) = write fqdn 0 (encode_labels [n; t1; t2])) as ->.
  { unfold f2, dst. replace (zlen (encode_label n) + (zlen t1 + 1)) with (0 + zlen (encode_label n ++ encode_label t1))
      by (rewrite zlen_app; lia). rewrite write_app by (rewrite ?zlen_app; lia).
    unfold encode_labels. simpl. by rewrite app_nil_r, <- !app_assoc. }
  assert (zlen (encode_labels [n; t1; t2]) = dst + (zlen t2 + 1)) as Hd.
  { unfold dst. rewrite !zlen_encode_labels_cons. change (zlen (encode_labels [])) with 0. lia. }
  rewrite aset_app by lia. cbn [obind]. fold (encode [n; t1; t2]).
  assert (zlen (encode [n; t1; t2]) = dst + (zlen t2 + 1) + 1) as Hd' by (rewrite zlen_encode; lia).
  set (f3 := write fqdn 0 (encode [n; t1; t2])). assert (zlen f3 = zlen fqdn) as Hz3 by (apply zlen_write; lia).
  rewrite local_arpa_same. unfold domain_ok. destruct (encode_head dm 0 ds (proj1 Hds) Hdomain) as (d0 & Hd0 & Hdz & _).
  rewrite (proj2 (aget_at _ _ _) Hd0). cbn [obind]. destruct (Z.eqb_spec d0 0) as [He|He].
  { rewrite (bool_decide_eq_true_2 (ds = [])) by by apply Hdz. by exists f3, None. }
  rewrite (bool_decide_eq_false_2 (ds = [])) by (intros Hnil; by apply He, Hdz). cbn [negb andb].
  case_bool_decide; [by exists f3, None|]. cbn [negb andb].
  destruct (AppendDomainName_spec f3 dm [n; t1; t2] ds) as (fqdn' & r & -> & [Hz _] & Hr);
    [split; [by rewrite !Forall_cons, Forall_nil|unfold MAX_DOMAIN_NAME, dst in *; lia]|apply write_holds; lia|lia|apply Hds|done|].
  exists fqdn', r. split; [done|]. split; [lia|]. simpl app in Hr. by destruct (_ <=? 255); [|destruct Hr].
Qed.

Lemma ConstructServiceName_spec fqdn nm n : 256 ≤ zlen fqdn → holds nm 0 (encode_label n) → label_ok n →
  ∃ fqdn' r, ConstructServiceName fqdn (Some nm) (Some tp) dm = Ret (fqdn', r) ∧ zlen fqdn' = zlen fqdn ∧
    if protocol_ok t1 t2 ds && domain_ok ds && (zlen (encode (n :: t1 :: t2 :: ds)) <=? 255)
    then r = Some (zlen (encode (n :: t1 :: t2 :: ds)) - 1) ∧ is_name fqdn' (n :: t1 :: t2 :: ds)
    else r = None.
Proof.
  intros Hf Hnm Hn. pose proof Hn as [[Hn1 Hn2] _]. pose proof Ht1 as [[Ht11 Ht12] Htb1]. pose proof Ht2 as [[Ht21 Ht22] Htb2].
  unfold MAX_DOMAIN_LABEL in *. unfold ConstructServiceName, protocol_ok. cbn [obind].
  assert (aget nm 0 = Ret (zlen n)) as -> by (pose proof Hnm as [H _]%holds_cons; by apply aget_at).
  cbn [obind]. rewrite (proj1 (label_nonzero n Hn)), (proj2 (Z.leb_gt _ _)) by lia.
  rewrite (copy_label _ _ _ _ n) by (done || lia). cbn [obind negb].
  pose proof (zlen_encode_label n) as Hen. pose proof (zlen_encode_label t1) as He1. pose proof (zlen_encode_label t2) as He2.
  set (f1 := write fqdn 0 (encode_label n)). assert (zlen f1 = zlen fqdn) as Hz1 by (apply zlen_write; lia).
  rewrite (name_get_cons _ _ _ _ Htype). cbn [obind].
  rewrite (proj2 (Z.leb_gt 64 (zlen t1))), (proj2 (Z.ltb_lt (zlen t1) 64)), orb_false_r, andb_true_r by lia.
  destruct (Z.ltb_spec (zlen t1) 2) as [Hlt|Hge].
  { rewrite (proj2 (Z.leb_gt _ _)) by lia. by exists f1, None. }
  rewrite (proj2 (Z.leb_le 2 _)) by lia. cbn [andb].
  rewrite long_type_test. cbn [obind].
  destruct ((zlen t1 <=? 15) || bool_decide (same_name ds [[108; 111; 99; 97; 108]])); cbn [negb andb]; [|by exists f1, None].
  rewrite protocol_text_test by done. destruct (protocol_text t1); cbn [andb]; [|by exists f1, None].
  rewrite (copy_label _ _ _ _ t1) by (lia || by apply (encode_first _ _ _ Htype)). cbn [obind].
  replace (0 + (zlen n + 1)) with (zlen (encode_label n)) by lia.
  assert (write f1 (zlen (encode_label n)) (encode_label t1) = write fqdn 0 (encode_label n ++ encode_label t1)) as ->.
  { rewrite <- write_app by lia. by rewrite Z.add_0_l. }
  set (f2 := write fqdn 0 (encode_label n ++ encode_label t1)).
  assert (zlen (encode_label n ++ encode_label t1) = 2 + zlen n + zlen t1) as He12 by (rewrite zlen_app; lia).
  assert (zlen f2 = zlen fqdn) as Hz2 by (apply zlen_write; lia).
  pose proof (name_next _ _ _ _ Htype) as Ht. replace (0 + 1 + zlen t1) with (0 + (zlen t1 + 1)) in Ht by lia.
  rewrite (name_get_cons _ _ _ _ Ht). cbn [obind].
  rewrite (ValidTransportProtocol_spec _ _ t2) by (done || by apply (encode_first _ _ _ Ht)). cbn [obind].
  destruct (bool_decide (lower_label t2 ∈ _)); cbn [negb andb]; [|by exists f2, None].
  by apply construct_tail.
Qed.
End Construct.

(** ** Deconstruction splits the name *)
Lemma Deconstruct_domain_spec fqdn ls : ∀ fuel src domain dst, Forall label_ok ls → holds fqdn src (encode ls) →
  src + zlen (encode ls) < MAX_DOMAIN_NAME → 0 ≤ dst → dst + zlen (encode ls) ≤ zlen domain → (length ls < fuel)%nat →
  Deconstruct_domain fuel fqdn src MAX_DOMAIN_NAME domain dst = Ret (write domain dst (encode ls), true).
Proof.
  unfold MAX_DOMAIN_NAME. induction ls as [|l ls IH]; intros [|fuel] src domain dst Hok Hh Hlen Hd Hfit Hf; simpl in Hf;
    try lia; cbn [Deconstruct_domain].
  - rewrite (name_get_nil _ _ Hh). cbn [obind Z.eqb]. change (zlen (encode [])) with 1 in *. by rewrite aset_write by lia.
  - apply Forall_cons in Hok as [Hl Hok]. rewrite (name_get_cons _ _ _ _ Hh). cbn [obind].
    rewrite (proj1 (label_nonzero l Hl)). destruct Hl as [[_ Hl] _]. unfold MAX_DOMAIN_LABEL in Hl.
    rewrite zlen_encode_cons in *. pose proof (zlen_encode_pos ls). pose proof (zlen_nonneg l). pose proof (zlen_encode_label l).
    rewrite !(proj2 (Z.leb_gt _ _)) by lia. rewrite (copy_label _ _ _ _ l) by (lia || by apply (encode_first _ _ _ Hh)).
    cbn [obind]. apply name_next in Hh. replace (src + 1 + zlen l) with (src + (zlen l + 1)) in Hh by lia.
    rewrite IH; [|done|done|lia|lia|rewrite zlen_write; lia|lia].
    replace (dst + (zlen l + 1)) with (dst + zlen (encode_label l)) by lia. rewrite write_app by lia. by rewrite encode_cons.
Qed.

(** A name one byte longer, the longest legal one, is refused. *)
Lemma Deconstruct_domain_full fqdn ls : ∀ fuel src domain dst, Forall label_ok ls → ls ≠ [] → holds fqdn src (encode ls) →
  src + zlen (encode ls) = MAX_DOMAIN_NAME → 0 ≤ dst → dst + zlen (encode ls) ≤ zlen domain → (length ls < fuel)%nat →
  ∃ domain', Deconstruct_domain fuel fqdn src MAX_DOMAIN_NAME domain dst = Ret (domain', false).
Proof.
  unfold MAX_DOMAIN_NAME. induction ls as [|l ls IH]; intros [|fuel] src domain dst Hok Hne Hh Hlen Hd Hfit Hf; simpl in Hf;
    try lia; [done|]. cbn [Deconstruct_domain].
  apply Forall_cons in Hok as [Hl Hok]. rewrite (name_get_cons _ _ _ _ Hh). cbn [obind].
  rewrite (proj1 (label_nonzero l Hl)). destruct Hl as [[_ Hl] _]. unfold MAX_DOMAIN_LABEL in Hl.
  rewrite zlen_encode_cons in *. pose proof (zlen_encode_pos ls). pose proof (zlen_nonneg l). pose proof (zlen_encode_label l).
  rewrite (proj2 (Z.leb_gt 64 _)) by lia. destruct (Z.leb_spec 255 (src + 1 + zlen l + 1)); [by eauto|].
  rewrite (copy_label _ _ _ _ l) by (lia || by apply (encode_first _ _ _ Hh)). cbn [obind].
  apply name_next in Hh. replace (src + 1 + zlen l) with (src + (zlen l + 1)) in Hh by lia.
  apply IH; try done; try lia; [|rewrite zlen_write; lia].
  intros ->. change (zlen (encode [])) with 1 in *. lia.
Qed.

Section Deconstruct.
Context (fqdn name type domain : list Z) (n t1 t2 : label) (ds : list label).
Hypothesis Hn : label_ok n.
Hypothesis Ht1 : label_ok t1.
Hypothesis Ht2 : label_ok t2.
Hypothesis Hu : head t1 = Some 95.
Hypothesis Hfqdn : is_name fqdn (n :: t1 :: t2 :: ds).
Hypothesis Hname : 64 ≤ zlen name.
Hypothesis Htype : 256 ≤ zlen type.

(** The instance and protocol labels, and what is left to the domain loop. *)
Lemma DeconstructServiceName_labels : ∃ src, src = zlen (encode_labels [n; t1; t2]) ∧ holds fqdn src (encode ds) ∧
  DeconstructServiceName fqdn name type domain =
    (let* '(domain, ok) := Deconstruct_domain (S (length fqdn)) fqdn src MAX_DOMAIN_NAME domain 0 in
     Ret (write name 0 (encode_label n), write type 0 (encode [t1; t2]), domain, ok)).
Proof.
  pose proof Hn as [[Hn1 Hn2] _]. pose proof Ht1 as [[Ht11 Ht12] _]. pose proof Ht2 as [[Ht21 Ht22] _].
  unfold MAX_DOMAIN_LABEL in *. pose proof (zlen_encode_label n). pose proof (zlen_encode_label t1). pose proof (zlen_encode_label t2).
  pose proof (name_next _ _ _ _ Hfqdn) as Hh1. replace (0 + 1 + zlen n) with (zlen n + 1) in Hh1 by lia.
  pose proof (name_next _ _ _ _ Hh1) as Hh2. replace (zlen n + 1 + 1 + zlen t1) with (zlen n + 1 + (zlen t1 + 1)) in Hh2 by lia.
  pose proof (name_next _ _ _ _ Hh2) as Hh3.
  replace (zlen n + 1 + (zlen t1 + 1) + 1 + zlen t2) with (zlen n + 1 + (zlen t1 + 1) + (zlen t2 + 1)) in Hh3 by lia.
  eexists. split_and!; [|exact Hh3|].
  { rewrite !zlen_encode_labels_cons. change (zlen (encode_labels [])) with 0. lia. }
  unfold DeconstructServiceName. rewrite (name_get_cons _ _ _ _ Hfqdn). cbn [obind].
  rewrite (proj1 (label_nonzero n Hn)), (proj2 (Z.leb_gt _ _)) by lia.
  rewrite (copy_label _ _ _ _ n) by (lia || by apply (encode_first _ _ _ Hfqdn)). cbn [obind].
  rewrite (name_get_cons _ _ _ _ Hh1). cbn [obind]. rewrite (proj1 (label_nonzero t1 Ht1)), (proj2 (Z.leb_gt _ _)) by lia.
  assert (aget fqdn (zlen n + 1 + 1) = Ret 95) as ->.
  { apply holds_encode_cons in Hh1 as (_ & Hh1 & _). destruct t1 as [|u cs]; [done|]. injection Hu as ->.
    apply holds_cons in Hh1 as [Hh1 _]. by apply aget_at. }
  cbn [obind Z.eqb Pos.eqb negb]. rewrite (copy_label _ _ _ _ t1) by (lia || by apply (encode_first _ _ _ Hh1)). cbn [obind].
  rewrite (name_get_cons _ _ _ _ Hh2). cbn [obind]. rewrite (proj1 (label_nonzero t2 Ht2)).
  assert (zlen (write type 0 (encode_label t1)) = zlen type) as Hz by (apply zlen_write; lia).
  rewrite (copy_label _ _ _ _ t2) by (lia || by apply (encode_first _ _ _ Hh2)). cbn [obind].
  replace (zlen t1 + 1) with (0 + zlen (encode_label t1)) at 1 by lia. rewrite write_app by lia.
  rewrite aset_app by (rewrite ?zlen_app; lia). cbn [obind].
  replace ((encode_label t1 ++ encode_label t2) ++ [0]) with (encode [t1; t2]); [done|].
  unfold encode, encode_labels. simpl. by rewrite app_nil_r, <- !app_assoc.
Qed.

Lemma DeconstructServiceName_spec : Forall label_ok ds → 256 ≤ zlen domain →
  zlen (encode (n :: t1 :: t2 :: ds)) < MAX_DOMAIN_NAME →
  DeconstructServiceName fqdn name type domain =
    Ret (write name 0 (encode_label n), write type 0 (encode [t1; t2]), write domain 0 (encode ds), true).
Proof.
  intros Hds Hd Hlen. destruct DeconstructServiceName_labels as (src & -> & Hh & ->).
  change (n :: t1 :: t2 :: ds) with ([n; t1; t2] ++ ds) in Hlen. rewrite encode_app, zlen_app in Hlen.
  unfold MAX_DOMAIN_NAME in Hlen. pose proof (zlen_nonneg (encode_labels [n; t1; t2])). pose proof (labels_le_bytes ds).
  pose proof (holds_range _ _ _ Hh). rewrite Deconstruct_domain_spec with (ls := ds);
    [done|done|done|done|lia|lia|unfold zlen in *; lia].
Qed.

Lemma DeconstructServiceName_full : Forall label_ok ds → 256 ≤ zlen domain →
  zlen (encode (n :: t1 :: t2 :: ds)) = MAX_DOMAIN_NAME →
  ∃ domain', DeconstructServiceName fqdn name type domain =
    Ret (write name 0 (encode_label n), write type 0 (encode [t1; t2]), domain', false).
Proof.
  intros Hds Hd Hlen. destruct DeconstructServiceName_labels as (src & -> & Hh & ->).
  pose proof Hn as [[_ Hn2] _]. pose proof Ht1 as [[_ Ht12] _]. pose proof Ht2 as [[_ Ht22] _]. unfold MAX_DOMAIN_LABEL in *.
  change (n :: t1 :: t2 :: ds) with ([n; t1; t2] ++ ds) in Hlen. rewrite encode_app, zlen_app in Hlen.
  pose proof (zlen_nonneg (encode_labels [n; t1; t2])). pose proof (labels_le_bytes ds). pose proof (holds_range _ _ _ Hh).
  destruct (Deconstruct_domain_full fqdn ds (S (length fqdn)) (zlen (encode_labels [n; t1; t2])) domain 0) as [d' ->];
    [done| |done|lia|lia|unfold MAX_DOMAIN_NAME in *; lia|unfold zlen in *; lia|by exists d'].
  intros ->. rewrite !zlen_encode_labels_cons in Hlen. change (zlen (encode_labels [])) with 0 in Hlen.
  change (zlen (encode [])) with 1 in Hlen. unfold MAX_DOMAIN_NAME in Hlen. lia.
Qed.
End Deconstruct.

(** ** Host labels: letters, digits and interior hyphens *)
Definition hostchar (c : Z) : bool := mdnsIsLetter c || mdnsIsDigit c || (c =? 45).
Definition host_text (l : label) : Prop :=
  Forall (fun c => hostchar c = true) l ∧ head l ≠ Some 45 ∧ zlen l ≤ MAX_DOMAIN_LABEL.

(** The loop of the conversion: [l] is the text stored so far. *)
Definition host_inv (h : list Z) (l : label) (ptr : Z) : Prop :=
  holds h 1 l ∧ ptr = 1 + zlen l ∧ host_text l ∧ 64 ≤ zlen h.

Lemma host_inv_put h l ptr c : host_inv h l ptr → hostchar c = true → (c = 45 → l ≠ []) → zlen l < 63 →
  aset h ptr c = Ret (write h ptr [c]) ∧ host_inv (write h ptr [c]) (l ++ [c]) (ptr + 1).
Proof.
  intros (Hh & -> & (Hf & Hhd & _) & Hz) Hc H45 Hlen. pose proof (zlen_nonneg l).
  split; [by rewrite aset_write by lia|]. assert (1 + zlen l + zlen [c] ≤ zlen h) by (change (zlen [c]) with 1; lia).
  split_and!.
  - apply holds_app. split; [apply holds_write_other; try done; lia|apply write_holds; lia].
  - rewrite zlen_app. change (zlen [c]) with 1. lia.
  - unfold host_text, MAX_DOMAIN_LABEL. rewrite zlen_app. change (zlen [c]) with 1. split_and!; [|destruct l; simpl in *; naive_solver|lia].
    apply Forall_app. by split; [|constructor].
  - by rewrite zlen_write by lia.
Qed.

Lemma ConvertUTF8_loop_spec u e : bytes_ok u → e ≤ zlen u → ∀ fuel src h l ptr,
  1 ≤ src → Z.max 0 (e - src) < Z.of_nat fuel → host_inv h l ptr →
  safe (ConvertUTF8_loop fuel u src e h ptr (1 + MAX_DOMAIN_LABEL))
    (fun '(h', ptr') => zlen h' = zlen h ∧ ∃ l', host_inv h' l' ptr').
Proof.
  intros Hu He. induction fuel as [|fuel IH]; intros src h l ptr Hs Hf Hinv; [lia|]. cbn [ConvertUTF8_loop].
  destruct (Z.ltb_spec src e) as [Hlt|]; cbn [negb]; [|by simpl; eauto].
  destruct (at_exists u src) as [c Hc]; [lia|]. rewrite (proj2 (aget_at _ _ _) Hc). cbn [obind].
  destruct (c =? 39); [by eapply IH; [lia|lia|]|].
  assert (∃ b, (if (src + 2 <? e) && (c =? 226) then
      let* c1 := aget u (src + 1) in if negb (c1 =? 128) then Ret false else
      let* c2 := aget u (src + 2) in Ret (c2 =? 153) else Ret false) = Ret b) as [b ->].
  { destruct (Z.ltb_spec (src + 2) e); cbn [andb]; [|by eauto]. destruct (c =? 226); [|by eauto].
    destruct (at_exists u (src + 1)) as [c1 Hc1]; [lia|]. rewrite (proj2 (aget_at _ _ _) Hc1). cbn [obind].
    destruct (negb (c1 =? 128)); [by eauto|].
    destruct (at_exists u (src + 2)) as [c2 Hc2]; [lia|]. rewrite (proj2 (aget_at _ _ _) Hc2). cbn [obind]. by eauto. }
  cbn [obind]. destruct b; [by eapply IH; [lia|lia|]|].
  pose proof Hinv as (Hh & Hptr & Hl & Hz). unfold MAX_DOMAIN_LABEL.
  assert (∀ h' l' ptr', zlen h' = zlen h → host_inv h' l' ptr' →
    safe (ConvertUTF8_loop fuel u (src + 1) e h' ptr' (1 + 63)) (fun '(h', ptr') => zlen h' = zlen h ∧ ∃ l', host_inv h' l' ptr')) as Hgo.
  { intros h' l' ptr' Hz' Hi'. eapply wp_mono; [eapply IH; [lia|lia|exact Hi']|intros [h2 p2] [? ?]; split; [congruence|done]|done]. }
  pose proof (zlen_nonneg l).
  assert ((1 <? ptr) = true ↔ l ≠ []) as Hne.
  { rewrite Z.ltb_lt, Hptr. destruct l; [split; [change (zlen []) with 0; lia|done]|].
    rewrite zlen_cons. pose proof (zlen_nonneg l). split; [done|lia]. }
  destruct (Z.ltb_spec ptr (1 + 63)) as [Hroom|]; [|by apply (Hgo h l ptr)].
  destruct (mdnsValidHostChar c (1 <? ptr) (src <? e - 1)) eqn:Hv.
  - destruct (host_inv_put h l ptr c Hinv) as [-> Hi]; [|intros ->|lia|].
    + unfold mdnsValidHostChar, hostchar in *. destruct (mdnsIsLetter c || mdnsIsDigit c); [done|]. by destruct (c =? 45), (1 <? ptr), (src <? e - 1).
    + apply Hne. by destruct (1 <? ptr), (src <? e - 1).
    + cbn [obind]. refine (Hgo _ _ _ _ Hi). apply zlen_write; [lia|change (zlen [c]) with 1; lia].
  - destruct (1 <? ptr) eqn:H1; [|by apply (Hgo h l ptr)].
    destruct (at_exists h (ptr - 1)) as [p Hp]; [lia|]. rewrite (proj2 (aget_at _ _ _) Hp). cbn [obind].
    destruct (p =? 45); cbn [negb]; [by apply (Hgo h l ptr)|].
    destruct (host_inv_put h l ptr 45 Hinv) as [-> Hi]; [done|by intros _; apply Hne|lia|].
    cbn [obind]. refine (Hgo _ _ _ _ Hi). apply zlen_write; [lia|change (zlen [45]) with 1; lia].
Qed.

Lemma strip_hyphens_spec h l : holds h 1 l → host_text l → ∀ fuel, (length l < fuel)%nat →
  ∃ l', strip_hyphens fuel h (1 + zlen l) = Ret (1 + zlen l') ∧ holds h 1 l' ∧ host_text l' ∧ last l' ≠ Some 45.
Proof.
  induction l as [|c l IH] using rev_ind; intros Hh (Hf & Hhd & Hl) [|fuel] Hfuel; simpl in Hfuel; try lia; cbn [strip_hyphens].
  - exists []. by split.
  - rewrite length_app in Hfuel. simpl in Hfuel. apply holds_app in Hh as [Hh Hc%holds_cons]. pose proof (zlen_nonneg l).
    rewrite zlen_app in *. change (zlen [c]) with 1 in *. rewrite (proj2 (Z.ltb_lt _ _)) by lia. cbn [negb].
    replace (1 + (zlen l + 1) - 1) with (1 + zlen l) by lia. rewrite (proj2 (aget_at _ _ _) (proj1 Hc)). cbn [obind].
    destruct (Z.eqb_spec c 45) as [->|Hne].
    + apply IH; [done| |lia]. apply Forall_app in Hf as [Hf _]. split; [done|]. split; [by destruct l|].
      unfold MAX_DOMAIN_LABEL in *. lia.
    + exists (l ++ [c]). rewrite zlen_app. change (zlen [c]) with 1. split; [done|].
      split; [apply holds_app; split; [done|by apply holds_cons]|]. split; [split; [done|split; [done|]]; rewrite zlen_app; done|].
      rewrite last_snoc. congruence.
Qed.

Lemma ConvertUTF8_spec u h n : bytes_ok u → at_ u 0 n → 1 + n ≤ zlen u → 64 ≤ zlen h →
  ∃ h' l, ConvertUTF8PstringToRFC1034HostLabel u h = Ret h' ∧ zlen h' = zlen h ∧
    holds h' 0 (encode_label l) ∧ host_text l ∧ last l ≠ Some 45.
Proof.
  intros Hu Hn Hlen Hh. unfold ConvertUTF8PstringToRFC1034HostLabel. rewrite (proj2 (aget_at _ _ _) Hn). cbn [obind].
  assert (host_inv h [] 1) as H0.
  { split; [apply holds_nil; lia|]. split; [done|]. split; [|done]. by split. }
  destruct (safe_elim _ _ (ConvertUTF8_loop_spec u (1 + n) Hu Hlen (S (length u)) 1 h [] 1 ltac:(lia) ltac:(unfold zlen in *; lia) H0))
    as ([h1 ptr] & -> & Hz & l1 & Hh1 & -> & Ht1 & Hz1).
  cbn [obind]. destruct (strip_hyphens_spec h1 l1 Hh1 Ht1 (S (length h1))) as (l & -> & Hh2 & Ht & Hlast).
  { apply holds_range in Hh1. unfold zlen in *. lia. }
  cbn [obind]. pose proof Ht as (_ & _ & H63). unfold MAX_DOMAIN_LABEL in H63. pose proof (zlen_nonneg l).
  replace (1 + zlen l - 1) with (zlen l) by lia. rewrite u8_id, aset_write by lia.
  exists (write h1 0 [zlen l]), l. split; [done|]. split; [rewrite zlen_write; [done|lia|change (zlen [zlen l]) with 1; lia]|].
  split; [|done]. apply holds_cons. split.
  - rewrite <- insert_write by lia. apply at_insert_eq. lia.
  - apply holds_write_other; [lia|change (zlen [zlen l]) with 1; lia|right; change (zlen [zlen l]) with 1; lia|done].
Qed.

(** ** Properties *)
Lemma protocol_ok_head t1 t2 ds : protocol_ok t1 t2 ds = true → head t1 = Some 95.
Proof.
  unfold protocol_ok, protocol_text. destruct t1 as [|u cs]; [by rewrite !andb_false_r, andb_false_l|].
  rewrite !andb_true_iff, Z.eqb_eq. intros [[_ [-> _]] _]. done.
Qed.

(** C29. Service names: from an instance label, a service type with acceptable
    protocol labels and an acceptable domain, [ConstructServiceName] makes the
    name that lists their labels, if it has at most 255 bytes, and returns NULL
    otherwise; [DeconstructServiceName] splits the constructed name into the
    same three parts, except that it refuses a name of exactly 255 bytes. *)
Theorem service_name_roundtrip fqdn nm tp dm name type domain n t1 t2 ds :
  256 ≤ zlen fqdn → holds nm 0 (encode_label n) → label_ok n → is_name tp [t1; t2] → label_ok t1 → label_ok t2 →
  is_name dm ds → name_ok ds → protocol_ok t1 t2 ds = true → domain_ok ds = true →
  64 ≤ zlen name → 256 ≤ zlen type → 256 ≤ zlen domain →
  let total := zlen (encode (n :: t1 :: t2 :: ds)) in
  ∃ fqdn' r, ConstructServiceName fqdn (Some nm) (Some tp) dm = Ret (fqdn', r) ∧
    if total <=? 255
    then r = Some (total - 1) ∧ is_name fqdn' (n :: t1 :: t2 :: ds) ∧
      ∃ domain', DeconstructServiceName fqdn' name type domain =
        Ret (write name 0 (encode_label n), write type 0 (encode [t1; t2]), domain', total <? 255) ∧
        (total < 255 → domain' = write domain 0 (encode ds))
    else r = None.
Proof.
  intros Hf Hnm Hn Htp Ht1 Ht2 Hdm Hds Hpr Hdo Hname Htype Hdomain total.
  destruct (ConstructServiceName_spec tp dm t1 t2 ds Htp Ht1 Ht2 Hdm Hds fqdn nm n Hf Hnm Hn) as (fqdn' & r & Hc & _ & Hr).
  rewrite Hpr, Hdo in Hr. cbn [andb] in Hr. fold total in Hr. exists fqdn', r. split; [done|].
  destruct (Z.leb_spec total 255) as [Hle|]; [|done]. destruct Hr as [-> His]. split; [done|]. split; [done|].
  pose proof (protocol_ok_head _ _ _ Hpr) as Hu. destruct (Z.ltb_spec total 255) as [Hlt|].
  - exists (write domain 0 (encode ds)). split; [|done]. by apply DeconstructServiceName_spec; [..|apply Hds| |].
  - destruct (DeconstructServiceName_full fqdn' name type domain n t1 t2 ds) as (d & Hd); try done; [apply Hds|unfold MAX_DOMAIN_NAME, total in *; lia|].
    exists d. split; [done|lia].
Qed.

(** "My Server._http._tcp.local" *)
Lemma service_name_roundtrip_witness :
  let n := [77; 121; 32; 83; 101; 114; 118; 101; 114] in
  let t1 := [95; 104; 116; 116; 112] in let t2 := [95; 116; 99; 112] in let ds := [[108; 111; 99; 97; 108]] in
  ∃ fqdn' domain', ConstructServiceName (replicate 256 0) (Some (encode_label n)) (Some (encode [t1; t2])) (encode ds) = Ret (fqdn', Some 27) ∧
    DeconstructServiceName fqdn' (replicate 64 0) (replicate 256 0) (replicate 256 0) =
      Ret (write (replicate 64 0) 0 (encode_label n), write (replicate 256 0) 0 (encode [t1; t2]), domain', true).
Proof.
  intros n t1 t2 ds.
  destruct (service_name_roundtrip (replicate 256 0) (encode_label n) (encode [t1; t2]) (encode ds) (replicate 64 0) (replicate 256 0)
    (replicate 256 0) n t1 t2 ds) as (fqdn' & r & Hc & Hr);
    [done|apply holds_all|split; [done|by apply bytes_okb_ok]|apply is_name_encode|split; [done|by apply bytes_okb_ok]
    |split; [done|by apply bytes_okb_ok]|apply is_name_encode|by apply name_okb_ok|by vm_compute|by vm_compute|done|done|done|].
  destruct Hr as (-> & _ & domain' & Hd & _). exists fqdn', domain'. split; [exact Hc|exact Hd].
Defined.
