(* ===== verification/DNSSuffix.v ===== *)
(** Numerical suffixes of labels, added when a name is already in use:
    [TruncateUTF8ToLength], [LabelContainsSuffix], [RemoveLabelSuffix],
    [AppendLabelSuffix] and [IncrementLabelSuffix] of [DNSCommon.c].

    A label is a buffer of 64 bytes, its length byte first.  A rich text
    suffix is a space and a number in parentheses, the other kind a hyphen
    and a number. *)
From S2P Require Import Prelude Bytes DNSTypes.

(** ** Truncation at a character boundary.  [str] is the memory from the
    [string] pointer on. *)
Fixpoint Truncate_back (fuel : nat) (str : list Z) (length c1 c2 : Z) : outcome Z :=
  match fuel with
  | O => Fault OutOfFuel
  | S fuel =>
    if negb (0 <? length) then Ret length else
    let continuation := Z.land c1 0xC0 =? 0x80 in
    let secondsurrogate := (c1 =? 0xED) && (Z.land c2 0xF0 =? 0xB0) in
    if negb continuation && negb secondsurrogate then Ret length else
    let* c := aget str (length - 1) in
    Truncate_back fuel str (length - 1) c c1
  end.
Fixpoint Truncate_space (fuel : nat) (str : list Z) (length : Z) : outcome Z :=
  match fuel with
  | O => Fault OutOfFuel
  | S fuel =>
    if negb (0 <? length) then Ret length else
    let* c := aget str (length - 1) in
    if c <=? 32 then Truncate_space fuel str (length - 1) else Ret length
  end.
Definition TruncateUTF8ToLength (str : list Z) (length max : Z) : outcome Z :=
  if max <? length then
    let* c1 := aget str max in
    let* c2 := (if max + 1 <? length then aget str (max + 1) else Ret 0xB0) in
    let* length := Truncate_back (S (Z.to_nat max)) str max c1 c2 in
    Truncate_space (S (Z.to_nat length)) str length
  else Ret length.

(** ** Recognising a suffix *)
Fixpoint strip_digits (fuel : nat) (name : list Z) (l : Z) : outcome Z :=
  match fuel with
  | O => Fault OutOfFuel
  | S fuel =>
    if negb (2 <? l) then Ret l else
    let* c := aget name l in
    if mdnsIsDigit c then strip_digits fuel name (l - 1) else Ret l
  end.
Definition LabelContainsSuffix (name : list Z) (RichText : bool) : outcome bool :=
  let* l := aget name 0 in
  if RichText then
    if l <? 4 then Ret false else
    let* c := aget name l in
    if negb (c =? 41) then Ret false else
    let l := l - 1 in
    let* c := aget name l in
    if negb (mdnsIsDigit c) then Ret false else
    let* l := strip_digits (S (Z.to_nat l)) name (l - 1) in
    let* c := aget name l in
    if negb (c =? 40) then Ret false else
    let* c := aget name (l - 1) in Ret (c =? 32)
  else
    if l <? 2 then Ret false else
    let* c := aget name l in
    if negb (mdnsIsDigit c) then Ret false else
    let* l := strip_digits (S (Z.to_nat l)) name (l - 1) in
    let* c := aget name l in Ret (c =? 45).

(** ** Removing a suffix.  The length byte is decremented in place. *)
Fixpoint Remove_digits (fuel : nat) (name : list Z) (val multiplier : Z) : outcome (list Z * Z) :=
  match fuel with
  | O => Fault OutOfFuel
  | S fuel =>
    let* l := aget name 0 in
    let* c := aget name l in
    if mdnsIsDigit c then
      let val := u32 (val + (c - 48) * multiplier) in
      let* name := aset name 0 (u8 (l - 1)) in
      Remove_digits fuel name val (u32 (multiplier * 10))
    else Ret (name, val)
  end.
Definition RemoveLabelSuffix (name : list Z) (RichText : bool) : outcome (list Z * Z) :=
  let* l := aget name 0 in
  let* name := (if RichText && (1 <=? l) then
                  let* c := aget name l in
                  if c =? 41 then aset name 0 (u8 (l - 1)) else Ret name
                else Ret name) in
  let* '(name, val) := Remove_digits (S (length name)) name 0 1 in
  let* l := aget name 0 in
  let* name :=
    (if RichText then
       if 2 <=? l then
         let* c := aget name l in
         if negb (c =? 40) then Ret name else
         let* c := aget name (l - 1) in
         if c =? 32 then aset name 0 (u8 (l - 2)) else Ret name
       else Ret name
     else
       if 1 <=? l then
         let* c := aget name l in
         if c =? 45 then aset name 0 (u8 (l - 1)) else Ret name
       else Ret name) in
  Ret (name, val).

(** ** Appending a suffix *)
Definition append_char (name : list Z) (c : Z) : outcome (list Z) :=
  let* l := aget name 0 in
  let l := u8 (l + 1) in
  let* name := aset name 0 l in
  aset name l c.
Fixpoint trim_spaces (fuel : nat) (name : list Z) : outcome (list Z) :=
  match fuel with
  | O => Fault OutOfFuel
  | S fuel =>
    let* l := aget name 0 in
    let* c := aget name l in
    if c =? 32 then let* name := aset name 0 (u8 (l - 1)) in trim_spaces fuel name else Ret name
  end.
Fixpoint suffix_size (fuel : nat) (val divisor chars : Z) : outcome (Z * Z) :=
  match fuel with
  | O => Fault OutOfFuel
  | S fuel =>
    if (divisor <? 429496729) && (u32 (divisor * 10) <=? val)
    then suffix_size fuel val (u32 (divisor * 10)) (chars + 1)
    else Ret (divisor, chars)
  end.
Fixpoint append_digits (fuel : nat) (name : list Z) (val divisor : Z) : outcome (list Z) :=
  match fuel with
  | O => Fault OutOfFuel
  | S fuel =>
    if divisor =? 0 then Ret name else
    let* name := append_char name (u8 (48 + val / divisor)) in
    append_digits fuel name (val mod divisor) (divisor / 10)
  end.
Definition AppendLabelSuffix (name : list Z) (val : Z) (RichText : bool) : outcome (list Z) :=
  let chars := if RichText then 4 else 2 in
  let* name := (if RichText then trim_spaces (S (length name)) name else Ret name) in
  let* '(divisor, chars) := suffix_size 11 val 1 chars in
  let* l := aget name 0 in
  let* l := TruncateUTF8ToLength (ptr_add name 1) l (MAX_DOMAIN_LABEL - chars) in
  let* name := aset name 0 (u8 l) in
  let* name := (if RichText then let* name := append_char name 32 in append_char name 40
                else append_char name 45) in
  let* name := append_digits 12 name val divisor in
  if RichText then append_char name 41 else Ret name.

(** [rnd] is the value of [mDNSRandom(99)]. *)
Definition IncrementLabelSuffix (name : list Z) (RichText : bool) (rnd : Z) : outcome (list Z) :=
  let* has := LabelContainsSuffix name RichText in
  let* '(name, val) := (if has : bool then RemoveLabelSuffix name RichText else Ret (name, 0)) in
  let val := if val =? 0 then 2 else if val <? 10 then u32 (val + 1) else u32 (val + (1 + rnd)) in
  AppendLabelSuffix name val RichText.

(** ** Labels in their buffer *)
Definition lab (name : list Z) (l : label) : Prop :=
  holds name 0 (encode_label l) ∧ 64 ≤ zlen name ∧ zlen l ≤ 63 ∧ bytes_ok l.

Lemma lab_length name l : lab name l → aget name 0 = Ret (zlen l).
Proof. intros ([H _]%holds_cons & _). by apply aget_at. Qed.
Lemma lab_text name l : lab name l → holds name 1 l.
Proof. by intros ([_ H]%holds_cons & _). Qed.
Lemma lab_get name l i c : lab name l → at_ l (i - 1) c → aget name i = Ret c.
Proof.
  intros H%lab_text Hc. apply aget_at. pose proof (holds_at _ _ _ _ _ H Hc) as Ha.
  by replace (1 + (i - 1)) with i in Ha by lia.
Qed.
Lemma lab_last name l c : lab name (l ++ [c]) → aget name (zlen (l ++ [c])) = Ret c.
Proof.
  intros H. rewrite zlen_app. change (zlen [c]) with 1. apply (lab_get name (l ++ [c])); [done|]. pose proof (zlen_nonneg l). split; [lia|].
  replace (Z.to_nat (zlen l + 1 - 1)) with (length l) by (unfold zlen; lia). by apply list_lookup_middle.
Qed.

Lemma lab_fuel name l : lab name l → (length l < length name)%nat.
Proof. intros (_ & ? & ? & _). unfold zlen in *. lia. Qed.

Lemma lab_shrink name l r : lab name (l ++ r) →
  ∃ name', aset name 0 (zlen l) = Ret name' ∧ lab name' l.
Proof.
  intros ([_ H]%holds_cons & Hz & Hl & Hb). rewrite zlen_app in Hl. pose proof (zlen_nonneg l). pose proof (zlen_nonneg r).
  apply Forall_app in Hb as [Hb _]. apply holds_app in H as [H _].
  rewrite aset_write by lia. eexists. split; [done|]. split; [|split; [|split; [lia|done]]].
  - apply holds_cons. split; [rewrite <- insert_write by lia; apply at_insert_eq; lia|].
    apply holds_write_other; [lia|change (zlen [zlen l]) with 1; lia|right; change (zlen [zlen l]) with 1; lia|done].
  - rewrite zlen_write; [done|lia|change (zlen [zlen l]) with 1; lia].
Qed.

(** Decrementing the length byte drops the last character. *)
Lemma lab_drop_last name l c : lab name (l ++ [c]) →
  ∃ name', aset name 0 (u8 (zlen (l ++ [c]) - 1)) = Ret name' ∧ lab name' l.
Proof.
  intros H. pose proof H as (_ & _ & Hl & _). pose proof (zlen_nonneg l). rewrite zlen_app in *. change (zlen [c]) with 1 in *.
  replace (zlen l + 1 - 1) with (zlen l) by lia. rewrite u8_id by lia. by apply (lab_shrink name l [c]).
Qed.

Lemma append_char_spec name l c : lab name l → zlen l < 63 → is_u8 c →
  ∃ name', append_char name c = Ret name' ∧ lab name' (l ++ [c]).
Proof.
  intros H Hl Hc. unfold append_char. rewrite (lab_length _ _ H). cbn [obind]. destruct H as ([_ H]%holds_cons & Hz & _ & Hb).
  pose proof (zlen_nonneg l). rewrite u8_id, aset_write by lia. cbn [obind].
  assert (zlen (write name 0 [zlen l + 1]) = zlen name) as Hz1 by (apply zlen_write; [lia|change (zlen [zlen l + 1]) with 1; lia]).
  rewrite aset_write by lia. eexists. split; [done|]. split_and!.
  - unfold encode_label. rewrite zlen_app. change (zlen [c]) with 1. apply holds_cons. split.
    + apply write_at_other; [lia|change (zlen [c]) with 1; lia|lia|]. rewrite <- insert_write by lia. apply at_insert_eq. lia.
    + apply holds_app. split; [|replace (0 + 1 + zlen l) with (zlen l + 1) by lia; apply write_holds; [lia|change (zlen [c]) with 1; lia]].
      apply holds_write_other; [lia|change (zlen [c]) with 1; lia|left; lia|].
      apply holds_write_other; [lia|change (zlen [zlen l + 1]) with 1; lia|right; change (zlen [zlen l + 1]) with 1; lia|done].
  - rewrite zlen_write; [lia|lia|change (zlen [c]) with 1; lia].
  - rewrite zlen_app. change (zlen [c]) with 1. lia.
  - apply Forall_app. by split; [|constructor].
Qed.

Lemma trim_spaces_spec name l : lab name l → ∀ fuel, (length l < fuel)%nat →
  ∃ name' l' k, trim_spaces fuel name = Ret name' ∧ lab name' l' ∧ l = l' ++ replicate k 32 ∧ last l' ≠ Some 32.
Proof.
  revert name. induction l as [|c l IH] using rev_ind; intros name H [|fuel] Hf; simpl in Hf; try lia; cbn [trim_spaces];
    rewrite (lab_length _ _ H); cbn [obind].
  - change (zlen []) with 0. rewrite (lab_length _ _ H). cbn [obind]. exists name, [], 0%nat. by split_and!.
  - pose proof (lab_last _ _ _ H) as Hc. rewrite length_app in Hf. simpl in Hf.
    rewrite Hc. cbn [obind].
    destruct (Z.eqb_spec c 32) as [->|Hne].
    + destruct (lab_drop_last _ _ _ H) as (n1 & -> & H1). cbn [obind].
      destruct (IH n1 H1 fuel ltac:(lia)) as (n2 & l' & k & Ht & Hl' & -> & Hlast).
      exists n2, l', (S k). split_and!; try done. rewrite <- app_assoc. f_equal.
      rewrite <- replicate_S_end. done.
    + exists name, (l ++ [c]), 0%nat. split_and!; try done; [by rewrite app_nil_r|]. rewrite last_snoc. congruence.
Qed.

(** ** Truncation *)
Definition is_continuation (c : Z) : bool := Z.land c 0xC0 =? 0x80.

Lemma Truncate_back_spec str : ∀ fuel n c1 c2, 0 ≤ n < zlen str → n < Z.of_nat fuel → at_ str n c1 →
  ∃ m c, Truncate_back fuel str n c1 c2 = Ret m ∧ 0 ≤ m ≤ n ∧ at_ str m c ∧ (m = 0 ∨ is_continuation c = false).
Proof.
  induction fuel as [|fuel IH]; intros n c1 c2 Hn Hf Hc; [lia|]. cbn [Truncate_back].
  destruct (Z.ltb_spec 0 n) as [Hpos|]; cbn [negb]; [|exists n, c1; split_and!; (done || lia)].
  fold (is_continuation c1). destruct (is_continuation c1) eqn:E; cbn [negb andb].
  all: destruct (negb ((c1 =? 0xED) && (Z.land c2 0xF0 =? 0xB0))) eqn:E2; try (exists n, c1; split_and!; (done || lia || by right)).
  all: destruct (at_exists str (n - 1)) as [c Hc']; [lia|]; rewrite (proj2 (aget_at _ _ _) Hc'); cbn [obind].
  all: destruct (IH (n - 1) c c1 ltac:(lia) ltac:(lia) Hc') as (m & c' & Hm & ? & ? & ?).
  all: exists m, c'; split_and!; (done || lia).
Qed.

Lemma Truncate_space_spec str : ∀ fuel n, 0 ≤ n ≤ zlen str → n < Z.of_nat fuel →
  ∃ m, Truncate_space fuel str n = Ret m ∧ 0 ≤ m ≤ n ∧ (∀ i c, m ≤ i < n → at_ str i c → c ≤ 32) ∧
    (m = 0 ∨ ∃ c, at_ str (m - 1) c ∧ 32 < c).
Proof.
  induction fuel as [|fuel IH]; intros n Hn Hf; [lia|]. cbn [Truncate_space].
  destruct (Z.ltb_spec 0 n) as [Hpos|]; cbn [negb]; [|exists n; split_and!; [done|lia|lia|lia|by left; lia]].
  destruct (at_exists str (n - 1)) as [c Hc]; [lia|]. rewrite (proj2 (aget_at _ _ _) Hc). cbn [obind].
  destruct (Z.leb_spec c 32); [|exists n; split_and!; [done|lia|lia|lia|right; eauto]].
  destruct (IH (n - 1) ltac:(lia) ltac:(lia)) as (m & -> & Hm & Hsp & Hend). exists m. split_and!; [done|lia|lia| |done].
  intros i c' Hi Hc'. destruct (decide (i = n - 1)) as [->|]; [|by apply (Hsp i); [lia|]].
  by rewrite (at_fun _ _ _ _ Hc' Hc).
Qed.

Lemma Truncate_spec str len max : 0 ≤ max → 0 ≤ len ≤ zlen str →
  ∃ r, TruncateUTF8ToLength str len max = Ret r ∧ 0 ≤ r ≤ len ∧ r ≤ Z.max len max ∧ (len ≤ max → r = len) ∧
    (max < len → r ≤ max ∧
      ∃ cut, r ≤ cut ≤ max ∧ (cut = 0 ∨ ∃ c, at_ str cut c ∧ is_continuation c = false) ∧
        (∀ i c, r ≤ i < cut → at_ str i c → c ≤ 32) ∧ (r = 0 ∨ ∃ c, at_ str (r - 1) c ∧ 32 < c)).
Proof.
  intros Hm Hl. unfold TruncateUTF8ToLength. destruct (Z.ltb_spec max len) as [Hlt|]; [|exists len; split_and!; (done || lia)].
  destruct (at_exists str max) as [c1 Hc1]; [lia|]. rewrite (proj2 (aget_at _ _ _) Hc1). cbn [obind].
  assert (∃ c2, (if max + 1 <? len then aget str (max + 1) else Ret 0xB0) = Ret c2) as [c2 ->].
  { destruct (Z.ltb_spec (max + 1) len); [|by eauto]. destruct (at_exists str (max + 1)) as [c2 Hc2]; [lia|].
    exists c2. by apply aget_at. }
  cbn [obind]. destruct (Truncate_back_spec str (S (Z.to_nat max)) max c1 c2) as (cut & c & -> & Hcut & Hc & Hb); [lia|lia|done|].
  cbn [obind]. destruct (Truncate_space_spec str (S (Z.to_nat cut)) cut) as (r & -> & Hr & Hsp & Hend); [lia|lia|].
  exists r. split_and!; [done|lia|lia|lia|lia|]. intros _. split; [lia|]. exists cut. split_and!; [lia|lia| |done|done].
  destruct Hb; [by left|right; eauto].
Qed.

(** ** Decimal digits *)
Fixpoint dec (k : nat) (v : Z) : list Z :=
  match k with
  | O => [48 + v]
  | S k' => (48 + v / 10 ^ Z.of_nat k) :: dec k' (v mod 10 ^ Z.of_nat k)
  end.
(** The number of digits after the first, for a 32-bit number. *)
Fixpoint more_digits (n : nat) (v : Z) : nat :=
  match n with
  | O => O
  | S m => if 10 ^ Z.of_nat n <=? v then n else more_digits m v
  end.
Definition digits (v : Z) : list Z := dec (more_digits 9 v) v.
Definition dval (ds : list Z) : Z := fold_left (fun a d => 10 * a + (d - 48)) ds 0.
Definition suffix_text (rich : bool) (v : Z) : list Z :=
  if rich then [32; 40] ++ digits v ++ [41] else [45] ++ digits v.

Lemma more_digits_spec n v : 0 ≤ v → let k := more_digits n v in
  (k ≤ n)%nat ∧ (k = 0%nat ∨ 10 ^ Z.of_nat k ≤ v) ∧ (k = n ∨ v < 10 ^ Z.of_nat (S k)).
Proof.
  intros Hv. induction n as [|n IH]; [by split_and!; auto|]. cbn [more_digits].
  destruct (Z.leb_spec (10 ^ Z.of_nat (S n)) v); [by split_and!; auto|].
  destruct IH as (H1 & H2 & [H3|H3]); split_and!; try lia; auto. rewrite H3. auto.
Qed.

Lemma pow10_S n : 10 ^ Z.of_nat (S n) = 10 * 10 ^ Z.of_nat n.
Proof. rewrite Nat2Z.inj_succ, Z.pow_succ_r; lia. Qed.
Lemma pow10_pos n : 0 < 10 ^ Z.of_nat n.
Proof. apply Z.pow_pos_nonneg; lia. Qed.
Lemma pow10_mono m n : (m ≤ n)%nat → 10 ^ Z.of_nat m ≤ 10 ^ Z.of_nat n.
Proof. intros. apply Z.pow_le_mono_r; lia. Qed.

Lemma digits_bound v : is_u32 v → v < 10 ^ Z.of_nat (S (more_digits 9 v)).
Proof.
  intros Hv. destruct (more_digits_spec 9 v) as (_ & _ & [->|H]); [lia| |done].
  change (10 ^ Z.of_nat 10) with 10000000000. lia.
Qed.

Lemma suffix_size_spec v : is_u32 v → ∀ fuel n ch, (n ≤ more_digits 9 v)%nat → (9 - n < fuel)%nat →
  suffix_size fuel v (10 ^ Z.of_nat n) ch = Ret (10 ^ Z.of_nat (more_digits 9 v), ch + Z.of_nat (more_digits 9 v - n)).
Proof.
  intros Hv. destruct (more_digits_spec 9 v) as (H9 & Hge & Hlt); [lia|]. set (k := more_digits 9 v) in *.
  induction fuel as [|fuel IH]; intros n ch Hn Hf; [lia|]. cbn [suffix_size].
  pose proof (pow10_pos n). pose proof (pow10_mono n 9 ltac:(lia)). change (10 ^ Z.of_nat 9) with 1000000000 in *.
  destruct (decide (n = 9%nat)) as [Hn9|Hn9].
  { assert (k = 9%nat) as Hk by lia. rewrite Hn9, Hk, Nat.sub_diag. change (10 ^ Z.of_nat 9) with 1000000000.
    cbn [Z.ltb Z.compare Pos.compare Pos.compare_cont andb]. do 2 f_equal. lia. }
  pose proof (pow10_mono n 8 ltac:(lia)). change (10 ^ Z.of_nat 8) with 100000000 in *. pose proof (pow10_S n).
  rewrite u32_id, (proj2 (Z.ltb_lt _ 429496729)) by lia. cbn [andb].
  replace (10 ^ Z.of_nat n * 10) with (10 ^ Z.of_nat (S n)) by lia.
  destruct (decide (n = k)) as [->|Hne].
  - destruct Hlt as [?|Hlt]; [lia|]. rewrite (proj2 (Z.leb_gt _ _)), Nat.sub_diag by lia. do 2 f_equal. lia.
  - pose proof (pow10_mono (S n) k ltac:(lia)). destruct Hge as [|Hge]; [lia|].
    rewrite (proj2 (Z.leb_le _ _)) by lia. rewrite IH by lia. do 2 f_equal. lia.
Qed.

Lemma dec_length k v : length (dec k v) = S k.
Proof. revert v. induction k as [|k IH]; intros v; simpl; [done|]. by rewrite IH. Qed.

Lemma dec_digits k v : 0 ≤ v < 10 ^ Z.of_nat (S k) → Forall (fun c => mdnsIsDigit c = true ∧ is_u8 c) (dec k v).
Proof.
  revert v. induction k as [|k IH]; intros v Hv.
  - change (10 ^ Z.of_nat 1) with 10 in Hv. constructor; [|done]. unfold mdnsIsDigit. lia.
  - cbn [dec]. pose proof (pow10_pos (S k)). rewrite pow10_S in Hv. constructor.
    + assert (0 ≤ v / 10 ^ Z.of_nat (S k) < 10) as H0 by (split; [apply Z.div_pos; lia|apply Z.div_lt_upper_bound; lia]).
      revert H0. generalize (v / 10 ^ Z.of_nat (S k)) as q. intros q Hq. unfold mdnsIsDigit. lia.
    + apply IH. apply Z.mod_pos_bound. lia.
Qed.

Lemma dval_app ds d : dval (ds ++ [d]) = 10 * dval ds + (d - 48).
Proof. unfold dval. by rewrite fold_left_app. Qed.

Lemma dval_dec k v a : 0 ≤ v < 10 ^ Z.of_nat (S k) →
  fold_left (fun a d => 10 * a + (d - 48)) (dec k v) a = a * 10 ^ Z.of_nat (S k) + v.
Proof.
  revert v a. induction k as [|k IH]; intros v a Hv.
  - change (10 ^ Z.of_nat 1) with 10. simpl. lia.
  - cbn [dec fold_left]. pose proof (pow10_pos (S k)). rewrite IH by (apply Z.mod_pos_bound; lia).
    rewrite (pow10_S (S k)). pose proof (Z.div_mod v (10 ^ Z.of_nat (S k)) ltac:(lia)). nia.
Qed.

Lemma dval_digits v : is_u32 v → dval (digits v) = v.
Proof. intros Hv. unfold dval, digits. rewrite dval_dec; [lia|]. split; [lia|by apply digits_bound]. Qed.

Lemma append_digits_spec k : ∀ fuel name l v, lab name l → 0 ≤ v < 10 ^ Z.of_nat (S k) → zlen l + Z.of_nat (S k) ≤ 63 →
  (S k < fuel)%nat → ∃ name', append_digits fuel name v (10 ^ Z.of_nat k) = Ret name' ∧ lab name' (l ++ dec k v).
Proof.
  induction k as [|k IH]; intros [|fuel] name l v Hl Hv H63 Hf; try lia; cbn [append_digits].
  - change (10 ^ Z.of_nat 0) with 1. change (10 ^ Z.of_nat 1) with 10 in Hv. cbn [Z.eqb].
    rewrite Z.div_1_r, u8_id by lia. destruct (append_char_spec name l (48 + v) Hl) as (n1 & -> & Hn1); [lia|lia|].
    cbn [obind]. destruct fuel; [lia|]. cbn. by exists n1.
  - pose proof (pow10_pos (S k)) as Hp. rewrite (proj2 (Z.eqb_neq _ _)) by lia. rewrite pow10_S in Hv.
    assert (0 ≤ v / 10 ^ Z.of_nat (S k) < 10) by (split; [apply Z.div_pos; lia|apply Z.div_lt_upper_bound; lia]).
    rewrite u8_id by lia. destruct (append_char_spec name l (48 + v / 10 ^ Z.of_nat (S k)) Hl) as (n1 & -> & Hn1); [lia|lia|].
    cbn [obind]. replace (10 ^ Z.of_nat (S k) / 10) with (10 ^ Z.of_nat k)
      by (rewrite pow10_S, Z.mul_comm, Z.div_mul; lia).
    destruct (IH fuel n1 _ (v mod 10 ^ Z.of_nat (S k)) Hn1) as (n2 & -> & Hn2);
      [apply Z.mod_pos_bound; lia|rewrite zlen_app; change (zlen [_]) with 1; lia|lia|].
    exists n2. split; [done|]. cbn [dec]. by rewrite <- app_assoc in Hn2.
Qed.

(** ** Appending *)
Lemma zlen_suffix_text rich v : zlen (suffix_text rich v) = (if rich then 4 else 2) + Z.of_nat (more_digits 9 v).
Proof.
  unfold suffix_text, digits, zlen. destruct rich; rewrite !length_app, dec_length; simpl; lia.
Qed.

Lemma lab_truncate name l n : lab name l → 0 ≤ n ≤ zlen l →
  ∃ name', aset name 0 (u8 n) = Ret name' ∧ lab name' (take (Z.to_nat n) l).
Proof.
  intros H Hn. pose proof H as (_ & _ & H63 & _). rewrite u8_id by lia.
  assert (zlen (take (Z.to_nat n) l) = n) as Hz by (unfold zlen in *; rewrite length_take; lia).
  destruct (lab_shrink name (take (Z.to_nat n) l) (drop (Z.to_nat n) l)) as (n' & Ha & Hl); [by rewrite take_drop|].
  rewrite Hz in Ha. by exists n'.
Qed.

(** The suffix as the code puts it, character by character. *)
Lemma append_suffix name l v rich : lab name l → is_u32 v → zlen l + zlen (suffix_text rich v) ≤ 63 →
  ∃ name', (let* name := (if rich then let* name := append_char name 32 in append_char name 40
                          else append_char name 45) in
            let* name := append_digits 12 name v (10 ^ Z.of_nat (more_digits 9 v)) in
            if rich : bool then append_char name 41 else Ret name) = Ret name' ∧ lab name' (l ++ suffix_text rich v).
Proof.
  intros Hl Hv H63. rewrite zlen_suffix_text in H63. set (k := more_digits 9 v) in *.
  pose proof (digits_bound v Hv) as Hb. fold k in Hb.
  assert (k ≤ 9)%nat as Hk by (destruct (more_digits_spec 9 v) as [? _]; [lia|done]).
  destruct rich; unfold suffix_text, digits; fold k.
  - destruct (append_char_spec name l 32 Hl) as (n1 & -> & H1); [lia|lia|]. cbn [obind].
    destruct (append_char_spec n1 _ 40 H1) as (n2 & -> & H2); [rewrite zlen_app; change (zlen [_]) with 1; lia|lia|]. cbn [obind].
    rewrite <- app_assoc in H2. cbn [app] in H2.
    destruct (append_digits_spec k 12 n2 _ v H2) as (n3 & -> & H3); [lia|rewrite zlen_app; change (zlen [32; 40]) with 2; lia|lia|].
    cbn [obind]. destruct (append_char_spec n3 _ 41 H3) as (n4 & -> & H4); [|lia|].
    + rewrite !zlen_app. change (zlen [32; 40]) with 2. unfold zlen at 2. rewrite dec_length. lia.
    + exists n4. split; [done|]. by rewrite <- !app_assoc in H4.
  - destruct (append_char_spec name l 45 Hl) as (n1 & -> & H1); [lia|lia|]. cbn [obind].
    destruct (append_digits_spec k 12 n1 _ v H1) as (n3 & -> & H3); [lia|rewrite zlen_app; change (zlen [45]) with 1; lia|lia|].
    exists n3. split; [done|]. by rewrite <- !app_assoc in H3.
Qed.

Lemma AppendLabelSuffix_spec name l v rich : lab name l → is_u32 v →
  ∃ name' base, AppendLabelSuffix name v rich = Ret name' ∧ lab name' (base ++ suffix_text rich v) ∧
    base `prefix_of` l ∧ zlen base + zlen (suffix_text rich v) ≤ 63 ∧
    (zlen l + zlen (suffix_text rich v) ≤ 63 → (rich = true → last l ≠ Some 32) → base = l).
Proof.
  intros Hl Hv. unfold AppendLabelSuffix.
  assert (∃ n1 l1 k, (if rich then trim_spaces (S (length name)) name else Ret name) = Ret n1 ∧ lab n1 l1 ∧
    l = l1 ++ replicate k 32 ∧ ((rich = true → last l ≠ Some 32) → l1 = l)) as (n1 & l1 & j & -> & H1 & Hl1 & Hsame).
  { destruct rich; [|exists name, l, 0%nat; by rewrite app_nil_r].
    destruct (trim_spaces_spec name l Hl (S (length name))) as (n1 & l1 & k & Ht & H1 & -> & Hlast).
    - apply lab_fuel in Hl. lia.
    - exists n1, l1, k. split_and!; try done. intros Hx. specialize (Hx eq_refl). destruct k; [by rewrite app_nil_r|].
      rewrite replicate_S_end, app_assoc, last_snoc in Hx. done. }
  cbn [obind]. change 1 with (10 ^ Z.of_nat 0) at 1. rewrite suffix_size_spec by (done || lia). cbn [obind].
  rewrite Nat.sub_0_r. rewrite (lab_length _ _ H1). cbn [obind]. pose proof (zlen_suffix_text rich v) as Hs.
  set (k := more_digits 9 v) in *. unfold MAX_DOMAIN_LABEL.
  assert (k ≤ 9)%nat by (destruct (more_digits_spec 9 v) as [? _]; [lia|done]).
  destruct (Truncate_spec (ptr_add n1 1) (zlen l1) (63 - ((if rich then 4 else 2) + Z.of_nat k)))
    as (r & -> & Hr & _ & Hkeep & Hcut).
  { destruct rich; lia. }
  { split; [apply zlen_nonneg|]. destruct H1 as (_ & ? & ? & _). unfold ptr_add, zlen in *. rewrite length_drop. lia. }
  cbn [obind]. destruct (lab_truncate n1 l1 r H1 Hr) as (n2 & -> & H2). cbn [obind].
  assert (zlen (take (Z.to_nat r) l1) = r) as Hbase by (unfold zlen in *; rewrite length_take; lia).
  assert (r + zlen (suffix_text rich v) ≤ 63) as Hfit by (destruct rich; lia).
  destruct (append_suffix n2 _ v rich H2 Hv ltac:(lia)) as (n3 & Hap & H3). fold k in Hap.
  exists n3, (take (Z.to_nat r) l1). split_and!; [done|done| |lia|].
  - rewrite Hl1. apply prefix_app_r, prefix_take.
  - intros Hroom Hx. rewrite (Hsame Hx) in *. rewrite take_ge; [done|]. rewrite Hkeep by (destruct rich; lia). unfold zlen. lia.
Qed.

(** ** Recognising and removing what was appended *)
Lemma lab_middle name pre c post : lab name (pre ++ c :: post) → aget name (zlen pre + 1) = Ret c.
Proof.
  intros H. apply (lab_get name (pre ++ c :: post)); [done|]. pose proof (zlen_nonneg pre). split; [lia|].
  replace (Z.to_nat (zlen pre + 1 - 1)) with (length pre) by (unfold zlen; lia). by apply list_lookup_middle.
Qed.

Abbreviation all_digits ds := (Forall (fun c => mdnsIsDigit c = true) ds).

Lemma strip_digits_spec name b c ds : mdnsIsDigit c = false → all_digits ds → ∀ post fuel,
  lab name (b ++ c :: ds ++ post) → 1 ≤ zlen b → (length ds < fuel)%nat →
  strip_digits fuel name (zlen b + 1 + zlen ds) = Ret (zlen b + 1).
Proof.
  intros Hc. induction ds as [|d ds IH] using rev_ind; intros Hds post [|fuel] Hl Hb Hf; simpl in Hf; try lia; cbn [strip_digits].
  - change (zlen []) with 0. rewrite Z.add_0_r. destruct (Z.ltb_spec 2 (zlen b + 1)); cbn [negb]; [|done].
    rewrite (lab_middle _ _ _ _ Hl). cbn [obind]. by rewrite Hc.
  - apply Forall_app in Hds as [Hds [Hd _]%Forall_cons]. rewrite length_app in Hf. simpl in Hf. pose proof (zlen_nonneg ds).
    rewrite <- app_assoc in Hl. cbn [app] in Hl.
    assert (aget name (zlen b + 1 + zlen (ds ++ [d])) = Ret d) as Hget.
    { replace (zlen b + 1 + zlen (ds ++ [d])) with (zlen (b ++ c :: ds) + 1)
        by (rewrite !zlen_app, zlen_cons; change (zlen [d]) with 1; lia).
      apply (lab_middle _ _ _ post). by rewrite <- app_assoc. }
    rewrite Hget. rewrite zlen_app. change (zlen [d]) with 1. rewrite (proj2 (Z.ltb_lt _ _)) by lia. cbn [negb obind].
    rewrite Hd. replace (zlen b + 1 + (zlen ds + 1) - 1) with (zlen b + 1 + zlen ds) by lia.
    apply (IH Hds (d :: post)); [done|done|lia].
Qed.

(** The digits of a number: those before the last, and the last. *)
Lemma digits_snoc v : is_u32 v → ∃ ds d, digits v = ds ++ [d] ∧ all_digits ds ∧ mdnsIsDigit d = true ∧ zlen ds ≤ 9.
Proof.
  intros Hv. assert (Forall (fun c => mdnsIsDigit c = true ∧ is_u8 c) (digits v)) as Hd.
  { apply dec_digits. split; [lia|by apply digits_bound]. }
  assert (length (digits v) = S (more_digits 9 v)) as Hlen by apply dec_length.
  assert (more_digits 9 v ≤ 9)%nat by (destruct (more_digits_spec 9 v) as [? _]; [lia|done]).
  destruct (digits v) as [|d ds _] using rev_ind; [done|]. exists ds, d. apply Forall_app in Hd as [Hds [[Hd _] _]%Forall_cons].
  rewrite length_app in Hlen. cbn [length] in Hlen. split_and!; [done| |done|unfold zlen; lia].
  eapply Forall_impl; [exact Hds|]. by intros ? [].
Qed.

(** A character of a label, by what stands before and after it. *)
Lemma lab_char name full pre c post i : lab name full → full = pre ++ c :: post → i = zlen pre + 1 → aget name i = Ret c.
Proof. intros Hl -> ->. by apply (lab_middle name pre c post). Qed.

Lemma strip_digits_at name full b c ds post i fuel : lab name full → full = b ++ c :: ds ++ post →
  i = zlen b + 1 + zlen ds → mdnsIsDigit c = false → all_digits ds → 1 ≤ zlen b → (length ds < fuel)%nat →
  strip_digits fuel name i = Ret (zlen b + 1).
Proof. intros Hl -> -> Hc Hds Hb Hf. by apply (strip_digits_spec name b c ds Hc Hds post). Qed.

Local Ltac appends := subst; by rewrite <- ?app_assoc.
Local Ltac lengths := rewrite ?zlen_app, ?zlen_cons; change (@zlen Z []) with 0; lia.

Lemma LabelContainsSuffix_appended name base v rich : is_u32 v → lab name (base ++ suffix_text rich v) →
  (rich = false → base ≠ []) → LabelContainsSuffix name rich = Ret true.
Proof.
  intros Hv Hl Hne. unfold LabelContainsSuffix. rewrite (lab_length _ _ Hl). cbn [obind].
  destruct (digits_snoc v Hv) as (ds & d & Hd & Hds & Hdd & Hd9). pose proof (zlen_nonneg base). pose proof (zlen_nonneg ds).
  remember (base ++ suffix_text rich v) as full eqn:Ef. unfold suffix_text in Ef. rewrite Hd in Ef. destruct rich.
  - assert (zlen full = zlen base + zlen ds + 4) as -> by (rewrite Ef; lengths).
    rewrite (proj2 (Z.ltb_ge _ _)) by lia.
    rewrite (lab_char name full (base ++ [32; 40] ++ ds ++ [d]) 41 []) by (done || appends || lengths). cbn [obind Z.eqb Pos.eqb negb].
    rewrite (lab_char name full (base ++ [32; 40] ++ ds) d [41]) by (done || appends || lengths). cbn [obind]. rewrite Hdd. cbn [negb].
    rewrite (strip_digits_at name full (base ++ [32]) 40 ds [d; 41]) by (done || appends || lengths || (unfold zlen in *; lia)).
    cbn [obind]. rewrite (lab_char name full (base ++ [32]) 40 (ds ++ [d; 41])) by (done || appends || lengths). cbn [obind Z.eqb Pos.eqb negb].
    by rewrite (lab_char name full base 32 (40 :: ds ++ [d; 41])) by (done || appends || lengths).
  - assert (zlen full = zlen base + zlen ds + 2) as -> by (rewrite Ef; lengths).
    assert (1 ≤ zlen base). { destruct base; [by destruct (Hne eq_refl)|]. rewrite zlen_cons. pose proof (zlen_nonneg base). lia. }
    rewrite (proj2 (Z.ltb_ge _ _)) by lia.
    rewrite (lab_char name full (base ++ [45] ++ ds) d []) by (done || appends || lengths). cbn [obind]. rewrite Hdd. cbn [negb].
    rewrite (strip_digits_at name full base 45 ds [d]) by (done || appends || lengths || (unfold zlen in *; lia)).
    cbn [obind]. by rewrite (lab_char name full base 45 (ds ++ [d])) by (done || appends || lengths).
Qed.

#[local] Transparent u32.
Lemma u32_accumulate val m c x : u32 (u32 (val + c * m) + u32 (m * 10) * x) = u32 (val + m * (10 * x + c)).
Proof.
  unfold u32. rewrite Z.add_mod_idemp_l by lia. rewrite <- Z.add_mod_idemp_r, Z.mul_mod_idemp_l, Z.add_mod_idemp_r by lia.
  f_equal. lia.
Qed.
#[local] Opaque u32.

Lemma Remove_digits_spec b c ds : mdnsIsDigit c = false → ∀ fuel name val mult,
  lab name (b ++ c :: ds) → all_digits ds → is_u32 val → (length ds < fuel)%nat →
  ∃ name', Remove_digits fuel name val mult = Ret (name', u32 (val + mult * dval ds)) ∧ lab name' (b ++ [c]).
Proof.
  intros Hc. induction ds as [|d ds IH] using rev_ind; intros [|fuel] name val mult Hl Hds Hval Hf; simpl in Hf; try lia;
    cbn [Remove_digits]; rewrite (lab_length _ _ Hl); cbn [obind].
  - rewrite (lab_last _ _ _ Hl). cbn [obind]. rewrite Hc. exists name. split; [|done].
    change (dval []) with 0. by rewrite Z.mul_0_r, Z.add_0_r, u32_id.
  - apply Forall_app in Hds as [Hds [Hd _]%Forall_cons]. rewrite length_app in Hf. cbn [length] in Hf.
    rewrite app_comm_cons, app_assoc in Hl |- *. rewrite (lab_last _ _ _ Hl). cbn [obind]. rewrite Hd.
    destruct (lab_drop_last _ _ _ Hl) as (n1 & -> & H1). cbn [obind].
    destruct (IH fuel n1 (u32 (val + (d - 48) * mult)) (u32 (mult * 10)) H1 Hds (u32_range _) ltac:(lia)) as (n2 & -> & H2).
    exists n2. split; [|done]. by rewrite dval_app, u32_accumulate.
Qed.

Lemma RemoveLabelSuffix_appended name base v rich : is_u32 v → lab name (base ++ suffix_text rich v) →
  ∃ name', RemoveLabelSuffix name rich = Ret (name', v) ∧ lab name' base.
Proof.
  intros Hv Hl. unfold RemoveLabelSuffix. pose proof (zlen_nonneg base).
  assert (all_digits (digits v)) as Hds.
  { destruct (digits_snoc v Hv) as (ds & d & -> & Hds & Hd & _). apply Forall_app. by split; [|constructor]. }
  pose proof (zlen_nonneg (digits v)). unfold suffix_text in Hl. destruct rich.
  - rewrite !app_assoc in Hl. rewrite (lab_length _ _ Hl). cbn [obind andb].
    rewrite (proj2 (Z.leb_le _ _)) by lengths. rewrite (lab_last _ _ _ Hl). cbn [obind Z.eqb Pos.eqb].
    destruct (lab_drop_last _ _ _ Hl) as (n1 & -> & H1). cbn [obind].
    replace ((base ++ [32; 40]) ++ digits v) with ((base ++ [32]) ++ 40 :: digits v) in H1 by appends.
    destruct (Remove_digits_spec (base ++ [32]) 40 (digits v) eq_refl (S (length n1)) n1 0 1 H1 Hds ltac:(lia)) as (n2 & -> & H2).
    { apply lab_fuel in H1. rewrite length_app in H1. cbn [length] in H1. lia. }
    cbn [obind]. rewrite dval_digits by done. rewrite (lab_length _ _ H2). cbn [obind].
    assert (zlen ((base ++ [32]) ++ [40]) = zlen base + 2) as Hz by lengths. rewrite Hz, (proj2 (Z.leb_le _ _)) by lia.
    rewrite (lab_char n2 _ (base ++ [32]) 40 []) by (done || lengths). cbn [obind Z.eqb Pos.eqb negb].
    rewrite (lab_char n2 _ base 32 [40]) by (done || appends || lengths). cbn [obind Z.eqb Pos.eqb].
    destruct (lab_truncate n2 _ (zlen base + 2 - 2) H2) as (n3 & -> & H3); [lia|].
    cbn [obind]. exists n3. rewrite u32_id by lia. split; [do 2 f_equal; lia|].
    replace (Z.to_nat (zlen base + 2 - 2)) with (length base) in H3 by (unfold zlen; lia).
    by rewrite <- app_assoc, take_app_length in H3.
  - rewrite (lab_length _ _ Hl). cbn [obind andb].
    destruct (Remove_digits_spec base 45 (digits v) eq_refl (S (length name)) name 0 1 Hl Hds ltac:(lia)) as (n2 & -> & H2).
    { apply lab_fuel in Hl. rewrite length_app in Hl. cbn [length app] in Hl. lia. }
    cbn [obind]. rewrite dval_digits by done. rewrite (lab_length _ _ H2). cbn [obind].
    rewrite (proj2 (Z.leb_le _ _)) by lengths. rewrite (lab_last _ _ _ H2). cbn [obind Z.eqb Pos.eqb].
    destruct (lab_drop_last _ _ _ H2) as (n3 & -> & H3). cbn [obind]. exists n3. rewrite u32_id by lia.
    split; [do 2 f_equal; lia|done].
Qed.

(** The number the next suffix carries. *)
Definition next_suffix (v rnd : Z) : Z := if v =? 0 then 2 else if v <? 10 then u32 (v + 1) else u32 (v + (1 + rnd)).

Lemma IncrementLabelSuffix_fresh name rich rnd : LabelContainsSuffix name rich = Ret false →
  IncrementLabelSuffix name rich rnd = AppendLabelSuffix name 2 rich.
Proof. intros H. unfold IncrementLabelSuffix. by rewrite H. Qed.

Lemma IncrementLabelSuffix_again name base v rich rnd : is_u32 v → lab name (base ++ suffix_text rich v) →
  (rich = false → base ≠ []) → ∃ name' base', IncrementLabelSuffix name rich rnd = Ret name' ∧
    lab name' (base' ++ suffix_text rich (next_suffix v rnd)) ∧ base' `prefix_of` base ∧
    (zlen base + zlen (suffix_text rich (next_suffix v rnd)) ≤ 63 → (rich = true → last base ≠ Some 32) → base' = base).
Proof.
  intros Hv Hl Hne. unfold IncrementLabelSuffix. rewrite (LabelContainsSuffix_appended name base v rich Hv Hl Hne). cbn [obind].
  destruct (RemoveLabelSuffix_appended name base v rich Hv Hl) as (n1 & -> & H1). cbn [obind]. fold (next_suffix v rnd).
  destruct (AppendLabelSuffix_spec n1 base (next_suffix v rnd) rich H1) as (n2 & base' & -> & H2 & Hp & _ & Hs).
  { unfold next_suffix. tests; try apply u32_range. lia. }
  by exists n2, base'.
Qed.

(** ** Properties *)

(** Renaming after a conflict: a suffix that [AppendLabelSuffix] appends
    to a label with room for it is recognised by [LabelContainsSuffix], split
    off by [RemoveLabelSuffix] with its number, and counted up by
    [IncrementLabelSuffix], which gives the label the next number (two after
    zero, one more below ten, a random step from ten on) and cuts the label
    only if the longer number needs the room. *)
Theorem label_suffix_roundtrip name l v rich rnd : lab name l → l ≠ [] → is_u32 v → (rich = true → last l ≠ Some 32) →
  zlen l + zlen (suffix_text rich v) ≤ 63 →
  ∃ name', AppendLabelSuffix name v rich = Ret name' ∧ lab name' (l ++ suffix_text rich v) ∧
    LabelContainsSuffix name' rich = Ret true ∧
    (∃ name2, RemoveLabelSuffix name' rich = Ret (name2, v) ∧ lab name2 l) ∧
    (∃ name3 base, IncrementLabelSuffix name' rich rnd = Ret name3 ∧ base `prefix_of` l ∧
       lab name3 (base ++ suffix_text rich (next_suffix v rnd)) ∧
       (zlen l + zlen (suffix_text rich (next_suffix v rnd)) ≤ 63 → base = l)).
Proof.
  intros Hl Hne Hv Hsp Hfit. destruct (AppendLabelSuffix_spec name l v rich Hl Hv) as (name' & base & Ha & Hlab & _ & _ & Hbase).
  rewrite (Hbase Hfit Hsp) in Hlab. exists name'. split; [done|]. split; [done|]. split; [by apply (LabelContainsSuffix_appended name' l v)|].
  split; [by apply RemoveLabelSuffix_appended|].
  destruct (IncrementLabelSuffix_again name' l v rich rnd Hv Hlab) as (name3 & base' & Hi & H3 & Hp & Hb); [done|].
  exists name3, base'. split; [done|]. split; [done|]. split; [done|]. intros H. by apply Hb.
Qed.

(** "Mac" becomes "Mac (9)" and then "Mac (10)". *)
Lemma label_suffix_roundtrip_witness : ∃ name', AppendLabelSuffix (encode_label [77; 97; 99] ++ replicate 60 0) 9 true = Ret name' ∧
  ∃ name3, IncrementLabelSuffix name' true 5 = Ret name3 ∧ lab name3 [77; 97; 99; 32; 40; 49; 48; 41].
Proof.
  destruct (label_suffix_roundtrip (encode_label [77; 97; 99] ++ replicate 60 0) [77; 97; 99] 9 true 5)
    as (name' & Ha & _ & _ & _ & name3 & base & Hi & _ & H3 & Hb).
  - split; [apply holds_split; by exists [], (replicate 60 0)|]. split; [done|]. split; [done|by apply bytes_okb_ok].
  - done.
  - lia.
  - done.
  - done.
  - rewrite Hb in H3 by done. exists name'. split; [exact Ha|]. exists name3. split; [exact Hi|exact H3].
Defined.
