(* ===== verification/DNSRandom.v ===== *)
(** Pseudo-random numbers: [mDNSRandom] and [mDNSRandomFromFixedSeed] of
    [DNSCommon.c].

    A number below a bound is drawn by stepping a linear congruential
    generator until the masked seed is in range, a loop without a bound of
    its own.  It stops because the low bits of the generator run through all
    their values. *)
From S2P Require Import Prelude Bytes.

Definition lcg (seed : Z) : Z := seed * 21 + 1.

(** [while (mask < max) mask = (mask << 1) | 1;] *)
Fixpoint mask_loop (fuel : nat) (mask max : Z) : outcome Z :=
  match fuel with
  | O => Fault OutOfFuel
  | S fuel => if mask <? max then mask_loop fuel (Z.lor (u32 (Z.shiftl mask 1)) 1) max else Ret mask
  end.

(** [do seed = seed * 21 + 1; while ((seed & mask) > max);] *)
Fixpoint seed_loop (fuel : nat) (seed mask max : Z) : outcome Z :=
  match fuel with
  | O => Fault OutOfFuel
  | S fuel =>
    let seed := u32 (lcg seed) in
    if max <? Z.land seed mask then seed_loop fuel seed mask max else Ret seed
  end.

Definition mDNSRandomFromFixedSeed (fuel : nat) (seed max : Z) : outcome Z :=
  let* mask := mask_loop 32 1 max in
  let* seed := seed_loop fuel seed mask max in
  Ret (Z.land seed mask).

(** The static variable [seed] is an argument and part of the result;
    [platform] is the value of [mDNSPlatformRandomSeed]. *)
Definition mDNSRandom (fuel : nat) (platform seed max : Z) : outcome (Z * Z) :=
  let seed := if seed =? 0 then Nat.iter 100 (fun s => u32 (lcg s)) platform else seed in
  let* mask := mask_loop 32 1 max in
  let* seed := seed_loop fuel seed mask max in
  Ret (Z.land seed mask, seed).

(** ** The mask *)
Lemma mask_step k : 0 ≤ k < 32 → Z.lor (u32 (Z.shiftl (2 ^ k - 1) 1)) 1 = 2 ^ (k + 1) - 1.
Proof.
  intros Hk. pose proof (Z.pow_pos_nonneg 2 k ltac:(lia) ltac:(lia)).
  assert (2 ^ k ≤ 2 ^ 31) by (apply Z.pow_le_mono_r; lia). change (2 ^ 31) with 2147483648 in *.
  rewrite Z.shiftl_mul_pow2 by lia. change (2 ^ 1) with 2. rewrite u32_id by lia.
  replace ((2 ^ k - 1) * 2) with (Z.shiftl (2 ^ k - 1) 1) by (rewrite Z.shiftl_mul_pow2 by lia; lia).
  rewrite Z.lor_comm, lor_shift_add by lia. rewrite Z.pow_add_r by lia. lia.
Qed.

Lemma mask_loop_spec max : is_u32 max → ∀ fuel k, 1 ≤ k ≤ 32 → 32 - k < Z.of_nat fuel →
  ∃ k', mask_loop fuel (2 ^ k - 1) max = Ret (2 ^ k' - 1) ∧ k ≤ k' ≤ 32 ∧ max ≤ 2 ^ k' - 1.
Proof.
  intros Hm. induction fuel as [|fuel IH]; intros k Hk Hf; [lia|]. cbn [mask_loop].
  destruct (Z.ltb_spec (2 ^ k - 1) max) as [Hlt|]; [|exists k; split_and!; (done || lia)].
  destruct (decide (k = 32)) as [->|]; [change (2 ^ 32) with 4294967296 in Hlt; lia|].
  rewrite mask_step by lia. destruct (IH (k + 1) ltac:(lia) ltac:(lia)) as (k' & -> & ? & ?).
  exists k'. split_and!; (done || lia).
Qed.

(** ** The generator reaches a multiple of every power of two

    [2^k] steps of the generator are an affine map; it adds an odd multiple
    of [2^k]. *)
Lemma lcg_pow k : ∃ a b, ∀ x,
  Nat.iter (2 ^ k) lcg x = (1 + 4 * 2 ^ Z.of_nat k * a) * x + 2 ^ Z.of_nat k * (2 * b + 1).
Proof.
  induction k as [|k (a & b & IH)].
  - exists 5, 0. intros x. change (2 ^ Z.of_nat 0) with 1. simpl. unfold lcg. lia.
  - set (p := 2 ^ Z.of_nat k) in *. exists (a + 2 * p * a * a), (2 * p * a * b + b + p * a). intros x.
    replace (2 ^ S k)%nat with (2 ^ k + 2 ^ k)%nat by (simpl; lia). rewrite Nat.iter_add, !IH.
    replace (2 ^ Z.of_nat (S k)) with (2 * p) by (unfold p; rewrite Nat2Z.inj_succ, Z.pow_succ_r; lia). ring.
Qed.

Lemma lcg_reaches k : ∀ x, ∃ j, Nat.iter j lcg x mod 2 ^ Z.of_nat k = 0.
Proof.
  induction k as [|k IH]; intros x; [exists 0%nat; by rewrite Z.mod_1_r|].
  destruct (IH x) as [j Hj]. set (y := Nat.iter j lcg x) in *.
  assert (0 < 2 ^ Z.of_nat k) by (apply Z.pow_pos_nonneg; lia).
  apply Z.mod_divide in Hj as [q Hq]; [|lia].
  assert (2 ^ Z.of_nat (S k) = 2 * 2 ^ Z.of_nat k) as Hp by (rewrite Nat2Z.inj_succ, Z.pow_succ_r; lia).
  rewrite Hp. destruct (Z.Even_or_Odd q) as [[r Hr]|[r Hr]].
  - exists j. fold y. apply Z.mod_divide; [lia|]. exists r. rewrite Hq, Hr. lia.
  - destruct (lcg_pow k) as (a & b & Hab). exists (2 ^ k + j)%nat. rewrite Nat.iter_add. fold y. rewrite Hab.
    apply Z.mod_divide; [lia|]. rewrite Hq, Hr. set (p := 2 ^ Z.of_nat k) in *.
    exists (r + 2 * a * p * (2 * r + 1) + b + 1). ring.
Qed.

#[local] Transparent u32.
Lemma u32_low k y : 0 ≤ k ≤ 32 → Z.land (u32 y) (2 ^ k - 1) = y mod 2 ^ k.
Proof.
  intros Hk. rewrite Z.sub_1_r, <- Z.ones_equiv, Z.land_ones by lia. unfold u32.
  replace 4294967296 with (2 ^ k * 2 ^ (32 - k)) by (rewrite <- Z.pow_add_r by lia; by replace (k + (32 - k)) with 32 by lia).
  pose proof (Z.pow_pos_nonneg 2 k ltac:(lia) ltac:(lia)). pose proof (Z.pow_pos_nonneg 2 (32 - k) ltac:(lia) ltac:(lia)).
  rewrite Z.rem_mul_r by lia. rewrite Z.mul_comm, Z.mod_add by lia. apply Z.mod_mod. lia.
Qed.
Lemma u32_lcg y : u32 (lcg (u32 y)) = u32 (lcg y).
Proof. unfold u32, lcg. rewrite <- Z.add_mod_idemp_l, Z.mul_mod_idemp_l, Z.add_mod_idemp_l by lia. done. Qed.
#[local] Opaque u32.

Lemma seed_loop_spec k max : 0 ≤ k ≤ 32 → ∀ j fuel seed y, u32 seed = u32 y →
  Nat.iter (S j) lcg y mod 2 ^ k ≤ max → (j < fuel)%nat →
  ∃ s, seed_loop fuel seed (2 ^ k - 1) max = Ret s ∧ is_u32 s ∧ Z.land s (2 ^ k - 1) ≤ max.
Proof.
  intros Hk. induction j as [|j IH]; intros [|fuel] seed y Hy Hin Hf; try lia; cbn [seed_loop].
  all: rewrite <- (u32_lcg seed), Hy, u32_lcg.
  - rewrite u32_low by done. cbn [Nat.iter] in Hin. simpl in Hin. rewrite (proj2 (Z.ltb_ge _ _)) by done.
    eexists. split; [done|]. split; [apply u32_range|]. by rewrite u32_low.
  - destruct (Z.ltb_spec max (Z.land (u32 (lcg y)) (2 ^ k - 1))) as [Hlt|Hle].
    + apply (IH fuel _ (lcg y)); [rewrite u32_id by apply u32_range; done| |lia].
      by rewrite Nat.iter_succ_r in Hin.
    + eexists. split; [done|]. split; [apply u32_range|done].
Qed.

Lemma seed_loop_stops k max seed : 0 ≤ k ≤ 32 → 0 ≤ max →
  ∃ n, ∀ fuel, (n ≤ fuel)%nat → ∃ s, seed_loop fuel seed (2 ^ k - 1) max = Ret s ∧ is_u32 s ∧
    Z.land s (2 ^ k - 1) ≤ max.
Proof.
  intros Hk Hm. destruct (lcg_reaches (Z.to_nat k) (lcg seed)) as [j Hj]. rewrite Z2Nat.id in Hj by lia.
  exists (S j). intros fuel Hf. apply (seed_loop_spec k max Hk j fuel seed seed); [done| |lia].
  rewrite Nat.iter_succ_r. lia.
Qed.

(** ** Properties *)

(** Random numbers are eventually delivered: for every maximum and every
    seed there is a number of steps after which the rejection loops of
    [mDNSRandom] and [mDNSRandomFromFixedSeed] stop, since the generator
    reaches every residue of the mask, and the number returned is at most the
    maximum. *)
Theorem random_delivered max seed platform : is_u32 max → 
  ∃ n, ∀ fuel, (n ≤ fuel)%nat →
    (∃ r, mDNSRandomFromFixedSeed fuel seed max = Ret r ∧ 0 ≤ r ≤ max) ∧
    (∃ r seed', mDNSRandom fuel platform seed max = Ret (r, seed') ∧ 0 ≤ r ≤ max ∧ is_u32 seed').
Proof.
  intros Hm. destruct (mask_loop_spec max Hm 32 1) as (k & Hmask & Hk & _); [lia|lia|]. change (2 ^ 1 - 1) with 1 in Hmask.
  set (seed0 := if seed =? 0 then Nat.iter 100 (fun s => u32 (lcg s)) platform else seed).
  destruct (seed_loop_stops k max seed ltac:(lia) ltac:(lia)) as [n1 H1].
  destruct (seed_loop_stops k max seed0 ltac:(lia) ltac:(lia)) as [n2 H2].
  exists (Nat.max n1 n2). intros fuel Hf. unfold mDNSRandomFromFixedSeed, mDNSRandom. fold seed0. rewrite Hmask. cbn [obind].
  assert (∀ s, is_u32 s → 0 ≤ Z.land s (2 ^ k - 1)) as Hpos.
  { intros s Hs. apply Z.land_nonneg. left. lia. }
  split.
  - destruct (H1 fuel ltac:(lia)) as (s & -> & Hs & Hle). cbn [obind]. eexists. split; [done|]. split; [by apply Hpos|done].
  - destruct (H2 fuel ltac:(lia)) as (s & -> & Hs & Hle). cbn [obind]. do 2 eexists. split; [done|]. split; [split; [by apply Hpos|done]|done].
Qed.
Lemma random_delivered_witness : ∃ n, ∀ fuel, (n ≤ fuel)%nat →
  (∃ r, mDNSRandomFromFixedSeed fuel 12345 100 = Ret r ∧ 0 ≤ r ≤ 100) ∧
  (∃ r seed', mDNSRandom fuel 7 12345 100 = Ret (r, seed') ∧ 0 ≤ r ≤ 100 ∧ is_u32 seed').
Proof. apply random_delivered. lia. Defined.
