(* ===== verification/DNSWireGet.v ===== *)
(** Reading domain names from packets: [skipDomainName] and [getDomainName] of
    [DNSCommon.c].

    A packet is the buffer [msg] of the received message, offsets count from
    its first byte, and [e] is the offset of its end.  Two relations say what
    a name in a packet is.  [rfc_name] is the compression format of RFC 1035:
    a sequence of labels ended by a zero byte or by a pointer to a prior
    occurrence of the rest of the name, all of it inside the packet.
    [decodes] is what the code accepts: it does not ask that the second byte
    of a pointer lies inside the packet, nor that a pointer leads backwards,
    but it refuses a pointer to a pointer.  The theorems show that
    [getDomainName] stops on every packet and stays inside the buffer (one
    byte past the end of the packet must be readable) and the result, that it
    computes exactly [decodes], and how the two relations differ. *)
From S2P Require Import Prelude Bytes DNSTypes DNSName.

Fixpoint skipDomainName_loop (fuel : nat) (msg : list Z) (e ptr total : Z) : outcome (option Z) :=
  match fuel with
  | O => Fault OutOfFuel
  | S fuel =>
    let* len := aget msg ptr in
    let ptr := ptr + 1 in
    if len =? 0 then Ret (Some ptr) else
    let kind := Z.land len 0xC0 in
    if kind =? 0x00 then
      if e <=? ptr + len then Ret None else
      if MAX_DOMAIN_NAME <=? total + 1 + len then Ret None else
      skipDomainName_loop fuel msg e (ptr + len) ((total + (1 + len)) mod 65536)
    else if kind =? 0x40 then Ret None
    else if kind =? 0x80 then Ret None
    else Ret (Some (ptr + 1))
  end.
Definition skipDomainName (msg : list Z) (ptr e : Z) : outcome (option Z) :=
  if (ptr <? 0) || (e <=? ptr) then Ret None else skipDomainName_loop 256 msg e ptr 0.

Fixpoint getDomainName_loop (fuel : nat) (msg : list Z) (e : Z) (name : list Z) (np ptr : Z)
    (nextbyte : option Z) : outcome (list Z * option Z) :=
  match fuel with
  | O => Fault OutOfFuel
  | S fuel =>
    let* len := aget msg ptr in
    let ptr := ptr + 1 in
    if len =? 0 then
      Ret (name, match nextbyte with Some n => Some n | None => Some ptr end)
    else
    let kind := Z.land len 0xC0 in
    if kind =? 0x00 then
      if e <=? ptr + len then Ret (name, None) else
      if MAX_DOMAIN_NAME <=? np + 1 + len then Ret (name, None) else
      let* name := aset name np len in
      let* name := copy len msg ptr name (np + 1) in
      let* name := aset name (np + 1 + len) 0 in
      getDomainName_loop fuel msg e name (np + 1 + len) (ptr + len) nextbyte
    else if kind =? 0x40 then Ret (name, None)
    else if kind =? 0x80 then Ret (name, None)
    else
      let* b := aget msg ptr in
      let offset := Z.lor (Z.shiftl (Z.land len 0x3F) 8) b in
      let ptr := ptr + 1 in
      let nextbyte := match nextbyte with Some n => Some n | None => Some ptr end in
      let ptr := offset in
      if (ptr <? 0) || (e <=? ptr) then Ret (name, None) else
      let* c := aget msg ptr in
      if negb (Z.land c 0xC0 =? 0) then Ret (name, None) else
      getDomainName_loop fuel msg e name np ptr nextbyte
  end.
Definition getDomainName (msg : list Z) (ptr e : Z) (name : list Z) : outcome (list Z * option Z) :=
  if (ptr <? 0) || (e <=? ptr) then Ret (name, None) else
  let* name := aset name 0 0 in
  getDomainName_loop 512 msg e name 0 ptr None.

(** ** The wire format

    [decodes msg e p ls next]: at offset [p] of the packet the code finds a
    name with the labels [ls] whose bytes at [p] end before [next]. *)
Inductive decodes (msg : list Z) (e : Z) : Z → list label → Z → Prop :=
| decodes_root p : p < e → at_ msg p 0 → decodes msg e p [] (p + 1)
| decodes_label p l ls next :
    label_ok l → holds msg p (encode_label l) → p + 1 + zlen l < e →
    decodes msg e (p + 1 + zlen l) ls next → decodes msg e p (l :: ls) next
| decodes_pointer p hi lo c ls next :
    p < e → at_ msg p hi → 192 ≤ hi → at_ msg (p + 1) lo →
    (hi - 192) * 256 + lo < e → at_ msg ((hi - 192) * 256 + lo) c → c < 64 →
    decodes msg e ((hi - 192) * 256 + lo) ls next → decodes msg e p ls (p + 2).

(** The same by RFC 1035: the two bytes of a pointer lie inside the packet
    and lead to an earlier place, whatever stands there. *)
Inductive rfc_name (msg : list Z) (e : Z) : Z → list label → Z → Prop :=
| rfc_root p : p < e → at_ msg p 0 → rfc_name msg e p [] (p + 1)
| rfc_label p l ls next :
    label_ok l → holds msg p (encode_label l) → p + zlen (encode_label l) ≤ e →
    rfc_name msg e (p + zlen (encode_label l)) ls next → rfc_name msg e p (l :: ls) next
| rfc_pointer p hi lo ls next :
    p + 1 < e → at_ msg p hi → 192 ≤ hi → at_ msg (p + 1) lo → (hi - 192) * 256 + lo < p →
    rfc_name msg e ((hi - 192) * 256 + lo) ls next → rfc_name msg e p ls (p + 2).

(** Reading at [p] meets a pointer at [q] that leads to [t]. *)
Inductive reaches (msg : list Z) : Z → Z → Z → Prop :=
| reaches_here p hi lo :
    at_ msg p hi → 192 ≤ hi → at_ msg (p + 1) lo → reaches msg p p ((hi - 192) * 256 + lo)
| reaches_label p b q t :
    at_ msg p b → 1 ≤ b < 64 → reaches msg (p + 1 + b) q t → reaches msg p q t
| reaches_pointer p hi lo q t :
    at_ msg p hi → 192 ≤ hi → at_ msg (p + 1) lo →
    reaches msg ((hi - 192) * 256 + lo) q t → reaches msg p q t.

(** No pointer met leads to another pointer. *)
Definition direct (msg : list Z) (p : Z) : Prop :=
  ∀ q t c, reaches msg p q t → at_ msg t c → c < 64.

(** The two top bits of a length byte. *)
Lemma kind_of b : is_u8 b → Z.land b 192 = b / 64 * 64.
Proof.
  intros Hb. apply Z.eqb_eq.
  apply (byte_forall (fun b => Z.land b 192 =? b / 64 * 64) b); [by vm_compute|done].
Qed.
Lemma kind_label b : is_u8 b → (Z.land b 192 =? 0) = (b <? 64).
Proof. intros H. rewrite kind_of by done. destruct (Z.ltb_spec b 64); Z.div_mod_to_equations; lia. Qed.
Lemma kind_reserved b : is_u8 b → 64 ≤ b → (Z.land b 192 =? 64) || (Z.land b 192 =? 128) = (b <? 192).
Proof. intros H. rewrite kind_of by done. destruct (Z.ltb_spec b 192); Z.div_mod_to_equations; lia. Qed.
Lemma pointer_target hi lo : is_u8 hi → 192 ≤ hi → is_u8 lo →
  Z.lor (Z.shiftl (Z.land hi 63) 8) lo = (hi - 192) * 256 + lo.
Proof.
  intros Hh Hp Hl. rewrite join16 by done. change 63 with (Z.ones 6). rewrite Z.land_ones by lia.
  change (2 ^ 6) with 64. Z.div_mod_to_equations. lia.
Qed.

Lemma decodes_range msg e p ls next : decodes msg e p ls next → 0 ≤ p < e.
Proof.
  destruct 1 as [p Hlt H%at_range|p l ls next [Hl _] H%holds_range|p hi lo c ls next Hlt H%at_range]; lia.
Qed.

(** What stands at [p] decides which rule applies. *)
Section Inversion.
Context {msg : list Z} {e p : Z} {ls : list label} {next b : Z}.
Hypothesis Hd : decodes msg e p ls next.
Hypothesis Hb : at_ msg p b.

Lemma decodes_zero : b = 0 → ls = [] ∧ next = p + 1.
Proof.
  intros Hz. destruct Hd as [p' Hlt Hx|p' l ls' next' [? _] Hx|p' hi lo c ls' next' Hlt Hx]; [done|exfalso..]; rewrite Hz in Hb.
  - apply holds_cons in Hx as [Hx _]. pose proof (at_fun _ _ _ _ Hx Hb). lia.
  - pose proof (at_fun _ _ _ _ Hx Hb). lia.
Qed.

Lemma decodes_length : 1 ≤ b < 64 → ∃ l ls', ls = l :: ls' ∧ zlen l = b ∧ label_ok l ∧
  holds msg (p + 1) l ∧ p + 1 + b < e ∧ decodes msg e (p + 1 + b) ls' next.
Proof.
  intros ?. destruct Hd as [p' Hlt Hx|p' l ls' next' Hl Hx|p' hi lo c ls' next' Hlt Hx].
  - pose proof (at_fun _ _ _ _ Hx Hb). lia.
  - apply holds_cons in Hx as [Hx ?]. pose proof (at_fun _ _ _ _ Hx Hb) as Hlb. rewrite <- Hlb. eauto 10.
  - pose proof (at_fun _ _ _ _ Hx Hb). lia.
Qed.

Lemma decodes_reserved : 64 ≤ b < 192 → False.
Proof.
  intros ?. destruct Hd as [p' Hlt Hx|p' l ls' next' [Hl _] Hx|p' hi lo c ls' next' Hlt Hx].
  - pose proof (at_fun _ _ _ _ Hx Hb). lia.
  - apply holds_cons in Hx as [Hx _]. pose proof (at_fun _ _ _ _ Hx Hb). unfold MAX_DOMAIN_LABEL in Hl. lia.
  - pose proof (at_fun _ _ _ _ Hx Hb). lia.
Qed.

Lemma decodes_target lo : 192 ≤ b → at_ msg (p + 1) lo → let q := (b - 192) * 256 + lo in
  q < e ∧ (∃ c, at_ msg q c ∧ c < 64) ∧ next = p + 2 ∧ ∃ nx, decodes msg e q ls nx.
Proof.
  intros ? Hlo q. destruct Hd as [p' Hlt Hx|p' l ls' next' [Hl _] Hx|p' hi lo' c' ls' next' Hlt Hx Hhi Hlo'].
  - pose proof (at_fun _ _ _ _ Hx Hb). lia.
  - apply holds_cons in Hx as [Hx _]. pose proof (at_fun _ _ _ _ Hx Hb). unfold MAX_DOMAIN_LABEL in Hl. lia.
  - pose proof (at_fun _ _ _ _ Hx Hb). pose proof (at_fun _ _ _ _ Hlo Hlo'). subst hi lo'.
    split_and!; eauto.
Qed.
End Inversion.

(** The rules determine the labels and the end of a name. *)
Lemma decodes_fun msg e p ls next : decodes msg e p ls next → ∀ ls' next',
  decodes msg e p ls' next' → ls = ls' ∧ next = next'.
Proof.
  induction 1 as [p ? Hz|p l ls next Hl Hh ? _ IH|p hi lo c ls next ? Hh ? Hlo ? Hc ? _ IH]; intros ls' next' H'.
  - by destruct (decodes_zero H' Hz).
  - apply holds_cons in Hh as [Hz Hh]. destruct Hl as [Hl _]. unfold MAX_DOMAIN_LABEL in Hl.
    destruct (decodes_length H' Hz) as (l' & ls1 & -> & Hll & _ & Hh' & _ & Hd); [lia|].
    destruct (IH _ _ Hd) as [-> ->]. split; [|done]. f_equal. apply (holds_fun msg (p + 1)); [done|done|].
    unfold zlen in Hll. lia.
  - destruct (decodes_target H' Hh lo) as (_ & _ & -> & nx & Hd); [done..|].
    by destruct (IH _ _ Hd) as [-> _].
Qed.

(** The stores of one label: length byte and text, and then a root label. *)
Lemma store_label_text {B} src s name p l (k : list Z → outcome B) :
  holds src s l → 0 ≤ p → p + 1 + zlen l ≤ zlen name →
  (let* name := aset name p (zlen l) in
   let* name := copy (zlen l) src s name (p + 1) in k name) = k (write name p (encode_label l)).
Proof.
  intros Hs Hp Hl. pose proof (zlen_nonneg l). rewrite aset_write by lia. cbn [obind].
  rewrite copy_write by (done || (rewrite ?zlen_write; change (zlen [zlen l]) with 1; lia)). cbn [obind].
  change (p + 1) with (p + zlen [zlen l]). by rewrite write_app by (change (zlen [zlen l]) with 1; lia).
Qed.

Lemma store_label {B} src s name p l (k : list Z → outcome B) :
  holds src s l → 0 ≤ p → p + zlen (encode [l]) ≤ zlen name →
  (let* name := aset name p (zlen l) in
   let* name := copy (zlen l) src s name (p + 1) in
   let* name := aset name (p + 1 + zlen l) 0 in k name) = k (write name p (encode [l])).
Proof.
  intros Hs Hp Hl. rewrite zlen_encode_one in Hl. pose proof (zlen_encode_label l). pose proof (zlen_nonneg l).
  rewrite (store_label_text _ _ _ _ _ (fun name => let* name := aset name (p + 1 + zlen l) 0 in k name)) by (done || lia).
  rewrite aset_write by (rewrite zlen_write; lia). cbn [obind].
  replace (p + 1 + zlen l) with (p + zlen (encode_label l)) by lia.
  rewrite write_app by (change (zlen [0]) with 1; lia).
  do 2 f_equal. unfold encode, encode_labels. simpl. by rewrite app_nil_r.
Qed.

Section Get.
Context (msg : list Z) (e : Z).
Hypothesis Hmsg : bytes_ok msg.
Hypothesis He : e < zlen msg.

(** What one run of the loop establishes, from the labels [done] on. *)
Definition get_post (name : list Z) (done : list label) (p : Z) (nextbyte : option Z)
    (res : list Z * option Z) : Prop :=
  same_tail name res.1 ∧ (∃ l', name_ok l' ∧ is_name res.1 l') ∧
  match res.2 with
  | Some n => ∃ ls next, decodes msg e p ls next ∧ n = default next nextbyte ∧
                name_ok (done ++ ls) ∧ is_name res.1 (done ++ ls)
  | None => ∀ ls next, decodes msg e p ls next → 255 < zlen (encode (done ++ ls))
  end.

Lemma get_post_fail name done p nextbyte : name_ok done → is_name name done →
  (∀ ls next, decodes msg e p ls next → 255 < zlen (encode (done ++ ls))) →
  get_post name done p nextbyte (name, None).
Proof. intros. split; [done|]. split; [by eauto|done]. Qed.

(** A label read, then the rest. *)
Lemma get_post_label name done p nextbyte l res : label_ok l → holds msg p (encode_label l) →
  p + 1 + zlen l < e → same_tail name (write name (zlen (encode done) - 1) (encode [l])) →
  get_post (write name (zlen (encode done) - 1) (encode [l])) (done ++ [l]) (p + 1 + zlen l) nextbyte res →
  get_post name done p nextbyte res.
Proof.
  intros Hl Hh Hin Ht (Ht' & Hl' & Hr). split; [by etrans|]. split; [done|]. destruct (res.2) as [n|].
  - destruct Hr as (ls & next & Hd & Hnx & Hrest). exists (l :: ls), next. rewrite <- app_assoc in Hrest.
    split; [|done]. by apply decodes_label.
  - intros ls next Hd. pose proof Hh as [Hb Hh']%holds_cons. destruct Hl as [Hl _]. unfold MAX_DOMAIN_LABEL in Hl.
    destruct (decodes_length Hd Hb) as (l2 & ls' & -> & Hl2 & _ & Hh2 & _ & Hd'); [lia|].
    assert (l2 = l) as -> by (apply (holds_fun msg (p + 1)); [done..|unfold zlen in *; lia]).
    specialize (Hr _ _ Hd'). by rewrite <- app_assoc in Hr.
Qed.

(** A pointer followed, then the rest. *)
Lemma get_post_pointer name done p nextbyte hi lo c res : let q := (hi - 192) * 256 + lo in
  p < e → at_ msg p hi → 192 ≤ hi → at_ msg (p + 1) lo → q < e → at_ msg q c → c < 64 →
  get_post name done q (Some (default (p + 2) nextbyte)) res → get_post name done p nextbyte res.
Proof.
  intros q Hp Hb Hptr Hlo Hq Hc Hreal (Ht' & Hl' & Hr).
  split; [done|]. split; [done|]. destruct (res.2) as [n|].
  - destruct Hr as (ls & next & Hd & Hnx & Hrest). exists ls, (p + 2).
    split; [by apply (decodes_pointer msg e p hi lo c ls next)|]. done.
  - intros ls next Hd. destruct (decodes_target Hd Hb lo) as (_ & _ & _ & nx & Hd'); [done..|].
    by apply (Hr ls nx).
Qed.

(** Each iteration stores at least two bytes, or follows a pointer to a byte
    that is not a pointer. *)
Definition get_measure (done : list label) (b : Z) : Z :=
  2 * (256 - zlen (encode done)) + (if 192 <=? b then 1 else 0).

Definition loop_ok (fuel : nat) : Prop := ∀ name done p nextbyte b,
  name_ok done → is_name name done → 256 ≤ zlen name → p < e → at_ msg p b →
  get_measure done b < Z.of_nat fuel →
  safe (getDomainName_loop fuel msg e name (zlen (encode done) - 1) p nextbyte) (get_post name done p nextbyte).

(** One turn of the loop, at a length byte or at a pointer. *)
Section Turn.
Context (fuel : nat) (name : list Z) (done : list label) (p : Z) (nextbyte : option Z) (b : Z).
Hypothesis IH : loop_ok fuel.
Hypothesis Hok : name_ok done.
Hypothesis Hn : is_name name done.
Hypothesis Hlen : 256 ≤ zlen name.
Hypothesis Hp : p < e.
Hypothesis Hb : at_ msg p b.
Hypothesis Hm : get_measure done b < Z.of_nat (S fuel).

Lemma get_label_turn : 1 ≤ b < 64 → let np := zlen (encode done) - 1 in
  safe (if e <=? p + 1 + b then Ret (name, None) else
        if MAX_DOMAIN_NAME <=? np + 1 + b then Ret (name, None) else
        let* name := aset name np b in
        let* name := copy b msg (p + 1) name (np + 1) in
        let* name := aset name (np + 1 + b) 0 in
        getDomainName_loop fuel msg e name (np + 1 + b) (p + 1 + b) nextbyte) (get_post name done p nextbyte).
Proof.
  intros Hlab np. pose proof (at_range _ _ _ Hb) as Hpr. pose proof (zlen_encode_pos done). pose proof (name_ok_bound _ Hok).
  destruct (Z.leb_spec e (p + 1 + b)) as [Hov|Hin].
  { apply get_post_fail; [done..|]. intros ls next Hd.
    destruct (decodes_length Hd Hb) as (l & ls' & _ & _ & _ & _ & ? & _); lia. }
  unfold MAX_DOMAIN_NAME, np. destruct (Z.leb_spec 255 (zlen (encode done) - 1 + 1 + b)) as [Hov|Hfit].
  { apply get_post_fail; [done..|]. intros ls next Hd.
    destruct (decodes_length Hd Hb) as (l & ls' & -> & Hl & _ & _ & _ & _); [lia|].
    rewrite zlen_encode_app, zlen_encode_cons. pose proof (zlen_encode_pos ls'). lia. }
  destruct (holds_exists msg (p + 1) b) as (l & Hl & Hlb); [lia..|].
  assert (label_ok l) as Hlok.
  { split; [unfold MAX_DOMAIN_LABEL; lia|by apply (holds_bytes_ok msg (p + 1))]. }
  pose proof (zlen_encode_one l) as Hone. pose proof (zlen_encode_snoc done l) as Hsn.
  rewrite <- Hlb, store_label by (done || lia).
  replace (zlen (encode done) - 1 + 1 + zlen l) with (zlen (encode (done ++ [l])) - 1) by lia.
  assert (same_tail name (write name (zlen (encode done) - 1) (encode [l]))) as Ht by (apply same_tail_write; lia).
  destruct (at_exists msg (p + 1 + zlen l)) as [b' Hb']; [lia|].
  eapply wp_mono; [apply (IH _ _ _ _ b')|intros res Hres|done]; try done; try lia.
  - apply name_ok_app; [apply Hok|by constructor|lia].
  - apply is_name_append; [done|lia].
  - destruct Ht. lia.
  - unfold get_measure in *. destruct (192 <=? b'), (192 <=? b); lia.
  - apply (get_post_label name done p nextbyte l res); [done| |lia|done|done].
    apply holds_cons. by rewrite Hlb.
Qed.

Lemma get_pointer_turn : 192 ≤ b →
  safe (let* lo := aget msg (p + 1) in
        let offset := Z.lor (Z.shiftl (Z.land b 0x3F) 8) lo in
        let nextbyte := match nextbyte with Some n => Some n | None => Some (p + 1 + 1) end in
        if (offset <? 0) || (e <=? offset) then Ret (name, None) else
        let* c := aget msg offset in
        if negb (Z.land c 0xC0 =? 0) then Ret (name, None) else
        getDomainName_loop fuel msg e name (zlen (encode done) - 1) offset nextbyte) (get_post name done p nextbyte).
Proof.
  intros Hptr. pose proof (at_range _ _ _ Hb). pose proof (bytes_ok_at _ _ _ Hmsg Hb) as Hb8.
  destruct (at_exists msg (p + 1)) as [lo Hlo]; [lia|]. pose proof (bytes_ok_at _ _ _ Hmsg Hlo) as Hlo8.
  rewrite (proj2 (aget_at _ _ _) Hlo). cbn [obind]. cbv zeta. rewrite pointer_target by done.
  set (q := (b - 192) * 256 + lo). rewrite (proj2 (Z.ltb_ge q 0)) by lia. cbn [orb].
  destruct (Z.leb_spec e q) as [Hov|Hin].
  { apply get_post_fail; [done..|]. intros ls next Hd.
    destruct (decodes_target Hd Hb lo) as (Hq & _); [done..|]. fold q in Hq. lia. }
  destruct (at_exists msg q) as [c Hc]; [lia|]. pose proof (bytes_ok_at _ _ _ Hmsg Hc) as Hc8.
  rewrite (proj2 (aget_at _ _ _) Hc). cbn [obind]. rewrite kind_label by done.
  destruct (Z.ltb_spec c 64) as [Hreal|Hnot]; cbn [negb].
  - replace (match nextbyte with Some n => Some n | None => Some (p + 1 + 1) end)
      with (Some (default (p + 2) nextbyte)) by (destruct nextbyte; simpl; f_equal; lia).
    eapply wp_mono; [apply (IH _ _ _ _ c)|intros res Hres|done]; try done.
    + unfold get_measure in *. rewrite (proj2 (Z.leb_le 192 b)) in Hm by lia.
      rewrite (proj2 (Z.leb_gt 192 c)) by lia. lia.
    + by apply (get_post_pointer name done p nextbyte b lo c res).
  - apply get_post_fail; [done..|]. intros ls next Hd.
    destruct (decodes_target Hd Hb lo) as (_ & (c' & Hc' & ?) & _); [done..|].
    pose proof (at_fun _ _ _ _ Hc Hc'). lia.
Qed.
End Turn.

Lemma getDomainName_loop_spec fuel : loop_ok fuel.
Proof.
  induction fuel as [|fuel IH]; intros name done p nextbyte b Hok Hn Hlen Hp Hb Hm.
  { pose proof (name_ok_bound _ Hok). unfold get_measure in Hm. destruct (192 <=? b); lia. }
  pose proof (bytes_ok_at _ _ _ Hmsg Hb) as Hb8.
  cbn [getDomainName_loop]. rewrite (proj2 (aget_at _ _ _) Hb). cbn [obind].
  destruct (Z.eqb_spec b 0) as [->|Hz].
  { replace (match nextbyte with Some n => Some n | None => Some (p + 1) end)
      with (Some (default (p + 1) nextbyte)) by by destruct nextbyte.
    split; [done|]. split; [by eauto|]. exists [], (p + 1). rewrite app_nil_r.
    split; [by apply decodes_root|done]. }
  rewrite kind_label by done. destruct (Z.ltb_spec b 64) as [Hlab|Hnl].
  - apply get_label_turn; (done || lia).
  - pose proof (kind_reserved b Hb8 Hnl) as Hk. destruct (Z.ltb_spec b 192) as [Hres|Hptr].
    { assert (get_post name done p nextbyte (name, None)) as Hf.
      { apply get_post_fail; [done..|]. intros ls next Hd. destruct (decodes_reserved Hd Hb). lia. }
      by destruct (Z.land b 192 =? 64), (Z.land b 192 =? 128). }
    apply orb_false_iff in Hk as [-> ->]. by apply (get_pointer_turn fuel name done p nextbyte b).
Qed.
End Get.

Definition get_result (msg : list Z) (e p : Z) (name : list Z) (res : list Z * option Z) : Prop :=
  same_tail name res.1 ∧
  (0 ≤ p < e → ∃ l', name_ok l' ∧ is_name res.1 l') ∧
  match res.2 with
  | Some next => ∃ ls, decodes msg e p ls next ∧ name_ok ls ∧ is_name res.1 ls
  | None => ∀ ls next, decodes msg e p ls next → 255 < zlen (encode ls)
  end.

Lemma getDomainName_spec msg p e name : bytes_ok msg → e < zlen msg → 256 ≤ zlen name →
  safe (getDomainName msg p e name) (get_result msg e p name).
Proof.
  intros Hmsg He Hlen. unfold getDomainName.
  destruct (Z.ltb_spec p 0), (Z.leb_spec e p); cbn [orb].
  1-3: split; [done|]; split; [lia|]; intros ls next Hd%decodes_range; lia.
  rewrite aset_write by lia. cbn [obind]. destruct (at_exists msg p) as [b Hb]; [lia|].
  assert (same_tail name (write name 0 [0])) as Ht by (apply same_tail_write; [lia|change (zlen [0]) with 1; lia|done]).
  eapply wp_mono; [apply (getDomainName_loop_spec msg e Hmsg He 512 _ [] p None b)|
    intros res (Ht' & Hl & Hr)|done].
  - by apply name_okb_ok.
  - apply holds_encode_nil. rewrite <- insert_write by lia. apply at_insert_eq. lia.
  - destruct Ht. lia.
  - done.
  - done.
  - unfold get_measure. change (zlen (encode [])) with 1. destruct (192 <=? b); lia.
  - split; [by etrans|]. split; [done|]. destruct (res.2) as [n|]; [|done].
    destruct Hr as (ls & next & Hd & -> & Hrest). by exists ls.
Qed.

(** A name that decodes within the length limit is fetched. *)
Lemma getDomainName_decodes msg p e name ls next : bytes_ok msg → e < zlen msg → 256 ≤ zlen name →
  decodes msg e p ls next → zlen (encode ls) ≤ 255 →
  ∃ name', getDomainName msg p e name = Ret (name', Some next) ∧ is_name name' ls ∧ same_tail name name'.
Proof.
  intros Hmsg He Hlen Hd Hl.
  destruct (safe_elim _ _ (getDomainName_spec msg p e name Hmsg He Hlen)) as ([name' r] & -> & Ht & _ & Hr).
  exists name'. destruct r as [n|]; simpl in *.
  - destruct Hr as (ls' & Hd' & _ & Hn). by destruct (decodes_fun _ _ _ _ _ Hd _ _ Hd') as [-> ->].
  - specialize (Hr _ _ Hd). lia.
Qed.

(** ** Skipping *)
Lemma skipDomainName_loop_decodes msg e p ls next : bytes_ok msg → decodes msg e p ls next →
  ∀ fuel total, 0 ≤ total → total + zlen (encode ls) ≤ 255 → (length ls < fuel)%nat →
  skipDomainName_loop fuel msg e p total = Ret (Some next).
Proof.
  intros Hmsg. induction 1 as [p Hp Hb|p l ls next Hl Hh Hin Hd IH|p hi lo c ls next Hp Hb Hhi Hlo Hq Hc Hreal Hd _];
    intros [|fuel] total Ht Hlen Hf; simpl in Hf; try lia; cbn [skipDomainName_loop].
  - by rewrite (proj2 (aget_at _ _ _) Hb).
  - apply holds_cons in Hh as [Hb Hh]. rewrite (proj2 (aget_at _ _ _) Hb). cbn [obind].
    destruct (label_nonzero l Hl) as (-> & _ & H63). unfold MAX_DOMAIN_LABEL, MAX_DOMAIN_NAME in *.
    pose proof (bytes_ok_at _ _ _ Hmsg Hb). rewrite kind_label, (proj2 (Z.ltb_lt _ _)) by (done || lia).
    rewrite zlen_encode_cons in Hlen. pose proof (zlen_encode_pos ls).
    rewrite !(proj2 (Z.leb_gt _ _)), Z.mod_small by lia. apply IH; lia.
  - rewrite (proj2 (aget_at _ _ _) Hb). cbn [obind]. pose proof (bytes_ok_at _ _ _ Hmsg Hb) as Hb8.
    rewrite (proj2 (Z.eqb_neq _ _)), kind_label, (proj2 (Z.ltb_ge _ _)) by (done || lia).
    pose proof (kind_reserved hi Hb8 ltac:(lia)) as Hk. rewrite (proj2 (Z.ltb_ge hi 192)) in Hk by lia.
    apply orb_false_iff in Hk as [-> ->]. do 2 f_equal. lia.
Qed.

Lemma skipDomainName_decodes msg p e ls next : bytes_ok msg → decodes msg e p ls next →
  zlen (encode ls) ≤ 255 → skipDomainName msg p e = Ret (Some next).
Proof.
  intros Hmsg Hd Hl. unfold skipDomainName. pose proof (decodes_range _ _ _ _ _ Hd).
  rewrite (proj2 (Z.ltb_ge _ _)), (proj2 (Z.leb_gt _ _)) by lia. cbn [orb].
  apply (skipDomainName_loop_decodes msg e p ls next Hmsg Hd); [lia|lia|].
  pose proof (labels_le_bytes ls). lia.
Qed.

Lemma skipDomainName_loop_total msg e : bytes_ok msg → e ≤ zlen msg → ∀ fuel p total,
  0 ≤ p < e → 0 ≤ total ≤ 254 → 254 - total < Z.of_nat fuel →
  safe (skipDomainName_loop fuel msg e p total) (fun r => match r with Some n => p < n ≤ e + 1 | None => True end).
Proof.
  intros Hmsg He. induction fuel as [|fuel IH]; intros p total Hp Ht Hf; [lia|].
  cbn [skipDomainName_loop]. destruct (at_exists msg p) as [b Hb]; [lia|].
  rewrite (proj2 (aget_at _ _ _) Hb). cbn [obind]. pose proof (bytes_ok_at _ _ _ Hmsg Hb) as Hb8.
  destruct (Z.eqb_spec b 0); [simpl; lia|]. unfold MAX_DOMAIN_NAME. rewrite kind_label by done.
  destruct (Z.ltb_spec b 64); [|by destruct (Z.land b 192 =? 64), (Z.land b 192 =? 128); simpl; try lia].
  destruct (Z.leb_spec e (p + 1 + b)); [done|]. destruct (Z.leb_spec 255 (total + 1 + b)); [done|].
  rewrite Z.mod_small by lia. eapply wp_mono; [apply IH; lia|intros [nx|] Hn; [lia|done]|done].
Qed.

Lemma skipDomainName_total msg p e : bytes_ok msg → e ≤ zlen msg →
  safe (skipDomainName msg p e) (fun r => match r with Some n => 0 ≤ p < n ∧ n ≤ e + 1 | None => True end).
Proof.
  intros Hmsg He. unfold skipDomainName. destruct (Z.ltb_spec p 0), (Z.leb_spec e p); [done..|]. cbn [orb].
  eapply wp_mono; [by apply skipDomainName_loop_total|intros [n|] Hn; [lia|done]|done].
Qed.

(** Reading moves forward, by at most one byte past the end of the packet. *)
Lemma decodes_next msg e p ls next : decodes msg e p ls next → p < next ≤ e + 1.
Proof.
  induction 1 as [p ??|p l ls next ???? IH|p hi lo c ls next ????????]; [lia| |lia].
  pose proof (zlen_nonneg l). lia.
Qed.

(** ** The two formats *)
Lemma rfc_range msg e p ls next : rfc_name msg e p ls next → 0 ≤ p < e.
Proof.
  induction 1 as [p ? H%at_range|p l ls next ? H%holds_range ? _ IH|p hi lo ls next ? H%at_range];
    [lia| |lia].
  pose proof (zlen_encode_label l). pose proof (zlen_nonneg l). lia.
Qed.

(** A name of the RFC is accepted when its pointers lead to labels. *)
Lemma rfc_decodes msg e p ls next : bytes_ok msg → e ≤ zlen msg →
  rfc_name msg e p ls next → direct msg p → decodes msg e p ls next.
Proof.
  intros Hmsg He. induction 1 as [p Hp H0|p l ls next Hl Hh _ Hd IH|p hi lo ls next Hp Hb Hhi Hlo Hq Hd IH]; intros Hdir.
  - by apply decodes_root.
  - pose proof (rfc_range _ _ _ _ _ Hd) as Hr. rewrite zlen_encode_label in *.
    replace (p + (1 + zlen l)) with (p + 1 + zlen l) in * by lia.
    apply decodes_label; [done|done|lia|]. apply IH. intros q t c Hreach. apply (Hdir q t).
    apply holds_cons in Hh as [Hb _]. destruct Hl as [Hl _]. unfold MAX_DOMAIN_LABEL in Hl.
    by apply (reaches_label msg p (zlen l)); [|lia|].
  - pose proof (rfc_range _ _ _ _ _ Hd) as Hr. destruct (at_exists msg ((hi - 192) * 256 + lo)) as [c Hc]; [lia|].
    apply (decodes_pointer msg e p hi lo c ls next); try done; try lia.
    + apply (Hdir p ((hi - 192) * 256 + lo)); [by apply reaches_here|done].
    + apply IH. intros q t c' Hreach. apply (Hdir q t). by apply (reaches_pointer msg p hi lo).
Qed.

(** What is accepted and is no name of the RFC has a pointer that is cut
    off by the end of the packet or does not lead backwards. *)
Lemma decodes_rfc msg e p ls next : decodes msg e p ls next →
  rfc_name msg e p ls next ∨ ∃ q t, reaches msg p q t ∧ (e ≤ q + 1 ∨ q ≤ t).
Proof.
  induction 1 as [p Hp H0|p l ls next Hl Hh Hin Hd IH|p hi lo c ls next Hp Hb Hhi Hlo Hq Hc Hreal Hd IH].
  - left. by apply rfc_root.
  - destruct IH as [IH|(q & t & Hr & Ht)]; [left|right].
    + apply rfc_label; [done|done|rewrite zlen_encode_label; lia|]. rewrite zlen_encode_label.
      by replace (p + (1 + zlen l)) with (p + 1 + zlen l) by lia.
    + exists q, t. split; [|done]. apply holds_cons in Hh as [Hb _].
      destruct Hl as [Hl _]. unfold MAX_DOMAIN_LABEL in Hl.
      by apply (reaches_label msg p (zlen l)); [|lia|].
  - destruct (decide (p + 1 < e)); [destruct (decide ((hi - 192) * 256 + lo < p))|];
      [|right; exists p, ((hi - 192) * 256 + lo); split; [by apply reaches_here|lia]..].
    destruct IH as [IH|(q & t & Hr & Ht)]; [left; by apply (rfc_pointer msg e p hi lo ls next)|right].
    exists q, t. split; [|done]. by apply (reaches_pointer msg p hi lo).
Qed.

(** Both deviations occur: the code reads a pointer whose second byte is
    the first byte after the packet, and one that leads forward. *)
Example truncated_pointer_read :
  (∃ name, getDomainName [1; 97; 0; 192; 0] 3 4 (replicate 256 0) = Ret (name, Some 5)) ∧
  ∀ ls next, ~ rfc_name [1; 97; 0; 192; 0] 4 3 ls next.
Proof.
  split; [by eexists; vm_compute|]. intros ls next H. inversion H as [p ? Hb|p l ? ? [Hl _] Hh|]; subst; [|..|lia].
  - by destruct Hb as [_ Hb].
  - apply holds_cons in Hh as [[_ Hb] _]. unfold MAX_DOMAIN_LABEL in Hl.
    injection Hb as Hb. lia.
Qed.
Example forward_pointer_read :
  ∃ name, getDomainName [192; 2; 1; 97; 0; 0] 0 5 (replicate 256 0) = Ret (name, Some 2) ∧ is_name name [[97]].
Proof. eexists. split; [by vm_compute|]. split; [by vm_compute|].
  exists (replicate 253 0). by vm_compute.
Qed.

(** ** Properties *)

(** C15. Reading a name from a packet terminates on every packet, also one
    whose compression pointers form a loop: when one byte past the end of
    the packet is readable (the second byte of a pointer at the end is read
    there), [getDomainName] and [skipDomainName] return without access
    outside the buffer, at most 255 bytes of the result are written, what is
    stored is a legal name even when NULL is returned, and [skipDomainName]
    moves forward by at most one byte past the end of the packet. *)
Theorem name_reading_terminates msg p e name : bytes_ok msg → e < zlen msg → 256 ≤ zlen name →
  (∃ name' r, getDomainName msg p e name = Ret (name', r) ∧ same_tail name name' ∧
     (0 ≤ p < e → ∃ ls, name_ok ls ∧ is_name name' ls)) ∧
  ∃ r, skipDomainName msg p e = Ret r ∧ match r with Some n => 0 ≤ p < n ∧ n ≤ e + 1 | None => True end.
Proof.
  intros Hmsg He Hl. split; [|apply safe_elim, skipDomainName_total; [done|lia]].
  destruct (safe_elim _ _ (getDomainName_spec msg p e name Hmsg He Hl)) as ([name' r] & -> & Ht & Hok & _). by exists name', r.
Qed.
Lemma name_reading_terminates_witness : ∃ name' r,
  getDomainName [3; 97; 98; 99; 192; 0; 0] 4 6 (replicate 256 0) = Ret (name', r).
Proof.
  destruct (name_reading_terminates [3; 97; 98; 99; 192; 0; 0] 4 6 (replicate 256 0)) as [(name' & r & H & _) _];
    [by apply bytes_okb_ok|done|done|]. exists name', r. exact H.
Defined.

(** C8. [getDomainName] reads the names of RFC 1035: every name the format
    reads at the position, of at most 255 bytes and whose pointers lead to
    labels, is returned with exactly its labels and its end.  Conversely
    what it returns is a legal name that its own rules read there, and it is
    also a name of the format unless a pointer met on the way is cut off by
    the end of the packet or does not lead backwards, which the code does
    not check. *)
Theorem getDomainName_refines msg p e name : bytes_ok msg → e < zlen msg → 256 ≤ zlen name →
  ∃ name' r, getDomainName msg p e name = Ret (name', r) ∧
    (∀ ls next, rfc_name msg e p ls next → direct msg p → zlen (encode ls) ≤ MAX_DOMAIN_NAME →
       r = Some next ∧ name_ok ls ∧ is_name name' ls) ∧
    (∀ next, r = Some next → ∃ ls, name_ok ls ∧ is_name name' ls ∧ decodes msg e p ls next ∧
       (rfc_name msg e p ls next ∨ ∃ q t, reaches msg p q t ∧ (e ≤ q + 1 ∨ q ≤ t))).
Proof.
  intros Hmsg He Hl. destruct (safe_elim _ _ (getDomainName_spec msg p e name Hmsg He Hl)) as ([name' r] & -> & _ & _ & Hr).
  exists name', r. split; [done|]. simpl in Hr. unfold MAX_DOMAIN_NAME. split.
  - intros ls next Hrfc Hdir Hle. apply rfc_decodes in Hrfc as Hd; [|done|lia|done]. destruct r as [n|].
    + destruct Hr as (ls' & Hd' & Hok & Hn). by destruct (decodes_fun _ _ _ _ _ Hd _ _ Hd') as [-> ->].
    + specialize (Hr _ _ Hd). lia.
  - intros next ->. destruct Hr as (ls & Hd & Hok & Hn). exists ls. by eauto using decodes_rfc.
Qed.
Lemma getDomainName_refines_witness : ∃ name' r,
  getDomainName [1; 97; 0; 2; 98; 99; 192; 0; 0] 3 8 (replicate 256 0) = Ret (name', r) ∧
    (∀ ls next, rfc_name [1; 97; 0; 2; 98; 99; 192; 0; 0] 8 3 ls next →
       direct [1; 97; 0; 2; 98; 99; 192; 0; 0] 3 → zlen (encode ls) ≤ MAX_DOMAIN_NAME →
       r = Some next ∧ name_ok ls ∧ is_name name' ls) ∧
    (∀ next, r = Some next → ∃ ls, name_ok ls ∧ is_name name' ls ∧
       decodes [1; 97; 0; 2; 98; 99; 192; 0; 0] 8 3 ls next ∧
       (rfc_name [1; 97; 0; 2; 98; 99; 192; 0; 0] 8 3 ls next ∨
        ∃ q t, reaches [1; 97; 0; 2; 98; 99; 192; 0; 0] 3 q t ∧ (8 ≤ q + 1 ∨ q ≤ t))).
Proof. apply getDomainName_refines; [by apply bytes_okb_ok|done|done]. Defined.

(** [skipDomainName] agrees with [getDomainName]: where a name is read, it
    is skipped to the same position, although skipping does not follow
    compression pointers. *)
Theorem skip_agrees_with_get msg p e name name' next : bytes_ok msg → e < zlen msg → 256 ≤ zlen name →
  getDomainName msg p e name = Ret (name', Some next) → skipDomainName msg p e = Ret (Some next) ∧ p < next ≤ e + 1.
Proof.
  intros Hmsg He Hl Hg. destruct (safe_elim _ _ (getDomainName_spec msg p e name Hmsg He Hl)) as (res & Hg' & _ & _ & Hr).
  rewrite Hg in Hg'. injection Hg' as <-. destruct Hr as (ls & Hd & [_ Hle] & _).
  split; [by apply (skipDomainName_decodes msg p e ls)|]. by apply (decodes_next msg e p ls).
Qed.
Lemma skip_agrees_with_get_witness : skipDomainName [1; 97; 0; 2; 98; 99; 192; 0; 0] 3 8 = Ret (Some 8).
Proof.
  destruct (skip_agrees_with_get [1; 97; 0; 2; 98; 99; 192; 0; 0] 3 8 (replicate 256 0)
    (write (replicate 256 0) 0 [2; 98; 99; 1; 97; 0]) 8) as [H _]; [by apply bytes_okb_ok|done|done|by vm_compute|]. exact H.
Defined.
