(* ===== verification/DNSWirePut.v ===== *)
(** Writing domain names into messages: [FindCompressionPointer],
    [putDomainNameAsLabels] and the word writers of [DNSCommon.c].

    The message under construction is a buffer whose first byte has offset 0;
    [compress] says whether the [msg] argument of the C function is not NULL.
    The theorems show that what is written decodes, with the rules of
    [DNSWireGet.decodes], to the labels of the name that was put. *)
From S2P Require Import Prelude Bytes DNSTypes DNSName DNSWireGet.

(** ** Searching a compression target *)

(** [for (i=0; i <= *name; i++) if (targ[i] != name[i]) break;]: do [n] bytes match? *)
Fixpoint match_bytes (n : nat) (a : list Z) (p : Z) (b : list Z) (q : Z) : outcome bool :=
  match n with
  | O => Ret true
  | S n =>
    let* x := aget a p in
    let* y := aget b q in
    if negb (x =? y) then Ret false else match_bytes n a (p + 1) b (q + 1)
  end.

(** The inner loop: does the name at [domname + name] stand at [targ]? *)
Fixpoint FindCompressionPointer_match (fuel : nat) (msg : list Z) (e : Z) (domname : list Z) (targ name : Z)
    : outcome bool :=
  match fuel with
  | O => Fault OutOfFuel
  | S fuel =>
    let* len := aget domname name in
    if negb (targ + len <? e) then Ret false else
    let* same := match_bytes (Z.to_nat (len + 1)) msg targ domname name in
    if negb same then Ret false else
    let targ := targ + (1 + len) in
    let name := name + (1 + len) in
    let* n0 := aget domname name in
    let* t0 := aget msg targ in
    if (n0 =? 0) && (t0 =? 0) then Ret true else
    if n0 =? 0 then Ret false else
    if t0 <? 0x40 then FindCompressionPointer_match fuel msg e domname targ name else
    if t0 <? 0xC0 then Ret false else
    if e <=? targ + 1 then Ret false else
    let* t1 := aget msg (targ + 1) in
    let pointertarget := Z.shiftl (Z.land t0 0x3F) 8 + t1 in
    if targ <? pointertarget then Ret false else
    let* c := aget msg pointertarget in
    if 0x40 <=? c then Ret false else
    FindCompressionPointer_match fuel msg e domname pointertarget name
  end.

(** The outer loop, backwards from the end of the message. *)
Fixpoint FindCompressionPointer_loop (fuel : nat) (msg : list Z) (e : Z) (domname : list Z) (result : Z)
    : outcome (option Z) :=
  match fuel with
  | O => Fault OutOfFuel
  | S fuel =>
    if negb (0 <=? result) then Ret None else
    let* r0 := aget msg result in
    let* d0 := aget domname 0 in
    let* first := (if r0 =? d0 then
                     let* r1 := aget msg (result + 1) in
                     let* d1 := aget domname 1 in Ret (r1 =? d1)
                   else Ret false) in
    let* found := (if first : bool
                   then FindCompressionPointer_match (S (length domname)) msg e domname result 0
                   else Ret false) in
    if found : bool then Ret (Some result)
    else FindCompressionPointer_loop fuel msg e domname (result - 1)
  end.
Definition FindCompressionPointer (msg : list Z) (e : Z) (domname : list Z) : outcome (option Z) :=
  let* d0 := aget domname 0 in
  let result := e - d0 - 1 in
  if d0 =? 0 then Ret None
  else FindCompressionPointer_loop (S (Z.to_nat (result + 1))) msg e domname result.

(** ** Putting a name *)
Fixpoint putDomainNameAsLabels_loop (fuel : nat) (compress : bool) (buf : list Z) (ptr limit : Z)
    (name : list Z) (np searchlimit : Z) : outcome (list Z * option Z) :=
  match fuel with
  | O => Fault OutOfFuel
  | S fuel =>
    let* c := aget name np in
    if negb (c =? 0) && (ptr <? limit - 1) then
      if MAX_DOMAIN_LABEL <? c then Ret (buf, None) else
      if MAX_DOMAIN_NAME <=? np + 1 + c then Ret (buf, None) else
      let* pointer := (if compress then FindCompressionPointer buf searchlimit (ptr_add name np)
                       else Ret None) in
      match pointer with
      | Some pointer =>
        let offset := pointer mod 65536 in
        let* buf := aset buf ptr (u8 (Z.lor 0xC0 (Z.shiftr offset 8))) in
        let* buf := aset buf (ptr + 1) (u8 (Z.land offset 0xFF)) in
        Ret (buf, Some (ptr + 2))
      | None =>
        if limit <=? ptr + 1 + c then Ret (buf, None) else
        let* buf := aset buf ptr c in
        let* buf := copy c name (np + 1) buf (ptr + 1) in
        putDomainNameAsLabels_loop fuel compress buf (ptr + 1 + c) limit name (np + 1 + c) searchlimit
      end
    else if ptr <? limit then
      let* buf := aset buf ptr 0 in Ret (buf, Some (ptr + 1))
    else Ret (buf, None)
  end.
Definition putDomainNameAsLabels (compress : bool) (buf : list Z) (ptr : option Z) (limit : Z) (name : list Z)
    : outcome (list Z * option Z) :=
  match ptr with
  | None => Ret (buf, None)
  | Some ptr => putDomainNameAsLabels_loop (S (length name)) compress buf ptr limit name 0 ptr
  end.

(** ** Words *)
Definition putVal16 (buf : list Z) (ptr val : Z) : outcome (list Z * Z) :=
  let* buf := aset buf ptr (Z.land (Z.shiftr val 8) 0xFF) in
  let* buf := aset buf (ptr + 1) (Z.land val 0xFF) in
  Ret (buf, ptr + 2).
Definition putVal32 (buf : list Z) (ptr val : Z) : outcome (list Z * Z) :=
  let* buf := aset buf ptr (Z.land (Z.shiftr val 24) 0xFF) in
  let* buf := aset buf (ptr + 1) (Z.land (Z.shiftr val 16) 0xFF) in
  let* buf := aset buf (ptr + 2) (Z.land (Z.shiftr val 8) 0xFF) in
  let* buf := aset buf (ptr + 3) (Z.land val 0xFF) in
  Ret (buf, ptr + 4).
Definition getVal16 (buf : list Z) (ptr : Z) : outcome (Z * Z) :=
  let* hi := aget buf ptr in
  let* lo := aget buf (ptr + 1) in
  Ret (Z.lor (Z.shiftl hi 8) lo, ptr + 2).

(** ** A compression target decodes to the name

    The header of a message changes after names have been written behind it:
    the counts are incremented.  [lo] is the offset from which on the bytes
    of the message stay; [agree buf buf' e]: the two buffers have the same
    bytes from [lo] to [e]. *)
Section Stable.
Context (lo : Z).
Hypothesis Hlo : 0 ≤ lo.

Definition agree (buf buf' : list Z) (e : Z) : Prop :=
  ∀ i x, lo ≤ i < e → at_ buf i x → at_ buf' i x.
Lemma agree_refl buf e : agree buf buf e.
Proof. by intros ?. Qed.
Lemma agree_trans a b c e e' : agree a b e → agree b c e' → e ≤ e' → agree a c e.
Proof. intros H1 H2 He i x Hi Hx. apply H2; [lia|]. by apply H1. Qed.
Lemma agree_le a b e e' : agree a b e' → e ≤ e' → agree a b e.
Proof. intros H He i x Hi. apply H. lia. Qed.
Lemma agree_write buf p bs e : 0 ≤ p → p + zlen bs ≤ zlen buf → e ≤ p → agree buf (write buf p bs) e.
Proof. intros ??? i x Hi Hx. by apply write_at_other; [| |lia|]. Qed.
Lemma agree_holds buf buf' e p bs : agree buf buf' e → zlen buf' = zlen buf → lo ≤ p → p + zlen bs ≤ e →
  holds buf p bs → holds buf' p bs.
Proof. intros Ha Hz Hl Hp Hh. apply (holds_ext buf); [done|done|]. intros i x Hi. apply Ha. lia. Qed.

(** The message before [e] ends with the last label of [ls], and the byte
    after it, which is not part of the message, happens to be zero. *)
Definition ends_flush (buf : list Z) (e : Z) (ls : list label) : Prop :=
  ∃ l, last ls = Some l ∧ holds buf (e - (1 + zlen l)) (encode_label l) ∧ at_ buf e 0.

(** The bytes before [lo] look like the start of the label [l]: its length
    and, if there is a byte after it, its first byte. *)
Definition in_header (buf : list Z) (l : label) : Prop :=
  ∃ i, i < lo ∧ at_ buf i (zlen l) ∧ (i + 1 < lo → ∃ x, head l = Some x ∧ at_ buf (i + 1) x).
Definition header_clear (buf : list Z) (ls : list label) : Prop := Forall (fun l => ¬ in_header buf l) ls.

Lemma header_clear_ext buf buf' ls : (∀ i x, i < lo → at_ buf' i x → at_ buf i x) →
  header_clear buf ls → header_clear buf' ls.
Proof.
  intros Hext H. apply (Forall_impl _ _ _ H). intros l Hl (i & Hi & Hx & Hy). apply Hl. exists i.
  split; [done|]. split; [by apply Hext|]. intros Hi'. destruct (Hy Hi') as (x & ? & ?). exists x. auto.
Qed.

Lemma match_bytes_spec a b n : ∀ p q xs, holds b q xs → length xs = n → 0 ≤ p → p + Z.of_nat n ≤ zlen a →
  safe (match_bytes n a p b q) (fun same => same = true → holds a p xs).
Proof.
  induction n as [|n IH]; intros p q xs Hb Hl Hp Hn.
  - destruct xs; [|done]. intros _. apply holds_nil. lia.
  - destruct xs as [|y xs]; [done|]. apply holds_cons in Hb as [Hy Hb]. simpl.
    destruct (at_exists a p) as [x Hx]; [lia|].
    rewrite (proj2 (aget_at _ _ _) Hx), (proj2 (aget_at _ _ _) Hy). simpl.
    destruct (Z.eqb_spec x y) as [->|]; simpl; [|done].
    eapply wp_mono; [apply (IH _ _ xs); [done|by injection Hl|lia|lia]|intros same Hs Ht|done].
    apply holds_cons. split; [done|]. by apply Hs.
Qed.

Section Find.
Context (msg msg' : list Z) (e E : Z).
Hypothesis Hmsg : bytes_ok msg.
Hypothesis He : e < zlen msg.
Hypothesis HE : e < E.
Hypothesis Hlen : zlen msg' = zlen msg.
Hypothesis Hagree : agree msg msg' e.

Lemma FindCompressionPointer_match_spec dn ls : ∀ fuel targ n, Forall label_ok ls → ls ≠ [] →
  holds dn n (encode ls) → 0 ≤ targ → (length ls ≤ fuel)%nat → ¬ ends_flush msg e ls → header_clear msg ls →
  safe (FindCompressionPointer_match fuel msg e dn targ n)
    (fun found => found = true → lo ≤ targ ∧ ∃ next, decodes msg' E targ ls next).
Proof.
  induction ls as [|l ls IH]; intros [|fuel] targ n Hok Hne Hn Ht Hf Hfl Hclr; simpl in Hf; try lia; [done|done|].
  clear Hne. apply Forall_cons in Hok as [Hl Hok]. pose proof Hl as [[Hl1 _] _].
  cbn [FindCompressionPointer_match]. rewrite (name_get_cons _ _ _ _ Hn). cbn [obind].
  destruct (Z.ltb_spec (targ + zlen l) e) as [Hin|]; cbn [negb]; [|done].
  apply wp_bind. eapply wp_mono;
    [apply (match_bytes_spec msg dn _ targ n (encode_label l)); [by apply (encode_first dn n (l :: ls))| |done|]
    |intros [] Hsame|done]; [unfold encode_label, zlen; simpl; lia|lia| |done].
  specialize (Hsame eq_refl). cbn [negb].
  assert (lo ≤ targ) as Htlo.
  { pose proof Hsame as [Hat _]%holds_cons. destruct (Z_lt_le_dec targ lo) as [Hlt|]; [|done].
    apply Forall_cons in Hclr as [Hnot _]. destruct Hnot. exists targ. split; [done|]. split; [done|]. intros _.
    destruct l as [|x l]; [by apply label_nonzero in Hl as []|]. exists x. split; [done|].
    by apply holds_cons in Hsame as [_ [? _]%holds_cons]. }
  assert (header_clear msg ls) as Hclr' by by apply Forall_cons in Hclr as [_ ?].
  assert (holds msg' targ (encode_label l)) as Hsame'.
  { apply (agree_holds msg msg' e); [done|done|done| |done]. rewrite zlen_encode_label. lia. }
  assert (∀ next', decodes msg' E (targ + (1 + zlen l)) ls next' → ∃ next, decodes msg' E targ (l :: ls) next) as Hstep.
  { intros next' Hd. exists next'. replace (targ + (1 + zlen l)) with (targ + 1 + zlen l) in Hd by lia.
    apply decodes_label; [done|done|lia|done]. }
  pose proof (name_next _ _ _ _ Hn) as Hnext. replace (n + 1 + zlen l) with (n + (1 + zlen l)) in Hnext by lia.
  destruct (encode_head dn _ ls Hok Hnext) as (n0 & Hn0 & Hz & _). rewrite (proj2 (aget_at _ _ _) Hn0). cbn [obind].
  destruct (at_exists msg (targ + (1 + zlen l))) as [t0 Ht0]; [lia|]. rewrite (proj2 (aget_at _ _ _) Ht0). cbn [obind].
  pose proof (bytes_ok_at _ _ _ Hmsg Ht0) as Ht8.
  destruct (Z.eqb_spec n0 0) as [->|Hnz]; cbn [andb].
  - destruct (Z.eqb_spec t0 0) as [->|]; [|done]. intros _. rewrite (proj1 Hz eq_refl) in *.
    destruct (decide (targ + (1 + zlen l) = e)) as [Heq|].
    + destruct Hfl. exists l. split; [done|]. rewrite <- Heq at 2.
      replace (e - (1 + zlen l)) with targ by lia. done.
    + split; [done|]. apply (Hstep (targ + (1 + zlen l) + 1)). apply decodes_root; [lia|]. apply Hagree; [lia|done].
  - assert (ls ≠ []) as Hne by (intros Hnil; by apply Hnz, Hz).
    assert (¬ ends_flush msg e ls) as Hfl'.
    { intros (l' & Hlast & Hrest). apply Hfl. exists l'. split; [|done]. by destruct ls. }
    destruct (Z.ltb_spec t0 64) as [Ht64|].
    { eapply wp_mono; [apply IH; (done || lia)|intros found Hfd Hfound|done].
      destruct (Hfd Hfound) as [_ [next Hd]]. split; [done|]. by apply (Hstep next). }
    destruct (Z.ltb_spec t0 192); [done|]. destruct (Z.leb_spec e (targ + (1 + zlen l) + 1)); [done|].
    destruct (at_exists msg (targ + (1 + zlen l) + 1)) as [t1 Ht1]; [lia|]. rewrite (proj2 (aget_at _ _ _) Ht1). cbn [obind].
    pose proof (bytes_ok_at _ _ _ Hmsg Ht1) as Ht18.
    assert (Z.shiftl (Z.land t0 63) 8 + t1 = (t0 - 192) * 256 + t1) as ->.
    { pose proof (pointer_target t0 t1 Ht8 ltac:(done) Ht18) as Hp. rewrite join16 in Hp by done.
      rewrite Z.shiftl_mul_pow2 by lia. change (2 ^ 8) with 256. lia. }
    set (q := (t0 - 192) * 256 + t1). destruct (Z.ltb_spec (targ + (1 + zlen l)) q) as [|Hq]; [done|].
    destruct (at_exists msg q) as [c Hc]; [lia|]. rewrite (proj2 (aget_at _ _ _) Hc). cbn [obind].
    destruct (Z.leb_spec 64 c); [done|].
    eapply wp_mono; [apply IH; (done || lia)|intros found Hfd Hfound|done].
    destruct (Hfd Hfound) as [Hqlo [next Hd]]. split; [done|]. apply (Hstep (targ + (1 + zlen l) + 2)).
    apply (decodes_pointer _ _ _ t0 t1 c ls next); try done; try lia; apply Hagree; try done; lia.
Qed.
End Find.

(** The name [ls] stands at [p] in whatever way the message goes on after [e]. *)
Definition stable_name (msg : list Z) (e p : Z) (ls : list label) : Prop :=
  ∀ msg' E, zlen msg' = zlen msg → agree msg msg' e → e < E → ∃ next, decodes msg' E p ls next.

Definition find_post (msg : list Z) (e : Z) (ls : list label) (r : option Z) : Prop :=
  match r with
  | Some q => lo ≤ q < e ∧ (∃ c, at_ msg q c ∧ c < 64) ∧ stable_name msg e q ls
  | None => True
  end.

Section FindPointer.
Context (msg : list Z) (e : Z) (dn : list Z) (l : label) (ls : list label).
Hypothesis Hmsg : bytes_ok msg.
Hypothesis He : e < zlen msg.
Hypothesis Hok : Forall label_ok (l :: ls).
Hypothesis Hdn : is_name dn (l :: ls).
Hypothesis Hfl : ¬ ends_flush msg e (l :: ls).
Hypothesis Hclr : header_clear msg (l :: ls).

Lemma FindCompressionPointer_match_stable q : 0 ≤ q → 
  safe (FindCompressionPointer_match (S (length dn)) msg e dn q 0)
    (fun found => found = true → lo ≤ q ∧ stable_name msg e q (l :: ls)).
Proof.
  intros Hq. assert (length (l :: ls) ≤ S (length dn))%nat as Hf by (pose proof (is_name_fuel _ _ Hdn); lia).
  assert (∀ msg' E, e < E → zlen msg' = zlen msg → agree msg msg' e →
    safe (FindCompressionPointer_match (S (length dn)) msg e dn q 0)
      (fun found => found = true → lo ≤ q ∧ ∃ next, decodes msg' E q (l :: ls) next)) as Hs.
  { intros msg' E HE Hl Ha. by apply (FindCompressionPointer_match_spec msg msg' e E). }
  destruct (safe_elim _ _ (Hs msg (e + 1) ltac:(lia) eq_refl (agree_refl _ _))) as (b & Hb & _).
  rewrite Hb in *. intros ->. split.
  - apply (Hs msg (e + 1)); [lia|done|apply agree_refl|done].
  - intros msg' E Hl Ha HE. by destruct (Hs msg' E HE Hl Ha eq_refl) as [_ ?].
Qed.

Lemma FindCompressionPointer_loop_spec : ∀ fuel result, result + 1 + zlen l ≤ e →
  Z.max 0 (result + 1) < Z.of_nat fuel →
  safe (FindCompressionPointer_loop fuel msg e dn result) (find_post msg e (l :: ls)).
Proof.
  pose proof Hok as [Hl Hok']%Forall_cons. pose proof Hl as [[Hl1 Hl2] _]. unfold MAX_DOMAIN_LABEL in Hl2.
  pose proof (is_name_fuel _ _ Hdn). pose proof (name_get_cons _ _ _ _ Hdn) as Hd0.
  assert (∃ d1, aget dn 1 = Ret d1) as [d1 Hd1].
  { destruct (at_exists dn 1) as [d1 Hd]; [|exists d1; by apply aget_at].
    apply holds_range in Hdn. rewrite zlen_encode_cons in Hdn. pose proof (zlen_nonneg (encode ls)). lia. }
  induction fuel as [|fuel IH]; intros result Hr Hf; [lia|]. cbn [FindCompressionPointer_loop].
  destruct (Z.leb_spec 0 result) as [H0|]; cbn [negb]; [|done].
  destruct (at_exists msg result) as [r0 Hr0]; [lia|]. destruct (at_exists msg (result + 1)) as [r1 Hr1]; [lia|].
  rewrite (proj2 (aget_at _ _ _) Hr0), Hd0. cbn [obind].
  destruct (Z.eqb_spec r0 (zlen l)) as [->|]; cbn [obind]; [|apply IH; lia].
  rewrite (proj2 (aget_at _ _ _) Hr1), Hd1. cbn [obind]. destruct (r1 =? d1); cbn [obind]; [|apply IH; lia].
  apply wp_bind. eapply wp_mono; [by apply FindCompressionPointer_match_stable|intros [] Hst|done]; [|apply IH; lia].
  destruct (Hst eq_refl). split; [lia|]. split; [by exists (zlen l); split; [|lia]|done].
Qed.

Lemma FindCompressionPointer_spec : 0 ≤ e → safe (FindCompressionPointer msg e dn) (find_post msg e (l :: ls)).
Proof.
  intros H0. unfold FindCompressionPointer. rewrite (name_get_cons _ _ _ _ Hdn). cbn [obind].
  pose proof Hok as [Hl _]%Forall_cons. rewrite (proj1 (label_nonzero l Hl)).
  apply FindCompressionPointer_loop_spec; lia.
Qed.
End FindPointer.

(** ** What putting a name establishes

    [name_at buf p ls next]: the bytes of [buf] from [p] to [next] are a name
    with the labels [ls], however the message goes on after [next]. *)
Definition name_at (buf : list Z) (p : Z) (ls : list label) (next : Z) : Prop :=
  ∀ buf' E, zlen buf' = zlen buf → agree buf buf' next → next ≤ E → decodes buf' E p ls next.

Lemma name_at_agree buf buf' p ls next : name_at buf p ls next → zlen buf' = zlen buf →
  agree buf buf' next → name_at buf' p ls next.
Proof.
  intros Hn Hz Ha buf2 E Hz2 Ha2 HE. apply Hn; [congruence| |done]. by apply (agree_trans _ buf' _ next next).
Qed.

Lemma name_at_root buf p : lo ≤ p → at_ buf p 0 → name_at buf p [] (p + 1).
Proof. intros Hp Hb buf' E Hz Ha HE. apply decodes_root; [lia|]. apply Ha; [lia|done]. Qed.

Lemma name_at_label buf p l ls next : lo ≤ p → label_ok l → holds buf p (encode_label l) →
  name_at buf (p + 1 + zlen l) ls next → p + 1 + zlen l < next → name_at buf p (l :: ls) next.
Proof.
  intros Hp Hl Hh Hn Hnx buf' E Hz Ha HE. apply decodes_label; [done| |lia|by apply Hn].
  apply (agree_holds buf buf' next); [done|done|done|rewrite zlen_encode_label; lia|done].
Qed.

Lemma name_at_pointer buf p q ls s : lo ≤ q < 16384 → q < s → s ≤ p → stable_name buf s q ls →
  (∃ c, at_ buf q c ∧ c < 64) → holds buf p [192 + q / 256; q mod 256] → name_at buf p ls (p + 2).
Proof.
  intros Hq Hqs Hsp Hst (c & Hc & Hc64) [Hhi [Hlow _]%holds_cons]%holds_cons buf' E Hz Ha HE.
  destruct (Hst buf' E Hz) as [next Hd]; [by apply (agree_le _ _ s (p + 2)); [|lia]|lia|].
  assert ((192 + q / 256 - 192) * 256 + q mod 256 = q) as Heq by (Z.div_mod_to_equations; lia).
  apply (decodes_pointer buf' E p (192 + q / 256) (q mod 256) c ls next); rewrite ?Heq;
    try (apply Ha; [lia|done]); try done; try lia. Z.div_mod_to_equations; lia.
Qed.

(** A write inside [[ptr, limit)], and where it may have happened. *)
Definition writes_in (buf buf' : list Z) (ptr limit : Z) : Prop :=
  zlen buf' = zlen buf ∧ (bytes_ok buf → bytes_ok buf') ∧
  ∀ i x, i < ptr ∨ limit ≤ i → at_ buf' i x ↔ at_ buf i x.
Lemma writes_in_refl buf p l : writes_in buf buf p l.
Proof. done. Qed.
Lemma writes_in_trans a b c p p' l : writes_in a b p l → writes_in b c p' l → p ≤ p' → writes_in a c p l.
Proof.
  intros (H1 & H2 & H3) (H4 & H5 & H6) Hp. split; [congruence|]. split; [auto|].
  intros i x Hi. rewrite H6 by lia. by apply H3.
Qed.
Lemma writes_in_write buf p bs l : 0 ≤ p → p + zlen bs ≤ l → l ≤ zlen buf → bytes_ok bs →
  writes_in buf (write buf p bs) p l.
Proof.
  intros. split; [apply zlen_write; lia|]. split; [by intros; apply write_bytes_ok|].
  intros i x Hi. apply write_at_other; lia.
Qed.
Lemma writes_in_agree buf buf' p l e : writes_in buf buf' p l → e ≤ p → agree buf buf' e.
Proof. intros (_ & _ & H) He i x Hi Hx. apply H; [lia|done]. Qed.

Definition put_post (buf : list Z) (ptr limit : Z) (ls : list label) (res : list Z * option Z) : Prop :=
  writes_in buf res.1 ptr limit ∧
  match res.2 with
  | Some next => ptr < next ≤ limit ∧ next ≤ ptr + zlen (encode ls) ∧
      ∃ ls', name_at res.1 ptr ls' next ∧
        (ls' = ls ∨ next = limit ∧ limit < ptr + zlen (encode ls) ∧ ls' `prefix_of` ls)
  | None => limit < ptr + zlen (encode ls)
  end.

(** A label written, then the rest of the name. *)
Lemma put_post_label buf ptr limit l ls res : label_ok l → lo ≤ ptr → ptr + 1 + zlen l < limit → limit ≤ zlen buf →
  put_post (write buf ptr (encode_label l)) (ptr + 1 + zlen l) limit ls res → put_post buf ptr limit (l :: ls) res.
Proof.
  intros Hl Hp Hfit Hlim [Hw Hr]. pose proof Hl as [[Hl1 Hl2] Hlb]. pose proof (zlen_encode_label l) as Hel.
  unfold MAX_DOMAIN_LABEL in Hl2.
  assert (bytes_ok (encode_label l)) as Heb by (constructor; [lia|done]).
  assert (writes_in buf (write buf ptr (encode_label l)) ptr limit) as Hw1 by (apply writes_in_write; (done || lia)).
  split; [apply (writes_in_trans _ _ _ _ _ _ Hw1 Hw); lia|].
  destruct (res.2) as [next|]; [|rewrite zlen_encode_cons; lia].
  destruct Hr as (Hnx & Hle & ls' & Hn & Hc). split; [lia|]. rewrite zlen_encode_cons. split; [lia|].
  exists (l :: ls'). split.
  - apply name_at_label; [done|done| |done|lia].
    apply (agree_holds (write buf ptr (encode_label l)) _ (ptr + 1 + zlen l));
      [by apply (writes_in_agree _ _ (ptr + 1 + zlen l) limit); [|lia]|apply Hw|lia|lia|apply write_holds; lia].
  - destruct Hc as [->|(-> & ? & ?)]; [by left|right]. split; [done|]. split; [lia|]. by apply prefix_cons.
Qed.

(** Once a label stands at or after [s], nothing ends flush there that did not before. *)
Lemma ends_flush_write buf s ptr l ls : label_ok l → 0 ≤ ptr → ptr + 1 + zlen l ≤ zlen buf → s ≤ ptr →
  ¬ ends_flush buf s (l :: ls) → ¬ ends_flush (write buf ptr (encode_label l)) s ls.
Proof.
  intros [[Hl1 _] _] Hp Hfit Hs Hfl (l' & Hlast & Hh & Hz). pose proof (zlen_encode_label l).
  destruct (decide (s = ptr)) as [->|].
  - assert (holds (write buf ptr (encode_label l)) ptr (encode_label l)) as [Hb _]%holds_cons by (apply write_holds; lia).
    pose proof (at_fun _ _ _ _ Hb Hz). lia.
  - apply Hfl. exists l'. split; [by destruct ls|]. split.
    + apply (holds_ext (write buf ptr (encode_label l))); [done|rewrite zlen_write; lia|].
      intros i x Hi Hx. rewrite zlen_encode_label in Hi. apply write_at_other in Hx; [done|lia..].
    + apply write_at_other in Hz; [done|lia..].
Qed.

Lemma pointer_bytes q : 0 ≤ q < 16384 →
  u8 (Z.lor 192 (Z.shiftr (q mod 65536) 8)) = 192 + q / 256 ∧ u8 (Z.land (q mod 65536) 255) = q mod 256.
Proof.
  intros Hq. rewrite Z.mod_small, Z.shiftr_div_pow2 by lia. change (2 ^ 8) with 256.
  change 255 with (Z.ones 8). rewrite Z.land_ones by lia. change (2 ^ 8) with 256.
  assert (0 ≤ q / 256 < 2 ^ 6) by (change (2 ^ 6) with 64; Z.div_mod_to_equations; lia).
  rewrite Z.lor_comm. change 192 with (Z.shiftl 3 6) at 1. rewrite lor_shift_add by lia.
  change (2 ^ 6) with 64 in *. rewrite !u8_id by (Z.div_mod_to_equations; lia). lia.
Qed.

Lemma put_pointer {B} buf p q (k : list Z → outcome B) : 0 ≤ q < 16384 → 0 ≤ p → p + 2 ≤ zlen buf →
  (let* buf := aset buf p (u8 (Z.lor 0xC0 (Z.shiftr (q mod 65536) 8))) in
   let* buf := aset buf (p + 1) (u8 (Z.land (q mod 65536) 0xFF)) in k buf) =
  k (write buf p [192 + q / 256; q mod 256]).
Proof.
  intros Hq Hp Hl. destruct (pointer_bytes q Hq) as [-> ->].
  rewrite aset_write by lia. cbn [obind]. rewrite aset_write by (rewrite zlen_write; change (zlen [192 + q / 256]) with 1; lia).
  cbn [obind]. change (p + 1) with (p + zlen [192 + q / 256]). rewrite write_app; [done|done|].
  change (zlen [192 + q / 256]) with 1. change (zlen [q mod 256]) with 1. lia.
Qed.

Lemma put_root buf ptr limit : lo ≤ ptr < limit → limit ≤ zlen buf →
  writes_in buf (write buf ptr [0]) ptr limit ∧ name_at (write buf ptr [0]) ptr [] (ptr + 1).
Proof.
  intros Hp Hl. split.
  - apply writes_in_write; [lia|change (zlen [0]) with 1; lia|done|by apply bytes_okb_ok].
  - apply name_at_root; [lia|]. rewrite <- insert_write by lia. apply at_insert_eq. lia.
Qed.

(** A compression target found before [s], and a pointer to it written. *)
Lemma put_post_pointer buf ptr limit s q ls : find_post buf s ls (Some q) → ls ≠ [] → Forall label_ok ls →
  lo ≤ s ≤ ptr → s ≤ 16384 → ptr + 2 ≤ limit → limit ≤ zlen buf →
  put_post buf ptr limit ls (write buf ptr [192 + q / 256; q mod 256], Some (ptr + 2)).
Proof.
  intros (Hqr & Hqc & Hst) Hne Hok Hs Hs16 Hroom Hlim.
  assert (writes_in buf (write buf ptr [192 + q / 256; q mod 256]) ptr limit) as Hw.
  { apply writes_in_write; [lia|change (zlen [192 + q / 256; q mod 256]) with 2; lia|done|].
    repeat constructor; Z.div_mod_to_equations; lia. }
  assert (3 ≤ zlen (encode ls)) as H3.
  { destruct ls as [|l ls]; [done|]. rewrite zlen_encode_cons. apply Forall_cons in Hok as [[[? _] _] _].
    pose proof (zlen_encode_pos ls). lia. }
  split; [done|]. split; [lia|]. split; [lia|]. exists ls. split; [|by left].
  apply (name_at_pointer _ ptr q _ s); [lia|lia|lia| | |].
  - intros buf' E Hz Ha HE. apply Hst; [rewrite Hz; apply Hw| |done].
    apply (agree_trans _ (write buf ptr [192 + q / 256; q mod 256]) _ s s); [|done|lia].
    apply (writes_in_agree _ _ ptr limit); [done|lia].
  - destruct Hqc as (c & Hqa & Hc64). exists c. split; [|done]. by apply Hw; [lia|].
  - apply write_holds; [lia|change (zlen [192 + q / 256; q mod 256]) with 2; lia].
Qed.

Lemma putDomainNameAsLabels_loop_spec compress name limit s ls : ∀ fuel buf ptr np,
  Forall label_ok ls → holds name np (encode ls) → np + zlen (encode ls) ≤ 255 → bytes_ok buf →
  lo ≤ s ≤ ptr → limit ≤ zlen buf → (compress = true → s ≤ 16384 ∧ ¬ ends_flush buf s ls ∧ header_clear buf ls) →
  (length ls < fuel)%nat →
  safe (putDomainNameAsLabels_loop fuel compress buf ptr limit name np s) (put_post buf ptr limit ls).
Proof.
  induction ls as [|l ls IH]; intros [|fuel] buf ptr np Hok Hn Hlen Hbuf Hs Hlim Hc Hf; simpl in Hf; try lia;
    cbn [putDomainNameAsLabels_loop].
  - rewrite (name_get_nil _ _ Hn). cbn [obind]. change (zlen (encode [])) with 1. cbn [Z.eqb negb andb].
    destruct (Z.ltb_spec ptr limit); [|split; [done|cbn [snd]; change (zlen (encode [])) with 1; lia]].
    rewrite aset_write by lia. cbn [obind]. destruct (put_root buf ptr limit) as [Hw Hr]; [lia|done|].
    split; [done|]. change (zlen (encode [])) with 1. split; [lia|]. split; [cbn; lia|]. exists []. split; [done|by left].
  - pose proof Hok as [Hl Hok']%Forall_cons. rewrite (name_get_cons _ _ _ _ Hn). cbn [obind].
    destruct (label_nonzero l Hl) as (-> & -> & _). pose proof (zlen_encode_cons l ls) as Hel.
    pose proof (zlen_encode_pos ls). pose proof Hl as [[Hl1 _] _]. cbn [negb andb]. unfold MAX_DOMAIN_NAME.
    destruct (Z.ltb_spec ptr (limit - 1)) as [Hroom|Hfull].
    + rewrite (proj2 (Z.leb_gt _ _)) by lia.
      assert (safe (if compress then FindCompressionPointer buf s (ptr_add name np) else Ret None)
        (fun r => compress = true → find_post buf s (l :: ls) r)) as HF.
      { destruct compress; [|done]. eapply wp_mono; [apply (FindCompressionPointer_spec buf s _ l ls)|done|done];
          [done|lia|done|by apply is_name_ptr_add|by apply Hc|by apply Hc|lia]. }
      apply wp_bind. destruct (safe_elim _ _ HF) as ([q|] & Hfind & Hq).
      * rewrite Hfind. cbn [wp]. destruct compress; [|done]. pose proof (Hq eq_refl) as ([? ?] & _).
        destruct (Hc eq_refl) as [Hs16 _]. rewrite put_pointer by lia.
        apply (put_post_pointer buf ptr limit s q); (done || lia || by apply Hq).
      * rewrite Hfind. cbn [wp]. destruct (Z.leb_spec limit (ptr + 1 + zlen l)); [split; [done|cbn [snd]; lia]|].
        pose proof (zlen_encode_label l). rewrite store_label_text; [|by apply holds_encode_cons in Hn as (_ & ? & _)|lia|lia].
        eapply wp_mono; [apply IH|intros res Hres; apply put_post_label; (done || lia)|done].
        -- done.
        -- by apply name_next.
        -- lia.
        -- apply write_bytes_ok; [done|]. constructor; [unfold label_ok, MAX_DOMAIN_LABEL in Hl; lia|apply Hl].
        -- lia.
        -- rewrite zlen_write; lia.
        -- intros Hct. destruct (Hc Hct) as (? & ? & Hclr). split; [done|]. split; [apply ends_flush_write; (done || lia)|].
           apply Forall_cons in Hclr as [_ Hclr]. apply (header_clear_ext buf); [|done].
           intros i x Hi Hx. by apply write_at_other in Hx; [|lia..].
        -- lia.
    + destruct (Z.ltb_spec ptr limit); [|split; [done|cbn [snd]; lia]].
      rewrite aset_write by lia. cbn [obind]. destruct (put_root buf ptr limit) as [Hw Hr]; [lia|done|].
      split; [done|]. split; [lia|]. split; [lia|]. exists []. split; [done|].
      right. split; [lia|]. split; [lia|]. apply prefix_nil.
Qed.

Lemma putDomainNameAsLabels_spec compress buf ptr limit name ls :
  name_ok ls → is_name name ls → bytes_ok buf → lo ≤ ptr → limit ≤ zlen buf →
  (compress = true → ptr ≤ 16384 ∧ ¬ ends_flush buf ptr ls ∧ header_clear buf ls) →
  safe (putDomainNameAsLabels compress buf (Some ptr) limit name) (put_post buf ptr limit ls).
Proof.
  intros [Hok Hlen] Hn Hbuf Hp Hlim Hc. unfold MAX_DOMAIN_NAME in Hlen.
  apply putDomainNameAsLabels_loop_spec; (done || lia || by apply is_name_fuel).
Qed.

(** With room for the name it is put as a whole. *)
Lemma putDomainNameAsLabels_fits compress buf ptr limit name ls :
  name_ok ls → is_name name ls → bytes_ok buf → lo ≤ ptr → limit ≤ zlen buf →
  (compress = true → ptr ≤ 16384 ∧ ¬ ends_flush buf ptr ls ∧ header_clear buf ls) → ptr + zlen (encode ls) ≤ limit →
  ∃ buf' next, putDomainNameAsLabels compress buf (Some ptr) limit name = Ret (buf', Some next) ∧
    writes_in buf buf' ptr limit ∧ ptr < next ≤ ptr + zlen (encode ls) ∧ name_at buf' ptr ls next.
Proof.
  intros Hok Hn Hbuf Hp Hlim Hc Hfit.
  destruct (safe_elim _ _ (putDomainNameAsLabels_spec compress buf ptr limit name ls Hok Hn Hbuf Hp Hlim Hc))
    as ([buf' [next|]] & Hput & Hw & Hr); cbn [fst snd] in *; [|lia].
  destruct Hr as (Hnx & Hle & ls' & Hna & [->|(_ & ? & _)]); [|lia].
  exists buf', next. split_and!; (done || lia).
Qed.

End Stable.

(** ** Words *)
Lemma putVal16_spec buf p v : is_u16 v → 0 ≤ p → p + 2 ≤ zlen buf →
  putVal16 buf p v = Ret (write buf p (be16 v), p + 2).
Proof.
  intros Hv Hp Hl. unfold putVal16. rewrite Z.shiftr_div_pow2 by lia. change (2 ^ 8) with 256.
  change 255 with (Z.ones 8). rewrite !Z.land_ones by lia. change (2 ^ 8) with 256.
  rewrite (Z.mod_small (v / 256)) by (Z.div_mod_to_equations; lia).
  rewrite aset_write by lia. cbn [obind]. by rewrite aset_app by (done || lia).
Qed.

Lemma putVal32_spec buf p v : is_u32 v → 0 ≤ p → p + 4 ≤ zlen buf →
  putVal32 buf p v = Ret (write buf p (be32 v), p + 4).
Proof.
  intros Hv Hp Hl. unfold putVal32. rewrite !Z.shiftr_div_pow2 by lia.
  change 255 with (Z.ones 8). rewrite !Z.land_ones by lia.
  change (2 ^ 8) with 256. change (2 ^ 16) with 65536. change (2 ^ 24) with 16777216.
  rewrite (Z.mod_small (v / 16777216)) by (Z.div_mod_to_equations; lia).
  rewrite aset_write by lia. cbn [obind]. by do 3 (rewrite aset_app by (done || lia); cbn [obind app]).
Qed.

(** ** Properties *)
Lemma header_clear_0 buf ls : header_clear 0 buf ls.
Proof. apply Forall_forall. intros l _ (i & Hi & [? _] & _). lia. Qed.

(** C11. A legal name that [putDomainNameAsLabels] puts into a message that
    has room for all its bytes before the limit, with or without compression
    against the bytes before it, is read back by [getDomainName]: in at most
    as many bytes as the name has, which end at the position both functions
    return.  Compression is asked for at a position of at most 16384, and the
    last label of the name must not stand at the very end of the message,
    followed by a stray zero byte.  (With less room the name may be cut
    without an error.) *)
Theorem name_wire_roundtrip compress buf ptr limit name ls out : name_ok ls → is_name name ls → bytes_ok buf → 0 ≤ ptr →
  limit ≤ zlen buf → (compress = true → ptr ≤ 16384 ∧ ¬ ends_flush buf ptr ls) → ptr + zlen (encode ls) ≤ limit →
  256 ≤ zlen out →
  ∃ buf' next, putDomainNameAsLabels compress buf (Some ptr) limit name = Ret (buf', Some next) ∧
    ptr < next ≤ ptr + zlen (encode ls) ∧ writes_in buf buf' ptr limit ∧
    ∀ e, next ≤ e < zlen buf → ∃ out', getDomainName buf' ptr e out = Ret (out', Some next) ∧ is_name out' ls.
Proof.
  intros Hok Hn Hb Hp Hlim Hc Hfit Hout.
  destruct (putDomainNameAsLabels_fits 0 ltac:(lia) compress buf ptr limit name ls) as (buf' & next & Hput & Hw & Hnx & Hat); try done.
  { intros Hct. destruct (Hc Hct). split_and!; [done..|apply header_clear_0]. }
  exists buf', next. split; [done|]. split; [done|]. split; [done|]. intros e He. destruct Hw as (Hz & Hb' & _).
  destruct (getDomainName_decodes buf' ptr e out ls next) as (out' & ? & ? & _); [by apply Hb'|lia|done| |apply Hok|by exists out'].
  apply Hat; [done|apply agree_refl|lia].
Qed.

(** The second of two names is put as one label and a pointer. *)
Lemma name_wire_roundtrip_witness :
  let buf := [0; 0; 0; 0; 0; 0; 0; 0; 0; 0; 0; 0; 3; 97; 98; 99; 2; 100; 101; 0; 0; 1; 0; 1] ++ replicate 30 0 in
  ∃ buf' next, putDomainNameAsLabels true buf (Some 24) 50 (encode [[120]; [100; 101]]) = Ret (buf', Some next) ∧
    ∃ out', getDomainName buf' 24 next (replicate 256 0) = Ret (out', Some next) ∧ is_name out' [[120]; [100; 101]].
Proof.
  intros buf.
  destruct (name_wire_roundtrip true buf 24 50 (encode [[120]; [100; 101]]) [[120]; [100; 101]] (replicate 256 0))
    as (buf' & next & Hput & Hnx & _ & Hget);
    [by apply name_okb_ok|apply is_name_encode|by apply bytes_okb_ok|done|done| |done|done|].
  { intros _. split; [done|]. intros (l & [= <-] & [_ [Hx _]%holds_cons]%holds_cons & _). destruct Hx as [_ Hx]. discriminate. }
  exists buf', next. split; [exact Hput|]. apply Hget. change (zlen (encode [[120]; [100; 101]])) with 6 in Hnx. change (zlen buf) with 54. lia.
Defined.

(** Putting a name stays in bounds: [putDomainNameAsLabels] returns, no
    byte outside [ptr, limit) changes, the result lies in that range, and NULL
    is returned only for a name that does not fit. *)
Theorem put_name_in_bounds compress buf ptr limit name ls : name_ok ls → is_name name ls → bytes_ok buf → 0 ≤ ptr →
  limit ≤ zlen buf → (compress = true → ptr ≤ 16384 ∧ ¬ ends_flush buf ptr ls) →
  safe (putDomainNameAsLabels compress buf (Some ptr) limit name) (fun '(buf', r) => writes_in buf buf' ptr limit ∧
    match r with
    | Some next => ptr < next ≤ limit ∧ next ≤ ptr + zlen (encode ls)
    | None => limit < ptr + zlen (encode ls)
    end).
Proof.
  intros Hok Hn Hb Hp Hlim Hc.
  assert (compress = true → ptr ≤ 16384 ∧ ¬ ends_flush buf ptr ls ∧ header_clear 0 buf ls) as Hc'.
  { intros Hct. destruct (Hc Hct). split_and!; [done..|apply header_clear_0]. }
  eapply wp_mono; [by apply (putDomainNameAsLabels_spec 0 ltac:(lia) compress buf ptr limit name ls)| |done].
  intros [buf' [next|]] [Hw Hr]; simpl in *; [|done]. by destruct Hr as (? & ? & _).
Qed.
Lemma put_name_in_bounds_witness :
  safe (putDomainNameAsLabels false (replicate 20 7) (Some 3) 6 (encode [[97; 98]; [99]])) (fun '(buf', r) =>
    writes_in (replicate 20 7) buf' 3 6 ∧
    match r with
    | Some next => 3 < next ≤ 6 ∧ next ≤ 3 + zlen (encode [[97; 98]; [99]])
    | None => 6 < 3 + zlen (encode [[97; 98]; [99]])
    end).
Proof. apply put_name_in_bounds; [by apply name_okb_ok|apply is_name_encode|by apply bytes_okb_ok|done|done|done]. Defined.

(** C40. A name put without compression whose first label ends one byte
    before the limit is cut there without an error: [putDomainNameAsLabels] writes a root label in place of
    the remaining labels and returns the limit. *)
Theorem put_truncates_at_limit buf ptr l ls name : name_ok (l :: ls) → ls ≠ [] → is_name name (l :: ls) → 0 ≤ ptr →
  ptr + 2 + zlen l ≤ zlen buf →
  putDomainNameAsLabels false buf (Some ptr) (ptr + 2 + zlen l) name = Ret (write buf ptr (encode [l]), Some (ptr + 2 + zlen l)).
Proof.
  intros [Hok Hlen] Hne Hn Hp Hl. apply Forall_cons in Hok as [Hl1 Hok]. pose proof Hl1 as [[H1 H63] _].
  unfold MAX_DOMAIN_NAME, MAX_DOMAIN_LABEL in *. rewrite zlen_encode_cons in Hlen. pose proof (zlen_encode_pos ls).
  pose proof (is_name_fuel _ _ Hn) as Hf. pose proof (name_next _ _ _ _ Hn) as Hn2. rewrite Z.add_0_l in Hn2.
  unfold putDomainNameAsLabels. destruct (length name) as [|k]; [simpl in Hf; lia|].
  remember (S k) as fuel eqn:Hfuel. cbn [putDomainNameAsLabels_loop]. rewrite (name_get_cons _ _ _ _ Hn). cbn [obind]. rewrite (proj1 (label_nonzero l Hl1)). cbn [negb andb].
  unfold MAX_DOMAIN_LABEL, MAX_DOMAIN_NAME.
  rewrite (proj2 (Z.ltb_lt _ _)), (proj2 (Z.ltb_ge _ _)), (proj2 (Z.leb_gt _ _)) by lia. cbn [obind].
  rewrite (proj2 (Z.leb_gt _ _)) by lia.
  pose proof (encode_first name 0 (l :: ls) Hn) as [_ Htext]%holds_cons.
  rewrite (store_label_text name (0 + 1) buf ptr l (fun buf => putDomainNameAsLabels_loop fuel false buf _ _ name _ _)) by (done || lia).
  subst fuel. cbn [putDomainNameAsLabels_loop]. replace (0 + 1 + zlen l) with (1 + zlen l) by lia.
  destruct (encode_head name (1 + zlen l) ls Hok Hn2) as (c & Hc & _). rewrite (proj2 (aget_at _ _ _) Hc). cbn [obind].
  rewrite (proj2 (Z.ltb_ge (ptr + 1 + zlen l) (ptr + 2 + zlen l - 1))), andb_false_r, (proj2 (Z.ltb_lt _ _)) by lia.
  pose proof (zlen_encode_label l) as He. rewrite aset_app by lia. cbn [obind]. do 2 f_equal; [|f_equal; lia].
  unfold encode, encode_labels. simpl. by rewrite app_nil_r.
Qed.
Lemma put_truncates_at_limit_witness :
  putDomainNameAsLabels false (replicate 20 7) (Some 0) 10 (encode [[97; 98; 99; 100; 101; 102; 103; 104]; [99]]) =
    Ret (write (replicate 20 7) 0 (encode [[97; 98; 99; 100; 101; 102; 103; 104]]), Some 10).
Proof.
  apply (put_truncates_at_limit (replicate 20 7) 0 [97; 98; 99; 100; 101; 102; 103; 104] [[99]]);
    [by apply name_okb_ok|done|apply is_name_encode|done|done].
Defined.
