(* ===== verification/DNSRecord.v ===== *)
(** Resource records in memory: the "Resource Record Utility Functions" of
    [DNSCommon.c], [RDataHashValue] to [ValidateRData], with
    [DomainNameHashValue]'s clients and [SetNewRData].

    The rdata of a record is a C union; its members are packed structs, so the
    union is modelled as what it is, memory: a list of bytes in which a member
    is found at its offset ([soa.rname] at 256, [srv.target] at 6, ...), the
    machine words of the members in little-endian order as on i386. *)
From S2P Require Import Prelude Bytes DNSTypes DNSName.

(** ** Constants of [mDNSEmbeddedAPI.h] *)
Definition kDNSType_A : Z := 1.
Definition kDNSType_NS : Z := 2.
Definition kDNSType_MD : Z := 3.
Definition kDNSType_MF : Z := 4.
Definition kDNSType_CNAME : Z := 5.
Definition kDNSType_SOA : Z := 6.
Definition kDNSType_MB : Z := 7.
Definition kDNSType_MG : Z := 8.
Definition kDNSType_MR : Z := 9.
Definition kDNSType_NULL : Z := 10.
Definition kDNSType_PTR : Z := 12.
Definition kDNSType_HINFO : Z := 13.
Definition kDNSType_MINFO : Z := 14.
Definition kDNSType_MX : Z := 15.
Definition kDNSType_TXT : Z := 16.
Definition kDNSType_RP : Z := 17.
Definition kDNSType_AFSDB : Z := 18.
Definition kDNSType_X25 : Z := 19.
Definition kDNSType_ISDN : Z := 20.
Definition kDNSType_RT : Z := 21.
Definition kDNSType_PX : Z := 26.
Definition kDNSType_AAAA : Z := 28.
Definition kDNSType_LOC : Z := 29.
Definition kDNSType_SRV : Z := 33.
Definition kDNSType_KX : Z := 36.
Definition kDNSType_DNAME : Z := 39.
Definition kDNSType_OPT : Z := 41.
Definition kDNSType_DHCID : Z := 49.
Definition kDNSType_TSIG : Z := 250.
Definition kDNSQType_ANY : Z := 255.
Definition kDNSClass_IN : Z := 1.
Definition kDNSClass_NONE : Z := 254.
Definition kDNSQClass_ANY : Z := 255.
Definition kDNSClass_Mask : Z := 0x7FFF.
Definition kDNSClass_UniqueRRSet : Z := 0x8000.
Definition kDNSRecordTypeUnregistered : Z := 0.
Definition kDNSRecordTypeUnique : Z := 0x02.
Definition kDNSRecordTypeKnownUnique : Z := 0x20.
Definition kDNSRecordTypePacketAdd : Z := 0x80.
Definition kDNSRecordTypePacketUniqueMask : Z := 0x10.
Definition kDNSOpt_LLQ : Z := 1.
Definition kDNSOpt_Lease : Z := 2.
Definition LLQ_OPTLEN : Z := 18.
Definition LLQ_OPT_RDLEN : Z := 22.
Definition LEASE_OPT_RDLEN : Z := 8.
Definition sizeof_rdataOPT : Z := 22.
Definition MaximumRDSize : Z := 8192.
Definition NormalMaxDNSMessageData : Z := 1440.
Definition AbsoluteMaxDNSMessageData : Z := 8940.

(** Offsets of the members of the packed structs. *)
Definition off_soa_mname : Z := 0.
Definition off_soa_rname : Z := 256.
Definition off_soa_serial : Z := 512.
Definition off_mx_exchange : Z := 2.
Definition off_rp_txt : Z := 256.
Definition off_px_map822 : Z := 2.
Definition off_px_mapx400 : Z := 258.
Definition off_srv_target : Z := 6.

(** Words in memory order. *)
Definition get16 (m : list Z) (p : Z) : outcome Z :=
  let* a := aget m p in let* b := aget m (p + 1) in Ret (a + 256 * b).
Definition get32 (m : list Z) (p : Z) : outcome Z :=
  let* a := aget m p in let* b := aget m (p + 1) in
  let* c := aget m (p + 2) in let* d := aget m (p + 3) in
  Ret (a + 256 * b + 65536 * c + 16777216 * d).
Definition set16 (m : list Z) (p v : Z) : outcome (list Z) :=
  let* m := aset m p (v mod 256) in aset m (p + 1) (v / 256).
Definition set32 (m : list Z) (p v : Z) : outcome (list Z) :=
  let* m := aset m p (v mod 256) in
  let* m := aset m (p + 1) (v / 256 mod 256) in
  let* m := aset m (p + 2) (v / 65536 mod 256) in aset m (p + 3) (v / 16777216).

(** ** Records and questions *)
Record ResourceRecord := mkResourceRecord {
  rr_RecordType : Z;
  rr_InterfaceID : Z;          (* 0 is NULL *)
  rr_name : list Z;            (* the memory [name] points to *)
  rr_rrtype : Z;
  rr_rrclass : Z;
  rr_rroriginalttl : Z;
  rr_rdlength : Z;
  rr_rdestimate : Z;
  rr_namehash : Z;
  rr_rdatahash : Z;
  rr_MaxRDLength : Z;          (* [rdata->MaxRDLength] *)
  rr_rdata : list Z            (* [rdata->u] *)
}.
#[export] Instance rr_eta : Eta ResourceRecord := fun r => mkResourceRecord
  (rr_RecordType r) (rr_InterfaceID r) (rr_name r) (rr_rrtype r) (rr_rrclass r) (rr_rroriginalttl r)
  (rr_rdlength r) (rr_rdestimate r) (rr_namehash r) (rr_rdatahash r) (rr_MaxRDLength r) (rr_rdata r).
#[export] Instance rr_RecordType_set : Setter rr_RecordType := ltac:(derive_setter).
#[export] Instance rr_InterfaceID_set : Setter rr_InterfaceID := ltac:(derive_setter).
#[export] Instance rr_name_set : Setter rr_name := ltac:(derive_setter).
#[export] Instance rr_rrtype_set : Setter rr_rrtype := ltac:(derive_setter).
#[export] Instance rr_rrclass_set : Setter rr_rrclass := ltac:(derive_setter).
#[export] Instance rr_rroriginalttl_set : Setter rr_rroriginalttl := ltac:(derive_setter).
#[export] Instance rr_rdlength_set : Setter rr_rdlength := ltac:(derive_setter).
#[export] Instance rr_rdestimate_set : Setter rr_rdestimate := ltac:(derive_setter).
#[export] Instance rr_namehash_set : Setter rr_namehash := ltac:(derive_setter).
#[export] Instance rr_rdatahash_set : Setter rr_rdatahash := ltac:(derive_setter).
#[export] Instance rr_MaxRDLength_set : Setter rr_MaxRDLength := ltac:(derive_setter).
#[export] Instance rr_rdata_set : Setter rr_rdata := ltac:(derive_setter).

Record DNSQuestion := mkDNSQuestion {
  q_InterfaceID : Z;
  q_TargetQID : Z;
  q_qname : list Z;
  q_qnamehash : Z;
  q_qtype : Z;
  q_qclass : Z
}.

(** How the code treats the rdata of a type. *)
Inductive rdata_kind := KindA | KindName | KindSOA | KindRaw | KindMX | KindRP | KindPX | KindAAAA | KindSRV | KindOPT | KindOther.
Definition kind_of_type (t : Z) : rdata_kind :=
  if t =? kDNSType_A then KindA else
  if (t =? kDNSType_NS) || (t =? kDNSType_CNAME) || (t =? kDNSType_PTR) || (t =? kDNSType_DNAME) then KindName else
  if t =? kDNSType_SOA then KindSOA else
  if (t =? kDNSType_NULL) || (t =? kDNSType_HINFO) || (t =? kDNSType_TSIG) || (t =? kDNSType_TXT) ||
     (t =? kDNSType_X25) || (t =? kDNSType_ISDN) || (t =? kDNSType_LOC) || (t =? kDNSType_DHCID) then KindRaw else
  if (t =? kDNSType_MX) || (t =? kDNSType_AFSDB) || (t =? kDNSType_RT) || (t =? kDNSType_KX) then KindMX else
  if t =? kDNSType_RP then KindRP else
  if t =? kDNSType_PX then KindPX else
  if t =? kDNSType_AAAA then KindAAAA else
  if t =? kDNSType_SRV then KindSRV else
  if t =? kDNSType_OPT then KindOPT else KindOther.

(** ** Hashing rdata *)
Fixpoint sum_pairs (fuel : nat) (data : list Z) (i rdlength sum : Z) : outcome Z :=
  match fuel with
  | O => Fault OutOfFuel
  | S fuel =>
    if i + 1 <? rdlength then
      let* a := aget data i in
      let* b := aget data (i + 1) in
      let sum := u32 (sum + Z.lor (Z.shiftl a 8) b) in
      sum_pairs fuel data (i + 2) rdlength (Z.lor (u32 (Z.shiftl sum 3)) (Z.shiftr sum 29))
    else if i <? rdlength then
      let* a := aget data i in Ret (u32 (sum + Z.shiftl a 8))
    else Ret sum
  end.

Definition RDataHashValue (rr : ResourceRecord) : outcome Z :=
  let u := rr_rdata rr in
  let hash off := DomainNameHashValue (ptr_add u off) in
  match kind_of_type (rr_rrtype rr) with
  | KindName => hash 0
  | KindSOA =>
    let* serial := get32 u off_soa_serial in
    let* refresh := get32 u (off_soa_serial + 4) in
    let* retry := get32 u (off_soa_serial + 8) in
    let* expire := get32 u (off_soa_serial + 12) in
    let* min := get32 u (off_soa_serial + 16) in
    let* h1 := hash off_soa_mname in
    let* h2 := hash off_soa_rname in
    Ret (u32 (serial + refresh + retry + expire + min + h1 + h2))
  | KindMX => hash off_mx_exchange
  | KindRP => let* h1 := hash 0 in let* h2 := hash off_rp_txt in Ret (u32 (h1 + h2))
  | KindPX => let* h1 := hash off_px_map822 in let* h2 := hash off_px_mapx400 in Ret (u32 (h1 + h2))
  | KindSRV => hash off_srv_target
  | _ => sum_pairs (S (Z.to_nat (rr_rdlength rr))) u 0 (rr_rdlength rr) 0
  end.

(** ** Comparing rdata.  [a &&? b] evaluates [b] only if [a] is true. *)
Definition and_then (a b : outcome bool) : outcome bool :=
  let* x := a in if x : bool then b else Ret false.
Notation "a &&? b" := (and_then a b) (at level 40, left associativity) : outcome_scope.
Definition same16 (m m' : list Z) (p : Z) : outcome bool :=
  let* x := get16 m p in let* y := get16 m' p in Ret (x =? y).
Definition same32 (m m' : list Z) (p : Z) : outcome bool :=
  let* x := get32 m p in let* y := get32 m' p in Ret (x =? y).

(** [r2] is the memory of a bare [RDataBody]. *)
Definition SameRDataBody (r1 : ResourceRecord) (r2 : list Z) : outcome bool :=
  let u := rr_rdata r1 in
  let same_at off := SameDomainName (ptr_add u off) (ptr_add r2 off) in
  match kind_of_type (rr_rrtype r1) with
  | KindName => same_at 0
  | KindSOA =>
    same32 u r2 off_soa_serial &&? same32 u r2 (off_soa_serial + 4) &&? same32 u r2 (off_soa_serial + 8) &&?
    same32 u r2 (off_soa_serial + 12) &&? same32 u r2 (off_soa_serial + 16) &&?
    same_at off_soa_mname &&? same_at off_soa_rname
  | KindMX => same16 u r2 0 &&? same_at off_mx_exchange
  | KindRP => same_at 0 &&? same_at off_rp_txt
  | KindPX => same16 u r2 0 &&? same_at off_px_map822 &&? same_at off_px_mapx400
  | KindSRV => same16 u r2 0 &&? same16 u r2 2 &&? same16 u r2 4 &&? same_at off_srv_target
  | _ => MemSame (Z.to_nat (rr_rdlength r1)) u r2 0
  end.

(** ** Matching questions *)
Definition mDNSInterface_LocalOnly : Z := 1.

Definition SameNameRecordAnswersQuestion (rr : ResourceRecord) (q : DNSQuestion) : bool :=
  if negb (rr_InterfaceID rr =? 0) && negb (q_InterfaceID q =? 0) &&
     negb (q_InterfaceID q =? mDNSInterface_LocalOnly) && negb (rr_InterfaceID rr =? q_InterfaceID q) then false else
  if negb (rr_InterfaceID rr =? 0) && negb (q_TargetQID q =? 0) then false else
  if negb (rr_rrtype rr =? kDNSType_CNAME) && negb (rr_rrtype rr =? q_qtype q) && negb (q_qtype q =? kDNSQType_ANY) then false else
  if negb (rr_rrclass rr =? q_qclass q) && negb (q_qclass q =? kDNSQClass_ANY) then false else
  true.

Definition ResourceRecordAnswersQuestion (rr : ResourceRecord) (q : DNSQuestion) : outcome bool :=
  if negb (rr_InterfaceID rr =? 0) && negb (q_InterfaceID q =? 0) &&
     negb (q_InterfaceID q =? mDNSInterface_LocalOnly) && negb (rr_InterfaceID rr =? q_InterfaceID q) then Ret false else
  if negb (rr_InterfaceID rr =? 0) && negb (q_TargetQID q =? 0) then Ret false else
  if negb (rr_rrtype rr =? kDNSType_CNAME) && negb (rr_rrtype rr =? q_qtype q) && negb (q_qtype q =? kDNSQType_ANY) then Ret false else
  if negb (rr_rrclass rr =? q_qclass q) && negb (q_qclass q =? kDNSQClass_ANY) then Ret false else
  if rr_namehash rr =? q_qnamehash q then SameDomainName (rr_name rr) (q_qname q) else Ret false.

(** ** Lengths *)
Definition u16 (z : Z) : Z := z mod 65536.

Definition GetRDLength (rr : ResourceRecord) (estimate : bool) : outcome Z :=
  let rd := rr_rdata rr in
  let name := if estimate then Some (rr_name rr) else None in
  let len off := CompressedDomainNameLength (ptr_add rd off) name in
  if rr_rrclass rr =? kDNSQClass_ANY then Ret (rr_rdlength rr) else
  if rr_rrtype rr =? kDNSType_HINFO then
    let* a := aget rd 0 in
    let* b := aget rd (1 + a) in
    Ret (u16 (2 + a + b))
  else
  match kind_of_type (rr_rrtype rr) with
  | KindA => Ret 4
  | KindName => len 0
  | KindSOA => let* a := len off_soa_mname in let* b := len off_soa_rname in Ret (u16 (a + b + 5 * 4))
  | KindRaw => Ret (rr_rdlength rr)
  | KindMX => let* a := len off_mx_exchange in Ret (u16 (2 + a))
  | KindRP => let* a := len 0 in let* b := len off_rp_txt in Ret (u16 (a + b))
  | KindPX => let* a := len off_px_map822 in let* b := len off_px_mapx400 in Ret (u16 (2 + a + b))
  | KindAAAA => Ret 16
  | KindSRV => let* a := len off_srv_target in Ret (u16 (6 + a))
  | KindOPT => Ret (rr_rdlength rr)
  | KindOther => Ret (rr_rdlength rr)
  end.

(** The strings of a TXT record fill it exactly. *)
Fixpoint txt_loop (fuel : nat) (d : list Z) (ptr e : Z) : outcome bool :=
  match fuel with
  | O => Fault OutOfFuel
  | S fuel =>
    if ptr <? e then let* c := aget d ptr in txt_loop fuel d (ptr + (1 + c)) e else Ret (ptr =? e)
  end.

(** [d] is the memory of [rd->u]; the limit of the name tests is the end of the rdata. *)
Definition ValidateRData (rrtype rdlength : Z) (d : list Z) : outcome bool :=
  if rrtype =? kDNSType_A then Ret (rdlength =? 4) else
  if (rrtype =? kDNSType_NS) || (rrtype =? kDNSType_MD) || (rrtype =? kDNSType_MF) || (rrtype =? kDNSType_CNAME) ||
     (rrtype =? kDNSType_MB) || (rrtype =? kDNSType_MG) || (rrtype =? kDNSType_MR) || (rrtype =? kDNSType_PTR) then
    let* len := DomainNameLengthLimit d rdlength in
    Ret ((len <=? MAX_DOMAIN_NAME) && (rdlength =? len)) else
  if (rrtype =? kDNSType_HINFO) || (rrtype =? kDNSType_MINFO) || (rrtype =? kDNSType_TXT) then
    if rdlength =? 0 then Ret false else txt_loop (S (Z.to_nat rdlength)) d 0 rdlength else
  if rrtype =? kDNSType_AAAA then Ret (rdlength =? 16) else
  if rrtype =? kDNSType_MX then
    let* len := DomainNameLengthLimit (ptr_add d off_mx_exchange) (rdlength - off_mx_exchange) in
    Ret ((len <=? MAX_DOMAIN_NAME) && (rdlength =? 2 + len)) else
  if rrtype =? kDNSType_SRV then
    let* len := DomainNameLengthLimit (ptr_add d off_srv_target) (rdlength - off_srv_target) in
    Ret ((len <=? MAX_DOMAIN_NAME) && (rdlength =? 6 + len)) else
  Ret true.

(** ** [SetNewRData] *)
Definition GetRRDomainNameTarget (rr : ResourceRecord) : option (list Z) :=
  match kind_of_type (rr_rrtype rr) with
  | KindName => Some (rr_rdata rr)
  | KindMX => Some (ptr_add (rr_rdata rr) off_mx_exchange)
  | KindSRV => Some (ptr_add (rr_rdata rr) off_srv_target)
  | _ => None
  end.
(** [NewRData] is [None] for NULL, else the new storage and its size. *)
Definition SetNewRData (rr : ResourceRecord) (NewRData : option (Z * list Z)) (rdlength : Z) : outcome ResourceRecord :=
  let rr := match NewRData with
            | Some (max, u) => rr <| rr_MaxRDLength := max |> <| rr_rdata := u |> <| rr_rdlength := rdlength |>
            | None => rr
            end in
  let target := GetRRDomainNameTarget rr in
  let* len := GetRDLength rr false in
  let rr := rr <| rr_rdlength := len |> in
  let* est := GetRDLength rr true in
  let rr := rr <| rr_rdestimate := est |> in
  let* hash := match target with Some t => DomainNameHashValue t | None => RDataHashValue rr end in
  Ret (rr <| rr_rdatahash := hash |>).
