(* ===== verification/DNSRecordSpec.v ===== *)
(** What the resource record functions of [DNSRecord] guarantee: equal rdata
    has equal hashes, the hash test in [ResourceRecordAnswersQuestion] never
    loses an answer, and [ValidateRData] accepts exactly the well-formed
    rdata of the types it checks. *)
From S2P Require Import Prelude Bytes DNSTypes DNSName DNSRecord.

(** ** Equal rdata, equal hash *)

(** A legal name stands at offset [off] of the memory [u]. *)
Definition legal_at (u : list Z) (off : Z) : Prop := ∃ ls, name_ok ls ∧ is_name (ptr_add u off) ls.

(** Rdata as the receive path stores it: legal names where the type has
    names, and enough memory. *)
Definition rdata_ok (rr : ResourceRecord) (u : list Z) : Prop :=
  match kind_of_type (rr_rrtype rr) with
  | KindName => legal_at u 0
  | KindSOA => legal_at u off_soa_mname ∧ legal_at u off_soa_rname ∧ off_soa_serial + 20 ≤ zlen u
  | KindMX => legal_at u off_mx_exchange ∧ 2 ≤ zlen u
  | KindRP => legal_at u 0 ∧ legal_at u off_rp_txt
  | KindPX => legal_at u off_px_map822 ∧ legal_at u off_px_mapx400 ∧ 2 ≤ zlen u
  | KindSRV => legal_at u off_srv_target ∧ 6 ≤ zlen u
  | _ => 0 ≤ rr_rdlength rr ≤ zlen u
  end.

Lemma and_then_true a b : and_then a b = Ret true → a = Ret true ∧ b = Ret true.
Proof. unfold and_then. destruct a as [[]|]; simpl; [by intros ->|done|done]. Qed.

Lemma same_at_hash u u' off : legal_at u off → legal_at u' off →
  SameDomainName (ptr_add u off) (ptr_add u' off) = Ret true →
  ∃ h, DomainNameHashValue (ptr_add u off) = Ret h ∧ DomainNameHashValue (ptr_add u' off) = Ret h.
Proof.
  intros (l1 & Ho1 & H1) (l2 & Ho2 & H2). rewrite (SameDomainName_spec _ _ l1 l2) by (done || apply Ho2).
  intros [= Hs%bool_decide_eq_true]. by apply (DomainNameHashValue_spec _ _ l1 l2); [apply Ho1|apply Ho2|..].
Qed.

Lemma same32_eq u u' p : same32 u u' p = Ret true → ∃ x, get32 u p = Ret x ∧ get32 u' p = Ret x.
Proof.
  unfold same32. intros (x & Hx & H)%obind_Ret_inv. apply obind_Ret_inv in H as (y & Hy & [= ->%Z.eqb_eq]). by exists y.
Qed.

Lemma MemSame_true a b n : ∀ i, MemSame n a b i = Ret true → ∀ j, i ≤ j < i + Z.of_nat n → aget a j = aget b j.
Proof.
  induction n as [|n IH]; intros i H j Hj; [lia|]. simpl in H. apply obind_Ret_inv in H as (x & Hx & H).
  apply obind_Ret_inv in H as (y & Hy & H). destruct (Z.eqb_spec x y) as [->|]; [|done].
  destruct (decide (j = i)) as [->|]; [congruence|]. apply (IH (i + 1)); [done|lia].
Qed.

Lemma sum_pairs_ext a b len : (∀ j, 0 ≤ j < len → aget a j = aget b j) → ∀ fuel i sum, 0 ≤ i →
  sum_pairs fuel a i len sum = sum_pairs fuel b i len sum.
Proof.
  intros Hab. induction fuel as [|fuel IH]; intros i sum Hi; [done|]. cbn [sum_pairs].
  destruct (Z.ltb_spec (i + 1) len); [|destruct (Z.ltb_spec i len); [by rewrite Hab by lia|done]].
  rewrite !Hab by lia. destruct (aget b i); [|done]. destruct (aget b (i + 1)); [|done]. cbn [obind]. apply IH. lia.
Qed.

Lemma sum_pairs_safe a len : len ≤ zlen a → ∀ fuel i sum, 0 ≤ i → Z.max 0 (len - i) < Z.of_nat fuel →
  ∃ h, sum_pairs fuel a i len sum = Ret h.
Proof.
  intros Hl. induction fuel as [|fuel IH]; intros i sum Hi Hf; [lia|]. cbn [sum_pairs].
  destruct (Z.ltb_spec (i + 1) len).
  - destruct (at_exists a i) as [x Hx]; [lia|]. destruct (at_exists a (i + 1)) as [y Hy]; [lia|].
    rewrite (proj2 (aget_at _ _ _) Hx), (proj2 (aget_at _ _ _) Hy). cbn [obind]. apply IH; lia.
  - destruct (Z.ltb_spec i len); [|by eauto]. destruct (at_exists a i) as [x Hx]; [lia|].
    rewrite (proj2 (aget_at _ _ _) Hx). cbn [obind]. by eauto.
Qed.

(** Splitting a conjunction of tests that came out true. *)
Ltac split_tests H :=
  repeat match type of H with
  | and_then _ _ = Ret true => apply and_then_true in H as [H ?]
  end.

Lemma SameRDataBody_hash r u : rdata_ok r (rr_rdata r) → rdata_ok r u → SameRDataBody r u = Ret true →
  ∃ h, RDataHashValue r = Ret h ∧ RDataHashValue (r <| rr_rdata := u |>) = Ret h.
Proof.
  unfold rdata_ok, SameRDataBody, RDataHashValue. struct_simpl.
  assert (∀ n, MemSame n (rr_rdata r) u 0 = Ret true → Z.of_nat n = rr_rdlength r → rr_rdlength r ≤ zlen (rr_rdata r) →
    ∃ h, sum_pairs (S n) (rr_rdata r) 0 (rr_rdlength r) 0 = Ret h ∧ sum_pairs (S n) u 0 (rr_rdlength r) 0 = Ret h) as Hraw.
  { intros n Hm Hn Hl. destruct (sum_pairs_safe (rr_rdata r) (rr_rdlength r) Hl (S n) 0 0) as [h Hh]; [lia|lia|].
    exists h. split; [done|]. rewrite <- Hh. symmetry. apply sum_pairs_ext; [|lia]. intros j Hj.
    apply (MemSame_true _ _ _ _ Hm). lia. }
  destruct (kind_of_type (rr_rrtype r)); intros Hok Hok' H;
    try (apply Hraw; [done|rewrite Z2Nat.id; lia|lia]).
  - by apply same_at_hash.
  - destruct Hok as (? & ? & _), Hok' as (? & ? & _). split_tests H.
    repeat match goal with H : same32 _ _ _ = Ret true |- _ => apply same32_eq in H as (? & -> & ->) end.
    destruct (same_at_hash (rr_rdata r) u off_soa_mname) as (h1 & -> & ->); [done..|].
    destruct (same_at_hash (rr_rdata r) u off_soa_rname) as (h2 & -> & ->); [done..|]. cbn [obind]. by eauto.
  - destruct Hok, Hok'. split_tests H. by apply same_at_hash.
  - destruct Hok, Hok'. split_tests H.
    destruct (same_at_hash (rr_rdata r) u 0) as (h1 & -> & ->); [done..|].
    destruct (same_at_hash (rr_rdata r) u off_rp_txt) as (h2 & -> & ->); [done..|]. cbn [obind]. by eauto.
  - destruct Hok as (? & ? & _), Hok' as (? & ? & _). split_tests H.
    destruct (same_at_hash (rr_rdata r) u off_px_map822) as (h1 & -> & ->); [done..|].
    destruct (same_at_hash (rr_rdata r) u off_px_mapx400) as (h2 & -> & ->); [done..|]. cbn [obind]. by eauto.
  - destruct Hok, Hok'. split_tests H. by apply same_at_hash.
Qed.

(** Comparing such rdata reads nothing outside it. *)
Lemma MemSame_total a b n : ∀ i, 0 ≤ i → i + Z.of_nat n ≤ zlen a → i + Z.of_nat n ≤ zlen b → ∃ x, MemSame n a b i = Ret x.
Proof.
  induction n as [|n IH]; intros i Hi Ha Hb; cbn [MemSame]; [by eauto|].
  destruct (at_exists a i) as [x Hx]; [lia|]. destruct (at_exists b i) as [y Hy]; [lia|].
  rewrite (proj2 (aget_at _ _ _) Hx), (proj2 (aget_at _ _ _) Hy). cbn [obind]. destruct (x =? y); [apply IH; lia|by eauto].
Qed.
Lemma get16_total u p : 0 ≤ p → p + 2 ≤ zlen u → ∃ x, get16 u p = Ret x.
Proof.
  intros Hp Hl. unfold get16. destruct (at_exists u p) as [x Hx]; [lia|]. destruct (at_exists u (p + 1)) as [y Hy]; [lia|].
  rewrite (proj2 (aget_at _ _ _) Hx), (proj2 (aget_at _ _ _) Hy). cbn [obind]. by eauto.
Qed.
Lemma get32_total u p : 0 ≤ p → p + 4 ≤ zlen u → ∃ x, get32 u p = Ret x.
Proof.
  intros Hp Hl. unfold get32. destruct (at_exists u p) as [x Hx]; [lia|]. destruct (at_exists u (p + 1)) as [y Hy]; [lia|].
  destruct (at_exists u (p + 2)) as [z Hz]; [lia|]. destruct (at_exists u (p + 3)) as [w Hw]; [lia|].
  rewrite (proj2 (aget_at _ _ _) Hx), (proj2 (aget_at _ _ _) Hy), (proj2 (aget_at _ _ _) Hz), (proj2 (aget_at _ _ _) Hw). cbn [obind]. by eauto.
Qed.
Lemma and_then_total a b : (∃ x, a = Ret x) → (∃ y, b = Ret y) → ∃ z, and_then a b = Ret z.
Proof. intros [x ->] [y ->]. unfold and_then. cbn [obind]. destruct x; by eauto. Qed.
Lemma same16_total u u' p : 0 ≤ p → p + 2 ≤ zlen u → p + 2 ≤ zlen u' → ∃ x, same16 u u' p = Ret x.
Proof. intros Hp Hu Hu'. unfold same16. destruct (get16_total u p Hp Hu) as [x ->], (get16_total u' p Hp Hu') as [y ->]. cbn [obind]. by eauto. Qed.
Lemma same32_total u u' p : 0 ≤ p → p + 4 ≤ zlen u → p + 4 ≤ zlen u' → ∃ x, same32 u u' p = Ret x.
Proof. intros Hp Hu Hu'. unfold same32. destruct (get32_total u p Hp Hu) as [x ->], (get32_total u' p Hp Hu') as [y ->]. cbn [obind]. by eauto. Qed.
Lemma same_at_total u u' off : legal_at u off → legal_at u' off → ∃ x, SameDomainName (ptr_add u off) (ptr_add u' off) = Ret x.
Proof. intros (l1 & Ho1 & H1) (l2 & Ho2 & H2). rewrite (SameDomainName_spec _ _ l1 l2) by (done || apply Ho2). by eauto. Qed.
Lemma SameRDataBody_total r u : rdata_ok r (rr_rdata r) → rdata_ok r u → ∃ b, SameRDataBody r u = Ret b.
Proof.
  unfold rdata_ok, SameRDataBody, off_soa_serial. destruct (kind_of_type (rr_rrtype r)); intros Hok Hok'; try (apply MemSame_total; lia); destruct_and?;
    repeat apply and_then_total; try (by apply same_at_total); try (apply same16_total; lia); apply same32_total; lia.
Qed.

(** ** Answering questions *)
Lemma ResourceRecordAnswersQuestion_spec rr q ls ls' : name_ok ls → name_ok ls' →
  is_name (rr_name rr) ls → is_name (q_qname q) ls' →
  DomainNameHashValue (rr_name rr) = Ret (rr_namehash rr) → DomainNameHashValue (q_qname q) = Ret (q_qnamehash q) →
  ResourceRecordAnswersQuestion rr q = Ret (SameNameRecordAnswersQuestion rr q && bool_decide (same_name ls ls')).
Proof.
  intros Hok Hok' Hn Hn' Hh Hh'. unfold ResourceRecordAnswersQuestion, SameNameRecordAnswersQuestion.
  destruct (_ && _ && _ && _); [done|]. destruct (_ && _); [done|]. destruct (_ && _ && _); [done|]. destruct (_ && _); [done|].
  cbn [andb]. destruct (Z.eqb_spec (rr_namehash rr) (q_qnamehash q)) as [He|He].
  - apply SameDomainName_spec; (done || apply Hok').
  - f_equal. symmetry. apply bool_decide_eq_false_2. intros Hs.
    destruct (DomainNameHashValue_spec _ _ ls ls' (proj1 Hok) (proj1 Hok') Hn Hn' Hs) as (h & H1 & H2). congruence.
Qed.

(** ** Validation *)
Lemma DomainNameLengthLimit_exact d lim : bytes_ok d → lim ≤ 65535 → lim ≤ zlen d →
  ∃ n, DomainNameLengthLimit d lim = Ret n ∧
    (n ≤ MAX_DOMAIN_NAME ∧ lim = n ↔ ∃ ls, name_ok ls ∧ is_name d ls ∧ lim = zlen (encode ls)).
Proof.
  intros Hd Hlim Hl. destruct (DomainNameLengthLimit_loop_total d lim Hd Hlim Hl (S (length d)) 0) as (n & Hn & Hc);
    [lia|unfold zlen in *; lia|].
  exists n. split; [done|]. unfold MAX_DOMAIN_NAME. split.
  - intros [H255 ->]. destruct Hc as [->|(ls & Hok & Hh & Hz & _)]; [lia|]. exists ls. split_and!; [|done|lia].
    split; [done|]. unfold MAX_DOMAIN_NAME. lia.
  - intros (ls & [Hok H255] & Hh & Hz). unfold MAX_DOMAIN_NAME in H255. pose proof (zlen_nonneg (encode ls)).
    pose proof (DomainNameLengthLimit_spec d lim ls Hok Hh ltac:(lia)) as Hs. unfold DomainNameLengthLimit in Hs.
    rewrite Hn in Hs. injection Hs as ->. rewrite (proj2 (Z.leb_le _ _)) by lia. lia.
Qed.

(** Character strings, each a length byte and that many bytes. *)
Definition strings_at (d : list Z) (p : Z) (strs : list (list Z)) (e : Z) : Prop :=
  holds d p (encode_labels strs) ∧ e = p + zlen (encode_labels strs).

Lemma txt_loop_exact d e : bytes_ok d → e ≤ zlen d → ∀ fuel p, 0 ≤ p ≤ e + 255 → Z.max 0 (e - p) < Z.of_nat fuel →
  ∃ b, txt_loop fuel d p e = Ret b ∧ (b = true ↔ ∃ strs, Forall (fun s => zlen s ≤ 255) strs ∧ strings_at d p strs e).
Proof.
  intros Hd He. induction fuel as [|fuel IH]; intros p Hp Hf; [lia|]. cbn [txt_loop].
  destruct (Z.ltb_spec p e) as [Hlt|Hge].
  - destruct (at_exists d p) as [c Hc]; [lia|]. rewrite (proj2 (aget_at _ _ _) Hc). cbn [obind].
    pose proof (bytes_ok_at _ _ _ Hd Hc) as Hc8. destruct (IH (p + (1 + c))) as (b & Hb & Hiff); [lia|lia|].
    exists b. split; [done|]. rewrite Hiff. split.
    + intros (strs & Hs & Hh & Hz). pose proof (holds_range _ _ _ Hh). pose proof (zlen_nonneg (encode_labels strs)).
      destruct (holds_exists d (p + 1) c) as (s & Hs1 & Hs2); [lia|lia|lia|]. exists (s :: strs). split; [constructor; [lia|done]|].
      split; [|rewrite zlen_encode_labels_cons; lia]. rewrite encode_labels_cons. apply holds_cons. rewrite Hs2. split; [done|].
      apply holds_app. split; [done|]. by replace (p + 1 + zlen s) with (p + (1 + c)) by lia.
    + intros ([|s strs] & Hs & Hh & Hz); [change (zlen (encode_labels [])) with 0 in Hz; lia|].
      rewrite zlen_encode_labels_cons in Hz. rewrite encode_labels_cons in Hh. apply holds_cons in Hh as [Hc' Hh].
      pose proof (at_fun _ _ _ _ Hc Hc') as ->. apply holds_app in Hh as [_ Hh]. apply Forall_cons in Hs as [_ Hs].
      exists strs. split; [done|]. replace (p + 1 + zlen s) with (p + (1 + zlen s)) in Hh by lia. split; [done|lia].
  - exists (p =? e). split; [done|]. rewrite Z.eqb_eq. split.
    + intros ->. exists []. split; [done|]. split; [|change (zlen (encode_labels [])) with 0; lia].
      apply holds_nil. lia.
    + intros (strs & _ & _ & Hz). pose proof (zlen_nonneg (encode_labels strs)). lia.
Qed.

(** What the types [ValidateRData] knows require of rdata of [len] bytes. *)
Definition name_rdata (d : list Z) (off len : Z) : Prop :=
  ∃ ls, name_ok ls ∧ is_name (ptr_add d off) ls ∧ len = off + zlen (encode ls).
Definition rdata_wf (rrtype len : Z) (d : list Z) : Prop :=
  if rrtype =? kDNSType_A then len = 4 else
  if (rrtype =? kDNSType_NS) || (rrtype =? kDNSType_MD) || (rrtype =? kDNSType_MF) || (rrtype =? kDNSType_CNAME) ||
     (rrtype =? kDNSType_MB) || (rrtype =? kDNSType_MG) || (rrtype =? kDNSType_MR) || (rrtype =? kDNSType_PTR) then name_rdata d 0 len else
  if (rrtype =? kDNSType_HINFO) || (rrtype =? kDNSType_MINFO) || (rrtype =? kDNSType_TXT) then
    ∃ strs, strs ≠ [] ∧ Forall (fun s => zlen s ≤ 255) strs ∧ strings_at d 0 strs len else
  if rrtype =? kDNSType_AAAA then len = 16 else
  if rrtype =? kDNSType_MX then name_rdata d 2 len else
  if rrtype =? kDNSType_SRV then name_rdata d 6 len else True.

Lemma validate_name d off len : bytes_ok d → 0 ≤ off ≤ zlen d → len ≤ 65535 → len ≤ zlen d →
  ∃ b, (let* n := DomainNameLengthLimit (ptr_add d off) (len - off) in
        Ret ((n <=? MAX_DOMAIN_NAME) && (len =? off + n))) = Ret b ∧ (b = true ↔ name_rdata d off len).
Proof.
  intros Hd Ho Hl Hz. assert (bytes_ok (ptr_add d off)) as Hd' by by apply Forall_drop.
  destruct (DomainNameLengthLimit_exact (ptr_add d off) (len - off) Hd') as (n & -> & Hiff); [lia| |].
  { unfold ptr_add, zlen in *. rewrite length_drop. lia. }
  cbn [obind]. eexists. split; [done|]. rewrite andb_true_iff, Z.leb_le, Z.eqb_eq. unfold name_rdata. split.
  - intros [H1 H2]. destruct (proj1 Hiff) as (ls & ? & ? & ?); [split; [done|lia]|]. exists ls. split_and!; (done || lia).
  - intros (ls & ? & ? & ?). destruct (proj2 Hiff) as [? ?]; [exists ls; split_and!; (done || lia)|]. lia.
Qed.

Lemma ValidateRData_spec t len d : bytes_ok d → 0 ≤ len ≤ 65535 → len ≤ zlen d → 6 ≤ zlen d →
  safe (ValidateRData t len d) (fun b => b = true ↔ rdata_wf t len d).
Proof.
  intros Hd Hl Hz H6. unfold ValidateRData, rdata_wf.
  assert (∀ off, 0 ≤ off ≤ 6 → safe (let* n := DomainNameLengthLimit (ptr_add d off) (len - off) in
        Ret ((n <=? MAX_DOMAIN_NAME) && (len =? off + n))) (fun b => b = true ↔ name_rdata d off len)) as Hname.
  { intros off Ho. destruct (validate_name d off len) as (b & -> & Hb); [done|lia|lia|lia|done]. }
  destruct (t =? kDNSType_A); [apply Z.eqb_eq|].
  destruct (_ || _ || _ || _ || _ || _ || _ || _).
  { specialize (Hname 0 ltac:(lia)). rewrite Z.sub_0_r in Hname. eapply wp_mono; [exact Hname|done|done]. }
  destruct (_ || _ || _).
  - destruct (Z.eqb_spec len 0) as [->|Hne].
    + split; [done|]. intros (strs & Hne & _ & _ & Hzl). destruct strs; [done|].
      rewrite zlen_encode_labels_cons in Hzl. pose proof (zlen_nonneg l). pose proof (zlen_nonneg (encode_labels strs)). lia.
    + destruct (txt_loop_exact d len Hd Hz (S (Z.to_nat len)) 0) as (b & -> & Hb); [lia|lia|]. cbn [wp]. rewrite Hb. split.
      * intros (strs & Hs & Hst). exists strs. split; [|done]. intros ->. destruct Hst as [_ Hst].
        change (zlen (encode_labels [])) with 0 in Hst. lia.
      * intros (strs & _ & Hs). eauto.
  - destruct (t =? kDNSType_AAAA); [apply Z.eqb_eq|].
    destruct (t =? kDNSType_MX); [by apply (Hname 2)|]. destruct (t =? kDNSType_SRV); [by apply (Hname 6)|]. done.
Qed.

(** ** Properties *)

(** C23. Records with equal rdata have equal hashes: for every record type, when
    [SameRDataBody] finds the rdata of a record equal to another (names up to
    case), [RDataHashValue] is the same for both, so the caches that compare
    hashes first never miss a duplicate. *)
Theorem equal_rdata_equal_hash r u : rdata_ok r (rr_rdata r) → rdata_ok r u → SameRDataBody r u = Ret true →
  ∃ h, RDataHashValue r = Ret h ∧ RDataHashValue (r <| rr_rdata := u |>) = Ret h.
Proof. apply SameRDataBody_hash. Qed.

(** A record for the examples. *)
Definition example_record (t : Z) (name u : list Z) : ResourceRecord :=
  mkResourceRecord 2 0 name t kDNSClass_IN 120 (zlen u) (zlen u) 0 0 532 u.

Lemma equal_rdata_equal_hash_witness :
  let r := example_record kDNSType_SRV (encode [[97]]) ([0; 0; 0; 0; 31; 144] ++ encode [[97; 66]; [99]]) in
  ∃ h, RDataHashValue r = Ret h ∧ RDataHashValue (r <| rr_rdata := [0; 0; 0; 0; 31; 144] ++ encode [[65; 98]; [67]] |>) = Ret h.
Proof.
  intros r. apply equal_rdata_equal_hash; [| |by vm_compute].
  - split; [exists [[97; 66]; [99]]; split; [by apply name_okb_ok|apply is_name_encode]|done].
  - split; [exists [[65; 98]; [67]]; split; [by apply name_okb_ok|apply is_name_encode]|done].
Defined.

(** C31. The hash test of [ResourceRecordAnswersQuestion] changes nothing: with
    correct name hashes in the record and the question, the function accepts
    exactly the records whose interface, type and class
    [SameNameRecordAnswersQuestion] accepts and whose name is the name asked
    for, up to case. *)
Theorem answers_question_exact rr q ls ls' : name_ok ls → name_ok ls' → is_name (rr_name rr) ls → is_name (q_qname q) ls' →
  DomainNameHashValue (rr_name rr) = Ret (rr_namehash rr) → DomainNameHashValue (q_qname q) = Ret (q_qnamehash q) →
  ResourceRecordAnswersQuestion rr q = Ret (SameNameRecordAnswersQuestion rr q && bool_decide (same_name ls ls')).
Proof. apply ResourceRecordAnswersQuestion_spec. Qed.
Lemma answers_question_exact_witness :
  let q := mkDNSQuestion 0 0 (encode [[65; 98]]) 29960 kDNSType_A kDNSClass_IN in
  let rr := (example_record kDNSType_A (encode [[97; 66]]) [10; 0; 0; 1]) <| rr_namehash := 29960 |> in
  ResourceRecordAnswersQuestion rr q = Ret true.
Proof.
  intros q rr. rewrite (answers_question_exact rr q [[97; 66]] [[65; 98]]); [by vm_compute|by apply name_okb_ok|by apply name_okb_ok
    |apply is_name_encode|apply is_name_encode|by vm_compute|by vm_compute].
Defined.

(** C33. [ValidateRData] decides well-formedness: for every type it checks it
    returns, reading only the rdata, and accepts exactly the rdata whose
    length is that of the address, of the legal name (after the fixed fields)
    or of the sequence of character strings it holds. *)
Theorem ValidateRData_decides t len d : bytes_ok d → 0 ≤ len ≤ 65535 → len ≤ zlen d → 6 ≤ zlen d →
  safe (ValidateRData t len d) (fun b => b = true ↔ rdata_wf t len d).
Proof. apply ValidateRData_spec. Qed.
Lemma ValidateRData_decides_witness :
  safe (ValidateRData kDNSType_SRV 11 ([0; 0; 0; 0; 31; 144] ++ encode [[97; 98; 99]])) (fun b => b = true ↔
    rdata_wf kDNSType_SRV 11 ([0; 0; 0; 0; 31; 144] ++ encode [[97; 98; 99]])).
Proof. apply ValidateRData_decides; [by apply bytes_okb_ok|done|done|done]. Defined.
