(* ===== verification/DNSMessage.v ===== *)
(** Whole DNS messages: the "DNS Message Creation" and "DNS Message Parsing"
    functions of [DNSCommon.c] above the level of names.

    A [DNSMessage] is a buffer: a header of 12 bytes, the four counts as
    machine words at offsets 4, 6, 8 and 10, and the data.  A [count] argument
    of the C functions points to one of these counts and is its offset here.
    [one_second] is the platform's variable [mDNSPlatformOneSecond]. *)
From S2P Require Import Prelude Bytes DNSTypes DNSName DNSWireGet DNSWirePut DNSRecord.

(** ** The header *)
Definition off_numQuestions : Z := 4.
Definition off_numAnswers : Z := 6.
Definition off_numAuthorities : Z := 8.
Definition off_numAdditionals : Z := 10.
Definition off_data : Z := 12.

(** [id] and [flags] are two bytes each. *)
Definition InitializeDNSMessage (msg : list Z) (id flags : Z * Z) : outcome (list Z) :=
  let* msg := aset msg 0 id.1 in
  let* msg := aset msg 1 id.2 in
  let* msg := aset msg 2 flags.1 in
  let* msg := aset msg 3 flags.2 in
  let* msg := set16 msg off_numQuestions 0 in
  let* msg := set16 msg off_numAnswers 0 in
  let* msg := set16 msg off_numAuthorities 0 in
  set16 msg off_numAdditionals 0.

(** [( *count)++] on an [mDNSu16]. *)
Definition incr16 (msg : list Z) (off : Z) : outcome (list Z) :=
  let* v := get16 msg off in set16 msg off (u16 (v + 1)).

(** ** Putting rdata *)
Fixpoint putOptRData_loop (fuel : nat) (buf : list Z) (ptr limit : Z) (u : list Z) (nput rdlength : Z)
    : outcome (list Z * option Z) :=
  match fuel with
  | O => Fault OutOfFuel
  | S fuel =>
    if negb (nput <? rdlength) then Ret (buf, Some ptr) else
    if limit <? ptr + 4 then Ret (buf, None) else
    let* opt := get16 u nput in
    let* '(buf, ptr) := putVal16 buf ptr opt in
    let* optlen := get16 u (nput + 2) in
    let* '(buf, ptr) := putVal16 buf ptr optlen in
    if opt =? kDNSOpt_LLQ then
      if limit <? ptr + LLQ_OPTLEN then Ret (buf, None) else
      let* vers := get16 u (nput + 4) in
      let* '(buf, ptr) := putVal16 buf ptr vers in
      let* llqOp := get16 u (nput + 6) in
      let* '(buf, ptr) := putVal16 buf ptr llqOp in
      let* err := get16 u (nput + 8) in
      let* '(buf, ptr) := putVal16 buf ptr err in
      let* buf := copy 8 u (nput + 10) buf ptr in
      let* lease := get32 u (nput + 18) in
      let* '(buf, ptr) := putVal32 buf (ptr + 8) lease in
      putOptRData_loop fuel buf ptr limit u (nput + 4 + LLQ_OPTLEN) rdlength
    else if opt =? kDNSOpt_Lease then
      if limit <? ptr + 4 then Ret (buf, None) else
      let* lease := get32 u (nput + 4) in
      let* '(buf, ptr) := putVal32 buf ptr lease in
      putOptRData_loop fuel buf ptr limit u (nput + 4 + 4) rdlength
    else Ret (buf, None)
  end.
Definition putOptRData (buf : list Z) (ptr limit : Z) (rr : ResourceRecord) : outcome (list Z * option Z) :=
  putOptRData_loop (S (Z.to_nat (rr_rdlength rr))) buf ptr limit (rr_rdata rr) 0 (rr_rdlength rr).

(** [if (!ptr) return NULL;] after a call that returns a pointer. *)
Definition then_ptr (r : outcome (list Z * option Z)) (k : list Z → Z → outcome (list Z * option Z))
    : outcome (list Z * option Z) :=
  let* '(buf, p) := r in
  match p with Some p => k buf p | None => Ret (buf, None) end.

(** Copy [len] bytes of rdata as they are. *)
Definition put_raw (buf : list Z) (ptr limit : Z) (u : list Z) (len : Z) : outcome (list Z * option Z) :=
  if limit <? ptr + len then Ret (buf, None) else
  let* buf := copy len u 0 buf ptr in Ret (buf, Some (ptr + len)).

Definition putRData (compress : bool) (buf : list Z) (ptr limit : Z) (rr : ResourceRecord) : outcome (list Z * option Z) :=
  let u := rr_rdata rr in
  let put_name buf ptr off := putDomainNameAsLabels compress buf (Some ptr) limit (ptr_add u off) in
  match kind_of_type (rr_rrtype rr) with
  | KindA => if negb (rr_rdlength rr =? 4) then Ret (buf, None) else put_raw buf ptr limit u 4
  | KindName => put_name buf ptr 0
  | KindSOA =>
    then_ptr (put_name buf ptr off_soa_mname) (fun buf ptr =>
    then_ptr (put_name buf ptr off_soa_rname) (fun buf ptr =>
    if limit <? ptr + 20 then Ret (buf, None) else
    let* serial := get32 u off_soa_serial in
    let* '(buf, ptr) := putVal32 buf ptr serial in
    let* refresh := get32 u (off_soa_serial + 4) in
    let* '(buf, ptr) := putVal32 buf ptr refresh in
    let* retry := get32 u (off_soa_serial + 8) in
    let* '(buf, ptr) := putVal32 buf ptr retry in
    let* expire := get32 u (off_soa_serial + 12) in
    let* '(buf, ptr) := putVal32 buf ptr expire in
    let* min := get32 u (off_soa_serial + 16) in
    let* '(buf, ptr) := putVal32 buf ptr min in
    Ret (buf, Some ptr)))
  | KindRaw => put_raw buf ptr limit u (rr_rdlength rr)
  | KindMX =>
    if limit <? ptr + 3 then Ret (buf, None) else
    let* preference := get16 u 0 in
    let* '(buf, ptr) := putVal16 buf ptr preference in
    put_name buf ptr off_mx_exchange
  | KindRP => then_ptr (put_name buf ptr 0) (fun buf ptr => put_name buf ptr off_rp_txt)
  | KindPX =>
    if limit <? ptr + 5 then Ret (buf, None) else
    let* preference := get16 u 0 in
    let* '(buf, ptr) := putVal16 buf ptr preference in
    then_ptr (put_name buf ptr off_px_map822) (fun buf ptr => put_name buf ptr off_px_mapx400)
  | KindAAAA => if negb (rr_rdlength rr =? 16) then Ret (buf, None) else put_raw buf ptr limit u 16
  | KindSRV =>
    if limit <? ptr + 7 then Ret (buf, None) else
    let* priority := get16 u 0 in
    let* '(buf, ptr) := putVal16 buf ptr priority in
    let* weight := get16 u 2 in
    let* '(buf, ptr) := putVal16 buf ptr weight in
    let* buf := copy 2 u 4 buf ptr in
    put_name buf (ptr + 2) off_srv_target
  | KindOPT => putOptRData buf ptr limit rr
  | KindOther => put_raw buf ptr limit u (rr_rdlength rr)
  end.

(** ** Putting records *)

(** Type, class and TTL, the first eight bytes after the name. *)
Definition put_header (buf : list Z) (ptr rrtype rrclass ttl : Z) : outcome (list Z) :=
  let* '(buf, _) := putVal16 buf ptr rrtype in
  let* '(buf, _) := putVal16 buf (ptr + 2) rrclass in
  let* '(buf, _) := putVal32 buf (ptr + 4) ttl in
  Ret buf.

Definition PutResourceRecordTTLWithLimit (buf : list Z) (ptr : option Z) (count : option Z) (rr : ResourceRecord)
    (ttl limit : Z) : outcome (list Z * option Z) :=
  let rrclass := if rr_rrtype rr =? kDNSType_OPT then NormalMaxDNSMessageData else rr_rrclass rr in
  if rr_RecordType rr =? kDNSRecordTypeUnregistered then Ret (buf, ptr) else
  match ptr with
  | None => Ret (buf, None)
  | Some _ =>
    then_ptr (putDomainNameAsLabels true buf ptr limit (rr_name rr)) (fun buf ptr =>
    if limit <=? ptr + 10 then Ret (buf, None) else
    let* buf := put_header buf ptr (rr_rrtype rr) rrclass ttl in
    then_ptr (putRData true buf (ptr + 10) limit rr) (fun buf endofrdata =>
    let actualLength := u16 (endofrdata - ptr - 10) in
    let* '(buf, _) := putVal16 buf (ptr + 8) actualLength in
    let* buf := match count with Some count => incr16 buf count | None => Ret buf end in
    Ret (buf, Some endofrdata)))
  end.

(** The limit of [PutResourceRecordTTL]: a message that already holds a
    record is kept to the normal size. *)
Definition record_limit (buf : list Z) : outcome Z :=
  let* an := get16 buf off_numAnswers in
  let* au := get16 buf off_numAuthorities in
  let* ad := get16 buf off_numAdditionals in
  Ret (off_data + if negb (an =? 0) || negb (au =? 0) || negb (ad =? 0)
                  then NormalMaxDNSMessageData else AbsoluteMaxDNSMessageData).
Definition PutResourceRecordTTL (buf : list Z) (ptr count : option Z) (rr : ResourceRecord) (ttl : Z) : outcome (list Z * option Z) :=
  let* limit := record_limit buf in PutResourceRecordTTLWithLimit buf ptr count rr ttl limit.
Definition PutResourceRecordTTLJumbo (buf : list Z) (ptr count : option Z) (rr : ResourceRecord) (ttl : Z) : outcome (list Z * option Z) :=
  PutResourceRecordTTLWithLimit buf ptr count rr ttl (off_data + AbsoluteMaxDNSMessageData).
Definition PutResourceRecord (buf : list Z) (ptr count : option Z) (rr : ResourceRecord) : outcome (list Z * option Z) :=
  PutResourceRecordTTL buf ptr count rr (rr_rroriginalttl rr).
Definition PutResourceRecordCappedTTL (buf : list Z) (ptr count : option Z) (rr : ResourceRecord) (maxttl : Z)
    : outcome (list Z * option Z) :=
  let maxttl := if rr_rroriginalttl rr <? maxttl then rr_rroriginalttl rr else maxttl in
  PutResourceRecordTTL buf ptr count rr maxttl.

(** Type, class, zero TTL and zero rdlength. *)
Definition put_empty (buf : list Z) (ptr rrtype rrclass : Z) : outcome (list Z) :=
  let* buf := put_header buf ptr rrtype rrclass 0 in
  let* '(buf, _) := putVal16 buf (ptr + 8) 0 in
  Ret buf.

Definition putEmptyResourceRecord (buf : list Z) (ptr : option Z) (limit count : Z) (rr : ResourceRecord)
    : outcome (list Z * option Z) :=
  then_ptr (putDomainNameAsLabels true buf ptr limit (rr_name rr)) (fun buf ptr =>
  if limit <? ptr + 10 then Ret (buf, None) else
  let* buf := put_empty buf ptr (rr_rrtype rr) (rr_rrclass rr) in
  let* buf := incr16 buf count in
  Ret (buf, Some (ptr + 10))).

Definition putQuestion (buf : list Z) (ptr : option Z) (limit : Z) (name : list Z) (rrtype rrclass : Z)
    : outcome (list Z * option Z) :=
  then_ptr (putDomainNameAsLabels true buf ptr limit name) (fun buf ptr =>
  if limit <=? ptr + 4 then Ret (buf, None) else
  let* '(buf, _) := putVal16 buf ptr rrtype in
  let* '(buf, _) := putVal16 buf (ptr + 2) rrclass in
  let* buf := incr16 buf off_numQuestions in
  Ret (buf, Some (ptr + 4))).

(** [zoneClass] is two bytes. *)
Definition putZone (buf : list Z) (ptr : option Z) (limit : Z) (zone : list Z) (zoneClass : Z * Z) : outcome (list Z * option Z) :=
  then_ptr (putDomainNameAsLabels true buf ptr limit zone) (fun buf ptr =>
  if limit <? ptr + 4 then Ret (buf, None) else
  let* '(buf, _) := putVal16 buf ptr kDNSType_SOA in
  let* buf := aset buf (ptr + 2) zoneClass.1 in
  let* buf := aset buf (ptr + 3) zoneClass.2 in
  let* buf := incr16 buf off_numQuestions in
  Ret (buf, Some (ptr + 4))).

(** The record is restored after the call, so it is not part of the result. *)
Definition putDeletionRecord (buf : list Z) (ptr : option Z) (rr : ResourceRecord) : outcome (list Z * option Z) :=
  PutResourceRecordTTLJumbo buf ptr (Some off_numAuthorities) (rr <| rr_rrclass := kDNSClass_NONE |>) 0.

Definition put_delete (buf : list Z) (ptr : option Z) (name : list Z) (rrtype : Z) : outcome (list Z * option Z) :=
  let limit := off_data + AbsoluteMaxDNSMessageData in
  then_ptr (putDomainNameAsLabels true buf ptr limit name) (fun buf ptr =>
  if limit <=? ptr + 10 then Ret (buf, None) else
  let* buf := put_empty buf ptr rrtype kDNSQClass_ANY in
  let* buf := incr16 buf off_numAuthorities in
  Ret (buf, Some (ptr + 10))).
Definition putDeleteRRSet (buf : list Z) (ptr : option Z) (name : list Z) (rrtype : Z) : outcome (list Z * option Z) :=
  put_delete buf ptr name rrtype.
Definition putDeleteAllRRSets (buf : list Z) (ptr : option Z) (name : list Z) : outcome (list Z * option Z) :=
  put_delete buf ptr name kDNSQType_ANY.

(** *** Records made up for a message *)
Definition kStandardTTL : Z := 4500.
Definition kHostNameTTL : Z := 120.
Definition DefaultTTLforRRType (t : Z) : Z :=
  if (t =? kDNSType_A) || (t =? kDNSType_AAAA) || (t =? kDNSType_SRV) then kHostNameTTL else kStandardTTL.

(** The [resrec] part of [mDNS_SetupResourceRecord]; [rr] is the record's
    memory before the call, [None] for [RDataStorage] the record's own storage
    of [sizeof(RDataBody)] = 532 bytes. *)
Definition mDNS_SetupResourceRecord (one_second : Z) (rr : ResourceRecord) (RDataStorage : option (Z * list Z))
    (InterfaceID rrtype ttl RecordType : Z) : outcome ResourceRecord :=
  if one_second =? 0 then Fault DivByZero else
  let ttl := if 0x7FFFFFFF / one_second <? ttl then 0x7FFFFFFF / one_second
             else if ttl =? 0 then DefaultTTLforRRType rrtype else ttl in
  let rr := rr <| rr_RecordType := RecordType |> <| rr_InterfaceID := InterfaceID |> <| rr_rrtype := rrtype |>
               <| rr_rrclass := kDNSClass_IN |> <| rr_rroriginalttl := ttl |> in
  let rr := match RDataStorage with
            | Some (max, u) => rr <| rr_MaxRDLength := max |> <| rr_rdata := u |>
            | None => rr <| rr_MaxRDLength := 532 |>
            end in
  let* name := aset (rr_name rr) 0 0 in
  Ret (rr <| rr_name := name |>).

(** [AssignDomainName]: copies the name if it is legal, else clears the target. *)
Definition AssignDomainName (dst src : list Z) : outcome (list Z) :=
  let* len := DomainNameLength src in
  if len <=? MAX_DOMAIN_NAME then copy len src 0 dst 0 else aset dst 0 0.

Definition putPrereqNameNotInUse (one_second : Z) (prereq : ResourceRecord) (name : list Z) (buf : list Z) (ptr : option Z) (e : Z)
    : outcome (list Z * option Z) :=
  let* prereq := mDNS_SetupResourceRecord one_second prereq None 0 kDNSQType_ANY kStandardTTL 0 in
  let* nm := AssignDomainName (rr_name prereq) name in
  let prereq := prereq <| rr_name := nm |> <| rr_rrtype := kDNSQType_ANY |> <| rr_rrclass := kDNSClass_NONE |> in
  putEmptyResourceRecord buf ptr e off_numAnswers prereq.

Definition putUpdateLease (one_second : Z) (rr : ResourceRecord) (buf : list Z) (e : option Z) (lease : Z)
    : outcome (list Z * option Z) :=
  let* rr := mDNS_SetupResourceRecord one_second rr None 0 kDNSType_OPT kStandardTTL kDNSRecordTypeKnownUnique in
  let* u := set16 (rr_rdata rr) 0 kDNSOpt_Lease in
  let* u := set16 u 2 4 in
  let* u := set32 u 4 lease in
  let rr := rr <| rr_rrclass := NormalMaxDNSMessageData |> <| rr_rdlength := LEASE_OPT_RDLEN |>
               <| rr_rdestimate := LEASE_OPT_RDLEN |> <| rr_rdata := u |> in
  PutResourceRecordTTLJumbo buf e (Some off_numAdditionals) rr 0.

(** [hinfo] is the memory of the record on the stack, [authInfo] the members
    [AutoTunnel] and [domain], [None] for NULL. *)
Definition putHINFO (one_second : Z) (hinfo : ResourceRecord) (HIHardware HISoftware hostlabel : list Z)
    (buf : list Z) (e : option Z) (authInfo : option (bool * list Z)) : outcome (list Z * option Z) :=
  match authInfo with
  | Some (true, domain) =>
    let* hw := aget HIHardware 0 in
    let* sw := aget HISoftware 0 in
    let len := u16 (2 + hw + sw) in
    let* hinfo := mDNS_SetupResourceRecord one_second hinfo None 0 kDNSType_HINFO 0 kDNSRecordTypeUnique in
    let* '(nm, _) := AppendDomainLabel (rr_name hinfo) hostlabel in
    let* '(nm, _) := AppendDomainName nm domain in
    let* u := copy (1 + hw) HIHardware 0 (rr_rdata hinfo) 0 in
    let* h0 := aget u 0 in
    let* u := copy (1 + sw) HISoftware 0 u (1 + h0) in
    let hinfo := hinfo <| rr_name := nm |> <| rr_rroriginalttl := 0 |> <| rr_rdata := u |>
                       <| rr_rdlength := len |> <| rr_rdestimate := len |> in
    PutResourceRecord buf e (Some off_numAdditionals) hinfo
  | _ => Ret (buf, e)
  end.

(** ** Skipping and reading *)
Definition rd16 (msg : list Z) (p : Z) : outcome Z :=
  let* a := aget msg p in let* b := aget msg (p + 1) in Ret (Z.lor (Z.shiftl a 8) b).
Definition rd32 (msg : list Z) (p : Z) : outcome Z :=
  let* a := aget msg p in let* b := aget msg (p + 1) in
  let* c := aget msg (p + 2) in let* d := aget msg (p + 3) in
  Ret (Z.lor (Z.lor (Z.lor (Z.shiftl a 24) (Z.shiftl b 16)) (Z.shiftl c 8)) d).

Definition skipResourceRecord (msg : list Z) (ptr : option Z) (e : Z) : outcome (option Z) :=
  match ptr with
  | None => Ret None   (* [skipDomainName] rejects a null pointer: it lies below [msg] *)
  | Some ptr =>
    let* r := skipDomainName msg ptr e in
    match r with
    | None => Ret None
    | Some ptr =>
      if e <? ptr + 10 then Ret None else
      let* pktrdlength := rd16 msg (ptr + 8) in
      let ptr := ptr + 10 in
      if e <? ptr + pktrdlength then Ret None else Ret (Some (ptr + pktrdlength))
    end
  end.

Definition skipQuestion (msg : list Z) (ptr e : Z) : outcome (option Z) :=
  let* r := skipDomainName msg ptr e in
  match r with
  | None => Ret None
  | Some ptr => if e <? ptr + 4 then Ret None else Ret (Some (ptr + 4))
  end.

(** [qname] is the name buffer of the question, zeroed with the rest of it. *)
Definition getQuestion (msg : list Z) (ptr e InterfaceID : Z) : outcome (DNSQuestion * option Z) :=
  let q := mkDNSQuestion InterfaceID 0 (replicate 256 0) 0 0 0 in
  let* '(qname, r) := getDomainName msg ptr e (q_qname q) in
  let q := mkDNSQuestion InterfaceID 0 qname 0 0 0 in
  match r with
  | None => Ret (q, None)
  | Some ptr =>
    if e <? ptr + 4 then Ret (q, None) else
    let* hash := DomainNameHashValue qname in
    let* qtype := rd16 msg ptr in
    let* qclass := rd16 msg (ptr + 2) in
    Ret (mkDNSQuestion InterfaceID 0 qname hash qtype qclass, Some (ptr + 4))
  end.

(** *** Locating the sections *)
Fixpoint skip_questions (n : nat) (msg : list Z) (ptr : option Z) (e : Z) : outcome (option Z) :=
  match n, ptr with
  | S n, Some p => let* ptr := skipQuestion msg p e in skip_questions n msg ptr e
  | _, _ => Ret ptr
  end.
Fixpoint skip_records (n : nat) (msg : list Z) (ptr : option Z) (e : Z) : outcome (option Z) :=
  match n, ptr with
  | S n, Some p => let* ptr := skipResourceRecord msg (Some p) e in skip_records n msg ptr e
  | _, _ => Ret ptr
  end.
Definition LocateAnswers (msg : list Z) (e : Z) : outcome (option Z) :=
  let* n := get16 msg off_numQuestions in skip_questions (Z.to_nat n) msg (Some off_data) e.
Definition LocateAuthorities (msg : list Z) (e : Z) : outcome (option Z) :=
  let* ptr := LocateAnswers msg e in
  let* n := get16 msg off_numAnswers in skip_records (Z.to_nat n) msg ptr e.
(** This loop goes on with a null pointer, which every call returns again. *)
Definition LocateAdditionals (msg : list Z) (e : Z) : outcome (option Z) :=
  let* ptr := LocateAuthorities msg e in
  let* n := get16 msg off_numAuthorities in skip_records (Z.to_nat n) msg ptr e.

(** The OPT record with at least [rdlen] bytes of rdata among the next [n] records. *)
Definition opt_record_at (msg : list Z) (p e rdlen : Z) : outcome bool :=
  if negb (p + 10 + rdlen <=? e) then Ret false else
  let* b0 := aget msg p in
  if negb (b0 =? 0) then Ret false else
  let* b1 := aget msg (p + 1) in
  if negb (b1 =? 0) then Ret false else
  let* b2 := aget msg (p + 2) in
  if negb (b2 =? kDNSType_OPT) then Ret false else
  let* len := rd16 msg (p + 9) in Ret (rdlen <=? len).
Fixpoint locate_opt (n : nat) (msg : list Z) (ptr : option Z) (e rdlen : Z) : outcome (option Z) :=
  match n, ptr with
  | S n, Some p =>
    let* here := opt_record_at msg p e rdlen in
    if here : bool then Ret (Some p)
    else let* ptr := skipResourceRecord msg (Some p) e in locate_opt n msg ptr e rdlen
  | _, _ => Ret None
  end.
Definition LocateLLQOptData (msg : list Z) (e : Z) : outcome (option Z) :=
  let* ptr := LocateAdditionals msg e in
  let* n := get16 msg off_numAdditionals in locate_opt (Z.to_nat n) msg ptr e LLQ_OPT_RDLEN.
Definition LocateLeaseOptData (msg : list Z) (e : Z) : outcome (option Z) :=
  let* ptr := LocateAdditionals msg e in
  let* n := get16 msg off_numAdditionals in locate_opt (Z.to_nat n) msg ptr e LEASE_OPT_RDLEN.

(** *** A record from a packet *)
Definition max_ttl (one_second : Z) : outcome Z :=
  if one_second =? 0 then Fault DivByZero else Ret (0x70000000 / one_second).
Definition cap_ttl (one_second ttl : Z) : outcome Z :=
  let* max := max_ttl one_second in Ret (if max <? ttl then max else ttl).

(** [o] is the offset of [opt] in the rdata; the test of the space left is
    made on the difference as an unsigned number. *)
Fixpoint getOptRdata_loop (fuel : nat) (one_second : Z) (msg : list Z) (ptr limit : Z) (u : list Z) (o nread pktRDLen maxlen : Z)
    : outcome (list Z * option Z) :=
  match fuel with
  | O => Fault OutOfFuel
  | S fuel =>
    if negb ((nread <? pktRDLen) && (o <? MaximumRDSize - sizeof_rdataOPT)) then Ret (u, Some ptr) else
    if maxlen <? nread + 4 then Ret (u, None) else
    let* '(opt, ptr) := getVal16 msg ptr in
    let* u := set16 u o opt in
    let* '(optlen, ptr) := getVal16 msg ptr in
    let* u := set16 u (o + 2) optlen in
    let nread := nread + 4 in
    if opt =? kDNSOpt_LLQ then
      if u32 (limit - ptr) <? LLQ_OPTLEN then Ret (u, None) else
      let* '(vers, ptr) := getVal16 msg ptr in
      let* u := set16 u (o + 4) vers in
      let* '(llqOp, ptr) := getVal16 msg ptr in
      let* u := set16 u (o + 6) llqOp in
      let* '(err, ptr) := getVal16 msg ptr in
      let* u := set16 u (o + 8) err in
      let* u := copy 8 msg ptr u (o + 10) in
      let ptr := ptr + 8 in
      let* lease := rd32 msg ptr in
      let* lease := cap_ttl one_second lease in
      let* u := set32 u (o + 18) lease in
      getOptRdata_loop fuel one_second msg (ptr + 4) limit u (o + sizeof_rdataOPT) (nread + LLQ_OPTLEN) pktRDLen maxlen
    else if opt =? kDNSOpt_Lease then
      if u32 (limit - ptr) <? 4 then Ret (u, None) else
      let* lease := rd32 msg ptr in
      let* lease := cap_ttl one_second lease in
      let* u := set32 u (o + 4) lease in
      getOptRdata_loop fuel one_second msg (ptr + 4) limit u (o + sizeof_rdataOPT) (nread + 4) pktRDLen maxlen
    else Ret (u, None)
  end.

(** A name fetched into the rdata at offset [off]. *)
Definition get_name_at (msg : list Z) (ptr e : Z) (u : list Z) (off : Z) : outcome (list Z * option Z) :=
  let* '(name, r) := getDomainName msg ptr e (ptr_add u off) in
  Ret (take (Z.to_nat off) u ++ name, r).

(** [if (ptr != end) return NULL;] *)
Definition ends_at (p : option Z) (e : Z) : bool := match p with Some p => p =? e | None => false end.

Definition get_raw (msg : list Z) (ptr len maxlen : Z) (u : list Z) : outcome (list Z * bool) :=
  if maxlen <? len then Ret (u, false) else
  let* u := copy len msg ptr u 0 in Ret (u, true).

(** The rdata of [len] bytes at [ptr], by type: the memory of the union, what
    becomes of [rdlength], and whether the rdata was accepted. *)
Definition get_rdata (one_second : Z) (msg : list Z) (ptr len : Z) (rrtype rdlength maxlen : Z) (u : list Z)
    : outcome (list Z * Z * bool) :=
  let e := ptr + len in
  let keep (r : outcome (list Z * bool)) := let* '(u, ok) := r in Ret (u, rdlength, ok) in
  match kind_of_type rrtype with
  | KindA => keep (if negb (len =? 4) then Ret (u, false) else get_raw msg ptr 4 4 u)
  | KindName => keep (let* '(u, p) := get_name_at msg ptr e u 0 in Ret (u, ends_at p e))
  | KindSOA => keep (
    let* '(u, p) := get_name_at msg ptr e u off_soa_mname in
    match p with
    | None => Ret (u, false)
    | Some ptr =>
      let* '(u, p) := get_name_at msg ptr e u off_soa_rname in
      match p with
      | None => Ret (u, false)
      | Some ptr =>
        if negb (ptr + 0x14 =? e) then Ret (u, false) else
        let* serial := rd32 msg ptr in
        let* u := set32 u off_soa_serial serial in
        let* refresh := rd32 msg (ptr + 4) in
        let* u := set32 u (off_soa_serial + 4) refresh in
        let* retry := rd32 msg (ptr + 8) in
        let* u := set32 u (off_soa_serial + 8) retry in
        let* expire := rd32 msg (ptr + 12) in
        let* u := set32 u (off_soa_serial + 12) expire in
        let* min := rd32 msg (ptr + 16) in
        let* u := set32 u (off_soa_serial + 16) min in
        Ret (u, true)
      end
    end)
  | KindRaw | KindOther =>
    let* '(u, ok) := get_raw msg ptr len maxlen u in Ret (u, if ok then len else rdlength, ok)
  | KindMX => keep (
    if len <? 3 then Ret (u, false) else
    let* preference := rd16 msg ptr in
    let* u := set16 u 0 preference in
    let* '(u, p) := get_name_at msg (ptr + 2) e u off_mx_exchange in Ret (u, ends_at p e))
  | KindRP => keep (
    let* '(u, p) := get_name_at msg ptr e u 0 in
    match p with
    | None => Ret (u, false)
    | Some ptr => let* '(u, p) := get_name_at msg ptr e u off_rp_txt in Ret (u, ends_at p e)
    end)
  | KindPX => keep (
    if len <? 4 then Ret (u, false) else
    let* preference := rd16 msg ptr in
    let* u := set16 u 0 preference in
    let* '(u, p) := get_name_at msg ptr e u off_px_map822 in
    match p with
    | None => Ret (u, false)
    | Some ptr => let* '(u, p) := get_name_at msg ptr e u off_px_mapx400 in Ret (u, ends_at p e)
    end)
  | KindAAAA => keep (if negb (len =? 16) then Ret (u, false) else get_raw msg ptr 16 16 u)
  | KindSRV => keep (
    if len <? 7 then Ret (u, false) else
    let* priority := rd16 msg ptr in
    let* u := set16 u 0 priority in
    let* weight := rd16 msg (ptr + 2) in
    let* u := set16 u 2 weight in
    let* u := copy 2 msg (ptr + 4) u 4 in
    let* '(u, p) := get_name_at msg (ptr + 6) e u off_srv_target in Ret (u, ends_at p e))
  | KindOPT =>
    (* the [break] comes before the test of the result *)
    let* '(u, p) := getOptRdata_loop (S (Z.to_nat len)) one_second msg ptr e u 0 0 len maxlen in
    Ret (u, match p with Some _ => len | None => rdlength end, true)
  end.

(** The [resrec] part of [GetLargeResourceRecord]; [largecr] is the record's
    memory before the call. *)
Definition GetLargeResourceRecord (one_second : Z) (msg : list Z) (ptr e InterfaceID RecordType : Z) (largecr : ResourceRecord)
    : outcome (ResourceRecord * option Z) :=
  let rr := largecr <| rr_InterfaceID := InterfaceID |> in
  let* '(name, r) := getDomainName msg ptr e (rr_name rr) in
  let rr := rr <| rr_name := name |> in
  match r with
  | None => Ret (rr, None)
  | Some ptr =>
    if e <? ptr + 10 then Ret (rr, None) else
    let* rrtype := rd16 msg ptr in
    let* class := rd16 msg (ptr + 2) in
    let* ttl := rd32 msg (ptr + 4) in
    let* max := max_ttl one_second in
    let ttl := if (max <? ttl) && negb (s32 ttl =? -1) then max else ttl in
    let rr := rr <| rr_rrtype := rrtype |> <| rr_rrclass := Z.land class kDNSClass_Mask |> <| rr_rroriginalttl := ttl |> in
    let* pktrdlength := rd16 msg (ptr + 8) in
    let* b2 := aget msg (ptr + 2) in
    let* flags0 := aget msg 2 in
    let RecordType := if negb (Z.land b2 0x80 =? 0) || (InterfaceID =? 0) && (Z.land flags0 0x02 =? 0)
                      then Z.lor RecordType kDNSRecordTypePacketUniqueMask else RecordType in
    let ptr := ptr + 10 in
    if e <? ptr + pktrdlength then Ret (rr, None) else
    let rr := rr <| rr_MaxRDLength := MaximumRDSize |> in
    let* '(u, rdlength, ok) :=
      (if (rr_rrclass rr =? kDNSQClass_ANY) && (pktrdlength =? 0) then Ret (rr_rdata rr, 0, true)
       else get_rdata one_second msg ptr pktrdlength rrtype (rr_rdlength rr) MaximumRDSize (rr_rdata rr)) in
    let rr := rr <| rr_rdata := u |> <| rr_rdlength := rdlength |> in
    if negb ok then Ret (rr, None) else
    let* hash := DomainNameHashValue (rr_name rr) in
    let rr := rr <| rr_namehash := hash |> in
    let* rr := SetNewRData rr None 0 in
    Ret (rr <| rr_RecordType := RecordType |>, Some (ptr + pktrdlength))
  end.

(** *** The lease of an update.  [rec] is [m->rec], the caller's record. *)
Definition GetPktLease (one_second : Z) (rec : ResourceRecord) (msg : list Z) (e : Z) : outcome (ResourceRecord * Z) :=
  let* ptr := LocateLeaseOptData msg e in
  let* '(rec, ptr) := match ptr with
                      | Some p => GetLargeResourceRecord one_second msg p e 0 kDNSRecordTypePacketAdd rec
                      | None => Ret (rec, None)
                      end in
  let* result :=
    match ptr with
    | Some _ =>
      if negb (LEASE_OPT_RDLEN <=? rr_rdlength rec) then Ret 0 else
      let* opt := get16 (rr_rdata rec) 0 in
      if opt =? kDNSOpt_Lease then get32 (rr_rdata rec) 4 else Ret 0
    | None => Ret 0
    end in
  Ret (rec <| rr_RecordType := 0 |>, result).
Definition GetLLQOptData (one_second : Z) (rec : ResourceRecord) (msg : list Z) (e : Z) : outcome (ResourceRecord * bool) :=
  let* ptr := LocateLLQOptData msg e in
  match ptr with
  | Some p =>
    let* '(rec, r) := GetLargeResourceRecord one_second msg p e 0 kDNSRecordTypePacketAdd rec in
    Ret (rec, match r with Some _ => true | None => false end)
  | None => Ret (rec, false)
  end.
