(* ===== verification/DNSMessageGet.v ===== *)
(** Reading records is memory safe: on every packet [GetLargeResourceRecord]
    returns, and the record it accepts has a legal name and legal names in its
    rdata.

    The buffer that holds the packet extends 22 bytes past its end, which the
    DNSMessage of the receive path does: a compression pointer at the end of
    the packet and the options of an OPT record are read past it. *)
From S2P Require Import Prelude Bytes DNSTypes DNSName DNSWireGet DNSWirePut DNSRecord DNSRecordSpec DNSMessage.

(** ** Words in memory *)
Lemma aget_ok (m : list Z) p : 0 ≤ p < zlen m → ∃ x, aget m p = Ret x ∧ at_ m p x.
Proof. intros [x Hx]%at_exists. exists x. split; [by apply aget_at|done]. Qed.

Lemma get16_ok m p : 0 ≤ p → p + 2 ≤ zlen m → ∃ v, get16 m p = Ret v.
Proof.
  intros. unfold get16. destruct (aget_ok m p) as (a & -> & _); [lia|]. cbn [obind].
  destruct (aget_ok m (p + 1)) as (b & -> & _); [lia|]. cbn [obind]. by eauto.
Qed.
Lemma get32_ok m p : 0 ≤ p → p + 4 ≤ zlen m → ∃ v, get32 m p = Ret v.
Proof.
  intros. unfold get32. destruct (aget_ok m p) as (a & -> & _); [lia|]. cbn [obind].
  destruct (aget_ok m (p + 1)) as (b & -> & _); [lia|]. cbn [obind].
  destruct (aget_ok m (p + 2)) as (c & -> & _); [lia|]. cbn [obind].
  destruct (aget_ok m (p + 3)) as (d & -> & _); [lia|]. cbn [obind]. by eauto.
Qed.
Lemma set16_write m p v : 0 ≤ p → p + 2 ≤ zlen m → set16 m p v = Ret (write m p [v mod 256; v / 256]).
Proof.
  intros. unfold set16. rewrite aset_write by lia. cbn [obind]. by rewrite aset_app by (done || lia).
Qed.
Lemma set32_write m p v : 0 ≤ p → p + 4 ≤ zlen m →
  set32 m p v = Ret (write m p [v mod 256; v / 256 mod 256; v / 65536 mod 256; v / 16777216]).
Proof.
  intros. unfold set32. rewrite aset_write by lia. cbn [obind].
  do 2 (rewrite aset_app by (done || lia); cbn [obind app]). by rewrite aset_app by (done || lia).
Qed.

(** ** The storage of a received record

    [m->rec] has [MaximumRDSize] bytes of rdata storage, zero at first.  No
    packet of at most [MaximumRDSize] bytes reaches its last byte, so every
    string of bytes in it is ended by a zero. *)
Definition mem_ok (u : list Z) : Prop :=
  bytes_ok u ∧ zlen u = MaximumRDSize ∧ at_ u (MaximumRDSize - 1) 0.

(** The names that stand before offset [p] stay. *)
Definition keeps (p : Z) (u u' : list Z) : Prop :=
  ∀ off, 0 ≤ off → off + 255 ≤ p → legal_at u off → legal_at u' off.

Lemma keeps_refl p u : keeps p u u.
Proof. by intros ?. Qed.

Lemma keeps_at p u u' : zlen u' = zlen u → p ≤ zlen u → (∀ i x, i < p → at_ u i x → at_ u' i x) → keeps p u u'.
Proof.
  intros Hl Hp Hat off Ho Hoff (ls & [Hok Hlen] & Hn). exists ls. split; [done|]. unfold MAX_DOMAIN_NAME in Hlen.
  apply is_name_ptr_add, (holds_ext u); [|done|intros i x Hi; apply Hat; lia].
  unfold is_name in Hn. apply holds_ptr_add_inv in Hn; [|lia]. by rewrite Z.add_0_r in Hn.
Qed.

Lemma mem_ok_write u p bs : mem_ok u → bytes_ok bs → 0 ≤ p → p + zlen bs < MaximumRDSize →
  mem_ok (write u p bs) ∧ keeps p u (write u p bs).
Proof.
  unfold mem_ok, MaximumRDSize. intros (Hb & Hl & Hz) Hbs Hp Hlen. pose proof (zlen_nonneg bs).
  pose proof (zlen_write u p bs Hp ltac:(lia)) as Hw. split; [split_and!; [by apply write_bytes_ok|lia|apply write_at_other; (done || lia)]|].
  apply keeps_at; [done|lia|]. intros i x Hi. apply write_at_other; lia.
Qed.

Lemma set16_mem u p v : mem_ok u → is_u16 v → 0 ≤ p → p + 2 < MaximumRDSize →
  ∃ u', set16 u p v = Ret u' ∧ mem_ok u' ∧ keeps p u u'.
Proof.
  intros Hm Hv Hp Hl. rewrite set16_write by (destruct Hm as (_ & ? & _); lia). eexists. split; [done|].
  apply mem_ok_write; [done| |done|change (zlen _) with 2; lia]. repeat constructor; Z.div_mod_to_equations; lia.
Qed.
Lemma set32_mem u p v : mem_ok u → is_u32 v → 0 ≤ p → p + 4 < MaximumRDSize →
  ∃ u', set32 u p v = Ret u' ∧ mem_ok u' ∧ keeps p u u'.
Proof.
  intros Hm Hv Hp Hl. rewrite set32_write by (destruct Hm as (_ & ? & _); lia). eexists. split; [done|].
  apply mem_ok_write; [done| |done|change (zlen _) with 4; lia]. repeat constructor; Z.div_mod_to_equations; lia.
Qed.
Lemma copy_mem msg u n s d : mem_ok u → bytes_ok msg → 0 ≤ s → 0 ≤ n → s + n ≤ zlen msg → 0 ≤ d → d + n < MaximumRDSize →
  ∃ u', copy n msg s u d = Ret u' ∧ mem_ok u' ∧ keeps d u u'.
Proof.
  intros Hm Hmsg Hs Hn Hsl Hd Hdl. pose proof Hm as (_ & Hl & _).
  destruct (copy_range msg u n s d) as (bs & Hh & Hz & ->); [lia..|]. eexists. split; [done|].
  apply mem_ok_write; [done|by apply (holds_bytes_ok msg s)|done|lia].
Qed.

(** ** Words of the packet *)
Lemma rd16_ok msg p : bytes_ok msg → 0 ≤ p → p + 2 ≤ zlen msg → ∃ v, rd16 msg p = Ret v ∧ is_u16 v.
Proof.
  intros Hb ??. unfold rd16. destruct (aget_ok msg p) as (a & -> & Ha); [lia|]. cbn [obind].
  destruct (aget_ok msg (p + 1)) as (b & -> & Hb'); [lia|]. cbn [obind]. eexists. split; [done|].
  pose proof (bytes_ok_at _ _ _ Hb Ha). pose proof (bytes_ok_at _ _ _ Hb Hb'). rewrite join16 by lia. lia.
Qed.
Lemma getVal16_rd16 msg p : getVal16 msg p = (let* v := rd16 msg p in Ret (v, p + 2)).
Proof. unfold getVal16, rd16. destruct (aget msg p); [|done]. cbn [obind]. by destruct (aget msg (p + 1)). Qed.
Lemma getVal16_ok msg p : bytes_ok msg → 0 ≤ p → p + 2 ≤ zlen msg → ∃ v, getVal16 msg p = Ret (v, p + 2) ∧ is_u16 v.
Proof. intros. rewrite getVal16_rd16. destruct (rd16_ok msg p) as (v & -> & ?); [done..|]. by exists v. Qed.
Lemma rd32_ok msg p : bytes_ok msg → 0 ≤ p → p + 4 ≤ zlen msg → ∃ v, rd32 msg p = Ret v ∧ is_u32 v.
Proof.
  intros Hb ??. unfold rd32. destruct (aget_ok msg p) as (a & -> & Ha); [lia|]. cbn [obind].
  destruct (aget_ok msg (p + 1)) as (b & -> & Hb1); [lia|]. cbn [obind].
  destruct (aget_ok msg (p + 2)) as (c & -> & Hc); [lia|]. cbn [obind].
  destruct (aget_ok msg (p + 3)) as (d & -> & Hd); [lia|]. cbn [obind]. eexists. split; [done|].
  pose proof (bytes_ok_at _ _ _ Hb Ha). pose proof (bytes_ok_at _ _ _ Hb Hb1).
  pose proof (bytes_ok_at _ _ _ Hb Hc). pose proof (bytes_ok_at _ _ _ Hb Hd). by rewrite join32; lia.
Qed.

(** ** The options of an OPT record *)
Section Opt.
Context (one_second : Z) (msg : list Z) (limit maxlen len : Z).
Hypothesis Hone : 0 < one_second.
Hypothesis Hmsg : bytes_ok msg.
Hypothesis Hlimit : 0 ≤ limit ∧ limit + 22 ≤ zlen msg.

Lemma max_ttl_ok : max_ttl one_second = Ret (0x70000000 / one_second) ∧ is_u32 (0x70000000 / one_second).
Proof.
  unfold max_ttl. rewrite (proj2 (Z.eqb_neq _ _)) by lia. split; [done|]. Z.div_mod_to_equations. nia.
Qed.
Lemma cap_ttl_ok v : is_u32 v → ∃ w, cap_ttl one_second v = Ret w ∧ is_u32 w.
Proof.
  intros Hv. unfold cap_ttl. destruct max_ttl_ok as [-> ?]. cbn [obind]. eexists. split; [done|]. case_match; lia.
Qed.

(** The stores of every step stay in the storage, whatever the options say:
    [ptr] and [nread] advance together, [opt] by whole structs. *)
Lemma getOptRdata_loop_safe : ∀ fuel ptr u k nread, mem_ok u → 0 ≤ k → 0 ≤ nread → 0 ≤ ptr →
  limit - ptr = len - nread → Z.max 0 (len - nread) < Z.of_nat fuel →
  safe (getOptRdata_loop fuel one_second msg ptr limit u (sizeof_rdataOPT * k) nread len maxlen) (fun '(u', _) => mem_ok u').
Proof.
  induction fuel as [|fuel IH]; intros ptr u k nread Hu Ho Hn Hp Hrel Hf; [lia|]. cbn [getOptRdata_loop].
  set (o := sizeof_rdataOPT * k).
  assert (o < MaximumRDSize - sizeof_rdataOPT → o + 22 < MaximumRDSize) as Hlast by (unfold o, sizeof_rdataOPT, MaximumRDSize; lia).
  assert (0 ≤ o) as Ho' by (unfold o, sizeof_rdataOPT; lia).
  replace (o + sizeof_rdataOPT) with (sizeof_rdataOPT * (k + 1)) by lia.
  destruct (Z.ltb_spec nread len) as [Hlt|], (Z.ltb_spec o (MaximumRDSize - sizeof_rdataOPT)) as [Hlo%Hlast|]; cbn [andb negb]; try done.
  destruct (maxlen <? nread + 4); [done|]. unfold LLQ_OPTLEN. clearbody o. clear Hlast.
  destruct (getVal16_ok msg ptr) as (opt & -> & ?); [done|lia|lia|]. cbn [obind].
  destruct (set16_mem u o opt) as (u1 & -> & M1 & _); [done..|lia|]. cbn [obind].
  destruct (getVal16_ok msg (ptr + 2)) as (optlen & -> & ?); [done|lia|lia|]. cbn [obind].
  destruct (set16_mem u1 (o + 2) optlen) as (u2 & -> & M2 & _); [done|done|lia|lia|]. cbn [obind].
  destruct (opt =? kDNSOpt_LLQ).
  - destruct (u32 _ <? 18); [done|].
    destruct (getVal16_ok msg (ptr + 2 + 2)) as (vers & -> & ?); [done|lia|lia|]. cbn [obind].
    destruct (set16_mem u2 (o + 4) vers) as (u3 & -> & M3 & _); [done|done|lia|lia|]. cbn [obind].
    destruct (getVal16_ok msg (ptr + 2 + 2 + 2)) as (op & -> & ?); [done|lia|lia|]. cbn [obind].
    destruct (set16_mem u3 (o + 6) op) as (u4 & -> & M4 & _); [done|done|lia|lia|]. cbn [obind].
    destruct (getVal16_ok msg (ptr + 2 + 2 + 2 + 2)) as (err & -> & ?); [done|lia|lia|]. cbn [obind].
    destruct (set16_mem u4 (o + 8) err) as (u5 & -> & M5 & _); [done|done|lia|lia|]. cbn [obind].
    destruct (copy_mem msg u5 8 (ptr + 2 + 2 + 2 + 2 + 2) (o + 10)) as (u6 & -> & M6 & _); [done|done|lia..|]. cbn [obind].
    destruct (rd32_ok msg (ptr + 2 + 2 + 2 + 2 + 2 + 8)) as (lease & -> & Hl); [done|lia|lia|]. cbn [obind].
    destruct (cap_ttl_ok lease Hl) as (lease' & -> & ?). cbn [obind].
    destruct (set32_mem u6 (o + 18) lease') as (u7 & -> & M7 & _); [done|done|lia|lia|]. cbn [obind].
    apply IH; (done || lia).
  - destruct (opt =? kDNSOpt_Lease); [|done]. destruct (u32 _ <? 4); [done|].
    destruct (rd32_ok msg (ptr + 2 + 2)) as (lease & -> & Hl); [done|lia|lia|]. cbn [obind].
    destruct (cap_ttl_ok lease Hl) as (lease' & -> & ?). cbn [obind].
    destruct (set32_mem u2 (o + 4) lease') as (u7 & -> & M7 & _); [done|done|lia|lia|]. cbn [obind].
    apply IH; (done || lia).
Qed.
End Opt.

(** ** Names of the rdata *)
Lemma aset_bytes (l : list Z) i v l' : aset l i v = Ret l' → bytes_ok l → is_u8 v → bytes_ok l'.
Proof.
  unfold aset. case_match; [|done]. intros [= <-] Hl Hv. by apply bytes_ok_insert.
Qed.
Lemma copy_loop_bytes src n : ∀ s dst d dst', copy_loop n src s dst d = Ret dst' → bytes_ok src → bytes_ok dst → bytes_ok dst'.
Proof.
  induction n as [|n IH]; intros s dst d dst' H Hs Hd; [by injection H as <-|]. simpl in H.
  apply obind_Ret_inv in H as (x & Hx%aget_at & H). apply obind_Ret_inv in H as (dst1 & H1 & H).
  apply (IH _ _ _ _ H Hs). apply (aset_bytes _ _ _ _ H1 Hd). by apply (bytes_ok_at _ _ _ Hs Hx).
Qed.

Lemma getDomainName_loop_bytes msg e : bytes_ok msg → ∀ fuel name np ptr nb name' r,
  getDomainName_loop fuel msg e name np ptr nb = Ret (name', r) → bytes_ok name → bytes_ok name'.
Proof.
  intros Hmsg. induction fuel as [|fuel IH]; intros name np ptr nb name' r H Hn; [done|]. cbn [getDomainName_loop] in H.
  apply obind_Ret_inv in H as (len & Hlen%aget_at & H). pose proof (bytes_ok_at _ _ _ Hmsg Hlen) as H8.
  repeat case_match; simplify_eq; try done.
  1: { apply obind_Ret_inv in H as (n1 & E1 & H). apply obind_Ret_inv in H as (n2 & E2 & H). apply obind_Ret_inv in H as (n3 & E3 & H).
       apply (IH _ _ _ _ _ _ H), (aset_bytes _ _ _ _ E3); [|done].
       apply (copy_loop_bytes _ _ _ _ _ _ E2 Hmsg), (aset_bytes _ _ _ _ E1 Hn H8). }
  all: apply obind_Ret_inv in H as (b & _ & H); case_match; simplify_eq; try done;
    apply obind_Ret_inv in H as (c & _ & H); case_match; simplify_eq; try done; by apply (IH _ _ _ _ _ _ H).
Qed.

Lemma getDomainName_bytes msg p e name name' r : bytes_ok msg → bytes_ok name →
  getDomainName msg p e name = Ret (name', r) → bytes_ok name'.
Proof.
  intros Hmsg Hn. unfold getDomainName. case_match; [by intros [= <- _]|].
  intros (n1 & H1 & Hl)%obind_Ret_inv. apply (getDomainName_loop_bytes _ _ Hmsg _ _ _ _ _ _ _ Hl).
  by apply (aset_bytes _ _ _ _ H1).
Qed.

Section Names.
Context (msg : list Z) (e : Z).
Hypothesis Hmsg : bytes_ok msg.
Hypothesis He : e < zlen msg.

Lemma get_name_at_ok ptr u off : mem_ok u → 0 ≤ off → off + 256 < MaximumRDSize →
  ∃ u' r, get_name_at msg ptr e u off = Ret (u', r) ∧ mem_ok u' ∧ keeps off u u' ∧
    match r with Some n => legal_at u' off ∧ ptr < n ≤ e + 1 | None => True end.
Proof.
  unfold MaximumRDSize. intros (Hb & Hl & Hz) Ho Hoff. unfold get_name_at. unfold MaximumRDSize in Hl.
  assert (zlen (ptr_add u off) = 8192 - off) as Hlen by (unfold ptr_add, zlen in *; rewrite length_drop; lia).
  assert (length (take (Z.to_nat off) u) = Z.to_nat off) as Ht by (rewrite length_take; unfold zlen in Hl; lia).
  destruct (safe_elim _ _ (getDomainName_spec msg ptr e (ptr_add u off) Hmsg He ltac:(lia))) as ([n r] & Hg & [Hzl Hsame] & _ & Hr).
  simpl in Hzl, Hsame, Hr. rewrite Hg. cbn [obind]. exists (take (Z.to_nat off) u ++ n), r. split; [done|].
  assert (zlen (take (Z.to_nat off) u ++ n) = 8192) as Hzn by (rewrite zlen_app; unfold zlen at 1; lia).
  assert (ptr_add (take (Z.to_nat off) u ++ n) off = n) as Hptr by (unfold ptr_add; by rewrite <- Ht at 1; rewrite drop_app_length).
  split_and!.
  - split_and!; [|done|].
    + apply Forall_app. split; [by apply Forall_take|]. apply (getDomainName_bytes _ _ _ _ _ _ Hmsg) in Hg; [done|by apply Forall_drop].
    + assert (at_ n (8191 - off) 0) as [_ Hat].
      { apply Hsame; [lia|]. destruct Hz as [_ Hz]. split; [lia|]. unfold ptr_add. rewrite lookup_drop.
        replace (Z.to_nat off + Z.to_nat (8191 - off))%nat with (Z.to_nat 8191) by lia. done. }
      split; [done|]. rewrite lookup_app_r by (rewrite Ht; unfold MaximumRDSize; lia).
      rewrite Ht. by replace (Z.to_nat (MaximumRDSize - 1) - Z.to_nat off)%nat with (Z.to_nat (8191 - off)) by (unfold MaximumRDSize; lia).
  - apply keeps_at; [lia|lia|]. intros i x Hi [Hi0 Hx]. split; [done|]. rewrite lookup_app_l by lia. by rewrite lookup_take_lt by lia.
  - destruct r as [next|]; [|done]. destruct Hr as (ls & Hd & Hok & Hn). split; [|by apply decodes_next in Hd].
    exists ls. by rewrite Hptr.
Qed.

(** What the rdata of a type holds after it was fetched. *)
Definition names_ok (t : Z) (u : list Z) : Prop :=
  match kind_of_type t with
  | KindName => legal_at u 0
  | KindSOA => legal_at u off_soa_mname ∧ legal_at u off_soa_rname
  | KindMX => legal_at u off_mx_exchange
  | KindRP => legal_at u 0 ∧ legal_at u off_rp_txt
  | KindPX => legal_at u off_px_map822 ∧ legal_at u off_px_mapx400
  | KindSRV => legal_at u off_srv_target
  | _ => True
  end.

Lemma get_raw_ok ptr len u : mem_ok u → 0 ≤ ptr → 0 ≤ len < MaximumRDSize → ptr + len ≤ zlen msg → ∀ maxlen,
  ∃ u' ok, get_raw msg ptr len maxlen u = Ret (u', ok) ∧ mem_ok u'.
Proof.
  intros Hm Hp Hl Hz maxlen. unfold get_raw. case_match; [by eauto|].
  destruct (copy_mem msg u len ptr 0) as (u' & -> & Hm' & _); [done|done|lia..|]. cbn [obind]. by eauto.
Qed.
End Names.

Section RData.
Context (one_second : Z) (msg : list Z) (ptr len : Z).
Hypothesis Hone : 0 < one_second.
Hypothesis Hmsg : bytes_ok msg.
Hypothesis Hptr : 0 ≤ ptr.
Hypothesis Hlen : 0 ≤ len < MaximumRDSize.
Hypothesis Hend : ptr + len + 22 ≤ zlen msg.
Local Abbreviation e := (ptr + len).

(** A step of the fetch: it returns, keeps the storage, and establishes [P] if it accepts. *)
Definition fetched (P : list Z → Prop) (r : outcome (list Z * bool)) : Prop :=
  ∃ u' ok, r = Ret (u', ok) ∧ mem_ok u' ∧ (ok = true → P u').

Lemma fetched_fail P u : mem_ok u → fetched P (Ret (u, false)).
Proof. intros. by exists u, false. Qed.

Lemma name_ok_at p u off : mem_ok u → 0 ≤ off ≤ 258 →
  ∃ u' r, get_name_at msg p e u off = Ret (u', r) ∧ mem_ok u' ∧ keeps off u u' ∧
    match r with Some n => legal_at u' off ∧ p < n ≤ e + 1 | None => True end.
Proof. intros. apply get_name_at_ok; [done|lia|done|lia|unfold MaximumRDSize; lia]. Qed.

Lemma fetch_raw u n maxlen : mem_ok u → 0 ≤ n ≤ len → fetched (fun _ => True) (get_raw msg ptr n maxlen u).
Proof.
  intros Hm Hn. destruct (get_raw_ok msg Hmsg ptr n u Hm Hptr ltac:(lia) ltac:(lia) maxlen) as (u' & ok & -> & ?).
  by exists u', ok.
Qed.

Lemma fetch_name p u off : mem_ok u → 0 ≤ off ≤ 258 →
  fetched (fun u => legal_at u off) (let* '(u, r) := get_name_at msg p e u off in Ret (u, ends_at r e)).
Proof.
  intros Hm Ho. destruct (name_ok_at p u off Hm Ho) as (u' & r & -> & ? & _ & Hr). cbn [obind].
  eexists _, _. split; [done|]. split; [done|]. destruct r; [|done]. by destruct Hr.
Qed.

(** Two names, then [k]. *)
Lemma fetch_names p u o1 o2 P (k : list Z → option Z → outcome (list Z * bool)) :
  mem_ok u → 0 ≤ o1 → o1 + 255 ≤ o2 ≤ 258 → 
  (∀ u' r, mem_ok u' → match r with Some n => p < n ∧ legal_at u' o1 ∧ legal_at u' o2 | None => True end → fetched P (k u' r)) →
  fetched P (let* '(u, r) := get_name_at msg p e u o1 in
             match r with
             | None => Ret (u, false)
             | Some q => let* '(u, r) := get_name_at msg q e u o2 in k u r
             end).
Proof.
  intros Hm Ho1 Ho2 Hk. destruct (name_ok_at p u o1 Hm ltac:(lia)) as (u1 & [q|] & -> & Hm1 & _ & Hr1); cbn [obind];
    [|by apply fetched_fail].
  destruct (name_ok_at q u1 o2 Hm1 ltac:(lia)) as (u2 & r & -> & Hm2 & K2 & Hr2). cbn [obind]. apply Hk; [done|].
  destruct r as [n|]; [|done]. destruct Hr1, Hr2. split_and!; [lia| |done]. by apply K2; [lia|lia|].
Qed.

Lemma fetch_word u v p : mem_ok u → is_u16 v → 0 ≤ p ≤ 4 → ∃ u', set16 u p v = Ret u' ∧ mem_ok u'.
Proof.
  intros. destruct (set16_mem u p v) as (u' & ? & ? & _); [done|done|lia|unfold MaximumRDSize; lia|by eauto].
Qed.

(** The five words of an SOA record. *)
Lemma soa_step p k u : mem_ok u → 0 ≤ p → p + 20 ≤ zlen msg → 0 ≤ k ≤ 16 →
  ∃ v u', rd32 msg (p + k) = Ret v ∧ set32 u (off_soa_serial + k) v = Ret u' ∧ mem_ok u' ∧ keeps 512 u u'.
Proof.
  intros Hm Hp Hl Hk. destruct (rd32_ok msg (p + k)) as (w & Hw & ?); [done|lia|lia|]. unfold off_soa_serial.
  destruct (set32_mem u (512 + k) w) as (u' & Hu' & ? & Hkp); [done|done|lia|unfold MaximumRDSize; lia|].
  exists w, u'. split_and!; try done. intros off ??. apply Hkp; lia.
Qed.
Lemma soa_words p u : mem_ok u → 0 ≤ p → p + 20 ≤ zlen msg → ∃ u',
  (let* serial := rd32 msg p in
   let* u := set32 u off_soa_serial serial in
   let* refresh := rd32 msg (p + 4) in
   let* u := set32 u (off_soa_serial + 4) refresh in
   let* retry := rd32 msg (p + 8) in
   let* u := set32 u (off_soa_serial + 8) retry in
   let* expire := rd32 msg (p + 12) in
   let* u := set32 u (off_soa_serial + 12) expire in
   let* min := rd32 msg (p + 16) in
   let* u := set32 u (off_soa_serial + 16) min in
   Ret (u, true)) = Ret (u', true) ∧ mem_ok u' ∧ keeps 512 u u'.
Proof.
  intros Hm Hp Hl. destruct (soa_step p 0 u) as (v0 & u0 & H0 & E0 & M0 & K0); [done..|]. rewrite Z.add_0_r in H0, E0.
  rewrite H0. cbn [obind]. rewrite E0. cbn [obind].
  destruct (soa_step p 4 u0) as (v1 & u1 & -> & E1 & M1 & K1); [done..|]. cbn [obind]. rewrite E1. cbn [obind].
  destruct (soa_step p 8 u1) as (v2 & u2 & -> & E2 & M2 & K2); [done..|]. cbn [obind]. rewrite E2. cbn [obind].
  destruct (soa_step p 12 u2) as (v3 & u3 & -> & E3 & M3 & K3); [done..|]. cbn [obind]. rewrite E3. cbn [obind].
  destruct (soa_step p 16 u3) as (v4 & u4 & -> & E4 & M4 & K4); [done..|]. cbn [obind]. rewrite E4. cbn [obind].
  exists u4. split_and!; [done..|]. unfold keeps in *. auto 10.
Qed.

(** Rdata of [len] bytes at [ptr], of any type. *)
Lemma get_rdata_ok t rdlength u : mem_ok u → 0 ≤ rdlength ≤ MaximumRDSize →
  ∃ u' rl ok, get_rdata one_second msg ptr len t rdlength MaximumRDSize u = Ret (u', rl, ok) ∧
    mem_ok u' ∧ 0 ≤ rl ≤ MaximumRDSize ∧ (ok = true → names_ok t u').
Proof.
  intros Hm Hrl. unfold get_rdata, names_ok.
  assert (∀ P r, fetched P r → ∃ u' rl ok, (let* '(u, ok) := r in Ret (u, rdlength, ok)) = Ret (u', rl, ok) ∧
    mem_ok u' ∧ 0 ≤ rl ≤ MaximumRDSize ∧ (ok = true → P u')) as Hkeep.
  { intros P r (u' & ok & -> & ? & ?). cbn [obind]. eauto 10. }
  assert (∃ u' rl ok, (let* '(u, ok) := get_raw msg ptr len MaximumRDSize u in Ret (u, if ok then len else rdlength, ok)) = Ret (u', rl, ok) ∧
    mem_ok u' ∧ 0 ≤ rl ≤ MaximumRDSize ∧ (ok = true → True)) as Hraw.
  { destruct (fetch_raw u len MaximumRDSize Hm) as (u' & ok & -> & ? & ?); [lia|]. cbn [obind].
    do 3 eexists. split; [done|]. split_and!; try done; destruct ok; lia. }
  destruct (kind_of_type t); try apply Hraw; try (apply (Hkeep _)).
  - destruct (Z.eqb_spec len 4); cbn [negb]; [apply fetch_raw; [done|lia]|by apply fetched_fail].
  - by apply fetch_name.
  - apply fetch_names; [done|done|done|]. intros u' [q|] Hm' Hq; [|by apply fetched_fail].
    destruct (Z.eqb_spec (q + 20) e); cbn [negb]; [|by apply fetched_fail].
    destruct (soa_words q u' Hm') as (u2 & -> & Hm2 & K2); [lia|lia|]. exists u2, true. split_and!; [done..|].
    destruct Hq as (_ & ? & ?). intros _. by split; apply K2.
  - destruct (len <? 3) eqn:H3; [by apply fetched_fail|].
    destruct (rd16_ok msg ptr) as (v & -> & Hv); [done|lia|lia|]. cbn [obind].
    destruct (fetch_word u v 0 Hm Hv) as (u1 & -> & Hm1); [lia|]. by apply fetch_name.
  - apply fetch_names; [done|done|done|]. intros u' r Hm' Hr. exists u', (ends_at r e). split_and!; [done..|].
    destruct r; [|done]. by intros _; destruct Hr as (_ & ? & ?).
  - destruct (len <? 4) eqn:H4; [by apply fetched_fail|].
    destruct (rd16_ok msg ptr) as (v & -> & Hv); [done|lia|lia|]. cbn [obind].
    destruct (fetch_word u v 0 Hm Hv) as (u0 & -> & Hm0); [lia|]. cbn [obind].
    apply fetch_names; [done|done|done|]. intros u' r Hm' Hr. exists u', (ends_at r e). split_and!; [done..|].
    destruct r; [|done]. by intros _; destruct Hr as (_ & ? & ?).
  - destruct (Z.eqb_spec len 16); cbn [negb]; [apply fetch_raw; [done|lia]|by apply fetched_fail].
  - destruct (len <? 7) eqn:H7; [by apply fetched_fail|].
    destruct (rd16_ok msg ptr) as (v & -> & Hv); [done|lia|lia|]. cbn [obind].
    destruct (fetch_word u v 0 Hm Hv) as (u1 & -> & Hm1); [lia|]. cbn [obind].
    destruct (rd16_ok msg (ptr + 2)) as (w & -> & Hw); [done|lia|lia|]. cbn [obind].
    destruct (fetch_word u1 w 2 Hm1 Hw) as (u2 & -> & Hm2); [lia|]. cbn [obind].
    destruct (copy_mem msg u2 2 (ptr + 4) 4) as (u3 & -> & Hm3 & _); [done|done|lia..|unfold MaximumRDSize; lia|]. cbn [obind].
    by apply fetch_name.
  - destruct (safe_elim _ _ (getOptRdata_loop_safe one_second msg e MaximumRDSize len Hone Hmsg ltac:(lia)
      (S (Z.to_nat len)) ptr u 0 0 Hm ltac:(lia) ltac:(lia) Hptr ltac:(lia) ltac:(lia))) as ([u' r] & Ho & ?).
    change (sizeof_rdataOPT * 0) with 0 in Ho. rewrite Ho. cbn [obind].
    do 3 eexists. split; [done|]. split_and!; try done; destruct r; lia.
Qed.
End RData.

(** ** Hash and length of what was fetched *)
Lemma hash_mem u off : mem_ok u → 0 ≤ off < MaximumRDSize → ∃ h, DomainNameHashValue (ptr_add u off) = Ret h.
Proof.
  intros (_ & Hl & Hz) Ho. assert (0 ∈ ptr_add u off) as H0.
  { destruct Hz as [_ Hz]. apply list_elem_of_lookup_2 with (Z.to_nat (MaximumRDSize - 1) - Z.to_nat off)%nat.
    unfold ptr_add. rewrite lookup_drop. by replace (Z.to_nat off + _)%nat with (Z.to_nat (MaximumRDSize - 1)) by lia. }
  destruct (DomainNameHashValue_loop_lower (ptr_add u off) (ptr_add u off) (length (ptr_add u off)) (ptr_add u off)
    (ptr_add u off) (S (length (ptr_add u off))) (S (length (ptr_add u off))) 0 0) as (h & Hh & _);
    try done; try lia; [apply holds_all..|]. by exists h.
Qed.

Lemma RDataHashValue_mem rr : mem_ok (rr_rdata rr) → 0 ≤ rr_rdlength rr ≤ MaximumRDSize → ∃ h, RDataHashValue rr = Ret h.
Proof.
  intros Hm Hl. pose proof Hm as (_ & Hz & _). unfold RDataHashValue.
  destruct (sum_pairs_safe (rr_rdata rr) (rr_rdlength rr) ltac:(lia) (S (Z.to_nat (rr_rdlength rr))) 0 0) as [hs Hs]; [lia|lia|].
  pose proof (hash_mem (rr_rdata rr)) as Hh. unfold MaximumRDSize in Hz, Hh.
  destruct (kind_of_type _); try (by exists hs); try (by apply Hh).
  - assert (∀ k, 0 ≤ k ≤ 16 → ∃ v, get32 (rr_rdata rr) (off_soa_serial + k) = Ret v) as Hg.
    { intros k Hk. apply get32_ok; unfold off_soa_serial; lia. }
    destruct (Hg 0 ltac:(lia)) as [v0 Hv0]. rewrite Z.add_0_r in Hv0. rewrite Hv0. cbn [obind].
    destruct (Hg 4 ltac:(lia)) as [v1 ->]. cbn [obind]. destruct (Hg 8 ltac:(lia)) as [v2 ->]. cbn [obind].
    destruct (Hg 12 ltac:(lia)) as [v3 ->]. cbn [obind]. destruct (Hg 16 ltac:(lia)) as [v4 ->]. cbn [obind].
    destruct (Hh off_soa_mname Hm) as [h1 ->]; [done|]. destruct (Hh off_soa_rname Hm) as [h2 ->]; [done|]. cbn [obind]. by eauto.
  - destruct (Hh 0 Hm) as [h1 ->]; [done|]. destruct (Hh off_rp_txt Hm) as [h2 ->]; [done|]. cbn [obind]. by eauto.
  - destruct (Hh off_px_map822 Hm) as [h1 ->]; [done|]. destruct (Hh off_px_mapx400 Hm) as [h2 ->]; [done|]. cbn [obind]. by eauto.
Qed.

Lemma GetRDLength_mem rr estimate ls : mem_ok (rr_rdata rr) → 0 ≤ rr_rdlength rr ≤ MaximumRDSize →
  name_ok ls → is_name (rr_name rr) ls → (rr_rrclass rr ≠ kDNSQClass_ANY → names_ok (rr_rrtype rr) (rr_rdata rr)) →
  ∃ n, GetRDLength rr estimate = Ret n ∧ 0 ≤ n ≤ MaximumRDSize.
Proof.
  intros Hm Hl Hok Hn Hnames. unfold GetRDLength. destruct (Z.eqb_spec (rr_rrclass rr) kDNSQClass_ANY) as [|Hany]; [by eauto|].
  specialize (Hnames Hany). unfold names_ok in Hnames. pose proof Hm as (Hb & Hz & _). unfold MaximumRDSize in *.
  destruct (rr_rrtype rr =? kDNSType_HINFO).
  { destruct (aget_ok (rr_rdata rr) 0) as (a & -> & Ha); [lia|]. cbn [obind]. pose proof (bytes_ok_at _ _ _ Hb Ha).
    destruct (aget_ok (rr_rdata rr) (1 + a)) as (b & -> & Hb'); [lia|]. cbn [obind]. pose proof (bytes_ok_at _ _ _ Hb Hb').
    eexists. split; [done|]. unfold u16. rewrite Z.mod_small; lia. }
  assert (∀ off, legal_at (rr_rdata rr) off → ∃ n, 1 ≤ n ≤ 256 ∧
    CompressedDomainNameLength (ptr_add (rr_rdata rr) off) (if estimate then Some (rr_name rr) else None) = Ret n) as Hc.
  { intros off (l & Hlok & Hln). exists (compressed_length l (if estimate then ls else [])). split.
    - pose proof (compressed_length_bound l (if estimate then ls else [])). destruct Hlok as [_ Hle]. unfold MAX_DOMAIN_NAME in Hle. lia.
    - apply CompressedDomainNameLength_spec; [done|done|destruct estimate; [apply Hok|done]|by destruct estimate]. }
  unfold u16. destruct (kind_of_type _); try (by eauto); try (eexists; split; [done|lia]).
  - destruct (Hc _ Hnames) as (n & ? & ->). exists n. split; [done|lia].
  - destruct Hnames as [H1 H2]. destruct (Hc _ H1) as (n & ? & ->). cbn [obind]. destruct (Hc _ H2) as (k & ? & ->). cbn [obind].
    eexists. split; [done|]. rewrite Z.mod_small; lia.
  - destruct (Hc _ Hnames) as (n & ? & ->). cbn [obind]. eexists. split; [done|]. rewrite Z.mod_small; lia.
  - destruct Hnames as [H1 H2]. destruct (Hc _ H1) as (n & ? & ->). cbn [obind]. destruct (Hc _ H2) as (k & ? & ->). cbn [obind].
    eexists. split; [done|]. rewrite Z.mod_small; lia.
  - destruct Hnames as [H1 H2]. destruct (Hc _ H1) as (n & ? & ->). cbn [obind]. destruct (Hc _ H2) as (k & ? & ->). cbn [obind].
    eexists. split; [done|]. rewrite Z.mod_small; lia.
  - destruct (Hc _ Hnames) as (n & ? & ->). cbn [obind]. eexists. split; [done|]. rewrite Z.mod_small; lia.
Qed.

Lemma SetNewRData_mem rr ls : mem_ok (rr_rdata rr) → 0 ≤ rr_rdlength rr ≤ MaximumRDSize →
  name_ok ls → is_name (rr_name rr) ls → (rr_rrclass rr ≠ kDNSQClass_ANY → names_ok (rr_rrtype rr) (rr_rdata rr)) →
  ∃ len est h, SetNewRData rr None 0 = Ret (rr <| rr_rdlength := len |> <| rr_rdestimate := est |> <| rr_rdatahash := h |>) ∧
    0 ≤ len ≤ MaximumRDSize ∧ GetRDLength rr false = Ret len.
Proof.
  intros Hm Hl Hok Hn Hnames. unfold SetNewRData.
  destruct (GetRDLength_mem rr false ls Hm Hl Hok Hn Hnames) as (len & Hg & Hlen). rewrite Hg. cbn [obind].
  destruct (GetRDLength_mem (rr <| rr_rdlength := len |>) true ls) as (est & -> & _); [done..|]. cbn [obind].
  assert (∃ h, match GetRRDomainNameTarget rr with
    | Some t => DomainNameHashValue t
    | None => RDataHashValue (rr <| rr_rdlength := len |> <| rr_rdestimate := est |>) end = Ret h) as [h ->].
  { unfold GetRRDomainNameTarget. destruct (kind_of_type _); try (by apply RDataHashValue_mem);
      try (by apply hash_mem). by apply (hash_mem (rr_rdata rr) 0). }
  cbn [obind]. exists len, est, h. done.
Qed.

(** The length that was computed is computed again. *)
Lemma GetRDLength_again rr rr' n : GetRDLength rr false = Ret n → rr_rrclass rr' = rr_rrclass rr → rr_rrtype rr' = rr_rrtype rr → rr_rdata rr' = rr_rdata rr →
  rr_rdlength rr' = n → GetRDLength rr' false = Ret n.
Proof.
  unfold GetRDLength. intros Hn -> -> -> ->. destruct (_ =? kDNSQClass_ANY); [done|]. destruct (_ =? kDNSType_HINFO); [done|]. by destruct (kind_of_type _).
Qed.

(** ** The record *)

(** The caller's record between calls. *)
Definition rec_ok (rr : ResourceRecord) : Prop :=
  256 ≤ zlen (rr_name rr) ∧ mem_ok (rr_rdata rr) ∧ 0 ≤ rr_rdlength rr ≤ MaximumRDSize.

(** The packet has a record with the name [ls] and the class [class] at [p],
    which ends at [next]. *)
Definition record_frame (msg : list Z) (p e : Z) (ls : list label) (class next : Z) : Prop :=
  ∃ n c len, decodes msg e p ls n ∧ rd16 msg (n + 2) = Ret c ∧ class = Z.land c kDNSClass_Mask ∧ rd16 msg (n + 8) = Ret len ∧ next = n + 10 + len.

(** What is known of a record that was accepted. *)
Definition got_record (msg : list Z) (p e : Z) (rr : ResourceRecord) (next : Z) : Prop :=
  p < next ≤ e ∧
  (∃ ls, record_frame msg p e ls (rr_rrclass rr) next ∧ name_ok ls ∧ is_name (rr_name rr) ls) ∧
  DomainNameHashValue (rr_name rr) = Ret (rr_namehash rr) ∧
  0 ≤ rr_rrclass rr ≤ kDNSClass_Mask ∧
  (rdata_ok rr (rr_rdata rr) ∨ rr_rrclass rr = kDNSQClass_ANY ∧ rr_rdlength rr = 0) ∧
  GetRDLength rr false = Ret (rr_rdlength rr).

Lemma names_ok_rdata_ok rr : mem_ok (rr_rdata rr) → 0 ≤ rr_rdlength rr ≤ MaximumRDSize →
  names_ok (rr_rrtype rr) (rr_rdata rr) → rdata_ok rr (rr_rdata rr).
Proof.
  intros (_ & Hz & _) Hl. unfold names_ok, rdata_ok, MaximumRDSize in *.
  destruct (kind_of_type _); try done; intros; try lia; unfold off_soa_serial; destruct_and?; split_and?; (done || lia).
Qed.

Section Record.
Context (one_second : Z) (msg : list Z) (e : Z).
Hypothesis Hone : 0 < one_second.
Hypothesis Hmsg : bytes_ok msg.
Hypothesis He : e ≤ MaximumRDSize.
Hypothesis Hbuf : e + 22 ≤ zlen msg.

(** The end of the call: the hashes and lengths of the record. *)
Lemma finish_record rr (q len : Z) RecordType u rl ok p ls : rec_ok rr → mem_ok u → 0 ≤ rl ≤ MaximumRDSize →
  name_ok ls → is_name (rr_name rr) ls → record_frame msg p e ls (rr_rrclass rr) (q + len) → p < q + len ≤ e → 0 ≤ rr_rrclass rr ≤ kDNSClass_Mask →
  (ok = true → names_ok (rr_rrtype rr) u ∨ rr_rrclass rr = kDNSQClass_ANY ∧ rl = 0) →
  safe (let rr := rr <| rr_rdata := u |> <| rr_rdlength := rl |> in
        if negb ok then Ret (rr, None) else
        let* hash := DomainNameHashValue (rr_name rr) in
        let rr := rr <| rr_namehash := hash |> in
        let* rr := SetNewRData rr None 0 in
        Ret (rr <| rr_RecordType := RecordType |>, Some (q + len)))
    (fun '(rr', r) => rec_ok rr' ∧ match r with Some next => got_record msg p e rr' next | None => True end).
Proof.
  intros (Hname & Hm & Hl) Hu Hrl Hok Hn Hd Hq Hcl Hnames. cbv zeta. destruct ok; cbn [negb]; [|done].
  specialize (Hnames eq_refl). struct_simpl.
  destruct (DomainNameHashValue_spec _ _ ls ls (proj1 Hok) (proj1 Hok) Hn Hn ltac:(reflexivity)) as (h & Hh & _).
  rewrite Hh. cbn [obind].
  destruct (SetNewRData_mem (rr <| rr_rdata := u |> <| rr_rdlength := rl |> <| rr_namehash := h |>) ls)
    as (len' & est & hd & -> & Hlen & Hg); struct_simpl; [done|done|done|done|intros ?; by destruct Hnames as [|[? _]]|].
  cbn [obind]. split; [done|]. split; [lia|]. struct_simpl. split; [by exists ls|].
  split; [done|]. split; [done|]. split; [|by apply (GetRDLength_again _ _ _ Hg)]. destruct Hnames as [Hnames|[Hany ->]].
  - left. by apply names_ok_rdata_ok.
  - right. split; [done|]. unfold GetRDLength in Hg. struct_simpl in Hg. rewrite Hany in Hg. by injection Hg.
Qed.

Lemma GetLargeResourceRecord_spec p InterfaceID RecordType rr : rec_ok rr →
  safe (GetLargeResourceRecord one_second msg p e InterfaceID RecordType rr)
    (fun '(rr', r) => rec_ok rr' ∧ match r with Some next => got_record msg p e rr' next | None => True end).
Proof.
  intros (Hname & Hm & Hl). unfold GetLargeResourceRecord. struct_simpl.
  destruct (safe_elim _ _ (getDomainName_spec msg p e (rr_name rr) Hmsg ltac:(lia) Hname)) as ([name r] & -> & [Hz _] & _ & Hr).
  simpl in Hz, Hr. cbn [obind]. destruct r as [q|]; [|split; [|done]; split; struct_simpl; [lia|done]].
  destruct Hr as (ls & Hd & Hok & Hn). pose proof (decodes_range _ _ _ _ _ Hd). pose proof (decodes_next _ _ _ _ _ Hd).
  destruct (Z.ltb_spec e (q + 10)); [split; [|done]; split; struct_simpl; [lia|done]|].
  destruct (rd16_ok msg q) as (t & -> & Ht); [done|lia|lia|]. cbn [obind].
  destruct (rd16_ok msg (q + 2)) as (cl & Ecl & Hcl); [done|lia|lia|]. rewrite Ecl. cbn [obind].
  destruct (rd32_ok msg (q + 4)) as (ttl & -> & _); [done|lia|lia|]. cbn [obind].
  destruct (max_ttl_ok one_second Hone) as [-> _]. cbn [obind].
  destruct (rd16_ok msg (q + 8)) as (len & Elen & Hlen); [done|lia|lia|]. rewrite Elen. cbn [obind].
  destruct (aget_ok msg (q + 2)) as (b2 & -> & _); [lia|]. cbn [obind].
  destruct (aget_ok msg 2) as (fl & -> & _); [lia|]. cbn [obind].
  assert (0 ≤ Z.land cl kDNSClass_Mask ≤ kDNSClass_Mask) as Hmask.
  { unfold kDNSClass_Mask. change 0x7FFF with (Z.ones 15). rewrite Z.land_ones by lia. change (Z.ones 15) with 32767.
    pose proof (Z.mod_pos_bound cl (2 ^ 15)). lia. }
  destruct (Z.ltb_spec e (q + 10 + len)); [split; [|done]; split; struct_simpl; [lia|done]|].
  struct_simpl. destruct (_ && _) eqn:Hany.
  - cbn [obind]. apply (finish_record _ (q + 10) len _ (rr_rdata rr) 0 true p ls); struct_simpl; try done; try lia.
    + split; struct_simpl; [lia|done].
    + by exists q, cl, len.
  - destruct (get_rdata_ok one_second msg (q + 10) len Hone Hmsg ltac:(lia) ltac:(lia) ltac:(lia) t (rr_rdlength rr) (rr_rdata rr) Hm Hl)
      as (u & rl & ok & -> & Hu & Hrl & Hnames). cbn [obind].
    apply (finish_record _ (q + 10) len _ u rl ok p ls); struct_simpl; try done; try lia.
    + split; struct_simpl; [lia|done].
    + by exists q, cl, len.
    + intros Ho. left. by apply Hnames.
Qed.
End Record.

(** ** Finding the sections *)
Section Locate.
Context (msg : list Z) (e : Z).
Hypothesis Hmsg : bytes_ok msg.
Hypothesis Hbuf : e + 22 ≤ zlen msg.

Lemma skipQuestion_total p : safe (skipQuestion msg p e) (fun r => match r with Some n => p < n ≤ e | None => True end).
Proof.
  unfold skipQuestion. apply wp_bind. eapply wp_mono; [apply skipDomainName_total; [done|lia]|intros [n|] Hn|done]; [|done].
  destruct (Z.ltb_spec e (n + 4)); [done|simpl; lia].
Qed.

Lemma skipResourceRecord_total p :
  safe (skipResourceRecord msg (Some p) e) (fun r => match r with Some n => p < n ≤ e | None => True end).
Proof.
  unfold skipResourceRecord. apply wp_bind. eapply wp_mono; [apply skipDomainName_total; [done|lia]|intros [n|] Hn|done]; [|done].
  destruct (Z.ltb_spec e (n + 10)); [done|]. destruct (rd16_ok msg (n + 8)) as (len & -> & Hl); [done|lia|lia|]. cbn [obind].
  destruct (Z.ltb_spec e (n + 10 + len)); [done|simpl; lia].
Qed.

(** A section ends where it starts, if it is empty, or inside the packet. *)
Definition section_end (p : Z) (r : option Z) : Prop :=
  match r with Some n => n = p ∨ p < n ≤ e | None => True end.
Lemma section_end_trans p n r : section_end p (Some n) → section_end n r → section_end p r.
Proof. destruct r; simpl; [lia|done]. Qed.

Lemma skip_questions_total n : ∀ p, safe (skip_questions n msg (Some p) e) (section_end p).
Proof.
  induction n as [|n IH]; intros p; simpl; [by left|]. apply wp_bind.
  eapply wp_mono; [apply skipQuestion_total|intros [m|] Hm|done]; [|by destruct n].
  eapply wp_mono; [apply IH|intros r; apply section_end_trans; by right|done].
Qed.
Lemma skip_records_total n : ∀ p, safe (skip_records n msg (Some p) e) (section_end p).
Proof.
  induction n as [|n IH]; intros p; simpl; [by left|]. apply wp_bind.
  eapply wp_mono; [apply skipResourceRecord_total|intros [m|] Hm|done]; [|by destruct n].
  eapply wp_mono; [apply IH|intros r; apply section_end_trans; by right|done].
Qed.
Lemma skip_records_section n p r : section_end p r → safe (skip_records n msg r e) (section_end p).
Proof.
  intros Hr. destruct r as [m|]; [|by destruct n]. eapply wp_mono; [apply skip_records_total|intros r; by apply section_end_trans|done].
Qed.

Hypothesis Hhdr : 12 ≤ zlen msg.

Lemma LocateAnswers_total : safe (LocateAnswers msg e) (section_end off_data).
Proof.
  unfold LocateAnswers. destruct (get16_ok msg off_numQuestions) as (n & ->); [done|unfold off_numQuestions; lia|].
  apply skip_questions_total.
Qed.
Lemma LocateAuthorities_total : safe (LocateAuthorities msg e) (section_end off_data).
Proof.
  unfold LocateAuthorities. apply wp_bind. eapply wp_mono; [apply LocateAnswers_total|intros r Hr|done].
  destruct (get16_ok msg off_numAnswers) as (n & ->); [done|unfold off_numAnswers; lia|]. by apply skip_records_section.
Qed.
Lemma LocateAdditionals_total : safe (LocateAdditionals msg e) (section_end off_data).
Proof.
  unfold LocateAdditionals. apply wp_bind. eapply wp_mono; [apply LocateAuthorities_total|intros r Hr|done].
  destruct (get16_ok msg off_numAuthorities) as (n & ->); [done|unfold off_numAuthorities; lia|]. by apply skip_records_section.
Qed.

(** An OPT record with enough rdata stands at [p]. *)
Definition opt_at (rdlen : Z) (r : option Z) : Prop :=
  match r with Some p => 12 ≤ p ∧ p + 10 + rdlen ≤ e ∧ holds msg p [0; 0; kDNSType_OPT] | None => True end.

Lemma opt_record_at_total p rdlen : 0 ≤ p → 0 < rdlen →
  safe (opt_record_at msg p e rdlen) (fun b => b = true → p + 10 + rdlen ≤ e ∧ holds msg p [0; 0; kDNSType_OPT]).
Proof.
  intros Hp Hr. unfold opt_record_at. destruct (Z.leb_spec (p + 10 + rdlen) e); cbn [negb]; [|done].
  destruct (aget_ok msg p) as (b0 & -> & H0); [lia|]. cbn [obind]. destruct (Z.eqb_spec b0 0) as [->|]; cbn [negb]; [|done].
  destruct (aget_ok msg (p + 1)) as (b1 & -> & H1); [lia|]. cbn [obind]. destruct (Z.eqb_spec b1 0) as [->|]; cbn [negb]; [|done].
  destruct (aget_ok msg (p + 2)) as (b2 & -> & H2); [lia|]. cbn [obind]. destruct (Z.eqb_spec b2 kDNSType_OPT) as [->|]; cbn [negb]; [|done].
  destruct (rd16_ok msg (p + 9)) as (len & -> & _); [done|lia|lia|]. cbn [obind]. intros _. split; [done|].
  apply holds_cons. split; [done|]. apply holds_cons. split; [done|]. replace (p + 1 + 1) with (p + 2) by lia.
  apply holds_cons. split; [done|]. apply holds_nil. lia.
Qed.

Lemma locate_opt_total rdlen n : 0 < rdlen → ∀ r, section_end off_data r → safe (locate_opt n msg r e rdlen) (opt_at rdlen).
Proof.
  intros Hr. induction n as [|n IH]; intros [p|] Hs; simpl; try done. unfold off_data, section_end in Hs. apply wp_bind.
  eapply wp_mono; [apply opt_record_at_total; [lia|done]|intros [] Hb|done].
  - destruct (Hb eq_refl). split; [lia|done].
  - apply wp_bind. eapply wp_mono; [apply skipResourceRecord_total|intros r Hn|done]. apply IH. unfold section_end, off_data.
    destruct r; [lia|done].
Qed.

Lemma LocateLeaseOptData_total : safe (LocateLeaseOptData msg e) (opt_at LEASE_OPT_RDLEN).
Proof.
  unfold LocateLeaseOptData. apply wp_bind. eapply wp_mono; [apply LocateAdditionals_total|intros r Hr|done].
  destruct (get16_ok msg off_numAdditionals) as (n & ->); [done|unfold off_numAdditionals; lia|]. by apply locate_opt_total.
Qed.
Lemma LocateLLQOptData_total : safe (LocateLLQOptData msg e) (opt_at LLQ_OPT_RDLEN).
Proof.
  unfold LocateLLQOptData. apply wp_bind. eapply wp_mono; [apply LocateAdditionals_total|intros r Hr|done].
  destruct (get16_ok msg off_numAdditionals) as (n & ->); [done|unfold off_numAdditionals; lia|]. by apply locate_opt_total.
Qed.

Context (one_second : Z).
Hypothesis Hone : 0 < one_second.
Hypothesis He : e ≤ MaximumRDSize.

Lemma GetPktLease_total rec : rec_ok rec →
  safe (GetPktLease one_second rec msg e) (fun '(rec', _) => rec_ok rec' ∧ rr_RecordType rec' = 0).
Proof.
  intros Hrec. unfold GetPktLease. apply wp_bind. eapply wp_mono; [apply LocateLeaseOptData_total|intros r Hr|done].
  assert (safe (match r with
    | Some p => GetLargeResourceRecord one_second msg p e 0 kDNSRecordTypePacketAdd rec
    | None => Ret (rec, None) end) (fun '(rec', _) => rec_ok rec')) as Hget.
  { destruct r as [p|]; [|done]. eapply wp_mono; [by apply GetLargeResourceRecord_spec|by intros [? ?] [? _]|done]. }
  apply wp_bind. eapply wp_mono; [exact Hget|intros [rec' next] Hrec'|done].
  pose proof Hrec' as (? & (_ & Hz & _) & ?). unfold MaximumRDSize in Hz.
  destruct next; [|done]. destruct (negb _); [done|].
  destruct (get16_ok (rr_rdata rec') 0) as (opt & ->); [lia|lia|]. cbn [obind]. destruct (opt =? kDNSOpt_Lease); [|done].
  destruct (get32_ok (rr_rdata rec') 4) as (v & ->); [lia|lia|]. done.
Qed.

Lemma GetLLQOptData_total rec : rec_ok rec → safe (GetLLQOptData one_second rec msg e) (fun '(rec', _) => rec_ok rec').
Proof.
  intros Hrec. unfold GetLLQOptData. apply wp_bind. eapply wp_mono; [apply LocateLLQOptData_total|intros [p|] Hr|done]; [|done].
  apply wp_bind. eapply wp_mono; [by apply GetLargeResourceRecord_spec|intros [rec' n] [? _]; by destruct n|done].
Qed.
End Locate.

(** ** Properties *)

(** C4. Reading a record is safe on every packet: whatever the bytes of a
    packet of at most 8192 bytes, [GetLargeResourceRecord] returns without an
    access outside the packet's buffer, the name and the rdata storage, and
    keeps the invariant of the storage for the next call; a record it accepts
    ends inside the packet, has the legal name the packet holds with its
    hash, and legal names wherever its type has names in the rdata (or is an
    empty record of class ANY). *)
Theorem record_reading_safe one_second msg p e InterfaceID RecordType rr : 0 < one_second → bytes_ok msg →
  e ≤ MaximumRDSize → e + 22 ≤ zlen msg → rec_ok rr →
  safe (GetLargeResourceRecord one_second msg p e InterfaceID RecordType rr)
    (fun '(rr', r) => rec_ok rr' ∧ match r with Some next => got_record msg p e rr' next | None => True end).
Proof. intros. by apply GetLargeResourceRecord_spec. Qed.

(** The record of a daemon that has just started. *)
Definition empty_record : ResourceRecord :=
  mkResourceRecord 0 0 (replicate 256 0) 0 0 0 0 0 0 0 0 (replicate 8192 0).
Lemma empty_record_ok : rec_ok empty_record.
Proof. split; [done|]. split; [|done]. split; [by apply bytes_okb_ok; vm_compute|]. split; [by vm_compute|]. split; [done|by vm_compute]. Qed.

(** A PTR record of 21 bytes whose rdata points back to its owner. *)
Definition example_packet : list Z :=
  [0; 0; 132; 0; 0; 0; 1; 0; 0; 0; 0; 0; 1; 97; 0; 0; 12; 0; 1; 0; 0; 0; 120; 0; 2; 192; 12] ++ replicate 22 0.

Lemma record_reading_safe_witness :
  safe (GetLargeResourceRecord 1000 example_packet 12 27 1 128 empty_record)
    (fun '(rr', r) => rec_ok rr' ∧ match r with Some next => got_record example_packet 12 27 rr' next | None => True end).
Proof.
  apply record_reading_safe; [lia|by apply bytes_okb_ok|done|done|exact empty_record_ok].
Defined.

(** Looking for the lease of an update terminates safely on every packet:
    [GetPktLease] walks over the questions and records the header announces,
    however many, with [skipQuestion] and [skipResourceRecord], reads the OPT
    record it finds, and leaves the caller's record free and well formed. *)
Theorem lease_reading_safe one_second msg e rec : 0 < one_second → bytes_ok msg → e ≤ MaximumRDSize → e + 22 ≤ zlen msg →
  12 ≤ zlen msg → rec_ok rec →
  safe (GetPktLease one_second rec msg e) (fun '(rec', _) => rec_ok rec' ∧ rr_RecordType rec' = kDNSRecordTypeUnregistered) ∧
  safe (GetLLQOptData one_second rec msg e) (fun '(rec', _) => rec_ok rec') ∧
  safe (LocateAdditionals msg e) (section_end e off_data).
Proof.
  intros. split; [by apply GetPktLease_total|]. split; [by apply GetLLQOptData_total|by apply LocateAdditionals_total].
Qed.
Lemma lease_reading_safe_witness :
  safe (GetPktLease 1000 empty_record example_packet 27) (fun '(rec', _) => rec_ok rec' ∧ rr_RecordType rec' = kDNSRecordTypeUnregistered).
Proof.
  destruct (lease_reading_safe 1000 example_packet 27 empty_record) as [H _];
    [lia|by apply bytes_okb_ok|done|done|done|exact empty_record_ok|]. exact H.
Defined.
