(* ===== verification/DNSMessageSpec.v ===== *)
(** What is written into a message is what is read from it.

    Questions: a query that is built with [InitializeDNSMessage] and
    [putQuestion], its names compressed against each other, is read back by
    [getQuestion] question by question, and [LocateAnswers] finds its end.
    Records: a record with plain rdata (addresses, text, ...) that
    [PutResourceRecord] appends is read back by [GetLargeResourceRecord].

    Names are compressed against every byte of the message before them, also
    the header, whose counts change later; [header_clear] and [ends_flush] of
    [DNSWirePut] say when this is harmless.  For messages with the id 0 of
    Multicast DNS and names of printable characters it always is. *)
From S2P Require Import Prelude Bytes DNSTypes DNSName DNSWireGet DNSWirePut DNSRecord DNSRecordSpec DNSMessage DNSMessageGet.

(** ** Words *)
Lemma rd16_be buf p v : is_u16 v → holds buf p (be16 v) → rd16 buf p = Ret v.
Proof.
  intros Hv [Ha [Hb _]%holds_cons]%holds_cons. unfold rd16.
  rewrite (proj2 (aget_at _ _ _) Ha), (proj2 (aget_at _ _ _) Hb). cbn [obind].
  rewrite join16 by (Z.div_mod_to_equations; lia). f_equal. Z.div_mod_to_equations; lia.
Qed.
Lemma rd32_be buf p v : is_u32 v → holds buf p (be32 v) → rd32 buf p = Ret v.
Proof.
  intros Hv H. unfold rd32. apply holds_cons in H as [Ha H]. apply holds_cons in H as [Hb H].
  apply holds_cons in H as [Hc H]. apply holds_cons in H as [Hd _].
  replace (p + 1 + 1 + 1) with (p + 3) in Hd by lia. replace (p + 1 + 1) with (p + 2) in Hc by lia.
  rewrite (proj2 (aget_at _ _ _) Ha), (proj2 (aget_at _ _ _) Hb), (proj2 (aget_at _ _ _) Hc), (proj2 (aget_at _ _ _) Hd).
  cbn [obind]. rewrite join32 by (Z.div_mod_to_equations; lia). f_equal. Z.div_mod_to_equations; lia.
Qed.

Lemma put_words {B} buf p v w (k : list Z → outcome B) : is_u16 v → is_u16 w → 0 ≤ p → p + 4 ≤ zlen buf →
  (let* '(buf, _) := putVal16 buf p v in let* '(buf, _) := putVal16 buf (p + 2) w in k buf) = k (write buf p (be16 v ++ be16 w)).
Proof.
  intros Hv Hw Hp Hl. change (p + 2) with (p + zlen (be16 v)). assert (∀ x, zlen (be16 x) = 2) as H2 by done.
  rewrite putVal16_spec by (done || lia). cbn [obind].
  rewrite putVal16_spec by (done || rewrite ?zlen_write; rewrite ?H2; lia). cbn [obind].
  by rewrite write_app by (rewrite ?H2; lia).
Qed.

Abbreviation name_at12 := (name_at 12).
Abbreviation agree12 := (agree 12).

(** A change of the header is no change of what follows it. *)
Lemma agree12_header buf off bs e : 0 ≤ off → off + zlen bs ≤ 12 → 12 ≤ zlen buf → agree12 buf (write buf off bs) e.
Proof. intros ??? i x Hi Hx. apply write_at_other; [lia|lia|lia|done]. Qed.

(** ** Questions *)
Record question := mkQuestion { qu_labels : list label; qu_name : list Z; qu_type : Z; qu_class : Z }.

Definition printable (l : label) : Prop := Forall (fun b => 32 ≤ b) l.
Definition question_ok (q : question) : Prop :=
  name_ok (qu_labels q) ∧ Forall printable (qu_labels q) ∧ is_name (qu_name q) (qu_labels q) ∧
  is_u16 (qu_type q) ∧ is_u16 (qu_class q) ∧ qu_class q mod 256 < 32.
Definition question_size (q : question) : Z := zlen (encode (qu_labels q)) + 4.

(** The bytes from [p] to [next] are the question [q]. *)
Definition question_at (buf : list Z) (p : Z) (q : question) (next : Z) : Prop :=
  name_at12 buf p (qu_labels q) (next - 4) ∧ 12 ≤ next - 4 ∧ holds buf (next - 4) (be16 (qu_type q) ++ be16 (qu_class q)).

Lemma question_at_agree buf buf' p q next e : question_at buf p q next → zlen buf' = zlen buf →
  agree12 buf buf' e → next ≤ e → question_at buf' p q next.
Proof.
  intros (Hn & Hp & Hh) Hz Ha He. split; [|split; [done|]].
  - apply (name_at_agree 12 buf); [done|done|]. apply (agree_le _ _ _ _ _ Ha). lia.
  - apply (agree_holds 12 buf buf' e); [done|done|done|change (zlen (be16 (qu_type q) ++ be16 (qu_class q))) with 4; lia|done].
Qed.

Lemma skipQuestion_at buf p q next e : bytes_ok buf → question_ok q → question_at buf p q next → next ≤ e →
  skipQuestion buf p e = Ret (Some next).
Proof.
  intros Hb ((_ & Hlen) & _) (Hn & _ & _) He. unfold MAX_DOMAIN_NAME in Hlen. unfold skipQuestion.
  rewrite (skipDomainName_decodes buf p e (qu_labels q) (next - 4)); [|done| |done].
  - cbn [obind]. rewrite (proj2 (Z.ltb_ge _ _)) by lia. do 2 f_equal. lia.
  - apply Hn; [done|apply agree_refl|lia].
Qed.

(** The question read is the question put. *)
Definition reads_as (InterfaceID : Z) (q : question) (d : DNSQuestion) : Prop :=
  q_InterfaceID d = InterfaceID ∧ q_TargetQID d = 0 ∧ is_name (q_qname d) (qu_labels q) ∧
  DomainNameHashValue (q_qname d) = Ret (q_qnamehash d) ∧ q_qtype d = qu_type q ∧ q_qclass d = qu_class q.

Lemma getQuestion_at buf p q next e iid : bytes_ok buf → question_ok q → question_at buf p q next → next ≤ e → e < zlen buf →
  ∃ d, getQuestion buf p e iid = Ret (d, Some next) ∧ reads_as iid q d.
Proof.
  intros Hb ([Hok Hlen] & _ & _ & Ht & Hc & _) (Hn & _ & Hh) He Hz. unfold getQuestion. cbn [q_qname].
  assert (decodes buf e p (qu_labels q) (next - 4)) as Hd by (apply Hn; [done|apply agree_refl|lia]).
  unfold MAX_DOMAIN_NAME in Hlen.
  destruct (getDomainName_decodes buf p e (replicate 256 0) (qu_labels q) (next - 4)) as (name & -> & Hname & _); try done.
  cbn [obind]. rewrite (proj2 (Z.ltb_ge _ _)) by lia.
  destruct (DomainNameHashValue_spec name name (qu_labels q) (qu_labels q)) as (h & Hh1 & _); [done..|]. rewrite Hh1. cbn [obind].
  apply holds_app in Hh as [H1 H2]. change (zlen (be16 (qu_type q))) with 2 in H2.
  rewrite (rd16_be _ _ _ Ht H1). cbn [obind]. rewrite (rd16_be _ _ _ Hc H2). cbn [obind].
  eexists. split; [do 3 f_equal; lia|]. done.
Qed.

(** ** Building a query *)

(** The header of a query with the id 0, the flag bytes [f] and 0, and [k] questions. *)
Definition query_header (f k : Z) : list Z := [0; 0; f; 0; k; 0; 0; 0; 0; 0; 0; 0].

Lemma InitializeDNSMessage_header buf f : 12 ≤ zlen buf →
  InitializeDNSMessage buf (0, 0) (f, 0) = Ret (write buf 0 (query_header f 0)).
Proof.
  intros Hl. unfold InitializeDNSMessage, set16, off_numQuestions, off_numAnswers, off_numAuthorities, off_numAdditionals.
  rewrite aset_write by lia. cbn [obind fst snd].
  do 10 (rewrite aset_app by (done || lia); cbn [obind app]). by rewrite aset_app by (done || lia).
Qed.

Lemma incr_questions buf f k : holds buf 0 (query_header f k) → 0 ≤ k < 255 →
  ∃ buf', incr16 buf off_numQuestions = Ret buf' ∧ buf' = write buf 4 [k + 1; 0] ∧ holds buf' 0 (query_header f (k + 1)).
Proof.
  intros Hh Hk. pose proof (holds_range _ _ _ Hh) as [_ Hr]. change (zlen (query_header f k)) with 12 in Hr.
  pose proof Hh as Hh'. change (query_header f k) with ([0; 0; f; 0] ++ [k; 0] ++ [0; 0; 0; 0; 0; 0]) in Hh'.
  apply holds_app in Hh' as [H1 H2]. apply holds_app in H2 as [H2 H3].
  change (0 + zlen [0; 0; f; 0]) with 4 in H2, H3. change (4 + zlen [k; 0]) with 6 in H3.
  pose proof H2 as [Ha [Hb _]%holds_cons]%holds_cons.
  unfold incr16, get16, off_numQuestions. rewrite (proj2 (aget_at _ _ _) Ha), (proj2 (aget_at _ _ _) Hb). cbn [obind].
  rewrite set16_write by lia. unfold u16. rewrite (Z.mod_small _ 65536) by lia.
  replace ((k + 256 * 0 + 1) mod 256) with (k + 1) by (rewrite Z.mod_small; lia).
  replace ((k + 256 * 0 + 1) / 256) with 0 by (rewrite Z.div_small; lia).
  eexists. split; [done|]. split; [done|].
  change (query_header f (k + 1)) with ([0; 0; f; 0] ++ [k + 1; 0] ++ [0; 0; 0; 0; 0; 0]).
  apply holds_app. change (0 + zlen [0; 0; f; 0]) with 4. split; [apply holds_write_other; [lia|change (zlen [k + 1; 0]) with 2; lia|by left|done]|].
  apply holds_app. split; [apply write_holds; [lia|change (zlen [k + 1; 0]) with 2; lia]|].
  apply holds_write_other; [lia|change (zlen [k + 1; 0]) with 2; lia|by right|done].
Qed.

(** No printable label stands in such a header, and none ends before [p] if
    the byte there is not printable. *)
Lemma query_header_clear buf f k ls : holds buf 0 (query_header f k) → Forall label_ok ls → Forall printable ls →
  header_clear 12 buf ls.
Proof.
  intros Hh Hok Hp. apply Forall_forall. intros l Hin (i & Hi & Hx & Hy).
  pose proof (proj1 (Forall_forall _ _) Hok l Hin) as [[Hl1 _] _]. pose proof (proj1 (Forall_forall _ _) Hp l Hin) as Hpl.
  pose proof (at_range _ _ _ Hx) as Hi0.
  assert (∀ j x, at_ (query_header f k) j x → at_ buf j x) as Hat by (intros j x; by apply (holds_at _ 0)).
  assert (∃ x, at_ (query_header f k) i x ∧ (x = 0 ∨ i + 1 < 12 ∧ at_ (query_header f k) (i + 1) 0)) as (x & H1 & H2).
  { assert (i = 0 ∨ i = 1 ∨ i = 2 ∨ i = 3 ∨ i = 4 ∨ i = 5 ∨ i = 6 ∨ i = 7 ∨ i = 8 ∨ i = 9 ∨ i = 10 ∨ i = 11) as Hcases by lia.
    destruct_or! Hcases; subst i; eexists; (split; [by split|]); (by left) || (by right). }
  pose proof (at_fun _ _ _ _ Hx (Hat _ _ H1)) as Hxl. destruct H2 as [?|[Hi1 H2]]; [lia|].
  destruct (Hy Hi1) as (y & Hhd & Hy'). pose proof (at_fun _ _ _ _ Hy' (Hat _ _ H2)) as ->.
  destruct l as [|y l]; [done|]. injection Hhd as ->. apply Forall_cons in Hpl as [? _]. lia.
Qed.

Lemma not_ends_flush buf p ls x : at_ buf (p - 1) x → x < 32 → Forall label_ok ls → Forall printable ls → ¬ ends_flush buf p ls.
Proof.
  intros Hx Hlt Hok Hp (l & Hlast & Hh & _). apply last_Some in Hlast as (ls' & ->).
  apply Forall_app in Hok as [_ [[[Hl1 _] _] _]%Forall_cons]. apply Forall_app in Hp as [_ [Hpl _]%Forall_cons].
  destruct (at_exists (encode_label l) (zlen l)) as [y Hy]; [rewrite zlen_encode_label; lia|].
  pose proof (holds_at _ _ _ _ _ Hh Hy) as Hy'. replace (p - (1 + zlen l) + zlen l) with (p - 1) in Hy' by lia.
  pose proof (at_fun _ _ _ _ Hx Hy') as ->. enough (32 ≤ y) by lia. unfold encode_label in Hy.
  destruct Hy as [_ Hy]. replace (Z.to_nat (zlen l)) with (S (pred (length l))) in Hy by (unfold zlen in *; lia).
  simpl in Hy. apply (proj1 (Forall_lookup _ _) Hpl _ _ Hy).
Qed.

(** The questions of a list stand one after the other. *)
Fixpoint questions_at (buf : list Z) (p : Z) (qs : list question) (next : Z) : Prop :=
  match qs with
  | [] => next = p
  | q :: qs => ∃ m, question_at buf p q m ∧ p < m ∧ questions_at buf m qs next
  end.

Lemma questions_at_le buf qs : ∀ p next, questions_at buf p qs next → p ≤ next.
Proof. induction qs as [|q qs IH]; intros p next; [simpl; lia|]. intros (m & _ & Hm & H%IH). lia. Qed.

Lemma questions_at_agree buf buf' qs e : zlen buf' = zlen buf → agree12 buf buf' e → ∀ p next,
  questions_at buf p qs next → next ≤ e → questions_at buf' p qs next.
Proof.
  intros Hz Ha. induction qs as [|q qs IH]; intros p next Hq He; [done|]. destruct Hq as (m & Hq & Hm & Hqs).
  pose proof (questions_at_le _ _ _ _ Hqs). exists m. split; [|split; [done|by apply IH]].
  apply (question_at_agree buf buf' _ _ _ e); (done || lia).
Qed.

Lemma questions_at_snoc buf q qs : ∀ p m next, questions_at buf p qs m → question_at buf m q next → m < next →
  questions_at buf p (qs ++ [q]) next.
Proof.
  induction qs as [|q' qs IH]; intros p m next Hqs Hq Hm; simpl in *.
  - subst m. by exists next.
  - destruct Hqs as (m' & Hq' & Hm' & Hqs). exists m'. split; [done|]. split; [done|]. by apply (IH m' m).
Qed.

(** A query under construction: [qs] are its questions, [ptr] is its end. *)
Record building (f : Z) (qs : list question) (buf : list Z) (ptr : Z) : Prop := {
  b_bytes : bytes_ok buf;
  b_header : holds buf 0 (query_header f (zlen qs));
  b_ptr : 12 ≤ ptr;
  b_last : ∃ x, at_ buf (ptr - 1) x ∧ x < 32;
  b_qs : questions_at buf 12 qs ptr }.

Lemma putQuestion_builds f qs buf ptr q limit : building f qs buf ptr → question_ok q → zlen qs < 255 → is_u8 f →
  ptr ≤ 16384 → ptr + question_size q < limit → limit ≤ zlen buf →
  ∃ buf' next, putQuestion buf (Some ptr) limit (qu_name q) (qu_type q) (qu_class q) = Ret (buf', Some next) ∧
    building f (qs ++ [q]) buf' next ∧ zlen buf' = zlen buf ∧ next ≤ ptr + question_size q.
Proof.
  intros [Hb Hh Hptr (x & Hx & Hx32) Hqs] (Hok & Hpr & Hn & Ht & Hc & Hc32) Hk Hf H16 Hfit Hlim. unfold question_size in *.
  unfold putQuestion.
  destruct (putDomainNameAsLabels_fits 12 ltac:(lia) true buf ptr limit (qu_name q) (qu_labels q)) as
    (buf1 & n & -> & (Hz1 & Hb1 & Hw1) & Hnx & Hna); try done; try lia.
  { intros _. split; [done|]. split; [by apply (not_ends_flush buf ptr _ x); [..|apply Hok|]|].
    by apply (query_header_clear buf f (zlen qs)); [..|apply Hok|]. }
  cbn [then_ptr obind]. rewrite (proj2 (Z.leb_gt _ _)) by lia.
  rewrite (put_words buf1 n (qu_type q) (qu_class q) (fun buf => let* buf := incr16 buf off_numQuestions in Ret (buf, Some (n + 4)))) by (done || lia).
  set (bs := be16 (qu_type q) ++ be16 (qu_class q)). assert (zlen bs = 4) as Hbs by done.
  assert (holds (write buf1 n bs) 0 (query_header f (zlen qs))) as Hh2.
  { apply holds_write_other; [lia|lia|left; change (zlen (query_header f (zlen qs))) with 12; lia|].
    apply (holds_ext buf); [done|done|]. intros i y Hi. change (zlen (query_header f (zlen qs))) with 12 in Hi. apply Hw1. lia. }
  destruct (incr_questions _ f (zlen qs) Hh2) as (buf3 & Hi & Hb3 & Hh3); [pose proof (zlen_nonneg qs); lia|].
  rewrite Hi. cbn [obind]. exists buf3, (n + 4). split; [done|].
  assert (zlen (write buf1 n bs) = zlen buf) as Hz2 by (rewrite zlen_write; lia).
  assert (zlen buf3 = zlen buf) as Hz3 by (rewrite Hb3, zlen_write; [done|lia|change (zlen [zlen qs + 1; 0]) with 2; lia]).
  assert (∀ e, agree12 (write buf1 n bs) buf3 e) as Ha3.
  { intros e. rewrite Hb3. apply agree12_header; [lia|done|lia]. }
  assert (agree12 buf1 (write buf1 n bs) n) as Ha2 by (apply agree_write; lia).
  assert (agree12 buf buf3 ptr) as Ha.
  { apply (agree_trans 12 buf buf1 buf3 ptr ptr); [|apply (agree_trans 12 buf1 (write buf1 n bs) buf3 ptr n)|]; try lia; try done.
    - intros i y Hi'. apply Hw1. lia.
    - by apply (agree_le 12 buf1 (write buf1 n bs) ptr n); [|lia]. }
  assert (holds buf3 n bs) as Hbs3.
  { apply (agree_holds 12 (write buf1 n bs) buf3 (n + 4)); [done|lia|lia|lia|apply write_holds; lia]. }
  split; [split|split; [done|lia]].
  - rewrite Hb3. apply write_bytes_ok; [apply write_bytes_ok; [by apply Hb1|]|].
    + apply Forall_app. split; by apply be16_ok.
    + pose proof (zlen_nonneg qs). repeat constructor; lia.
  - by rewrite zlen_app.
  - lia.
  - exists (qu_class q mod 256). split; [|done]. replace (n + 4 - 1) with (n + 3) by lia. by apply (holds_at _ _ bs).
  - apply (questions_at_snoc _ _ _ _ ptr); [|split; [|split; [lia|by replace (n + 4 - 4) with n by lia]]|lia].
    + by apply (questions_at_agree buf buf3 qs ptr).
    + replace (n + 4 - 4) with n by lia. apply (name_at_agree 12 buf1); [done|lia|].
      by apply (agree_trans 12 _ (write buf1 n bs) _ n n).
Qed.

Fixpoint put_questions (limit : Z) (qs : list question) (buf : list Z) (ptr : option Z) : outcome (list Z * option Z) :=
  match qs with
  | [] => Ret (buf, ptr)
  | q :: qs =>
    let* '(buf, ptr) := putQuestion buf ptr limit (qu_name q) (qu_type q) (qu_class q) in
    put_questions limit qs buf ptr
  end.

(** The loop of the receive path over the questions of a query. *)
Fixpoint read_questions (n : nat) (msg : list Z) (ptr : option Z) (e InterfaceID : Z) : outcome (list DNSQuestion * option Z) :=
  match n, ptr with
  | S n, Some p =>
    let* '(q, ptr) := getQuestion msg p e InterfaceID in
    let* '(qs, ptr) := read_questions n msg ptr e InterfaceID in Ret (q :: qs, ptr)
  | _, _ => Ret ([], ptr)
  end.

Fixpoint questions_size (qs : list question) : Z :=
  match qs with [] => 0 | q :: qs => question_size q + questions_size qs end.

Lemma questions_size_nonneg qs : 0 ≤ questions_size qs.
Proof. induction qs as [|q qs IH]; simpl; [lia|]. unfold question_size. pose proof (zlen_nonneg (encode (qu_labels q))). lia. Qed.

Lemma put_questions_builds f limit qs : is_u8 f → limit ≤ 16384 → ∀ done buf ptr, building f done buf ptr → Forall question_ok qs →
  zlen done + zlen qs < 256 → ptr + questions_size qs < limit → limit ≤ zlen buf →
  ∃ buf' next, put_questions limit qs buf (Some ptr) = Ret (buf', Some next) ∧
    building f (done ++ qs) buf' next ∧ zlen buf' = zlen buf ∧ next ≤ ptr + questions_size qs.
Proof.
  intros Hf H16. induction qs as [|q qs IH]; intros dn buf ptr Hbu Hok Hk Hfit Hlim; simpl in *.
  - exists buf, ptr. rewrite app_nil_r. split_and!; (done || lia).
  - apply Forall_cons in Hok as [Hq Hok]. rewrite zlen_cons in Hk. pose proof (questions_size_nonneg qs). pose proof (zlen_nonneg qs).
    assert (0 ≤ question_size q) by (unfold question_size; pose proof (zlen_nonneg (encode (qu_labels q))); lia).
    destruct (putQuestion_builds f dn buf ptr q limit Hbu Hq) as (buf1 & n & -> & Hb1 & Hz1 & Hn1); [lia|done|lia|lia|done|].
    cbn [obind]. destruct (IH (dn ++ [q]) buf1 n Hb1 Hok) as (buf2 & m & -> & Hb2 & Hz2 & Hn2);
      [rewrite zlen_app; change (zlen [q]) with 1; lia|lia|lia|].
    exists buf2, m. rewrite <- app_assoc in Hb2. split_and!; (done || lia).
Qed.

Lemma skip_questions_at buf e qs : bytes_ok buf → Forall question_ok qs → ∀ p next, questions_at buf p qs next → next ≤ e →
  skip_questions (length qs) buf (Some p) e = Ret (Some next).
Proof.
  intros Hb. induction qs as [|q qs IH]; intros Hok p next Hqs He; simpl in *; [by subst|].
  apply Forall_cons in Hok as [Hq Hok]. destruct Hqs as (m & Hqa & _ & Hqs). pose proof (questions_at_le _ _ _ _ Hqs).
  rewrite (skipQuestion_at buf p q m e) by (done || lia). cbn [obind]. by apply IH.
Qed.

Lemma read_questions_at buf e iid qs : bytes_ok buf → e < zlen buf → Forall question_ok qs → ∀ p next, questions_at buf p qs next → next ≤ e →
  ∃ ds, read_questions (length qs) buf (Some p) e iid = Ret (ds, Some next) ∧ Forall2 (reads_as iid) qs ds.
Proof.
  intros Hb Hz. induction qs as [|q qs IH]; intros Hok p next Hqs He; simpl in *; [subst; by eauto|].
  apply Forall_cons in Hok as [Hq Hok]. destruct Hqs as (m & Hqa & _ & Hqs). pose proof (questions_at_le _ _ _ _ Hqs).
  destruct (getQuestion_at buf p q m e iid) as (d & -> & Hd); [done|done|done|lia|done|]. cbn [obind].
  destruct (IH Hok m next Hqs He) as (ds & -> & Hds). cbn [obind]. exists (d :: ds). split; [done|]. by constructor.
Qed.

Lemma start_building f buf : bytes_ok buf → is_u8 f → 12 ≤ zlen buf → building f [] (write buf 0 (query_header f 0)) 12.
Proof.
  intros Hb Hf Hl. assert (holds (write buf 0 (query_header f 0)) 0 (query_header f 0)) as Hh by (apply write_holds; [lia|done]).
  split; [|done|lia| |done].
  - apply write_bytes_ok; [done|]. repeat constructor; lia.
  - exists 0. split; [|lia]. change (12 - 1) with (0 + 11). by apply (holds_at _ 0 _ _ _ Hh).
Qed.

Lemma query_roundtrip_spec f qs buf limit iid : bytes_ok buf → is_u8 f → Forall question_ok qs → zlen qs < 256 →
  12 + questions_size qs < limit → limit ≤ 16384 → limit ≤ zlen buf →
  ∃ msg e ds, (let* buf := InitializeDNSMessage buf (0, 0) (f, 0) in put_questions limit qs buf (Some off_data)) = Ret (msg, Some e) ∧
    e ≤ 12 + questions_size qs ∧
    get16 msg off_numQuestions = Ret (zlen qs) ∧
    read_questions (length qs) msg (Some off_data) e iid = Ret (ds, Some e) ∧ Forall2 (reads_as iid) qs ds ∧
    LocateAnswers msg e = Ret (Some e).
Proof.
  intros Hb Hf Hok Hk Hfit H16 Hlim. pose proof (questions_size_nonneg qs).
  unfold off_data. rewrite InitializeDNSMessage_header by lia. cbn [obind]. set (buf0 := write buf 0 (query_header f 0)).
  assert (zlen buf0 = zlen buf) as Hz0 by (apply zlen_write; [lia|change (zlen (query_header f 0)) with 12; lia]).
  destruct (put_questions_builds f limit qs Hf H16 [] buf0 12) as (msg & e & -> & [Hbm Hhm _ _ Hqs] & Hz & He);
    [by apply start_building; [..|lia]|done|done|lia|lia|]. simpl in Hqs.
  assert (get16 msg off_numQuestions = Ret (zlen qs)) as Hg.
  { unfold get16, off_numQuestions.
    rewrite (proj2 (aget_at _ 4 (zlen qs)) (holds_at _ 0 _ 4 (zlen qs) Hhm ltac:(done))). cbn [obind].
    rewrite (proj2 (aget_at _ (4 + 1) 0) (holds_at _ 0 _ 5 0 Hhm ltac:(done))). cbn [obind]. f_equal. lia. }
  destruct (read_questions_at msg e iid qs Hbm ltac:(lia) Hok 12 e Hqs ltac:(done)) as (ds & Hr & Hds).
  exists msg, e, ds. split_and!; try done.
  unfold LocateAnswers. rewrite Hg. cbn [obind]. replace (Z.to_nat (zlen qs)) with (length qs) by (unfold zlen; lia).
  by apply skip_questions_at.
Qed.

(** ** Records with plain rdata *)

(** Rdata that is the bytes [bs] themselves. *)
Definition plain_rdata (rr : ResourceRecord) (bs : list Z) : Prop :=
  holds (rr_rdata rr) 0 bs ∧ bytes_ok bs ∧ zlen bs = rr_rdlength rr ∧ rr_rrtype rr ≠ kDNSType_HINFO ∧
  match kind_of_type (rr_rrtype rr) with
  | KindA => zlen bs = 4
  | KindAAAA => zlen bs = 16
  | KindRaw | KindOther => zlen bs < MaximumRDSize
  | _ => False
  end.

Lemma plain_rdata_small rr bs : plain_rdata rr bs → zlen bs < MaximumRDSize.
Proof. intros (_ & _ & _ & _ & H). unfold MaximumRDSize in *. destruct (kind_of_type _); (done || lia). Qed.

Definition record_bytes (t c ttl : Z) (bs : list Z) : list Z :=
  (be16 t ++ be16 c ++ be32 ttl) ++ be16 (zlen bs) ++ bs.

(** The bytes from [p] to [next] are a record with owner [ls]. *)
Definition record_at (buf : list Z) (p : Z) (ls : list label) (t c ttl : Z) (bs : list Z) (next : Z) : Prop :=
  ∃ n, name_at12 buf p ls n ∧ 12 ≤ n ∧ p < n ∧ holds buf n (record_bytes t c ttl bs) ∧ next = n + 10 + zlen bs.

Lemma incr16_header buf off : bytes_ok buf → 0 ≤ off → off + 2 ≤ 12 → 12 ≤ zlen buf →
  ∃ buf', incr16 buf off = Ret buf' ∧ zlen buf' = zlen buf ∧ bytes_ok buf' ∧ (∀ e, agree12 buf buf' e).
Proof.
  intros Hb Ho H2 Hl. unfold incr16. destruct (get16_ok buf off) as (v & ->); [lia|lia|]. cbn [obind].
  rewrite set16_write by lia. eexists. split; [done|]. unfold u16. set (w := (v + 1) mod 65536).
  assert (is_u16 w) as Hw by (apply Z.mod_pos_bound; lia).
  assert (zlen [w mod 256; w / 256] = 2) as Hz by done. split; [apply zlen_write; lia|]. split.
  - apply write_bytes_ok; [done|]. repeat constructor; Z.div_mod_to_equations; lia.
  - intros e. apply agree12_header; lia.
Qed.

(** *** Putting *)
Lemma put_header_spec buf p t c ttl : is_u16 t → is_u16 c → is_u32 ttl → 0 ≤ p → p + 8 ≤ zlen buf →
  put_header buf p t c ttl = Ret (write buf p (be16 t ++ be16 c ++ be32 ttl)).
Proof.
  intros Ht Hc Httl Hp Hl. unfold put_header. assert (∀ x, zlen (be32 x) = 4) as H4 by done.
  assert (zlen (be16 t ++ be16 c) = 4) as H8 by done.
  rewrite (put_words buf p t c (fun buf => let* '(buf, _) := putVal32 buf (p + 4) ttl in Ret buf)) by (done || lia).
  rewrite putVal32_spec by (done || rewrite ?zlen_write; rewrite ?H8; lia). cbn [obind].
  change (p + 4) with (p + zlen (be16 t ++ be16 c)). by rewrite write_app, <- app_assoc by (rewrite ?H8, ?H4; lia).
Qed.

Lemma putRData_plain compress buf p limit rr bs : plain_rdata rr bs → 0 ≤ p → p + zlen bs ≤ limit → limit ≤ zlen buf →
  putRData compress buf p limit rr = Ret (write buf p bs, Some (p + zlen bs)).
Proof.
  intros (Hh & _ & Hl & _ & Hk) Hp Hfit Hlim.
  assert (∀ n, n = zlen bs → put_raw buf p limit (rr_rdata rr) n = Ret (write buf p bs, Some (p + zlen bs))) as Hraw.
  { intros n ->. unfold put_raw. rewrite (proj2 (Z.ltb_ge _ _)) by lia. by rewrite copy_write by (done || lia). }
  unfold putRData. destruct (kind_of_type _); try done; try (apply Hraw; lia).
  - rewrite (proj2 (Z.eqb_eq _ _)) by lia. by apply Hraw.
  - rewrite (proj2 (Z.eqb_eq _ _)) by lia. by apply Hraw.
Qed.

(** The length is filled in after the rdata. *)
Lemma write_record (l : list Z) n hd len bs : zlen hd = 8 → zlen len = 2 → 0 ≤ n → n + 10 + zlen bs ≤ zlen l →
  write (write (write l n hd) (n + 10) bs) (n + 8) len = write l n (hd ++ len ++ bs).
Proof.
  intros H8 H2 Hn Hl. pose proof (zlen_nonneg bs). replace (n + 10) with (n + 8 + zlen len) by lia.
  rewrite write_before by (rewrite ?zlen_write; lia). replace (n + 8) with (n + zlen hd) by lia.
  by rewrite write_app by (rewrite ?zlen_app; lia).
Qed.

Lemma PutResourceRecord_at buf ptr count rr ttl limit ls bs : rr_RecordType rr ≠ kDNSRecordTypeUnregistered →
  plain_rdata rr bs → name_ok ls → is_name (rr_name rr) ls → is_u16 (rr_rrtype rr) → is_u16 (rr_rrclass rr) → is_u32 ttl →
  bytes_ok buf → 12 ≤ ptr ≤ 16384 → limit ≤ zlen buf → 0 ≤ count → count + 2 ≤ 12 →
  ¬ ends_flush buf ptr ls → header_clear 12 buf ls → ptr + zlen (encode ls) + 10 + zlen bs < limit →
  ∃ buf' next, PutResourceRecordTTLWithLimit buf (Some ptr) (Some count) rr ttl limit = Ret (buf', Some next) ∧
    record_at buf' ptr ls (rr_rrtype rr) (rr_rrclass rr) ttl bs next ∧ next ≤ ptr + zlen (encode ls) + 10 + zlen bs ∧
    zlen buf' = zlen buf ∧ bytes_ok buf' ∧ agree12 buf buf' ptr.
Proof.
  intros Hreg Hpl Hok Hn Ht Hc Httl Hb Hp Hlim Hcnt Hcnt2 Hfl Hcl Hfit. pose proof (zlen_nonneg bs) as Hbs.
  pose proof (plain_rdata_small _ _ Hpl) as Hsmall. unfold MaximumRDSize in Hsmall.
  unfold PutResourceRecordTTLWithLimit. rewrite (proj2 (Z.eqb_neq _ _) Hreg).
  assert ((rr_rrtype rr =? kDNSType_OPT) = false) as ->.
  { apply Z.eqb_neq. intros Ho. destruct Hpl as (_ & _ & _ & _ & Hk). by rewrite Ho in Hk. }
  destruct (putDomainNameAsLabels_fits 12 ltac:(lia) true buf ptr limit (rr_name rr) ls) as
    (buf1 & n & -> & (Hz1 & Hb1 & Hw1) & Hnx & Hna); try done; try lia; [intros _; split_and!; (done || lia)|].
  cbn [then_ptr obind].
  rewrite (proj2 (Z.leb_gt _ _)) by lia. rewrite put_header_spec by (done || lia). cbn [obind].
  set (hd := be16 (rr_rrtype rr) ++ be16 (rr_rrclass rr) ++ be32 ttl). assert (zlen hd = 8) as Hhd by done.
  rewrite (putRData_plain true _ (n + 10) limit rr bs) by (done || rewrite ?zlen_write; lia). cbn [then_ptr obind].
  replace (n + 10 + zlen bs - n - 10) with (zlen bs) by lia. unfold u16. rewrite Z.mod_small by lia.
  assert (zlen (be16 (zlen bs)) = 2) as H2 by done.
  rewrite putVal16_spec by (rewrite ?zlen_write; rewrite ?zlen_write; lia). cbn [obind].
  rewrite (write_record buf1 n hd (be16 (zlen bs)) bs) by (done || lia).
  change (hd ++ be16 (zlen bs) ++ bs) with (record_bytes (rr_rrtype rr) (rr_rrclass rr) ttl bs).
  set (rb := record_bytes _ _ _ _). assert (zlen rb = 10 + zlen bs) as Hrb by (unfold rb, record_bytes; fold hd; rewrite zlen_app, Hhd, zlen_app, H2; lia).
  assert (zlen (write buf1 n rb) = zlen buf) as Hz2 by (rewrite zlen_write; lia).
  assert (bytes_ok (write buf1 n rb)) as Hb2.
  { apply write_bytes_ok; [by apply Hb1|]. unfold rb, record_bytes, bytes_ok. rewrite !Forall_app. split_and!; try by apply be16_ok.
    - by apply be32_ok.
    - apply be16_ok. lia.
    - by destruct Hpl as (_ & ? & _). }
  destruct (incr16_header (write buf1 n rb) count Hb2 Hcnt Hcnt2) as (buf3 & -> & Hz3 & Hb3 & Ha3); [lia|]. cbn [obind].
  assert (agree12 buf1 buf3 n) as Ha1 by (apply (agree_trans 12 _ (write buf1 n rb) _ n n); [apply agree_write; lia|done|done]).
  exists buf3, (n + 10 + zlen bs). split_and!; try done; try lia.
  - exists n. split_and!; [|lia|lia| |done].
    + apply (name_at_agree 12 buf1); [done|lia|done].
    + apply (agree_holds 12 (write buf1 n rb) buf3 (n + zlen rb)); [done|done|lia|done|apply write_holds; fold rb; rewrite ?Hrb; lia].
  - apply (agree_trans 12 _ buf1 _ ptr n); [|done|lia]. intros i y Hi. apply Hw1. lia.
Qed.

(** *** Skipping and reading *)
Section At.
Context (buf : list Z) (p e : Z) (ls : list label) (t c ttl : Z) (bs : list Z) (next : Z).
Hypothesis Hb : bytes_ok buf.
Hypothesis Hat : record_at buf p ls t c ttl bs next.
Hypothesis Hok : name_ok ls.
Hypothesis Hbs : zlen bs < 65536.
Hypothesis Hnext : next ≤ e.

Lemma record_at_name : ∃ n, next = n + 10 + zlen bs ∧ 12 ≤ n ∧ decodes buf e p ls n ∧ holds buf n (record_bytes t c ttl bs).
Proof.
  destruct Hat as (n & Hn & H12 & Hpn & Hh & ->). pose proof (zlen_nonneg bs). exists n. split_and!; try done.
  apply Hn; [done|apply agree_refl|lia].
Qed.

Lemma skipResourceRecord_at : skipResourceRecord buf (Some p) e = Ret (Some next).
Proof.
  destruct record_at_name as (n & -> & H12 & Hd & Hh). pose proof (zlen_nonneg bs). unfold skipResourceRecord.
  rewrite (skipDomainName_decodes buf p e ls n) by (done || apply Hok).
  cbn [obind]. rewrite (proj2 (Z.ltb_ge _ _)) by lia.
  unfold record_bytes in Hh. apply holds_app in Hh as [_ Hh]. apply holds_app in Hh as [Hh _].
  change (zlen (be16 t ++ be16 c ++ be32 ttl)) with 8 in Hh. rewrite (rd16_be _ _ (zlen bs)) by (done || lia). cbn [obind].
  by rewrite (proj2 (Z.ltb_ge _ _)) by lia.
Qed.

(** The types whose rdata is fetched as it is. *)
Hypothesis Hkind : t ≠ kDNSType_HINFO ∧ match kind_of_type t with
  | KindA => zlen bs = 4
  | KindAAAA => zlen bs = 16
  | KindRaw | KindOther => zlen bs < MaximumRDSize
  | _ => False
  end.
Hypothesis Hlen : next < zlen buf.

Lemma get_rdata_plain one_second u rl : mem_ok u → 
  ∃ rl', get_rdata one_second buf (next - zlen bs) (zlen bs) t rl MaximumRDSize u = Ret (write u 0 bs, rl', true) ∧
    (rl' = zlen bs ∨ rl' = rl ∧ (kind_of_type t = KindA ∨ kind_of_type t = KindAAAA)).
Proof.
  intros (_ & Hz & _). destruct record_at_name as (n & -> & H12 & _ & Hh). replace (n + 10 + zlen bs - zlen bs) with (n + 10) by lia.
  assert (holds buf (n + 10) bs) as Hbs'.
  { unfold record_bytes in Hh. rewrite app_assoc in Hh. by apply holds_app in Hh as [_ Hh]. }
  assert (∀ k max, k = zlen bs → k ≤ max → k < MaximumRDSize → get_raw buf (n + 10) k max u = Ret (write u 0 bs, true)) as Hraw.
  { intros k max -> ??. unfold get_raw. rewrite (proj2 (Z.ltb_ge _ _)) by lia. by rewrite copy_write by (done || lia). }
  unfold get_rdata. destruct Hkind as [_ Hk]. destruct (kind_of_type t); try done.
  - rewrite (proj2 (Z.eqb_eq _ _) Hk). cbn [negb]. rewrite Hraw by (done || unfold MaximumRDSize; lia). cbn [obind]. eauto 10.
  - rewrite Hraw by (done || lia). cbn [obind]. eauto 10.
  - rewrite (proj2 (Z.eqb_eq _ _) Hk). cbn [negb]. rewrite Hraw by (done || unfold MaximumRDSize; lia). cbn [obind]. eauto 10.
  - rewrite Hraw by (done || lia). cbn [obind]. eauto 10.
Qed.

Lemma SetNewRData_plain r : mem_ok (rr_rdata r) → 0 ≤ rr_rdlength r ≤ MaximumRDSize → name_ok ls → is_name (rr_name r) ls →
  rr_rrtype r = t → rr_rrclass r ≠ kDNSQClass_ANY → 
  (rr_rdlength r = zlen bs ∨ kind_of_type t = KindA ∨ kind_of_type t = KindAAAA) →
  ∃ est h, SetNewRData r None 0 = Ret (r <| rr_rdlength := zlen bs |> <| rr_rdestimate := est |> <| rr_rdatahash := h |>).
Proof.
  intros Hm Hl Ho Hn Ht Hany Hrl. destruct Hkind as [Hhi Hk].
  destruct (SetNewRData_mem r ls Hm Hl Ho Hn) as (len & est & h & -> & _ & Hg).
  { intros _. unfold names_ok. rewrite Ht. by destruct (kind_of_type t). }
  exists est, h. do 3 f_equal. enough (len = zlen bs) as -> by done.
  unfold GetRDLength in Hg. rewrite Ht, (proj2 (Z.eqb_neq _ _) Hany), (proj2 (Z.eqb_neq _ _) Hhi) in Hg.
  destruct (kind_of_type t); try done; injection Hg as <-; try lia; by destruct Hrl as [->|[|]].
Qed.

Definition received_ttl (one_second ttl : Z) : Z :=
  if (0x70000000 / one_second <? ttl) && negb (s32 ttl =? -1) then 0x70000000 / one_second else ttl.

Lemma GetLargeResourceRecord_at one_second iid RecordType rec : 0 < one_second → rec_ok rec → 22 ≤ zlen buf - next →
  is_u16 t → is_u16 c → is_u32 ttl → Z.land c kDNSClass_Mask ≠ kDNSQClass_ANY → e = next →
  ∃ rec', GetLargeResourceRecord one_second buf p e iid RecordType rec = Ret (rec', Some next) ∧
    is_name (rr_name rec') ls ∧ DomainNameHashValue (rr_name rec') = Ret (rr_namehash rec') ∧ rr_rrtype rec' = t ∧
    rr_rrclass rec' = Z.land c kDNSClass_Mask ∧ rr_rroriginalttl rec' = received_ttl one_second ttl ∧
    rr_rdlength rec' = zlen bs ∧ holds (rr_rdata rec') 0 bs.
Proof.
  intros Hone (Hname & Hm & Hl) Hz Ht Hc Httl Hany He. destruct record_at_name as (n & Hnx & H12 & Hd & Hh).
  pose proof (zlen_nonneg bs). assert (zlen bs < MaximumRDSize) as Hsm.
  { destruct Hkind as [_ Hk]. unfold MaximumRDSize in *. destruct (kind_of_type t); (done || lia). }
  pose proof (get_rdata_plain one_second (rr_rdata rec) (rr_rdlength rec) Hm) as (rl & Hget & Hrl).
  unfold GetLargeResourceRecord. struct_simpl.
  destruct (getDomainName_decodes buf p e (rr_name rec) ls n) as (name & -> & Hn & Hzn); [done|lia|done|done|apply Hok|].
  cbn [obind]. rewrite (proj2 (Z.ltb_ge _ _)) by lia.
  unfold record_bytes in Hh. apply holds_app in Hh as [Hh1 Hh2]. apply holds_app in Hh1 as [H1 H2]. apply holds_app in H2 as [H2 H3].
  apply holds_app in Hh2 as [H4 H5]. change (zlen (be16 t ++ be16 c ++ be32 ttl)) with 8 in H4, H5.
  change (zlen (be16 t)) with 2 in *. change (zlen (be16 c)) with 2 in *. replace (n + 2 + 2) with (n + 4) in H3 by lia.
  rewrite (rd16_be _ _ _ Ht H1). cbn [obind]. rewrite (rd16_be _ _ _ Hc H2). cbn [obind]. rewrite (rd32_be _ _ _ Httl H3). cbn [obind].
  destruct (max_ttl_ok one_second Hone) as [-> _]. cbn [obind]. rewrite (rd16_be _ _ (zlen bs)) by (done || lia). cbn [obind].
  destruct (aget_ok buf (n + 2)) as (b2 & -> & _); [lia|]. cbn [obind]. destruct (aget_ok buf 2) as (fl & -> & _); [lia|]. cbn [obind].
  rewrite (proj2 (Z.ltb_ge _ _)) by lia. struct_simpl. rewrite (proj2 (Z.eqb_neq _ _) Hany). cbn [andb].
  replace (n + 10) with (next - zlen bs) by lia. rewrite Hget. cbn [obind negb].
  destruct (DomainNameHashValue_spec name name ls ls) as (h & Hh1 & _); [apply Hok|apply Hok|done|done|done|]. struct_simpl. rewrite Hh1. cbn [obind].
  destruct (mem_ok_write (rr_rdata rec) 0 bs Hm (holds_bytes_ok _ _ _ Hb H5) ltac:(lia) ltac:(lia)) as [Hm' _].
  assert (0 ≤ rl ≤ MaximumRDSize) as Hrl' by (destruct Hrl as [->|[-> _]]; lia).
  match goal with |- context [SetNewRData ?r] => destruct (SetNewRData_plain r) as (est & hd & ->) end; struct_simpl; try done; try lia.
  { by destruct Hrl as [?|[_ ?]]; auto. }
  cbn [obind]. replace (next - zlen bs + zlen bs) with next by lia. eexists. split; [done|]. struct_simpl. split_and!; try done.
  apply write_holds; [lia|]. destruct Hm as (_ & -> & _). lia.
Qed.
End At.

Lemma record_roundtrip_spec one_second buf ptr count rr ttl limit ls bs iid RecordType rec :
  0 < one_second → rec_ok rec → rr_RecordType rr ≠ kDNSRecordTypeUnregistered →
  plain_rdata rr bs → name_ok ls → is_name (rr_name rr) ls → is_u16 (rr_rrtype rr) → is_u16 (rr_rrclass rr) → is_u32 ttl →
  Z.land (rr_rrclass rr) kDNSClass_Mask ≠ kDNSQClass_ANY →
  bytes_ok buf → 12 ≤ ptr ≤ 16384 → limit + 22 ≤ zlen buf → 0 ≤ count → count + 2 ≤ 12 →
  ¬ ends_flush buf ptr ls → header_clear 12 buf ls → ptr + zlen (encode ls) + 10 + zlen bs < limit →
  ∃ msg e rec', PutResourceRecordTTLWithLimit buf (Some ptr) (Some count) rr ttl limit = Ret (msg, Some e) ∧
    agree12 buf msg ptr ∧
    skipResourceRecord msg (Some ptr) e = Ret (Some e) ∧
    GetLargeResourceRecord one_second msg ptr e iid RecordType rec = Ret (rec', Some e) ∧
    is_name (rr_name rec') ls ∧ DomainNameHashValue (rr_name rec') = Ret (rr_namehash rec') ∧
    rr_rrtype rec' = rr_rrtype rr ∧ rr_rrclass rec' = Z.land (rr_rrclass rr) kDNSClass_Mask ∧
    rr_rroriginalttl rec' = received_ttl one_second ttl ∧ rr_rdlength rec' = rr_rdlength rr ∧ holds (rr_rdata rec') 0 bs.
Proof.
  intros Hone Hrec Hreg Hpl Hok Hn Ht Hc Httl Hany Hb Hp Hlim Hcnt Hcnt2 Hfl Hcl Hfit.
  destruct (PutResourceRecord_at buf ptr count rr ttl limit ls bs) as (msg & e & Hput & Hat & Hle & Hz & Hbm & Ha); try done; try lia.
  pose proof (plain_rdata_small _ _ Hpl) as Hsm. pose proof Hpl as (_ & _ & Hlen & Hhi & Hkind). unfold MaximumRDSize in Hsm.
  destruct (GetLargeResourceRecord_at msg ptr e ls (rr_rrtype rr) (rr_rrclass rr) ttl bs e Hbm Hat Hok ltac:(lia) ltac:(done)
    (conj Hhi Hkind) ltac:(lia) one_second iid RecordType rec) as (rec' & Hget & ?); [done|done|lia|done..|].
  exists msg, e, rec'. split; [done|]. split; [done|]. split; [|by rewrite <- Hlen].
  by apply (skipResourceRecord_at msg ptr e ls (rr_rrtype rr) (rr_rrclass rr) ttl bs e); [..|lia|].
Qed.

(** ** Properties *)

(** C5. A query is read back as it was built: a message initialised with the
    id 0 of Multicast DNS, to which [putQuestion] adds fewer than 256 questions
    with printable names, each name compressed against everything before it,
    announces their number, is read back by [getQuestion] into exactly these
    questions in order (name, its hash, type and class) up to the end of the
    message, and [LocateAnswers] finds the same end. *)
Theorem query_roundtrip f qs buf limit InterfaceID : bytes_ok buf → is_u8 f → Forall question_ok qs → zlen qs < 256 →
  12 + questions_size qs < limit → limit ≤ 16384 → limit ≤ zlen buf →
  ∃ msg e ds, (let* buf := InitializeDNSMessage buf (0, 0) (f, 0) in put_questions limit qs buf (Some off_data)) = Ret (msg, Some e) ∧
    e ≤ 12 + questions_size qs ∧
    get16 msg off_numQuestions = Ret (zlen qs) ∧
    read_questions (length qs) msg (Some off_data) e InterfaceID = Ret (ds, Some e) ∧ Forall2 (reads_as InterfaceID) qs ds ∧
    LocateAnswers msg e = Ret (Some e).
Proof. apply query_roundtrip_spec. Qed.

(** Two questions: the second name is one label and a pointer to the first. *)
Definition example_questions : list question :=
  [mkQuestion [[95; 104; 116; 116; 112]; [108; 111; 99; 97; 108]] (encode [[95; 104; 116; 116; 112]; [108; 111; 99; 97; 108]]) 12 1;
   mkQuestion [[97; 98]; [108; 111; 99; 97; 108]] (encode [[97; 98]; [108; 111; 99; 97; 108]]) 1 32769].
Lemma query_roundtrip_witness : ∃ msg e ds,
  (let* buf := InitializeDNSMessage (replicate 100 0) (0, 0) (0, 0) in put_questions 60 example_questions buf (Some off_data)) = Ret (msg, Some e) ∧
  read_questions 2 msg (Some off_data) e 7 = Ret (ds, Some e) ∧ Forall2 (reads_as 7) example_questions ds.
Proof.
  destruct (query_roundtrip 0 example_questions (replicate 100 0) 60 7) as (msg & e & ds & Hput & _ & _ & Hread & Hds & _);
    [by apply bytes_okb_ok|lia| |done|by vm_compute|lia|done|].
  - repeat constructor; try lia; try (by apply Forall_true); try (by vm_compute); try (by apply is_name_encode).
  - exists msg, e, ds. split; [exact Hput|]. split; [exact Hread|exact Hds].
Defined.

(** C13. A record is read back as it was put: an address, text or other record
    with plain rdata and a class other than ANY that
    [PutResourceRecordTTLWithLimit] appends to a message with room for it,
    its name compressed, is skipped to its exact end by [skipResourceRecord]
    and read by [GetLargeResourceRecord] with the same name and type, the
    class without its cache flush bit, the TTL capped to what the platform's
    ticks allow, and the same length and bytes of rdata; the bytes of the
    message before it stay as they were.  The name must not be found in the
    header by the compression, nor its last label at the very end of the
    message. *)
Theorem record_roundtrip one_second buf ptr count rr ttl limit ls bs InterfaceID RecordType rec :
  0 < one_second → rec_ok rec → rr_RecordType rr ≠ kDNSRecordTypeUnregistered →
  plain_rdata rr bs → name_ok ls → is_name (rr_name rr) ls → is_u16 (rr_rrtype rr) → is_u16 (rr_rrclass rr) → is_u32 ttl →
  Z.land (rr_rrclass rr) kDNSClass_Mask ≠ kDNSQClass_ANY →
  bytes_ok buf → 12 ≤ ptr ≤ 16384 → limit + 22 ≤ zlen buf → 0 ≤ count → count + 2 ≤ 12 →
  ¬ ends_flush buf ptr ls → header_clear 12 buf ls → ptr + zlen (encode ls) + 10 + zlen bs < limit →
  ∃ msg e rec', PutResourceRecordTTLWithLimit buf (Some ptr) (Some count) rr ttl limit = Ret (msg, Some e) ∧
    agree12 buf msg ptr ∧
    skipResourceRecord msg (Some ptr) e = Ret (Some e) ∧
    GetLargeResourceRecord one_second msg ptr e InterfaceID RecordType rec = Ret (rec', Some e) ∧
    is_name (rr_name rec') ls ∧ DomainNameHashValue (rr_name rec') = Ret (rr_namehash rec') ∧
    rr_rrtype rec' = rr_rrtype rr ∧ rr_rrclass rec' = Z.land (rr_rrclass rr) kDNSClass_Mask ∧
    rr_rroriginalttl rec' = received_ttl one_second ttl ∧ rr_rdlength rec' = rr_rdlength rr ∧ holds (rr_rdata rec') 0 bs.
Proof. apply record_roundtrip_spec. Qed.

Lemma record_roundtrip_witness : ∃ msg e rec',
  PutResourceRecordTTLWithLimit (replicate 100 0) (Some 12) (Some off_numAnswers)
    (example_record kDNSType_A (encode [[97; 98]]) [10; 0; 0; 1]) 120 70 = Ret (msg, Some e) ∧
  GetLargeResourceRecord 1000 msg 12 e 1 128 empty_record = Ret (rec', Some e) ∧ holds (rr_rdata rec') 0 [10; 0; 0; 1].
Proof.
  destruct (record_roundtrip 1000 (replicate 100 0) 12 off_numAnswers (example_record kDNSType_A (encode [[97; 98]]) [10; 0; 0; 1]) 120 70
    [[97; 98]] [10; 0; 0; 1] 1 128 empty_record) as (msg & e & rec' & Hput & _ & _ & Hget & _ & _ & _ & _ & _ & _ & Hbs);
    [lia|exact empty_record_ok|done| |by apply name_okb_ok|apply is_name_encode|simpl; unfold kDNSType_A; lia|simpl; unfold kDNSClass_IN; lia|lia|done
    |by apply bytes_okb_ok|lia|done|done|done| | |done|].
  - split; [apply holds_all|]. split; [by apply bytes_okb_ok|done].
  - intros (l & [= <-] & [Hx _]%holds_cons & _). destruct Hx as [_ Hx]. discriminate.
  - apply Forall_cons. split; [|by apply Forall_nil]. intros (i & Hi & [Hi0 Hx%lookup_replicate_1] & _). by destruct Hx.
  - exists msg, e, rec'. split; [exact Hput|]. split; [exact Hget|exact Hbs].
Defined.
