(* ===== verification/MDNSTypes.v ===== *)
(** The state of mDNSCore's searcher: the structures of [mDNSEmbeddedAPI.h]
    that hold the record cache and the questions, the memory they live in,
    and what mDNSCore expects of the platform and of its clients.

    Pointers are integers, 0 is NULL.  Cache entities live in [m_ents], one
    cell for each element of a [CacheEntity] array, and the questions that
    clients own live in [m_qs]; a cell that is not there has not been handed
    out or has been given back, and using it is the fault [Dangling].  The
    union [CacheEntity] is an inductive type: a cell holds a free-list link,
    a group, a record, or the zeros of a freshly taken entity.

    The program is modelled in the build without wide-area DNS
    ([UNICAST_DISABLED]), where every question is asked by multicast; what
    is left of wide-area code on the modelled paths is the fault [WideArea],
    which the theorems show is never reached.  Code for the host's own
    records that is not modelled is the fault [OwnRecords]. *)
From S2P Require Import Prelude Bytes DNSTypes DNSName DNSRecord DNSMessage.

(** ** Questions *)
Definition DupSuppressInfoSize : nat := 8.
Record DupSuppressInfo := mkDupSuppressInfo { ds_Time : Z; ds_InterfaceID : Z; ds_Type : Z }.

Definition mDNSAddrType_None : Z := 0.
Definition mDNSAddrType_IPv4 : Z := 4.
Definition mDNSAddrType_IPv6 : Z := 6.
Record mDNSAddr := mkAddr { addr_type : Z; addr_ip : list Z }.
#[export] Instance mDNSAddr_eta : Eta mDNSAddr := fun r => mkAddr (addr_type r) (addr_ip r).
#[export] Instance addr_type_set : Setter addr_type := ltac:(derive_setter).

(** A network interface: what is used to tell local senders. *)
Record NetworkInterfaceInfo := mkInterface { intf_InterfaceID : Z; intf_ip : mDNSAddr; intf_mask : mDNSAddr; intf_McastTxRx : bool }.

#[export] Instance DNSQuestion_eta : Eta DNSQuestion := fun r => mkDNSQuestion
  (q_InterfaceID r) (q_TargetQID r) (q_qname r) (q_qnamehash r) (q_qtype r) (q_qclass r).
#[export] Instance q_TargetQID_set : Setter q_TargetQID := ltac:(derive_setter).
#[export] Instance q_qname_set : Setter q_qname := ltac:(derive_setter).
#[export] Instance q_qnamehash_set : Setter q_qnamehash := ltac:(derive_setter).

(** The members used to match records are a [DNSQuestion] of their own. *)
Record Question := mkQuestion {
  Q_next : Z;
  Q_q : DNSQuestion;
  Q_DelayAnswering : Z;
  Q_LastQTime : Z;
  Q_ThisQInterval : Z;
  Q_ExpectUnicastResp : Z;
  Q_LastAnswerPktNum : Z;
  Q_RecentAnswerPkts : Z;
  Q_CurrentAnswers : Z;
  Q_LargeAnswers : Z;
  Q_UniqueAnswers : Z;
  Q_FlappingInterface1 : Z;
  Q_FlappingInterface2 : Z;
  Q_AuthInfo : Z;
  Q_DuplicateOf : Z;
  Q_NextInDQList : Z;
  Q_DupSuppress : list DupSuppressInfo;
  Q_SendQNow : Z;
  Q_SendOnAll : bool;
  Q_RequestUnicast : Z;
  Q_LastQTxTime : Z;
  Q_CNAMEReferrals : Z;
  Q_qDNSServer : Z;
  Q_unansweredQueries : Z;
  Q_nta : Z;
  Q_servAddr : Z;
  Q_servPort : Z;
  Q_tcp : Z;
  Q_NoAnswer : Z;
  Q_state : Z;
  Q_ReqLease : Z;
  Q_expire : Z;
  Q_ntries : Z;
  Q_id : Z;
  Q_Target : mDNSAddr;
  Q_TargetPort : Z;
  Q_LocalSocket : Z;
  Q_LongLived : bool;
  Q_ExpectUnique : bool;
  Q_ForceMCast : bool;
  Q_ReturnIntermed : bool;
  Q_QuestionCallback : Z
}.
#[export] Instance Question_eta : Eta Question := fun r => mkQuestion
  (Q_next r) (Q_q r) (Q_DelayAnswering r) (Q_LastQTime r) (Q_ThisQInterval r) (Q_ExpectUnicastResp r)
  (Q_LastAnswerPktNum r) (Q_RecentAnswerPkts r) (Q_CurrentAnswers r) (Q_LargeAnswers r)
  (Q_UniqueAnswers r) (Q_FlappingInterface1 r) (Q_FlappingInterface2 r) (Q_AuthInfo r) (Q_DuplicateOf
  r) (Q_NextInDQList r) (Q_DupSuppress r) (Q_SendQNow r) (Q_SendOnAll r) (Q_RequestUnicast r)
  (Q_LastQTxTime r) (Q_CNAMEReferrals r) (Q_qDNSServer r) (Q_unansweredQueries r) (Q_nta r)
  (Q_servAddr r) (Q_servPort r) (Q_tcp r) (Q_NoAnswer r) (Q_state r) (Q_ReqLease r) (Q_expire r)
  (Q_ntries r) (Q_id r) (Q_Target r) (Q_TargetPort r) (Q_LocalSocket r) (Q_LongLived r)
  (Q_ExpectUnique r) (Q_ForceMCast r) (Q_ReturnIntermed r) (Q_QuestionCallback r).
#[export] Instance Q_next_set : Setter Q_next := ltac:(derive_setter).
#[export] Instance Q_q_set : Setter Q_q := ltac:(derive_setter).
#[export] Instance Q_DelayAnswering_set : Setter Q_DelayAnswering := ltac:(derive_setter).
#[export] Instance Q_LastQTime_set : Setter Q_LastQTime := ltac:(derive_setter).
#[export] Instance Q_ThisQInterval_set : Setter Q_ThisQInterval := ltac:(derive_setter).
#[export] Instance Q_ExpectUnicastResp_set : Setter Q_ExpectUnicastResp := ltac:(derive_setter).
#[export] Instance Q_LastAnswerPktNum_set : Setter Q_LastAnswerPktNum := ltac:(derive_setter).
#[export] Instance Q_RecentAnswerPkts_set : Setter Q_RecentAnswerPkts := ltac:(derive_setter).
#[export] Instance Q_CurrentAnswers_set : Setter Q_CurrentAnswers := ltac:(derive_setter).
#[export] Instance Q_LargeAnswers_set : Setter Q_LargeAnswers := ltac:(derive_setter).
#[export] Instance Q_UniqueAnswers_set : Setter Q_UniqueAnswers := ltac:(derive_setter).
#[export] Instance Q_FlappingInterface1_set : Setter Q_FlappingInterface1 := ltac:(derive_setter).
#[export] Instance Q_FlappingInterface2_set : Setter Q_FlappingInterface2 := ltac:(derive_setter).
#[export] Instance Q_AuthInfo_set : Setter Q_AuthInfo := ltac:(derive_setter).
#[export] Instance Q_DuplicateOf_set : Setter Q_DuplicateOf := ltac:(derive_setter).
#[export] Instance Q_NextInDQList_set : Setter Q_NextInDQList := ltac:(derive_setter).
#[export] Instance Q_DupSuppress_set : Setter Q_DupSuppress := ltac:(derive_setter).
#[export] Instance Q_SendQNow_set : Setter Q_SendQNow := ltac:(derive_setter).
#[export] Instance Q_SendOnAll_set : Setter Q_SendOnAll := ltac:(derive_setter).
#[export] Instance Q_RequestUnicast_set : Setter Q_RequestUnicast := ltac:(derive_setter).
#[export] Instance Q_LastQTxTime_set : Setter Q_LastQTxTime := ltac:(derive_setter).
#[export] Instance Q_CNAMEReferrals_set : Setter Q_CNAMEReferrals := ltac:(derive_setter).
#[export] Instance Q_qDNSServer_set : Setter Q_qDNSServer := ltac:(derive_setter).
#[export] Instance Q_unansweredQueries_set : Setter Q_unansweredQueries := ltac:(derive_setter).
#[export] Instance Q_nta_set : Setter Q_nta := ltac:(derive_setter).
#[export] Instance Q_servAddr_set : Setter Q_servAddr := ltac:(derive_setter).
#[export] Instance Q_servPort_set : Setter Q_servPort := ltac:(derive_setter).
#[export] Instance Q_tcp_set : Setter Q_tcp := ltac:(derive_setter).
#[export] Instance Q_NoAnswer_set : Setter Q_NoAnswer := ltac:(derive_setter).
#[export] Instance Q_state_set : Setter Q_state := ltac:(derive_setter).
#[export] Instance Q_ReqLease_set : Setter Q_ReqLease := ltac:(derive_setter).
#[export] Instance Q_expire_set : Setter Q_expire := ltac:(derive_setter).
#[export] Instance Q_ntries_set : Setter Q_ntries := ltac:(derive_setter).
#[export] Instance Q_id_set : Setter Q_id := ltac:(derive_setter).
#[export] Instance Q_Target_set : Setter Q_Target := ltac:(derive_setter).
#[export] Instance Q_TargetPort_set : Setter Q_TargetPort := ltac:(derive_setter).
#[export] Instance Q_LocalSocket_set : Setter Q_LocalSocket := ltac:(derive_setter).
#[export] Instance Q_LongLived_set : Setter Q_LongLived := ltac:(derive_setter).
#[export] Instance Q_ExpectUnique_set : Setter Q_ExpectUnique := ltac:(derive_setter).
#[export] Instance Q_ForceMCast_set : Setter Q_ForceMCast := ltac:(derive_setter).
#[export] Instance Q_ReturnIntermed_set : Setter Q_ReturnIntermed := ltac:(derive_setter).
#[export] Instance Q_QuestionCallback_set : Setter Q_QuestionCallback := ltac:(derive_setter).

(** ** The cache *)
(** A [CacheRecord **]: the head of a group's list or a link of it. *)
Inductive rr_loc := Members (g : Z) | NextOf (r : Z).
(** A [CacheGroup **]: a slot of the hash table or a link of its list. *)
Inductive cg_loc := Slot (i : Z) | NextGroup (g : Z).
(** A [DNSQuestion **]. *)
Inductive q_loc := Questions | LocalOnlyQuestions | NextQuestion (q : Z).

Record CacheRecord := mkCacheRecord {
  cr_next : Z;
  cr_resrec : ResourceRecord;
  cr_group : Z;  (* [resrec.name] is the name in this CacheGroup; 0: in the record's own storage *)
  cr_external : bool;  (* [resrec.rdata] is a block of its own, not [rdatastorage] *)
  cr_NextInKAList : Z;
  cr_TimeRcvd : Z;
  cr_DelayDelivery : Z;
  cr_NextRequiredQuery : Z;
  cr_LastUsed : Z;
  cr_CRActiveQuestion : Z;
  cr_UnansweredQueries : Z;
  cr_LastUnansweredTime : Z;
  cr_MPUnansweredQ : Z;
  cr_MPLastUnansweredQT : Z;
  cr_MPUnansweredKA : Z;
  cr_MPExpectingKA : bool;
  cr_NextInCFList : Z
}.
#[export] Instance CacheRecord_eta : Eta CacheRecord := fun r => mkCacheRecord
  (cr_next r) (cr_resrec r) (cr_group r) (cr_external r) (cr_NextInKAList r) (cr_TimeRcvd r)
  (cr_DelayDelivery r) (cr_NextRequiredQuery r) (cr_LastUsed r) (cr_CRActiveQuestion r)
  (cr_UnansweredQueries r) (cr_LastUnansweredTime r) (cr_MPUnansweredQ r) (cr_MPLastUnansweredQT r)
  (cr_MPUnansweredKA r) (cr_MPExpectingKA r) (cr_NextInCFList r).
#[export] Instance cr_next_set : Setter cr_next := ltac:(derive_setter).
#[export] Instance cr_resrec_set : Setter cr_resrec := ltac:(derive_setter).
#[export] Instance cr_group_set : Setter cr_group := ltac:(derive_setter).
#[export] Instance cr_external_set : Setter cr_external := ltac:(derive_setter).
#[export] Instance cr_NextInKAList_set : Setter cr_NextInKAList := ltac:(derive_setter).
#[export] Instance cr_TimeRcvd_set : Setter cr_TimeRcvd := ltac:(derive_setter).
#[export] Instance cr_DelayDelivery_set : Setter cr_DelayDelivery := ltac:(derive_setter).
#[export] Instance cr_NextRequiredQuery_set : Setter cr_NextRequiredQuery := ltac:(derive_setter).
#[export] Instance cr_LastUsed_set : Setter cr_LastUsed := ltac:(derive_setter).
#[export] Instance cr_CRActiveQuestion_set : Setter cr_CRActiveQuestion := ltac:(derive_setter).
#[export] Instance cr_UnansweredQueries_set : Setter cr_UnansweredQueries := ltac:(derive_setter).
#[export] Instance cr_LastUnansweredTime_set : Setter cr_LastUnansweredTime := ltac:(derive_setter).
#[export] Instance cr_MPUnansweredQ_set : Setter cr_MPUnansweredQ := ltac:(derive_setter).
#[export] Instance cr_MPLastUnansweredQT_set : Setter cr_MPLastUnansweredQT := ltac:(derive_setter).
#[export] Instance cr_MPUnansweredKA_set : Setter cr_MPUnansweredKA := ltac:(derive_setter).
#[export] Instance cr_MPExpectingKA_set : Setter cr_MPExpectingKA := ltac:(derive_setter).
#[export] Instance cr_NextInCFList_set : Setter cr_NextInCFList := ltac:(derive_setter).

Record CacheGroup := mkCacheGroup {
  cg_next : Z;
  cg_namehash : Z;
  cg_members : Z;
  cg_rrcache_tail : rr_loc;
  cg_name : list Z;  (* the memory [name] points to *)
  cg_external : bool  (* [name] is a block of its own, not [namestorage] *)
}.
#[export] Instance CacheGroup_eta : Eta CacheGroup := fun r => mkCacheGroup
  (cg_next r) (cg_namehash r) (cg_members r) (cg_rrcache_tail r) (cg_name r) (cg_external r).
#[export] Instance cg_next_set : Setter cg_next := ltac:(derive_setter).
#[export] Instance cg_namehash_set : Setter cg_namehash := ltac:(derive_setter).
#[export] Instance cg_members_set : Setter cg_members := ltac:(derive_setter).
#[export] Instance cg_rrcache_tail_set : Setter cg_rrcache_tail := ltac:(derive_setter).
#[export] Instance cg_name_set : Setter cg_name := ltac:(derive_setter).
#[export] Instance cg_external_set : Setter cg_external := ltac:(derive_setter).

Inductive CacheEntity := EFree (next : Z) | EZero | EGroup (cg : CacheGroup) | ERecord (cr : CacheRecord).

Definition zero_resrec : ResourceRecord := mkResourceRecord 0 0 [] 0 0 0 0 0 0 0 0 [].
Definition zero_record : CacheRecord := mkCacheRecord 0 zero_resrec 0 false 0 0 0 0 0 0 0 0 0 0 0 false 0.
Definition zero_group : CacheGroup := mkCacheGroup 0 0 0 (Members 0) [] false.

(** ** The state *)
Definition QC_rmv : Z := 0.
Definition QC_add : Z := 1.
Definition QC_addnocache : Z := 2.

Record DomainAuthInfo := mkDomainAuthInfo {
  dai_ptr : Z;
  dai_deltime : Z;
  dai_domain : list Z;
  dai_unregistered : bool  (* [AutoTunnelUnregistered] *)
}.
Record callback := mkCallback { call_question : Z; call_record : ResourceRecord; call_add : Z }.

(** Reports of inconsistencies, by the function that makes them. *)
Inductive message :=
| CheckCacheExpiration_locked | GetCacheEntity_locked | AnswerNewQuestion_locked
| GetCacheEntity_count | ReleaseCacheGroup_tail | GetCacheGroup_have | GetCacheGroup_lost | GetCacheGroup_memory
| CreateNewCacheEntry_inline | CreateNewCacheEntry_external
| CacheRecordAdd_current | CacheRecordDeferredAdd_current | NoCacheAnswer_current | CacheRecordRmv_current
| AnswerNewQuestion_current | AnswerLocalQuestions_current | AnswerNewLocalOnlyQuestion_current | CacheRecordRmv_zero | AnswerNewQuestion_expired
| StartQuery_active | StartQuery_invalid | StopQuery_inactive
| Lock_failure | Lock_timenow | Time_backwards | Lock_not_held | Rec_in_use.

Record mDNS := mkmDNS {
  m_busy : Z;
  m_reentrancy : Z;
  m_lock_rrcache : Z;
  m_timenow_adjust : Z;
  m_timenow : Z;
  m_timenow_last : Z;
  m_NextScheduledEvent : Z;
  m_SuppressSending : Z;
  m_NextCacheCheck : Z;
  m_NextScheduledQuery : Z;
  m_NextScheduledProbe : Z;
  m_NextScheduledResponse : Z;
  m_RandomQueryDelay : Z;
  m_RandomReconfirmDelay : Z;
  m_PktNum : Z;
  m_SleepState : bool;
  m_NewLocalRecordReady : bool;  (* [NewLocalRecords && LocalRecordReady(NewLocalRecords)] *)
  m_PlatformStatus : Z;
  m_Questions : Z;
  m_NewQuestions : Z;
  m_CurrentQuestion : Z;
  m_LocalOnlyQuestions : Z;
  m_NewLocalOnlyQuestions : Z;
  m_rrcache_size : Z;
  m_rrcache_totalused : Z;
  m_rrcache_active : Z;
  m_rrcache_report : Z;
  m_rrcache_free : Z;
  m_rrcache_hash : list Z;
  m_SuppressStdPort53Queries : Z;
  m_AuthInfoList : list DomainAuthInfo;
  m_ResourceRecords : list ResourceRecord;  (* the host's own records, up to [NewLocalRecords] *)
  m_rec : CacheRecord;
  m_ents : gmap Z CacheEntity;  (* memory of the cache entities *)
  m_qs : gmap Z Question;  (* memory of the clients' questions *)
  m_blocks : Z;  (* number of live blocks of [mDNSPlatformMemAllocate] *)
  m_seed : Z;  (* [seed] of [mDNSRandom] *)
  m_calls : list callback;  (* calls of question callbacks, latest first *)
  m_log : list message;  (* internal errors reported with [LogMsg], latest first *)
  m_NewLocalRecords : list ResourceRecord;  (* the host's own records from [NewLocalRecords] on *)
  m_HostInterfaces : list NetworkInterfaceInfo
}.
#[export] Instance mDNS_eta : Eta mDNS := fun r => mkmDNS
  (m_busy r) (m_reentrancy r) (m_lock_rrcache r) (m_timenow_adjust r) (m_timenow r) (m_timenow_last r)
  (m_NextScheduledEvent r) (m_SuppressSending r) (m_NextCacheCheck r) (m_NextScheduledQuery r)
  (m_NextScheduledProbe r) (m_NextScheduledResponse r) (m_RandomQueryDelay r) (m_RandomReconfirmDelay
  r) (m_PktNum r) (m_SleepState r) (m_NewLocalRecordReady r) (m_PlatformStatus r) (m_Questions r)
  (m_NewQuestions r) (m_CurrentQuestion r) (m_LocalOnlyQuestions r) (m_NewLocalOnlyQuestions r)
  (m_rrcache_size r) (m_rrcache_totalused r) (m_rrcache_active r) (m_rrcache_report r) (m_rrcache_free
  r) (m_rrcache_hash r) (m_SuppressStdPort53Queries r) (m_AuthInfoList r) (m_ResourceRecords r) (m_rec
  r) (m_ents r) (m_qs r) (m_blocks r) (m_seed r) (m_calls r) (m_log r) (m_NewLocalRecords r) (m_HostInterfaces r).
#[export] Instance m_busy_set : Setter m_busy := ltac:(derive_setter).
#[export] Instance m_reentrancy_set : Setter m_reentrancy := ltac:(derive_setter).
#[export] Instance m_lock_rrcache_set : Setter m_lock_rrcache := ltac:(derive_setter).
#[export] Instance m_timenow_adjust_set : Setter m_timenow_adjust := ltac:(derive_setter).
#[export] Instance m_timenow_set : Setter m_timenow := ltac:(derive_setter).
#[export] Instance m_timenow_last_set : Setter m_timenow_last := ltac:(derive_setter).
#[export] Instance m_NextScheduledEvent_set : Setter m_NextScheduledEvent := ltac:(derive_setter).
#[export] Instance m_SuppressSending_set : Setter m_SuppressSending := ltac:(derive_setter).
#[export] Instance m_NextCacheCheck_set : Setter m_NextCacheCheck := ltac:(derive_setter).
#[export] Instance m_NextScheduledQuery_set : Setter m_NextScheduledQuery := ltac:(derive_setter).
#[export] Instance m_NextScheduledProbe_set : Setter m_NextScheduledProbe := ltac:(derive_setter).
#[export] Instance m_NextScheduledResponse_set : Setter m_NextScheduledResponse := ltac:(derive_setter).
#[export] Instance m_RandomQueryDelay_set : Setter m_RandomQueryDelay := ltac:(derive_setter).
#[export] Instance m_RandomReconfirmDelay_set : Setter m_RandomReconfirmDelay := ltac:(derive_setter).
#[export] Instance m_PktNum_set : Setter m_PktNum := ltac:(derive_setter).
#[export] Instance m_SleepState_set : Setter m_SleepState := ltac:(derive_setter).
#[export] Instance m_NewLocalRecordReady_set : Setter m_NewLocalRecordReady := ltac:(derive_setter).
#[export] Instance m_PlatformStatus_set : Setter m_PlatformStatus := ltac:(derive_setter).
#[export] Instance m_Questions_set : Setter m_Questions := ltac:(derive_setter).
#[export] Instance m_NewQuestions_set : Setter m_NewQuestions := ltac:(derive_setter).
#[export] Instance m_CurrentQuestion_set : Setter m_CurrentQuestion := ltac:(derive_setter).
#[export] Instance m_LocalOnlyQuestions_set : Setter m_LocalOnlyQuestions := ltac:(derive_setter).
#[export] Instance m_NewLocalOnlyQuestions_set : Setter m_NewLocalOnlyQuestions := ltac:(derive_setter).
#[export] Instance m_rrcache_size_set : Setter m_rrcache_size := ltac:(derive_setter).
#[export] Instance m_rrcache_totalused_set : Setter m_rrcache_totalused := ltac:(derive_setter).
#[export] Instance m_rrcache_active_set : Setter m_rrcache_active := ltac:(derive_setter).
#[export] Instance m_rrcache_report_set : Setter m_rrcache_report := ltac:(derive_setter).
#[export] Instance m_rrcache_free_set : Setter m_rrcache_free := ltac:(derive_setter).
#[export] Instance m_rrcache_hash_set : Setter m_rrcache_hash := ltac:(derive_setter).
#[export] Instance m_SuppressStdPort53Queries_set : Setter m_SuppressStdPort53Queries := ltac:(derive_setter).
#[export] Instance m_AuthInfoList_set : Setter m_AuthInfoList := ltac:(derive_setter).
#[export] Instance m_ResourceRecords_set : Setter m_ResourceRecords := ltac:(derive_setter).
#[export] Instance m_rec_set : Setter m_rec := ltac:(derive_setter).
#[export] Instance m_ents_set : Setter m_ents := ltac:(derive_setter).
#[export] Instance m_qs_set : Setter m_qs := ltac:(derive_setter).
#[export] Instance m_blocks_set : Setter m_blocks := ltac:(derive_setter).
#[export] Instance m_seed_set : Setter m_seed := ltac:(derive_setter).
#[export] Instance m_calls_set : Setter m_calls := ltac:(derive_setter).
#[export] Instance m_log_set : Setter m_log := ltac:(derive_setter).
#[export] Instance m_NewLocalRecords_set : Setter m_NewLocalRecords := ltac:(derive_setter).
#[export] Instance m_HostInterfaces_set : Setter m_HostInterfaces := ltac:(derive_setter).

Definition CACHE_HASH_SLOTS : Z := 499.
Definition InlineCacheRDSize : Z := 68.
Definition InlineCacheGroupNameSize : Z := 144.
Definition sizeofRDataHeader : Z := 4.
Definition SmallRecordLimit : Z := 1024.
Definition MaxUnansweredQueries : Z := 4.
Definition kDNSRecordTypePacketNegative : Z := 0xF0.
Definition mDNSInterface_Any : Z := 0.
Definition NoAnswer_Normal : Z := 0.
Definition NoAnswer_Fail : Z := 2.
Definition LLQ_InitialRequest : Z := 1.
Definition LLQ_Established : Z := 3.
Definition mStatus_NoError : Z := 0.
Definition mStatus_Waiting : Z := 1.
Definition mStatus_BadReferenceErr : Z := -65541.
Definition mStatus_NoCache : Z := -65546.
Definition mStatus_AlreadyRegistered : Z := -65547.
Definition mStatus_Invalid : Z := -65549.

Definition HashSlot (name : list Z) : outcome Z :=
  let* h := DomainNameHashValue name in Ret (h mod CACHE_HASH_SLOTS).

Definition LogMsg (m : mDNS) (e : message) : mDNS := m <| m_log := e :: m_log m |>.
Definition log_if (b : bool) (e : message) (m : mDNS) : mDNS := if b then LogMsg m e else m.

(** ** The world outside

    The platform layer gives a clock resolution, random numbers and memory;
    the client layer gives the callbacks.  A callback does what clients may
    do from callbacks with the searcher: start and stop questions.  It owns
    the memory of its questions: it fills a question in before it starts it,
    at an address that it does not use, and takes its memory back when the
    question has been stopped. *)
Inductive client_call := StartQuery (p : Z) (q : Question) | StopQuery (p : Z).

Class Platform := {
  one_second : Z;                                   (* [mDNSPlatformOneSecond] *)
  mDNSRandom_ : Z → Z → Z * Z;                      (* seed and maximum to number and seed *)
  mDNSRandomFromFixedSeed_ : Z → Z → Z;
  RawTime : mDNS → Z;                               (* [mDNSPlatformRawTime] *)
  MemAllocate : mDNS → Z → bool;                    (* does an allocation of that size succeed? *)
  MainCallback : option (mDNS → option (Z * Z));    (* [mStatus_GrowCache]: storage and its length *)
  QuestionCallback : Z → ResourceRecord → Z → mDNS → list client_call
}.

(** ** Memory *)
Definition rec_ptr : Z := -1.                       (* [&m->rec.r] *)

Definition entity (m : mDNS) (p : Z) : outcome CacheEntity :=
  match m_ents m !! p with Some e => Ret e | None => Fault Dangling end.
Definition put_entity (m : mDNS) (p : Z) (e : CacheEntity) : mDNS := m <| m_ents := <[p := e]> (m_ents m) |>.

Definition get_group (m : mDNS) (g : Z) : outcome CacheGroup :=
  let* e := entity m g in
  match e with EGroup cg => Ret cg | EZero => Ret zero_group | _ => Fault Dangling end.
Definition set_group (m : mDNS) (g : Z) (f : CacheGroup → CacheGroup) : outcome mDNS :=
  let* cg := get_group m g in Ret (put_entity m g (EGroup (f cg))).

Definition get_rec (m : mDNS) (r : Z) : outcome CacheRecord :=
  if r =? rec_ptr then Ret (m_rec m) else
  let* e := entity m r in
  match e with ERecord cr => Ret cr | EZero => Ret zero_record | _ => Fault Dangling end.
Definition set_rec (m : mDNS) (r : Z) (f : CacheRecord → CacheRecord) : outcome mDNS :=
  let* cr := get_rec m r in
  if r =? rec_ptr then Ret (m <| m_rec := f cr |>) else Ret (put_entity m r (ERecord (f cr))).

Definition get_q (m : mDNS) (p : Z) : outcome Question :=
  match m_qs m !! p with Some q => Ret q | None => Fault Dangling end.
Definition put_q (m : mDNS) (p : Z) (q : Question) : mDNS := m <| m_qs := <[p := q]> (m_qs m) |>.
Definition set_q (m : mDNS) (p : Z) (f : Question → Question) : outcome mDNS :=
  let* q := get_q m p in Ret (put_q m p (f q)).

(** The record a [ResourceRecord *] points to, its name read through the
    group that owns it. *)
Definition resrec_of (m : mDNS) (cr : CacheRecord) : outcome ResourceRecord :=
  if cr_group cr =? 0 then Ret (cr_resrec cr) else
  let* cg := get_group m (cr_group cr) in Ret ((cr_resrec cr) <| rr_name := cg_name cg |>).

(** Pointers to pointers. *)
Definition read_rr (m : mDNS) (l : rr_loc) : outcome Z :=
  match l with
  | Members g => let* cg := get_group m g in Ret (cg_members cg)
  | NextOf r => let* cr := get_rec m r in Ret (cr_next cr)
  end.
Definition write_rr (m : mDNS) (l : rr_loc) (p : Z) : outcome mDNS :=
  match l with
  | Members g => set_group m g (fun cg => cg <| cg_members := p |>)
  | NextOf r => set_rec m r (fun cr => cr <| cr_next := p |>)
  end.
Definition read_cg (m : mDNS) (l : cg_loc) : outcome Z :=
  match l with
  | Slot i => aget (m_rrcache_hash m) i
  | NextGroup g => let* cg := get_group m g in Ret (cg_next cg)
  end.
Definition write_cg (m : mDNS) (l : cg_loc) (p : Z) : outcome mDNS :=
  match l with
  | Slot i => let* h := aset (m_rrcache_hash m) i p in Ret (m <| m_rrcache_hash := h |>)
  | NextGroup g => set_group m g (fun cg => cg <| cg_next := p |>)
  end.
Definition read_q (m : mDNS) (l : q_loc) : outcome Z :=
  match l with
  | Questions => Ret (m_Questions m)
  | LocalOnlyQuestions => Ret (m_LocalOnlyQuestions m)
  | NextQuestion q => let* q := get_q m q in Ret (Q_next q)
  end.
Definition write_q (m : mDNS) (l : q_loc) (p : Z) : outcome mDNS :=
  match l with
  | Questions => Ret (m <| m_Questions := p |>)
  | LocalOnlyQuestions => Ret (m <| m_LocalOnlyQuestions := p |>)
  | NextQuestion q => set_q m q (fun q => q <| Q_next := p |>)
  end.
