(* ===== verification/MDNSCache.v ===== *)
(** The record cache of [mDNS.c]: the times at which records expire and are
    queried again, the lock around mDNSCore, the pool of cache entities and
    the hash table of groups.

    The loops over linked lists take fuel; [list_fuel], one more than the
    number of entities, is enough for every list of a well-formed cache. *)
From S2P Require Import Prelude Bytes DNSTypes DNSName DNSRecord DNSMessage MDNSTypes.

#[export] Instance rr_loc_eq_dec : EqDecision rr_loc.
Proof. solve_decision. Defined.

Definition list_fuel (m : mDNS) : nat := S (size (m_ents m)).
Definition q_fuel (m : mDNS) : nat := S (size (m_qs m)).

Section Cache.
Context `{Platform}.

(** ** Times *)
Definition TicksTTL (cr : CacheRecord) : Z := s32 (s32 (rr_rroriginalttl (cr_resrec cr)) * one_second).
Definition RRExpireTime (cr : CacheRecord) : Z := s32 (cr_TimeRcvd cr + TicksTTL cr).
Definition NonZeroTime (t : Z) : Z := if t =? 0 then 1 else t.

Definition CacheCheckGracePeriod (cr : CacheRecord) : Z :=
  if negb (cr_DelayDelivery cr =? 0) then Z.quot one_second 10 else
  if cr_CRActiveQuestion cr =? 0 then s32 (60 * one_second) else
  if cr_UnansweredQueries cr <? MaxUnansweredQueries then Z.quot (TicksTTL cr) 50 else
  if 10 <? rr_rroriginalttl (cr_resrec cr) then one_second else
  if 0 <? rr_rroriginalttl (cr_resrec cr) then Z.quot one_second 10 else 0.

Definition random (m : mDNS) (max : Z) : mDNS * Z :=
  let '(r, seed) := mDNSRandom_ (m_seed m) max in (m <| m_seed := seed |>, r).

Definition SetNextCacheCheckTime (m : mDNS) (r : Z) : outcome mDNS :=
  let* cr := get_rec m r in
  let cr := cr <| cr_NextRequiredQuery := RRExpireTime cr |> in
  let '(m, cr) :=
    if negb (cr_CRActiveQuestion cr =? 0) && (cr_UnansweredQueries cr <? MaxUnansweredQueries) then
      let cr := cr <| cr_NextRequiredQuery := s32 (cr_NextRequiredQuery cr -
                  Z.quot (TicksTTL cr) 20 * (MaxUnansweredQueries - cr_UnansweredQueries cr)) |> in
      let '(m, x) := random m (u32 (TicksTTL cr) / 50) in
      (m, cr <| cr_NextRequiredQuery := s32 (cr_NextRequiredQuery cr + x) |>)
    else (m, cr) in
  let* m := set_rec m r (fun _ => cr) in
  let due := s32 (cr_NextRequiredQuery cr + CacheCheckGracePeriod cr) in
  let m := if 0 <? s32 (m_NextCacheCheck m - due) then m <| m_NextCacheCheck := due |> else m in
  Ret (if negb (cr_DelayDelivery cr =? 0) && (0 <? s32 (m_NextCacheCheck m - cr_DelayDelivery cr))
       then m <| m_NextCacheCheck := cr_DelayDelivery cr |> else m).

Definition mDNS_Reconfirm_internal (m : mDNS) (r interval : Z) : outcome (mDNS * Z) :=
  let interval := if interval <? u32 (one_second * 5) then u32 (one_second * 5) else interval in
  let interval := if 0x10000000 <? interval then 0x10000000 else interval in
  let* cr := get_rec m r in
  if s32 (u32 (interval * 4) / 3) <? s32 (RRExpireTime cr - m_timenow m) then
    let m := if m_RandomReconfirmDelay m =? 0
             then let '(m, x) := random m 0x3FFFFFFF in m <| m_RandomReconfirmDelay := u32 (1 + x) |> else m in
    let interval := u32 (interval + mDNSRandomFromFixedSeed_ (m_RandomReconfirmDelay m) (interval / 3)) in
    let* m := set_rec m r (fun cr => cr <| cr_TimeRcvd := s32 (m_timenow m - s32 interval * 3) |>
      <| cr_resrec := (cr_resrec cr) <| rr_rroriginalttl := u32 (interval * 4 + one_second - 1) / one_second |> |>) in
    let* m := SetNextCacheCheckTime m r in Ret (m, mStatus_NoError)
  else Ret (m, mStatus_NoError).

Definition mDNS_PurgeCacheResourceRecord (m : mDNS) (r : Z) : outcome mDNS :=
  let* m := set_rec m r (fun cr => cr <| cr_TimeRcvd := s32 (m_timenow m - s32 (one_second * 60)) |>
    <| cr_UnansweredQueries := MaxUnansweredQueries |>
    <| cr_resrec := (cr_resrec cr) <| rr_rroriginalttl := 0 |> |>) in
  SetNextCacheCheckTime m r.

Definition RefreshCacheRecord (m : mDNS) (r ttl : Z) : outcome mDNS :=
  let* m := set_rec m r (fun cr => cr <| cr_TimeRcvd := m_timenow m |>
    <| cr_resrec := (cr_resrec cr) <| rr_rroriginalttl := ttl |> |>
    <| cr_UnansweredQueries := 0 |> <| cr_MPUnansweredQ := 0 |> <| cr_MPUnansweredKA := 0 |>
    <| cr_MPExpectingKA := false |>) in
  SetNextCacheCheckTime m r.

Inductive uDNS_LLQType := uDNS_LLQ_Not | uDNS_LLQ_Ignore | uDNS_LLQ_Entire | uDNS_LLQ_Events.
Definition kLLQ_DefLease : Z := 7200.

Definition GetEffectiveTTL (LLQType : uDNS_LLQType) (ttl : Z) : Z :=
  match LLQType with
  | uDNS_LLQ_Entire => kLLQ_DefLease
  | uDNS_LLQ_Events => if ttl =? 0xFFFFFFFF then 0 else kLLQ_DefLease
  | _ =>
    let ttl := if 0x8000000 <? ttl then 0x8000000 else ttl in
    let ttl := u32 (ttl + (ttl / 4 + 2)) in
    if ttl <? 15 then 15 else ttl
  end.

(** ** Finding groups and records *)
Fixpoint find_group (fuel : nat) (m : mDNS) (g namehash : Z) (name : list Z) : outcome Z :=
  match fuel with
  | O => Fault OutOfFuel
  | S fuel =>
    if g =? 0 then Ret 0 else
    let* cg := get_group m g in
    let* same := if cg_namehash cg =? namehash then SameDomainName (cg_name cg) name else Ret false in
    if (same : bool) then Ret g else find_group fuel m (cg_next cg) namehash name
  end.
Definition CacheGroupForName (m : mDNS) (slot namehash : Z) (name : list Z) : outcome Z :=
  let* g := aget (m_rrcache_hash m) slot in find_group (list_fuel m) m g namehash name.
Definition CacheGroupForRecord (m : mDNS) (slot : Z) (rr : ResourceRecord) : outcome Z :=
  CacheGroupForName m slot (rr_namehash rr) (rr_name rr).

(** [cg ? cg->members : mDNSNULL] *)
Definition members_of (m : mDNS) (g : Z) : outcome Z :=
  if g =? 0 then Ret 0 else let* cg := get_group m g in Ret (cg_members cg).

Fixpoint soonest (fuel : nat) (m : mDNS) (r threshhold delay : Z) : outcome Z :=
  match fuel with
  | O => Fault OutOfFuel
  | S fuel =>
    if r =? 0 then Ret delay else
    let* cr := get_rec m r in
    let delay := if (0 <=? s32 (threshhold - RRExpireTime cr)) && (s32 (delay - RRExpireTime cr) <? 0)
                 then RRExpireTime cr else delay in
    soonest fuel m (cr_next cr) threshhold delay
  end.
Definition CheckForSoonToExpireRecords (m : mDNS) (name : list Z) (namehash slot : Z) : outcome Z :=
  let threshhold := s32 (m_timenow m + one_second) in
  let start := s32 (m_timenow m - 0x10000000) in
  let* cg := CacheGroupForName m slot namehash name in
  let* r := members_of m cg in
  let* delay := soonest (list_fuel m) m r threshhold start in
  Ret (if 0 <? s32 (delay - start) then NonZeroTime delay else 0).

Fixpoint grant_loop (fuel : nat) (m : mDNS) (r q lease : Z) : outcome mDNS :=
  match fuel with
  | O => Fault OutOfFuel
  | S fuel =>
    if r =? 0 then Ret m else
    let* cr := get_rec m r in
    let* m := if cr_CRActiveQuestion cr =? q then RefreshCacheRecord m r lease else Ret m in
    let* cr := get_rec m r in
    grant_loop fuel m (cr_next cr) q lease
  end.
Definition GrantCacheExtensions (m : mDNS) (q lease : Z) : outcome mDNS :=
  let* qq := get_q m q in
  let* slot := HashSlot (q_qname (Q_q qq)) in
  let* cg := CacheGroupForName m slot (q_qnamehash (Q_q qq)) (q_qname (Q_q qq)) in
  let* r := members_of m cg in
  grant_loop (list_fuel m) m r q lease.

Fixpoint find_address (fuel : nat) (m : mDNS) (r : Z) : outcome Z :=
  match fuel with
  | O => Fault OutOfFuel
  | S fuel =>
    if r =? 0 then Ret 0 else
    let* cr := get_rec m r in
    let t := rr_rrtype (cr_resrec cr) in
    if (t =? kDNSType_A) || (t =? kDNSType_AAAA) then Ret r else find_address fuel m (cr_next cr)
  end.
Definition CacheHasAddressTypeForName (m : mDNS) (name : list Z) (namehash : Z) : outcome Z :=
  let* slot := HashSlot name in
  let* cg := CacheGroupForName m slot namehash name in
  let* r := members_of m cg in
  find_address (list_fuel m) m r.

(** ** Reconfirming the records that led to a name *)
Definition kDefaultReconfirmTimeForNoAnswer : Z := u32 (one_second * 5).

(** The body of [FORALL_CACHERECORDS] is [f]: for each record of each group
    of each slot, in order, the next links read after the body. *)
Fixpoint for_members (fuel : nat) (f : mDNS → Z → outcome mDNS) (m : mDNS) (r : Z) : outcome mDNS :=
  match fuel with
  | O => Fault OutOfFuel
  | S fuel =>
    if r =? 0 then Ret m else
    let* m := f m r in
    let* cr := get_rec m r in
    for_members fuel f m (cr_next cr)
  end.
Fixpoint for_groups (fuel : nat) (f : mDNS → Z → outcome mDNS) (m : mDNS) (g : Z) : outcome mDNS :=
  match fuel with
  | O => Fault OutOfFuel
  | S fuel =>
    if g =? 0 then Ret m else
    let* cg := get_group m g in
    let* m := for_members (list_fuel m) f m (cg_members cg) in
    let* cg := get_group m g in
    for_groups fuel f m (cg_next cg)
  end.
Fixpoint for_slots (n : nat) (f : mDNS → Z → outcome mDNS) (m : mDNS) (slot : Z) : outcome mDNS :=
  match n with
  | O => Ret m
  | S n =>
    let* g := aget (m_rrcache_hash m) slot in
    let* m := for_groups (list_fuel m) f m g in
    for_slots n f m (slot + 1)
  end.
Definition FORALL_CACHERECORDS (f : mDNS → Z → outcome mDNS) (m : mDNS) : outcome mDNS :=
  for_slots (Z.to_nat CACHE_HASH_SLOTS) f m 0.

(** [depth] runs from 0 to 5: [more] levels are left below this one. *)
Fixpoint ReconfirmAntecedents (more : nat) (m : mDNS) (name : list Z) (namehash : Z) : outcome mDNS :=
  FORALL_CACHERECORDS (fun m r =>
    let* cr := get_rec m r in
    match GetRRDomainNameTarget (cr_resrec cr) with
    | Some crtarget =>
      let* same := if rr_rdatahash (cr_resrec cr) =? namehash then SameDomainName crtarget name else Ret false in
      if (same : bool) then
        let* '(m, _) := mDNS_Reconfirm_internal m r kDefaultReconfirmTimeForNoAnswer in
        match more with
        | O => Ret m
        | S more =>
          let* cr := get_rec m r in
          let* rr := resrec_of m cr in
          ReconfirmAntecedents more m (rr_name rr) (rr_namehash rr)
        end
      else Ret m
    | None => Ret m
    end) m.

(** ** The lock *)
Definition GetNextScheduledEvent (m : mDNS) : outcome Z :=
  let e := s32 (m_timenow m + 0x78000000) in
  if negb (m_PlatformStatus m =? mStatus_NoError) then Ret e else
  let* delay := if m_NewQuestions m =? 0 then Ret e else
                let* q := get_q m (m_NewQuestions m) in Ret (Q_DelayAnswering q) in
  if negb (m_NewQuestions m =? 0) && (delay =? 0) then Ret (m_timenow m) else
  let e := delay in
  if negb (m_NewLocalOnlyQuestions m =? 0) then Ret (m_timenow m) else
  if m_NewLocalRecordReady m then Ret (m_timenow m) else
  let earlier e t := if 0 <? s32 (e - t) then t else e in
  let e := earlier e (m_NextCacheCheck m) in
  Ret (if m_SleepState m then e else
       if negb (m_SuppressSending m =? 0) then earlier e (m_SuppressSending m) else
       earlier (earlier (earlier e (m_NextScheduledQuery m)) (m_NextScheduledProbe m)) (m_NextScheduledResponse m)).

Definition set_timenow (m : mDNS) : mDNS :=
  let t := s32 (RawTime m + m_timenow_adjust m) in m <| m_timenow := if t =? 0 then 1 else t |>.

Definition mDNS_Lock (m : mDNS) : mDNS :=
  let m := log_if (negb (m_busy m =? m_reentrancy m)) Lock_failure m in
  let m := if m_busy m =? 0 then set_timenow (log_if (negb (m_timenow m =? 0)) Lock_timenow m)
           else if m_timenow m =? 0 then set_timenow (LogMsg m Lock_timenow) else m in
  let back := s32 (m_timenow_last m - m_timenow m) in
  let m := if 0 <? back then
             LogMsg (m <| m_timenow_adjust := s32 (m_timenow_adjust m + back) |> <| m_timenow := m_timenow_last m |>) Time_backwards
           else m in
  m <| m_timenow_last := m_timenow m |> <| m_busy := u32 (m_busy m + 1) |>.

Definition mDNS_Unlock (m : mDNS) : outcome mDNS :=
  let m := m <| m_busy := u32 (m_busy m - 1) |> in
  let* m := if m_busy m =? 0 then
              let* e := GetNextScheduledEvent m in
              let m := m <| m_NextScheduledEvent := e |> in
              Ret ((log_if (m_timenow m =? 0) Lock_timenow m) <| m_timenow := 0 |>)
            else Ret m in
  Ret (log_if (negb (m_busy m =? m_reentrancy m)) Lock_failure m).

Definition mDNS_DropLockBeforeCallback (m : mDNS) : mDNS :=
  let m := m <| m_reentrancy := u32 (m_reentrancy m + 1) |> in
  log_if (negb (m_busy m =? m_reentrancy m)) Lock_failure m.
Definition mDNS_ReclaimLockAfterCallback (m : mDNS) : mDNS :=
  let m := log_if (negb (m_busy m =? m_reentrancy m)) Lock_failure m in
  m <| m_reentrancy := u32 (m_reentrancy m - 1) |>.

(** ** The pool of entities *)
(** [for (i=0; i<numrecords; i++) storage[i].next = &storage[i+1];] *)
Fixpoint link_storage (n : nat) (m : mDNS) (p : Z) : mDNS :=
  match n with O => m | S n => link_storage n (put_entity m p (EFree (p + 1))) (p + 1) end.
Definition mDNS_GrowCache_internal (m : mDNS) (storage numrecords : Z) : mDNS :=
  if negb (storage =? 0) && negb (numrecords =? 0) then
    let m := link_storage (Z.to_nat numrecords) m storage in
    let m := put_entity m (storage + numrecords - 1) (EFree (m_rrcache_free m)) in
    m <| m_rrcache_free := storage |> <| m_rrcache_size := u32 (m_rrcache_size m + numrecords) |>
  else m.
Definition mDNS_GrowCache (m : mDNS) (storage numrecords : Z) : outcome mDNS :=
  mDNS_Unlock (mDNS_GrowCache_internal (mDNS_Lock m) storage numrecords).

Definition ReleaseCacheEntity (m : mDNS) (e : Z) : outcome mDNS :=
  let* _ := entity m e in
  Ret ((put_entity m e (EFree (m_rrcache_free m))) <| m_rrcache_free := e |>
       <| m_rrcache_totalused := u32 (m_rrcache_totalused m - 1) |>).

Definition free_block (b : bool) (m : mDNS) : mDNS := if b then m <| m_blocks := m_blocks m - 1 |> else m.

Definition ReleaseCacheGroup (m : mDNS) (cp : cg_loc) : outcome mDNS :=
  let* g := read_cg m cp in
  let* cg := get_group m g in
  let m := log_if (negb (bool_decide (cg_rrcache_tail cg = Members g))) ReleaseCacheGroup_tail m in
  let m := free_block (cg_external cg) m in   (* [name = mDNSNULL] goes with the entity *)
  let* m := write_cg m cp (cg_next cg) in
  ReleaseCacheEntity m g.

Definition ReleaseCacheRecord (m : mDNS) (r : Z) : outcome mDNS :=
  let* cr := get_rec m r in
  ReleaseCacheEntity (free_block (cr_external cr) m) r.

(** Recycling: cut the records that no active question uses, then the empty
    groups. *)
Fixpoint recycle_records (fuel : nat) (m : mDNS) (rp : rr_loc) : outcome (mDNS * rr_loc) :=
  match fuel with
  | O => Fault OutOfFuel
  | S fuel =>
    let* r := read_rr m rp in
    if r =? 0 then Ret (m, rp) else
    let* cr := get_rec m r in
    if negb (cr_CRActiveQuestion cr =? 0) || negb (cr_NextInCFList cr =? 0) then recycle_records fuel m (NextOf r) else
    let* m := write_rr m rp (cr_next cr) in
    let* m := ReleaseCacheRecord m r in
    recycle_records fuel m rp
  end.
Fixpoint recycle_groups (fuel : nat) (m : mDNS) (PreserveCG : Z) (cp : cg_loc) : outcome mDNS :=
  match fuel with
  | O => Fault OutOfFuel
  | S fuel =>
    let* g := read_cg m cp in
    if g =? 0 then Ret m else
    let* '(m, rp) := recycle_records (list_fuel m) m (Members g) in
    let* m := set_group m g (fun cg => cg <| cg_rrcache_tail := rp |>) in
    let* cg := get_group m g in
    if negb (cg_members cg =? 0) || (g =? PreserveCG) then recycle_groups fuel m PreserveCG (NextGroup g) else
    let* m := ReleaseCacheGroup m cp in
    recycle_groups fuel m PreserveCG cp
  end.
Fixpoint recycle_slots (n : nat) (m : mDNS) (PreserveCG slot : Z) : outcome mDNS :=
  match n with
  | O => Ret m
  | S n => let* m := recycle_groups (list_fuel m) m PreserveCG (Slot slot) in recycle_slots n m PreserveCG (slot + 1)
  end.

(** Ask the client layer for more memory. *)
Definition grow (m : mDNS) : outcome mDNS :=
  match MainCallback with
  | Some cb =>
    if negb (m_rrcache_free m =? 0) then Ret m else
    let m := log_if (negb (m_rrcache_totalused m =? m_rrcache_size m)) GetCacheEntity_count m in
    if (3000 <? m_rrcache_size m) && (m_rrcache_active m <? m_rrcache_size m / 32) then Ret m else
    let m := mDNS_DropLockBeforeCallback m in
    let* m := match cb m with Some (storage, n) => mDNS_GrowCache m storage n | None => Ret m end in
    Ret (mDNS_ReclaimLockAfterCallback m)
  | None => Ret m
  end.

Definition take_free (m : mDNS) : outcome (mDNS * Z) :=
  let e := m_rrcache_free m in
  if e =? 0 then Ret (m, 0) else
  let* c := entity m e in
  match c with
  | EFree next =>
    let m := m <| m_rrcache_free := next |> <| m_rrcache_totalused := u32 (m_rrcache_totalused m + 1) |> in
    let m := if m_rrcache_report m <=? m_rrcache_totalused m then
               m <| m_rrcache_report := u32 (m_rrcache_report m + (if m_rrcache_report m <? 100 then 10 else 100)) |>
             else m in
    Ret (put_entity m e EZero, e)
  | _ => Fault Dangling
  end.

Definition GetCacheEntity (m : mDNS) (PreserveCG : Z) : outcome (mDNS * Z) :=
  if negb (m_lock_rrcache m =? 0) then Ret (LogMsg m GetCacheEntity_locked, 0) else
  let m := m <| m_lock_rrcache := 1 |> in
  let* m := grow m in
  let* m := if m_rrcache_free m =? 0 then recycle_slots (Z.to_nat CACHE_HASH_SLOTS) m PreserveCG 0 else Ret m in
  let* '(m, e) := take_free m in
  Ret (m <| m_lock_rrcache := 0 |>, e).

Definition GetCacheRecord (m : mDNS) (cg RDLength : Z) : outcome (mDNS * Z) :=
  let* '(m, r) := GetCacheEntity m cg in
  if r =? 0 then Ret (m, 0) else
  let* m := set_rec m r (fun cr => cr <| cr_external := false |>) in
  if InlineCacheRDSize <? RDLength then
    if MemAllocate m (sizeofRDataHeader + RDLength) then
      let* m := set_rec (m <| m_blocks := m_blocks m + 1 |>) r (fun cr => cr <| cr_external := true |>
        <| cr_resrec := (cr_resrec cr) <| rr_MaxRDLength := RDLength |> <| rr_rdlength := RDLength |> |>) in
      Ret (m, r)
    else let* m := ReleaseCacheEntity m r in Ret (m, 0)
  else Ret (m, r).

Definition GetCacheGroup (m : mDNS) (slot : Z) (rr : ResourceRecord) : outcome (mDNS * Z) :=
  let* namelen := DomainNameLength (rr_name rr) in
  let* '(m, g) := GetCacheEntity m 0 in
  if g =? 0 then Ret (LogMsg m GetCacheGroup_memory, 0) else
  let* head := aget (m_rrcache_hash m) slot in
  let* m := set_group m g (fun cg => cg <| cg_next := head |> <| cg_namehash := rr_namehash rr |> <| cg_members := 0 |>
    <| cg_rrcache_tail := Members g |> <| cg_external := false |>
    <| cg_name := replicate (Z.to_nat InlineCacheGroupNameSize) 0 |>) in
  if (InlineCacheGroupNameSize <? namelen) && negb (MemAllocate m namelen) then
    let* m := ReleaseCacheEntity (LogMsg m GetCacheGroup_memory) g in Ret (m, 0)
  else
    let* m := if InlineCacheGroupNameSize <? namelen
              then set_group (m <| m_blocks := m_blocks m + 1 |>) g (fun cg =>
                     cg <| cg_external := true |> <| cg_name := replicate (Z.to_nat namelen) 0 |>)
              else Ret m in
    let* cg := get_group m g in
    let* name := AssignDomainName (cg_name cg) (rr_name rr) in
    let* m := set_group m g (fun cg => cg <| cg_name := name |>) in
    let* old := CacheGroupForRecord m slot rr in
    let m := log_if (negb (old =? 0)) GetCacheGroup_have m in
    let* h := aset (m_rrcache_hash m) slot g in
    let m := m <| m_rrcache_hash := h |> in
    let* new := CacheGroupForRecord m slot rr in
    Ret (log_if (negb (new =? g)) GetCacheGroup_lost m, g).

(** ** Starting up *)
(** The fields of the searcher, up to the call of [mDNSPlatformInit]; [status]
    is what [mDNSPlatformTimeInit] returns. *)
Definition mDNS_Init (m : mDNS) (rrcachestorage rrcachesize status : Z) : mDNS * Z :=
  let rrcachesize := if rrcachestorage =? 0 then 0 else rrcachesize in
  let m := m <| m_PlatformStatus := mStatus_Waiting |>
    <| m_rec := (m_rec m) <| cr_resrec := (cr_resrec (m_rec m)) <| rr_RecordType := 0 |> |> |>
    <| m_busy := 0 |> <| m_reentrancy := 0 |> <| m_lock_rrcache := 0 |> in
  if negb (status =? mStatus_NoError) then (m, status) else
  let '(m, x) := random m 0xFFFFFFFF in
  let m := m <| m_timenow_adjust := s32 x |> in
  let timenow := s32 (RawTime m + m_timenow_adjust m) in
  let later := s32 (timenow + 0x78000000) in
  let m := m <| m_timenow := 0 |> <| m_timenow_last := timenow |> <| m_NextScheduledEvent := timenow |>
    <| m_SuppressSending := timenow |> <| m_NextCacheCheck := later |> <| m_NextScheduledQuery := later |>
    <| m_NextScheduledProbe := later |> <| m_NextScheduledResponse := later |> <| m_RandomQueryDelay := 0 |>
    <| m_RandomReconfirmDelay := 0 |> <| m_PktNum := 0 |> <| m_SleepState := false |>
    <| m_Questions := 0 |> <| m_NewQuestions := 0 |> <| m_CurrentQuestion := 0 |> <| m_LocalOnlyQuestions := 0 |>
    <| m_NewLocalOnlyQuestions := 0 |> <| m_rrcache_size := 0 |> <| m_rrcache_totalused := 0 |> <| m_rrcache_active := 0 |>
    <| m_rrcache_report := 10 |> <| m_rrcache_free := 0 |>
    <| m_rrcache_hash := replicate (Z.to_nat CACHE_HASH_SLOTS) 0 |> in
  let m := mDNS_GrowCache_internal m rrcachestorage rrcachesize in
  (m <| m_ResourceRecords := [] |> <| m_NewLocalRecordReady := false |> <| m_NewLocalRecords := [] |> <| m_HostInterfaces := [] |>, mStatus_NoError).
End Cache.
