(* ===== verification/MDNSQuestion.v ===== *)
(** Questions: starting and stopping them, duplicates, and what a client
    callback can do ([mDNS.c], "Searcher Functions" and "General Utility
    Functions"). *)
From S2P Require Import Prelude Bytes DNSTypes DNSName DNSRecord DNSMessage MDNSTypes MDNSCache.

(** ** Duplicate suppression of queries *)
Section DupSuppress.
Implicit Types (ds : list DupSuppressInfo).

Definition ExpireDupSuppressInfo ds (time : Z) : list DupSuppressInfo :=
  map (fun d => if s32 (ds_Time d - time) <? 0 then mkDupSuppressInfo (ds_Time d) 0 (ds_Type d) else d) ds.

Definition ExpireDupSuppressInfoOnInterface ds (time InterfaceID : Z) : list DupSuppressInfo :=
  map (fun d => if (ds_InterfaceID d =? InterfaceID) && (s32 (ds_Time d - time) <? 0)
                then mkDupSuppressInfo (ds_Time d) 0 (ds_Type d) else d) ds.

Fixpoint suppress_loop ds (InterfaceID : Z) (v4 v6 : bool) : bool :=
  match ds with
  | [] => false
  | d :: ds =>
    if ds_InterfaceID d =? InterfaceID then
      let v4' := if ds_Type d =? mDNSAddrType_IPv4 then true else v4 in
      let v6' := if ds_Type d =? mDNSAddrType_IPv4 then v6 else if ds_Type d =? mDNSAddrType_IPv6 then true else v6 in
      if v4' && v6' then true else suppress_loop ds InterfaceID v4' v6'
    else suppress_loop ds InterfaceID v4 v6
  end.
Definition SuppressOnThisInterface ds (IPv4Available IPv6Available : bool) (InterfaceID : Z) : bool :=
  suppress_loop ds InterfaceID (negb IPv4Available) (negb IPv6Available).

(** The slot with this interface and type, from slot [i] on. *)
Fixpoint find_dup ds (i InterfaceID Type_ : Z) : option Z :=
  match ds with
  | [] => None
  | d :: ds => if (ds_InterfaceID d =? InterfaceID) && (ds_Type d =? Type_) then Some i else find_dup ds (i + 1) InterfaceID Type_
  end.
(** [for (j=1; j<DupSuppressInfoSize && ds[i].InterfaceID; j++) ...] *)
Fixpoint reuse_loop (n : nat) ds (i j : Z) : outcome Z :=
  match n with
  | O => Ret i
  | S n =>
    let* di := aget ds i in
    if ds_InterfaceID di =? 0 then Ret i else
    let* dj := aget ds j in
    reuse_loop n ds (if (ds_InterfaceID dj =? 0) || (s32 (ds_Time dj - ds_Time di) <? 0) then j else i) (j + 1)
  end.
Definition RecordDupSuppressInfo ds (Time InterfaceID Type_ : Z) : outcome (list DupSuppressInfo * Z) :=
  let* i := match find_dup ds 0 InterfaceID Type_ with Some i => Ret i | None => reuse_loop (DupSuppressInfoSize - 1) ds 0 1 end in
  let* ds := aset ds i (mkDupSuppressInfo Time InterfaceID Type_) in
  Ret (ds, i).
End DupSuppress.

(** ** Targets *)
Definition mDNSSameAddress (a b : mDNSAddr) : bool :=
  if addr_type a =? addr_type b then
    if addr_type a =? mDNSAddrType_None then true else
    if addr_type a =? mDNSAddrType_IPv4 then bool_decide (take 4 (addr_ip a) = take 4 (addr_ip b)) else
    if addr_type a =? mDNSAddrType_IPv6 then bool_decide (addr_ip a = addr_ip b) else false
  else false.
Definition SameQTarget (a b : Question) : bool :=
  (addr_type (Q_Target a) =? mDNSAddrType_None) && (addr_type (Q_Target b) =? mDNSAddrType_None) ||
  mDNSSameAddress (Q_Target a) (Q_Target b) && (Q_TargetPort a =? Q_TargetPort b).
Definition UnicastDNSPort : Z := 53.
Definition MulticastDNSPort : Z := 5353.
Definition ValidQuestionTarget (q : Question) : bool :=
  ((addr_type (Q_Target q) =? mDNSAddrType_IPv4) || (addr_type (Q_Target q) =? mDNSAddrType_IPv6)) &&
  ((Q_TargetPort q =? UnicastDNSPort) || (Q_TargetPort q =? MulticastDNSPort)).

Definition ActiveQuestion (q : Question) : bool := (0 <? Q_ThisQInterval q) && (Q_DuplicateOf q =? 0).
Definition QuestionIntervalStep : Z := 3.

(** ** Keys *)
Fixpoint find_key (l : list DomainAuthInfo) (n : list Z) : outcome Z :=
  match l with
  | [] => Ret 0
  | d :: l => let* same := SameDomainName (dai_domain d) n in if (same : bool) then Ret (dai_ptr d) else find_key l n
  end.
Fixpoint key_loop (fuel : nat) (l : list DomainAuthInfo) (n : list Z) : outcome Z :=
  match fuel with
  | O => Fault OutOfFuel
  | S fuel =>
    let* c := aget n 0 in
    if c =? 0 then Ret 0 else
    let* k := find_key l n in
    if negb (k =? 0) then Ret k else key_loop fuel l (ptr_add n (1 + c))
  end.
Definition GetAuthInfoForName_direct (m : mDNS) (name : list Z) : outcome Z :=
  key_loop (S (length name)) (m_AuthInfoList m) name.

(** Questions that use the key [info] get another one. *)
Fixpoint rekey (fuel : nat) (m : mDNS) (q info : Z) : outcome mDNS :=
  match fuel with
  | O => Fault OutOfFuel
  | S fuel =>
    if q =? 0 then Ret m else
    let* qq := get_q m q in
    let* m := if Q_AuthInfo qq =? info then
                let* k := GetAuthInfoForName_direct m (q_qname (Q_q qq)) in set_q m q (fun q => q <| Q_AuthInfo := k |>)
              else Ret m in
    rekey fuel m (Q_next qq) info
  end.
Definition dead_key (m : mDNS) (d : DomainAuthInfo) : bool :=
  negb (dai_deltime d =? 0) && (0 <=? s32 (m_timenow m - dai_deltime d)) && dai_unregistered d.
(** The list is [kept ++ ks], the walk stands between the two. *)
Fixpoint purge_keys (kept ks : list DomainAuthInfo) (m : mDNS) : outcome mDNS :=
  match ks with
  | [] => Ret m
  | d :: ks =>
    if dead_key m d then
      let* m := rekey (q_fuel m) (m <| m_AuthInfoList := kept ++ ks |>) (m_Questions m) (dai_ptr d) in purge_keys kept ks m
    else purge_keys (kept ++ [d]) ks m
  end.
Definition GetAuthInfoForName_internal (m : mDNS) (name : list Z) : outcome (mDNS * Z) :=
  let m := log_if (negb (m_busy m =? u32 (m_reentrancy m + 1))) Lock_not_held m in
  let* m := purge_keys [] (m_AuthInfoList m) m in
  let* k := GetAuthInfoForName_direct m name in Ret (m, k).
Definition GetZoneData_QuestionCallback : Z := 1.
Definition GetAuthInfoForQuestion (m : mDNS) (q : Question) : outcome (mDNS * Z) :=
  if Q_QuestionCallback q =? GetZoneData_QuestionCallback then Ret (m, 0) else
  if q_qtype (Q_q q) =? kDNSType_SOA then Ret (m, 0) else
  GetAuthInfoForName_internal m (q_qname (Q_q q)).

(** ** Duplicate questions *)
Definition duplicates (q question : Question) : outcome bool :=
  if (q_InterfaceID (Q_q q) =? q_InterfaceID (Q_q question)) && SameQTarget q question &&
     (q_qtype (Q_q q) =? q_qtype (Q_q question)) && (q_qclass (Q_q q) =? q_qclass (Q_q question)) &&
     Bool.eqb (Q_LongLived q) (Q_LongLived question) &&
     ((Q_AuthInfo q =? 0) || negb (Q_AuthInfo question =? 0)) &&
     (q_qnamehash (Q_q q) =? q_qnamehash (Q_q question))
  then SameDomainName (q_qname (Q_q q)) (q_qname (Q_q question)) else Ret false.

Fixpoint find_duplicate (fuel : nat) (m : mDNS) (q question : Z) : outcome Z :=
  match fuel with
  | O => Fault OutOfFuel
  | S fuel =>
    if (q =? 0) || (q =? question) then Ret 0 else
    let* qq := get_q m q in
    let* qn := get_q m question in
    let* same := duplicates qq qn in
    if (same : bool) then Ret q else find_duplicate fuel m (Q_next qq) question
  end.
Definition FindDuplicateQuestion (m : mDNS) (question : Z) : outcome Z :=
  find_duplicate (q_fuel m) m (m_Questions m) question.

Section Questions.
Context `{Platform}.

Definition InitialQuestionInterval : Z := Z.quot (one_second + QuestionIntervalStep - 1) QuestionIntervalStep.

Definition SetNextQueryTime (m : mDNS) (p : Z) : outcome mDNS :=
  let m := log_if (negb (m_busy m =? u32 (m_reentrancy m + 1))) Lock_not_held m in
  let* q := get_q m p in
  if ActiveQuestion q then
    let sendtime := s32 (Q_LastQTime q + Q_ThisQInterval q) in
    let sendtime := if negb (q_TargetQID (Q_q q) =? 0) && negb (Q_LongLived q) && negb (m_SuppressStdPort53Queries m =? 0) &&
                       (s32 (sendtime - m_SuppressStdPort53Queries m) <? 0)
                    then m_SuppressStdPort53Queries m else sendtime in
    Ret (if 0 <? s32 (m_NextScheduledQuery m - sendtime) then m <| m_NextScheduledQuery := sendtime |> else m)
  else Ret m.

(** What a question takes over from the one it duplicated. *)
Definition inherit (q question : Question) : Question :=
  q <| Q_LastQTime := Q_LastQTime question |> <| Q_ThisQInterval := Q_ThisQInterval question |>
    <| Q_ExpectUnicastResp := Q_ExpectUnicastResp question |> <| Q_LastAnswerPktNum := Q_LastAnswerPktNum question |>
    <| Q_RecentAnswerPkts := Q_RecentAnswerPkts question |> <| Q_RequestUnicast := Q_RequestUnicast question |>
    <| Q_LastQTxTime := Q_LastQTxTime question |> <| Q_CNAMEReferrals := Q_CNAMEReferrals question |>
    <| Q_nta := Q_nta question |> <| Q_servAddr := Q_servAddr question |> <| Q_servPort := Q_servPort question |>
    <| Q_qDNSServer := Q_qDNSServer question |> <| Q_unansweredQueries := Q_unansweredQueries question |>
    <| Q_q := (Q_q q) <| q_TargetQID := q_TargetQID (Q_q question) |> |> <| Q_LocalSocket := Q_LocalSocket question |>
    <| Q_state := Q_state question |> <| Q_ReqLease := Q_ReqLease question |> <| Q_expire := Q_expire question |>
    <| Q_ntries := Q_ntries question |> <| Q_id := Q_id question |>.

Fixpoint update_duplicates (fuel : nat) (m : mDNS) (p question : Z) : outcome mDNS :=
  match fuel with
  | O => Fault OutOfFuel
  | S fuel =>
    if p =? 0 then Ret m else
    let* q := get_q m p in
    let* m :=
      if Q_DuplicateOf q =? question then
        let* d := FindDuplicateQuestion m p in
        let* m := set_q m p (fun q => q <| Q_DuplicateOf := d |>) in
        if d =? 0 then
          let* qn := get_q m question in
          let* m := set_q m p (fun q => inherit q qn) in
          let* m := set_q m question (fun q => q <| Q_LocalSocket := 0 |> <| Q_nta := 0 |>) in
          if negb (Q_nta qn =? 0) then Fault WideArea else   (* [q->nta->ZoneDataContext = q] *)
          let* m := set_q m question (fun q => if Q_state q =? LLQ_Established then q <| Q_state := 0 |> else q) in
          SetNextQueryTime m p
        else Ret m
      else Ret m in
    let* q := get_q m p in
    update_duplicates fuel m (Q_next q) question
  end.
Definition UpdateQuestionDuplicates (m : mDNS) (question : Z) : outcome mDNS :=
  update_duplicates (q_fuel m) m (m_Questions m) question.

(** [while ( *q && *q != question) q=&( *q)->next;] *)
Fixpoint find_link (fuel : nat) (m : mDNS) (l : q_loc) (question : Z) : outcome q_loc :=
  match fuel with
  | O => Fault OutOfFuel
  | S fuel =>
    let* p := read_q m l in
    if (p =? 0) || (p =? question) then Ret l else find_link fuel m (NextQuestion p) question
  end.
Definition question_list (q : Question) : q_loc :=
  if q_InterfaceID (Q_q q) =? mDNSInterface_LocalOnly then LocalOnlyQuestions else Questions.

(** ** Starting a question *)
Definition clear_target (q : Question) : Question :=
  let q := if negb (addr_type (Q_Target q) =? 0) && negb (ValidQuestionTarget q)
           then q <| Q_Target := (Q_Target q) <| addr_type := mDNSAddrType_None |> |> else q in
  let q := if addr_type (Q_Target q) =? 0 then q <| Q_TargetPort := 0 |> <| Q_q := (Q_q q) <| q_TargetQID := 0 |> |> else q in
  q <| Q_q := (Q_q q) <| q_TargetQID := 0 |> |>.

Definition start_fields (m : mDNS) (hash delay : Z) (q : Question) : Question :=
  q <| Q_next := 0 |> <| Q_q := (Q_q q) <| q_qnamehash := hash |> |> <| Q_DelayAnswering := delay |>
    <| Q_LastQTime := m_timenow m |> <| Q_ThisQInterval := InitialQuestionInterval |> <| Q_ExpectUnicastResp := 0 |>
    <| Q_LastAnswerPktNum := m_PktNum m |> <| Q_RecentAnswerPkts := 0 |> <| Q_CurrentAnswers := 0 |>
    <| Q_LargeAnswers := 0 |> <| Q_UniqueAnswers := 0 |> <| Q_FlappingInterface1 := 0 |> <| Q_FlappingInterface2 := 0 |>.
Definition start_fields2 (m : mDNS) (q : Question) : Question :=
  q <| Q_NextInDQList := 0 |> <| Q_SendQNow := 0 |> <| Q_SendOnAll := false |> <| Q_RequestUnicast := 0 |>
    <| Q_LastQTxTime := m_timenow m |> <| Q_CNAMEReferrals := 0 |> <| Q_qDNSServer := 0 |> <| Q_unansweredQueries := 0 |>
    <| Q_nta := 0 |> <| Q_servAddr := 0 |> <| Q_servPort := 0 |> <| Q_tcp := 0 |> <| Q_NoAnswer := NoAnswer_Normal |>
    <| Q_state := LLQ_InitialRequest |> <| Q_ReqLease := 0 |> <| Q_expire := 0 |> <| Q_ntries := 0 |> <| Q_id := 0 |>
    <| Q_LocalSocket := 0 |>.
Definition clear_dups (q : Question) : Question :=
  q <| Q_DupSuppress := map (fun d => mkDupSuppressInfo (ds_Time d) 0 (ds_Type d)) (Q_DupSuppress q) |>.

Definition mDNS_StartQuery_internal (m : mDNS) (p : Z) : outcome (mDNS * Z) :=
  let* m := set_q m p clear_target in
  if m_rrcache_size m =? 0 then Ret (m, mStatus_NoCache) else
  let* q := get_q m p in
  let* len := DomainNameLength (q_qname (Q_q q)) in
  if negb (len <=? MAX_DOMAIN_NAME) then Ret (LogMsg m StartQuery_invalid, mStatus_Invalid) else
  let* l := find_link (q_fuel m) m (question_list q) p in
  let* found := read_q m l in
  if negb (found =? 0) then Ret (LogMsg m StartQuery_active, mStatus_AlreadyRegistered) else
  let* m := write_q m l p in
  let* m := set_q m p (fun q => q <| Q_next := 0 |>) in
  let* hash := DomainNameHashValue (q_qname (Q_q q)) in
  let* slot := HashSlot (q_qname (Q_q q)) in
  let* delay := CheckForSoonToExpireRecords m (q_qname (Q_q q)) hash slot in
  let* m := set_q m p (start_fields m hash delay) in
  let* q := get_q m p in
  let* '(m, key) := GetAuthInfoForQuestion m q in
  let* m := set_q m p (fun q => q <| Q_AuthInfo := key |>) in
  let* dup := FindDuplicateQuestion m p in
  let* m := set_q m p (fun q => start_fields2 m (q <| Q_DuplicateOf := dup |>)) in
  let* m := if dup =? 0 then Ret m else
            let* d := get_q m dup in set_q m p (fun q => q <| Q_AuthInfo := Q_AuthInfo d |>) in
  let* m := set_q m p clear_dups in
  let* q := get_q m p in
  if q_InterfaceID (Q_q q) =? mDNSInterface_LocalOnly then
    Ret (if m_NewLocalOnlyQuestions m =? 0 then m <| m_NewLocalOnlyQuestions := p |> else m, mStatus_NoError)
  else
    let m := if m_NewQuestions m =? 0 then m <| m_NewQuestions := p |> else m in
    if negb (q_TargetQID (Q_q q) =? 0) then Fault WideArea else
    let* m := SetNextQueryTime m p in
    Ret (m, mStatus_NoError).

(** ** Stopping a question *)
(** The first active question that the record answers. *)
Fixpoint find_active (fuel : nat) (m : mDNS) (q : Z) (rr : ResourceRecord) : outcome Z :=
  match fuel with
  | O => Fault OutOfFuel
  | S fuel =>
    if q =? 0 then Ret 0 else
    let* qq := get_q m q in
    let* hit := if ActiveQuestion qq then ResourceRecordAnswersQuestion rr (Q_q qq) else Ret false in
    if (hit : bool) then Ret q else find_active fuel m (Q_next qq) rr
  end.
Fixpoint retarget_loop (fuel : nat) (m : mDNS) (r question : Z) : outcome mDNS :=
  match fuel with
  | O => Fault OutOfFuel
  | S fuel =>
    if r =? 0 then Ret m else
    let* cr := get_rec m r in
    let* m :=
      if cr_CRActiveQuestion cr =? question then
        let* rr := resrec_of m cr in
        let* q := find_active (q_fuel m) m (m_Questions m) rr in
        let* m := set_rec m r (fun cr => cr <| cr_CRActiveQuestion := q |>) in
        Ret (if q =? 0 then m <| m_rrcache_active := u32 (m_rrcache_active m - 1) |> else m)
      else Ret m in
    retarget_loop fuel m (cr_next cr) question
  end.

Definition mDNS_StopQuery_internal (m : mDNS) (p : Z) : outcome (mDNS * Z) :=
  let* q := get_q m p in
  let* slot := HashSlot (q_qname (Q_q q)) in
  let* cg := CacheGroupForName m slot (q_qnamehash (Q_q q)) (q_qname (Q_q q)) in
  let* l := find_link (q_fuel m) m (question_list q) p in
  let* found := read_q m l in
  if found =? 0 then Ret (log_if (0 <=? Q_ThisQInterval q) StopQuery_inactive m, mStatus_BadReferenceErr) else
  let* m := write_q m l (Q_next q) in
  let* m := UpdateQuestionDuplicates m p in
  let* m := set_q m p (fun q => q <| Q_ThisQInterval := -1 |>) in
  let* r := members_of m cg in
  let* m := retarget_loop (list_fuel m) m r p in
  let* q := get_q m p in
  let m := if m_CurrentQuestion m =? p then m <| m_CurrentQuestion := Q_next q |> else m in
  let m := if m_NewQuestions m =? p then m <| m_NewQuestions := Q_next q |> else m in
  let m := if m_NewLocalOnlyQuestions m =? p then m <| m_NewLocalOnlyQuestions := Q_next q |> else m in
  let* m := set_q m p (fun q => q <| Q_next := 0 |>) in
  let* q := get_q m p in
  if negb (Q_nta q =? 0) || negb (Q_tcp q =? 0) || negb (Q_LocalSocket q =? 0) ||
     negb (q_TargetQID (Q_q q) =? 0) && Q_LongLived q then Fault WideArea else
  Ret (m, mStatus_NoError).

(** ** The client interface *)
Definition mDNS_StartQuery (m : mDNS) (p : Z) : outcome (mDNS * Z) :=
  let* '(m, status) := mDNS_StartQuery_internal (mDNS_Lock m) p in
  let* m := mDNS_Unlock m in Ret (m, status).
Definition mDNS_StopQuery (m : mDNS) (p : Z) : outcome (mDNS * Z) :=
  let* '(m, status) := mDNS_StopQuery_internal (mDNS_Lock m) p in
  let* m := mDNS_Unlock m in Ret (m, status).

(** A client fills in a question at an address it does not use yet and
    starts it; the memory is its own again if that fails, and once it has
    stopped the question.  It may try to start a question twice. *)
Definition run_call (m : mDNS) (c : client_call) : outcome mDNS :=
  match c with
  | StartQuery p q =>
    if p =? 0 then Ret m else
    match m_qs m !! p with
    | Some _ => let* '(m, _) := mDNS_StartQuery m p in Ret m
    | None =>
      let* '(m, status) := mDNS_StartQuery (put_q m p q) p in
      Ret (if status =? mStatus_NoError then m else m <| m_qs := delete p (m_qs m) |>)
    end
  | StopQuery p =>
    match m_qs m !! p with
    | None => Ret m
    | Some _ =>
      let* '(m, status) := mDNS_StopQuery m p in
      Ret (if status =? mStatus_NoError then m <| m_qs := delete p (m_qs m) |> else m)
    end
  end.
Fixpoint run_calls (m : mDNS) (cs : list client_call) : outcome mDNS :=
  match cs with [] => Ret m | c :: cs => let* m := run_call m c in run_calls m cs end.
End Questions.
