(* ===== verification/MDNSAnswer.v ===== *)
(** Answering questions from the cache ([mDNS.c], [AnswerLocalQuestions],
    [AnswerCurrentQuestionWithResourceRecord] to [GetCacheEntity], and
    [CreateNewCacheEntry] to [mDNS_Execute]).

    Answers are delivered by callbacks, which may start and stop questions;
    the code that walks the question list therefore keeps its position in
    [CurrentQuestion], which [mDNS_StopQuery_internal] moves on when the
    question it stands on is stopped. *)
From S2P Require Import Prelude Bytes DNSTypes DNSName DNSRecord DNSMessage MDNSTypes MDNSCache MDNSQuestion.

Section Answer.
Context `{Platform}.

(** [q->QuestionCallback(m, q, rr, AddRecord)] *)
Definition call_back (m : mDNS) (p : Z) (rr : ResourceRecord) (AddRecord : Z) : outcome mDNS :=
  let m := m <| m_calls := mkCallback p rr AddRecord :: m_calls m |> in
  run_calls m (QuestionCallback p rr AddRecord m).

Definition MaxQuestionInterval : Z := s32 (3600 * one_second).
Definition is_unique (rr : ResourceRecord) : bool := negb (Z.land (rr_RecordType rr) kDNSRecordTypePacketUniqueMask =? 0).

Definition follow_cname (m : mDNS) (p r : Z) : outcome mDNS :=
  let* q := get_q m p in
  let c := u32 (Q_CNAMEReferrals q + 1) in
  let* '(m, _) := mDNS_StopQuery_internal m p in
  let* cr := get_rec m r in
  let* q := get_q m p in
  let* name := AssignDomainName (q_qname (Q_q q)) (rr_rdata (cr_resrec cr)) in
  let* hash := DomainNameHashValue name in
  let* m := set_q m p (fun q => q <| Q_q := (Q_q q) <| q_qname := name |> <| q_qnamehash := hash |> |>) in
  let* '(m, _) := mDNS_StartQuery_internal m p in
  set_q m p (fun q => q <| Q_CNAMEReferrals := c |>).

Definition activate (m : mDNS) (p r AddRecord : Z) : outcome mDNS :=
  let* m := set_rec m r (fun cr => cr <| cr_LastUsed := m_timenow m |>) in
  let* q := get_q m p in
  let* cr := get_rec m r in
  if (AddRecord =? QC_add) && (Q_DuplicateOf q =? 0) && negb (cr_CRActiveQuestion cr =? p) then
    let m := if cr_CRActiveQuestion cr =? 0 then m <| m_rrcache_active := u32 (m_rrcache_active m + 1) |> else m in
    let* m := set_rec m r (fun cr => cr <| cr_CRActiveQuestion := p |>) in
    SetNextCacheCheckTime m r
  else Ret m.

Definition stop_polling (m : mDNS) (p r AddRecord : Z) : outcome mDNS :=
  let* q := get_q m p in
  let* cr := get_rec m r in
  if ((AddRecord =? QC_addnocache) && (Q_RequestUnicast q =? 0) ||
      (AddRecord =? QC_add) && (Q_ExpectUnique q || is_unique (cr_resrec cr))) &&
     (ActiveQuestion q && ((q_TargetQID (Q_q q) =? 0) || negb (Q_LongLived q)))
  then set_q m p (fun q => q <| Q_LastQTime := m_timenow m |> <| Q_LastQTxTime := m_timenow m |>
         <| Q_RecentAnswerPkts := 0 |> <| Q_ThisQInterval := MaxQuestionInterval |> <| Q_RequestUnicast := 0 |>)
  else Ret m.

Definition AnswerCurrentQuestionWithResourceRecord (m : mDNS) (r AddRecord : Z) : outcome mDNS :=
  let p := m_CurrentQuestion m in
  let* q := get_q m p in
  let* cr := get_rec m r in
  let followcname := negb (rr_RecordType (cr_resrec cr) =? kDNSRecordTypePacketNegative) && negb (AddRecord =? 0) &&
                     (rr_rrtype (cr_resrec cr) =? kDNSType_CNAME) && negb (q_qtype (Q_q q) =? kDNSType_CNAME) in
  let* m := activate m p r AddRecord in
  let* m := stop_polling m p r AddRecord in
  let* cr := get_rec m r in
  let* q := get_q m p in
  if negb (cr_DelayDelivery cr =? 0) then Ret m else
  if (rr_RecordType (cr_resrec cr) =? kDNSRecordTypePacketNegative) && ((AddRecord =? 0) || negb (Q_ReturnIntermed q)) then Ret m else
  let* m :=
    if negb (Q_QuestionCallback q =? 0) && (Q_NoAnswer q =? 0) && (negb followcname || Q_ReturnIntermed q) then
      let* rr := resrec_of m cr in
      let* m := call_back (mDNS_DropLockBeforeCallback m) p rr AddRecord in
      Ret (mDNS_ReclaimLockAfterCallback m)
    else Ret m in
  if followcname && (m_CurrentQuestion m =? p) then
    let* q := get_q m p in
    if Q_CNAMEReferrals q <? 10 then follow_cname m p r else Ret m
  else Ret m.

(** ** Walking the question list *)
Definition auto_advance (m : mDNS) (q : Z) : outcome mDNS :=
  if m_CurrentQuestion m =? q then
    let* qq := get_q m q in Ret (m <| m_CurrentQuestion := Q_next qq |>)
  else Ret m.
(** [new] is the question to stop at, as a function of the state. *)
Fixpoint walk (fuel : nat) (new : mDNS → Z) (body : mDNS → Z → outcome mDNS) (m : mDNS) : outcome mDNS :=
  match fuel with
  | O => Fault OutOfFuel
  | S fuel =>
    let q := m_CurrentQuestion m in
    if (q =? 0) || (q =? new m) then Ret m else
    let* m := body m q in
    let* m := auto_advance m q in
    walk fuel new body m
  end.
Definition answers (m : mDNS) (r p : Z) : outcome bool :=
  let* cr := get_rec m r in
  let* rr := resrec_of m cr in
  let* q := get_q m p in
  ResourceRecordAnswersQuestion rr (Q_q q).
Definition answer_body (r AddRecord : Z) (m : mDNS) (q : Z) : outcome mDNS :=
  let* a := answers m r q in
  if (a : bool) then AnswerCurrentQuestionWithResourceRecord m r AddRecord else Ret m.

Definition start_walk (m : mDNS) (e : message) : mDNS :=
  (log_if (negb (m_CurrentQuestion m =? 0)) e m) <| m_CurrentQuestion := m_Questions m |>.

Definition CacheRecordDeferredAdd (m : mDNS) (r : Z) : outcome mDNS :=
  let* m := set_rec m r (fun cr => cr <| cr_DelayDelivery := 0 |>) in
  let m := start_walk m CacheRecordDeferredAdd_current in
  let* m := walk (q_fuel m) m_NewQuestions (answer_body r QC_add) m in
  Ret (m <| m_CurrentQuestion := 0 |>).

(** The counters of one question that a new record answers. *)
Definition count_answer (m : mDNS) (r q : Z) : outcome mDNS :=
  let* qq := get_q m q in
  let* m :=
    if Q_LastAnswerPktNum qq =? m_PktNum m then Ret m else
    let* m := set_q m q (fun qq => qq <| Q_LastAnswerPktNum := m_PktNum m |>) in
    if (q_TargetQID (Q_q qq) =? 0) && ActiveQuestion qq then
      let* m := set_q m q (fun qq => qq <| Q_RecentAnswerPkts := u32 (Q_RecentAnswerPkts qq + 1) |>) in
      if (10 <=? u32 (Q_RecentAnswerPkts qq + 1)) && (InitialQuestionInterval * 27 <? Q_ThisQInterval qq) &&
         (s32 (m_timenow m - Q_LastQTxTime qq) <? one_second) then
        let '(m, x) := random m (u32 (one_second * 4)) in
        let* m := set_q m q (fun qq => qq <| Q_LastQTime := s32 (m_timenow m - InitialQuestionInterval + x) |>
                    <| Q_ThisQInterval := InitialQuestionInterval |>) in
        SetNextQueryTime m q
      else Ret m
    else Ret m in
  let* cr := get_rec m r in
  let* m := set_q m q (fun qq => qq <| Q_CurrentAnswers := u32 (Q_CurrentAnswers qq + 1) |> <| Q_unansweredQueries := 0 |>
    <| Q_LargeAnswers := if SmallRecordLimit <? rr_rdlength (cr_resrec cr) then u32 (Q_LargeAnswers qq + 1) else Q_LargeAnswers qq |>
    <| Q_UniqueAnswers := if is_unique (cr_resrec cr) then u32 (Q_UniqueAnswers qq + 1) else Q_UniqueAnswers qq |>) in
  let* qq := get_q m q in
  if 4000 <? Q_CurrentAnswers qq then
    set_rec m r (fun cr => cr <| cr_resrec := (cr_resrec cr) <| rr_rroriginalttl := 0 |> |>
                              <| cr_UnansweredQueries := MaxUnansweredQueries |>)
  else Ret m.
(** [for (q = m->Questions; q && q != m->NewQuestions; q=q->next)] *)
Fixpoint count_loop (fuel : nat) (m : mDNS) (r q : Z) : outcome mDNS :=
  match fuel with
  | O => Fault OutOfFuel
  | S fuel =>
    if (q =? 0) || (q =? m_NewQuestions m) then Ret m else
    let* a := answers m r q in
    let* m := if (a : bool) then count_answer m r q else Ret m in
    let* qq := get_q m q in
    count_loop fuel m r (Q_next qq)
  end.

Definition CacheRecordAdd (m : mDNS) (r : Z) : outcome mDNS :=
  let* m := count_loop (q_fuel m) m r (m_Questions m) in
  let* cr := get_rec m r in
  let* m := if cr_DelayDelivery cr =? 0 then
              let m := start_walk m CacheRecordAdd_current in
              let* m := walk (q_fuel m) m_NewQuestions (answer_body r QC_add) m in
              Ret (m <| m_CurrentQuestion := 0 |>)
            else Ret m in
  SetNextCacheCheckTime m r.

(** Every question is answered, also those started meanwhile, by the clients
    and by following the record if it is a CNAME: [fuel] bounds the number of
    turns for them. *)
Definition NoCacheAnswer (fuel : nat) (m : mDNS) (r : Z) : outcome mDNS :=
  let m := start_walk m NoCacheAnswer_current in
  let* m := walk (fuel + q_fuel m) (fun _ => 0) (answer_body r QC_addnocache) m in
  Ret (m <| m_CurrentQuestion := 0 |>).

(** The counters of a question that a removed record answered. *)
Definition uncount_answer (rr : ResourceRecord) (q : Question) : Question :=
  let q := q <| Q_FlappingInterface1 := 0 |> <| Q_FlappingInterface2 := 0 |> in
  if Q_CurrentAnswers q =? 0 then q else
  q <| Q_CurrentAnswers := u32 (Q_CurrentAnswers q - 1) |>
    <| Q_LargeAnswers := if SmallRecordLimit <? rr_rdlength rr then u32 (Q_LargeAnswers q - 1) else Q_LargeAnswers q |>
    <| Q_UniqueAnswers := if is_unique rr then u32 (Q_UniqueAnswers q - 1) else Q_UniqueAnswers q |>.
Definition remove_body (r : Z) (m : mDNS) (q : Z) : outcome mDNS :=
  let* a := answers m r q in
  if negb (a : bool) then Ret m else
  let* cr := get_rec m r in
  let* qq := get_q m q in
  let m := log_if (Q_CurrentAnswers qq =? 0) CacheRecordRmv_zero m in
  let* m := set_q m q (uncount_answer (cr_resrec cr)) in
  if rr_MaxRDLength (cr_resrec cr) =? 0 then Ret m else
  let* qq := get_q m q in
  let* m := if Q_CurrentAnswers qq =? 0 then ReconfirmAntecedents 5 m (q_qname (Q_q qq)) (q_qnamehash (Q_q qq)) else Ret m in
  AnswerCurrentQuestionWithResourceRecord m r QC_rmv.
Definition CacheRecordRmv (m : mDNS) (r : Z) : outcome mDNS :=
  let m := start_walk m CacheRecordRmv_current in
  let* m := walk (q_fuel m) m_NewQuestions (remove_body r) m in
  Ret (m <| m_CurrentQuestion := 0 |>).

(** ** Expiring records *)
Definition earlier_check (m : mDNS) (t : Z) : mDNS :=
  if 0 <? s32 (m_NextCacheCheck m - t) then m <| m_NextCacheCheck := t |> else m.

(** A record that has not expired: deliver it, or see when to look again. *)
Definition keep_record (m : mDNS) (r : Z) : outcome mDNS :=
  let* cr := get_rec m r in
  let* '(m, event) :=
    if negb (cr_DelayDelivery cr =? 0) && (0 <? s32 (cr_DelayDelivery cr - m_timenow m)) then Ret (m, cr_DelayDelivery cr)
    else
      let* m := if cr_DelayDelivery cr =? 0 then Ret m else CacheRecordDeferredAdd m r in
      let* cr' := get_rec m r in
      if negb (cr_CRActiveQuestion cr' =? 0) && (cr_UnansweredQueries cr' <? MaxUnansweredQueries) then
        if s32 (m_timenow m - cr_NextRequiredQuery cr') <? 0 then Ret (m, cr_NextRequiredQuery cr')
        else Ret (m <| m_NextScheduledQuery := m_timenow m |>, s32 (m_timenow m + 0x3FFFFFFF))
      else Ret (m, RRExpireTime cr) in
  let* cr := get_rec m r in
  Ret (earlier_check m (s32 (event + CacheCheckGracePeriod cr))).

Definition remove_record (m : mDNS) (rp : rr_loc) (r : Z) : outcome mDNS :=
  let* cr := get_rec m r in
  let* m := write_rr m rp (cr_next cr) in
  let* m := if cr_CRActiveQuestion cr =? 0 then Ret m else
            let* m := CacheRecordRmv m r in
            Ret (m <| m_rrcache_active := u32 (m_rrcache_active m - 1) |>) in
  ReleaseCacheRecord m r.

Fixpoint expire_loop (fuel : nat) (m : mDNS) (rp : rr_loc) : outcome (mDNS * rr_loc) :=
  match fuel with
  | O => Fault OutOfFuel
  | S fuel =>
    let* r := read_rr m rp in
    if r =? 0 then Ret (m, rp) else
    let* cr := get_rec m r in
    if 0 <=? s32 (m_timenow m - RRExpireTime cr) then
      let* m := remove_record m rp r in expire_loop fuel m rp
    else
      let* m := keep_record m r in expire_loop fuel m (NextOf r)
  end.
Definition CheckCacheExpiration (m : mDNS) (cg : Z) : outcome mDNS :=
  if negb (m_lock_rrcache m =? 0) then Ret (LogMsg m CheckCacheExpiration_locked) else
  let m := m <| m_lock_rrcache := 1 |> in
  let* '(m, rp) := expire_loop (list_fuel m) m (Members cg) in
  let* m := set_group m cg (fun cg => cg <| cg_rrcache_tail := rp |>) in
  Ret (m <| m_lock_rrcache := 0 |>).

(** ** Adding records *)
Definition sizeof_rdataSOA : Z := 532.
Definition sizeof_rdataRP : Z := 512.
Definition sizeof_rdataPX : Z := 514.
Definition storage_length (rr : ResourceRecord) : Z :=
  if rr_rrtype rr =? kDNSType_SOA then sizeof_rdataSOA else
  if rr_rrtype rr =? kDNSType_RP then sizeof_rdataRP else
  if rr_rrtype rr =? kDNSType_PX then sizeof_rdataPX else rr_rdlength rr.

(** [*rr = m->rec.r], with the storage of [rr] and the name of [cg]. *)
Definition copy_record (rec : CacheRecord) (external : bool) (cg RDLength : Z) : CacheRecord :=
  rec <| cr_external := external |> <| cr_group := cg |> <| cr_next := 0 |>
      <| cr_resrec := (cr_resrec rec) <| rr_name := [] |>
         <| rr_rdata := take (Z.to_nat (if external then RDLength else InlineCacheRDSize)) (rr_rdata (cr_resrec rec)) |> |>.

Definition fill_record (m : mDNS) (slot cg r RDLength : Z) : outcome mDNS :=
  let* cr := get_rec m r in
  let m := log_if (negb (cr_external cr) && (InlineCacheRDSize <? RDLength)) CreateNewCacheEntry_inline m in
  let m := log_if (cr_external cr && (RDLength <=? InlineCacheRDSize)) CreateNewCacheEntry_external m in
  let* m := set_rec m r (fun cr => copy_record (m_rec m) (cr_external cr) cg RDLength) in
  let* g := get_group m cg in
  let* m := write_rr m (cg_rrcache_tail g) r in
  let* m := set_group m cg (fun g => g <| cg_rrcache_tail := NextOf r |>) in
  let* cr := get_rec m r in
  let* rr := resrec_of m cr in
  let* delay :=
    if rr_RecordType rr =? kDNSRecordTypePacketNegative then Ret (NonZeroTime (m_timenow m)) else
    if is_unique rr && negb (rr_MaxRDLength rr =? 0) then Ret (NonZeroTime (s32 (m_timenow m + one_second))) else
    CheckForSoonToExpireRecords m (rr_name rr) (rr_namehash rr) slot in
  set_rec m r (fun cr => cr <| cr_DelayDelivery := delay |>).

Definition CreateNewCacheEntry (fuel : nat) (m : mDNS) (slot cg : Z) : outcome (mDNS * Z) :=
  let RDLength := storage_length (cr_resrec (m_rec m)) in
  let* '(m, cg) := if cg =? 0 then GetCacheGroup m slot (cr_resrec (m_rec m)) else Ret (m, cg) in
  let* '(m, r) := if cg =? 0 then Ret (m, 0) else GetCacheRecord m cg RDLength in
  if r =? 0 then let* m := NoCacheAnswer fuel m rec_ptr in Ret (m, 0) else
  let* m := fill_record m slot cg r RDLength in
  let* m := CacheRecordAdd m r in
  Ret (m, r).

Definition MakeNegativeCacheRecord (m : mDNS) (name : list Z) (namehash rrtype rrclass ttl_seconds : Z) : mDNS :=
  let rr := mkResourceRecord kDNSRecordTypePacketNegative mDNSInterface_Any name rrtype rrclass ttl_seconds 0 0 namehash 0 0
              (rr_rdata (cr_resrec (m_rec m))) in
  m <| m_rec := mkCacheRecord (cr_next (m_rec m)) rr 0 false 0 (m_timenow m) 0 (m_timenow m) (m_timenow m) 0 0 0 0 0 0 false 0 |>.

(** ** Answering from the host's own records *)
Definition AnswerLocalOnlyQuestionWithResourceRecord (m : mDNS) (p : Z) (rr : ResourceRecord) (AddRecord : Z) : outcome mDNS :=
  let m := mDNS_DropLockBeforeCallback m in
  let* q := get_q m p in
  let* m := if negb (Q_QuestionCallback q =? 0) && (Q_NoAnswer q =? 0) then call_back m p rr AddRecord else Ret m in
  Ret (mDNS_ReclaimLockAfterCallback m).

(** [while (m->CurrentQuestion && m->CurrentQuestion != new)], where the
    position moves on before the question is answered. *)
Fixpoint local_walk (fuel : nat) (new : mDNS → Z) (rr : ResourceRecord) (AddRecord : Z) (m : mDNS) : outcome mDNS :=
  match fuel with
  | O => Fault OutOfFuel
  | S fuel =>
    let q := m_CurrentQuestion m in
    if (q =? 0) || (q =? new m) then Ret m else
    let* qq := get_q m q in
    let m := m <| m_CurrentQuestion := Q_next qq |> in
    let* a := ResourceRecordAnswersQuestion rr (Q_q qq) in
    let* m := if (a : bool) then AnswerLocalOnlyQuestionWithResourceRecord m q rr AddRecord else Ret m in
    local_walk fuel new rr AddRecord m
  end.
Definition AnswerLocalQuestions (m : mDNS) (rr : ResourceRecord) (AddRecord : Z) : outcome mDNS :=
  let m := log_if (negb (m_CurrentQuestion m =? 0)) AnswerLocalQuestions_current m in
  let m := m <| m_CurrentQuestion := m_LocalOnlyQuestions m |> in
  let* m := local_walk (q_fuel m) m_NewLocalOnlyQuestions rr AddRecord m in
  let* m := if rr_InterfaceID rr =? mDNSInterface_LocalOnly then
              let m := m <| m_CurrentQuestion := m_Questions m |> in
              local_walk (q_fuel m) m_NewQuestions rr AddRecord m
            else Ret m in
  Ret (m <| m_CurrentQuestion := 0 |>).

(** Offer our own records to the question [q] until it is deleted. *)
Fixpoint offer_local (m : mDNS) (q : Z) (local_only : bool) (rrs : list ResourceRecord) : outcome mDNS :=
  match rrs with
  | [] => Ret m
  | rr :: rrs =>
    if local_only && negb (rr_InterfaceID rr =? mDNSInterface_LocalOnly) then offer_local m q local_only rrs else
    let* qq := get_q m q in
    let* a := ResourceRecordAnswersQuestion rr (Q_q qq) in
    if (a : bool) then
      let* m := AnswerLocalOnlyQuestionWithResourceRecord m q rr QC_add in
      if m_CurrentQuestion m =? q then offer_local m q local_only rrs else Ret m
    else offer_local m q local_only rrs
  end.
Definition AnswerNewLocalOnlyQuestion (m : mDNS) : outcome mDNS :=
  let q := m_NewLocalOnlyQuestions m in
  let* qq := get_q m q in
  let m := m <| m_NewLocalOnlyQuestions := Q_next qq |> in
  let m := log_if (negb (m_CurrentQuestion m =? 0)) AnswerNewLocalOnlyQuestion_current m in
  let m := m <| m_CurrentQuestion := q |> in
  let* m := offer_local m q false (m_ResourceRecords m) in
  Ret (m <| m_CurrentQuestion := 0 |>).

(** ** Answering a new question *)
Definition offer_record (m : mDNS) (q r : Z) : outcome (mDNS * bool) :=
  let* cr := get_rec m r in
  let* rr := resrec_of m cr in
  let* qq := get_q m q in
  if SameNameRecordAnswersQuestion rr (Q_q qq) then
    if rr_rroriginalttl rr <=? u32 (m_timenow m - cr_TimeRcvd cr) / one_second then Ret (LogMsg m AnswerNewQuestion_expired, true)
    else
      let* m := set_q m q (fun qq => qq <| Q_CurrentAnswers := u32 (Q_CurrentAnswers qq + 1) |>
        <| Q_LargeAnswers := if SmallRecordLimit <? rr_rdlength rr then u32 (Q_LargeAnswers qq + 1) else Q_LargeAnswers qq |>
        <| Q_UniqueAnswers := if is_unique rr then u32 (Q_UniqueAnswers qq + 1) else Q_UniqueAnswers qq |>) in
      let* m := AnswerCurrentQuestionWithResourceRecord m r QC_add in
      Ret (m, negb (is_unique rr || Q_ExpectUnique qq))
  else
    let is_addr t := (t =? kDNSType_A) || (t =? kDNSType_AAAA) in
    if is_addr (rr_rrtype rr) && is_addr (q_qtype (Q_q qq)) && (rr_namehash rr =? q_qnamehash (Q_q qq)) then
      let* same := SameDomainName (rr_name rr) (q_qname (Q_q qq)) in Ret (m, negb same)
    else Ret (m, true).
Fixpoint offer_loop (fuel : nat) (m : mDNS) (q r : Z) (ShouldQueryImmediately : bool) : outcome (mDNS * bool) :=
  match fuel with
  | O => Fault OutOfFuel
  | S fuel =>
    if r =? 0 then Ret (m, ShouldQueryImmediately) else
    let* '(m, query) := offer_record m q r in
    if m_CurrentQuestion m =? q then
      let* cr := get_rec m r in
      offer_loop fuel m q (cr_next cr) (ShouldQueryImmediately && query)
    else Ret (m, ShouldQueryImmediately && query)
  end.

Definition query_now (m : mDNS) (q : Z) : outcome mDNS :=
  let* qq := get_q m q in
  if ActiveQuestion qq then
    let last := s32 (m_timenow m - InitialQuestionInterval) in
    let '(m, last) :=
      if q_TargetQID (Q_q qq) =? 0 then
        let m := if m_RandomQueryDelay m =? 0 then
                   let '(m, x) := random m (u32 (one_second * 5)) in
                   m <| m_RandomQueryDelay := s32 (u32 (one_second + x - 1) / 50 + 1) |> else m in
        (m, s32 (last + m_RandomQueryDelay m))
      else (m, last) in
    let* m := set_q m q (fun qq => qq <| Q_ThisQInterval := InitialQuestionInterval |> <| Q_LastQTime := last |>) in
    let t := s32 (last + InitialQuestionInterval) in
    Ret (if 0 <? s32 (m_NextScheduledQuery m - t) then m <| m_NextScheduledQuery := t |> else m)
  else Ret m.

Definition fail_question (m : mDNS) (q : Z) : outcome mDNS :=
  let* qq := get_q m q in
  let m := MakeNegativeCacheRecord m (q_qname (Q_q qq)) (q_qnamehash (Q_q qq)) (q_qtype (Q_q qq)) (q_qclass (Q_q qq)) 60 in
  let* m := set_q m q (fun qq => qq <| Q_NoAnswer := NoAnswer_Normal |>) in
  let* m := AnswerCurrentQuestionWithResourceRecord m rec_ptr QC_addnocache in
  let* m := set_q m q (fun qq => qq <| Q_NoAnswer := NoAnswer_Fail |>) in
  set_rec m rec_ptr (fun cr => cr <| cr_resrec := (cr_resrec cr) <| rr_RecordType := 0 |> |>).

Definition AnswerNewQuestion (m : mDNS) : outcome mDNS :=
  let q := m_NewQuestions m in
  let* qq := get_q m q in
  let* slot := HashSlot (q_qname (Q_q qq)) in
  let* cg := CacheGroupForName m slot (q_qnamehash (Q_q qq)) (q_qname (Q_q qq)) in
  let* m := if cg =? 0 then Ret m else CheckCacheExpiration m cg in
  let* qq := get_q m q in
  let m := m <| m_NewQuestions := Q_next qq |> in
  let m := log_if (negb (m_lock_rrcache m =? 0)) AnswerNewQuestion_locked m in
  let m := m <| m_lock_rrcache := 1 |> in
  let m := log_if (negb (m_CurrentQuestion m =? 0)) AnswerNewQuestion_current m in
  let m := m <| m_CurrentQuestion := q |> in
  let* m := if Q_NoAnswer qq =? NoAnswer_Fail then fail_question m q else Ret m in
  let* m := if m_CurrentQuestion m =? q then
              let* qq := get_q m q in
              if q_InterfaceID (Q_q qq) =? mDNSInterface_Any then offer_local m q true (m_ResourceRecords m) else Ret m
            else Ret m in
  let* '(m, now) := if m_CurrentQuestion m =? q then
                      let* r := members_of m cg in offer_loop (list_fuel m) m q r true
                    else Ret (m, true) in
  let* m := if (m_CurrentQuestion m =? q) && now then query_now m q else Ret m in
  Ret (m <| m_CurrentQuestion := 0 |> <| m_lock_rrcache := 0 |>).

(** ** Purging the cache ([mDNS_Execute], step 3) *)
Fixpoint purge_groups (fuel : nat) (m : mDNS) (cp : cg_loc) : outcome mDNS :=
  match fuel with
  | O => Fault OutOfFuel
  | S fuel =>
    let* g := read_cg m cp in
    if g =? 0 then Ret m else
    let* m := CheckCacheExpiration m g in
    let* cg := get_group m g in
    if negb (cg_members cg =? 0) then purge_groups fuel m (NextGroup g) else
    let* m := ReleaseCacheGroup m cp in
    purge_groups fuel m cp
  end.
Fixpoint purge_slots (n : nat) (m : mDNS) (slot : Z) : outcome mDNS :=
  match n with
  | O => Ret m
  | S n => let* m := purge_groups (list_fuel m) m (Slot slot) in purge_slots n m (slot + 1)
  end.
Definition purge_cache (m : mDNS) : outcome mDNS :=
  if negb (m_rrcache_size m =? 0) && (0 <=? s32 (m_timenow m - m_NextCacheCheck m)) then
    purge_slots (Z.to_nat CACHE_HASH_SLOTS) (m <| m_NextCacheCheck := s32 (m_timenow m + 0x3FFFFFFF) |>) 0
  else Ret m.

(** ** Answering new questions ([mDNS_Execute], step 4) *)
Fixpoint answer_new_questions (n : nat) (m : mDNS) : outcome mDNS :=
  match n with
  | O => Ret m
  | S n =>
    if m_NewQuestions m =? 0 then Ret m else
    let* q := get_q m (m_NewQuestions m) in
    if negb (Q_DelayAnswering q =? 0) && (s32 (m_timenow m - Q_DelayAnswering q) <? 0) then Ret m else
    let* m := AnswerNewQuestion m in
    answer_new_questions n m
  end.
Fixpoint answer_new_local_questions (n : nat) (m : mDNS) : outcome mDNS :=
  match n with
  | O => Ret m
  | S n =>
    if m_NewLocalOnlyQuestions m =? 0 then Ret m else
    let* m := AnswerNewLocalOnlyQuestion m in
    answer_new_local_questions n m
  end.
End Answer.
