(* ===== verification/MDNSReceive.v ===== *)
(** Receiving a response ([mDNS.c], [mDNSCoreReceiveResponse]): the records
    of the packet are looked up in the cache, refreshed, marked for deletion
    or stored; the records that came with the cache-flush bit go on a list,
    and when the packet has been read the older records of the same sets are
    flushed.

    The list of records to flush is linked through the records,
    ended by [(CacheRecord* )1], which is [cf_end] here; a record is on it
    exactly when its link is not NULL, and is then not recycled.

    The check against the host's own records (step 1) belongs to the
    responder: a multicast response to a host that has records is the fault
    [OwnRecords].  Answers to wide-area questions are the fault [WideArea]. *)
From S2P Require Import Prelude Bytes DNSTypes DNSName DNSRecord DNSMessage MDNSTypes MDNSCache MDNSQuestion MDNSAnswer.

(** ** Addresses *)
Definition AllDNSLinkGroup_v4 : list Z := [224; 0; 0; 251].
Definition AllDNSLinkGroup_v6 : list Z := [0xFF; 0x02; 0; 0; 0; 0; 0; 0; 0; 0; 0; 0; 0; 0; 0; 0xFB].
Definition mDNSAddrIsDNSMulticast (ip : mDNSAddr) : bool :=
  if addr_type ip =? mDNSAddrType_IPv4 then bool_decide (addr_ip ip = AllDNSLinkGroup_v4) else
  if addr_type ip =? mDNSAddrType_IPv6 then bool_decide (addr_ip ip = AllDNSLinkGroup_v6) else false.

Definition mDNSv4AddressIsLinkLocal (ip : list Z) : outcome bool :=
  let* b0 := aget ip 0 in if b0 =? 169 then let* b1 := aget ip 1 in Ret (b1 =? 254) else Ret false.
Definition mDNSv6AddressIsLinkLocal (ip : list Z) : outcome bool :=
  let* b0 := aget ip 0 in if b0 =? 0xFE then let* b1 := aget ip 1 in Ret (Z.land b1 0xC0 =? 0x80) else Ret false.
(** [(a ^ b) & mask] is zero, byte by byte. *)
Fixpoint same_net (a b mask : list Z) : bool :=
  match a, b, mask with
  | x :: a, y :: b, z :: mask => (Z.land (Z.lxor x y) z =? 0) && same_net a b mask
  | _, _, _ => true
  end.
Definition on_interface (InterfaceID : Z) (addr : mDNSAddr) (intf : NetworkInterfaceInfo) : bool :=
  (addr_type (intf_ip intf) =? addr_type addr) && (intf_InterfaceID intf =? InterfaceID) && intf_McastTxRx intf &&
  same_net (addr_ip (intf_ip intf)) (addr_ip addr) (addr_ip (intf_mask intf)).
Definition AddressIsLocalSubnet (m : mDNS) (InterfaceID : Z) (addr : mDNSAddr) : outcome bool :=
  if addr_type addr =? mDNSAddrType_IPv4 then
    let* l := mDNSv4AddressIsLinkLocal (addr_ip addr) in
    Ret (l || existsb (on_interface InterfaceID addr) (m_HostInterfaces m))
  else if addr_type addr =? mDNSAddrType_IPv6 then
    let* l := mDNSv6AddressIsLinkLocal (addr_ip addr) in
    Ret (l || existsb (on_interface InterfaceID addr) (m_HostInterfaces m))
  else Ret false.

(** ** The packet *)
Definition kDNSFlag0_TC : Z := 0x02.
Definition kDNSRecordTypePacketAuth : Z := 0xA0.
Definition kDNSRecordTypePacketAns : Z := 0xC0.

(** [r1] and [r2] are known to have the same name. *)
Definition IdenticalSameNameRecord (r1 r2 : ResourceRecord) : outcome bool :=
  if (rr_rrtype r1 =? rr_rrtype r2) && (rr_rrclass r1 =? rr_rrclass r2) && (rr_rdlength r1 =? rr_rdlength r2) &&
     (rr_rdatahash r1 =? rr_rdatahash r2)
  then SameRDataBody r1 (rr_rdata r2) else Ret false.

Definition clear_rec (m : mDNS) : mDNS :=
  m <| m_rec := (m_rec m) <| cr_resrec := (cr_resrec (m_rec m)) <| rr_RecordType := 0 |> |> |>.

(** ** The list of records to flush *)
Definition cf_end : Z := -2.
(** A [CacheRecord **]: the head of the list or the link of a record. *)
Inductive cf_loc := CFHead | CFNext (r : Z).
#[export] Instance cf_loc_eq_dec : EqDecision cf_loc.
Proof. solve_decision. Defined.
(** [CacheFlushRecords] and [cfp]. *)
Definition cf_list : Type := Z * cf_loc.
(** [{ *cfp = rr; cfp = &rr->NextInCFList; *cfp = (CacheRecord* )1; }] *)
Definition cf_append (m : mDNS) (cf : cf_list) (r : Z) : outcome (mDNS * cf_list) :=
  let* '(m, head) := match snd cf with
                     | CFHead => Ret (m, r)
                     | CFNext x => let* m := set_rec m x (fun cr => cr <| cr_NextInCFList := r |>) in Ret (m, fst cf)
                     end in
  let* m := set_rec m r (fun cr => cr <| cr_NextInCFList := cf_end |>) in
  Ret (m, (head, CFNext r)).

Section Receive.
Context `{Platform}.

(** [GetLargeResourceRecord(m, response, ptr, end, InterfaceID, RecordType, &m->rec)].
    The bytes of [namestorage] and [resrec] that the call does not write are
    not read either; those of [namestorage] are zero here. *)
Definition get_packet_record (m : mDNS) (msg : list Z) (ptr e InterfaceID RecordType : Z) : outcome (mDNS * option Z) :=
  let m := log_if (negb (rr_RecordType (cr_resrec (m_rec m)) =? 0)) Rec_in_use m in
  let rec := m_rec m in
  let* '(rr, next) := GetLargeResourceRecord one_second msg ptr e InterfaceID RecordType ((cr_resrec rec) <| rr_name := replicate 256 0 |>) in
  Ret (m <| m_rec := mkCacheRecord 0 rr 0 false 0 (m_timenow m) 0 (m_timenow m) (m_timenow m) 0 0 0 0 0 0 false 0 |>, next).

(** ** What we are waiting for *)
Definition local_port (q : Question) : outcome Z := if Q_LocalSocket q =? 0 then Ret MulticastDNSPort else Fault WideArea.
Fixpoint ExpectingUnicastResponseForQuestion (fuel : nat) (m : mDNS) (q port id : Z) (question : DNSQuestion) : outcome Z :=
  match fuel with
  | O => Fault OutOfFuel
  | S fuel =>
    if q =? 0 then Ret 0 else
    let* qq := get_q m q in
    let* p := local_port qq in
    let* same := if (p =? port) && (q_TargetQID (Q_q qq) =? id) && (q_qtype (Q_q qq) =? q_qtype question) &&
                    (q_qclass (Q_q qq) =? q_qclass question) && (q_qnamehash (Q_q qq) =? q_qnamehash question)
                 then SameDomainName (q_qname (Q_q qq)) (q_qname question) else Ret false in
    if (same : bool) then Ret q else ExpectingUnicastResponseForQuestion fuel m (Q_next qq) port id question
  end.
(** [!dstaddr || ExpectingUnicastResponseForQuestion(m, dstport, response->h.id, &q)] *)
Definition expecting (m : mDNS) (dstaddr : option mDNSAddr) (dstport id : Z) (q : DNSQuestion) : outcome bool :=
  match dstaddr with
  | None => Ret true
  | Some _ => let* p := ExpectingUnicastResponseForQuestion (q_fuel m) m (m_Questions m) dstport id q in Ret (negb (p =? 0))
  end.

Fixpoint ExpectingUnicastResponseForRecord (fuel : nat) (m : mDNS) (q : Z) (SrcLocal : bool) (port id : Z) (rr : ResourceRecord) : outcome bool :=
  match fuel with
  | O => Fault OutOfFuel
  | S fuel =>
    if q =? 0 then Ret false else
    let* qq := get_q m q in
    let* a := ResourceRecordAnswersQuestion rr (Q_q qq) in
    if negb a then ExpectingUnicastResponseForRecord fuel m (Q_next qq) SrcLocal port id rr else
    if negb (q_TargetQID (Q_q qq) =? 0) then
      if q_TargetQID (Q_q qq) =? id then let* p := local_port qq in Ret (p =? port)
      else ExpectingUnicastResponseForRecord fuel m (Q_next qq) SrcLocal port id rr
    else if SrcLocal && negb (Q_ExpectUnicastResp qq =? 0) && (u32 (m_timenow m - Q_ExpectUnicastResp qq) <? u32 (one_second * 2))
    then Ret true
    else ExpectingUnicastResponseForRecord fuel m (Q_next qq) SrcLocal port id rr
  end.

(** A long-lived query that the packet may answer is wide-area. *)
Fixpoint find_llq (fuel : nat) (m : mDNS) (q : Z) (pktQ : DNSQuestion) : outcome unit :=
  match fuel with
  | O => Fault OutOfFuel
  | S fuel =>
    if q =? 0 then Ret tt else
    let* qq := get_q m q in
    let* same := if negb (q_TargetQID (Q_q qq) =? 0) && Q_LongLived qq && (q_qtype (Q_q qq) =? q_qtype pktQ) &&
                    (q_qnamehash (Q_q qq) =? q_qnamehash pktQ)
                 then SameDomainName (q_qname (Q_q qq)) (q_qname pktQ) else Ret false in
    if (same : bool) then Fault WideArea else find_llq fuel m (Q_next qq) pktQ
  end.
Definition uDNS_recvLLQResponse (m : mDNS) (msg : list Z) (e : Z) : outcome (mDNS * uDNS_LLQType) :=
  let* n := get16 msg off_numQuestions in
  if n =? 0 then Ret (m, uDNS_LLQ_Not) else
  let* '(pktQ, ptr) := getQuestion msg off_data e 0 in
  match ptr with
  | None => Ret (m, uDNS_LLQ_Not)
  | Some _ =>
    let* opt := LocateLLQOptData msg e in   (* [GetLLQOptData] *)
    let* m := match opt with
              | Some p => let* '(m, _) := get_packet_record m msg p e 0 kDNSRecordTypePacketAdd in Ret m
              | None => Ret m
              end in
    let* _ := find_llq (q_fuel m) m (m_Questions m) pktQ in
    Ret (clear_rec m, uDNS_LLQ_Not)
  end.

(** ** Stale records of one-shot queries *)
Definition mark_stale (q : DNSQuestion) (m : mDNS) (r : Z) : outcome mDNS :=
  let* cr := get_rec m r in
  if SameNameRecordAnswersQuestion (cr_resrec cr) q then
    set_rec m r (fun cr => cr <| cr_TimeRcvd := s32 (m_timenow m - TicksTTL cr - 1) |> <| cr_UnansweredQueries := MaxUnansweredQueries |>)
  else Ret m.
Fixpoint mark_questions (n : nat) (m : mDNS) (msg : list Z) (ptr : option Z) (e InterfaceID : Z) (dstaddr : option mDNSAddr) (dstport id : Z)
    : outcome (mDNS * option Z) :=
  match n, ptr with
  | S n, Some p =>
    if negb (p <? e) then Ret (m, ptr) else
    let* '(q, ptr) := getQuestion msg p e InterfaceID in
    let* ok := match ptr with Some _ => expecting m dstaddr dstport id q | None => Ret false end in
    let* m := if (ok : bool) then
                let* slot := HashSlot (q_qname q) in
                let* cg := CacheGroupForName m slot (q_qnamehash q) (q_qname q) in
                let* r := members_of m cg in
                for_members (list_fuel m) (mark_stale q) m r
              else Ret m in
    mark_questions n m msg ptr e InterfaceID dstaddr dstport id
  | _, _ => Ret (m, ptr)
  end.

(** ** A record that is in the cache already *)
(** [for (q = m->Questions; q; q=q->next) if (ResourceRecordAnswersQuestion(&rr->resrec, q)) q->UniqueAnswers++;] *)
Fixpoint count_unique (fuel : nat) (m : mDNS) (r q : Z) : outcome mDNS :=
  match fuel with
  | O => Fault OutOfFuel
  | S fuel =>
    if q =? 0 then Ret m else
    let* a := answers m r q in
    let* m := if (a : bool) then set_q m q (fun qq => qq <| Q_UniqueAnswers := u32 (Q_UniqueAnswers qq + 1) |>) else Ret m in
    let* qq := get_q m q in
    count_unique fuel m r (Q_next qq)
  end.
(** The packet record has the cache-flush bit: the record goes on the list, and is unique from now on. *)
Definition make_unique (m : mDNS) (cf : cf_list) (LLQType : uDNS_LLQType) (r : Z) : outcome (mDNS * cf_list) :=
  let* cr := get_rec m r in
  let* '(m, cf) := if (cr_NextInCFList cr =? 0) && negb (bool_decide (snd cf = CFNext r)) && (match LLQType with uDNS_LLQ_Events => false | _ => true end)
                   then cf_append m cf r else Ret (m, cf) in
  let* cr := get_rec m r in
  if is_unique (cr_resrec cr) then Ret (m, cf) else
  let* m := count_unique (q_fuel m) m r (m_Questions m) in
  let* m := set_rec m r (fun cr => cr <| cr_resrec := (cr_resrec cr) <| rr_RecordType := rr_RecordType (cr_resrec (m_rec m)) |> |>) in
  Ret (m, cf).
(** The result says whether the search ends here. *)
Definition found_record (m : mDNS) (cf : cf_list) (LLQType : uDNS_LLQType) (r : Z) : outcome (mDNS * cf_list * bool) :=
  let* m := set_rec m r (fun cr => cr <| cr_TimeRcvd := m_timenow m |>) in
  let rec := cr_resrec (m_rec m) in
  let* '(m, cf) := if is_unique rec then make_unique m cf LLQType r else Ret (m, cf) in
  let* cr := get_rec m r in
  let* same := MemSame (Z.to_nat (rr_rdlength rec)) (rr_rdata rec) (rr_rdata (cr_resrec cr)) 0 in
  if negb same then
    let* m := set_rec m r (fun cr => cr <| cr_resrec := (cr_resrec cr) <| rr_rroriginalttl := 0 |> |> <| cr_UnansweredQueries := MaxUnansweredQueries |>) in
    let* m := SetNextCacheCheckTime m r in Ret (m, cf, false)
  else if 0 <? rr_rroriginalttl rec then
    let* m := RefreshCacheRecord m r (rr_rroriginalttl rec) in Ret (m, cf, true)
  else
    let* m := set_rec m r (fun cr => cr <| cr_resrec := (cr_resrec cr) <| rr_rroriginalttl := 1 |> |> <| cr_UnansweredQueries := MaxUnansweredQueries |>) in
    let* m := SetNextCacheCheckTime m r in Ret (m, cf, true).
Fixpoint find_cached (fuel : nat) (m : mDNS) (cf : cf_list) (InterfaceID : Z) (LLQType : uDNS_LLQType) (r : Z) : outcome (mDNS * cf_list * Z) :=
  match fuel with
  | O => Fault OutOfFuel
  | S fuel =>
    if r =? 0 then Ret (m, cf, 0) else
    let* cr := get_rec m r in
    let* same := if rr_InterfaceID (cr_resrec cr) =? InterfaceID then IdenticalSameNameRecord (cr_resrec (m_rec m)) (cr_resrec cr) else Ret false in
    let* '(m, cf, stop) := if (same : bool) then found_record m cf LLQType r else Ret (m, cf, false) in
    if (stop : bool) then Ret (m, cf, r) else
    let* cr := get_rec m r in
    find_cached fuel m cf InterfaceID LLQType (cr_next cr)
  end.

(** ** One record of the packet *)
(** A record of the list refers to the name of the packet record. *)
Fixpoint refers (fuel : nat) (m : mDNS) (r : Z) : outcome bool :=
  match fuel with
  | O => Fault OutOfFuel
  | S fuel =>
    if r =? cf_end then Ret false else
    let* cr := get_rec m r in
    let* same := match GetRRDomainNameTarget (cr_resrec cr) with
                 | Some target => if rr_rdatahash (cr_resrec cr) =? rr_namehash (cr_resrec (m_rec m))
                                  then SameDomainName target (rr_name (cr_resrec (m_rec m))) else Ret false
                 | None => Ret false
                 end in
    if (same : bool) then Ret true else refers fuel m (cr_NextInCFList cr)
  end.
(** Step 2: the cache. *)
Definition cache_packet_record (fuel : nat) (m : mDNS) (cf : cf_list) (InterfaceID : Z) (LLQType : uDNS_LLQType) : outcome (mDNS * cf_list) :=
  let rec := cr_resrec (m_rec m) in
  let* slot := HashSlot (rr_name rec) in
  let* cg := CacheGroupForRecord m slot rec in
  let* r := members_of m cg in
  let* '(m, cf, r) := find_cached (list_fuel m) m cf InterfaceID LLQType r in
  if (r =? 0) && (0 <? rr_rroriginalttl rec) then
    let* '(m, r) := CreateNewCacheEntry fuel m slot cg in
    if r =? 0 then Ret (m, cf) else
    let* cr := get_rec m r in
    if is_unique (cr_resrec cr) && (match LLQType with uDNS_LLQ_Events => false | _ => true end) then cf_append m cf r else Ret (m, cf)
  else Ret (m, cf).

(** What is the same for all the records of a packet. *)
Record packet := mkPacket {
  pk_msg : list Z;
  pk_end : Z;
  pk_id : Z;
  pk_InterfaceID : Z;
  pk_dstport : Z;
  pk_Unicast : bool;        (* [dstaddr] is not NULL *)
  pk_ResponseMCast : bool;
  pk_ResponseSrcLocal : bool;
  pk_LLQType : uDNS_LLQType
}.
Definition is_LLQ (LLQType : uDNS_LLQType) : bool := match LLQType with uDNS_LLQ_Not => false | _ => true end.
Definition receive_record (fuel : nat) (pk : packet) (m : mDNS) (cf : cf_list) : outcome (mDNS * cf_list) :=
  let t := rr_rrtype (cr_resrec (m_rec m)) in
  if (t =? kDNSType_OPT) || (t =? kDNSType_TSIG) then Ret (clear_rec m, cf) else
  let m := if pk_id pk =? 0 then m else
           m <| m_rec := (m_rec m) <| cr_resrec := (cr_resrec (m_rec m)) <| rr_rroriginalttl :=
             GetEffectiveTTL (pk_LLQType pk) (rr_rroriginalttl (cr_resrec (m_rec m))) |> |> |> in
  let AcceptableResponse := pk_ResponseMCast pk || negb (pk_Unicast pk) || is_LLQ (pk_LLQType pk) in
  let* AcceptableResponse := if AcceptableResponse then Ret true else
    ExpectingUnicastResponseForRecord (q_fuel m) m (m_Questions m) (pk_ResponseSrcLocal pk) (pk_dstport pk) (pk_id pk) (cr_resrec (m_rec m)) in
  let* AcceptableResponse := if (AcceptableResponse : bool) then Ret true else refers (list_fuel m) m (fst cf) in
  let* '(m, cf) := if negb (m_rrcache_size m =? 0) && AcceptableResponse
                   then cache_packet_record fuel m cf (pk_InterfaceID pk) (pk_LLQType pk) else Ret (m, cf) in
  Ret (clear_rec m, cf).

Definition section_of (i firstauthority firstadditional : Z) : Z :=
  if i <? firstauthority then kDNSRecordTypePacketAns else if i <? firstadditional then kDNSRecordTypePacketAuth else kDNSRecordTypePacketAdd.
Fixpoint receive_records (n : nat) (i firstauthority firstadditional : Z) (fuel : nat) (pk : packet) (m : mDNS) (cf : cf_list) (ptr : option Z)
    : outcome (mDNS * cf_list) :=
  match n, ptr with
  | S n, Some p =>
    if negb (p <? pk_end pk) then Ret (m, cf) else
    let* '(m, ptr) := get_packet_record m (pk_msg pk) p (pk_end pk) (pk_InterfaceID pk) (section_of i firstauthority firstadditional) in
    match ptr with
    | None => Ret (m, cf)
    | Some _ =>
      let* '(m, cf) := receive_record fuel pk m cf in
      receive_records n (i + 1) firstauthority firstadditional fuel pk m cf ptr
    end
  | _, _ => Ret (m, cf)
  end.

(** ** Flushing *)
(** [r1] came with the cache-flush bit; [r2] is a record of the same name. *)
Definition flush_member (r1 : Z) (m : mDNS) (r2 : Z) : outcome mDNS :=
  let* c1 := get_rec m r1 in
  let* c2 := get_rec m r2 in
  let rr1 := cr_resrec c1 in
  let rr2 := cr_resrec c2 in
  if (rr_InterfaceID rr1 =? rr_InterfaceID rr2) && (rr_rrtype rr1 =? rr_rrtype rr2) && (rr_rrclass rr1 =? rr_rrclass rr2) then
    let* m :=
      if (s32 (m_timenow m - cr_TimeRcvd c2) <? one_second) && (one_second <? s32 (RRExpireTime c2 - m_timenow m)) then
        set_rec m r2 (fun c2 => (if negb (rr_rroriginalttl rr2 =? rr_rroriginalttl rr1) && (1 <? rr_rroriginalttl rr1)
                                 then c2 <| cr_resrec := (cr_resrec c2) <| rr_rroriginalttl := rr_rroriginalttl rr1 |> |> else c2)
                      <| cr_TimeRcvd := m_timenow m |>)
      else if (cr_TimeRcvd c2 =? m_timenow m) && (rr_rroriginalttl rr2 <=? 1) && (cr_UnansweredQueries c2 =? MaxUnansweredQueries) then
        let* m := set_rec m r2 (fun c2 => c2 <| cr_resrec := (cr_resrec c2) <| rr_rroriginalttl := 0 |> |>) in
        Ret (m <| m_NextCacheCheck := m_timenow m |> <| m_NextScheduledEvent := m_timenow m |>)
      else if one_second <? s32 (RRExpireTime c2 - m_timenow m) then
        set_rec m r2 (fun c2 => c2 <| cr_resrec := (cr_resrec c2) <| rr_rroriginalttl := 1 |> |>
                                   <| cr_UnansweredQueries := MaxUnansweredQueries |> <| cr_TimeRcvd := s32 (m_timenow m - 1) |>)
      else Ret m in
    SetNextCacheCheckTime m r2
  else Ret m.
Definition flush_record (m : mDNS) (r1 : Z) : outcome (mDNS * Z) :=
  let* c1 := get_rec m r1 in
  let* rr1 := resrec_of m c1 in
  let* slot := HashSlot (rr_name rr1) in
  let* cg := CacheGroupForRecord m slot rr1 in
  let next := cr_NextInCFList c1 in
  let* m := set_rec m r1 (fun cr => cr <| cr_NextInCFList := 0 |>) in
  let* r2 := members_of m cg in
  let* m := for_members (list_fuel m) (flush_member r1) m r2 in
  let* c1 := get_rec m r1 in
  let* m := if cr_DelayDelivery c1 =? 0 then Ret m else
            let* rr1 := resrec_of m c1 in
            let* delay := CheckForSoonToExpireRecords m (rr_name rr1) (rr_namehash rr1) slot in
            let* m := set_rec m r1 (fun cr => cr <| cr_DelayDelivery := delay |>) in
            if delay =? 0 then CacheRecordDeferredAdd m r1 else Ret m in
  Ret (m, next).
Fixpoint flush_records (fuel : nat) (m : mDNS) (r : Z) : outcome mDNS :=
  match fuel with
  | O => Fault OutOfFuel
  | S fuel =>
    if r =? cf_end then Ret m else
    let* '(m, next) := flush_record m r in
    flush_records fuel m next
  end.

(** ** Negative answers *)
(** The record that makes a negative entry unnecessary, or 0, and the
    negative entry that is there. *)
Fixpoint find_negative (fuel : nat) (m : mDNS) (q : DNSQuestion) (r neg : Z) : outcome (Z * Z) :=
  match fuel with
  | O => Fault OutOfFuel
  | S fuel =>
    if r =? 0 then Ret (0, neg) else
    let* cr := get_rec m r in
    if SameNameRecordAnswersQuestion (cr_resrec cr) q then
      if 0 <? s32 (RRExpireTime cr - m_timenow m) then Ret (r, neg) else
      find_negative fuel m q (cr_next cr) (if rr_RecordType (cr_resrec cr) =? kDNSRecordTypePacketNegative then r else neg)
    else find_negative fuel m q (cr_next cr) neg
  end.
(** The lifetime from the SOA record of the authority section, and the number
    of further names that do not exist.  The first result is the new value of
    [ptr], if it was assigned. *)
Definition soa_minimum (m : mDNS) (msg : list Z) (ptr : option Z) (e InterfaceID : Z) (q : DNSQuestion) : outcome (mDNS * option Z * Z * Z) :=
  let negttl := 60 in
  let* n := get16 msg off_numAuthorities in
  if n =? 0 then Ret (m, ptr, negttl, 0) else
  let* ptr := LocateAuthorities msg e in
  match ptr with
  | None => Ret (m, None, negttl, 0)
  | Some p =>
    let* '(m, ptr) := get_packet_record m msg p e InterfaceID kDNSRecordTypePacketAuth in
    let rr := cr_resrec (m_rec m) in
    match ptr with
    | Some _ =>
      if rr_rrtype rr =? kDNSType_SOA then
        let* min := get32 (rr_rdata rr) (off_soa_serial + 16) in
        let ttl_s := if rr_rroriginalttl rr <? min then rr_rroriginalttl rr else min in
        let negttl := if negttl <? ttl_s then ttl_s else negttl in
        let* repeat :=
          if q_qtype q =? kDNSType_SOA then
            let* qcount := CountLabels (q_qname q) in
            let* scount := CountLabels (rr_name rr) in
            if scount <? qcount - 1 then
              let* d := SkipLeadingLabels (q_qname q) (qcount - scount) in
              let* same := SameDomainName d (rr_name rr) in
              Ret (if (same : bool) then qcount - 1 - scount else 0)
            else Ret 0
          else Ret 0 in
        Ret (clear_rec m, ptr, negttl, repeat)
      else Ret (clear_rec m, ptr, negttl, 0)
    | None => Ret (clear_rec m, None, negttl, 0)
    end
  end.
(** [while (1) { MakeNegativeCacheRecord(...); CreateNewCacheEntry(...); ... }] *)
Fixpoint make_negatives (repeat : nat) (fuel : nat) (m : mDNS) (q : DNSQuestion) (negttl : Z) (name : list Z) (hash slot cg : Z) : outcome mDNS :=
  let m := MakeNegativeCacheRecord m name hash (q_qtype q) (q_qclass q) negttl in
  let* '(m, _) := CreateNewCacheEntry fuel m slot cg in
  let m := clear_rec m in
  match repeat with
  | O => Ret m
  | S repeat =>
    let* len := aget name 0 in
    let name := ptr_add name (1 + len) in
    let* hash := DomainNameHashValue name in
    let* slot := HashSlot name in
    let* cg := CacheGroupForName m slot hash name in
    make_negatives repeat fuel m q negttl name hash slot cg
  end.
Definition negative_entry (fuel : nat) (m : mDNS) (msg : list Z) (ptr : option Z) (e InterfaceID : Z) (LLQType : uDNS_LLQType) (q : DNSQuestion)
    : outcome (mDNS * option Z) :=
  let* slot := HashSlot (q_qname q) in
  let* cg := CacheGroupForName m slot (q_qnamehash q) (q_qname q) in
  let* r := members_of m cg in
  let* '(r, neg) := find_negative (list_fuel m) m q r 0 in
  if negb (r =? 0) then Ret (m, ptr) else
  let* '(m, ptr, negttl, repeat) := soa_minimum m msg ptr e InterfaceID q in
  let* negttl := if neg =? 0 then Ret negttl else
                 let* cr := get_rec m neg in
                 let double := u32 (rr_rroriginalttl (cr_resrec cr) * 2) in
                 let negttl := if negttl <? double then double else negttl in
                 Ret (if 3600 <? negttl then 3600 else negttl) in
  let negttl := GetEffectiveTTL LLQType negttl in
  let* m := if neg =? 0 then make_negatives (Z.to_nat repeat) fuel m q negttl (q_qname q) (q_qnamehash q) slot cg
            else RefreshCacheRecord m neg negttl in
  Ret (m, ptr).
Fixpoint negative_entries (n : nat) (fuel : nat) (m : mDNS) (msg : list Z) (ptr : option Z) (e InterfaceID : Z) (LLQType : uDNS_LLQType)
    (dstaddr : option mDNSAddr) (dstport id : Z) : outcome mDNS :=
  match n, ptr with
  | S n, Some p =>
    if negb (p <? e) then Ret m else
    let* '(q, ptr) := getQuestion msg p e InterfaceID in
    let* ok := match ptr with Some _ => expecting m dstaddr dstport id q | None => Ret false end in
    let* '(m, ptr) := if (ok : bool) then negative_entry fuel m msg ptr e InterfaceID LLQType q else Ret (m, ptr) in
    negative_entries n fuel m msg ptr e InterfaceID LLQType dstaddr dstport id
  | _, _ => Ret m
  end.

(** ** The whole function *)
(** [response] is the memory of the packet, [e] its end; the counts of the
    header are in host order.  [fuel] bounds the walks of [NoCacheAnswer]. *)
Definition mDNSCoreReceiveResponse (fuel : nat) (m : mDNS) (response : list Z) (e : Z) (srcaddr dstaddr : option mDNSAddr) (dstport InterfaceID : Z)
    : outcome mDNS :=
  let ResponseMCast := match dstaddr with Some a => mDNSAddrIsDNSMulticast a | None => false end in
  let* ResponseSrcLocal := match srcaddr with Some a => AddressIsLocalSubnet m InterfaceID a | None => Ret true end in
  let* '(m, LLQType) := uDNS_recvLLQResponse m response e in
  let* numQuestions := get16 response off_numQuestions in
  let* numAnswers := get16 response off_numAnswers in
  let* numAuthorities := get16 response off_numAuthorities in
  let* numAdditionals := get16 response off_numAdditionals in
  let firstauthority := numAnswers in
  let firstadditional := firstauthority + numAuthorities in
  let totalrecords := firstadditional + numAdditionals in
  match LLQType with uDNS_LLQ_Ignore => Ret m | _ =>
  let* id := rd16 response 0 in
  let* flags0 := aget response 2 in
  let* '(m, ptr) :=
    if ResponseMCast || (match LLQType with uDNS_LLQ_Events => true | _ => false end) || negb (Z.land flags0 kDNSFlag0_TC =? 0)
    then let* ptr := LocateAnswers response e in Ret (m, ptr)
    else mark_questions (Z.to_nat numQuestions) m response (Some off_data) e InterfaceID dstaddr dstport id in
  let pk := mkPacket response e id InterfaceID dstport (match dstaddr with Some _ => true | None => false end) ResponseMCast ResponseSrcLocal LLQType in
  if (id =? 0) && negb (bool_decide (m_ResourceRecords m = [] ∧ m_NewLocalRecords m = [])) then Fault OwnRecords else
  let* '(m, cf) := receive_records (Z.to_nat totalrecords) 0 firstauthority firstadditional fuel pk m (cf_end, CFHead) ptr in
  let m := clear_rec m in
  let* m := flush_records (list_fuel m) m (fst cf) in
  negative_entries (Z.to_nat numQuestions) fuel m response (Some off_data) e InterfaceID LLQType dstaddr dstport id
  end.
End Receive.
