(* ===== verification/MDNSList.v ===== *)
(** Linked lists in memory: segments, and counting the cells of a memory.

    [lseg nx h e l]: following [nx] from the pointer [h], the cells are those
    of [l] and the last link is [e].  [nx p] is [None] where there is no cell
    with such a link.  A chain is a segment that ends in NULL; it cannot meet
    itself, so it is no longer than the memory is large. *)
From S2P Require Import Prelude.

Section Lseg.
Implicit Types (nx : Z → option Z) (h e k p n : Z) (l a b : list Z).

Fixpoint lseg nx h e l : Prop :=
  match l with
  | [] => h = e
  | p :: l => h = p ∧ p ≠ 0 ∧ ∃ n, nx p = Some n ∧ lseg nx n e l
  end.
Abbreviation chain nx h l := (lseg nx h 0 l).

Lemma lseg_app nx h e a b : lseg nx h e (a ++ b) ↔ ∃ k, lseg nx h k a ∧ lseg nx k e b.
Proof.
  revert h. induction a as [|p a IH]; intros h; simpl; [naive_solver|].
  setoid_rewrite IH. split; [intros (? & ? & n & ? & k & ? & ?); exists k; naive_solver|naive_solver].
Qed.

Lemma lseg_snoc nx h e l p : lseg nx h e (l ++ [p]) ↔ lseg nx h p l ∧ p ≠ 0 ∧ nx p = Some e.
Proof. rewrite lseg_app. simpl. naive_solver. Qed.

Lemma lseg_ext nx nx' h e l : (∀ p, p ∈ l → nx' p = nx p) → lseg nx h e l → lseg nx' h e l.
Proof.
  revert h. induction l as [|p l IH]; intros h Hx; [done|]. intros (-> & Hp & n & Hn & Hl).
  split; [done|]. split; [done|]. exists n. rewrite Hx by apply list_elem_of_here. split; [done|].
  apply IH; [|done]. intros q Hq. apply Hx. by apply list_elem_of_further.
Qed.

Lemma lseg_next nx h e l p : lseg nx h e l → p ∈ l → p ≠ 0 ∧ is_Some (nx p).
Proof.
  revert h. induction l as [|q l IH]; intros h; [by intros _ ?%elem_of_nil|].
  intros (-> & Hq & n & Hn & Hl) [->|Hp]%elem_of_cons; [by eauto|by eapply IH].
Qed.

Lemma chain_det nx h l l' : chain nx h l → chain nx h l' → l = l'.
Proof.
  revert h l'. induction l as [|p l IH]; intros h [|p' l']; simpl; [done|naive_solver..|].
  intros (-> & ? & n & Hn & Hl) (<- & _ & n' & Hn' & Hl'). rewrite Hn in Hn'. injection Hn' as <-.
  f_equal. by eapply IH.
Qed.

Lemma chain_NoDup nx h l : chain nx h l → NoDup l.
Proof.
  revert h. induction l as [|p l IH]; intros h; [constructor|].
  intros (-> & Hp & n & Hn & Hl). constructor; [|by eapply IH].
  intros (a & b & ->)%list_elem_of_split. pose proof Hl as Hl'.
  apply lseg_app in Hl' as (k & _ & Hk). pose proof Hk as (-> & _).
  assert (chain nx p (p :: a ++ p :: b)) as H1.
  { split; [done|]. split; [done|]. by exists n. }
  pose proof (f_equal length (chain_det _ _ _ _ H1 Hk)) as Hlen.
  simpl in Hlen. rewrite length_app in Hlen. simpl in Hlen. lia.
Qed.

Lemma lseg_in_chain nx h b l p : lseg nx h p l → chain nx p b → p ∉ l.
Proof.
  intros Hl He Hin. destruct b as [|q b].
  - simpl in He. subst p. by apply (lseg_next _ _ _ _ _ Hl) in Hin as [? _].
  - pose proof He as (-> & _). assert (chain nx h (l ++ q :: b)) as H by (apply lseg_app; eauto).
    apply chain_NoDup, NoDup_app in H as (_ & H & _). apply (H q Hin), list_elem_of_here.
Qed.

Lemma chain_zero nx l : chain nx 0 l → l = [].
Proof. destruct l; [done|]. by intros (<- & ? & _). Qed.

(** A chain through the cells of a memory is no longer than the memory. *)
Lemma chain_size {A} (M : gmap Z A) nx h l : chain nx h l → (∀ p, is_Some (nx p) → is_Some (M !! p)) →
  (length l ≤ size M)%nat.
Proof.
  intros Hl Hnx. rewrite <- size_dom. rewrite <- (size_list_to_set (C := gset Z) l) by by eapply chain_NoDup.
  apply subseteq_size. intros p Hp%elem_of_list_to_set. apply elem_of_dom, Hnx. by eapply lseg_next.
Qed.
End Lseg.
Abbreviation chain nx h l := (lseg nx h 0 l).

(** ** Counting cells *)
Section Count.
Context {A : Type}.
Implicit Types (f : A → bool) (M : gmap Z A).

Definition count f M : Z := Z.of_nat (size (filter (fun kv : Z * bool => kv.2 = true) (f <$> M))).
Definition cell f (c : option A) : Z := match c with Some a => Z.b2z (f a) | None => 0 end.

Lemma count_ext f g M M' : (∀ p, f <$> M !! p = g <$> M' !! p) → count f M = count g M'.
Proof. intros Hx. unfold count. do 3 f_equal. apply map_eq. intros p. by rewrite !lookup_fmap. Qed.

Lemma count_nonneg f M : 0 ≤ count f M.
Proof. unfold count. lia. Qed.

Lemma count_delete f M p : count f M = count f (delete p M) + cell f (M !! p).
Proof.
  unfold count. rewrite fmap_delete, map_filter_delete. set (F := filter _ (f <$> M)).
  destruct (M !! p) as [a|] eqn:Hp; simpl.
  - destruct (f a) eqn:Hf; simpl.
    + assert (F !! p = Some true) as HF.
      { apply map_lookup_filter_Some. by rewrite lookup_fmap, Hp; simpl; rewrite Hf. }
      rewrite <- (insert_delete_id F p true HF) at 1. rewrite map_size_insert_None by apply lookup_delete_eq. lia.
    + rewrite delete_id; [lia|]. apply map_lookup_filter_None. right. intros b. rewrite lookup_fmap, Hp. simpl. intros [= <-]. simpl. congruence.
  - rewrite delete_id; [lia|]. apply map_lookup_filter_None. left. by rewrite lookup_fmap, Hp.
Qed.

Lemma count_insert f M p a : count f (<[p := a]> M) = count f M + Z.b2z (f a) - cell f (M !! p).
Proof.
  rewrite (count_delete f (<[p := a]> M) p), (count_delete f M p), lookup_insert_eq. simpl.
  rewrite delete_insert_eq. lia.
Qed.

Lemma count_true M : count (fun _ => true) M = Z.of_nat (size M).
Proof.
  unfold count. f_equal. rewrite map_filter_id; [by rewrite map_size_fmap|].
  intros p b. rewrite lookup_fmap. by intros (a & _ & ->)%fmap_Some.
Qed.

Lemma count_mono f M M' : (∀ p, cell f (M !! p) ≤ cell f (M' !! p)) → count f M ≤ count f M'.
Proof.
  intros Hc. unfold count. apply inj_le. rewrite <- !(size_dom (D := gset Z)). apply subseteq_size. intros p [b Hb]%elem_of_dom. apply elem_of_dom.
  apply map_lookup_filter_Some in Hb as [Hb Ht]. rewrite lookup_fmap in Hb. specialize (Hc p). destruct (M !! p) as [a|]; [|done]. injection Hb as <-. simpl in Ht.
  exists true. apply map_lookup_filter_Some. rewrite lookup_fmap. destruct (M' !! p) as [a'|]; simpl in *; rewrite Ht in Hc; [|done]. destruct (f a'); done.
Qed.
Lemma count_le f g M : (∀ a, f a = true → g a = true) → count f M ≤ count g M.
Proof.
  intros Hfg. unfold count. apply inj_le. rewrite <- !size_dom. apply subseteq_size. intros p.
  rewrite !elem_of_dom. intros [b Hb]. apply map_lookup_filter_Some in Hb as [Hb Hb2]. simpl in Hb2. subst b.
  rewrite lookup_fmap in Hb. apply fmap_Some in Hb as (a & Ha & Hf). exists true. apply map_lookup_filter_Some.
  split; [|done]. rewrite lookup_fmap, Ha. simpl. by rewrite Hfg.
Qed.
End Count.
