(* ===== verification/MDNSInv.v ===== *)
(** The invariant of the record cache, and that every change of its linked
    structure keeps it.

    [cache_wf t o m]: the free list holds exactly the free cells, slot [i] of
    the hash table exactly the groups whose name hashes to [i], a group
    exactly the records whose name is its name, its tail pointer the end of
    that list; no two groups have the same name; the counters count.  Two
    exceptions let it describe states in the middle of an operation: the
    tail of the group [t] may be stale, and the entity [o] is in use but in
    no list.  [cache_wf 0 0] has no exception, since 0 is no address. *)
From S2P Require Import Prelude Bytes DNSTypes DNSName DNSRecord DNSRecordSpec DNSMessage MDNSTypes MDNSCache MDNSList.

Implicit Types (E : gmap Z CacheEntity) (m : mDNS) (p g r t o : Z).

(** ** Links *)
Definition free_next E p : option Z := match E !! p with Some (EFree n) => Some n | _ => None end.
Definition group_next E p : option Z := match E !! p with Some (EGroup cg) => Some (cg_next cg) | _ => None end.
Definition rec_next E p : option Z := match E !! p with Some (ERecord cr) => Some (cr_next cr) | _ => None end.
Definition tail_of g (rs : list Z) : rr_loc := match last rs with Some r => NextOf r | None => Members g end.

Lemma free_next_Some E p n : free_next E p = Some n ↔ E !! p = Some (EFree n).
Proof. unfold free_next. repeat case_match; naive_solver. Qed.
Lemma group_next_Some E p n : group_next E p = Some n ↔ ∃ cg, E !! p = Some (EGroup cg) ∧ cg_next cg = n.
Proof. unfold group_next. repeat case_match; naive_solver. Qed.
Lemma rec_next_Some E p n : rec_next E p = Some n ↔ ∃ cr, E !! p = Some (ERecord cr) ∧ cr_next cr = n.
Proof. unfold rec_next. repeat case_match; naive_solver. Qed.

(** ** Names *)
(** The memory [d] holds a legal name with the hash [h]. *)
Definition name_mem (d : list Z) (h : Z) : Prop :=
  ∃ ls, name_ok ls ∧ is_name d ls ∧ DomainNameHashValue d = Ret h.
Definition same_mem (d d' : list Z) : Prop :=
  ∃ ls ls', name_ok ls ∧ name_ok ls' ∧ is_name d ls ∧ is_name d' ls' ∧ same_name ls ls'.
(** The rdata of a record is what its type asks for; the name it refers to,
    if any, is legal. *)
Definition data_ok (rr : ResourceRecord) : Prop := rdata_ok rr (rr_rdata rr) ∧ 0 ≤ rr_rdlength rr ≤ zlen (rr_rdata rr).
Definition target_ok (rr : ResourceRecord) : Prop :=
  ∀ d, GetRRDomainNameTarget rr = Some d → ∃ ls, name_ok ls ∧ is_name d ls.
Lemma data_target rr : data_ok rr → target_ok rr.
Proof.
  unfold data_ok, rdata_ok, target_ok, GetRRDomainNameTarget. destruct (kind_of_type _); intros [Hd _] d [= <-].
  - destruct Hd as (ls & Hls & Hn). exists ls. split; [done|]. exact Hn.
  - apply Hd.
  - apply Hd.
Qed.

Lemma name_mem_same d h d' h' : name_mem d h → name_mem d' h' →
  ∃ b, SameDomainName d d' = Ret b ∧ (b = true ↔ same_mem d d') ∧ (b = true → h = h').
Proof.
  intros (ls & Hn & Hd & Hh) (ls' & Hn' & Hd' & Hh').
  rewrite (SameDomainName_spec d d' ls ls') by (done || apply Hn' || apply Hn).
  eexists. split; [done|]. rewrite bool_decide_eq_true. split.
  - split; [by exists ls, ls'|]. intros (k & k' & Hk & Hk' & H & H' & Hs).
    by rewrite (encode_inj ls k d 0), (encode_inj ls' k' d' 0) by (done || apply Hn || apply Hn' || apply Hk || apply Hk').
  - intros Hs. destruct (DomainNameHashValue_spec d d' ls ls') as (x & Hx & Hx');
      [apply Hn|apply Hn'|done|done|done|]. congruence.
Qed.

(** ** What is counted *)
Definition is_used (e : CacheEntity) : bool := match e with EFree _ => false | _ => true end.
Definition is_external (e : CacheEntity) : bool :=
  match e with EGroup cg => cg_external cg | ERecord cr => cr_external cr | _ => false end.
Definition is_active (e : CacheEntity) : bool :=
  match e with ERecord cr => negb (cr_CRActiveQuestion cr =? 0) | _ => false end.

(** ** The invariant *)
Definition holds_members E o g (h : Z) (rs : list Z) : Prop :=
  chain (rec_next E) h rs ∧ ∀ r cr, E !! r = Some (ERecord cr) → (r ∈ rs ↔ r ≠ o ∧ cr_group cr = g).
Definition record_ok E o (cr : CacheRecord) : Prop :=
  ∃ cg, E !! cr_group cr = Some (EGroup cg) ∧ cr_group cr ≠ o ∧
    rr_namehash (cr_resrec cr) = cg_namehash cg ∧ data_ok (cr_resrec cr).

(** The lists of the hash table. *)
Record lists_wf t o E (hash : list Z) : Prop := {
  lw_slot : ∀ i h, at_ hash i h → ∃ l, chain (group_next E) h l ∧
    ∀ g cg, E !! g = Some (EGroup cg) → (g ∈ l ↔ g ≠ o ∧ cg_namehash cg mod CACHE_HASH_SLOTS = i);
  lw_name : ∀ g cg, E !! g = Some (EGroup cg) → g ≠ o → name_mem (cg_name cg) (cg_namehash cg);
  lw_unique : ∀ g cg g' cg', E !! g = Some (EGroup cg) → E !! g' = Some (EGroup cg') →
    g ≠ o → g' ≠ o → same_mem (cg_name cg) (cg_name cg') → g = g';
  lw_members : ∀ g cg, E !! g = Some (EGroup cg) → g ≠ o → ∃ rs, holds_members E o g (cg_members cg) rs ∧
    (g ≠ t → cg_rrcache_tail cg = tail_of g rs);
  lw_rec : ∀ r cr, E !! r = Some (ERecord cr) → r ≠ o → record_ok E o cr
}.
Record cache_wf t o m : Prop := {
  cw_lists : lists_wf t o (m_ents m) (m_rrcache_hash m);
  cw_hash : zlen (m_rrcache_hash m) = CACHE_HASH_SLOTS;
  cw_pos : ∀ p e, m_ents m !! p = Some e → 0 < p;
  cw_free : ∃ l, chain (free_next (m_ents m)) (m_rrcache_free m) l ∧ ∀ p n, m_ents m !! p = Some (EFree n) → p ∈ l;
  cw_zero : ∀ p, m_ents m !! p = Some EZero → p = o;
  cw_orphan : o = 0 ∨ ∃ e, m_ents m !! o = Some e ∧ is_used e = true;
  cw_size : m_rrcache_size m = Z.of_nat (size (m_ents m)) ∧ is_u32 (m_rrcache_size m);
  cw_used : m_rrcache_totalused m = count is_used (m_ents m);
  cw_blocks : m_blocks m = count is_external (m_ents m)
}.
Arguments lw_slot {t o E hash}. Arguments lw_name {t o E hash}. Arguments lw_unique {t o E hash}.
Arguments lw_members {t o E hash}. Arguments lw_rec {t o E hash}.
Arguments cw_lists {t o m}. Arguments cw_hash {t o m}. Arguments cw_pos {t o m}. Arguments cw_free {t o m}.
Arguments cw_zero {t o m}. Arguments cw_orphan {t o m}. Arguments cw_size {t o m}. Arguments cw_used {t o m}.
Arguments cw_blocks {t o m}.
Abbreviation cw_slot H := (lw_slot (cw_lists H)).
Abbreviation cw_name H := (lw_name (cw_lists H)).
Abbreviation cw_unique H := (lw_unique (cw_lists H)).
Abbreviation cw_members H := (lw_members (cw_lists H)).
Abbreviation cw_rec H := (lw_rec (cw_lists H)).

Lemma wf_nonzero t o m p e : cache_wf t o m → m_ents m !! p = Some e → p ≠ 0.
Proof. intros Hw Hp. pose proof (cw_pos Hw _ _ Hp). lia. Qed.

(** ** States with the same structure

    Most operations change only what records say about themselves, not how
    they are linked: [strip] is what the structure depends on.  With [keep]
    it shows in which list of records to flush a record is. *)
Definition strip_gen (keep : bool) (cr : CacheRecord) : CacheRecord :=
  cr <| cr_resrec := (cr_resrec cr) <| rr_RecordType := 0 |> <| rr_rroriginalttl := 0 |> |>
     <| cr_NextInKAList := 0 |> <| cr_TimeRcvd := 0 |> <| cr_DelayDelivery := 0 |> <| cr_NextRequiredQuery := 0 |>
     <| cr_LastUsed := 0 |> <| cr_CRActiveQuestion := 0 |> <| cr_UnansweredQueries := 0 |> <| cr_LastUnansweredTime := 0 |>
     <| cr_MPUnansweredQ := 0 |> <| cr_MPLastUnansweredQT := 0 |> <| cr_MPUnansweredKA := 0 |> <| cr_MPExpectingKA := false |>
     <| cr_NextInCFList := if keep then cr_NextInCFList cr else 0 |>.
Abbreviation strip_rec := (strip_gen true).
Definition strip (keep : bool) (e : CacheEntity) : CacheEntity :=
  match e with ERecord cr => ERecord (strip_gen keep cr) | e => e end.

Definition same_gen (keep : bool) E E' : Prop := ∀ p, strip keep <$> E !! p = strip keep <$> E' !! p.
Abbreviation same_ents := (same_gen true).
Record same_cache_gen {keep : bool} m m' : Prop := {
  sc_hash : m_rrcache_hash m' = m_rrcache_hash m;
  sc_free : m_rrcache_free m' = m_rrcache_free m;
  sc_size : m_rrcache_size m' = m_rrcache_size m;
  sc_used : m_rrcache_totalused m' = m_rrcache_totalused m;
  sc_blocks : m_blocks m' = m_blocks m;
  sc_ents : same_gen keep (m_ents m) (m_ents m')
}.
Abbreviation same_cache := (@same_cache_gen true).

#[export] Instance same_ents_equiv keep : Equivalence (same_gen keep).
Proof. split; [by intros E p|by intros E E' H p|by intros E E' E'' H H' p; rewrite H]. Qed.
#[export] Instance same_cache_equiv keep : Equivalence (@same_cache_gen keep).
Proof.
  split; [by intros m; split|intros m m' []; split; (done || by symmetry)|].
  intros m m' m'' [] []; split; (congruence || by etransitivity).
Qed.

Section Same.
Context {keep : bool}.

Lemma same_ents_group {E E'} (H : same_gen keep E E') {g cg} : E !! g = Some (EGroup cg) ↔ E' !! g = Some (EGroup cg).
Proof. specialize (H g). destruct (E !! g) as [[]|], (E' !! g) as [[]|]; simpl in H; naive_solver. Qed.
Lemma same_ents_free {E E'} (H : same_gen keep E E') {p n} : E !! p = Some (EFree n) ↔ E' !! p = Some (EFree n).
Proof. specialize (H p). destruct (E !! p) as [[]|], (E' !! p) as [[]|]; simpl in H; naive_solver. Qed.
Lemma same_ents_zero {E E'} (H : same_gen keep E E') {p} : E !! p = Some EZero ↔ E' !! p = Some EZero.
Proof. specialize (H p). destruct (E !! p) as [[]|], (E' !! p) as [[]|]; simpl in H; naive_solver. Qed.
Lemma same_ents_rec {E E'} (H : same_gen keep E E') {r cr} : E !! r = Some (ERecord cr) →
  ∃ cr', E' !! r = Some (ERecord cr') ∧ strip_gen keep cr' = strip_gen keep cr.
Proof.
  specialize (H r). intros Hr. rewrite Hr in H. destruct (E' !! r) as [[]|]; simpl in H; try discriminate.
  eexists. split; [done|congruence].
Qed.

Lemma strip_rec_inv cr cr' : strip_gen keep cr' = strip_gen keep cr →
  cr_next cr' = cr_next cr ∧ cr_group cr' = cr_group cr ∧ cr_external cr' = cr_external cr ∧
  rr_namehash (cr_resrec cr') = rr_namehash (cr_resrec cr) ∧
  GetRRDomainNameTarget (cr_resrec cr') = GetRRDomainNameTarget (cr_resrec cr) ∧
  rr_name (cr_resrec cr') = rr_name (cr_resrec cr) ∧ rr_InterfaceID (cr_resrec cr') = rr_InterfaceID (cr_resrec cr) ∧
  rr_rrtype (cr_resrec cr') = rr_rrtype (cr_resrec cr) ∧ rr_rrclass (cr_resrec cr') = rr_rrclass (cr_resrec cr) ∧
  rr_rdata (cr_resrec cr') = rr_rdata (cr_resrec cr).
Proof.
  intros H.
  assert (∀ {A} (f : CacheRecord → A), f (strip_gen keep cr') = f (strip_gen keep cr)) as F by by intros; rewrite H.
  pose proof (F _ cr_next). pose proof (F _ cr_group). pose proof (F _ cr_external).
  pose proof (F _ (fun c => rr_namehash (cr_resrec c))). pose proof (F _ (fun c => rr_rrtype (cr_resrec c))) as Ht.
  pose proof (F _ (fun c => rr_rdata (cr_resrec c))) as Hd. pose proof (F _ (fun c => rr_name (cr_resrec c))).
  pose proof (F _ (fun c => rr_InterfaceID (cr_resrec c))). pose proof (F _ (fun c => rr_rrclass (cr_resrec c))).
  repeat split; try done. unfold GetRRDomainNameTarget. unfold strip_gen in Ht, Hd. struct_simpl in Ht. struct_simpl in Hd.
  by rewrite Ht, Hd.
Qed.
Lemma strip_rec_len cr cr' : strip_gen keep cr' = strip_gen keep cr → rr_rdlength (cr_resrec cr') = rr_rdlength (cr_resrec cr).
Proof. intros H. exact (f_equal (fun c => rr_rdlength (cr_resrec c)) H). Qed.
Lemma strip_rec_data cr cr' : strip_gen keep cr' = strip_gen keep cr → data_ok (cr_resrec cr) → data_ok (cr_resrec cr').
Proof.
  intros H. pose proof (strip_rec_len _ _ H) as Hl. apply strip_rec_inv in H as (_ & _ & _ & _ & _ & _ & _ & Ht & _ & Hd).
  unfold data_ok, rdata_ok. by rewrite Ht, Hd, Hl.
Qed.

#[local] Opaque strip_gen.
Lemma same_ents_next {E E'} (H : same_gen keep E E') : (∀ p, free_next E' p = free_next E p) ∧
  (∀ p, group_next E' p = group_next E p) ∧ (∀ p, rec_next E' p = rec_next E p).
Proof.
  split_and!; intros p; specialize (H p); unfold free_next, group_next, rec_next;
    destruct (E !! p) as [[| | |cr]|], (E' !! p) as [[| | |cr']|]; simpl in H; try congruence.
  all: assert (strip_gen keep cr = strip_gen keep cr') as Hs by congruence; apply strip_rec_inv in Hs as [Hs _]; by rewrite Hs.
Qed.
Lemma same_ents_count {E E'} (H : same_gen keep E E') :
  count is_used E' = count is_used E ∧ count is_external E' = count is_external E ∧ size E' = size E.
Proof.
  assert (∀ f, (∀ e, f (strip keep e) = f e) → count f E' = count f E) as Hc.
  { intros f Hf. apply count_ext. intros p. pose proof (H p) as Hp.
    destruct (E !! p) as [e|], (E' !! p) as [e'|]; simpl in *; congruence. }
  split_and!; [by apply Hc; intros []|by apply Hc; intros []|].
  apply Nat2Z.inj. rewrite <- !count_true. apply Hc. done.
Qed.
Lemma same_record_ok {E E'} (H : same_gen keep E E') o r cr : E !! r = Some (ERecord cr) → record_ok E o cr →
  ∃ cr', E' !! r = Some (ERecord cr') ∧ record_ok E' o cr'.
Proof.
  intros Hr (cg & Hcg & Ho & Hn & Hd). destruct (same_ents_rec H Hr) as (cr' & Hr' & Hs). exists cr'. split; [done|].
  pose proof (strip_rec_data _ _ Hs Hd). apply strip_rec_inv in Hs as (_ & Hg & _ & Hh & _). exists cg. rewrite Hg, Hh.
  split; [by apply (same_ents_group H)|done].
Qed.

Lemma same_gen_wf t o m m' : cache_wf t o m → @same_cache_gen keep m m' → cache_wf t o m'.
Proof.
  intros Hw [Hhash Hfree Hsize Hused Hblocks He].
  destruct (same_ents_next He) as (Hnf & Hng & Hnr), (same_ents_count He) as (Hcu & Hce & Hcs).
  assert (same_gen keep (m_ents m') (m_ents m)) as He' by by symmetry.
  split.
  - split.
    + rewrite Hhash. intros i h Hi. destruct (cw_slot Hw i h Hi) as (l & Hl & Hin). exists l.
      split; [by apply (lseg_ext (group_next (m_ents m)))|]. intros g cg Hg. apply Hin. by apply (same_ents_group He').
    + intros g cg Hg. apply (cw_name Hw). by apply (same_ents_group He').
    + intros g cg g' cg' Hg Hg'. apply (cw_unique Hw); by apply (same_ents_group He').
    + intros g cg Hg Hgo. apply (same_ents_group He') in Hg. destruct (cw_members Hw g cg Hg Hgo) as (rs & [Hrs Hin] & Ht).
      exists rs. split; [|done]. split; [by apply (lseg_ext (rec_next (m_ents m)))|]. intros r cr' Hr.
      destruct (same_ents_rec He' Hr) as (cr & Hcr & Hs). apply strip_rec_inv in Hs as (_ & <- & _). by apply Hin.
    + intros r cr' Hr Hro. destruct (same_ents_rec He' Hr) as (cr & Hcr & _).
      destruct (same_record_ok He o r cr Hcr (cw_rec Hw r cr Hcr Hro)) as (c & Hc & Hok). congruence.
  - rewrite Hhash. apply Hw.
  - intros p e Hp. specialize (He p). rewrite Hp in He. destruct (m_ents m !! p) eqn:Hp'; [|done]. by apply (cw_pos Hw _ _ Hp').
  - destruct (cw_free Hw) as (l & Hl & Hin). exists l. rewrite Hfree. split; [by apply (lseg_ext (free_next (m_ents m)))|].
    intros p n Hp. apply (Hin p n). by apply (same_ents_free He').
  - intros p Hp. apply (cw_zero Hw). by apply (same_ents_zero He').
  - destruct (cw_orphan Hw) as [|(e & Ho & Hu)]; [by left|right]. specialize (He o). rewrite Ho in He.
    destruct (m_ents m' !! o) as [e'|]; [|done]. exists e'. split; [done|]. injection He as He.
    destruct e, e'; simpl in *; congruence.
  - rewrite Hsize, Hcs. apply Hw.
  - rewrite Hused, Hcu. apply Hw.
  - rewrite Hblocks, Hce. apply Hw.
Qed.

End Same.
Lemma same_cache_wf t o m m' : cache_wf t o m → same_cache m m' → cache_wf t o m'.
Proof. apply same_gen_wf. Qed.
Lemma strip_rec_cf cr cr' : strip_rec cr' = strip_rec cr → cr_NextInCFList cr' = cr_NextInCFList cr.
Proof. intros H. exact (f_equal cr_NextInCFList H). Qed.
Lemma same_gen_weak keep E E' : same_ents E E' → same_gen keep E E'.
Proof.
  intros H p. specialize (H p). destruct keep; [done|]. destruct (E !! p) as [[| | |cr]|], (E' !! p) as [[| | |cr']|]; simpl in *; try congruence.
  assert (strip_rec cr = strip_rec cr') as Hs by congruence. do 2 f_equal. exact (f_equal (fun c => c <| cr_NextInCFList := 0 |>) Hs).
Qed.
#[global] Opaque strip_gen.

(** ** Changing the member lists

    [frame] forgets the links of the member lists.  When only those change,
    and the entity without a list is a record or fresh, the invariant is a
    matter of the member lists alone. *)
Definition frame (e : CacheEntity) : CacheEntity :=
  match e with
  | EGroup cg => EGroup (cg <| cg_members := 0 |> <| cg_rrcache_tail := Members 0 |>)
  | ERecord cr => ERecord (cr <| cr_next := 0 |>)
  | e => e
  end.
Definition same_frame E E' : Prop := ∀ p, frame <$> E !! p = frame <$> E' !! p.

Lemma frame_group_inv cg cg' : frame (EGroup cg) = frame (EGroup cg') →
  cg_next cg = cg_next cg' ∧ cg_namehash cg = cg_namehash cg' ∧ cg_name cg = cg_name cg' ∧ cg_external cg = cg_external cg'.
Proof.
  intros H.
  assert (∀ {A} (f : CacheGroup → A), f (cg <| cg_members := 0 |> <| cg_rrcache_tail := Members 0 |>) =
    f (cg' <| cg_members := 0 |> <| cg_rrcache_tail := Members 0 |>)) as F by (intros; simpl in H; congruence).
  exact (conj (F _ cg_next) (conj (F _ cg_namehash) (conj (F _ cg_name) (F _ cg_external)))).
Qed.
Lemma frame_rec_inv cr cr' : frame (ERecord cr) = frame (ERecord cr') →
  cr_group cr = cr_group cr' ∧ cr_external cr = cr_external cr' ∧ cr_resrec cr = cr_resrec cr' ∧
  cr_CRActiveQuestion cr = cr_CRActiveQuestion cr'.
Proof.
  intros H.
  assert (∀ {A} (f : CacheRecord → A), f (cr <| cr_next := 0 |>) = f (cr' <| cr_next := 0 |>)) as F
    by (intros; simpl in H; congruence).
  exact (conj (F _ cr_group) (conj (F _ cr_external) (conj (F _ cr_resrec) (F _ cr_CRActiveQuestion)))).
Qed.

Section Frame.
Context {E E' : gmap Z CacheEntity} (H : same_frame E E').

Lemma frame_free p n : E' !! p = Some (EFree n) ↔ E !! p = Some (EFree n).
Proof. specialize (H p). destruct (E !! p) as [[]|], (E' !! p) as [[]|]; simpl in H; naive_solver. Qed.
Lemma frame_zero p : E' !! p = Some EZero ↔ E !! p = Some EZero.
Proof. specialize (H p). destruct (E !! p) as [[]|], (E' !! p) as [[]|]; simpl in H; naive_solver. Qed.
Lemma frame_group g cg' : E' !! g = Some (EGroup cg') → ∃ cg, E !! g = Some (EGroup cg) ∧
  cg_next cg = cg_next cg' ∧ cg_namehash cg = cg_namehash cg' ∧ cg_name cg = cg_name cg' ∧ cg_external cg = cg_external cg'.
Proof.
  intros Hg. specialize (H g). rewrite Hg in H. destruct (E !! g) as [[]|]; simpl in H; try discriminate.
  eexists. split; [done|]. apply frame_group_inv. simpl. congruence.
Qed.
Lemma frame_rec r cr' : E' !! r = Some (ERecord cr') → ∃ cr, E !! r = Some (ERecord cr) ∧
  cr_group cr = cr_group cr' ∧ cr_external cr = cr_external cr' ∧ cr_resrec cr = cr_resrec cr' ∧
  cr_CRActiveQuestion cr = cr_CRActiveQuestion cr'.
Proof.
  intros Hr. specialize (H r). rewrite Hr in H. destruct (E !! r) as [[]|]; simpl in H; try discriminate.
  eexists. split; [done|]. apply frame_rec_inv. simpl. congruence.
Qed.
Lemma frame_next p : free_next E' p = free_next E p ∧ group_next E' p = group_next E p.
Proof.
  unfold free_next, group_next. split.
  - specialize (H p). destruct (E !! p) as [[]|], (E' !! p) as [[]|]; simpl in H; congruence.
  - destruct (E' !! p) as [[]|] eqn:Hp; try (specialize (H p); rewrite Hp in H;
      destruct (E !! p) as [[]|]; simpl in H; congruence).
    destruct (frame_group _ _ Hp) as (cg' & -> & -> & _). done.
Qed.
Lemma frame_count f : (∀ e, f (frame e) = f e) → count f E' = count f E.
Proof.
  intros Hf. apply count_ext. intros p. specialize (H p).
  destruct (E !! p) as [e|], (E' !! p) as [e'|]; simpl in *; congruence.
Qed.
Lemma frame_used p e : E !! p = Some e → ∃ e', E' !! p = Some e' ∧ is_used e' = is_used e.
Proof.
  intros Hp. specialize (H p). rewrite Hp in H. destruct (E' !! p) as [e'|]; [|done]. exists e'. split; [done|].
  destruct e, e'; simpl in *; congruence.
Qed.
End Frame.
Lemma same_frame_sym E E' : same_frame E E' → same_frame E' E.
Proof. by intros H p. Qed.

(** ** The records to flush *)
(** The link of a record in the list of records to flush. *)
Definition cf_link E r : Z := match E !! r with Some (ERecord cr) => cr_NextInCFList cr | _ => 0 end.
Definition same_cf E E' : Prop := ∀ r, cf_link E' r = cf_link E r.
#[export] Instance same_cf_equiv : Equivalence same_cf.
Proof. split; [done|by intros E E' H r|by intros E E' E'' H H' r; rewrite H', H]. Qed.
Lemma frame_cf cr cr' : frame (ERecord cr) = frame (ERecord cr') → cr_NextInCFList cr' = cr_NextInCFList cr.
Proof.
  intros H. assert (cr <| cr_next := 0 |> = cr' <| cr_next := 0 |>) as H' by (simpl in H; congruence). symmetry. exact (f_equal cr_NextInCFList H').
Qed.
Lemma same_cf_ents E E' : same_ents E E' → same_cf E E'.
Proof.
  intros H r. specialize (H r). unfold cf_link. destruct (E !! r) as [[| | |cr]|], (E' !! r) as [[| | |cr']|]; simpl in H; try done.
  apply strip_rec_cf. congruence.
Qed.
Lemma same_cf_frame E E' : same_frame E E' → same_cf E E'.
Proof.
  intros H r. specialize (H r). unfold cf_link. destruct (E !! r) as [[| | |cr]|], (E' !! r) as [[| | |cr']|]; try done. apply frame_cf. simpl in *. congruence.
Qed.
Lemma same_cf_insert E p e : match e with ERecord cr => cr_NextInCFList cr = cf_link E p | _ => cf_link E p = 0 end → same_cf E (<[p := e]> E).
Proof. intros He r. unfold cf_link at 1. destruct (decide (r = p)) as [->|]; [rewrite lookup_insert_eq; by destruct e|by rewrite lookup_insert_ne]. Qed.

Definition not_group E o : Prop := ∀ cg, E !! o ≠ Some (EGroup cg).

Lemma wf_reframe t o t' o' m E' : cache_wf t o m → same_frame (m_ents m) E' →
  not_group (m_ents m) o → not_group (m_ents m) o' →
  (o' = 0 ∨ ∃ e, m_ents m !! o' = Some e ∧ is_used e = true) → (o ≠ o' → m_ents m !! o ≠ Some EZero) →
  (∀ g cg, E' !! g = Some (EGroup cg) → ∃ rs, holds_members E' o' g (cg_members cg) rs ∧
    (g ≠ t' → cg_rrcache_tail cg = tail_of g rs)) →
  (o ≠ o' → ∀ cr, E' !! o = Some (ERecord cr) → record_ok E' o' cr) →
  cache_wf t' o' (m <| m_ents := E' |>).
Proof.
  intros Hw Hf Hg Hg' Ho' Hz Hmem Hrec.
  assert (same_frame E' (m_ents m)) as Hf' by by apply same_frame_sym.
  split; struct_simpl.
  - split.
    + intros i h Hi. destruct (cw_slot Hw i h Hi) as (l & Hl & Hin). exists l.
      split; [apply (lseg_ext (group_next (m_ents m))); [|done]; intros; by apply frame_next|].
      intros g cg Hcg. destruct (frame_group Hf _ _ Hcg) as (cg0 & Hcg0 & _ & <- & _). rewrite (Hin g cg0 Hcg0).
      assert (g ≠ o) by (intros ->; by apply (Hg cg0)). assert (g ≠ o') by (intros ->; by apply (Hg' cg0)). naive_solver.
    + intros g cg Hcg _. destruct (frame_group Hf _ _ Hcg) as (cg0 & Hcg0 & _ & <- & <- & _). apply (cw_name Hw g cg0 Hcg0).
      intros ->. by apply (Hg cg0).
    + intros g cg g' cg' Hcg Hcg' _ _. destruct (frame_group Hf _ _ Hcg) as (c & Hc & _ & _ & <- & _).
      destruct (frame_group Hf _ _ Hcg') as (c' & Hc' & _ & _ & <- & _).
      apply (cw_unique Hw g c g' c' Hc Hc'); [intros ->; by apply (Hg c)|intros ->; by apply (Hg c')].
    + intros g cg Hcg _. by apply Hmem.
    + intros r cr Hr Hro. destruct (decide (r = o)) as [->|Hne]; [by apply Hrec|].
      destruct (frame_rec Hf _ _ Hr) as (cr0 & Hr0 & Hgr & _ & Hrr & _).
      destruct (cw_rec Hw r cr0 Hr0 Hne) as (cg & Hcg & Hgo & Hh & Ht).
      destruct (frame_used Hf _ _ Hcg) as (e & He & _). pose proof (Hf (cr_group cr0)) as Hfe. rewrite Hcg, He in Hfe.
      destruct e as [| |cg1|]; simpl in Hfe; try discriminate. exists cg1. rewrite <- Hgr, <- Hrr.
      split; [done|]. split; [intros Heq; rewrite <- Heq in Hg'; by apply (Hg' cg)|].
      rewrite Hh. split; [|done]. apply frame_group_inv. simpl. congruence.
  - apply Hw.
  - intros p e Hp. destruct (frame_used Hf' _ _ Hp) as (e' & Hp' & _). by apply (cw_pos Hw _ _ Hp').
  - destruct (cw_free Hw) as (l & Hl & Hin). exists l.
    split; [apply (lseg_ext (free_next (m_ents m))); [|done]; intros; by apply frame_next|].
    intros p n Hp. apply (Hin p n). by apply (frame_free Hf).
  - intros p Hp. apply (frame_zero Hf) in Hp. destruct (decide (o = o')) as [<-|Hne]; [by apply (cw_zero Hw)|].
    destruct (Hz Hne). by rewrite <- (cw_zero Hw _ Hp).
  - destruct Ho' as [|(e & He & Hu)]; [by left|right]. destruct (frame_used Hf _ _ He) as (e' & He' & Hu'). exists e'. by rewrite Hu'.
  - rewrite <- count_true, (frame_count Hf), count_true by done. apply Hw.
  - rewrite (frame_count Hf) by by intros []. apply Hw.
  - rewrite (frame_count Hf) by by intros []. apply Hw.
Qed.

(** ** Changing a cell that is in no list *)
Definition loose (e : CacheEntity) : Prop := match e with EGroup _ | ERecord _ => False | _ => True end.

Lemma lists_insert t o o' E hash p e' : lists_wf t o E hash →
  (∀ c, E !! p = Some c → p = o ∨ loose c) → (p = o' ∨ loose e') → (∀ x c, E !! x = Some c → x ≠ p → (x = o ↔ x = o')) →
  lists_wf t o' (<[p := e']> E) hash.
Proof.
  intros Hw Hc He Hoo.
  assert (∀ g cg, E !! g = Some (EGroup cg) → g ≠ o → g ≠ p) as Hgp.
  { intros g cg Hg Hgo ->. by destruct (Hc _ Hg). }
  assert (∀ g cg, <[p := e']> E !! g = Some (EGroup cg) → g ≠ o' → E !! g = Some (EGroup cg) ∧ g ≠ o ∧ g ≠ p) as Hgrp.
  { intros g cg [[<- ->]|[Hne Hg]]%lookup_insert_Some Ho; [by destruct He|]. split; [done|]. split; [|done].
    intros Hx. by apply Ho, (Hoo g _ Hg). }
  assert (∀ r cr, <[p := e']> E !! r = Some (ERecord cr) → r ≠ o' → E !! r = Some (ERecord cr) ∧ r ≠ o ∧ r ≠ p) as Hrec.
  { intros r cr [[<- ->]|[Hne Hr]]%lookup_insert_Some Ho; [by destruct He|]. split; [done|]. split; [|done].
    intros Hx. by apply Ho, (Hoo r _ Hr). }
  split.
  - intros i h Hi. destruct (lw_slot Hw i h Hi) as (l & Hl & Hin). exists l. split.
    + apply (lseg_ext (group_next E)); [|done]. intros x Hx. unfold group_next. rewrite lookup_insert_ne; [done|].
      intros <-. destruct (lseg_next _ _ _ _ _ Hl Hx) as [_ [n Hn]]. apply group_next_Some in Hn as (cg & Hcg & _).
      apply (Hin _ _ Hcg) in Hx as [Ho _]. by apply (Hgp _ _ Hcg Ho).
    + intros g cg Hg. destruct (decide (g = o')) as [Heq|Hne].
      * split; [|naive_solver]. intros Hx. destruct (lseg_next _ _ _ _ _ Hl Hx) as [_ [n Hn]].
        apply group_next_Some in Hn as (cg0 & Hcg & _). apply (Hin _ _ Hcg) in Hx as [Ho _]. exfalso. apply Ho.
        apply (Hoo g _ Hcg); [by apply (Hgp _ _ Hcg Ho)|done].
      * destruct (Hgrp g cg Hg Hne) as (Hg' & Ho & _). rewrite (Hin g cg Hg'). naive_solver.
  - intros g cg Hg Ho. destruct (Hgrp g cg Hg Ho) as (Hg' & Ho' & _). by apply (lw_name Hw g cg).
  - intros g cg g' cg' Hg Hg' Ho Ho'. destruct (Hgrp g cg Hg Ho) as (H1 & H2 & _), (Hgrp g' cg' Hg' Ho') as (H3 & H4 & _).
    by apply (lw_unique Hw g cg g' cg').
  - intros g cg Hg Ho. destruct (Hgrp g cg Hg Ho) as (Hg' & Ho' & _). destruct (lw_members Hw g cg Hg' Ho') as (rs & [Hch Hin] & Ht).
    exists rs. split; [|done]. split.
    + apply (lseg_ext (rec_next E)); [|done]. intros x Hx. unfold rec_next. rewrite lookup_insert_ne; [done|].
      intros <-. destruct (lseg_next _ _ _ _ _ Hch Hx) as [_ [n Hn]]. apply rec_next_Some in Hn as (cr & Hcr & _).
      apply (Hin _ _ Hcr) in Hx as [Hpo _]. by destruct (Hc _ Hcr).
    + intros r cr Hr. destruct (decide (r = o')) as [Heq|Hne].
      * split; [|naive_solver]. intros Hx. destruct (lseg_next _ _ _ _ _ Hch Hx) as [_ [n Hn]].
        apply rec_next_Some in Hn as (cr0 & Hcr & _). apply (Hin _ _ Hcr) in Hx as [Hro _]. exfalso. apply Hro.
        apply (Hoo r _ Hcr); [|done]. intros ->. by destruct (Hc _ Hcr).
      * destruct (Hrec r cr Hr Hne) as (Hr' & Hro & _). rewrite (Hin r cr Hr'). naive_solver.
  - intros r cr Hr Ho. destruct (Hrec r cr Hr Ho) as (Hr' & Hro & _). destruct (lw_rec Hw r cr Hr' Hro) as (cg & Hcg & Hgo & Hh & Ht).
    exists cg. pose proof (Hgp _ _ Hcg Hgo). rewrite lookup_insert_ne by done. split; [done|]. split; [|done].
    intros Hx. by apply Hgo, (Hoo _ _ Hcg).
Qed.
