(* ===== verification/MDNSPool.v ===== *)
(** The steps of the cache operations keep the invariant: cutting a record
    or a group out of its list, releasing an entity, taking one from the free
    list, adding memory, appending a record and adding a group. *)
From S2P Require Import Prelude Bytes DNSTypes DNSName DNSRecord DNSMessage MDNSTypes MDNSCache MDNSList MDNSInv.

Implicit Types (E : gmap Z CacheEntity) (m : mDNS) (p g r t o : Z).

(** ** Reading well-formed memory *)
Section Read.
Context {t o : Z} {m : mDNS} (Hw : cache_wf t o m).

Lemma get_group_at g cg : m_ents m !! g = Some (EGroup cg) → get_group m g = Ret cg.
Proof. intros Hg. unfold get_group, entity. by rewrite Hg. Qed.
Lemma set_group_at g cg f : m_ents m !! g = Some (EGroup cg) → set_group m g f = Ret (put_entity m g (EGroup (f cg))).
Proof. intros Hg. unfold set_group. by rewrite (get_group_at _ _ Hg). Qed.
Lemma rec_ptr_ne r e : m_ents m !! r = Some e → (r =? rec_ptr) = false.
Proof. intros Hr. pose proof (cw_pos Hw _ _ Hr). unfold rec_ptr. lia. Qed.
Lemma get_rec_at r cr : m_ents m !! r = Some (ERecord cr) → get_rec m r = Ret cr.
Proof. intros Hr. unfold get_rec, entity. by rewrite (rec_ptr_ne _ _ Hr), Hr. Qed.
Lemma set_rec_at r cr f : m_ents m !! r = Some (ERecord cr) → set_rec m r f = Ret (put_entity m r (ERecord (f cr))).
Proof. intros Hr. unfold set_rec. by rewrite (get_rec_at _ _ Hr), (rec_ptr_ne _ _ Hr). Qed.

Lemma wf_members g cg : m_ents m !! g = Some (EGroup cg) → g ≠ o →
  ∃ rs, chain (rec_next (m_ents m)) (cg_members cg) rs ∧
    (∀ r cr, m_ents m !! r = Some (ERecord cr) → (r ∈ rs ↔ r ≠ o ∧ cr_group cr = g)) ∧
    (g ≠ t → cg_rrcache_tail cg = tail_of g rs).
Proof. intros Hg Ho. destruct (cw_members Hw g cg Hg Ho) as (rs & [? ?] & ?). by exists rs. Qed.

Lemma wf_fuel h l : chain (rec_next (m_ents m)) h l → (length l < list_fuel m)%nat.
Proof.
  intros Hl. unfold list_fuel. pose proof (chain_size (m_ents m) _ _ _ Hl) as Hs. 
  apply Nat.lt_succ_r, Hs. intros p [n Hn]. apply rec_next_Some in Hn as (cr & Hcr & _). by eauto.
Qed.
Lemma wf_group_fuel h l : chain (group_next (m_ents m)) h l → (length l < list_fuel m)%nat.
Proof.
  intros Hl. unfold list_fuel. pose proof (chain_size (m_ents m) _ _ _ Hl) as Hs. 
  apply Nat.lt_succ_r, Hs. intros p [n Hn]. apply group_next_Some in Hn as (cg & Hcg & _). by eauto.
Qed.
End Read.

Lemma put_entity_ents m p e : m_ents (put_entity m p e) = <[p := e]> (m_ents m).
Proof. done. Qed.

Lemma tail_of_nil g : tail_of g [] = Members g.
Proof. done. Qed.
Lemma tail_of_snoc g rs r : tail_of g (rs ++ [r]) = NextOf r.
Proof. unfold tail_of. by rewrite last_snoc. Qed.

(** ** Writing a link of a member list

    [link_cell E l n]: the cell that holds the link [l], with [n] in it. *)
Definition link_owner (l : rr_loc) : Z := match l with Members g => g | NextOf r => r end.
Definition with_link (l : rr_loc) (n : Z) (e : CacheEntity) : CacheEntity :=
  match l, e with
  | Members _, EGroup cg => EGroup (cg <| cg_members := n |>)
  | NextOf _, ERecord cr => ERecord (cr <| cr_next := n |>)
  | _, e => e
  end.
Definition relink E (l : rr_loc) (n : Z) : gmap Z CacheEntity := alter (with_link l n) (link_owner l) E.

Lemma frame_with_link l n e : frame (with_link l n e) = frame e.
Proof. by destruct l, e. Qed.
Lemma same_frame_relink E l n : same_frame E (relink E l n).
Proof.
  intros p. unfold relink. destruct (decide (p = link_owner l)) as [->|Hne].
  - rewrite lookup_alter_eq. destruct (E !! link_owner l) as [e|]; simpl; [|done]. by rewrite frame_with_link.
  - by rewrite lookup_alter_ne.
Qed.

(** Where a link of the list of [g] is: the head, or in a record before. *)
Lemma tail_of_owner E g cg h rs n : E !! g = Some (EGroup cg) → lseg (rec_next E) h n rs →
  match tail_of g rs with
  | Members g' => rs = [] ∧ g' = g
  | NextOf r => ∃ rs' cr, rs = rs' ++ [r] ∧ E !! r = Some (ERecord cr) ∧ cr_next cr = n
  end.
Proof.
  intros Hg Hl. destruct rs as [|r rs _] using rev_ind; [done|]. rewrite tail_of_snoc. apply lseg_snoc in Hl as (_ & _ & Hn).
  apply rec_next_Some in Hn as (cr & Hcr & Hn). by exists rs, cr.
Qed.

Lemma read_rr_tail t o m g cg rs n : cache_wf t o m → m_ents m !! g = Some (EGroup cg) →
  lseg (rec_next (m_ents m)) (cg_members cg) n rs → read_rr m (tail_of g rs) = Ret n.
Proof.
  intros Hw Hg Hl. pose proof (tail_of_owner _ _ _ _ _ _ Hg Hl) as Ht. destruct (tail_of g rs); simpl.
  - destruct Ht as [-> ->]. rewrite (get_group_at _ _ Hg). simpl in *. by rewrite Hl.
  - destruct Ht as (rs' & cr & _ & Hr & Hn). rewrite (get_rec_at Hw _ _ Hr). simpl. by rewrite Hn.
Qed.
Lemma write_rr_tail t o m g cg rs n n' : cache_wf t o m → m_ents m !! g = Some (EGroup cg) →
  lseg (rec_next (m_ents m)) (cg_members cg) n rs →
  write_rr m (tail_of g rs) n' = Ret (m <| m_ents := relink (m_ents m) (tail_of g rs) n' |>).
Proof.
  intros Hw Hg Hl. pose proof (tail_of_owner _ _ _ _ _ _ Hg Hl) as Ht. unfold relink, write_rr.
  destruct (tail_of g rs) as [g'|r]; simpl.
  - destruct Ht as [_ ->]. rewrite (set_group_at _ _ _ Hg). unfold put_entity. f_equal. f_equal.
    apply map_eq. intros p. destruct (decide (p = g)) as [->|].
    + by rewrite lookup_insert_eq, lookup_alter_eq, Hg.
    + by rewrite lookup_insert_ne, lookup_alter_ne.
  - destruct Ht as (rs' & cr & _ & Hr & Hn). rewrite (set_rec_at Hw _ _ _ Hr). unfold put_entity. f_equal. f_equal.
    apply map_eq. intros p. destruct (decide (p = r)) as [->|].
    + by rewrite lookup_insert_eq, lookup_alter_eq, Hr.
    + by rewrite lookup_insert_ne, lookup_alter_ne.
Qed.

(** The list of [g] after its link behind [rs] was set to [n']. *)
Lemma relink_lseg E g cg rs n n' : E !! g = Some (EGroup cg) → lseg (rec_next E) (cg_members cg) n rs → NoDup rs →
  ∃ cg', relink E (tail_of g rs) n' !! g = Some (EGroup cg') ∧ cg_rrcache_tail cg' = cg_rrcache_tail cg ∧
    lseg (rec_next (relink E (tail_of g rs) n')) (cg_members cg') n' rs.
Proof.
  intros Hg Hl Hnd. destruct rs as [|r rs _] using rev_ind.
  - rewrite tail_of_nil. unfold relink. simpl. rewrite lookup_alter_eq, Hg. by eexists.
  - rewrite tail_of_snoc. apply lseg_snoc in Hl as (Hl & Hr0 & Hr). pose proof Hr as (cr & Hcr & _)%rec_next_Some.
    assert (r ≠ g) by (intros ->; congruence). unfold relink. simpl. rewrite lookup_alter_ne by done.
    exists cg. split; [done|]. split; [done|]. apply lseg_snoc. split_and!; [|done|].
    + apply (lseg_ext (rec_next E)); [|done]. intros p Hp. unfold rec_next. rewrite lookup_alter_ne; [done|].
      intros ->. apply NoDup_app in Hnd as (_ & Hnd & _). by apply (Hnd p Hp), list_elem_of_singleton.
    + unfold rec_next. by rewrite lookup_alter_eq, Hcr.
Qed.

(** Cells other than the one that holds the link. *)
Lemma relink_rec_next E l n p : p ≠ link_owner l → rec_next (relink E l n) p = rec_next E p.
Proof. intros Hp. unfold rec_next, relink. by rewrite lookup_alter_ne. Qed.
Lemma relink_owner_group E g cg rs n g' cg' :
  E !! g = Some (EGroup cg) → lseg (rec_next E) (cg_members cg) n rs → E !! g' = Some (EGroup cg') → g' ≠ g →
  g' ≠ link_owner (tail_of g rs).
Proof.
  intros Hg Hl Hg' Hne Heq. pose proof (tail_of_owner _ _ _ _ _ _ Hg Hl) as Ht. destruct (tail_of g rs); simpl in *.
  - destruct Ht. by subst.
  - destruct Ht as (? & cr & _ & Hr & _). subst. congruence.
Qed.
Lemma relink_owner_members E g cg rs n p : E !! g = Some (EGroup cg) → lseg (rec_next E) (cg_members cg) n rs →
  is_Some (rec_next E p) → p ∉ rs → p ≠ link_owner (tail_of g rs).
Proof.
  intros Hg Hl [k Hp] Hnin Heq. apply rec_next_Some in Hp as (cr & Hcr & _).
  pose proof (tail_of_owner _ _ _ _ _ _ Hg Hl) as Ht. destruct (tail_of g rs); simpl in *.
  - destruct Ht. subst. congruence.
  - destruct Ht as (rs' & ? & -> & _). subst. apply Hnin, elem_of_app. right. by apply list_elem_of_singleton.
Qed.

(** ** The lists of the other groups do not change *)
Lemma relink_other_chain t o m g cg rs n n' g' cg' rs' :
  cache_wf t o m → m_ents m !! g = Some (EGroup cg) → lseg (rec_next (m_ents m)) (cg_members cg) n rs →
  (∀ r, r ∈ rs → ∀ cr, m_ents m !! r = Some (ERecord cr) → cr_group cr = g) →
  m_ents m !! g' = Some (EGroup cg') → g' ≠ g → g' ≠ o → chain (rec_next (m_ents m)) (cg_members cg') rs' →
  let E' := relink (m_ents m) (tail_of g rs) n' in
  E' !! g' = Some (EGroup cg') ∧ chain (rec_next E') (cg_members cg') rs'.
Proof.
  intros Hw Hg Hl Hrs Hg' Hne Hgo' Hch E'. destruct (wf_members Hw g' cg' Hg' Hgo') as (rs1 & Hch1 & Hin & _).
  rewrite (chain_det _ _ _ _ Hch1 Hch) in Hin. clear rs1 Hch1. split.
  - unfold E', relink; rewrite lookup_alter_ne; [done|]; by apply not_eq_sym, (relink_owner_group (m_ents m) g cg rs n g' cg').
  - apply (lseg_ext (rec_next (m_ents m))); [|done]. intros p Hp. apply relink_rec_next.
    destruct (lseg_next _ _ _ _ _ Hch Hp) as [_ Hsp]. apply (relink_owner_members (m_ents m) g cg rs n); try done.
    intros Hprs. destruct Hsp as [k Hk]. apply rec_next_Some in Hk as (cr & Hcr & _).
    apply Hne. rewrite <- (Hrs p Hprs cr Hcr). symmetry. by apply (Hin p cr Hcr).
Qed.
Lemma relink_other t o m g cg rs n n' g' cg' o' :
  cache_wf t o m → m_ents m !! g = Some (EGroup cg) → lseg (rec_next (m_ents m)) (cg_members cg) n rs →
  (∀ r, r ∈ rs → ∀ cr, m_ents m !! r = Some (ERecord cr) → cr_group cr = g) →
  m_ents m !! g' = Some (EGroup cg') → g' ≠ g → g' ≠ o →
  (∀ r cr, m_ents m !! r = Some (ERecord cr) → cr_group cr = g' → (r ≠ o ↔ r ≠ o')) →
  let E' := relink (m_ents m) (tail_of g rs) n' in
  E' !! g' = Some (EGroup cg') ∧ ∃ rs', holds_members E' o' g' (cg_members cg') rs' ∧
    (g' ≠ t → cg_rrcache_tail cg' = tail_of g' rs').
Proof.
  intros Hw Hg Hl Hrs Hg' Hne Hgo' Hoo E'. destruct (wf_members Hw g' cg' Hg' Hgo') as (rs' & Hch & Hin & Ht).
  destruct (relink_other_chain t o m g cg rs n n' g' cg' rs') as [? ?]; try done.
  split; [done|]. exists rs'. split; [|done]. split; [done|].
  intros r cr Hr. destruct (frame_rec (same_frame_relink _ _ _) _ _ Hr) as (cr0 & Hr0 & Hgr & _).
  specialize (Hin r cr0 Hr0). specialize (Hoo r cr0 Hr0). rewrite <- Hgr. naive_solver.
Qed.

(** ** Cutting a record out of its list *)
Lemma unlink_wf t m g cg ks r cr rs : cache_wf t 0 m → t = 0 ∨ t = g → m_ents m !! g = Some (EGroup cg) →
  chain (rec_next (m_ents m)) (cg_members cg) (ks ++ r :: rs) → m_ents m !! r = Some (ERecord cr) →
  let E' := relink (m_ents m) (tail_of g ks) (cr_next cr) in
  write_rr m (tail_of g ks) (cr_next cr) = Ret (m <| m_ents := E' |>) ∧ cache_wf g r (m <| m_ents := E' |>) ∧
  ∃ cg', E' !! g = Some (EGroup cg') ∧ chain (rec_next E') (cg_members cg') (ks ++ rs) ∧
    lseg (rec_next E') (cg_members cg') (cr_next cr) ks ∧ E' !! r = Some (ERecord cr).
Proof.
  intros Hw Htg Hg Hch Hr E'. pose proof (wf_nonzero _ _ _ _ _ Hw Hg) as Hg0. pose proof (wf_nonzero _ _ _ _ _ Hw Hr) as Hr0.
  pose proof (chain_NoDup _ _ _ Hch) as Hnd. pose proof Hnd as (Hndk & Hdis & Hndr)%NoDup_app.
  pose proof Hch as (k & Hks & -> & _ & n & Hn & Hrs)%lseg_app. pose proof Hn as (cr' & Hcr' & Hnx)%rec_next_Some.
  rewrite Hr in Hcr'. injection Hcr' as <-. subst n.
  assert (∀ p, p ∈ r :: rs → p ∉ ks) as Hdis' by (intros p Hp Hk; by apply (Hdis p)).
  destruct (wf_members Hw g cg Hg Hg0) as (all & Hall & Hin & _).
  rewrite (chain_det _ _ _ _ Hall Hch) in Hin. clear all Hall.
  destruct (relink_lseg _ g cg ks r (cr_next cr) Hg Hks Hndk) as (cg' & Hcg' & Htl & Hks').
  fold E' in Hcg', Hks'.
  assert (∀ p, p ∈ r :: rs → rec_next E' p = rec_next (m_ents m) p) as Hkeep.
  { intros p Hp. apply relink_rec_next, (relink_owner_members (m_ents m) g cg ks r); [done|done| |by apply Hdis'].
    eapply lseg_next; [apply Hch|]. apply elem_of_app. by right. }
  assert (chain (rec_next E') (cr_next cr) rs) as Hrs'.
  { apply (lseg_ext (rec_next (m_ents m))); [|done]. intros p Hp. apply Hkeep. by apply list_elem_of_further. }
  assert (chain (rec_next E') (cg_members cg') (ks ++ rs)) as Hch' by (apply lseg_app; eauto).
  assert (E' !! r = Some (ERecord cr)) as HrE.
  { unfold E', relink. rewrite lookup_alter_ne; [done|].
    apply not_eq_sym, (relink_owner_members (m_ents m) g cg ks r); [done|done|by eexists|by apply Hdis', list_elem_of_here]. }
  split; [by eapply write_rr_tail|]. split; [|by exists cg'].
  apply (wf_reframe t 0); try done.
  - apply same_frame_relink.
  - intros c Hc. by apply (wf_nonzero _ _ _ _ _ Hw) in Hc.
  - intros c. by rewrite Hr.
  - right. by exists (ERecord cr).
  - intros _ Hz. by apply (wf_nonzero _ _ _ _ _ Hw) in Hz.
  - intros g' cg1 Hg'. destruct (decide (g' = g)) as [->|Hne].
    + rewrite Hcg' in Hg'. injection Hg' as <-. exists (ks ++ rs). split; [|done]. split; [done|].
      intros p cp Hp. destruct (frame_rec (same_frame_relink _ _ _) _ _ Hp) as (cp0 & Hp0 & Hgp & _).
      specialize (Hin p cp0 Hp0). rewrite <- Hgp. pose proof (wf_nonzero _ _ _ _ _ Hw Hp0).
      rewrite elem_of_app in Hin |- *. rewrite elem_of_cons in Hin. apply NoDup_cons in Hndr as [Hnr _].
      pose proof (Hdis' r (list_elem_of_here _ _)). split.
      * intros Hpin. split; [intros ->; tauto|apply Hin; tauto].
      * intros [Hpr Hpg]. tauto.
    + destruct (frame_group (same_frame_relink _ _ _) _ _ Hg') as (c0 & Hc0 & _).
      destruct (relink_other t 0 m g cg ks r (cr_next cr) g' c0 r Hw Hg Hks) as (Hc0' & rs' & Hrs2 & Ht2); try done.
      * intros p Hp cp Hcp. apply (Hin p cp Hcp). apply elem_of_app. by left.
      * by eapply wf_nonzero.
      * intros p cp Hp Hgp. split; intros _; [|by eapply wf_nonzero]. intros ->. rewrite Hr in Hp. injection Hp as <-.
        apply Hne. rewrite <- Hgp. apply (Hin r cr Hr). apply elem_of_app. right. apply list_elem_of_here.
      * fold E' in Hc0'. rewrite Hg' in Hc0'. injection Hc0' as ->. exists rs'. split; [done|]. intros _. apply Ht2.
        destruct Htg as [-> | ->]; [by eapply wf_nonzero|done].
  - intros _ c Hc. destruct (frame_rec (same_frame_relink _ _ _) _ _ Hc) as (c0 & Hc0 & _). by apply (wf_nonzero _ _ _ _ _ Hw) in Hc0.
Qed.

(** ** The tail pointer *)
Lemma set_tail_wf t m g cg rs : cache_wf t 0 m → t = 0 ∨ t = g → m_ents m !! g = Some (EGroup cg) →
  chain (rec_next (m_ents m)) (cg_members cg) rs →
  let cg' := cg <| cg_rrcache_tail := tail_of g rs |> in
  set_group m g (fun cg => cg <| cg_rrcache_tail := tail_of g rs |>) = Ret (put_entity m g (EGroup cg')) ∧
  cache_wf 0 0 (put_entity m g (EGroup cg')).
Proof.
  intros Hw Htg Hg Hch cg'. split; [by rewrite (set_group_at _ _ _ Hg)|].
  assert (∀ p, rec_next (<[g := EGroup cg']> (m_ents m)) p = rec_next (m_ents m) p) as Hn.
  { intros p. unfold rec_next. destruct (decide (p = g)) as [->|]; [by rewrite lookup_insert_eq, Hg|by rewrite lookup_insert_ne]. }
  apply (wf_reframe t 0); try done.
  - intros p. destruct (decide (p = g)) as [->|]; [by rewrite lookup_insert_eq, Hg|by rewrite lookup_insert_ne].
  - intros c Hc. by apply (wf_nonzero _ _ _ _ _ Hw) in Hc.
  - intros c Hc. by apply (wf_nonzero _ _ _ _ _ Hw) in Hc.
  - by left.
  - intros g' c Hg'. assert (∃ c0, m_ents m !! g' = Some (EGroup c0) ∧ cg_members c = cg_members c0 ∧
      (g' ≠ g → c = c0) ∧ (g' = g → c = cg')) as (c0 & Hc0 & Hmem & Hc & Hcg).
    { apply lookup_insert_Some in Hg' as [[<- Heq]|[Hne Hc]]; [injection Heq as <-; by exists cg|exists c; naive_solver]. }
    destruct (wf_members Hw g' c0 Hc0) as (rs' & Hch' & Hin & Ht'); [by eapply wf_nonzero|].
    exists rs'. rewrite Hmem. split.
    + split; [by apply (lseg_ext (rec_next (m_ents m)))|]. intros r cr [[_ Heq]|[_ Hr]]%lookup_insert_Some; [done|]. by apply Hin.
    + intros _. destruct (decide (g' = g)) as [->|Hne].
      * rewrite Hg in Hc0. injection Hc0 as <-. rewrite Hcg by done. unfold cg'. struct_simpl. by rewrite (chain_det _ _ _ _ Hch Hch').
      * rewrite Hc by done. apply Ht'. destruct Htg as [-> | ->]; [by eapply wf_nonzero|done].
Qed.

(** Everything but the pool and the table. *)
Definition outside m : mDNS :=
  m <| m_ents := ∅ |> <| m_rrcache_free := 0 |> <| m_rrcache_totalused := 0 |> <| m_rrcache_size := 0 |>
    <| m_rrcache_report := 0 |> <| m_rrcache_hash := [] |> <| m_blocks := 0 |> <| m_lock_rrcache := 0 |>
    <| m_log := [] |>.

(** ** Releasing an entity that is in no list *)
Lemma used_range t o m : cache_wf t o m → 0 ≤ count is_used (m_ents m) ≤ Z.of_nat (size (m_ents m)) ∧ is_u32 (Z.of_nat (size (m_ents m))).
Proof.
  intros Hw. destruct (cw_size Hw) as [Hs Hr]. rewrite Hs in Hr. split; [|done].
  rewrite <- count_true. split; [apply count_nonneg|by apply count_le].
Qed.

Lemma release_wf t o m e : cache_wf t o m → o ≠ 0 → m_ents m !! o = Some e → is_used e = true →
  let m' := (put_entity (free_block (is_external e) m) o (EFree (m_rrcache_free m))) <| m_rrcache_free := o |>
            <| m_rrcache_totalused := u32 (m_rrcache_totalused m - 1) |> in
  ReleaseCacheEntity (free_block (is_external e) m) o = Ret m' ∧ cache_wf t 0 m' ∧
  m_ents m' = <[o := EFree (m_rrcache_free m)]> (m_ents m) ∧ outside m' = outside m.
Proof.
  intros Hw Ho0 Ho Hu m'.
  assert (m_ents m' = <[o := EFree (m_rrcache_free m)]> (m_ents m) ∧ m_rrcache_hash m' = m_rrcache_hash m ∧ m_rrcache_free m' = o ∧
    m_rrcache_size m' = m_rrcache_size m ∧ m_rrcache_totalused m' = u32 (m_rrcache_totalused m - 1) ∧
    m_blocks m' = m_blocks m - Z.b2z (is_external e)) as (HE & Hhash & Hfree & Hsize & Hused & Hblocks).
  { unfold m', free_block. destruct (is_external e); split_and!; try done. struct_simpl. simpl. lia. }
  split; [unfold ReleaseCacheEntity, entity, m', free_block; destruct (is_external e); struct_simpl; by rewrite Ho|].
  split; [|split; [done|unfold m', free_block; by destruct (is_external e)]]. clearbody m'.
  destruct (used_range _ _ _ Hw) as [Hcu Hcs].
  pose proof (count_insert is_used (m_ents m) o (EFree (m_rrcache_free m))) as Hci. rewrite Ho in Hci. simpl in Hci. rewrite Hu in Hci. simpl in Hci.
  pose proof (count_nonneg is_used (<[o := EFree (m_rrcache_free m)]> (m_ents m))).
  split; rewrite ?HE, ?Hhash.
  - apply (lists_insert t o 0); [apply Hw|by left|by right|]. intros x c Hx Hne. pose proof (wf_nonzero _ _ _ _ _ Hw Hx). naive_solver.
  - apply Hw.
  - intros p c [[<- _]|[_ Hp]]%lookup_insert_Some; [by apply (cw_pos Hw _ _ Ho)|by apply (cw_pos Hw _ _ Hp)].
  - destruct (cw_free Hw) as (l & Hl & Hin). exists (o :: l). rewrite Hfree. split.
    + split; [done|]. split; [done|]. exists (m_rrcache_free m). unfold free_next at 1. rewrite lookup_insert_eq. split; [done|].
      apply (lseg_ext (free_next (m_ents m))); [|done]. intros p Hp. unfold free_next. rewrite lookup_insert_ne; [done|].
      intros <-. apply (lseg_next _ _ _ _ _ Hl) in Hp as [_ [n Hn]]. apply free_next_Some in Hn. rewrite Ho in Hn. injection Hn as ->. done.
    + intros p n [[<- _]|[_ Hp]]%lookup_insert_Some; [apply list_elem_of_here|]. apply list_elem_of_further. by apply (Hin p n).
  - intros p [[_ Heq]|[Hne Hp]]%lookup_insert_Some; [done|]. by apply (cw_zero Hw) in Hp.
  - by left.
  - rewrite map_size_insert_Some by by rewrite Ho. rewrite Hsize. apply Hw.
  - rewrite Hused, (cw_used Hw), u32_id; lia.
  - rewrite count_insert, Ho. simpl. pose proof (cw_blocks Hw). lia.
Qed.

(** ** Taking an entity from the free list *)
Lemma take_free_wf t m : cache_wf t 0 m → 
  if m_rrcache_free m =? 0 then take_free m = Ret (m, 0) else
  ∃ m' next, take_free m = Ret (m', m_rrcache_free m) ∧ cache_wf t (m_rrcache_free m) m' ∧
    m_ents m !! m_rrcache_free m = Some (EFree next) ∧
    m_ents m' = <[m_rrcache_free m := EZero]> (m_ents m) ∧ m_rrcache_hash m' = m_rrcache_hash m ∧ outside m' = outside m ∧
    m_log m' = m_log m ∧ m_lock_rrcache m' = m_lock_rrcache m.
Proof.
  intros Hw. unfold take_free. cbv zeta. destruct (Z.eqb_spec (m_rrcache_free m) 0) as [H0|H0]; [done|].
  set (e := m_rrcache_free m) in *. destruct (cw_free Hw) as (l & Hl & Hin). fold e in Hl.
  destruct l as [|p l]; [done|]. destruct Hl as (<- & _ & next & Hn & Hl). apply free_next_Some in Hn.
  unfold entity. rewrite Hn. cbn [obind].
  set (m1 := m <| m_rrcache_free := next |> <| m_rrcache_totalused := _ |>).
  match goal with |- context [put_entity ?x e EZero] => set (m2 := x) end.
  assert (m2 = m1 <| m_rrcache_report := m_rrcache_report m2 |>) as Hm2 by (unfold m2; by destruct (_ <=? _)).
  clearbody m2. exists (put_entity m2 e EZero), next. split; [done|].
  assert (m_ents m2 = m_ents m) as HE by by rewrite Hm2.
  split; [|split_and!; [done| | | | |]; unfold put_entity; struct_simpl; rewrite ?HE; try done; rewrite Hm2; done].
  assert (∀ p n, p ∈ l → free_next (m_ents m) p = Some n → p ≠ e) as Hne.
  { intros p n Hp _ ->. assert (chain (free_next (m_ents m)) e (e :: l)) as Hc.
    { split; [done|]. split; [done|]. exists next. split; [by apply free_next_Some|done]. }
    apply chain_NoDup, NoDup_cons in Hc as [Hc _]. done. }
  destruct (used_range _ _ _ Hw) as [Hcu Hcs].
  assert (count is_used (<[e := EZero]> (m_ents m)) = count is_used (m_ents m) + 1) as Hci by (rewrite count_insert, Hn; simpl; lia).
  assert (count is_used (<[e := EZero]> (m_ents m)) ≤ Z.of_nat (size (m_ents m))) as Hcl.
  { assert (size (<[e := EZero]> (m_ents m)) = size (m_ents m)) as <- by (apply map_size_insert_Some; by rewrite Hn).
    rewrite <- count_true. by apply count_le. }
  assert (m_rrcache_hash m2 = m_rrcache_hash m ∧ m_rrcache_free m2 = next ∧ m_rrcache_size m2 = m_rrcache_size m ∧
    m_rrcache_totalused m2 = u32 (m_rrcache_totalused m + 1) ∧ m_blocks m2 = m_blocks m) as (Hhash & Hfree & Hsize & Hused & Hblocks)
    by by rewrite Hm2.
  clear Hm2. split; unfold put_entity; struct_simpl; rewrite ?HE, ?Hhash, ?Hfree, ?Hsize, ?Hused, ?Hblocks.
  - apply (lists_insert t 0 e); [apply Hw| |by left|].
    + intros c Hc. right. rewrite Hn in Hc. by injection Hc as <-.
    + intros x c Hx Hxe. pose proof (wf_nonzero _ _ _ _ _ Hw Hx). naive_solver.
  - apply Hw.
  - intros p c [[<- _]|[_ Hp]]%lookup_insert_Some; [by apply (cw_pos Hw _ _ Hn)|by apply (cw_pos Hw _ _ Hp)].
  - exists l. split.
    + apply (lseg_ext (free_next (m_ents m))); [|done]. intros p Hp. unfold free_next. rewrite lookup_insert_ne; [done|].
      intros <-. destruct (lseg_next _ _ _ _ _ Hl Hp) as [_ [n Hnn]]. by apply (Hne e n).
    + intros p n [[_ Heq]|[Hpe Hp]]%lookup_insert_Some; [done|]. specialize (Hin p n Hp). by apply elem_of_cons in Hin as [->|].
  - intros p [[<- _]|[_ Hp]]%lookup_insert_Some; [done|]. pose proof (cw_zero Hw _ Hp) as ->. by apply (wf_nonzero _ _ _ _ _ Hw) in Hp.
  - right. exists EZero. by rewrite lookup_insert_eq.
  - rewrite map_size_insert_Some by by rewrite Hn. apply Hw.
  - rewrite (cw_used Hw), u32_id; lia.
  - rewrite count_insert, Hn, (cw_blocks Hw). simpl. lia.
Qed.

(** ** Filling in an entity that is in no list *)
Lemma orphan_wf t o m e e' : cache_wf t o m → o ≠ 0 → m_ents m !! o = Some e → is_used e = true → is_used e' = true → e' ≠ EZero →
  cache_wf t o ((put_entity m o e') <| m_blocks := m_blocks m + Z.b2z (is_external e') - Z.b2z (is_external e) |>).
Proof.
  intros Hw Ho0 Ho Hu Hu' Hz. split; unfold put_entity; struct_simpl.
  - apply (lists_insert t o o); [apply Hw|by left|by left|done].
  - apply Hw.
  - intros p c [[<- _]|[_ Hp]]%lookup_insert_Some; [by apply (cw_pos Hw _ _ Ho)|by apply (cw_pos Hw _ _ Hp)].
  - destruct (cw_free Hw) as (l & Hl & Hin). exists l. split.
    + apply (lseg_ext (free_next (m_ents m))); [|done]. intros p Hp. unfold free_next.
      destruct (decide (p = o)) as [->|]; [|by rewrite lookup_insert_ne]. rewrite lookup_insert_eq, Ho. by destruct e, e'.
    + intros p n [[_ ->]|[_ Hp]]%lookup_insert_Some; [done|]. by apply (Hin p n).
  - intros p [[_ ->]|[_ Hp]]%lookup_insert_Some; [done|]. by apply (cw_zero Hw).
  - right. exists e'. by rewrite lookup_insert_eq.
  - rewrite map_size_insert_Some by by rewrite Ho. apply Hw.
  - rewrite count_insert, Ho, (cw_used Hw). simpl. rewrite Hu, Hu'. simpl. lia.
  - rewrite count_insert, Ho, (cw_blocks Hw). simpl. lia.
Qed.

(** ** Appending a record to a group *)
Lemma link_wf m g cg r cr rs : cache_wf 0 r m → r ≠ 0 → m_ents m !! g = Some (EGroup cg) → g ≠ r →
  chain (rec_next (m_ents m)) (cg_members cg) rs → m_ents m !! r = Some (ERecord cr) → cr_next cr = 0 → cr_group cr = g →
  rr_namehash (cr_resrec cr) = cg_namehash cg → data_ok (cr_resrec cr) →
  ∃ m1 cg1 m2, write_rr m (cg_rrcache_tail cg) r = Ret m1 ∧
    set_group m1 g (fun cg => cg <| cg_rrcache_tail := NextOf r |>) = Ret m2 ∧ cache_wf 0 0 m2 ∧
    m2 = m <| m_ents := m_ents m2 |> ∧ same_frame (m_ents m) (m_ents m2) ∧
    m_ents m2 !! g = Some (EGroup cg1) ∧ chain (rec_next (m_ents m2)) (cg_members cg1) (rs ++ [r]) ∧
    m_ents m2 !! r = Some (ERecord cr).
Proof.
  intros Hw Hr0 Hg Hgr Hch Hr Hnx Hgrp Hh Ht. pose proof (wf_nonzero _ _ _ _ _ Hw Hg) as Hg0.
  destruct (wf_members Hw g cg Hg Hgr) as (rs' & Hch' & Hin & Htl). rewrite (chain_det _ _ _ _ Hch' Hch) in Hin, Htl. clear rs' Hch'.
  rewrite Htl by done. rewrite (write_rr_tail 0 r m g cg rs 0 r Hw Hg Hch). set (E1 := relink (m_ents m) (tail_of g rs) r).
  destruct (relink_lseg _ g cg rs 0 r Hg Hch) as (cg1 & Hg1 & _ & Hl1); [by eapply chain_NoDup|]. fold E1 in Hg1, Hl1.
  assert (r ∉ rs) as Hnin by (intros Hx; by apply (Hin r cr Hr) in Hx as []).
  assert (E1 !! r = Some (ERecord cr)) as Hr1.
  { unfold E1, relink. rewrite lookup_alter_ne; [done|].
    apply not_eq_sym, (relink_owner_members (m_ents m) g cg rs 0); try done. exists 0. apply rec_next_Some. eauto. }
  assert (chain (rec_next E1) (cg_members cg1) (rs ++ [r])) as Hch1.
  { apply lseg_snoc. split; [done|]. split; [done|]. apply rec_next_Some. eauto. }
  assert (cache_wf g 0 (m <| m_ents := E1 |>)) as Hw1.
  { apply (wf_reframe 0 r); try done.
    - apply same_frame_relink.
    - intros c. by rewrite Hr.
    - intros c Hc. by apply (wf_nonzero _ _ _ _ _ Hw) in Hc.
    - by left.
    - intros _. by rewrite Hr.
    - intros g' c Hc. destruct (decide (g' = g)) as [->|Hne].
      + rewrite Hg1 in Hc. injection Hc as <-. exists (rs ++ [r]). split; [|done]. split; [done|].
        intros p cp Hp. destruct (frame_rec (same_frame_relink _ _ _) _ _ Hp) as (c0 & Hc0 & Hgc & _).
        specialize (Hin p c0 Hc0). rewrite <- Hgc, elem_of_app, list_elem_of_singleton. pose proof (wf_nonzero _ _ _ _ _ Hw Hc0).
        destruct (decide (p = r)) as [->|]; [|tauto]. rewrite Hr in Hc0. injection Hc0 as <-. tauto.
      + destruct (frame_group (same_frame_relink _ _ _) _ _ Hc) as (c0 & Hc0 & _).
        destruct (decide (g' = r)) as [->|Hg'r]; [rewrite Hr in Hc0; discriminate|].
        destruct (relink_other 0 r m g cg rs 0 r g' c0 0 Hw Hg Hch) as (Hc1 & rs2 & Hrs2 & Ht2); try done.
        * intros p Hp cp Hcp. by apply (Hin p cp Hcp).
        * intros p cp Hp Hgp. split; [intros _; by eapply wf_nonzero|]. intros _ ->. rewrite Hr in Hp. injection Hp as <-. congruence.
        * fold E1 in Hc1. rewrite Hc in Hc1. injection Hc1 as ->. exists rs2. split; [done|]. intros _. apply Ht2. by eapply wf_nonzero.
    - intros _ c Hc. rewrite Hr1 in Hc. injection Hc as <-. exists cg1. rewrite Hgrp. split; [done|]. split; [done|].
      destruct (frame_group (same_frame_relink _ _ _) _ _ Hg1) as (c0 & Hc0 & _ & Hh0 & _). rewrite Hg in Hc0. injection Hc0 as <-.
      rewrite <- Hh0. done. }
  destruct (set_tail_wf g _ g cg1 (rs ++ [r]) Hw1) as [Hset Hw2]; [by right|done|done|]. rewrite tail_of_snoc in Hset, Hw2.
  eexists _, _, _. split; [done|]. split; [exact Hset|]. split; [exact Hw2|]. split; [done|].
  unfold put_entity. struct_simpl. split.
  - intros p. rewrite (same_frame_relink (m_ents m) (tail_of g rs) r p). fold E1.
    destruct (decide (p = g)) as [->|]; [by rewrite lookup_insert_eq, Hg1|by rewrite lookup_insert_ne].
  - rewrite lookup_insert_eq, lookup_insert_ne by done. split; [done|]. split; [|done]. struct_simpl.
    apply (lseg_ext (rec_next E1)); [|done]. intros p _. unfold rec_next.
    destruct (decide (p = g)) as [->|]; [by rewrite lookup_insert_eq, Hg1|by rewrite lookup_insert_ne].
Qed.

(** ** Cutting a group out of its slot *)
Definition gtail_of (i : Z) (gs : list Z) : cg_loc := match last gs with Some g => NextGroup g | None => Slot i end.
Lemma gtail_of_snoc i gs g : gtail_of i (gs ++ [g]) = NextGroup g.
Proof. unfold gtail_of. by rewrite last_snoc. Qed.

Lemma read_cg_tail m i h gs n : at_ (m_rrcache_hash m) i h → lseg (group_next (m_ents m)) h n gs → read_cg m (gtail_of i gs) = Ret n.
Proof.
  intros Hi Hl. destruct gs as [|g gs _] using rev_ind.
  - simpl in *. subst. by apply aget_at.
  - rewrite gtail_of_snoc. apply lseg_snoc in Hl as (_ & _ & (cg & Hg & <-)%group_next_Some). simpl. by rewrite (get_group_at _ _ Hg).
Qed.

(** Only group links change: what is left of the invariant is the slots. *)
Definition gframe (e : CacheEntity) : CacheEntity :=
  match e with EGroup cg => EGroup (cg <| cg_next := 0 |>) | e => e end.
Definition same_gframe E E' : Prop := ∀ p, gframe <$> E !! p = gframe <$> E' !! p.

Lemma gframe_group {E E'} (H : same_gframe E E') g cg' : E' !! g = Some (EGroup cg') → ∃ cg, E !! g = Some (EGroup cg) ∧
  cg_namehash cg = cg_namehash cg' ∧ cg_name cg = cg_name cg' ∧ cg_members cg = cg_members cg' ∧
  cg_rrcache_tail cg = cg_rrcache_tail cg' ∧ cg_external cg = cg_external cg'.
Proof.
  intros Hg. specialize (H g). rewrite Hg in H. destruct (E !! g) as [[| |cg|]|]; simpl in H; try discriminate.
  assert (∀ {A} (f : CacheGroup → A), f (cg <| cg_next := 0 |>) = f (cg' <| cg_next := 0 |>)) as F by (intros; congruence).
  exists cg. split; [done|]. exact (conj (F _ cg_namehash) (conj (F _ cg_name) (conj (F _ cg_members) (conj (F _ cg_rrcache_tail) (F _ cg_external))))).
Qed.
Lemma gframe_other {E E'} (H : same_gframe E E') p e : (∀ cg, e ≠ EGroup cg) → (E' !! p = Some e ↔ E !! p = Some e).
Proof.
  intros He. specialize (H p). destruct (E !! p) as [[]|], (E' !! p) as [[]|]; simpl in H; try naive_solver.
  all: split; intros [= <-]; by edestruct He.
Qed.
Lemma gframe_count {E E'} (H : same_gframe E E') f : (∀ e, f (gframe e) = f e) → count f E' = count f E.
Proof.
  intros Hf. apply count_ext. intros p. specialize (H p).
  destruct (E !! p) as [e|], (E' !! p) as [e'|]; simpl in *; congruence.
Qed.
Lemma gframe_lookup {E E'} (H : same_gframe E E') p e : E !! p = Some e → ∃ e', E' !! p = Some e' ∧ is_used e' = is_used e.
Proof.
  intros Hp. specialize (H p). rewrite Hp in H. destruct (E' !! p) as [e'|]; [|done]. exists e'. split; [done|].
  destruct e, e'; simpl in *; congruence.
Qed.
Lemma gframe_next {E E'} (H : same_gframe E E') p : free_next E' p = free_next E p ∧ rec_next E' p = rec_next E p.
Proof.
  specialize (H p). unfold free_next, rec_next.
  destruct (E !! p) as [[]|], (E' !! p) as [[]|]; simpl in H; split; congruence.
Qed.
Lemma same_gframe_sym E E' : same_gframe E E' → same_gframe E' E.
Proof. by intros H p. Qed.

Lemma wf_regroup o o' m E' hash' : cache_wf 0 o m → same_gframe (m_ents m) E' → zlen hash' = CACHE_HASH_SLOTS →
  (o' = 0 ∨ ∃ cg, m_ents m !! o' = Some (EGroup cg)) → (o = 0 ∨ ∃ cg, m_ents m !! o = Some (EGroup cg)) →
  (∀ i h, at_ hash' i h → ∃ l, chain (group_next E') h l ∧
    ∀ g cg, E' !! g = Some (EGroup cg) → (g ∈ l ↔ g ≠ o' ∧ cg_namehash cg mod CACHE_HASH_SLOTS = i)) →
  (∀ r cr, m_ents m !! r = Some (ERecord cr) → cr_group cr ≠ o') →
  (o = o' ∨ ∀ cg, m_ents m !! o = Some (EGroup cg) → name_mem (cg_name cg) (cg_namehash cg) ∧ cg_members cg = 0 ∧
    cg_rrcache_tail cg = Members o ∧
    ∀ g cg', m_ents m !! g = Some (EGroup cg') → g ≠ o → ¬ same_mem (cg_name cg) (cg_name cg') ∧ ¬ same_mem (cg_name cg') (cg_name cg)) →
  cache_wf 0 o' (m <| m_ents := E' |> <| m_rrcache_hash := hash' |>).
Proof.
  intros Hw Hf Hlen Ho' Ho Hslot Hrec Hnew. pose proof (same_gframe_sym _ _ Hf) as Hf'.
  assert (∀ r cr, m_ents m !! r = Some (ERecord cr) → r ≠ o ∧ r ≠ o') as Hro.
  { intros r cr Hr. pose proof (wf_nonzero _ _ _ _ _ Hw Hr). split; intros ->; [destruct Ho as [|[]]|destruct Ho' as [|[]]]; congruence. }
  split; struct_simpl.
  - split.
    + done.
    + intros g cg' Hg Hgo. destruct (gframe_group Hf _ _ Hg) as (cg & Hcg & <- & <- & _). destruct (decide (g = o)) as [->|].
      * destruct Hnew as [->|Hnew]; [done|]. by apply (Hnew cg Hcg).
      * by apply (cw_name Hw g cg).
    + intros g cg1 g' cg1' Hg Hg' Hgo Hgo'. destruct (gframe_group Hf _ _ Hg) as (cg & Hcg & _ & <- & _).
      destruct (gframe_group Hf _ _ Hg') as (cg' & Hcg' & _ & <- & _). intros Hs.
      destruct (decide (g = o)) as [->|Hne], (decide (g' = o)) as [->|Hne']; [done| | |by apply (cw_unique Hw g cg g' cg')].
      * destruct Hnew as [->|Hnew]; [done|]. destruct (Hnew cg Hcg) as (_ & _ & _ & Hd). by destruct (Hd g' cg' Hcg' Hne').
      * destruct Hnew as [->|Hnew]; [done|]. destruct (Hnew cg' Hcg') as (_ & _ & _ & Hd). by destruct (Hd g cg Hcg Hne).
    + intros g cg' Hg Hgo. destruct (gframe_group Hf _ _ Hg) as (cg & Hcg & _ & _ & <- & <- & _). destruct (decide (g = o)) as [->|].
      * destruct Hnew as [->|Hnew]; [done|]. destruct (Hnew cg Hcg) as (_ & -> & -> & _). exists []. split; [|done]. split; [done|].
        intros r cr Hr. apply (gframe_other Hf) in Hr; [|done]. destruct (cw_rec Hw r cr Hr) as (c & _ & Hne & _); [by apply (Hro r cr)|].
        split; [by intros ?%elem_of_nil|naive_solver].
      * destruct (wf_members Hw g cg Hcg) as (rs & Hch & Hin & Ht); [done|]. exists rs. split; [|done]. split.
        -- apply (lseg_ext (rec_next (m_ents m))); [|done]. intros p _. by apply gframe_next.
        -- intros r cr Hr. apply (gframe_other Hf) in Hr; [|done]. destruct (Hro r cr Hr). specialize (Hin r cr Hr). tauto.
    + intros r cr Hr Hne. apply (gframe_other Hf) in Hr; [|done].
      destruct (cw_rec Hw r cr Hr) as (cg & Hcg & Hgo & Hh & Ht); [by apply (Hro r cr)|].
      destruct (gframe_lookup Hf _ _ Hcg) as (e & He & _). pose proof (Hf (cr_group cr)) as Hx. rewrite Hcg, He in Hx.
      destruct e as [| |cg'|]; simpl in Hx; try discriminate. exists cg'. split; [done|]. split; [by apply (Hrec r cr)|].
      destruct (gframe_group Hf _ _ He) as (cg2 & Hcg2 & <- & _). rewrite Hcg in Hcg2. by injection Hcg2 as <-.
  - done.
  - intros p e Hp. destruct (gframe_lookup Hf' _ _ Hp) as (e' & Hp' & _). by apply (cw_pos Hw _ _ Hp').
  - destruct (cw_free Hw) as (l & Hl & Hin). exists l.
    split; [apply (lseg_ext (free_next (m_ents m))); [|done]; intros; by apply gframe_next|].
    intros p n Hp. apply (Hin p n). by apply (gframe_other Hf).
  - intros p Hp. apply (gframe_other Hf) in Hp; [|done]. pose proof (cw_zero Hw p Hp) as ->.
    destruct Ho as [->|[cg Hcg]]; [by apply (wf_nonzero _ _ _ _ _ Hw) in Hp|congruence].
  - destruct Ho' as [|[cg Hcg]]; [by left|right]. destruct (gframe_lookup Hf _ _ Hcg) as (e & He & Hu). by exists e.
  - rewrite <- count_true, (gframe_count Hf), count_true by done. apply Hw.
  - rewrite (gframe_count Hf) by by intros []. apply Hw.
  - rewrite (gframe_count Hf) by by intros []. apply Hw.
Qed.

(** The state after the link behind [gs] was set to [n]. *)
Definition relink_group m (l : cg_loc) (n : Z) : mDNS :=
  match l with
  | Slot i => m <| m_ents := m_ents m |> <| m_rrcache_hash := <[Z.to_nat i := n]> (m_rrcache_hash m) |>
  | NextGroup g => m <| m_ents := alter (fun e => match e with EGroup cg => EGroup (cg <| cg_next := n |>) | e => e end) g (m_ents m) |>
                     <| m_rrcache_hash := m_rrcache_hash m |>
  end.
Lemma write_cg_tail t o m i h gs k n : cache_wf t o m → at_ (m_rrcache_hash m) i h → lseg (group_next (m_ents m)) h k gs →
  write_cg m (gtail_of i gs) n = Ret (relink_group m (gtail_of i gs) n).
Proof.
  intros Hw Hi Hl. destruct gs as [|g gs _] using rev_ind.
  - unfold gtail_of. simpl. rewrite aset_in by by eapply at_range. done.
  - rewrite gtail_of_snoc. apply lseg_snoc in Hl as (_ & _ & (cg & Hg & _)%group_next_Some). simpl. rewrite (set_group_at _ _ _ Hg).
    unfold put_entity. f_equal.
    assert (alter (fun e => match e with EGroup cg => EGroup (cg <| cg_next := n |>) | e => e end) g (m_ents m) =
            <[g := EGroup (cg <| cg_next := n |>)]> (m_ents m)) as ->; [|done].
    apply map_eq. intros p. destruct (decide (p = g)) as [->|].
    + by rewrite lookup_insert_eq, lookup_alter_eq, Hg.
    + by rewrite lookup_insert_ne, lookup_alter_ne.
Qed.
Lemma relink_group_frame m l n : same_gframe (m_ents m) (m_ents (relink_group m l n)).
Proof.
  destruct l as [i|g]; [done|]. intros p. simpl. struct_simpl. destruct (decide (p = g)) as [->|].
  - rewrite lookup_alter_eq. by destruct (m_ents m !! g) as [[]|].
  - by rewrite lookup_alter_ne.
Qed.
Lemma relink_group_at m i h gs k n j h' : at_ (m_rrcache_hash m) i h → lseg (group_next (m_ents m)) h k gs →
  at_ (m_rrcache_hash (relink_group m (gtail_of i gs) n)) j h' → (j ≠ i ∧ at_ (m_rrcache_hash m) j h') ∨
  (j = i ∧ h' = match gs with [] => n | _ => h end).
Proof.
  intros Hi Hl. destruct gs as [|g gs _] using rev_ind.
  - unfold gtail_of. simpl. struct_simpl. intros Hj. apply at_insert in Hj as [[-> ->]|[? ?]]; [by right|by left|]. apply Hi.
  - rewrite gtail_of_snoc. simpl. struct_simpl. intros Hj. destruct (decide (j = i)) as [->|]; [|by left]. right. split; [done|].
    rewrite (at_fun _ _ _ _ Hj Hi). by destruct gs.
Qed.
Lemma relink_group_lseg m i h gs k n : at_ (m_rrcache_hash m) i h → lseg (group_next (m_ents m)) h k gs → NoDup gs →
  lseg (group_next (m_ents (relink_group m (gtail_of i gs) n))) (match gs with [] => n | _ => h end) n gs.
Proof.
  intros Hi Hl Hnd. destruct gs as [|g gs _] using rev_ind; [done|]. rewrite gtail_of_snoc. simpl. struct_simpl.
  pose proof Hl as (Hl' & Hg0 & (cg & Hg & _)%group_next_Some)%lseg_snoc.
  assert (match gs ++ [g] with [] => n | _ => h end = h) as -> by by destruct gs. apply lseg_snoc. split_and!; [|done|].
  - apply (lseg_ext (group_next (m_ents m))); [|done]. intros p Hp. unfold group_next. rewrite lookup_alter_ne; [done|].
    intros ->. apply NoDup_app in Hnd as (_ & Hnd & _). by apply (Hnd p Hp), list_elem_of_singleton.
  - unfold group_next. by rewrite lookup_alter_eq, Hg.
Qed.
Lemma relink_group_next m i gs n p : p ∉ gs →
  group_next (m_ents (relink_group m (gtail_of i gs) n)) p = group_next (m_ents m) p.
Proof.
  intros Hp. destruct gs as [|g gs _] using rev_ind; [done|]. rewrite gtail_of_snoc. simpl. struct_simpl. unfold group_next.
  rewrite lookup_alter_ne; [done|]. intros ->. apply Hp, elem_of_app. right. by apply list_elem_of_singleton.
Qed.

Lemma unlink_group_wf m i h gs g cg gs' : cache_wf 0 0 m → at_ (m_rrcache_hash m) i h →
  chain (group_next (m_ents m)) h (gs ++ g :: gs') → m_ents m !! g = Some (EGroup cg) → cg_members cg = 0 →
  let m' := relink_group m (gtail_of i gs) (cg_next cg) in
  write_cg m (gtail_of i gs) (cg_next cg) = Ret m' ∧ cache_wf 0 g m' ∧ m_ents m' !! g = Some (EGroup cg) ∧
  ∃ h', at_ (m_rrcache_hash m') i h' ∧ chain (group_next (m_ents m')) h' (gs ++ gs').
Proof.
  intros Hw Hi Hch Hg Hmem m'. pose proof (wf_nonzero _ _ _ _ _ Hw Hg) as Hg0.
  pose proof (chain_NoDup _ _ _ Hch) as Hnd. pose proof Hnd as (Hnd1 & Hdis & Hnd2)%NoDup_app. apply NoDup_cons in Hnd2 as [Hgn Hnd2].
  pose proof Hch as (k & Hgs & -> & _ & n & (c & Hc & Hn)%group_next_Some & Hgs')%lseg_app. rewrite Hg in Hc. injection Hc as <-. subst n.
  assert (∀ p, p ∈ g :: gs' → p ∉ gs) as Hdis' by (intros p Hp Hk; by apply (Hdis p)).
  destruct (cw_slot Hw i h Hi) as (l & Hl & Hin). rewrite (chain_det _ _ _ _ Hl Hch) in Hin. clear l Hl.
  assert (chain (group_next (m_ents m')) (match gs with [] => cg_next cg | _ => h end) (gs ++ gs')) as Hch'.
  { apply lseg_app. exists (cg_next cg). split; [by eapply relink_group_lseg|].
    apply (lseg_ext (group_next (m_ents m))); [|done]. intros p Hp. apply relink_group_next. by apply Hdis', list_elem_of_further. }
  assert (m_ents m' !! g = Some (EGroup cg)) as Hg'.
  { unfold m'. destruct gs as [|g1 gs1 _] using rev_ind; [done|]. rewrite gtail_of_snoc. simpl. struct_simpl.
    rewrite lookup_alter_ne; [done|]. intros ->. apply (Hdis' g (list_elem_of_here _ _)), elem_of_app. right. by apply list_elem_of_singleton. }
  split; [by eapply write_cg_tail|]. split; [|split; [done|]].
  - assert (m' = m <| m_ents := m_ents m' |> <| m_rrcache_hash := m_rrcache_hash m' |>) as -> by (unfold m'; by destruct (gtail_of i gs)).
    apply (wf_regroup 0 g); try done.
    + apply relink_group_frame.
    + unfold m'. destruct (gtail_of i gs); simpl; struct_simpl; rewrite ?zlen_insert; apply Hw.
    + by right; exists cg.
    + by left.
    + intros j hj [[Hne Hj]|[-> ->]]%(relink_group_at m i h gs g); [..|done|done].
      * destruct (cw_slot Hw j hj Hj) as (l & Hl & Hinj). exists l. split.
        -- apply (lseg_ext (group_next (m_ents m))); [|done]. intros p Hp. apply relink_group_next. intros Hpg.
           destruct (lseg_next _ _ _ _ _ Hl Hp) as [_ [x Hx]]. apply group_next_Some in Hx as (c & Hc & _).
           apply (Hinj p c Hc) in Hp as [_ Hp]. apply Hne. rewrite <- Hp. apply (Hin p c Hc), elem_of_app. by left.
        -- intros p c' Hp. destruct (gframe_group (relink_group_frame _ _ _) _ _ Hp) as (c & Hc & <- & _).
           rewrite (Hinj p c Hc). pose proof (wf_nonzero _ _ _ _ _ Hw Hc). split; [|tauto]. intros [_ Hm]. split; [|done].
           intros ->. apply Hne. rewrite <- Hm. apply (Hin g c Hc), elem_of_app. right. apply list_elem_of_here.
      * exists (gs ++ gs'). split; [done|]. intros p c' Hp. destruct (gframe_group (relink_group_frame _ _ _) _ _ Hp) as (c & Hc & <- & _).
        specialize (Hin p c Hc). rewrite elem_of_app in Hin |- *. rewrite elem_of_cons in Hin. pose proof (wf_nonzero _ _ _ _ _ Hw Hc).
        pose proof (Hdis' g (list_elem_of_here _ _)). split; [|tauto]. intros Hx. split; [intros ->; tauto|tauto].
    + intros r cr Hr Hgr. destruct (wf_members Hw g cg Hg Hg0) as (rs & Hrs & Hrin & _). rewrite Hmem in Hrs. apply chain_zero in Hrs as ->.
      apply (elem_of_nil r), (Hrin r cr Hr). split; [by eapply wf_nonzero|done].
    + right. intros c Hc. by apply (wf_nonzero _ _ _ _ _ Hw) in Hc.
  - eexists. split; [|exact Hch']. unfold m'. destruct gs as [|g1 gs1 _] using rev_ind.
    + unfold gtail_of. simpl. struct_simpl. apply at_insert_eq. by eapply at_range.
    + rewrite gtail_of_snoc. simpl. struct_simpl. by destruct gs1.
Qed.

Lemma relink_group_outside m l n : outside (relink_group m l n) = outside m ∧ m_log (relink_group m l n) = m_log m ∧
  m_lock_rrcache (relink_group m l n) = m_lock_rrcache m.
Proof. by destruct l. Qed.

Lemma write_cg_free_block b m l n : write_cg (free_block b m) l n = let* m' := write_cg m l n in Ret (free_block b m').
Proof.
  unfold free_block. destruct b; [|by destruct (write_cg m l n)]. destruct l as [i|g].
  - unfold write_cg. struct_simpl. by destruct (aset _ _ _).
  - unfold write_cg, set_group, get_group, entity. struct_simpl. by destruct (m_ents m !! g) as [[]|].
Qed.

Lemma ReleaseCacheGroup_wf m i h gs g cg gs' : cache_wf 0 0 m → at_ (m_rrcache_hash m) i h →
  chain (group_next (m_ents m)) h (gs ++ g :: gs') → m_ents m !! g = Some (EGroup cg) → cg_members cg = 0 →
  ∃ m' h', ReleaseCacheGroup m (gtail_of i gs) = Ret m' ∧ cache_wf 0 0 m' ∧ at_ (m_rrcache_hash m') i h' ∧
    chain (group_next (m_ents m')) h' (gs ++ gs') ∧ m_rrcache_free m' = g ∧
    (∀ p, p ≠ g → gframe <$> m_ents m !! p = gframe <$> m_ents m' !! p) ∧
    outside m' = outside m ∧ m_log m' = m_log m ∧ m_lock_rrcache m' = m_lock_rrcache m.
Proof.
  intros Hw Hi Hch Hg Hmem. pose proof (wf_nonzero _ _ _ _ _ Hw Hg) as Hg0.
  destruct (unlink_group_wf m i h gs g cg gs' Hw Hi Hch Hg Hmem) as (_ & Hw1 & Hg1 & h' & Hi1 & Hch1).
  set (m1 := relink_group m (gtail_of i gs) (cg_next cg)) in *.
  destruct (release_wf 0 g m1 (EGroup cg) Hw1 Hg0 Hg1 eq_refl) as (Hrel & Hw2 & HE & Hout).
  match type of Hrel with _ = Ret ?x => set (m2 := x) in * end. exists m2, h'.
  destruct (wf_members Hw g cg Hg Hg0) as (rs & Hrs & _ & Ht). rewrite Hmem in Hrs. apply chain_zero in Hrs as ->.
  assert (m_rrcache_hash m2 = m_rrcache_hash m1 ∧ m_rrcache_free m2 = g ∧ m_log m2 = m_log m1 ∧ m_lock_rrcache m2 = m_lock_rrcache m1)
    as (Hhash & Hfree & Hlog & Hlock) by (unfold m2, free_block; by destruct (is_external _)).
  destruct (relink_group_outside m (gtail_of i gs) (cg_next cg)) as (Ho & Hlo & Hlk). fold m1 in Ho, Hlo, Hlk.
  split; [|rewrite Hhash; split_and!; try congruence].
  - unfold ReleaseCacheGroup. apply lseg_app in Hch as (k & Hgs & -> & _). rewrite (read_cg_tail m i h gs g Hi Hgs). cbn [obind].
    rewrite (get_group_at _ _ Hg). cbn [obind]. rewrite Ht, bool_decide_true by (done || by apply not_eq_sym). cbn [negb log_if].
    rewrite write_cg_free_block, (write_cg_tail 0 0 m i h gs g) by done.
    cbn [obind]. exact Hrel.
  - apply (lseg_ext (group_next (m_ents m1))); [|done]. intros p Hp. rewrite HE. unfold group_next. rewrite lookup_insert_ne; [done|].
    intros <-. apply chain_NoDup, NoDup_app in Hch as (_ & Hd & Hnd). apply NoDup_cons in Hnd as [Hgn _].
    apply elem_of_app in Hp as [Hp|Hp]; [by apply (Hd _ Hp), list_elem_of_here|done].
  - intros p Hp. rewrite HE, lookup_insert_ne by done. apply relink_group_frame.
Qed.

(** ** Adding a group *)
Lemma link_group_wf m i h g cg : cache_wf 0 g m → g ≠ 0 → m_ents m !! g = Some (EGroup cg) → at_ (m_rrcache_hash m) i h →
  cg_next cg = h → cg_members cg = 0 → cg_rrcache_tail cg = Members g → name_mem (cg_name cg) (cg_namehash cg) →
  cg_namehash cg mod CACHE_HASH_SLOTS = i →
  (∀ g' cg', m_ents m !! g' = Some (EGroup cg') → g' ≠ g → ¬ same_mem (cg_name cg) (cg_name cg')) →
  cache_wf 0 0 (m <| m_rrcache_hash := <[Z.to_nat i := g]> (m_rrcache_hash m) |>).
Proof.
  intros Hw Hg0 Hg Hi Hnx Hmem Htl Hname Hmod Huniq.
  change (m <| m_rrcache_hash := ?x |>) with (m <| m_ents := m_ents m |> <| m_rrcache_hash := x |>).
  apply (wf_regroup g 0); try done.
  - rewrite zlen_insert. apply Hw.
  - by left.
  - by right; exists cg.
  - intros j hj [[-> ->]|[Hne Hj]]%at_insert; [| |apply Hi].
    + destruct (cw_slot Hw i h Hi) as (l & Hl & Hin). exists (g :: l). split.
      * split; [done|]. split; [done|]. exists h. split; [|done]. apply group_next_Some. by exists cg.
      * intros p c Hp. pose proof (wf_nonzero _ _ _ _ _ Hw Hp). specialize (Hin p c Hp). rewrite elem_of_cons.
        destruct (decide (p = g)) as [->|]; [|tauto]. rewrite Hg in Hp. injection Hp as <-. tauto.
    + destruct (cw_slot Hw j hj Hj) as (l & Hl & Hin). exists l. split; [done|].
      intros p c Hp. pose proof (wf_nonzero _ _ _ _ _ Hw Hp). rewrite (Hin p c Hp).
      destruct (decide (p = g)) as [->|]; [|tauto]. rewrite Hg in Hp. injection Hp as <-. split; [by intros [? ?]|]. intros [_ Hj']. congruence.
  - intros r cr Hr. destruct (cw_rec Hw r cr Hr) as (c & Hc & _); [intros ->; congruence|]. by eapply wf_nonzero.
  - right. intros c Hc. rewrite Hg in Hc. injection Hc as <-. split_and!; try done.
    intros g' cg' Hg' Hne. split; [by apply (Huniq g')|]. intros (ls & ls' & ? & ? & ? & ? & Hs). apply (Huniq g' cg' Hg' Hne).
    exists ls', ls. by split_and!.
Qed.

(** ** Adding memory *)
Lemma link_storage_spec n : ∀ m s, 0 < s →
  (∀ x, s ≤ x < s + Z.of_nat n → m_ents m !! x = None) →
  let E' := m_ents (link_storage n m s) in
  link_storage n m s = m <| m_ents := E' |> ∧
  (∀ x, E' !! x = if (s <=? x) && (x <? s + Z.of_nat n) then Some (EFree (x + 1)) else m_ents m !! x) ∧
  size E' = (size (m_ents m) + n)%nat ∧ count is_used E' = count is_used (m_ents m) ∧ count is_external E' = count is_external (m_ents m) ∧
  (∀ t o hash, lists_wf t o (m_ents m) hash → o < s ∨ s + Z.of_nat n ≤ o → lists_wf t o E' hash).
Proof.
  induction n as [|n IH]; intros m s Hs Hfresh; cbn [link_storage].
  - split_and!; try done; [by destruct m|]. intros x.
    destruct (Z.leb_spec s x), (Z.ltb_spec x (s + Z.of_nat 0)); simpl; try done. lia.
  - assert (m_ents m !! s = None) as Hns by (apply Hfresh; lia).
    destruct (IH (put_entity m s (EFree (s + 1))) (s + 1)) as (HI & HE & Hsz & Hu & He & Hl).
    { lia. }
    { intros x Hx. rewrite put_entity_ents, lookup_insert_ne by lia. apply Hfresh. lia. }
    rewrite put_entity_ents in *. split; [rewrite HI at 1; done|]. split; [|split_and!].
    + intros x. rewrite HE. destruct (decide (x = s)) as [->|Hne].
      * rewrite lookup_insert_eq. tests; (done || lia).
      * rewrite lookup_insert_ne by done. tests; (done || lia).
    + rewrite Hsz, map_size_insert_None by done. lia.
    + rewrite Hu, count_insert, Hns. simpl. lia.
    + rewrite He, count_insert, Hns. simpl. lia.
    + intros t o hash Hw Ho. apply Hl; [|lia]. apply (lists_insert t o o); [done| |by right|done]. intros c Hc. congruence.
Qed.

Lemma seqZ_free_chain E s n e : 0 < s → (∀ x, s ≤ x < s + Z.of_nat n → E !! x = Some (EFree (x + 1))) →
  s + Z.of_nat n = e → lseg (free_next E) s e (seqZ s (Z.of_nat n)).
Proof.
  revert s. induction n as [|n IH]; intros s Hs HE He; [simpl; lia|].
  rewrite Nat2Z.inj_succ, seqZ_cons by lia. split; [done|]. split; [lia|]. exists (s + 1).
  split; [apply free_next_Some, HE; lia|]. replace (Z.succ s) with (s + 1) by lia. rewrite Z.pred_succ.
  apply IH; [lia| |lia]. intros x Hx. apply HE. lia.
Qed.

Lemma GrowCache_wf t o m s n : cache_wf t o m → 0 < s → 0 < n → o < s ∨ s + n ≤ o → is_u32 (m_rrcache_size m + n) →
  (∀ x, s ≤ x < s + n → m_ents m !! x = None) →
  let m' := mDNS_GrowCache_internal m s n in
  cache_wf t o m' ∧ (∀ p e, m_ents m !! p = Some e → m_ents m' !! p = Some e) ∧ m_rrcache_free m' = s ∧
  (∀ p e, m_ents m' !! p = Some e → m_ents m !! p = Some e ∨ ∃ k, e = EFree k) ∧
  outside m' = outside m ∧ m_log m' = m_log m ∧ m_lock_rrcache m' = m_lock_rrcache m ∧ m_rrcache_hash m' = m_rrcache_hash m.
Proof.
  intros Hw Hs Hn Ho Hsize Hfresh m'. unfold m', mDNS_GrowCache_internal.
  rewrite (proj2 (Z.eqb_neq s 0)), (proj2 (Z.eqb_neq n 0)) by lia. cbn [negb andb].
  destruct (link_storage_spec (Z.to_nat n) m s Hs) as (HI & HE & Hsz & Hu & He & Hl); [by rewrite Z2Nat.id by lia|].
  rewrite Z2Nat.id in HE, Hl by lia. set (E1 := m_ents (link_storage (Z.to_nat n) m s)) in *. rewrite HI. unfold put_entity. struct_simpl.
  set (f := m_rrcache_free m) in *. set (z := s + n - 1). set (E2 := <[z := EFree f]> E1).
  assert (E1 !! z = Some (EFree (s + n))) as Hz.
  { rewrite HE. tests; [f_equal; f_equal; unfold z; lia|unfold z in *; lia]. }
  assert (∀ x, E2 !! x = if (s <=? x) && (x <? s + n) then Some (EFree (if x =? z then f else x + 1)) else m_ents m !! x) as HE2.
  { intros x. unfold E2. destruct (decide (x = z)) as [->|Hne].
    - rewrite lookup_insert_eq, Z.eqb_refl. destruct (_ && _) eqn:Hb; [done|]. unfold z in *. tests_to_Z. lia.
    - rewrite lookup_insert_ne, HE by done. destruct (_ && _); [|done]. by rewrite (proj2 (Z.eqb_neq x z)). }
  assert (∀ p e, m_ents m !! p = Some e → E2 !! p = Some e) as Hold.
  { intros p e Hp. rewrite HE2. destruct (_ && _) eqn:Hb; [|done]. rewrite Hfresh in Hp by (tests_to_Z; lia). done. }
  assert (∀ p e, E2 !! p = Some e → m_ents m !! p = Some e ∨ s ≤ p < s + n ∧ ∃ k, e = EFree k) as Hnew.
  { intros p e. rewrite HE2. destruct (_ && _) eqn:Hb; [|by left]. intros Hx. injection Hx as <-. right. split; [tests_to_Z; lia|by eexists]. }
  split; [|split_and!; try done; intros p e Hp; destruct (Hnew p e Hp) as [|[_ ?]]; [by left|by right]].
  split; struct_simpl.
  - apply (lists_insert t o o); [by apply Hl; [apply Hw|]| |by right|done].
    intros c Hc. rewrite Hz in Hc. injection Hc as <-. by right.
  - apply Hw.
  - intros p e Hp. destruct (Hnew p e Hp) as [Hp'|[? _]]; [by apply (cw_pos Hw _ _ Hp')|lia].
  - destruct (cw_free Hw) as (l & Hch & Hin). exists (seqZ s (n - 1) ++ z :: l). split.
    + apply lseg_app. exists z. split.
      * replace (n - 1) with (Z.of_nat (Z.to_nat (n - 1))) by lia. apply seqZ_free_chain; [done| |unfold z; lia].
        intros x Hx. rewrite HE2, (proj2 (Z.leb_le s x)), (proj2 (Z.ltb_lt x (s + n))) by lia. by rewrite (proj2 (Z.eqb_neq x z)) by (unfold z; lia).
      * split; [done|]. split; [unfold z; lia|]. exists f. split; [apply free_next_Some; unfold E2; by rewrite lookup_insert_eq|].
        apply (lseg_ext (free_next (m_ents m))); [|done]. intros p Hp. destruct (lseg_next _ _ _ _ _ Hch Hp) as [_ [k Hk]].
        apply free_next_Some in Hk. unfold free_next. by rewrite Hk, (Hold _ _ Hk).
    + intros p k Hp. destruct (Hnew p _ Hp) as [Hp'|[Hr _]].
      * apply elem_of_app. right. apply list_elem_of_further. by apply (Hin p k).
      * apply elem_of_app. destruct (decide (p = z)) as [->|]; [right; apply list_elem_of_here|left]. apply elem_of_seqZ. unfold z in *. lia.
  - intros p Hp. destruct (Hnew p _ Hp) as [Hp'|[_ [? [=]]]]. by apply (cw_zero Hw).
  - destruct (cw_orphan Hw) as [|(e & He' & Hue)]; [by left|right]. exists e. by split; [apply Hold|].
  - destruct (cw_size Hw) as [Hsz0 _]. unfold E2. rewrite map_size_insert_Some by by rewrite Hz. rewrite u32_id, Hsz by done. lia.
  - unfold E2. rewrite count_insert, Hz, Hu. simpl. rewrite (cw_used Hw). lia.
  - unfold E2. rewrite count_insert, Hz, He. simpl. rewrite (cw_blocks Hw). lia.
Qed.
