(* ===== verification/MDNSRecycle.v ===== *)
(** Taking a cache entity: [GetCacheEntity] and its callers.

    When the free list is empty and the client layer gives no more memory,
    the records that no active question uses are recycled.  [recycled E E']
    says what may happen to the cache then: entities may become free, but
    what is still in use is unchanged up to its links, records that are in
    use by questions stay, and the lists keep their order. *)
From S2P Require Import Prelude Bytes DNSTypes DNSName DNSRecord DNSMessage MDNSTypes MDNSCache MDNSList MDNSInv MDNSPool.

Implicit Types (E : gmap Z CacheEntity) (m : mDNS) (p g r t o : Z).

(** ** What recycling does *)
Definition bare (e : CacheEntity) : CacheEntity := gframe (frame e).
(** Records that answer active questions, or are being flushed, stay. *)
Definition keeps (cr : CacheRecord) : bool := negb (cr_CRActiveQuestion cr =? 0) || negb (cr_NextInCFList cr =? 0).
Definition keepsE E r : bool := match E !! r with Some (ERecord cr) => keeps cr | _ => false end.

Record recycled E E' : Prop := {
  rc_old : ∀ p e', E' !! p = Some e' → is_used e' = true → ∃ e, E !! p = Some e ∧ bare e = bare e';
  rc_dom : ∀ p, is_Some (E !! p) → is_Some (E' !! p);
  rc_keep : ∀ r cr, E !! r = Some (ERecord cr) → keeps cr = true → ∃ cr', E' !! r = Some (ERecord cr');
  rc_order : ∀ g cg cg' rs rs', E !! g = Some (EGroup cg) → E' !! g = Some (EGroup cg') →
    chain (rec_next E) (cg_members cg) rs → chain (rec_next E') (cg_members cg') rs' → rs' `sublist_of` rs
}.

Lemma bare_rec cr e' : bare (ERecord cr) = bare e' → ∃ cr', e' = ERecord cr' ∧ frame (ERecord cr) = frame (ERecord cr').
Proof. destruct e'; unfold bare; simpl; try discriminate. eauto. Qed.
Lemma bare_rec_r e cr' : bare e = bare (ERecord cr') → ∃ cr, e = ERecord cr ∧ frame (ERecord cr) = frame (ERecord cr').
Proof. intros H. symmetry in H. apply bare_rec in H as (cr & -> & H). eauto. Qed.
Lemma bare_group_r e cg' : bare e = bare (EGroup cg') → ∃ cg, e = EGroup cg ∧ cg_namehash cg = cg_namehash cg' ∧
  cg_name cg = cg_name cg' ∧ cg_external cg = cg_external cg'.
Proof.
  destruct e as [| |cg|]; unfold bare; simpl; try discriminate. intros H.
  set (b := fun cg => cg <| cg_members := 0 |> <| cg_rrcache_tail := Members 0 |> <| cg_next := 0 |>).
  assert (∀ {A} (f : CacheGroup → A), f (b cg) = f (b cg')) as F by (intros; unfold b; congruence).
  exists cg. split; [done|]. exact (conj (F _ cg_namehash) (conj (F _ cg_name) (F _ cg_external))).
Qed.
Lemma frame_keeps cr cr' : frame (ERecord cr) = frame (ERecord cr') → keeps cr = keeps cr'.
Proof.
  intros H. assert (∀ {A} (f : CacheRecord → A), f (cr <| cr_next := 0 |>) = f (cr' <| cr_next := 0 |>)) as F
    by (intros; simpl in H; congruence).
  unfold keeps. pose proof (F _ cr_CRActiveQuestion) as H1. pose proof (F _ cr_NextInCFList) as H2. struct_simpl in H1. struct_simpl in H2.
  by rewrite H1, H2.
Qed.
Lemma bare_used e e' : bare e = bare e' → is_used e = is_used e'.
Proof. by destruct e, e'. Qed.

Lemma recycled_refl E : recycled E E.
Proof.
  split; [by eauto|done|by eauto|]. intros g cg cg' rs rs' Hg Hg' Hch Hch'. rewrite Hg in Hg'. injection Hg' as <-.
  by rewrite (chain_det _ _ _ _ Hch Hch').
Qed.
Lemma recycled_trans t m E E' : cache_wf t 0 m → recycled E (m_ents m) → recycled (m_ents m) E' → recycled E E'.
Proof.
  intros Hw H1 H2. split.
  - intros p e' Hp Hu. destruct (rc_old _ _ H2 p e' Hp Hu) as (e1 & Hp1 & Hb). rewrite <- (bare_used _ _ Hb) in Hu.
    destruct (rc_old _ _ H1 p e1 Hp1 Hu) as (e & Hp0 & Hb0). exists e. split; [done|congruence].
  - intros p Hp. by apply (rc_dom _ _ H2), (rc_dom _ _ H1).
  - intros r cr Hr Hk. destruct (rc_keep _ _ H1 r cr Hr Hk) as (cr1 & Hr1). apply (rc_keep _ _ H2 r cr1 Hr1).
    destruct (rc_old _ _ H1 r _ Hr1 eq_refl) as (e & He & Hb). rewrite Hr in He. injection He as <-.
    apply bare_rec in Hb as (? & [= <-] & Hf). by rewrite <- (frame_keeps _ _ Hf).
  - intros g cg cg' rs rs' Hg Hg' Hch Hch'. destruct (rc_old _ _ H2 g _ Hg' eq_refl) as (e1 & He1 & Hb).
    apply bare_group_r in Hb as (cg1 & -> & _). destruct (wf_members Hw g cg1 He1) as (rs1 & Hch1 & _); [by eapply wf_nonzero|].
    transitivity rs1; [by eapply (rc_order _ _ H2)|by eapply (rc_order _ _ H1)].
Qed.

(** Changing links only, with the lists getting no longer. *)
Lemma recycled_frame E E' : same_frame E E' →
  (∀ g cg cg' rs rs', E !! g = Some (EGroup cg) → E' !! g = Some (EGroup cg') →
    chain (rec_next E) (cg_members cg) rs → chain (rec_next E') (cg_members cg') rs' → rs' `sublist_of` rs) → recycled E E'.
Proof.
  intros Hf Ho. split; [| | |done].
  - intros p e' Hp _. pose proof (Hf p) as H. rewrite Hp in H. destruct (E !! p) as [e|]; [|done]. exists e. split; [done|].
    unfold bare. f_equal. simpl in H. congruence.
  - intros p Hp. pose proof (Hf p) as H. by destruct (E !! p), (E' !! p).
  - intros r cr Hr _. pose proof (Hf r) as H. rewrite Hr in H. destruct (E' !! r) as [[]|]; simpl in H; try discriminate. by eexists.
Qed.

(** Recycling frees cells and leaves the list of records to flush alone. *)
Definition is_free (e : CacheEntity) : bool := negb (is_used e).
Lemma recycled_free_count E E' : recycled E E' → count is_free E ≤ count is_free E'.
Proof.
  intros H. apply count_mono. intros p. destruct (E !! p) as [e|] eqn:Hp; [|simpl; destruct (E' !! p); simpl; [destruct (is_free _); simpl; lia|lia]].
  destruct (rc_dom _ _ H p) as [e' Hp']; [by rewrite Hp|]. rewrite Hp'. simpl. unfold is_free. destruct (is_used e') eqn:Hu; [|destruct (is_used e); simpl; lia].
  destruct (rc_old _ _ H p e' Hp' Hu) as (e0 & He0 & Hb). rewrite Hp in He0. injection He0 as <-. by rewrite (bare_used _ _ Hb), Hu.
Qed.
Lemma recycled_cf E E' : recycled E E' → same_cf E E'.
Proof.
  intros H r. unfold cf_link. destruct (E' !! r) as [[| | |cr']|] eqn:Hr'.
  4: { destruct (rc_old _ _ H r _ Hr' eq_refl) as (e & -> & Hb). apply bare_rec_r in Hb as (cr & -> & Hf). by apply frame_cf. }
  all: destruct (E !! r) as [[| | |cr]|] eqn:Hr; try done; destruct (Z.eq_dec (cr_NextInCFList cr) 0) as [|Hne]; [done|exfalso].
  all: destruct (rc_keep _ _ H r cr Hr) as [c Hc]; [unfold keeps; by rewrite (proj2 (Z.eqb_neq _ _) Hne), orb_true_r|congruence].
Qed.

Definition clean E g : Prop := ∀ r cr, E !! r = Some (ERecord cr) → cr_group cr = g → keeps cr = true.
Lemma clean_mono E E' g : recycled E E' → clean E g → clean E' g.
Proof.
  intros H Hc r cr' Hr Hg. destruct (rc_old _ _ H r _ Hr eq_refl) as (e & He & Hb).
  apply bare_rec_r in Hb as (cr & -> & Hf). rewrite <- (frame_keeps _ _ Hf). apply (Hc r cr He).
  by destruct (frame_rec_inv _ _ Hf) as [-> _].
Qed.

(** A group with a record that stays. *)
Definition busy E g : Prop := ∃ r cr, E !! r = Some (ERecord cr) ∧ cr_group cr = g ∧ keeps cr = true.
Lemma busy_mono E E' g : recycled E E' → busy E g → busy E' g.
Proof.
  intros H (r & cr & Hr & Hg & Hk). destruct (rc_keep _ _ H r cr Hr Hk) as [cr' Hr'].
  destruct (rc_old _ _ H r _ Hr' eq_refl) as (e & He & Hb). rewrite Hr in He. injection He as <-.
  apply bare_rec in Hb as (? & [= <-] & Hf). exists r, cr'. split; [done|]. rewrite <- (frame_keeps _ _ Hf).
  split; [|done]. destruct (frame_rec_inv _ _ Hf) as [Hgr _]. congruence.
Qed.
Lemma recycled_group_old E E' g cg' : recycled E E' → E' !! g = Some (EGroup cg') →
  ∃ cg, E !! g = Some (EGroup cg) ∧ cg_namehash cg = cg_namehash cg' ∧ cg_name cg = cg_name cg'.
Proof.
  intros H Hg. destruct (rc_old _ _ H g _ Hg eq_refl) as (e & He & (cg & -> & ? & ? & _)%bare_group_r). by exists cg.
Qed.
(** Only the preserved group and groups with records that stay are left. *)
Definition swept E P g : Prop := ∀ cg, E !! g = Some (EGroup cg) → g = P ∨ busy E g.
Lemma swept_mono E E' P g : recycled E E' → swept E P g → swept E' P g.
Proof.
  intros H Hs cg' Hg. destruct (recycled_group_old _ _ _ _ H Hg) as (cg & Hc & _).
  destruct (Hs cg Hc); [by left|right; by eapply busy_mono].
Qed.

(** ** The steps *)
Lemma recycled_unlink t m g cg ks r cr rs : cache_wf t 0 m → m_ents m !! g = Some (EGroup cg) →
  chain (rec_next (m_ents m)) (cg_members cg) (ks ++ r :: rs) → m_ents m !! r = Some (ERecord cr) →
  (∃ cg', relink (m_ents m) (tail_of g ks) (cr_next cr) !! g = Some (EGroup cg') ∧
    chain (rec_next (relink (m_ents m) (tail_of g ks) (cr_next cr))) (cg_members cg') (ks ++ rs)) →
  recycled (m_ents m) (relink (m_ents m) (tail_of g ks) (cr_next cr)).
Proof.
  intros Hw Hg Hch Hr (cg' & Hg' & Hch'). apply recycled_frame; [apply same_frame_relink|].
  intros g2 c2 c2' rs2 rs2' H2 H2' Hc2 Hc2'. destruct (decide (g2 = g)) as [->|Hne].
  - rewrite Hg in H2. injection H2 as <-. rewrite Hg' in H2'. injection H2' as <-.
    rewrite (chain_det _ _ _ _ Hc2 Hch), (chain_det _ _ _ _ Hc2' Hch'). apply sublist_app; [done|]. by apply sublist_cons.
  - pose proof Hch as (k & Hks & _)%lseg_app.
    destruct (wf_members Hw g cg Hg) as (all & Hall & Hin & _); [by eapply wf_nonzero|]. rewrite (chain_det _ _ _ _ Hall Hch) in Hin.
    destruct (relink_other_chain t 0 m g cg ks k (cr_next cr) g2 c2 rs2) as [Hx Hy]; try done.
    + intros p Hp cp Hcp. apply (Hin p cp Hcp), elem_of_app. by left.
    + by eapply wf_nonzero.
    + rewrite H2' in Hx. injection Hx as ->. by rewrite (chain_det _ _ _ _ Hc2' Hy).
Qed.

Lemma recycled_release t o m e n : cache_wf t o m → m_ents m !! o = Some e →
  (∀ cr, e = ERecord cr → keeps cr = false) → recycled (m_ents m) (<[o := EFree n]> (m_ents m)).
Proof.
  intros Hw Ho Hk. split.
  - intros p e' [[_ <-]|[_ Hp]]%lookup_insert_Some Hu; [done|]. by exists e'.
  - intros p Hp. destruct (decide (p = o)) as [->|]; [rewrite lookup_insert_eq; eauto|by rewrite lookup_insert_ne].
  - intros r cr Hr Hkr. destruct (decide (r = o)) as [->|]; [|exists cr; by rewrite lookup_insert_ne].
    rewrite Ho in Hr. injection Hr as ->. by rewrite (Hk cr) in Hkr.
  - intros g cg cg' rs rs' Hg [[_ Heq]|[Hne Hg']]%lookup_insert_Some Hch Hch'; [done|]. rewrite Hg in Hg'. injection Hg' as <-.
    destruct (wf_members Hw g cg Hg) as (rs1 & Hch1 & Hin & _); [done|]. rewrite (chain_det _ _ _ _ Hch1 Hch) in Hin.
    enough (chain (rec_next (<[o := EFree n]> (m_ents m))) (cg_members cg) rs) as Hx by by rewrite (chain_det _ _ _ _ Hch' Hx).
    apply (lseg_ext (rec_next (m_ents m))); [|done]. intros p Hp. unfold rec_next. rewrite lookup_insert_ne; [done|]. intros <-.
    destruct (lseg_next _ _ _ _ _ Hch Hp) as [_ [k Hkk]]. apply rec_next_Some in Hkk as (cr & Hcr & _). by apply (Hin _ _ Hcr) in Hp as [].
Qed.

Lemma wf_weaken_tail t o m : cache_wf 0 o m → cache_wf t o m.
Proof.
  intros [[Hs Hn Hu Hm Hr] Hh Hp Hf Hz Ho Hsz Hus Hb]. split; try done. split; try done.
  intros g cg Hg Hgo. destruct (Hm g cg Hg Hgo) as (rs & Hrs & Ht). exists rs. split; [done|]. intros _. apply Ht.
  pose proof (Hp _ _ Hg). lia.
Qed.

(** Nothing but the pool and the table differs, and nothing was reported. *)
Definition quiet m m' : Prop := outside m' = outside m ∧ m_log m' = m_log m ∧ m_lock_rrcache m' = m_lock_rrcache m.
#[export] Instance quiet_equiv : Equivalence quiet.
Proof. split; [by intros m|by intros m m' (? & ? & ?)|]. intros m m' m'' (? & ? & ?) (? & ? & ?). split_and!; congruence. Qed.

(** ** Cutting a record out and releasing it *)
Lemma cut_record t m g cg ks r cr rs : cache_wf t 0 m → t = 0 ∨ t = g → m_ents m !! g = Some (EGroup cg) →
  chain (rec_next (m_ents m)) (cg_members cg) (ks ++ r :: rs) → m_ents m !! r = Some (ERecord cr) →
  ∃ m1 m2 cg2, write_rr m (tail_of g ks) (cr_next cr) = Ret m1 ∧ ReleaseCacheRecord m1 r = Ret m2 ∧ cache_wf g 0 m2 ∧
    m_ents m2 !! g = Some (EGroup cg2) ∧ chain (rec_next (m_ents m2)) (cg_members cg2) (ks ++ rs) ∧
    (keeps cr = false → recycled (m_ents m) (m_ents m2)) ∧
    (∀ p, p ≠ r → frame <$> m_ents m2 !! p = frame <$> m_ents m !! p) ∧ m_rrcache_hash m2 = m_rrcache_hash m ∧ quiet m m2.
Proof.
  intros Hw Htg Hg Hch Hr. pose proof (wf_nonzero _ _ _ _ _ Hw Hr) as Hr0.
  destruct (unlink_wf t m g cg ks r cr rs Hw Htg Hg Hch Hr) as (Hwr & Hw1 & cg1 & Hg1 & Hch1 & _ & Hr1).
  pose proof (recycled_unlink t m g cg ks r cr rs Hw Hg Hch Hr ltac:(eauto)) as Hrc1.
  set (m1 := m <| m_ents := relink (m_ents m) (tail_of g ks) (cr_next cr) |>) in *.
  destruct (release_wf g r m1 (ERecord cr) Hw1 Hr0 Hr1 eq_refl) as (Hrel & Hw2 & HE & Hout).
  match type of Hrel with _ = Ret ?x => set (m2 := x) in * end. exists m1, m2, cg1.
  assert (m_rrcache_hash m2 = m_rrcache_hash m ∧ quiet m m2) as [Hhash Hq].
  { unfold quiet. rewrite Hout. split_and!; try done; unfold m2, free_block; by destruct (is_external _). }
  clearbody m2. assert (g ≠ r) as Hgr by (intros ->; congruence).
  split_and!; try done.
  - unfold ReleaseCacheRecord. rewrite (get_rec_at Hw1 _ _ Hr1). exact Hrel.
  - by rewrite HE, lookup_insert_ne by done.
  - rewrite HE. apply (lseg_ext (rec_next (m_ents m1))); [|done]. intros p Hp. unfold rec_next. rewrite lookup_insert_ne; [done|].
    intros <-. apply chain_NoDup in Hch. rewrite <- Permutation_middle in Hch. by apply NoDup_cons in Hch as [? _].
  - intros Hk. rewrite HE. destruct (recycled_release g r m1 (ERecord cr) (m_rrcache_free m1) Hw1 Hr1) as [Ho Hd Hkp Hor].
    { intros c Hc. by injection Hc as <-. }
    split.
    + intros p e' Hp Hu. destruct (Ho p e' Hp Hu) as (e1 & Hp1 & Hb). rewrite <- (bare_used _ _ Hb) in Hu.
      destruct (rc_old _ _ Hrc1 p e1 Hp1 Hu) as (e & Hp0 & Hb0). exists e. split; [done|congruence].
    + intros p Hp. by apply Hd, (rc_dom _ _ Hrc1).
    + intros p cp Hp Hkc. destruct (decide (p = r)) as [->|]; [rewrite Hr in Hp; injection Hp as <-; congruence|].
      destruct (rc_keep _ _ Hrc1 p cp Hp Hkc) as (cp1 & Hp1). exists cp1. by rewrite lookup_insert_ne by done.
    + intros g2 c2 c2' l l' H2 H2' Hl Hl'. pose proof H2' as [[_ ?]|[_ H21]]%lookup_insert_Some; [done|].
      destruct (wf_members Hw1 g2 c2' H21) as (l1 & Hl1 & _); [intros ->; congruence|].
      transitivity l1; [by eapply Hor|by eapply (rc_order _ _ Hrc1)].
  - intros p Hp. rewrite HE, lookup_insert_ne by done. symmetry. apply same_frame_relink.
Qed.

Lemma frame_at_keepsE E E' p : frame <$> E' !! p = frame <$> E !! p → keepsE E' p = keepsE E p.
Proof.
  unfold keepsE. destruct (E !! p) as [[| | |cr]|], (E' !! p) as [[| | |cr']|]; simpl; try congruence.
  intros H. apply frame_keeps. simpl. congruence.
Qed.
Lemma frame_at_group_next E E' p : frame <$> E' !! p = frame <$> E !! p → group_next E' p = group_next E p.
Proof.
  unfold group_next. destruct (E !! p) as [[| |cg|]|], (E' !! p) as [[| |cg'|]|]; simpl; try congruence.
  intros H. f_equal. apply (frame_group_inv cg' cg). simpl. congruence.
Qed.

(** ** Recycling the records of a group *)
Abbreviation kept E rs := (filter (fun r => keepsE E r = true) rs).

Lemma kept_ext E E' (rs : list Z) : (∀ p, p ∈ rs → keepsE E' p = keepsE E p) → kept E' rs = kept E rs.
Proof.
  induction rs as [|r rs IH]; intros H; [done|]. pose proof (H r (list_elem_of_here _ _)) as Hr.
  rewrite !filter_cons, Hr, IH by (intros; apply H; by apply list_elem_of_further). done.
Qed.

Lemma recycle_records_spec rs : ∀ fuel t m g cg ks, cache_wf t 0 m → t = 0 ∨ t = g → m_ents m !! g = Some (EGroup cg) →
  chain (rec_next (m_ents m)) (cg_members cg) (ks ++ rs) → (length rs < fuel)%nat →
  (∀ r, r ∈ ks → keepsE (m_ents m) r = true) →
  ∃ m' cg', recycle_records fuel m (tail_of g ks) = Ret (m', tail_of g (ks ++ kept (m_ents m) rs)) ∧
    cache_wf g 0 m' ∧ m_ents m' !! g = Some (EGroup cg') ∧
    chain (rec_next (m_ents m')) (cg_members cg') (ks ++ kept (m_ents m) rs) ∧
    recycled (m_ents m) (m_ents m') ∧ clean (m_ents m') g ∧ (∀ g, group_next (m_ents m') g = group_next (m_ents m) g) ∧
    m_rrcache_hash m' = m_rrcache_hash m ∧ quiet m m'.
Proof.
  induction rs as [|r rs IH]; intros [|fuel] t m g cg ks Hw Htg Hg Hch Hf Hks; simpl in Hf; try lia.
  - cbn [recycle_records]. rewrite app_nil_r in Hch. rewrite (read_rr_tail t 0 m g cg ks 0) by done. cbn [obind Z.eqb].
    exists m, cg. rewrite filter_nil, app_nil_r. split; [done|]. split.
    { destruct Htg as [-> | ->]; [by apply wf_weaken_tail|done]. }
    split_and!; try done; [apply recycled_refl|]. intros r cr Hr Hrg.
    destruct (wf_members Hw g cg Hg) as (rs' & Hch' & Hin & _); [by eapply wf_nonzero|]. rewrite (chain_det _ _ _ _ Hch' Hch) in Hin.
    assert (r ∈ ks) as Hx by (apply (Hin r cr Hr); split; [by eapply wf_nonzero|done]).
    specialize (Hks r Hx). unfold keepsE in Hks. by rewrite Hr in Hks.
  - cbn [recycle_records]. pose proof Hch as (k & Hl & -> & Hr0 & n & (cr & Hr & Hn)%rec_next_Some & Hrs)%lseg_app.
    rewrite (read_rr_tail t 0 m g cg ks r) by done. cbn [obind]. rewrite (proj2 (Z.eqb_neq r 0)) by done.
    rewrite (get_rec_at Hw _ _ Hr). cbn [obind]. fold (keeps cr).
    assert (keepsE (m_ents m) r = keeps cr) as Hkr by (unfold keepsE; by rewrite Hr).
    destruct (keeps cr) eqn:Hk.
    + rewrite filter_cons_True by done. destruct (IH fuel t m g cg (ks ++ [r]) Hw Htg Hg) as (m' & cg' & H); [|lia| |].
      * by rewrite <- app_assoc.
      * intros p [Hp|Hp]%elem_of_app; [by apply Hks|apply list_elem_of_singleton in Hp as ->; done].
      * exists m', cg'. rewrite tail_of_snoc, <- !app_assoc in H. exact H.
    + rewrite filter_cons_False by congruence.
      destruct (cut_record t m g cg ks r cr rs Hw Htg Hg Hch Hr) as (m1 & m2 & cg2 & -> & Hrel & Hw2 & Hg2 & Hch2 & Hrc & Hfr & Hh2 & Hq2).
      cbn [obind]. rewrite Hrel. cbn [obind]. specialize (Hrc Hk).
      assert (∀ p, p ∈ ks ++ rs → keepsE (m_ents m2) p = keepsE (m_ents m) p) as Hke.
      { intros p Hp. apply frame_at_keepsE, Hfr. intros ->. apply chain_NoDup in Hch. rewrite <- Permutation_middle in Hch.
        by apply NoDup_cons in Hch as [? _]. }
      destruct (IH fuel g m2 g cg2 ks Hw2) as (m' & cg' & Hrun & Hw' & Hg' & Hch' & Hrc' & Hcl & Hgn & Hh & Hq).
      * by right.
      * done.
      * done.
      * lia.
      * intros p Hp. rewrite Hke by (apply elem_of_app; by left). by apply Hks.
      * assert (kept (m_ents m2) rs = kept (m_ents m) rs) as Hfl.
        { apply kept_ext. intros p Hp. apply Hke, elem_of_app. by right. }
        rewrite Hfl in Hrun, Hch'. exists m', cg'. split_and!; try done; try congruence.
        -- by apply (recycled_trans g m2).
        -- intros p. rewrite Hgn. destruct (decide (p = r)) as [->|]; [|by apply frame_at_group_next, Hfr].
           unfold group_next. rewrite Hr. destruct (m_ents m2 !! r) as [[| |c|]|] eqn:Hc; try done.
           destruct (rc_old _ _ Hrc r _ Hc eq_refl) as (e & He & Hb). rewrite Hr in He. injection He as <-. discriminate Hb.
        -- by transitivity m2.
Qed.

(** ** Recycling the groups of a slot *)
Lemma bare_gframe e e' : gframe e = gframe e' → bare e = bare e'.
Proof.
  unfold bare. intros H. assert (∀ e, gframe (frame e) = frame (gframe e)) as Hc by by intros [].
  rewrite !Hc. congruence.
Qed.
Lemma recycled_group m m' g n : (∀ p, p ≠ g → gframe <$> m_ents m !! p = gframe <$> m_ents m' !! p) →
  m_ents m' !! g = Some (EFree n) → (∃ cg, m_ents m !! g = Some (EGroup cg)) → recycled (m_ents m) (m_ents m').
Proof.
  intros Hf Hg [cg0 Hg0]. split.
  - intros p e' Hp Hu. assert (p ≠ g) as Hne by (intros ->; rewrite Hg in Hp; injection Hp as <-; done).
    specialize (Hf p Hne). rewrite Hp in Hf. destruct (m_ents m !! p) as [e|]; [|done]. exists e. split; [done|].
    apply bare_gframe. simpl in Hf. congruence.
  - intros p Hp. destruct (decide (p = g)) as [->|Hne]; [rewrite Hg; by eauto|].
    specialize (Hf p Hne). by destruct (m_ents m !! p), (m_ents m' !! p).
  - intros r cr Hr _. assert (r ≠ g) as Hne by (intros ->; congruence). specialize (Hf r Hne). rewrite Hr in Hf.
    destruct (m_ents m' !! r) as [[]|]; simpl in Hf; try discriminate. by eexists.
  - intros g' cg cg' rs rs' Hg1 Hg1' Hch Hch'. assert (g' ≠ g) as Hne by (intros ->; congruence).
    pose proof (Hf g' Hne) as H. rewrite Hg1, Hg1' in H. simpl in H.
    assert (cg_members cg' = cg_members cg) as Hm.
    { assert (cg' <| cg_next := 0 |> = cg <| cg_next := 0 |>) as Hx by congruence. by apply (f_equal cg_members) in Hx. }
    enough (chain (rec_next (m_ents m')) (cg_members cg) rs) as Hx by (rewrite Hm in Hch'; by rewrite (chain_det _ _ _ _ Hch' Hx)).
    apply (lseg_ext (rec_next (m_ents m))); [|done]. intros p _. destruct (decide (p = g)) as [->|Hp].
    + unfold rec_next. by rewrite Hg, Hg0.
    + specialize (Hf p Hp). unfold rec_next. destruct (m_ents m !! p) as [[]|], (m_ents m' !! p) as [[]|]; simpl in Hf; congruence.
Qed.

Lemma recycled_tail m g cg rp : m_ents m !! g = Some (EGroup cg) →
  recycled (m_ents m) (m_ents (put_entity m g (EGroup (cg <| cg_rrcache_tail := rp |>)))).
Proof.
  intros Hg. rewrite put_entity_ents. apply recycled_frame.
  - intros p. destruct (decide (p = g)) as [->|]; [by rewrite lookup_insert_eq, Hg|by rewrite lookup_insert_ne].
  - intros g' c c' rs rs' Hc Hc' Hch Hch'.
    assert (cg_members c' = cg_members c) as Hm.
    { apply lookup_insert_Some in Hc' as [[<- Heq]|[_ Hc']]; [|congruence]. rewrite Hg in Hc. injection Hc as <-. by injection Heq as <-. }
    enough (chain (rec_next (<[g := EGroup (cg <| cg_rrcache_tail := rp |>)]> (m_ents m))) (cg_members c) rs) as Hx
      by (rewrite Hm in Hch'; by rewrite (chain_det _ _ _ _ Hch' Hx)).
    apply (lseg_ext (rec_next (m_ents m))); [|done]. intros p _. unfold rec_next.
    destruct (decide (p = g)) as [->|]; [by rewrite lookup_insert_eq, Hg|by rewrite lookup_insert_ne].
Qed.

(** One turn on a group: its records are recycled and its tail set. *)
Lemma recycle_group_turn m g cg rs : cache_wf 0 0 m → m_ents m !! g = Some (EGroup cg) →
  chain (rec_next (m_ents m)) (cg_members cg) rs →
  ∃ m1 m2 cg2, recycle_records (list_fuel m) m (Members g) = Ret (m1, tail_of g (kept (m_ents m) rs)) ∧
    set_group m1 g (fun cg => cg <| cg_rrcache_tail := tail_of g (kept (m_ents m) rs) |>) = Ret m2 ∧
    cache_wf 0 0 m2 ∧ m_ents m2 !! g = Some (EGroup cg2) ∧ chain (rec_next (m_ents m2)) (cg_members cg2) (kept (m_ents m) rs) ∧
    recycled (m_ents m) (m_ents m2) ∧ clean (m_ents m2) g ∧ (∀ g, group_next (m_ents m2) g = group_next (m_ents m) g) ∧
    m_rrcache_hash m2 = m_rrcache_hash m ∧ quiet m m2.
Proof.
  intros Hw Hg Hch.
  destruct (recycle_records_spec rs (list_fuel m) 0 m g cg [] Hw) as (m1 & cg1 & Hrun & Hw1 & Hg1 & Hch1 & Hrc & Hcl & Hgn & Hh & Hq);
    [by left|done|done|by eapply wf_fuel|by intros r ?%elem_of_nil|].
  destruct (set_tail_wf g m1 g cg1 (kept (m_ents m) rs) Hw1) as [Hset Hw2]; [by right|done|done|].
  match type of Hset with _ = Ret ?x => set (m2 := x) in * end.
  pose proof (recycled_tail m1 g cg1 (tail_of g (kept (m_ents m) rs)) Hg1) as Hrc2. fold m2 in Hrc2.
  assert (∀ p, (p = g → rec_next (m_ents m1) p = None) → rec_next (m_ents m2) p = rec_next (m_ents m1) p) as Hnr.
  { intros p _. unfold m2, rec_next. rewrite put_entity_ents.
    destruct (decide (p = g)) as [->|]; [by rewrite lookup_insert_eq, Hg1|by rewrite lookup_insert_ne]. }
  exists m1, m2. eexists. split; [exact Hrun|]. split; [exact Hset|]. split; [done|].
  split; [unfold m2; by rewrite put_entity_ents, lookup_insert_eq|]. split_and!.
  - struct_simpl. apply (lseg_ext (rec_next (m_ents m1))); [|done]. intros p _. apply Hnr. intros ->. unfold rec_next. by rewrite Hg1.
  - by apply (recycled_trans g m1).
  - by eapply clean_mono.
  - intros p. rewrite <- Hgn. unfold m2, group_next. rewrite put_entity_ents.
    destruct (decide (p = g)) as [->|]; [by rewrite lookup_insert_eq, Hg1|by rewrite lookup_insert_ne].
  - done.
  - by transitivity m1.
Qed.

Definition still_group E E' g : Prop := ∀ cg, E !! g = Some (EGroup cg) → ∃ cg', E' !! g = Some (EGroup cg').
Lemma still_group_next E E' g : (∀ p, group_next E' p = group_next E p) → still_group E E' g.
Proof. intros H cg Hg. specialize (H g). unfold group_next in H. rewrite Hg in H. destruct (E' !! g) as [[]|]; try discriminate. by eexists. Qed.

Lemma recycle_groups_spec rest : ∀ fuel m i h gs P, cache_wf 0 0 m → at_ (m_rrcache_hash m) i h →
  chain (group_next (m_ents m)) h (gs ++ rest) → (length rest < fuel)%nat →
  ∃ m', recycle_groups fuel m P (gtail_of i gs) = Ret m' ∧ cache_wf 0 0 m' ∧ recycled (m_ents m) (m_ents m') ∧
    (∀ g, g ∈ rest → clean (m_ents m') g ∧ swept (m_ents m') P g) ∧ still_group (m_ents m) (m_ents m') P ∧ quiet m m'.
Proof.
  induction rest as [|g rest IH]; intros [|fuel] m i h gs P Hw Hi Hch Hf; simpl in Hf; try lia; cbn [recycle_groups].
  - rewrite app_nil_r in Hch. rewrite (read_cg_tail m i h gs 0 Hi Hch). cbn [obind Z.eqb]. exists m.
    split_and!; try done; [apply recycled_refl|by intros g ?%elem_of_nil|by intros cg ?; eauto].
  - pose proof Hch as (k & Hl & -> & Hg0 & n & (cg & Hg & Hn)%group_next_Some & Hrest)%lseg_app.
    rewrite (read_cg_tail m i h gs g Hi Hl). cbn [obind]. rewrite (proj2 (Z.eqb_neq g 0)) by done.
    destruct (wf_members Hw g cg Hg Hg0) as (rs & Hrs & _).
    destruct (recycle_group_turn m g cg rs Hw Hg Hrs) as (m1 & m2 & cg2 & -> & Hset & Hw2 & Hg2 & Hch2 & Hrc & Hcl & Hgn & Hh & Hq).
    cbn [obind]. rewrite Hset. cbn [obind]. rewrite (get_group_at _ _ Hg2). cbn [obind].
    assert (chain (group_next (m_ents m2)) h (gs ++ g :: rest)) as Hgs2 by (apply (lseg_ext (group_next (m_ents m))); [by intros|done]).
    rewrite <- Hh in Hi. destruct (negb (cg_members cg2 =? 0) || (g =? P)) eqn:Hkeep.
    + destruct (IH fuel m2 i h (gs ++ [g]) P Hw2 Hi) as (m' & Hrun & Hw' & Hrc' & Hcl' & HP & Hq'); [by rewrite <- app_assoc|lia|].
      rewrite gtail_of_snoc in Hrun. exists m'. split_and!; try done.
      * by apply (recycled_trans 0 m2).
      * intros x [->|Hx]%elem_of_cons; [|by apply Hcl']. split; [by eapply clean_mono|]. eapply swept_mono; [done|]. intros c _.
        apply orb_true_iff in Hkeep as [Hmem%negb_true_iff%Z.eqb_neq|Heq%Z.eqb_eq]; [right|by left].
        destruct (kept (m_ents m) rs) as [|x xs]; [by destruct Hmem|].
        destruct (wf_members Hw2 g cg2 Hg2 Hg0) as (rs2 & Hrs2 & Hin2 & _).
        rewrite (chain_det _ _ _ _ Hrs2 Hch2) in Hin2. destruct Hch2 as (_ & _ & nx & (cr & Hcr & _)%rec_next_Some & _).
        assert (x ∈ x :: xs) as Hx2 by apply list_elem_of_here.
        destruct (proj1 (Hin2 x cr Hcr) Hx2) as [_ Hgr]. exists x, cr. split; [done|]. split; [done|]. by apply (Hcl x cr Hcr).
      * intros c Hc. destruct (still_group_next _ _ P Hgn c Hc) as [c' Hc']. by apply (HP c').
      * by transitivity m2.
    + apply orb_false_iff in Hkeep as [Hmem HnP]. apply negb_false_iff, Z.eqb_eq in Hmem. apply Z.eqb_neq in HnP.
      destruct (ReleaseCacheGroup_wf m2 i h gs g cg2 rest Hw2 Hi Hgs2 Hg2 Hmem)
        as (m3 & h3 & -> & Hw3 & Hi3 & Hgs3 & Hfr3 & Hgf3 & Hq3). cbn [obind].
      assert (∃ y, m_ents m3 !! g = Some (EFree y)) as [y Hy].
      { destruct (cw_free Hw3) as (l & Hlf & _). rewrite Hfr3 in Hlf. destruct l as [|x l]; [by simpl in Hlf|].
        destruct Hlf as (<- & _ & y & Hy%free_next_Some & _). by exists y. }
      assert (recycled (m_ents m2) (m_ents m3)) as Hrc3 by (apply (recycled_group m2 m3 g y); eauto).
      destruct (IH fuel m3 i h3 gs P Hw3 Hi3 Hgs3) as (m' & Hrun & Hw' & Hrc' & Hcl' & HP & Hq'); [lia|].
      exists m'. split_and!; try done.
      * apply (recycled_trans 0 m2); [done..|]. by apply (recycled_trans 0 m3).
      * intros x [->|Hx]%elem_of_cons; [|by apply Hcl']. split; [eapply clean_mono; [done|]; by eapply clean_mono|].
        apply (swept_mono (m_ents m3)); [done|]. intros c Hc. congruence.
      * intros c Hc. destruct (still_group_next _ _ P Hgn c Hc) as [c' Hc']. specialize (Hgf3 P ltac:(done)). rewrite Hc' in Hgf3.
        destruct (m_ents m3 !! P) as [[| |c3|]|] eqn:H3; simpl in Hgf3; try discriminate. by apply (HP c3).
      * transitivity m2; [done|]. transitivity m3; [|done]. exact Hq3.
Qed.

(** ** Recycling the whole table *)
Lemma recycle_slots_spec n : ∀ m P s, cache_wf 0 0 m → 0 ≤ s → s + Z.of_nat n = CACHE_HASH_SLOTS →
  (∀ g cg, m_ents m !! g = Some (EGroup cg) → cg_namehash cg mod CACHE_HASH_SLOTS < s →
    clean (m_ents m) g ∧ swept (m_ents m) P g) →
  ∃ m', recycle_slots n m P s = Ret m' ∧ cache_wf 0 0 m' ∧ recycled (m_ents m) (m_ents m') ∧
    (∀ g cg, m_ents m' !! g = Some (EGroup cg) → clean (m_ents m') g ∧ swept (m_ents m') P g) ∧ still_group (m_ents m) (m_ents m') P ∧ quiet m m'.
Proof.
  induction n as [|n IH]; intros m P s Hw Hs Hn Hcl; cbn [recycle_slots].
  - exists m. split_and!; try done; [apply recycled_refl| |by intros cg ?; eauto]. intros g cg Hg. apply (Hcl g cg Hg).
    pose proof (Z.mod_pos_bound (cg_namehash cg) CACHE_HASH_SLOTS eq_refl). lia.
  - destruct (at_exists (m_rrcache_hash m) s) as (h & Hi); [rewrite (cw_hash Hw); lia|].
    destruct (cw_slot Hw s h Hi) as (l & Hl & Hin).
    destruct (recycle_groups_spec l (list_fuel m) m s h [] P Hw Hi Hl) as (m1 & Hrun & Hw1 & Hrc & Hcl1 & HP & Hq);
      [by eapply wf_group_fuel|].
    change (gtail_of s []) with (Slot s) in Hrun. rewrite Hrun. cbn [obind].
    destruct (IH m1 P (s + 1) Hw1) as (m' & Hrun' & Hw' & Hrc' & Hcl' & HP' & Hq'); [lia|lia| |].
    + intros g cg Hg Hlt. destruct (rc_old _ _ Hrc g _ Hg eq_refl) as (e & He & (cg0 & -> & Hh0 & _)%bare_group_r).
      destruct (decide (cg_namehash cg mod CACHE_HASH_SLOTS = s)) as [Heq|].
      * apply Hcl1, (Hin g cg0 He). split; [by eapply wf_nonzero|]. by rewrite Hh0.
      * destruct (Hcl g cg0 He) as [Hc Hsw]; [rewrite Hh0; lia|]. split; [by eapply clean_mono|by eapply swept_mono].
    + exists m'. split_and!; try done; [by apply (recycled_trans 0 m1)| |by transitivity m1].
      intros cg Hg. destruct (HP cg Hg) as [cg1 Hg1]. by apply (HP' cg1).
Qed.
