(* ===== verification/MDNSGet.v ===== *)
(** What mDNSCore expects of the platform and of its client, and the
    functions that take cache entities under that contract:
    [GetCacheEntity], [GetCacheRecord] and [GetCacheGroup]. *)
From S2P Require Import Prelude Bytes DNSTypes DNSName DNSRecord DNSMessage MDNSTypes MDNSCache MDNSList MDNSInv MDNSPool MDNSRecycle.

Implicit Types (E : gmap Z CacheEntity) (m : mDNS) (p g r t o : Z).

(** The contract: a second has at least 50 ticks and 2^24 ticks at most, a
    random number is no larger than asked for, and the memory a client adds
    to the cache is new and does not overflow the counter. *)
Class PlatformOk `{Platform} : Prop := {
  one_second_range : 50 ≤ one_second ≤ 0x1000000;
  random_range : ∀ seed max, 0 ≤ max → 0 ≤ fst (mDNSRandom_ seed max) ≤ max;
  fixed_range : ∀ seed max, 0 ≤ max → 0 ≤ mDNSRandomFromFixedSeed_ seed max ≤ max;
  grow_fresh : ∀ cb m s n, MainCallback = Some cb → cb m = Some (s, n) → s ≠ 0 → n ≠ 0 →
    0 < s ∧ 0 < n ∧ is_u32 (m_rrcache_size m + n) ∧ ∀ x, s ≤ x < s + n → m_ents m !! x = None
}.

(** The lock is held, by calls nested [m_reentrancy] deep. *)
Record locked m : Prop := {
  lk_busy : m_busy m = m_reentrancy m + 1;
  lk_depth : 0 ≤ m_reentrancy m < 0x7FFFFFFF;
  lk_time : m_timenow m ≠ 0 ∧ is_s32 (m_timenow m);
  lk_last : m_timenow_last m = m_timenow m
}.

(** Memory for names and rdata can always be had. *)
Definition plenty `{Platform} : Prop := ∀ m n, MemAllocate m n = true.

Section Get.
Context `{PlatformOk}.

(** Nested calls find the time unchanged. *)
Lemma drop_lock m : locked m → mDNS_DropLockBeforeCallback m = m <| m_reentrancy := m_reentrancy m + 1 |>.
Proof.
  intros [Hb Hd _ _]. unfold mDNS_DropLockBeforeCallback, log_if. struct_simpl.
  rewrite (u32_id (m_reentrancy m + 1)) by lia. by rewrite <- Hb, Z.eqb_refl.
Qed.
Lemma nested_lock m : locked m → mDNS_Lock (mDNS_DropLockBeforeCallback m) =
  m <| m_reentrancy := m_reentrancy m + 1 |> <| m_busy := m_busy m + 1 |>.
Proof.
  intros Hlk. rewrite (drop_lock m Hlk). destruct Hlk as [Hb Hd [Ht Hs] Hl].
  set (n := m <| m_reentrancy := m_reentrancy m + 1 |>). unfold mDNS_Lock, log_if.
  assert (m_busy n = m_busy m ∧ m_reentrancy n = m_busy m ∧ m_timenow n = m_timenow m ∧ m_timenow_last n = m_timenow n)
    as (H1 & H2 & H3 & H4) by by rewrite Hb. clearbody n.
  rewrite H1, H2, Z.eqb_refl. cbn [negb]. rewrite H1, H3, (proj2 (Z.eqb_neq (m_busy m) 0)), (proj2 (Z.eqb_neq (m_timenow m) 0)) by lia.
  rewrite H4, Z.sub_diag. change (0 <? s32 0) with false. cbn beta iota zeta. struct_simpl. rewrite H1, (u32_id (m_busy m + 1)) by lia.
  rewrite <- H4. by destruct n.
Qed.
Lemma nested_unlock m : locked m → mDNS_Unlock (m <| m_reentrancy := m_reentrancy m + 1 |> <| m_busy := m_busy m + 1 |>) =
  Ret (m <| m_reentrancy := m_reentrancy m + 1 |>).
Proof.
  intros [Hb Hd _ _]. unfold mDNS_Unlock, log_if. struct_simpl. replace (m_busy m + 1 - 1) with (m_busy m) by lia.
  rewrite (u32_id (m_busy m)), (proj2 (Z.eqb_neq (m_busy m) 0)) by lia. cbn [obind]. struct_simpl.
  rewrite Hb, Z.eqb_refl. cbn [negb]. rewrite <- Hb. by destruct m.
Qed.
Lemma reclaim_lock m : locked m → mDNS_ReclaimLockAfterCallback (m <| m_reentrancy := m_reentrancy m + 1 |>) = m.
Proof.
  intros [Hb Hd _ _]. unfold mDNS_ReclaimLockAfterCallback, log_if. struct_simpl. rewrite Hb, Z.eqb_refl. cbn [negb]. struct_simpl.
  replace (m_reentrancy m + 1 - 1) with (m_reentrancy m) by lia. rewrite u32_id by lia. by destruct m.
Qed.

Lemma outside_locked m m' : outside m' = outside m → locked m → locked m'.
Proof.
  intros Ho [Hb Hd Ht Hl]. assert (∀ {A} (f : mDNS → A), f (outside m') = f (outside m)) as F by by intros; rewrite Ho.
  pose proof (F _ m_busy) as H1. pose proof (F _ m_reentrancy) as H2. pose proof (F _ m_timenow) as H3. pose proof (F _ m_timenow_last) as H4.
  unfold outside in H1, H2, H3, H4. struct_simpl in H1. struct_simpl in H2. struct_simpl in H3. struct_simpl in H4.
  split; rewrite ?H1, ?H2, ?H3, ?H4; done.
Qed.

(** ** Asking for memory *)
(** With an empty free list, every cell is in use. *)
Lemma free_empty t o m : cache_wf t o m → m_rrcache_free m = 0 →
  (∀ p n, m_ents m !! p ≠ Some (EFree n)) ∧ m_rrcache_totalused m = m_rrcache_size m.
Proof.
  intros Hw Hfz. destruct (cw_free Hw) as (l & Hl & Hin). rewrite Hfz in Hl. apply chain_zero in Hl as ->.
  assert (∀ p n, m_ents m !! p ≠ Some (EFree n)) as Hn by (intros p n Hp; by apply Hin, elem_of_nil in Hp).
  split; [done|]. rewrite (cw_used Hw), (proj1 (cw_size Hw)), <- count_true. apply count_ext. intros p.
  destruct (m_ents m !! p) as [[]|] eqn:Hp; try done. by apply Hn in Hp.
Qed.

(** Cells that were there stay as they are, the new ones are free. *)
Definition grown E E' : Prop := (∀ p e, E !! p = Some e → E' !! p = Some e) ∧ ∀ p e, E' !! p = Some e → E !! p = Some e ∨ ∃ k, e = EFree k.

Lemma recycled_grown t m E' : cache_wf t 0 m → grown (m_ents m) E' → recycled (m_ents m) E'.
Proof.
  intros Hw [Hold Hnew]. split.
  - intros p e Hp Hu. destruct (Hnew p e Hp) as [|[k ->]]; [by eauto|done].
  - intros p [e He]. eauto.
  - intros r cr Hr _. eauto.
  - intros g cg cg' rs rs' Hg Hg' Hch Hch'. rewrite (Hold _ _ Hg) in Hg'. injection Hg' as <-.
    enough (chain (rec_next E') (cg_members cg) rs) as Hx by by rewrite (chain_det _ _ _ _ Hch' Hx).
    apply (lseg_ext (rec_next (m_ents m))); [|done]. intros p Hp. destruct (lseg_next _ _ _ _ _ Hch Hp) as [_ [n Hn]].
    apply rec_next_Some in Hn as (cr & Hcr & _). unfold rec_next. by rewrite Hcr, (Hold _ _ Hcr).
Qed.

(** What the client adds to an exhausted cache: it is not asked when the
    cache is large and hardly used. *)
Definition offered m : option (Z * Z) :=
  match MainCallback with
  | Some cb =>
    if (3000 <? m_rrcache_size m) && (m_rrcache_active m <? m_rrcache_size m / 32) then None else
    match cb (mDNS_DropLockBeforeCallback (m <| m_lock_rrcache := 1 |>)) with
    | Some (s, n) => if (s =? 0) || (n =? 0) then None else Some (s, n)
    | None => None
    end
  | None => None
  end.
(** The free list and the cells afterwards. *)
Definition grown_by (o : option (Z * Z)) m m' : Prop :=
  match o with
  | Some (s, _) => m_rrcache_free m' = s ∧ s ≠ 0
  | None => m_rrcache_free m' = m_rrcache_free m ∧ m_ents m' = m_ents m
  end.

Lemma grow_nested m s n : cache_wf 0 0 m → locked m → m_lock_rrcache m = 1 →
  (s ≠ 0 → n ≠ 0 → 0 < s ∧ 0 < n ∧ is_u32 (m_rrcache_size m + n) ∧ ∀ x, s ≤ x < s + n → m_ents m !! x = None) →
  ∃ m1 m', mDNS_GrowCache (mDNS_DropLockBeforeCallback m) s n = Ret m1 ∧ mDNS_ReclaimLockAfterCallback m1 = m' ∧
    cache_wf 0 0 m' ∧ grown (m_ents m) (m_ents m') ∧ quiet m m' ∧
    grown_by (if (s =? 0) || (n =? 0) then None else Some (s, n)) m m'.
Proof.
  intros Hw Hlk Hrl Hfresh. unfold mDNS_GrowCache. rewrite (nested_lock m Hlk).
  set (m1 := m <| m_reentrancy := m_reentrancy m + 1 |> <| m_busy := m_busy m + 1 |>).
  assert (cache_wf 0 0 m1) as Hw1 by by apply (same_cache_wf 0 0 m).
  assert (∃ m2, mDNS_GrowCache_internal m1 s n = m2 ∧ cache_wf 0 0 m2 ∧ grown (m_ents m) (m_ents m2) ∧ quiet m1 m2 ∧
    grown_by (if (s =? 0) || (n =? 0) then None else Some (s, n)) m m2) as (m2 & -> & Hw2 & Hg & Hq & Hby).
  { destruct ((s =? 0) || (n =? 0)) eqn:Hz.
    - exists m1. split; [|split_and!; try done; split; eauto]. unfold mDNS_GrowCache_internal.
      apply orb_true_iff in Hz as [-> | ->]; cbn [negb]; by rewrite ?andb_false_r.
    - apply orb_false_iff in Hz as [Hz1%Z.eqb_neq Hz2%Z.eqb_neq]. destruct Hfresh as (Hs & Hn & Hsz & Hx); [tauto..|].
      destruct (GrowCache_wf 0 0 m1 s n Hw1 Hs Hn ltac:(lia) Hsz Hx) as (Hw2 & Hold & Hfr & Hnew & Ho & Hlog & Hl & _).
      eexists. split; [done|]. split_and!; try done. }
  set (m' := m2 <| m_reentrancy := m_reentrancy m |> <| m_busy := m_busy m |>).
  assert (m2 = m' <| m_reentrancy := m_reentrancy m' + 1 |> <| m_busy := m_busy m' + 1 |>) as Heq.
  { destruct Hq as [Ho _]. pose proof (f_equal m_reentrancy Ho) as Hr. pose proof (f_equal m_busy Ho) as Hb.
    unfold outside, m1 in Hr, Hb. struct_simpl in Hr. struct_simpl in Hb. unfold m'. struct_simpl. rewrite <- Hr, <- Hb. by destruct m2. }
  assert (quiet m m') as Hq'.
  { destruct Hq as (Ho & Hl & Hk). split_and!; [|done|done].
    transitivity ((outside m2) <| m_reentrancy := m_reentrancy m |> <| m_busy := m_busy m |>); [done|]. rewrite Ho. unfold m1. clear. destruct m. reflexivity. }
  assert (cache_wf 0 0 m') as Hw' by by apply (same_cache_wf 0 0 m2).
  assert (locked m') as Hlk' by (destruct Hq' as [? _]; by eapply outside_locked).
  change (m_ents m2) with (m_ents m') in Hg. change (grown_by (if (s =? 0) || (n =? 0) then None else Some (s, n)) m m') in Hby. clearbody m'. rewrite Heq, (nested_unlock m' Hlk'). eexists _, m'.
  split; [done|]. split; [by apply reclaim_lock|]. done.
Qed.

Lemma grow_spec m : cache_wf 0 0 m → locked m → m_lock_rrcache m = 1 →
  ∃ m', grow m = Ret m' ∧ cache_wf 0 0 m' ∧ grown (m_ents m) (m_ents m') ∧ quiet m m' ∧
    grown_by (if m_rrcache_free m =? 0 then offered m else None) m m'.
Proof.
  intros Hw Hlk Hrl. assert (∃ m', Ret m = Ret m' ∧ cache_wf 0 0 m' ∧ grown (m_ents m) (m_ents m') ∧ quiet m m' ∧ grown_by None m m') as Hsame.
  { exists m. split_and!; try done. split; eauto. }
  assert (m <| m_lock_rrcache := 1 |> = m) as Hone by (rewrite <- Hrl; by destruct m).
  unfold grow, offered. rewrite Hone. destruct MainCallback as [cb|] eqn:Hcb; [|by destruct (_ =? _)].
  destruct (Z.eqb_spec (m_rrcache_free m) 0) as [Hfz|]; cbn [negb]; [|done].
  destruct (free_empty 0 0 m Hw Hfz) as [_ ->]. rewrite Z.eqb_refl. unfold log_if. cbn [negb].
  destruct (_ && _); [done|].
  destruct (cb _) as [[s n]|] eqn:Hc; [|cbn [obind]; by rewrite drop_lock, reclaim_lock].
  destruct (grow_nested m s n Hw Hlk Hrl) as (m1 & m' & -> & Hm' & ?).
  { intros Hs Hn. destruct (grow_fresh cb _ s n Hcb Hc Hs Hn) as (? & ? & Hsz & Hx). rewrite drop_lock in Hsz, Hx by done. done. }
  cbn [obind]. rewrite Hm'. by exists m'.
Qed.

(** ** Taking an entity *)
(** No more memory can be had: every cell is in use, every record is needed. *)
Definition exhausted E : Prop := (∀ p n, E !! p ≠ Some (EFree n)) ∧ ∀ r cr, E !! r = Some (ERecord cr) → keeps cr = true.

Lemma exhausted_free E : exhausted E → count is_free E = 0.
Proof.
  intros [Hf _]. assert (∀ p, cell is_free (E !! p) = 0) as Hc by (intros p; destruct (E !! p) as [[]|] eqn:Hp; try done; by apply Hf in Hp).
  pose proof (count_mono is_free E ∅) as Hle. pose proof (count_nonneg is_free E). assert (count is_free (∅ : gmap Z CacheEntity) = 0) as Hz by done.
  rewrite Hz in Hle. enough (count is_free E ≤ 0) by lia. apply Hle. intros p. rewrite Hc, lookup_empty. done.
Qed.
Lemma recycle_all m P : cache_wf 0 0 m →
  ∃ m', recycle_slots (Z.to_nat CACHE_HASH_SLOTS) m P 0 = Ret m' ∧ cache_wf 0 0 m' ∧ recycled (m_ents m) (m_ents m') ∧
    (∀ r cr, m_ents m' !! r = Some (ERecord cr) → keeps cr = true) ∧ (∀ g, swept (m_ents m') P g) ∧
    still_group (m_ents m) (m_ents m') P ∧ quiet m m'.
Proof.
  intros Hw. destruct (recycle_slots_spec (Z.to_nat CACHE_HASH_SLOTS) m P 0 Hw) as (m' & Hrun & Hw' & Hrc & Hcl & HP & Hq).
  - lia.
  - done.
  - intros g cg _ Hlt. pose proof (Z.mod_pos_bound (cg_namehash cg) CACHE_HASH_SLOTS eq_refl). lia.
  - exists m'. split_and!; try done; [|by intros g cg Hg; apply (proj2 (Hcl g cg Hg) cg)].
    intros r cr Hr. destruct (cw_rec Hw' r cr Hr) as (cg & Hcg & _); [by eapply wf_nonzero|].
    by apply (proj1 (Hcl _ cg Hcg) r cr Hr).
Qed.

Lemma exhausted_zero E E' : recycled E E' → exhausted E' → count is_free E = 0.
Proof. intros Hrc Hex%exhausted_free. pose proof (recycled_free_count E E' Hrc). pose proof (count_nonneg is_free E). lia. Qed.

(** The cells in use afterwards were in use before, but for the new one. *)
Inductive got m P : mDNS → Z → Prop :=
| got_none m' : cache_wf 0 0 m' → recycled (m_ents m) (m_ents m') → exhausted (m_ents m') → quiet m m' →
    still_group (m_ents m) (m_ents m') P → got m P m' 0
| got_one m' m1 e n : e ≠ 0 → cache_wf 0 e m' → recycled (m_ents m) (m_ents m1) → cache_wf 0 0 m1 →
    m_ents m1 !! e = Some (EFree n) → m_ents m' = <[e := EZero]> (m_ents m1) → m_rrcache_hash m' = m_rrcache_hash m1 → quiet m m' →
    still_group (m_ents m) (m_ents m') P → got m P m' e.

(** Making room: memory from the client if nothing is free, and recycling
    if there still is nothing. *)
Definition made_room m P m' : Prop :=
  match (if m_rrcache_free m =? 0 then offered m else None) with
  | Some (s, _) => grown (m_ents m) (m_ents m') ∧ m_rrcache_free m' = s ∧ s ≠ 0
  | None =>
    if m_rrcache_free m =? 0 then
      recycled (m_ents m) (m_ents m') ∧ (∀ r cr, m_ents m' !! r = Some (ERecord cr) → keeps cr = true) ∧ ∀ g, swept (m_ents m') P g
    else m_ents m' = m_ents m ∧ m_rrcache_free m' = m_rrcache_free m
  end.
Lemma make_room m P : cache_wf 0 0 m → locked m → let ma := m <| m_lock_rrcache := 1 |> in
  ∃ mb mc, grow ma = Ret mb ∧ (if m_rrcache_free mb =? 0 then recycle_slots (Z.to_nat CACHE_HASH_SLOTS) mb P 0 else Ret mb) = Ret mc ∧
    cache_wf 0 0 mc ∧ recycled (m_ents m) (m_ents mc) ∧ still_group (m_ents m) (m_ents mc) P ∧ quiet ma mc ∧
    (m_rrcache_free mc = 0 → exhausted (m_ents mc)) ∧ made_room m P mc.
Proof.
  intros Hw Hlk ma. assert (cache_wf 0 0 ma) as Hwa by by apply (same_cache_wf 0 0 m).
  destruct (grow_spec ma Hwa) as (mb & -> & Hwb & Hgr & Hqb & Hby); [by apply (outside_locked m)|done|].
  pose proof (recycled_grown 0 ma _ Hwa Hgr) as Hrcb. unfold made_room.
  change (m_rrcache_free ma) with (m_rrcache_free m) in Hby. change (offered ma) with (offered m) in Hby.
  assert (still_group (m_ents m) (m_ents mb) P) as HPb by (intros cg Hcg; exists cg; by apply Hgr).
  exists mb. destruct (Z.eqb_spec (m_rrcache_free mb) 0) as [Hz|Hz].
  - destruct (recycle_all mb P Hwb) as (mc & -> & Hwc & Hrcc & Hk & Hsw & HP & Hqc). exists mc.
    pose proof (recycled_trans 0 mb _ _ Hwb Hrcb Hrcc) as Hrc. split_and!; try done.
    + intros cg Hcg. destruct (HPb cg Hcg) as [cb Hb]. by apply (HP cb).
    + by transitivity mb.
    + intros Hz'. split; [by apply (free_empty 0 0 mc)|done].
    + destruct (if m_rrcache_free m =? 0 then offered m else None) as [[x n]|] eqn:Ho; destruct Hby as [Hb1 Hb2]; [congruence|].
      rewrite Hz in Hb1. change (0 = m_rrcache_free m) in Hb1. by rewrite <- Hb1, Z.eqb_refl.
  - exists mb. split_and!; try done. destruct (if m_rrcache_free m =? 0 then offered m else None) as [[x n]|] eqn:Ho; destruct Hby as [Hb1 Hb2]; [done|].
    change (m_rrcache_free mb = m_rrcache_free m) in Hb1. rewrite <- Hb1, (proj2 (Z.eqb_neq _ _) Hz). done.
Qed.

Lemma GetCacheEntity_got m P : cache_wf 0 0 m → locked m → m_lock_rrcache m = 0 →
  ∃ m' e, GetCacheEntity m P = Ret (m', e) ∧ got m P m' e.
Proof.
  intros Hw Hlk Hrl. unfold GetCacheEntity. rewrite Hrl. cbn [Z.eqb negb].
  set (ma := m <| m_lock_rrcache := 1 |>).
  destruct (make_room m P Hw Hlk) as (mb & mc & Hgrow & Hrun & Hwc & Hrcc & HP & Hqc & Hex & _). fold ma in Hgrow, Hqc.
  rewrite Hgrow. cbn [obind]. rewrite Hrun. cbn [obind]. pose proof (take_free_wf 0 mc Hwc) as Htk.
  assert (∀ m', quiet mc m' → quiet m (m' <| m_lock_rrcache := 0 |>)) as Hq.
  { intros m' Hq. destruct (transitivity Hqc Hq) as (Ho & Hlog & _). split_and!; [|done|done]. done. }
  destruct (Z.eqb_spec (m_rrcache_free mc) 0) as [Hz|Hz].
  - rewrite Htk. cbn [obind]. eexists _, 0. split; [done|]. apply got_none; try done; [by apply (same_cache_wf 0 0 mc)|by apply Hex|by apply Hq].
  - destruct Htk as (md & n & -> & Hwd & He & HEd & Hhd & Hod & Hld & Hlkd). cbn [obind]. eexists _, _. split; [done|].
    apply (got_one m P _ mc _ n); try done; [by apply (same_cache_wf 0 _ md)|by apply Hq|].
    intros cg Hcg. destruct (HP cg Hcg) as [cg' Hcg']. exists cg'. struct_simpl. rewrite HEd, lookup_insert_ne; [done|]. congruence.
Qed.

(** What is taken, and what becomes of the other cells.  Nothing changes
    when a cell is free; new memory from the client leaves everything as it
    was; otherwise what nobody needs is recycled. *)
Definition gone E' e p : Prop := p = e ∨ ∃ n, E' !! p = Some (EFree n).
Record swept_out E P E' e : Prop := {
  so_record : ∀ r cr, E !! r = Some (ERecord cr) →
    if keeps cr then ∃ cr', E' !! r = Some (ERecord cr') ∧ cr' <| cr_next := 0 |> = cr <| cr_next := 0 |> else gone E' e r;
  so_group : ∀ g cg, E !! g = Some (EGroup cg) →
    (g = P ∨ busy E g → ∃ cg', E' !! g = Some (EGroup cg') ∧ cg_name cg' = cg_name cg) ∧ (g ≠ P → ¬ busy E g → gone E' e g);
  so_none : e = 0 → (∀ p, E !! p ≠ Some EZero ∧ ∀ n, E !! p ≠ Some (EFree n)) ∧ (∀ r cr, E !! r = Some (ERecord cr) → keeps cr = true) ∧
    ∀ g, swept E P g
}.
Definition taken m P m' e : Prop :=
  if negb (m_rrcache_free m =? 0) then e = m_rrcache_free m ∧ m_ents m' = <[e := EZero]> (m_ents m) else
  match offered m with
  | Some (s, _) => e = s ∧ e ≠ 0 ∧ ∀ p x, m_ents m !! p = Some x → m_ents m' !! p = Some x
  | None => swept_out (m_ents m) P (m_ents m') e
  end.

(** Recycling keeps what is needed and frees the rest. *)
Lemma swept_out_recycled m mc P : cache_wf 0 0 m → m_rrcache_free m = 0 → cache_wf 0 0 mc → recycled (m_ents m) (m_ents mc) →
  still_group (m_ents m) (m_ents mc) P → (∀ r cr, m_ents mc !! r = Some (ERecord cr) → keeps cr = true) → (∀ g, swept (m_ents mc) P g) →
  ∀ E' e, (e = 0 ∧ exhausted (m_ents mc) ∧ E' = m_ents mc ∨ e ≠ 0 ∧ (∃ n, m_ents mc !! e = Some (EFree n)) ∧ E' = <[e := EZero]> (m_ents mc)) →
  swept_out (m_ents m) P E' e.
Proof.
  intros Hw Hfz Hwc Hrc HP Hk Hsw E' e He.
  assert (∀ p x, m_ents mc !! p = Some x → is_used x = true → E' !! p = Some x) as Hkept.
  { intros p x Hp Hu. destruct He as [(_ & _ & ->)|(_ & (n & Hn) & ->)]; [done|]. rewrite lookup_insert_ne; [done|]. intros ->. rewrite Hn in Hp. injection Hp as <-. done. }
  assert (∀ p, is_Some (m_ents m !! p) → (∀ x, m_ents mc !! p = Some x → is_used x = false) → gone E' e p) as Hgone.
  { intros p Hp Hx. destruct (rc_dom _ _ Hrc p Hp) as [x Hpx]. specialize (Hx x Hpx). destruct x as [n| | |]; try done.
    destruct (decide (p = e)) as [|Hpe]; [by left|right]. exists n.
    destruct He as [(_ & _ & ->)|(_ & _ & ->)]; [done|by rewrite lookup_insert_ne]. }
  split.
  - intros r cr Hr. destruct (keeps cr) eqn:Hkr.
    + destruct (rc_keep _ _ Hrc r cr Hr Hkr) as [cr' Hr']. exists cr'. split; [by apply Hkept|].
      destruct (rc_old _ _ Hrc r _ Hr' eq_refl) as (x & Hx & Hb). rewrite Hr in Hx. injection Hx as <-.
      apply bare_rec in Hb as (? & [= <-] & Hf). simpl in Hf. congruence.
    + apply Hgone; [by rewrite Hr|]. intros x Hx. destruct (is_used x) eqn:Hu; [|done].
      destruct (rc_old _ _ Hrc r x Hx Hu) as (y & Hy & Hb). rewrite Hr in Hy. injection Hy as <-.
      apply bare_rec in Hb as (cr' & -> & Hf). rewrite (frame_keeps _ _ Hf) in Hkr. by rewrite (Hk r cr' Hx) in Hkr.
  - intros g cg Hg. split.
    + intros Hpb. assert (∃ cg', m_ents mc !! g = Some (EGroup cg')) as [cg' Hg'].
      { destruct Hpb as [->|(r & cr & Hr & <- & Hkr)%(busy_mono _ _ _ Hrc)]; [by apply (HP cg)|].
        destruct (cw_rec Hwc r cr Hr) as (c & Hc & _); [by eapply wf_nonzero|by exists c]. }
      exists cg'. split; [by apply Hkept|]. destruct (recycled_group_old _ _ _ _ Hrc Hg') as (c & Hc & _ & Hn). congruence.
    + intros HnP Hnb. apply Hgone; [by rewrite Hg|]. intros x Hx. destruct (is_used x) eqn:Hu; [|done].
      destruct (rc_old _ _ Hrc g x Hx Hu) as (y & Hy & Hb). rewrite Hg in Hy. injection Hy as <-.
      destruct x as [| |c|]; try discriminate Hb. exfalso. destruct (Hsw g c Hx) as [|(r & cr & Hr & Hgr & Hkr)]; [done|].
      destruct (rc_old _ _ Hrc r _ Hr eq_refl) as (y & Hy & (cr0 & -> & Hf)%bare_rec_r). apply Hnb. exists r, cr0. split; [done|].
      rewrite (frame_keeps _ _ Hf). split; [|done]. destruct (frame_rec_inv _ _ Hf) as [Hgg _]. congruence.
  - intros ->. destruct He as [(_ & [Hnf _] & _)|(? & _)]; [|done]. destruct (free_empty 0 0 m Hw Hfz) as [Hf0 _].
    split; [|split].
    + intros p. split; [|by apply Hf0]. intros Hp. by destruct (wf_nonzero _ _ _ _ _ Hw Hp (cw_zero Hw p Hp)).
    + intros r cr Hr. destruct (keeps cr) eqn:Hkr; [done|exfalso]. destruct (rc_dom _ _ Hrc r) as [x Hx]; [by rewrite Hr|].
      destruct (is_used x) eqn:Hu; [|destruct x; try done; by eapply Hnf].
      destruct (rc_old _ _ Hrc r x Hx Hu) as (y & Hy & Hb). rewrite Hr in Hy. injection Hy as <-.
      apply bare_rec in Hb as (cr' & -> & Hf). rewrite (frame_keeps _ _ Hf) in Hkr. by rewrite (Hk r cr' Hx) in Hkr.
    + intros g cg Hg. destruct (rc_dom _ _ Hrc g) as [x Hx]; [by rewrite Hg|].
      destruct (is_used x) eqn:Hu; [|destruct x; try done; by destruct (Hnf g next)].
      destruct (rc_old _ _ Hrc g x Hx Hu) as (y & Hy & Hb). rewrite Hg in Hy. injection Hy as <-.
      destruct x as [| |c|]; try discriminate Hb. destruct (Hsw g c Hx) as [|(r & cr & Hr & Hgr & Hkr)]; [by left|right].
      destruct (rc_old _ _ Hrc r _ Hr eq_refl) as (y & Hy & (cr0 & -> & Hf)%bare_rec_r). exists r, cr0. split; [done|].
      rewrite (frame_keeps _ _ Hf). split; [|done]. destruct (frame_rec_inv _ _ Hf) as [Hgg _]. congruence.
Qed.

Lemma GetCacheEntity_taken m P : cache_wf 0 0 m → locked m → m_lock_rrcache m = 0 →
  ∃ m' e, GetCacheEntity m P = Ret (m', e) ∧ cache_wf 0 e m' ∧ quiet m m' ∧ (e ≠ 0 → m_ents m' !! e = Some EZero) ∧ taken m P m' e.
Proof.
  intros Hw Hlk Hrl. unfold GetCacheEntity. rewrite Hrl. cbn [Z.eqb negb].
  set (ma := m <| m_lock_rrcache := 1 |>).
  destruct (make_room m P Hw Hlk) as (mb & mc & Hgrow & Hrun & Hwc & Hrcc & HP & Hqc & Hex & Hmade). fold ma in Hgrow, Hqc.
  rewrite Hgrow. cbn [obind]. rewrite Hrun. cbn [obind]. pose proof (take_free_wf 0 mc Hwc) as Htk.
  assert (∀ m', quiet mc m' → quiet m (m' <| m_lock_rrcache := 0 |>)) as Hq.
  { intros m' Hq. destruct (transitivity Hqc Hq) as (Ho & Hlog & _). split_and!; [|done|done]. done. }
  assert (m_rrcache_free m = 0 → offered m = None → ∀ E' e,
    (e = 0 ∧ exhausted (m_ents mc) ∧ E' = m_ents mc ∨ e ≠ 0 ∧ (∃ n, m_ents mc !! e = Some (EFree n)) ∧ E' = <[e := EZero]> (m_ents mc)) →
    swept_out (m_ents m) P E' e) as Hout.
  { intros Hfz Hoff. unfold made_room in Hmade. rewrite Hfz, Z.eqb_refl, Hoff in Hmade. destruct Hmade as (_ & Hk & Hsw). by apply swept_out_recycled. }
  unfold taken, made_room in *. destruct (Z.eqb_spec (m_rrcache_free mc) 0) as [Hz|Hz].
  - rewrite Htk. cbn [obind]. eexists _, 0. split; [done|]. split; [by apply (same_cache_wf 0 0 mc)|]. split; [by apply Hq|]. split; [done|].
    destruct (Z.eqb_spec (m_rrcache_free m) 0) as [Hfz|Hfz]; cbn [negb]; [|destruct Hmade; congruence].
    destruct (offered m) as [[x n]|] eqn:Hoff; [|apply Hout; [done..|left; by split_and!; [|apply Hex|]]].
    by destruct Hmade as (_ & Hx & Hx0); congruence.
  - destruct Htk as (md & n & -> & Hwd & He & HEd & Hhd & Hod & Hld & Hlkd). cbn [obind]. eexists _, _. split; [done|].
    split; [by apply (same_cache_wf 0 _ md)|]. split; [by apply Hq|]. struct_simpl. split; [intros _; by rewrite HEd, lookup_insert_eq|].
    destruct (Z.eqb_spec (m_rrcache_free m) 0) as [Hfz|Hfz]; cbn [negb]; [|destruct Hmade as [HE Hf]; by rewrite HEd, HE, Hf].
    destruct (offered m) as [[x k]|] eqn:Hoff; [|apply Hout; [done..|right; by split_and!; [|exists n|]]].
    destruct Hmade as (Hg & Hx & _). split; [done|]. split; [done|]. intros p y Hp. rewrite HEd, lookup_insert_ne; [by apply Hg|].
    intros <-. apply (proj1 Hg) in Hp as Hp'. rewrite He in Hp'. injection Hp' as <-. by apply (free_empty 0 0 m Hw Hfz) in Hp.
Qed.

(** ** Finding a group *)
Lemma same_mem_sym d d' : same_mem d d' → same_mem d' d.
Proof. intros (ls & ls' & ? & ? & ? & ? & ?). exists ls', ls. by split_and!. Qed.
Lemma same_mem_trans d d' d'' : same_mem d d' → same_mem d' d'' → same_mem d d''.
Proof.
  intros (a & b & Ha & Hb & Hda & Hdb & Hs) (b' & c & Hb' & Hc & Hdb' & Hdc & Hs').
  rewrite <- (encode_inj b b' d' 0) in Hs' by (done || apply Hb || apply Hb').
  exists a, c. split_and!; try done. by transitivity b.
Qed.
Lemma same_mem_hash d h d' h' : name_mem d h → name_mem d' h' → same_mem d d' → h = h'.
Proof. intros Hn Hn' Hs. destruct (name_mem_same d h d' h' Hn Hn') as (b & _ & Hb & Hh). by apply Hh, Hb. Qed.

(** What [CacheGroupForName] returns: the group with that name, or none. *)
Definition finds m o (name : list Z) g : Prop :=
  (g = 0 ∧ ∀ g' cg, m_ents m !! g' = Some (EGroup cg) → g' ≠ o → ¬ same_mem (cg_name cg) name) ∨
  (g ≠ o ∧ ∃ cg, m_ents m !! g = Some (EGroup cg) ∧ same_mem (cg_name cg) name).

Lemma find_group_spec t o m nh name : cache_wf t o m → name_mem name nh → ∀ l fuel h, chain (group_next (m_ents m)) h l →
  (∀ g cg, g ∈ l → m_ents m !! g = Some (EGroup cg) → g ≠ o) → (length l < fuel)%nat →
  ∃ g, find_group fuel m h nh name = Ret g ∧
    ((g = 0 ∧ ∀ g' cg, g' ∈ l → m_ents m !! g' = Some (EGroup cg) → ¬ same_mem (cg_name cg) name) ∨
     (g ≠ o ∧ ∃ cg, m_ents m !! g = Some (EGroup cg) ∧ same_mem (cg_name cg) name)).
Proof.
  intros Hw Hname. induction l as [|p l IH]; intros [|fuel] h Hch Ho Hf; simpl in Hf; try lia; cbn [find_group].
  - simpl in Hch. subst h. exists 0. split; [done|]. left. split; [done|]. by intros ? ? ?%elem_of_nil.
  - destruct Hch as (-> & Hp & n & (cg & Hcg & <-)%group_next_Some & Hl). rewrite (proj2 (Z.eqb_neq p 0)) by done.
    rewrite (get_group_at _ _ Hcg). cbn [obind]. pose proof (Ho p cg (list_elem_of_here _ _) Hcg) as Hpo.
    pose proof (cw_name Hw p cg Hcg Hpo) as Hpn. destruct (name_mem_same _ _ _ _ Hpn Hname) as (b & Hb & Hiff & Hhash).
    assert ((if cg_namehash cg =? nh then SameDomainName (cg_name cg) name else Ret false) = Ret b) as ->.
    { destruct (Z.eqb_spec (cg_namehash cg) nh); [done|]. destruct b; [|done]. by destruct n; apply Hhash. }
    cbn [obind]. destruct b.
    + exists p. split; [done|]. right. split; [done|]. exists cg. split; [done|]. by apply Hiff.
    + destruct (IH fuel (cg_next cg) Hl) as (g & Hg & Hres).
      * intros g c Hg. apply Ho. by apply list_elem_of_further.
      * lia.
      * exists g. split; [done|]. destruct Hres as [[-> Hres]|Hres]; [left|by right]. split; [done|].
        intros g' c [->|Hg']%elem_of_cons Hc; [|by eapply Hres]. rewrite Hcg in Hc. injection Hc as <-.
        intros Hs%Hiff. done.
Qed.
Lemma CacheGroupForName_spec t o m nh name : cache_wf t o m → name_mem name nh →
  ∃ g, CacheGroupForName m (nh mod CACHE_HASH_SLOTS) nh name = Ret g ∧ finds m o name g.
Proof.
  intros Hw Hname. set (i := nh mod CACHE_HASH_SLOTS). pose proof (Z.mod_pos_bound nh CACHE_HASH_SLOTS eq_refl) as Hi.
  destruct (at_exists (m_rrcache_hash m) i) as (h & Hh); [rewrite (cw_hash Hw); done|]. unfold CacheGroupForName.
  rewrite (proj2 (aget_at _ _ _) Hh). cbn [obind]. destruct (cw_slot Hw i h Hh) as (l & Hl & Hin).
  destruct (find_group_spec t o m nh name Hw Hname l (list_fuel m) h Hl) as (g & -> & Hres).
  - intros g cg Hg Hcg. by apply (Hin g cg Hcg).
  - by eapply wf_group_fuel.
  - exists g. split; [done|]. destruct Hres as [[-> Hres]|Hres]; [left|by right]. split; [done|].
    intros g' cg Hg' Ho Hs. apply (Hres g' cg); [|done|done]. apply (Hin g' cg Hg'). split; [done|]. unfold i. f_equal.
    by apply (same_mem_hash (cg_name cg) _ name); [apply (cw_name Hw g' cg)| |].
Qed.
Lemma finds_unique t o m name nh g g' : cache_wf t o m → name_mem name nh → finds m o name g → finds m o name g' → g = g'.
Proof.
  intros Hw _ [[-> H1]|(Hg & cg & Hcg & Hs)] [[-> H2]|(Hg' & cg' & Hcg' & Hs')]; try done.
  - exfalso. by apply (H1 _ _ Hcg' Hg').
  - exfalso. by apply (H2 _ _ Hcg Hg).
  - apply (cw_unique Hw g cg g' cg' Hcg Hcg' Hg Hg'). eapply same_mem_trans; [done|by apply same_mem_sym].
Qed.

(** ** Taking a record *)
Lemma recycled_free E E1 e n k : recycled E E1 → E1 !! e = Some (EFree n) → recycled E (<[e := EFree k]> E1).
Proof.
  intros [Ho Hd Hk Hor] He.
  assert (∀ p, rec_next (<[e := EFree k]> E1) p = rec_next E1 p) as Hn.
  { intros p. unfold rec_next. destruct (decide (p = e)) as [->|]; [by rewrite lookup_insert_eq, He|by rewrite lookup_insert_ne]. }
  split.
  - intros p c [[_ <-]|[_ Hp]]%lookup_insert_Some Hu; [done|by eauto].
  - intros p Hp. destruct (decide (p = e)) as [->|]; [rewrite lookup_insert_eq; by eauto|rewrite lookup_insert_ne by done; by apply Hd].
  - intros r cr Hr Hkr. destruct (Hk r cr Hr Hkr) as [cr' Hr']. exists cr'. rewrite lookup_insert_ne; [done|]. congruence.
  - intros g cg cg' rs rs' Hg [[_ Heq]|[_ Hg']]%lookup_insert_Some Hch Hch'; [done|].
    apply (Hor g cg cg' rs rs' Hg Hg' Hch). apply (lseg_ext (rec_next (<[e := EFree k]> E1))); [|done]. intros p _. by rewrite Hn.
Qed.

(** A cell taken from the free list now holds [c]; nothing else changed
    since [E] but for what was recycled. *)
Definition placed m m' e (c : CacheEntity) : Prop :=
  e ≠ 0 ∧ cache_wf 0 e m' ∧ m_ents m' !! e = Some c ∧ ∃ m1 n, recycled (m_ents m) (m_ents m1) ∧ cache_wf 0 0 m1 ∧
    m_ents m1 !! e = Some (EFree n) ∧ m_ents m' = <[e := c]> (m_ents m1) ∧ m_rrcache_hash m' = m_rrcache_hash m1.

Lemma placed_put m m' e c c' : placed m m' e c → is_used c = true → is_used c' = true → c' ≠ EZero →
  placed m ((put_entity m' e c') <| m_blocks := m_blocks m' + Z.b2z (is_external c') - Z.b2z (is_external c) |>) e c'.
Proof.
  intros (He & Hw & Hc & m1 & n & Hrc & Hw1 & Hfr & HE & Hh) Hu Hu' Hz. split; [done|].
  split; [by apply (orphan_wf 0 e m' c c')|]. split; [unfold put_entity; struct_simpl; by rewrite lookup_insert_eq|].
  exists m1, n. split_and!; try done. unfold put_entity. struct_simpl. by rewrite HE, insert_insert_eq.
Qed.
Lemma placed_put_same m m' e c c' : placed m m' e c → is_used c = true → is_used c' = true → c' ≠ EZero → is_external c' = is_external c →
  placed m (put_entity m' e c') e c'.
Proof.
  intros Hp Hu Hu' Hz Hx. pose proof (placed_put m m' e c c' Hp Hu Hu' Hz) as Hp'. rewrite Hx, Z.add_simpl_r in Hp'.
  replace (put_entity m' e c') with ((put_entity m' e c') <| m_blocks := m_blocks m' |>); [done|]. unfold put_entity. clear. by destruct m'.
Qed.
Lemma placed_release m m' e c : placed m m' e c → is_used c = true →
  ∃ m'', ReleaseCacheEntity (free_block (is_external c) m') e = Ret m'' ∧ cache_wf 0 0 m'' ∧
    recycled (m_ents m) (m_ents m'') ∧ quiet m' m'' ∧ ∀ p, p ≠ e → m_ents m'' !! p = m_ents m' !! p.
Proof.
  intros (He & Hw & Hc & m1 & n & Hrc & Hw1 & Hfr & HE & Hh) Hu.
  destruct (release_wf 0 e m' c Hw He Hc Hu) as (Hrel & Hw2 & HE2 & Hout). match type of Hrel with _ = Ret ?x => set (m2 := x) in * end.
  assert (quiet m' m2) as Hq by (split_and!; [done|unfold m2, free_block; by destruct (is_external c)..]). clearbody m2.
  exists m2. split_and!; try done.
  - rewrite HE2, HE, insert_insert_eq. by eapply recycled_free.
  - intros p Hp. by rewrite HE2, lookup_insert_ne.
Qed.
Lemma placed_pos m m' e c : placed m m' e c → (e =? rec_ptr) = false.
Proof. intros (He & Hw & Hc & _). by apply (rec_ptr_ne Hw _ _ Hc). Qed.

Inductive got_record m P (len : Z) : mDNS → Z → Prop :=
| got_no_record m' : cache_wf 0 0 m' → recycled (m_ents m) (m_ents m') → quiet m m' → (plenty → count is_free (m_ents m) = 0) → got_record m P len m' 0
| got_a_record m' r cr : placed m m' r (ERecord cr) → cr_external cr = (InlineCacheRDSize <? len) → quiet m m' →
    still_group (m_ents m) (m_ents m') P → got_record m P len m' r.

Lemma GetCacheRecord_got m P len : cache_wf 0 0 m → locked m → m_lock_rrcache m = 0 →
  ∃ m' r, GetCacheRecord m P len = Ret (m', r) ∧ got_record m P len m' r.
Proof.
  intros Hw Hlk Hrl. unfold GetCacheRecord. destruct (GetCacheEntity_got m P Hw Hlk Hrl) as (m1 & r & -> & Hgot). cbn [obind].
  destruct Hgot as [m1 Hw1 Hrc Hex Hq HP|m1 m0 r n Hr Hw1 Hrc Hw0 Hfr HE Hh Hq HP].
  { eexists _, _. split; [done|]. apply got_no_record; try done. intros _. by eapply exhausted_zero. }
  rewrite (proj2 (Z.eqb_neq r 0)) by done.
  assert (placed m m1 r EZero) as Hpl.
  { split_and!; try done; [by rewrite HE, lookup_insert_eq|]. exists m0, n. by split_and!. }
  pose proof (placed_pos _ _ _ _ Hpl) as Hrp. pose proof Hpl as (_ & _ & Hz & _).
  assert (set_rec m1 r (fun cr => cr <| cr_external := false |>) = Ret (put_entity m1 r (ERecord zero_record))) as ->.
  { unfold set_rec, get_rec, entity. by rewrite Hrp, Hz. }
  cbn [obind]. 
  set (m2 := put_entity m1 r (ERecord zero_record)) in *.
  assert (quiet m m2) as Hq2 by exact Hq.
  assert (still_group (m_ents m) (m_ents m2) P) as HP2.
  { intros cg Hcg. destruct (HP cg Hcg) as [cg' Hcg']. exists cg'. unfold m2, put_entity. struct_simpl.
    rewrite lookup_insert_ne; [done|]. congruence. }
  assert (placed m m2 r (ERecord zero_record)) as Hpl2 by by apply (placed_put_same m m1 r EZero).
  clear Hpl Hw1 HE Hh Hz HP. clearbody m2. pose proof Hpl2 as (_ & _ & Hr2 & _).
  destruct (InlineCacheRDSize <? len) eqn:Hlen.
  - destruct (MemAllocate m2 (sizeofRDataHeader + len)) eqn:Hmem.
    + match goal with |- context [set_rec _ r ?f] => set (cf := f) end.
      pose proof (placed_put m m2 r _ (ERecord (cf zero_record)) Hpl2 eq_refl eq_refl ltac:(done)) as Hp3. simpl in Hp3.
      assert (set_rec (m2 <| m_blocks := m_blocks m2 + 1 |>) r cf =
        Ret ((put_entity m2 r (ERecord (cf zero_record))) <| m_blocks := m_blocks m2 + 1 - 0 |>)) as ->.
      { unfold set_rec, get_rec, entity, put_entity. struct_simpl. rewrite Hrp, Hr2. cbn [obind]. struct_simpl. by rewrite Z.sub_0_r. }
      cbn [obind]. eexists _, r. split; [done|]. apply (got_a_record _ _ _ _ _ (cf zero_record)); try done.
      intros cg Hcg. destruct (HP2 cg Hcg) as [cg' Hcg']. exists cg'. unfold put_entity. struct_simpl.
      rewrite lookup_insert_ne; [done|]. congruence.
    + destruct (placed_release m m2 r _ Hpl2 eq_refl) as (m3 & Hrel & Hw3 & Hrc3 & Hq3 & _). simpl in Hrel. rewrite Hrel. cbn [obind].
      eexists _, _. split; [done|]. apply got_no_record; try done; [by transitivity m2|]. intros Hpl. by rewrite Hpl in Hmem.
  - eexists _, r. split; [done|]. by apply (got_a_record _ _ _ _ _ zero_record).
Qed.

(** ** Making a group *)
Lemma assign_name d h k : name_mem d h → ∃ ls, DomainNameLength d = Ret (zlen (encode ls)) ∧ zlen (encode ls) ≤ MAX_DOMAIN_NAME ∧
  (zlen (encode ls) ≤ k → ∃ d', AssignDomainName (replicate (Z.to_nat k) 0) d = Ret d' ∧ name_mem d' h ∧ same_mem d' d).
Proof.
  intros (ls & Hok & Hd & Hh). exists ls. pose proof (DomainNameLength_name d ls Hok Hd) as Hlen.
  split; [done|]. split; [apply Hok|]. intros Hk. pose proof (zlen_nonneg (encode ls)).
  assert (zlen (replicate (Z.to_nat k) 0) = k) as Hz by (unfold zlen; rewrite length_replicate; lia).
  exists (write (replicate (Z.to_nat k) 0) 0 (encode ls)).
  assert (is_name (write (replicate (Z.to_nat k) 0) 0 (encode ls)) ls) as Hd' by (apply write_holds; lia).
  split_and!.
  - unfold AssignDomainName. rewrite Hlen. cbn [obind]. rewrite (proj2 (Z.leb_le _ _)) by apply Hok. apply copy_write; [done|lia|lia].
  - exists ls. split_and!; try done. destruct (DomainNameHashValue_spec _ _ ls ls (proj1 Hok) (proj1 Hok) Hd Hd' eq_refl) as (x & Hx & Hx'). congruence.
  - exists ls, ls. by split_and!.
Qed.

Lemma set_group_zero m e f : m_ents m !! e = Some EZero → set_group m e f = Ret (put_entity m e (EGroup (f zero_group))).
Proof. intros He. unfold set_group, get_group, entity. by rewrite He. Qed.

(** The group is put at the head of its slot. *)
Lemma enter_group m m2 g cg rr : placed m m2 g (EGroup cg) → name_mem (rr_name rr) (rr_namehash rr) → finds m 0 (rr_name rr) 0 →
  name_mem (cg_name cg) (rr_namehash rr) → same_mem (cg_name cg) (rr_name rr) →
  at_ (m_rrcache_hash m2) (rr_namehash rr mod CACHE_HASH_SLOTS) (cg_next cg) → cg_namehash cg = rr_namehash rr →
  cg_members cg = 0 → cg_rrcache_tail cg = Members g →
  let slot := rr_namehash rr mod CACHE_HASH_SLOTS in
  let m3 := m2 <| m_rrcache_hash := <[Z.to_nat slot := g]> (m_rrcache_hash m2) |> in
  CacheGroupForRecord m2 slot rr = Ret 0 ∧ aset (m_rrcache_hash m2) slot g = Ret (m_rrcache_hash m3) ∧
  cache_wf 0 0 m3 ∧ CacheGroupForRecord m3 slot rr = Ret g ∧ finds m3 0 (rr_name rr) g.
Proof.
  intros (Hg0 & Hw2 & Hg & m1 & n & Hrc & Hw1 & Hfr & HE & Hh) Hname Hnone Hcn Hcs Hi Hnh Hmem Htl slot m3.
  assert (∀ g' c, m_ents m2 !! g' = Some (EGroup c) → g' ≠ g → ¬ same_mem (cg_name c) (rr_name rr)) as Hfresh.
  { intros g' c Hc Hne Hs. rewrite HE, lookup_insert_ne in Hc by done.
    destruct (rc_old _ _ Hrc g' _ Hc eq_refl) as (e & He & (c0 & -> & _ & Hnm & _)%bare_group_r). rewrite <- Hnm in Hs.
    destruct Hnone as [[_ Hno]|(? & _)]; [|done]. apply (Hno g' c0 He); [|done]. intros ->. pose proof (cw_pos Hw1 _ _ Hc). lia. }
  destruct (CacheGroupForName_spec 0 g m2 _ _ Hw2 Hname) as (x & Hx & Hfx).
  assert (x = 0) as ->. { destruct Hfx as [[-> _]|(Hxg & c & Hc & Hs)]; [done|]. by destruct (Hfresh x c Hc Hxg). }
  assert (cache_wf 0 0 m3) as Hw3.
  { apply (link_group_wf m2 slot (cg_next cg) g cg); try done; [by rewrite Hnh|by rewrite Hnh|].
    intros g' c Hc Hne Hs. apply (Hfresh g' c Hc Hne). eapply same_mem_trans; [by apply same_mem_sym|done]. }
  destruct (CacheGroupForName_spec 0 0 m3 _ _ Hw3 Hname) as (y & Hy & Hfy).
  assert (finds m3 0 (rr_name rr) g) as Hfg by (right; split; [done|]; by exists cg).
  rewrite <- (finds_unique 0 0 m3 _ _ g y Hw3 Hname Hfg Hfy) in Hy.
  split_and!; try done. rewrite aset_in by by eapply at_range. done.
Qed.

Inductive got_group m (rr : ResourceRecord) : mDNS → Z → Prop :=
| got_no_group m' : cache_wf 0 0 m' → recycled (m_ents m) (m_ents m') → outside m' = outside m → m_lock_rrcache m' = m_lock_rrcache m →
    m_log m' = GetCacheGroup_memory :: m_log m → (plenty → count is_free (m_ents m) = 0) → got_group m rr m' 0
| got_a_group m' g cg m1 n : cache_wf 0 0 m' → g ≠ 0 → finds m' 0 (rr_name rr) g → m_ents m' !! g = Some (EGroup cg) → cg_members cg = 0 →
    recycled (m_ents m) (m_ents m1) → cache_wf 0 0 m1 → m_ents m1 !! g = Some (EFree n) → m_ents m' = <[g := EGroup cg]> (m_ents m1) →
    quiet m m' → got_group m rr m' g.

(** Its name is filled in, and it enters the table. *)
Lemma name_group m m3 g c3 rr k : placed m m3 g (EGroup c3) → name_mem (rr_name rr) (rr_namehash rr) → finds m 0 (rr_name rr) 0 →
  (∀ n, DomainNameLength (rr_name rr) = Ret n → n ≤ k) → quiet m m3 → cg_name c3 = replicate (Z.to_nat k) 0 →
  at_ (m_rrcache_hash m3) (rr_namehash rr mod CACHE_HASH_SLOTS) (cg_next c3) → cg_namehash c3 = rr_namehash rr →
  cg_members c3 = 0 → cg_rrcache_tail c3 = Members g →
  let slot := rr_namehash rr mod CACHE_HASH_SLOTS in
  ∃ m', (let* cg := get_group m3 g in
    let* name := AssignDomainName (cg_name cg) (rr_name rr) in
    let* m := set_group m3 g (fun cg => cg <| cg_name := name |>) in
    let* old := CacheGroupForRecord m slot rr in
    let m := log_if (negb (old =? 0)) GetCacheGroup_have m in
    let* h := aset (m_rrcache_hash m) slot g in
    let m := m <| m_rrcache_hash := h |> in
    let* new := CacheGroupForRecord m slot rr in
    Ret (log_if (negb (new =? g)) GetCacheGroup_lost m, g)) = Ret (m', g) ∧ got_group m rr m' g.
Proof.
  intros Hpl Hname Hnone Hk Hq Hrep Hi Hnh Hmem Htl slot. destruct (assign_name _ _ k Hname) as (ls & Hlen & _ & Hass).
  destruct (Hass (Hk _ Hlen)) as (d & Hd & Hdn & Hds). pose proof Hpl as (Hg0 & _ & Hg & _).
  rewrite (get_group_at _ _ Hg). cbn [obind]. rewrite Hrep, Hd. cbn [obind]. rewrite (set_group_at _ _ _ Hg). cbn [obind].
  set (c4 := c3 <| cg_name := d |>). set (m4 := put_entity m3 g (EGroup c4)).
  assert (placed m m4 g (EGroup c4)) as Hp4 by by apply (placed_put_same m m3 g (EGroup c3)).
  destruct (enter_group m m4 g c4 rr Hp4 Hname Hnone Hdn Hds Hi Hnh Hmem Htl) as (H1 & H2 & Hw5 & H4 & H5).
  fold slot in H1, H2, H4, H5, Hw5. rewrite H1. cbn [obind Z.eqb negb log_if]. unfold log_if. cbn [negb]. rewrite H2. cbn [obind].
  match type of Hw5 with cache_wf _ _ ?x => set (m5 := x) in * end.
  replace (m4 <| m_rrcache_hash := m_rrcache_hash m5 |>) with m5 by done. rewrite H4. cbn [obind]. rewrite Z.eqb_refl. cbn [negb].
  exists m5. split; [done|]. destruct Hp4 as (_ & _ & Hc4 & m1 & n & Hrc & Hw1 & Hfr & HE & _).
  by apply (got_a_group m rr m5 g c4 m1 n).
Qed.

Lemma GetCacheGroup_got m rr : cache_wf 0 0 m → locked m → m_lock_rrcache m = 0 →
  name_mem (rr_name rr) (rr_namehash rr) → finds m 0 (rr_name rr) 0 →
  ∃ m' g, GetCacheGroup m (rr_namehash rr mod CACHE_HASH_SLOTS) rr = Ret (m', g) ∧ got_group m rr m' g.
Proof.
  intros Hw Hlk Hrl Hname Hnone. set (slot := rr_namehash rr mod CACHE_HASH_SLOTS). unfold GetCacheGroup.
  destruct (assign_name _ _ 0 Hname) as (ls0 & Hlen & Hmax & _). rewrite Hlen. cbn [obind]. set (len := zlen (encode ls0)) in *.
  destruct (GetCacheEntity_got m 0 Hw Hlk Hrl) as (m1 & g & -> & Hgot). cbn [obind].
  destruct Hgot as [m1 Hw1 Hrc Hex Hq HP|m1 m0 g n Hg Hw1 Hrc Hw0 Hfr HE Hh Hq HP].
  { eexists _, _. split; [done|]. destruct Hq as (? & Hlog & ?). apply got_no_group; try done; [by apply (same_cache_wf 0 0 m1)| |intros _; by eapply exhausted_zero]. unfold LogMsg. struct_simpl. by rewrite Hlog. }
  rewrite (proj2 (Z.eqb_neq g 0)) by done.
  assert (placed m m1 g EZero) as Hpl by (split_and!; try done; [by rewrite HE, lookup_insert_eq|]; exists m0, n; by split_and!).
  destruct (at_exists (m_rrcache_hash m1) slot) as (h & Hi); [rewrite (cw_hash Hw1); by apply Z.mod_pos_bound|].
  rewrite (proj2 (aget_at _ _ _) Hi). cbn [obind]. pose proof Hpl as (_ & _ & Hz & _). rewrite (set_group_zero m1 g _ Hz).
  match goal with |- context [put_entity m1 g (EGroup ?c)] => set (c1 := c) end. cbn [obind].
  pose proof (placed_put m m1 g EZero (EGroup c1) Hpl eq_refl eq_refl ltac:(done)) as Hp1.
  set (m2 := put_entity m1 g (EGroup c1)) in *.
  assert (placed m m2 g (EGroup c1)) as Hpl2.
  { replace m2 with (m2 <| m_blocks := m_blocks m1 + 0 - 0 |>); [exact Hp1|]. replace (m_blocks m1 + 0 - 0) with (m_blocks m2) by (simpl; lia).
    by destruct m2. }
  assert (quiet m m2 ∧ m_rrcache_hash m2 = m_rrcache_hash m1) as [Hq2 Hh2] by done.
  clear Hp1. clearbody m2. pose proof Hpl2 as (_ & _ & Hg2 & _).
  destruct ((InlineCacheGroupNameSize <? len) && negb (MemAllocate m2 len)) eqn:Hfail.
  { assert (placed m (LogMsg m2 GetCacheGroup_memory) g (EGroup c1)) as Hpl3.
    { destruct Hpl2 as (? & Hw2 & ? & ?). split_and!; try done. by apply (same_cache_wf 0 g m2). }
    destruct (placed_release _ _ _ _ Hpl3 eq_refl) as (m3 & Hrel & Hw3 & Hrc3 & (Ho3 & Hl3 & Hk3) & _). simpl in Hrel. rewrite Hrel.
    cbn [obind]. destruct Hq2 as (Ho2 & Hl2 & Hk2). eexists _, _. split; [done|].
    apply got_no_group; try done; [by rewrite Ho3|by rewrite Hk3|by rewrite Hl3; unfold LogMsg; struct_simpl; rewrite Hl2|].
    intros Hpy. by rewrite Hpy, andb_false_r in Hfail. }
  assert (∀ k, len ≤ k → ∀ n, DomainNameLength (rr_name rr) = Ret n → n ≤ k) as Hk by (intros k Hk n' Hn'; congruence).
  destruct (Z.ltb_spec InlineCacheGroupNameSize len) as [Hlong|Hshort].
  - match goal with |- context [set_group _ g ?f] => set (cf := f) end.
    pose proof (placed_put m m2 g _ (EGroup (cf c1)) Hpl2 eq_refl eq_refl ltac:(done)) as Hp3.
    assert (set_group (m2 <| m_blocks := m_blocks m2 + 1 |>) g cf =
      Ret ((put_entity m2 g (EGroup (cf c1))) <| m_blocks := m_blocks m2 + 1 - 0 |>)) as ->.
    { unfold set_group, get_group, entity, put_entity. struct_simpl. rewrite Hg2. cbn [obind]. struct_simpl. by rewrite Z.sub_0_r. }
    cbn [obind]. simpl in Hp3. destruct (name_group m _ g (cf c1) rr len Hp3) as (m' & Hrun & Hres); try done; [by apply Hk|unfold put_entity; struct_simpl; by rewrite Hh2|].
    exists m', g. split; [exact Hrun|done].
  - cbn [obind]. destruct (name_group m m2 g c1 rr InlineCacheGroupNameSize Hpl2) as (m' & Hrun & Hres); try done;
      [by apply Hk|by rewrite Hh2|]. exists m', g. split; [exact Hrun|done].
Qed.
End Get.
