(* ===== verification/MDNSQInv.v ===== *)
(** The invariant of the questions, and its link with the cache.

    The lists [m->Questions] and [m->LocalOnlyQuestions] hold exactly the
    questions clients have started, by their interface; a question's
    [DuplicateOf] is in the list; a record's [CRActiveQuestion] is in the
    list and has the record's name; [rrcache_active] counts those records.
    The list is [P ++ N]: [N] are the new questions, from [m->NewQuestions]
    on.  One question [qo] may be in memory without being in a list. *)
From S2P Require Import Prelude Bytes DNSTypes DNSName DNSRecord DNSMessage MDNSTypes MDNSCache MDNSQuestion MDNSList MDNSInv MDNSPool MDNSRecycle MDNSGet.

Implicit Types (E : gmap Z CacheEntity) (Q : gmap Z Question) (m : mDNS) (p r t co qo h : Z) (l P N L M : list Z) (q : Question).

(** ** Questions in memory *)
Definition qnx Q p : option Z := Q_next <$> Q !! p.
Lemma qnx_Some Q p n : qnx Q p = Some n ↔ ∃ q, Q !! p = Some q ∧ Q_next q = n.
Proof. unfold qnx. rewrite fmap_Some. naive_solver. Qed.
Definition is_local q : bool := q_InterfaceID (Q_q q) =? mDNSInterface_LocalOnly.
(** A [domainname] has 256 bytes. *)
Definition q_mem q : Prop := bytes_ok (q_qname (Q_q q)) ∧ zlen (q_qname (Q_q q)) = 256.
(** Nothing is left of wide-area queries, and the question has not been marked
    as failed (the platform layer does that for a tunnel it cannot set up). *)
Definition wide q : Prop := q_TargetQID (Q_q q) = 0 ∧ Q_nta q = 0 ∧ Q_tcp q = 0 ∧ Q_LocalSocket q = 0 ∧ Q_NoAnswer q ≠ NoAnswer_Fail.
Record q_ok q : Prop := {
  qk_name : name_mem (q_qname (Q_q q)) (q_qnamehash (Q_q q));
  qk_mem : q_mem q;
  qk_wide : wide q
}.

Record qlists qo Q h h' l L : Prop := {
  ql_chain : chain (qnx Q) h l;
  ql_local : chain (qnx Q) h' L;
  ql_in : ∀ p q, Q !! p = Some q → (p ∈ l ↔ p ≠ qo ∧ is_local q = false) ∧ (p ∈ L ↔ p ≠ qo ∧ is_local q = true);
  ql_ok : ∀ p q, Q !! p = Some q → p ≠ qo → q_ok q;
  ql_pos : Q !! 0 = None
}.
(** [d] is a question that is being stopped. *)
Definition dups_ok d Q l : Prop :=
  ∀ p q, Q !! p = Some q → p ∈ l → Q_DuplicateOf q = 0 ∨ Q_DuplicateOf q ∈ l ∨ Q_DuplicateOf q = d ∧ d ≠ 0.
Definition keys_ok (ks : list DomainAuthInfo) : Prop :=
  Forall (fun k => dai_deltime k = 0 ∧ ∃ ls, name_ok ls ∧ is_name (dai_domain k) ls) ks.

(** A record is of use to the question [p]. *)
Definition active_for E Q (cr : CacheRecord) p : Prop :=
  ∃ q cg, Q !! p = Some q ∧ E !! cr_group cr = Some (EGroup cg) ∧ same_mem (cg_name cg) (q_qname (Q_q q)).
(** [d] is a question that is being stopped, whose records in the lists
    [rs] are still to be looked at. *)
Definition active_ok d co E Q l : Prop :=
  ∀ r cr, E !! r = Some (ERecord cr) → r ≠ co → cr_CRActiveQuestion cr ≠ 0 →
    active_for E Q cr (cr_CRActiveQuestion cr) ∧ (cr_CRActiveQuestion cr ∈ l ∨ cr_CRActiveQuestion cr = d).

Record inv t co qo m P N L M : Prop := {
  iv_cache : cache_wf t co m;
  iv_q : qlists qo (m_qs m) (m_Questions m) (m_LocalOnlyQuestions m) (P ++ N) (L ++ M);
  iv_new : m_NewQuestions m = hd 0 N;
  iv_newl : m_NewLocalOnlyQuestions m = hd 0 M;
  iv_dups : dups_ok 0 (m_qs m) (P ++ N);
  iv_active : active_ok 0 co (m_ents m) (m_qs m) (P ++ N);
  iv_count : m_rrcache_active m = count is_active (m_ents m);
  iv_keys : keys_ok (m_AuthInfoList m)
}.
Arguments iv_cache {t co qo m P N L M}. Arguments iv_q {t co qo m P N L M}. Arguments iv_new {t co qo m P N L M}.
Arguments iv_newl {t co qo m P N L M}. Arguments iv_dups {t co qo m P N L M}. Arguments iv_active {t co qo m P N L M}.
Arguments iv_count {t co qo m P N L M}. Arguments iv_keys {t co qo m P N L M}.
Arguments ql_chain {qo Q h h' l L}. Arguments ql_local {qo Q h h' l L}. Arguments ql_in {qo Q h h' l L}.
Arguments ql_ok {qo Q h h' l L}. Arguments ql_pos {qo Q h h' l L}.

(** ** Reading and writing questions *)
Lemma get_q_at m p q : m_qs m !! p = Some q → get_q m p = Ret q.
Proof. intros Hp. unfold get_q. by rewrite Hp. Qed.
Lemma set_q_at m p q f : m_qs m !! p = Some q → set_q m p f = Ret (put_q m p (f q)).
Proof. intros Hp. unfold set_q. by rewrite (get_q_at m p q Hp). Qed.
Lemma put_q_qs m p q : m_qs (put_q m p q) = <[p := q]> (m_qs m).
Proof. done. Qed.

Lemma qlists_fuel qo Q h h' l L : qlists qo Q h h' l L → (length l ≤ size Q ∧ length L ≤ size Q)%nat.
Proof.
  intros H. split; (eapply chain_size; [apply H|]); intros p [n Hn]; apply qnx_Some in Hn as (q & Hq & _); by eauto.
Qed.
Lemma qlists_at {qo Q h h' l L} (H : qlists qo Q h h' l L) p : p ∈ l → ∃ q, Q !! p = Some q ∧ q_ok q ∧ is_local q = false ∧ p ≠ qo ∧ p ≠ 0.
Proof.
  intros Hp. destruct (lseg_next _ _ _ _ _ (ql_chain H) Hp) as [H0 [n Hn]]. apply qnx_Some in Hn as (q & Hq & _).
  pose proof (proj1 (ql_in H p q Hq)) as Hin. apply Hin in Hp as [Ho Hl].
  exists q. split_and!; try done. by apply (ql_ok H p).
Qed.
Lemma qlists_local_at {qo Q h h' l L} (H : qlists qo Q h h' l L) p : p ∈ L → ∃ q, Q !! p = Some q ∧ q_ok q ∧ is_local q = true ∧ p ≠ qo ∧ p ≠ 0.
Proof.
  intros Hp. destruct (lseg_next _ _ _ _ _ (ql_local H) Hp) as [H0 [n Hn]]. apply qnx_Some in Hn as (q & Hq & _).
  pose proof (proj2 (ql_in H p q Hq)) as Hin. apply Hin in Hp as [Ho Hl].
  exists q. split_and!; try done. by apply (ql_ok H p).
Qed.
Lemma qlists_disjoint {qo Q h h' l L} (H : qlists qo Q h h' l L) p : p ∈ l → p ∉ L.
Proof. intros (q & Hq & _ & Hl & _)%(qlists_at H) (q' & Hq' & _ & Hl' & _)%(qlists_local_at H). congruence. Qed.

(** Fields that the lists do not depend on. *)
Lemma qlists_set qo Q h h' l L p q q' : qlists qo Q h h' l L → Q !! p = Some q → Q_next q' = Q_next q → is_local q' = is_local q →
  (p ≠ qo → q_ok q') → qlists qo (<[p := q']> Q) h h' l L.
Proof.
  intros [Hc Hl Hin Hok H0] Hp Hn Hloc Hq'.
  assert (∀ x, qnx (<[p := q']> Q) x = qnx Q x) as Hnx.
  { intros x. unfold qnx. destruct (decide (x = p)) as [->|]; [rewrite lookup_insert_eq, Hp; simpl; congruence|by rewrite lookup_insert_ne]. }
  split.
  - by apply (lseg_ext (qnx Q)).
  - by apply (lseg_ext (qnx Q)).
  - intros x c [[<- <-]|[_ Hx]]%lookup_insert_Some; [rewrite Hloc|]; by apply Hin.
  - intros x c [[<- <-]|[_ Hx]]%lookup_insert_Some; [done|by apply Hok].
  - rewrite lookup_insert_ne; [done|]. congruence.
Qed.

(** Changing one question, without its links, its name and what matters to
    other builds. *)
Record alike q q' : Prop := {
  al_next : Q_next q' = Q_next q;
  al_local : is_local q' = is_local q;
  al_name : q_qname (Q_q q') = q_qname (Q_q q) ∧ q_qnamehash (Q_q q') = q_qnamehash (Q_q q);
  al_wide : wide q → wide q'
}.
Lemma alike_ok q q' : alike q q' → q_ok q → q_ok q'.
Proof. intros [_ _ [Hn Hh] Hw] Hok. split; [|unfold q_mem|by apply Hw, Hok]; rewrite ?Hn, ?Hh; apply Hok. Qed.

Lemma active_ok_set d co E Q l p q q' : Q !! p = Some q → q_qname (Q_q q') = q_qname (Q_q q) → active_ok d co E Q l → active_ok d co E (<[p := q']> Q) l.
Proof.
  intros Hp Hn H r cr Hr Hco Ha. destruct (H r cr Hr Hco Ha) as [(q0 & cg & Hq0 & Hcg & Hs) ?]. split; [|done].
  destruct (decide (cr_CRActiveQuestion cr = p)) as [Heq|Hne].
  - exists q', cg. rewrite Heq, lookup_insert_eq. rewrite Heq, Hp in Hq0. injection Hq0 as <-. by rewrite Hn.
  - exists q0, cg. by rewrite lookup_insert_ne.
Qed.

Lemma dups_ok_set d Q l p q q' : Q !! p = Some q → dups_ok d Q l →
  (p ∈ l → Q_DuplicateOf q' = Q_DuplicateOf q ∨ Q_DuplicateOf q' = 0 ∨ Q_DuplicateOf q' ∈ l) → dups_ok d (<[p := q']> Q) l.
Proof.
  intros Hp H Hd x c [[<- <-]|[_ Hx]]%lookup_insert_Some Hin; [|by eapply H].
  destruct (Hd Hin) as [-> | [|]]; [by eapply H|by left|by right; left].
Qed.

Lemma inv_put_q t co qo m P N L M p q q' : inv t co qo m P N L M → m_qs m !! p = Some q → alike q q' →
  Q_DuplicateOf q' = Q_DuplicateOf q ∨ Q_DuplicateOf q' = 0 ∨ Q_DuplicateOf q' ∈ P ++ N → inv t co qo (put_q m p q') P N L M.
Proof.
  intros [Hc Hq Hn Hnl Hd Ha Hct Hk] Hp Hal Hdup. split; unfold put_q; struct_simpl; try done.
  - by apply (same_cache_wf t co m).
  - apply (qlists_set qo _ _ _ _ _ p q); [done|done|apply Hal|apply Hal|]. intros Ho. eapply alike_ok; [done|]. by apply (ql_ok Hq p).
  - by apply (dups_ok_set 0 _ _ p q).
  - apply (active_ok_set 0 co _ _ _ p q); [done|apply Hal|done].
Qed.

(** Questions changed in this way, all over memory. *)
#[export] Instance alike_preorder : PreOrder alike.
Proof.
  split; [intros q; by split|]. intros q q' q'' [? ? [? ?] ?] [? ? [? ?] ?]. split; try congruence; [split; congruence|]. tauto.
Qed.
Definition shape Q Q' : Prop := ∀ x, option_Forall2 alike (Q !! x) (Q' !! x).
#[export] Instance shape_preorder : PreOrder shape.
Proof. split; [intros Q x; reflexivity|]. intros Q Q' Q'' H1 H2 x. etransitivity; [apply H1|apply H2]. Qed.
Lemma shape_at {Q Q'} (H : shape Q Q') x q : Q !! x = Some q → ∃ q', Q' !! x = Some q' ∧ alike q q'.
Proof. intros Hx. specialize (H x). rewrite Hx in H. inversion H; subst. by eauto. Qed.
Lemma shape_back {Q Q'} (H : shape Q Q') x q' : Q' !! x = Some q' → ∃ q, Q !! x = Some q ∧ alike q q'.
Proof. intros Hx. specialize (H x). rewrite Hx in H. inversion H; subst. by eauto. Qed.
Lemma shape_insert Q x q q' : Q !! x = Some q → alike q q' → shape Q (<[x := q']> Q).
Proof.
  intros Hx Ha y. destruct (decide (y = x)) as [->|]; [rewrite lookup_insert_eq, Hx; by constructor|rewrite lookup_insert_ne by done; reflexivity].
Qed.
Lemma shape_qnx {Q Q'} (H : shape Q Q') x : qnx Q' x = qnx Q x.
Proof. specialize (H x). unfold qnx. inversion H as [a b Hab|]; simpl; [|done]. f_equal. apply Hab. Qed.
Lemma qlists_shape qo Q Q' h h' l L : qlists qo Q h h' l L → shape Q Q' → qlists qo Q' h h' l L.
Proof.
  intros Hq Hs. split.
  - apply (lseg_ext (qnx Q)); [intros; by apply shape_qnx|apply Hq].
  - apply (lseg_ext (qnx Q)); [intros; by apply shape_qnx|apply Hq].
  - intros x c Hx. destruct (shape_back Hs x c Hx) as (q & Hq0 & Ha). rewrite (al_local _ _ Ha). by apply (ql_in Hq).
  - intros x c Hx Hne. destruct (shape_back Hs x c Hx) as (q & Hq0 & Ha). eapply alike_ok; [done|]. by apply (ql_ok Hq x).
  - pose proof (Hs 0) as H0. rewrite (ql_pos Hq) in H0. by inversion H0.
Qed.
Lemma active_ok_shape d co E Q Q' l : shape Q Q' → active_ok d co E Q l → active_ok d co E Q' l.
Proof.
  intros Hs H r cr Hr Hco Ha. destruct (H r cr Hr Hco Ha) as [(q0 & cg & Hq0 & Hcg & Hsm) ?]. split; [|done].
  destruct (shape_at Hs _ _ Hq0) as (q' & Hq' & Hal). exists q', cg. split_and!; try done. by rewrite (proj1 (al_name _ _ Hal)).
Qed.

(** ** Looking for duplicates and keys *)
Lemma duplicates_total q q' : name_mem (q_qname (Q_q q)) (q_qnamehash (Q_q q)) → name_mem (q_qname (Q_q q')) (q_qnamehash (Q_q q')) →
  ∃ b, duplicates q q' = Ret b.
Proof.
  intros Hq Hq'. unfold duplicates. destruct (_ && _); [|by eauto]. destruct (name_mem_same _ _ _ _ Hq Hq') as (b & -> & _). eauto.
Qed.
Lemma find_duplicate_spec m l p q : m_qs m !! p = Some q → name_mem (q_qname (Q_q q)) (q_qnamehash (Q_q q)) → ∀ fuel h,
  chain (qnx (m_qs m)) h l → (∀ x c, x ∈ l → m_qs m !! x = Some c → x ≠ p → q_ok c) → (length l < fuel)%nat →
  ∃ d, find_duplicate fuel m h p = Ret d ∧ (d = 0 ∨ d ∈ l ∧ d ≠ p).
Proof.
  intros Hp Hn. induction l as [|x l IH]; intros [|fuel] h Hch Hok Hf; simpl in Hf; try lia; cbn [find_duplicate].
  - simpl in Hch. subst h. exists 0. by split; [|left].
  - destruct Hch as (-> & Hx & n & (c & Hc & <-)%qnx_Some & Hl). rewrite (proj2 (Z.eqb_neq x 0)) by done. cbn [orb].
    destruct (Z.eqb_spec x p) as [->|Hxp]; [exists 0; by split; [|left]|].
    rewrite (get_q_at m x c Hc), (get_q_at m p q Hp). cbn [obind].
    destruct (duplicates_total c q) as ([] & ->); [by apply (Hok x c (list_elem_of_here _ _) Hc Hxp)|done| |]; cbn [obind].
    + exists x. split; [done|]. right. split; [apply list_elem_of_here|done].
    + destruct (IH fuel (Q_next c) Hl) as (d & Hd & Hres); [|lia|].
      * intros y cy Hy. apply Hok. by apply list_elem_of_further.
      * exists d. split; [done|]. destruct Hres as [|[? ?]]; [by left|right]. split; [by apply list_elem_of_further|done].
Qed.
Lemma FindDuplicateQuestion_spec t co qo m P N L M p q : inv t co qo m P N L M → m_qs m !! p = Some q →
  name_mem (q_qname (Q_q q)) (q_qnamehash (Q_q q)) → ∃ d, FindDuplicateQuestion m p = Ret d ∧ (d = 0 ∨ d ∈ P ++ N ∧ d ≠ p).
Proof.
  intros Hi Hp Hn. apply (find_duplicate_spec m (P ++ N) p q Hp Hn).
  - apply (ql_chain (iv_q Hi)).
  - intros x c Hx Hc _. destruct (qlists_at (iv_q Hi) x Hx) as (c' & Hc' & Hok & _). congruence.
  - unfold q_fuel. pose proof (proj1 (qlists_fuel _ _ _ _ _ _ (iv_q Hi))). lia.
Qed.

Lemma find_key_total ks n : keys_ok ks → (∃ ls, name_ok ls ∧ is_name n ls) → ∃ k, find_key ks n = Ret k.
Proof.
  intros Hk (ls & Hls & Hn). induction Hk as [|d ks (_ & ls' & Hls' & Hd) _ IH]; [by eauto|]. cbn [find_key].
  rewrite (SameDomainName_spec (dai_domain d) n ls' ls) by (done || apply Hls' || apply Hls). cbn [obind].
  case_bool_decide; [by eauto|done].
Qed.

Lemma key_loop_total ks ls : ∀ fuel n, keys_ok ks → name_ok ls → is_name n ls → (length ls < fuel)%nat → ∃ k, key_loop fuel ks n = Ret k.
Proof.
  induction ls as [|x ls IH]; intros [|fuel] n Hk Hls Hn Hf; simpl in Hf; try lia; cbn [key_loop].
  - apply holds_encode_nil in Hn. rewrite (proj2 (aget_at _ _ _) Hn). by exists 0.
  - pose proof Hn as (Hx & _)%holds_encode_cons. rewrite (proj2 (aget_at _ _ _) Hx). cbn [obind].
    destruct (name_ok_cons _ _ Hls) as [[Hlen _] Hls']. rewrite (proj2 (Z.eqb_neq _ 0)) by lia.
    destruct (find_key_total ks n Hk) as (k & ->); [by eauto|]. cbn [obind]. destruct (k =? 0); cbn [negb]; [|by eauto].
    apply IH; [done|done|by apply is_name_next|lia].
Qed.
Lemma purge_keys_none m ks : ∀ kept, keys_ok ks → purge_keys kept ks m = Ret m.
Proof.
  induction ks as [|d ks IH]; intros kept Hk; [done|]. apply Forall_cons in Hk as [[Hd _] Hk]. cbn [purge_keys].
  unfold dead_key. rewrite Hd. by apply IH.
Qed.
Lemma GetAuthInfoForQuestion_total m q : keys_ok (m_AuthInfoList m) → name_mem (q_qname (Q_q q)) (q_qnamehash (Q_q q)) →
  ∃ k y, GetAuthInfoForQuestion m q = Ret (m <| m_log := y |>, k).
Proof.
  intros Hk (ls & Hls & Hn & _). unfold GetAuthInfoForQuestion, GetAuthInfoForName_internal.
  assert (m = m <| m_log := m_log m |>) as Hm by by destruct m.
  destruct (_ =? GetZoneData_QuestionCallback); [exists 0, (m_log m); by rewrite <- Hm|].
  destruct (_ =? kDNSType_SOA); [exists 0, (m_log m); by rewrite <- Hm|].
  assert (∃ y, log_if (negb (m_busy m =? u32 (m_reentrancy m + 1))) Lock_not_held m = m <| m_log := y |>) as [y ->].
  { destruct (negb _); [by eexists|exists (m_log m); by rewrite <- Hm]. }
  rewrite purge_keys_none by done. cbn [obind].
  destruct (key_loop_total (m_AuthInfoList m) ls (S (length (q_qname (Q_q q)))) (q_qname (Q_q q))) as (k & Hkey); [done|done|done|by apply is_name_fuel|].
  assert (GetAuthInfoForName_direct (m <| m_log := y |>) (q_qname (Q_q q)) = Ret k) as -> by exact Hkey. by exists k, y.
Qed.

(** ** The links of a question list *)
Definition qtail (b : q_loc) l : q_loc := match last l with Some x => NextQuestion x | None => b end.
Lemma qtail_snoc b l x : qtail b (l ++ [x]) = NextQuestion x.
Proof. unfold qtail. by rewrite last_snoc. Qed.
Definition head_of m (b : q_loc) : Z := match b with LocalOnlyQuestions => m_LocalOnlyQuestions m | _ => m_Questions m end.
Definition is_base (b : q_loc) : Prop := match b with NextQuestion _ => False | _ => True end.

Lemma read_qtail m b l n : is_base b → lseg (qnx (m_qs m)) (head_of m b) n l → read_q m (qtail b l) = Ret n.
Proof.
  intros Hb Hl. destruct l as [|x l _] using rev_ind.
  - simpl in Hl. unfold qtail. simpl. by destruct b; simpl in *; try done; rewrite Hl.
  - rewrite qtail_snoc. apply lseg_snoc in Hl as (_ & _ & (q & Hq & <-)%qnx_Some). simpl. by rewrite (get_q_at m x q Hq).
Qed.
Lemma find_link_spec m b p : is_base b → ∀ l a fuel, chain (qnx (m_qs m)) (head_of m b) (a ++ l) → p ∉ a → (length l < fuel)%nat →
  ((p ∉ l) ∧ find_link fuel m (qtail b a) p = Ret (qtail b (a ++ l))) ∨
  ∃ c d, l = c ++ p :: d ∧ find_link fuel m (qtail b a) p = Ret (qtail b (a ++ c)).
Proof.
  intros Hb. induction l as [|x l IH]; intros a [|fuel] Hch Hpa Hf; simpl in Hf; try lia; cbn [find_link].
  - left. split; [apply not_elem_of_nil|]. rewrite app_nil_r in Hch |- *. by rewrite (read_qtail m b a 0 Hb Hch).
  - pose proof Hch as (k & Ha & -> & Hx & _)%lseg_app. rewrite (read_qtail m b a x Hb Ha). cbn [obind].
    rewrite (proj2 (Z.eqb_neq x 0)) by done. cbn [orb]. destruct (Z.eqb_spec x p) as [->|Hne].
    + right. exists [], l. by rewrite app_nil_r.
    + destruct (IH (a ++ [x]) fuel) as [[Hn Hrun]|(c & d & -> & Hrun)]; [by rewrite <- app_assoc| |lia| |].
      * rewrite elem_of_app, list_elem_of_singleton. naive_solver.
      * left. rewrite qtail_snoc, <- app_assoc in Hrun. split; [|done]. rewrite elem_of_cons. naive_solver.
      * right. exists (x :: c), d. rewrite qtail_snoc, <- app_assoc in Hrun. done.
Qed.

(** Writing a link: the state is [m] with a new memory and heads. *)
Definition relink_q m (b : q_loc) l n : mDNS :=
  match last l with
  | Some x => m <| m_qs := alter (fun q => q <| Q_next := n |>) x (m_qs m) |>
  | None => match b with LocalOnlyQuestions => m <| m_LocalOnlyQuestions := n |> | _ => m <| m_Questions := n |> end
  end.
Lemma write_qtail m b l k n : is_base b → lseg (qnx (m_qs m)) (head_of m b) k l → write_q m (qtail b l) n = Ret (relink_q m b l n).
Proof.
  intros Hb Hl. unfold relink_q. destruct l as [|x l _] using rev_ind.
  - unfold qtail. simpl. by destruct b.
  - rewrite qtail_snoc, last_snoc. apply lseg_snoc in Hl as (_ & _ & (q & Hq & _)%qnx_Some). simpl. rewrite (set_q_at m x q _ Hq).
    unfold put_q. do 2 f_equal. apply map_eq. intros y. destruct (decide (y = x)) as [->|].
    + by rewrite lookup_insert_eq, lookup_alter_eq, Hq.
    + by rewrite lookup_insert_ne, lookup_alter_ne.
Qed.
Lemma relink_q_at m b l k n p : is_base b → lseg (qnx (m_qs m)) (head_of m b) k l →
  m_qs (relink_q m b l n) !! p = if decide (last l = Some p) then (fun q => q <| Q_next := n |>) <$> m_qs m !! p else m_qs m !! p.
Proof.
  intros Hb Hl. unfold relink_q. destruct (last l) as [x|] eqn:Hx.
  - struct_simpl. destruct (decide (Some x = Some p)) as [Heq|Hne].
    + injection Heq as ->. by rewrite lookup_alter_eq.
    + rewrite lookup_alter_ne; [done|congruence].
  - rewrite decide_False by done. by destruct b.
Qed.
Lemma relink_q_lseg m b l k n : is_base b → lseg (qnx (m_qs m)) (head_of m b) k l → NoDup l →
  lseg (qnx (m_qs (relink_q m b l n))) (head_of (relink_q m b l n) b) n l.
Proof.
  intros Hb Hl Hnd. destruct l as [|x l _] using rev_ind.
  - unfold relink_q. simpl. by destruct b.
  - pose proof Hl as (Hl' & Hx & (q & Hq & _)%qnx_Some)%lseg_snoc. unfold relink_q. rewrite last_snoc. apply lseg_snoc.
    replace (head_of _ b) with (head_of m b) by by destruct b. struct_simpl. split_and!; [|done|].
    + apply (lseg_ext (qnx (m_qs m))); [|done]. intros y Hy. unfold qnx. rewrite lookup_alter_ne; [done|]. intros ->.
      apply NoDup_app in Hnd as (_ & Hnd & _). by apply (Hnd y Hy), list_elem_of_singleton.
    + unfold qnx. by rewrite lookup_alter_eq, Hq.
Qed.

(** ** Names that stay: all but those of the questions [S] *)
Definition same_names (S : list Z) Q Q' : Prop := ∀ x q, x ∉ S → Q !! x = Some q → ∃ q', Q' !! x = Some q' ∧ q_qname (Q_q q') = q_qname (Q_q q).
Lemma names_refl S Q : same_names S Q Q.
Proof. intros x q _ Hx. by exists q. Qed.
Lemma names_weaken (S S' : list Z) Q Q' : (∀ x, x ∈ S → x ∈ S') → same_names S Q Q' → same_names S' Q Q'.
Proof. intros Hs Hn x q Hx Hq. apply Hn; [|done]. intros ?. by apply Hx, Hs. Qed.
Lemma names_trans (S S' : list Z) Q Q' Q'' : same_names S Q Q' → same_names S' Q' Q'' → same_names (S ++ S') Q Q''.
Proof.
  intros H1 H2 x q Hx Hq. apply not_elem_of_app in Hx as [Hx Hx']. destruct (H1 x q Hx Hq) as (q1 & Hq1 & Hn1).
  destruct (H2 x q1 Hx' Hq1) as (q2 & Hq2 & Hn2). exists q2. split; [done|congruence].
Qed.
Lemma names_shape S Q Q' : shape Q Q' → same_names S Q Q'.
Proof. intros Hs x q _ Hq. destruct (shape_at Hs x q Hq) as (q' & Hq' & Hal). exists q'. split; [done|apply Hal]. Qed.
Lemma names_insert p Q q : same_names [p] Q (<[p := q]> Q).
Proof. intros x c Hx Hc. exists c. rewrite lookup_insert_ne; [done|]. intros ->. by apply Hx, list_elem_of_singleton. Qed.
Lemma names_delete p Q : same_names [p] Q (delete p Q).
Proof. intros x c Hx Hc. exists c. rewrite lookup_delete_ne; [done|]. intros ->. by apply Hx, list_elem_of_singleton. Qed.
Lemma names_relink S m b l n : same_names S (m_qs m) (m_qs (relink_q m b l n)).
Proof.
  intros x q _ Hq. unfold relink_q. destruct (last l) as [y|]; [|by destruct b; exists q]. struct_simpl.
  destruct (decide (x = y)) as [->|Hne]; [rewrite lookup_alter_eq, Hq|rewrite lookup_alter_ne by done]; by eexists.
Qed.
