(* ===== verification/MDNSStart.v ===== *)
(** [mDNS_StartQuery_internal] keeps the invariant, whatever question the
    client gives it. *)
From S2P Require Import Prelude Bytes DNSTypes DNSName DNSRecord DNSMessage MDNSTypes MDNSCache MDNSQuestion MDNSList MDNSInv MDNSPool MDNSRecycle MDNSGet MDNSQInv.

Implicit Types (E : gmap Z CacheEntity) (Q : gmap Z Question) (m : mDNS) (p r t co qo h : Z) (l P N L M : list Z) (q : Question).

(** ** Appending a question to its list *)
Definition base (loc : bool) : q_loc := if loc then LocalOnlyQuestions else Questions.
Lemma put_q_twice m p q q' : put_q (put_q m p q) p q' = put_q m p q'.
Proof. unfold put_q. struct_simpl. rewrite insert_insert_eq. by destruct m. Qed.
Lemma head_zero Q h l : chain (qnx Q) h l → ∀ a b, l = a ++ b → (hd 0 b = 0 ↔ b = []).
Proof.
  intros Hl a b ->. apply lseg_app in Hl as (k & _ & Hb). destruct b as [|x b]; [done|]. destruct Hb as (_ & Hx & _). simpl. naive_solver.
Qed.

Section Append.
Context {m : mDNS} {p : Z} {Q : gmap Z Question} {h h' : Z} {l L : list Z} (Hq : qlists p Q h h' l L).
Lemma qlists_out : (p ∉ l) ∧ p ∉ L.
Proof.
  split; intros Hp.
  - by destruct (qlists_at Hq p Hp) as (? & _ & _ & _ & ? & _).
  - by destruct (qlists_local_at Hq p Hp) as (? & _ & _ & _ & ? & _).
Qed.
Lemma qlists_set_out q q' : Q !! p = Some q → is_local q' = is_local q → qlists p (<[p := q']> Q) h h' l L.
Proof.
  intros Hp Hl. destruct qlists_out as [Hpl HpL].
  assert (∀ x, x ≠ p → qnx (<[p := q']> Q) x = qnx Q x) as Hnx by (intros x Hx; unfold qnx; by rewrite lookup_insert_ne).
  split.
  - apply (lseg_ext (qnx Q)); [|apply Hq]. intros x Hx. apply Hnx. by intros ->.
  - apply (lseg_ext (qnx Q)); [|apply Hq]. intros x Hx. apply Hnx. by intros ->.
  - intros x c [[<- <-]|[_ Hx]]%lookup_insert_Some; [rewrite Hl|]; by apply (ql_in Hq).
  - intros x c [[<- <-]|[_ Hx]]%lookup_insert_Some; [done|by apply (ql_ok Hq)].
  - rewrite lookup_insert_ne; [apply Hq|]. intros ->. by rewrite (ql_pos Hq) in Hp.
Qed.
End Append.

(** The list [x] of one kind with [p] at its end, the other list [y]. *)
Lemma append_chain m b x p qf : is_base b → chain (qnx (m_qs m)) (head_of m b) x → p ∉ x → p ≠ 0 → Q_next qf = 0 →
  is_Some (m_qs m !! p) →
  chain (qnx (m_qs (put_q (relink_q m b x p) p qf))) (head_of (put_q (relink_q m b x p) p qf) b) (x ++ [p]).
Proof.
  intros Hb Hx Hp H0 Hn Hs. apply lseg_snoc. rewrite put_q_qs. split_and!; [|done|].
  - replace (head_of (put_q _ p qf) b) with (head_of (relink_q m b x p) b) by by destruct b.
    apply (lseg_ext (qnx (m_qs (relink_q m b x p)))).
    + intros y Hy. unfold qnx. rewrite lookup_insert_ne; [done|]. by intros <-.
    + apply (relink_q_lseg m b x 0); [done|done|by eapply chain_NoDup].
  - unfold qnx. rewrite lookup_insert_eq. simpl. by rewrite Hn.
Qed.
Lemma append_other m b x b' y p qf : is_base b → is_base b' → b ≠ b' → chain (qnx (m_qs m)) (head_of m b) x →
  chain (qnx (m_qs m)) (head_of m b') y → (∀ z, z ∈ x → z ∉ y) → p ∉ y →
  chain (qnx (m_qs (put_q (relink_q m b x p) p qf))) (head_of (put_q (relink_q m b x p) p qf) b') y.
Proof.
  intros Hb Hb' Hne Hx Hy Hd Hp. rewrite put_q_qs.
  replace (head_of (put_q (relink_q m b x p) p qf) b') with (head_of m b').
  - apply (lseg_ext (qnx (m_qs m))); [|done]. intros z Hz. unfold qnx. rewrite lookup_insert_ne by by intros <-.
    rewrite (relink_q_at m b x 0) by done. rewrite decide_False; [done|]. intros Hl. apply (Hd z); [|done]. by apply last_Some_elem_of.
  - unfold relink_q. destruct (last x); destruct b, b'; try done.
Qed.
Lemma append_at m b x p qf y c : is_base b → chain (qnx (m_qs m)) (head_of m b) x →
  m_qs (put_q (relink_q m b x p) p qf) !! y = Some c →
  (y = p ∧ c = qf) ∨ (y ≠ p ∧ ∃ c0, m_qs m !! y = Some c0 ∧ c = (if decide (last x = Some y) then c0 <| Q_next := p |> else c0)).
Proof.
  intros Hb Hx. rewrite put_q_qs. intros [[-> <-] | [Hne Hy]]%lookup_insert_Some; [by left|]. right. split; [done|].
  rewrite (relink_q_at m b x 0) in Hy by done. destruct (decide (last x = Some y)); [|by eauto].
  apply fmap_Some in Hy as (c0 & Hc0 & ->). by exists c0.
Qed.

Lemma append_qlists m l L p q qf loc : qlists p (m_qs m) (m_Questions m) (m_LocalOnlyQuestions m) l L → m_qs m !! p = Some q →
  q_ok qf → is_local qf = loc → Q_next qf = 0 →
  let m' := put_q (relink_q m (base loc) (if loc then L else l) p) p qf in
  qlists 0 (m_qs m') (m_Questions m') (m_LocalOnlyQuestions m') (if loc then l else l ++ [p]) (if loc then L ++ [p] else L).
Proof.
  intros Hq Hp Hok Hloc Hn m'. destruct (qlists_out Hq) as [Hpl HpL].
  assert (p ≠ 0) as Hp0 by (intros ->; by rewrite (ql_pos Hq) in Hp).
  assert (∀ z, z ∈ l → z ∉ L) as Hd by (intros z; apply (qlists_disjoint Hq)).
  assert (∀ z, z ∈ L → z ∉ l) as Hd' by (intros z Hz Hz'; by apply (Hd z)).
  assert (chain (qnx (m_qs m)) (head_of m (base loc)) (if loc then L else l)) as Hx by (destruct loc; apply Hq).
  assert (is_base (base loc)) as Hb by by destruct loc.
  split.
  - destruct loc; [apply (append_other m LocalOnlyQuestions L Questions l)|apply (append_chain m Questions l)];
      try done; try apply Hq; by eauto.
  - destruct loc; [apply (append_chain m LocalOnlyQuestions L)|apply (append_other m Questions l LocalOnlyQuestions L)];
      try done; try apply Hq; by eauto.
  - intros y c Hy. apply append_at in Hy as [[-> ->]|(Hne & c0 & Hc0 & ->)]; [| |done|done].
    + rewrite Hloc. destruct loc; rewrite elem_of_app, list_elem_of_singleton; naive_solver.
    + assert (y ≠ 0) as Hy0 by (intros ->; by rewrite (ql_pos Hq) in Hc0).
      assert (∀ d, is_local (if decide (last d = Some y) then c0 <| Q_next := p |> else c0) = is_local c0) as -> by (intros d; by destruct (decide _)).
      destruct (ql_in Hq y c0 Hc0) as [H1 H2]. destruct loc; rewrite elem_of_app, list_elem_of_singleton; naive_solver.
  - intros y c Hy _. apply append_at in Hy as [[-> ->]|(Hne & c0 & Hc0 & ->)]; [done| |done|done].
    pose proof (ql_ok Hq y c0 Hc0 Hne) as Hk. destruct (decide _); [|done]. by destruct Hk.
  - destruct (m_qs m' !! 0) as [c|] eqn:Hc; [|done]. apply append_at in Hc as [[? _]|(_ & c0 & Hc0 & _)]; [done| |done|done].
    by rewrite (ql_pos Hq) in Hc0.
Qed.

(** ** The invariant with the question in its list *)
Definition add_new (loc : bool) m p : mDNS :=
  if loc then (if m_NewLocalOnlyQuestions m =? 0 then m <| m_NewLocalOnlyQuestions := p |> else m)
  else (if m_NewQuestions m =? 0 then m <| m_NewQuestions := p |> else m).
Definition started (loc : bool) t co m P N L M p : Prop :=
  if loc then inv t co 0 m P N L (M ++ [p]) else inv t co 0 m P (N ++ [p]) L M.

Lemma hd_new h P N p Q : chain (qnx Q) h (P ++ N) → (if hd 0 N =? 0 then p else hd 0 N) = hd 0 (N ++ [p]).
Proof.
  intros Hch. destruct N as [|x N]; [done|]. simpl. pose proof (head_zero _ _ _ Hch P (x :: N) eq_refl) as Hz. simpl in Hz.
  rewrite (proj2 (Z.eqb_neq x 0)); [done|]. intros Hx. by apply Hz in Hx.
Qed.

Lemma relink_q_fields m b l n m' : m' = relink_q m b l n → m_ents m' = m_ents m ∧ same_cache m m' ∧ m_NewQuestions m' = m_NewQuestions m ∧
  m_NewLocalOnlyQuestions m' = m_NewLocalOnlyQuestions m ∧ m_rrcache_active m' = m_rrcache_active m ∧ m_AuthInfoList m' = m_AuthInfoList m ∧
  m_CurrentQuestion m' = m_CurrentQuestion m.
Proof. intros ->. unfold relink_q. destruct (last l), b; done. Qed.

Lemma append_inv t co m P N L M p q qf loc : inv t co p m P N L M → m_qs m !! p = Some q → q_ok qf → is_local qf = loc → Q_next qf = 0 →
  Q_DuplicateOf qf = 0 ∨ Q_DuplicateOf qf ∈ P ++ N →
  started loc t co (add_new loc (put_q (relink_q m (base loc) (if loc then L ++ M else P ++ N) p) p qf) p) P N L M p.
Proof.
  intros Hi Hp Hok Hloc Hn Hdup. set (x := if loc then L ++ M else P ++ N). set (m1 := relink_q m (base loc) x p).
  destruct (relink_q_fields m (base loc) x p m1 eq_refl) as (HE & Hsc & HN & HNl & Hact & Hk & _).
  pose proof (append_qlists m _ _ p q qf loc (iv_q Hi) Hp Hok Hloc Hn) as Hq'. fold x m1 in Hq'. destruct (qlists_out (iv_q Hi)) as [Hpl HpL].
  assert (chain (qnx (m_qs m)) (head_of m (base loc)) x) as Hx by (destruct loc; apply Hi).
  assert (is_base (base loc)) as Hb by by destruct loc.
  assert (∀ y c, y ≠ p → m_qs (put_q m1 p qf) !! y = Some c → ∃ c0, m_qs m !! y = Some c0 ∧ Q_DuplicateOf c = Q_DuplicateOf c0) as Hold.
  { intros y c Hne [[-> _]|(_ & c0 & Hc0 & ->)]%append_at; try done. exists c0. split; [done|]. by destruct (decide _). }
  assert (cache_wf t co (put_q m1 p qf)) as Hw.
  { apply (same_cache_wf t co m); [apply Hi|]. destruct Hsc. by split. }
  assert (dups_ok 0 (m_qs (put_q m1 p qf)) (P ++ N) ∧ dups_ok 0 (m_qs (put_q m1 p qf)) ((P ++ N) ++ [p])) as [Hd Hd'].
  { split; intros y c Hy Hin.
    - assert (y ≠ p) as Hne by by intros ->. destruct (Hold y c Hne Hy) as (c0 & Hc0 & ->). by apply (iv_dups Hi y c0).
    - destruct (decide (y = p)) as [->|Hne].
      + unfold put_q in Hy. struct_simpl in Hy. rewrite lookup_insert_eq in Hy. injection Hy as <-. rewrite elem_of_app. naive_solver.
      + destruct (Hold y c Hne Hy) as (c0 & Hc0 & ->). rewrite elem_of_app, list_elem_of_singleton in Hin. destruct Hin as [Hin|]; [|done].
        rewrite elem_of_app. destruct (iv_dups Hi y c0 Hc0 Hin) as [|[|]]; naive_solver. }
  assert (∀ l2, P ++ N ⊆ l2 → active_ok 0 co (m_ents (put_q m1 p qf)) (m_qs (put_q m1 p qf)) l2) as Ha.
  { intros l2 Hl2 r cr Hr Hrc Hact0. change (m_ents (put_q m1 p qf)) with (m_ents m1) in *. rewrite HE in *.
    destruct (iv_active Hi r cr Hr Hrc Hact0) as [(q0 & cg & Hq0 & Hcg & Hs) Hin].
    assert (cr_CRActiveQuestion cr ∈ P ++ N) as Hin' by by destruct Hin. split; [|left; by apply Hl2].
    assert (cr_CRActiveQuestion cr ≠ p) as Hne by (intros Heq; by rewrite Heq in Hin'). unfold active_for, put_q. struct_simpl. rewrite lookup_insert_ne by done.
    unfold m1. rewrite (relink_q_at m (base loc) x 0) by done. rewrite Hq0. destruct (decide _); eexists _, cg; by split_and!. }
  set (m2 := put_q m1 p qf) in *. change (m_NewQuestions m1) with (m_NewQuestions m2) in HN. change (m_NewLocalOnlyQuestions m1) with (m_NewLocalOnlyQuestions m2) in HNl.
  assert (m_rrcache_active m2 = count is_active (m_ents m2) ∧ keys_ok (m_AuthInfoList m2)) as [Hct Hk2].
  { change (m_rrcache_active m1 = count is_active (m_ents m1) ∧ keys_ok (m_AuthInfoList m1)). rewrite Hact, HE, Hk. split; apply Hi. }
  rewrite (iv_new Hi) in HN. rewrite (iv_newl Hi) in HNl. clearbody m2. unfold started, add_new. destruct loc.
  - pose proof (hd_new _ L M p _ (ql_local (iv_q Hi))) as Hh. rewrite <- HNl in Hh. specialize (Ha (P ++ N) (reflexivity _)). rewrite <- app_assoc in Hq'.
    destruct (m_NewLocalOnlyQuestions m2 =? 0); split; try done; try congruence. by eapply same_cache_wf.
  - pose proof (hd_new _ P N p _ (ql_chain (iv_q Hi))) as Hh. rewrite <- HN in Hh. rewrite <- app_assoc in Hq', Hd'.
    assert (active_ok 0 co (m_ents m2) (m_qs m2) (P ++ N ++ [p])) as Ha2 by (apply Ha; set_solver).
    destruct (m_NewQuestions m2 =? 0); split; try done; try congruence. by eapply same_cache_wf.
Qed.

Section Start.
Context `{Platform}.

(** ** When to answer *)
Lemma soonest_total t o m th l : cache_wf t o m → ∀ fuel r d, chain (rec_next (m_ents m)) r l → (length l < fuel)%nat →
  ∃ d', soonest fuel m r th d = Ret d'.
Proof.
  intros Hw. induction l as [|x l IH]; intros [|fuel] r d Hch Hf; simpl in Hf; try lia; cbn [soonest].
  - simpl in Hch. subst r. by exists d.
  - destruct Hch as (-> & Hx & n & (cr & Hcr & <-)%rec_next_Some & Hl). rewrite (proj2 (Z.eqb_neq x 0)) by done.
    rewrite (get_rec_at Hw x cr Hcr). cbn [obind]. apply IH; [done|lia].
Qed.
(** The list [CacheGroupForName] leads to. *)
Lemma members_of_spec t o m name g : cache_wf t o m → finds m o name g →
  ∃ rs h, members_of m g = Ret h ∧ chain (rec_next (m_ents m)) h rs ∧
    ∀ r cr, m_ents m !! r = Some (ERecord cr) → (r ∈ rs ↔ r ≠ o ∧ cr_group cr = g).
Proof.
  intros Hw [[-> _]|(Hg & cg & Hcg & _)]; unfold members_of.
  - exists [], 0. split; [done|]. split; [done|]. intros r cr Hr. split; [by intros ?%elem_of_nil|]. intros [Hro Hg].
    destruct (cw_rec Hw r cr Hr Hro) as (cg & Hcg & _). rewrite Hg in Hcg. pose proof (cw_pos Hw _ _ Hcg). lia.
  - rewrite (proj2 (Z.eqb_neq g 0)) by by eapply wf_nonzero. rewrite (get_group_at g cg Hcg). cbn [obind].
    destruct (wf_members Hw g cg Hcg Hg) as (rs & Hch & Hin & _). by exists rs, (cg_members cg).
Qed.
Lemma CheckForSoonToExpireRecords_total t o m name nh : cache_wf t o m → name_mem name nh →
  ∃ d, CheckForSoonToExpireRecords m name nh (nh mod CACHE_HASH_SLOTS) = Ret d.
Proof.
  intros Hw Hn. unfold CheckForSoonToExpireRecords. destruct (CacheGroupForName_spec t o m nh name Hw Hn) as (g & -> & Hg). cbn [obind].
  destruct (members_of_spec t o m name g Hw Hg) as (rs & h & -> & Hch & _). cbn [obind].
  destruct (soonest_total t o m (s32 (m_timenow m + one_second)) rs Hw (list_fuel m) h (s32 (m_timenow m - 0x10000000)) Hch) as (d & ->);
    [by eapply wf_fuel|]. by eexists.
Qed.

Lemma SetNextQueryTime_spec m p q : m_qs m !! p = Some q → ∃ x y, SetNextQueryTime m p = Ret (m <| m_NextScheduledQuery := x |> <| m_log := y |>).
Proof.
  intros Hp. unfold SetNextQueryTime, log_if, LogMsg, get_q. destruct (negb _); struct_simpl; rewrite Hp; cbn [obind].
  all: destruct (ActiveQuestion q); [|].
  all: try match goal with |- context [if 0 <? ?c then _ else _] => destruct (0 <? c) end.
  all: first [by eexists _, _|exists (m_NextScheduledQuery m)]; struct_simpl.
  all: try (eexists (_ :: m_log m); by destruct m). all: try (exists (m_log m); by destruct m).
  all: eexists; f_equal; destruct m; reflexivity.
Qed.

(** ** Starting a question *)
(** Everything but the questions, the records and the next query. *)
Definition rest m : mDNS :=
  m <| m_qs := ∅ |> <| m_Questions := 0 |> <| m_NewQuestions := 0 |> <| m_CurrentQuestion := 0 |> <| m_LocalOnlyQuestions := 0 |>
    <| m_NewLocalOnlyQuestions := 0 |> <| m_ents := ∅ |> <| m_rrcache_active := 0 |> <| m_NextScheduledQuery := 0 |> <| m_log := [] |>.
Definition calm m m' : Prop :=
  rest m' = rest m ∧ m_ents m' = m_ents m ∧ m_rrcache_active m' = m_rrcache_active m ∧ m_CurrentQuestion m' = m_CurrentQuestion m.
#[export] Instance calm_equiv : Equivalence calm.
Proof. split; [by intros m|by intros m m' (? & ? & ? & ?)|]. intros m m' m'' (? & ? & ? & ?) (? & ? & ? & ?). split_and!; congruence. Qed.
Lemma calm_put_q m p q : calm m (put_q m p q).
Proof. done. Qed.
Lemma calm_relink m b l n : calm m (relink_q m b l n).
Proof. unfold relink_q. by destruct (last l), b. Qed.
Lemma calm_add_new loc m p : calm m (add_new loc m p).
Proof. unfold add_new. by destruct loc, (_ =? 0). Qed.

Lemma clear_target_alike q : alike q (clear_target q) ∧ Q_DuplicateOf (clear_target q) = Q_DuplicateOf q.
Proof.
  unfold clear_target. cbv zeta. destruct (negb _ && _); struct_simpl;
    (match goal with |- context [if ?c then _ else _] => destruct c end); struct_simpl; (split; [split|]); try done; intros []; by split_and!; try tauto.
Qed.
Lemma inv_sched t co qo m P N L M x y : inv t co qo m P N L M → inv t co qo (m <| m_NextScheduledQuery := x |> <| m_log := y |>) P N L M.
Proof. intros []. split; try done. by apply (same_cache_wf t co m). Qed.
Lemma inv_log t co qo m P N L M y : inv t co qo m P N L M → inv t co qo (m <| m_log := y |>) P N L M.
Proof. intros []. split; try done. by apply (same_cache_wf t co m). Qed.
Lemma inv_put t co m P N L M p q q' : inv t co p m P N L M → m_qs m !! p = Some q → is_local q' = is_local q →
  inv t co p (put_q m p q') P N L M.
Proof.
  intros [Hc Hq Hn Hnl Hd Ha Hct Hk] Hp Hl. destruct (qlists_out Hq) as [Hpl HpL].
  split; unfold put_q; struct_simpl; try done.
  - by apply (same_cache_wf t co m).
  - by apply (qlists_set_out Hq q).
  - by apply (dups_ok_set 0 _ _ p q).
  - intros r cr Hr Hrc Hact. destruct (Ha r cr Hr Hrc Hact) as [(q0 & cg & Hq0 & Hcg & Hs) Hin]. split; [|done]. exists q0, cg.
    rewrite lookup_insert_ne; [done|]. intros Heq. rewrite <- Heq in Hin. destruct Hin as [Hin|Hin]; [done|congruence].
Qed.

Lemma question_list_base q : question_list q = base (is_local q).
Proof. unfold question_list, base, is_local. by destruct (_ =? _). Qed.
Lemma find_link_list t co qo m P N L M p (loc : bool) : inv t co qo m P N L M → let x := if loc then L ++ M else P ++ N in
  ((p ∉ x) ∧ find_link (q_fuel m) m (base loc) p = Ret (qtail (base loc) x)) ∨
  ∃ c d, x = c ++ p :: d ∧ find_link (q_fuel m) m (base loc) p = Ret (qtail (base loc) c).
Proof.
  intros Hi x. apply (find_link_spec m (base loc) p ltac:(by destruct loc) x []); [destruct loc; apply Hi|apply not_elem_of_nil|].
  unfold q_fuel, x. pose proof (qlists_fuel _ _ _ _ _ _ (iv_q Hi)). destruct loc; lia.
Qed.
Lemma list_chain t co qo m P N L M (loc : bool) : inv t co qo m P N L M →
  chain (qnx (m_qs m)) (head_of m (base loc)) (if loc then L ++ M else P ++ N).
Proof. intros Hi. destruct loc; apply Hi. Qed.

Lemma set_put_q m p q f : set_q (put_q m p q) p f = Ret (put_q m p (f q)).
Proof. rewrite (set_q_at _ p q) by (rewrite put_q_qs; apply lookup_insert_eq). by rewrite put_q_twice. Qed.
Lemma get_put_q m p q : get_q (put_q m p q) p = Ret q.
Proof. apply get_q_at. rewrite put_q_qs. apply lookup_insert_eq. Qed.

(** The question once it is linked, up to the search for duplicates. *)
Lemma start_duplicate t co m P N L M p q qf (loc : bool) m1 : m1 = relink_q m (base loc) (if loc then L ++ M else P ++ N) p → inv t co p m P N L M → m_qs m !! p = Some q →
  name_mem (q_qname (Q_q qf)) (q_qnamehash (Q_q qf)) → Q_next qf = 0 →
  ∃ d, FindDuplicateQuestion (put_q m1 p qf) p = Ret d ∧ (d = 0 ∨ d ∈ P ++ N ∧ d ≠ p).
Proof.
  intros -> Hi Hp Hname Hnx. set (x := if loc then L ++ M else P ++ N). set (m2 := put_q (relink_q m (base loc) x p) p qf).
  pose proof (iv_q Hi) as Hq. destruct (qlists_out Hq) as [Hpl HpL].
  assert (p ≠ 0) as Hp0 by (intros ->; by rewrite (ql_pos Hq) in Hp).
  assert (chain (qnx (m_qs m)) (head_of m (base loc)) x) as Hx by by eapply list_chain.
  assert (is_base (base loc)) as Hb by by destruct loc.
  assert (∃ l, chain (qnx (m_qs m2)) (m_Questions m2) l ∧ ∀ y, y ∈ l → y ≠ p → y ∈ P ++ N) as (l & Hl & Hin).
  { destruct loc.
    - exists (P ++ N). split; [|done]. apply (append_other m LocalOnlyQuestions _ Questions); try done; try apply Hq.
      intros z Hz Hz'. by apply (qlists_disjoint Hq z).
    - exists ((P ++ N) ++ [p]). split; [by apply (append_chain m Questions)|].
      intros y. rewrite (elem_of_app (P ++ N)), list_elem_of_singleton. naive_solver. }
  destruct (find_duplicate_spec m2 l p qf) with (fuel := q_fuel m2) (h := m_Questions m2) as (d & Hd & Hres).
  - unfold m2. rewrite put_q_qs. apply lookup_insert_eq.
  - done.
  - done.
  - intros y c Hy Hc Hyp. specialize (Hin y Hy Hyp). apply append_at in Hc as [[? _]|(_ & c0 & Hc0 & ->)]; [done| |done|done].
    pose proof (ql_ok Hq y c0 Hc0 Hyp) as Hk. destruct (decide _); [|done]. by destruct Hk.
  - unfold q_fuel. apply Nat.lt_succ_r. eapply chain_size; [done|]. intros y [n Hn]. apply qnx_Some in Hn as (c & Hc & _). by eauto.
  - exists d. split; [done|]. naive_solver.
Qed.

Lemma name_mem_legal d : (∃ ls, name_ok ls ∧ is_name d ls) → ∃ h, DomainNameHashValue d = Ret h ∧ name_mem d h ∧ HashSlot d = Ret (h mod CACHE_HASH_SLOTS).
Proof.
  intros (ls & Hls & Hd). destruct (DomainNameHashValue_spec d d ls ls (proj1 Hls) (proj1 Hls) Hd Hd eq_refl) as (h & Hh & _).
  exists h. split; [done|]. split; [by exists ls|]. unfold HashSlot. by rewrite Hh.
Qed.

(** The end of [mDNS_StartQuery_internal], from the choice of a key on. *)
Definition start_rest m p key : outcome (mDNS * Z) :=
  let* m := set_q m p (fun q => q <| Q_AuthInfo := key |>) in
  let* dup := FindDuplicateQuestion m p in
  let* m := set_q m p (fun q => start_fields2 m (q <| Q_DuplicateOf := dup |>)) in
  let* m := if dup =? 0 then Ret m else
            let* d := get_q m dup in set_q m p (fun q => q <| Q_AuthInfo := Q_AuthInfo d |>) in
  let* m := set_q m p clear_dups in
  let* q := get_q m p in
  if q_InterfaceID (Q_q q) =? mDNSInterface_LocalOnly then
    Ret (if m_NewLocalOnlyQuestions m =? 0 then m <| m_NewLocalOnlyQuestions := p |> else m, mStatus_NoError)
  else
    let m := if m_NewQuestions m =? 0 then m <| m_NewQuestions := p |> else m in
    if negb (q_TargetQID (Q_q q) =? 0) then Fault WideArea else
    let* m := SetNextQueryTime m p in
    Ret (m, mStatus_NoError).

Lemma duplicate_key t co m P N L M p q1 q5 (loc : bool) dup : inv t co p m P N L M → m_qs m !! p = Some q1 → dup = 0 ∨ dup ∈ P ++ N ∧ dup ≠ p →
  let m1 := put_q (relink_q m (base loc) (if loc then L ++ M else P ++ N) p) p q5 in
  ∃ k, (if dup =? 0 then Ret m1 else let* d := get_q m1 dup in set_q m1 p (fun q => q <| Q_AuthInfo := Q_AuthInfo d |>)) =
    Ret (put_q (relink_q m (base loc) (if loc then L ++ M else P ++ N) p) p (q5 <| Q_AuthInfo := k |>)).
Proof.
  intros Hi Hp Hd m1. set (x := if loc then L ++ M else P ++ N) in *. set (m2 := relink_q m (base loc) x p) in *.
  destruct (Z.eqb_spec dup 0) as [_|Hd0]; [exists (Q_AuthInfo q5); f_equal; unfold m1; f_equal; by destruct q5|].
  destruct Hd as [|[Hd Hdp']]; [done|]. destruct (qlists_at (iv_q Hi) dup Hd) as (qd & Hqd & _).
  assert (∃ qd', m_qs m1 !! dup = Some qd') as [qd' Hqd'].
  { unfold m1. rewrite put_q_qs, lookup_insert_ne by done. unfold m2. rewrite (relink_q_at m (base loc) x 0), Hqd;
      [destruct (decide _); by eexists|by destruct loc|by eapply list_chain]. }
  rewrite (get_q_at _ _ _ Hqd'). cbn [obind]. unfold m1. rewrite set_put_q. by eexists.
Qed.

Lemma start_rest_spec t co m P N L M p q1 q3 key : inv t co p m P N L M → m_qs m !! p = Some q1 →
  name_mem (q_qname (Q_q q3)) (q_qnamehash (Q_q q3)) → q_mem q3 → Q_next q3 = 0 → q_TargetQID (Q_q q3) = 0 → let loc := is_local q3 in
  ∃ m', start_rest (put_q (relink_q m (base loc) (if loc then L ++ M else P ++ N) p) p q3) p key = Ret (m', mStatus_NoError) ∧
    calm m m' ∧ same_names [p] (m_qs m) (m_qs m') ∧ started loc t co m' P N L M p.
Proof.
  intros Hi Hp Hname3 Hmem Hnx3 HT3 loc. assert (is_local q3 = loc) as Hloc3 by done. clearbody loc. unfold start_rest.
  set (x := if loc then L ++ M else P ++ N). set (m2 := relink_q m (base loc) x p).
  rewrite set_put_q. cbn [obind]. cbv beta. match goal with |- context [put_q m2 p ?c] => set (q4 := c) end.
  destruct (start_duplicate t co m P N L M p q1 q4 loc m2 eq_refl Hi Hp Hname3 Hnx3) as (dup & Hdup & Hd).
  rewrite Hdup. cbn [obind]. rewrite set_put_q. cbn [obind]. cbv beta. match goal with |- context [put_q m2 p ?c] => set (q5 := c) end.
  destruct (duplicate_key t co m P N L M p q1 q5 loc dup Hi Hp Hd) as (k & Hk). fold x m2 in Hk. rewrite Hk. clear Hk.
  cbn [obind]. rewrite set_put_q. cbn [obind]. cbv beta. rewrite get_put_q. cbn [obind].
  match goal with |- context [put_q m2 p ?c] => set (q7 := c) end.
  assert (q_ok q7 ∧ is_local q7 = loc ∧ Q_next q7 = 0 ∧ Q_DuplicateOf q7 = dup) as (Hok7 & Hloc7 & Hnx7 & Hd7).
  { split; [|by split_and!]. split; [done|done|by split_and!]. }
  fold (is_local q7). rewrite Hloc7. assert (q_TargetQID (Q_q q7) = 0) as -> by apply Hok7. cbn [Z.eqb negb].
  pose proof (append_inv t co m P N L M p q1 q7 loc Hi Hp Hok7 Hloc7 Hnx7 ltac:(rewrite Hd7; naive_solver)) as Hst. fold x m2 in Hst.
  assert (calm m (add_new loc (put_q m2 p q7) p)) as Hcm.
  { transitivity m2; [apply calm_relink|]. transitivity (put_q m2 p q7); [done|]. apply calm_add_new. }
  assert (same_names [p] (m_qs m) (m_qs (add_new loc (put_q m2 p q7) p))) as Hnam.
  { assert (m_qs (add_new loc (put_q m2 p q7) p) = <[p := q7]> (m_qs m2)) as -> by (unfold add_new; destruct loc, (_ =? 0); done).
    apply (names_weaken ([] ++ [p])); [set_solver|]. eapply names_trans; [apply names_relink|apply names_insert]. }
  clearbody q7 m2. destruct loc; [by eexists|].
  set (m3 := add_new false (put_q m2 p q7) p) in *. change (if m_NewQuestions (put_q m2 p q7) =? 0 then _ else _) with m3.
  assert (m_qs m3 !! p = Some q7) as Hp3.
  { unfold m3, add_new. destruct (_ =? 0); unfold put_q; struct_simpl; apply lookup_insert_eq. }
  destruct (SetNextQueryTime_spec m3 p q7 Hp3) as (a & b & ->). cbn [obind]. eexists. split; [done|].
  split; [by transitivity m3|]. split; [done|]. by apply inv_sched.
Qed.

Definition legal q : Prop := ∃ ls, name_ok ls ∧ is_name (q_qname (Q_q q)) ls.
Lemma StartQuery_internal_spec t co m P N L M p q : inv t co p m P N L M → m_qs m !! p = Some q → q_mem q →
  ∃ m' st, mDNS_StartQuery_internal m p = Ret (m', st) ∧ calm m m' ∧ same_names [p] (m_qs m) (m_qs m') ∧
    ((st = mStatus_NoError ∧ started (is_local q) t co m' P N L M p ∧ legal q) ∨
     (st ≠ mStatus_NoError ∧ inv t co p m' P N L M ∧
        (m_rrcache_size m = 0 ∧ st = mStatus_NoCache ∨ m_rrcache_size m ≠ 0 ∧ ¬ legal q ∧ st = mStatus_Invalid))).
Proof.
  intros Hi Hp Hmem. unfold mDNS_StartQuery_internal. rewrite (set_q_at m p q _ Hp). cbn [obind].
  destruct (clear_target_alike q) as [[Hnx Hloc [Hnm Hnh] _] Hdp].
  assert (q_TargetQID (Q_q (clear_target q)) = 0) as HT by done.
  set (q1 := clear_target q) in *. clearbody q1.
  pose proof (inv_put t co m P N L M p q q1 Hi Hp Hloc) as Hi1. set (m1 := put_q m p q1) in *.
  assert (same_names [p] (m_qs m) (m_qs m1)) as Hna1 by apply names_insert.
  assert (calm m m1) as Hc1 by done. assert (m_qs m1 !! p = Some q1) as Hp1 by (unfold m1; rewrite put_q_qs; apply lookup_insert_eq).
  change (m_rrcache_size m) with (m_rrcache_size m1). clearbody m1. clear Hp Hi. rename Hi1 into Hi, Hp1 into Hp.
  destruct (Z.eqb_spec (m_rrcache_size m1) 0) as [Hz|Hz]; [eexists _, _; split; [done|]; split; [done|]; split; [done|]; right; split_and!; [done..|by left]|].
  rewrite (get_q_at m1 p q1 Hp). cbn [obind]. rewrite Hnm.
  destruct (DomainNameLength_total (q_qname (Q_q q))) as (n & Hn & Hlegal); [apply Hmem|unfold q_mem in Hmem; lia|]. rewrite Hn. cbn [obind].
  assert (n <= MAX_DOMAIN_NAME ↔ legal q) as Hiff.
  { split; [intros Hle; destruct Hlegal as [->|(ls & ? & ? & _)]; [by unfold MAX_DOMAIN_NAME in Hle|by exists ls]|].
    intros (ls & Hls & Hd). rewrite (DomainNameLength_name _ ls Hls Hd) in Hn. injection Hn as <-. apply Hls. }
  destruct (Z.leb_spec n MAX_DOMAIN_NAME) as [Hle|Hgt]; cbn [negb].
  2: { eexists _, _. split; [done|]. split; [by transitivity m1|]. split; [done|]. right. split; [done|]. split; [|right; split_and!; [done|rewrite <- Hiff; lia|done]].
       destruct Hi. split; try done. by apply (same_cache_wf t co m1). }
  apply Hiff in Hle as Hleg. clear Hle Hiff Hn n Hlegal.
  rewrite question_list_base, Hloc. set (loc := is_local q). set (x := if loc then L ++ M else P ++ N).
  assert (p ∉ x) as Hpx by (unfold x; destruct (qlists_out (iv_q Hi)), loc; done).
  assert (is_base (base loc)) as Hb by by destruct loc.
  pose proof (list_chain t co p m1 P N L M loc Hi) as Hx. fold x in Hx.
  destruct (find_link_list t co p m1 P N L M p loc Hi) as [[_ Hfl]|(c & d & Hcd & _)].
  2: { exfalso. apply Hpx. unfold x. rewrite Hcd. set_solver. }
  fold x in Hfl. rewrite Hfl. cbn [obind]. rewrite (read_qtail m1 (base loc) x 0 Hb Hx). cbn [obind Z.eqb negb].
  rewrite (write_qtail m1 (base loc) x 0 p Hb Hx). cbn [obind]. set (m2 := relink_q m1 (base loc) x p).
  assert (m_qs m2 !! p = Some q1) as Hp2.
  { unfold m2. rewrite (relink_q_at m1 (base loc) x 0) by done. rewrite decide_False; [done|]. intros Hl%last_Some_elem_of. done. }
  rewrite (set_q_at m2 p q1 _ Hp2). cbn [obind].
  assert (∀ c, cache_wf t co (put_q m2 p c)) as Hw.
  { intros c. destruct (relink_q_fields m1 (base loc) x p m2 eq_refl) as (_ & Hsc & _). apply (same_cache_wf t co m1); [apply Hi|].
    destruct Hsc. by split. }
  assert (m_AuthInfoList m2 = m_AuthInfoList m1) as Hauth by apply (relink_q_fields m1 (base loc) x p m2 eq_refl).
  destruct (name_mem_legal _ Hleg) as (hh & -> & Hname & ->). cbn [obind].
  destruct (CheckForSoonToExpireRecords_total t co _ _ hh (Hw (q1 <| Q_next := 0 |>)) Hname) as (delay & ->). cbn [obind].
  rewrite set_put_q. cbn [obind]. cbv beta. rewrite get_put_q. cbn [obind].
  match goal with |- context [put_q m2 p ?c] => set (q3 := c) end.
  assert (name_mem (q_qname (Q_q q3)) (q_qnamehash (Q_q q3)) ∧ q_qname (Q_q q3) = q_qname (Q_q q)) as [Hname3 Hnm3].
  { unfold q3, start_fields. struct_simpl. by rewrite Hnm. }
  assert (is_local q3 = loc ∧ Q_next q3 = 0 ∧ q_TargetQID (Q_q q3) = 0) as (Hloc3 & Hnx3 & HT3) by done. clearbody q3.
  destruct (GetAuthInfoForQuestion_total (put_q m2 p q3) q3) as (key & y & ->); [unfold put_q; struct_simpl; rewrite Hauth; apply Hi|done|].
  cbn [obind]. assert ((put_q m2 p q3) <| m_log := y |> = put_q (relink_q (m1 <| m_log := y |>) (base loc) x p) p q3) as ->
    by (unfold m2, relink_q; destruct (last x), loc; reflexivity).
  destruct (start_rest_spec t co (m1 <| m_log := y |>) P N L M p q1 q3 key) as (m' & Hrun & Hcalm & Hnames & Hst);
    [by apply inv_log|done|done|unfold q_mem; by rewrite Hnm3|done|done|].
  exists m', mStatus_NoError. split; [rewrite Hloc3 in Hrun; exact Hrun|]. split; [by transitivity m1|]. split.
  - apply (names_weaken ([p] ++ [p])); [set_solver|]. by eapply names_trans; [exact Hna1|].
  - left. rewrite Hloc3 in Hst. by split_and!.
Qed.
End Start.
