(* ===== verification/MDNSStop.v ===== *)
(** [mDNS_StopQuery_internal] keeps the invariant: the question leaves its
    list, its duplicates find another one, and its records either find
    another active question or are not active any more. *)
From S2P Require Import Prelude Bytes DNSTypes DNSName DNSRecord DNSRecordSpec DNSMessage MDNSTypes MDNSCache MDNSQuestion MDNSList MDNSInv MDNSPool MDNSRecycle MDNSGet MDNSQInv MDNSStart.

Implicit Types (E : gmap Z CacheEntity) (Q : gmap Z Question) (m : mDNS) (p r t co qo h : Z) (l P N L M : list Z) (q : Question).

(** ** Removing from a list *)
Definition rm p l : list Z := filter (fun x => x ≠ p) l.
Lemma rm_notin p l : p ∉ l → rm p l = l.
Proof.
  induction l as [|x l IH]; [done|]. intros Hp. rewrite not_elem_of_cons in Hp. unfold rm in *. rewrite filter_cons_True by naive_solver.
  by rewrite IH by naive_solver.
Qed.
Lemma rm_mid p a b : NoDup (a ++ p :: b) → rm p (a ++ p :: b) = a ++ b.
Proof.
  intros Hnd. apply NoDup_app in Hnd as (_ & Hd & [Hp _]%NoDup_cons).
  assert (p ∉ a) as Ha by (intros Ha; apply (Hd p Ha), list_elem_of_here).
  unfold rm. rewrite filter_app, filter_cons_False by naive_solver. fold (rm p a) (rm p b). by rewrite !rm_notin.
Qed.
Lemma rm_app p a b : rm p (a ++ b) = rm p a ++ rm p b.
Proof. apply filter_app. Qed.
Lemma elem_of_rm x p l : x ∈ rm p l ↔ x ∈ l ∧ x ≠ p.
Proof. unfold rm. rewrite list_elem_of_filter. tauto. Qed.
Lemma lseg_head nx h p n a b : chain nx h (a ++ p :: b) → nx p = Some n → n = hd 0 b.
Proof.
  intros (k & _ & -> & _ & n' & Hn' & Hb)%lseg_app Hn. rewrite Hn in Hn'. injection Hn' as <-. destruct b; [done|]. by destruct Hb.
Qed.
(** The first of what is left. *)
Lemma hd_rm p a b n : p ≠ 0 → NoDup (a ++ b) → (∀ c d, a ++ b = c ++ p :: d → n = hd 0 d) → hd 0 (rm p b) = if hd 0 b =? p then n else hd 0 b.
Proof.
  intros Hp Hnd Hn. destruct b as [|x b]; [by destruct p|].
  simpl. pose proof Hnd as (_ & _ & [Hx Hnb]%NoDup_cons)%NoDup_app. destruct (Z.eqb_spec x p) as [->|Hne].
  - unfold rm. rewrite filter_cons_False by naive_solver. fold (rm p b). rewrite rm_notin by done. symmetry. by apply (Hn a).
  - unfold rm. by rewrite filter_cons_True.
Qed.

(** ** Taking a question out of its list *)
Lemma unlink_qlists m l L p q (loc : bool) c d : qlists 0 (m_qs m) (m_Questions m) (m_LocalOnlyQuestions m) l L → m_qs m !! p = Some q → is_local q = loc →
  (if loc then L else l) = c ++ p :: d →
  let m' := relink_q m (base loc) c (Q_next q) in
  qlists p (m_qs m') (m_Questions m') (m_LocalOnlyQuestions m') (rm p l) (rm p L) ∧ m_qs m' !! p = Some q.
Proof.
  intros Hq Hp Hloc Hx m'. assert (is_base (base loc)) as Hb by by destruct loc.
  assert (chain (qnx (m_qs m)) (head_of m (base loc)) (c ++ p :: d)) as Hch by (rewrite <- Hx; destruct loc; apply Hq).
  pose proof (chain_NoDup _ _ _ Hch) as Hnd. pose proof Hch as (k & Hc & -> & Hp0 & n & Hn & Hd)%lseg_app.
  pose proof Hn as (q' & Hq' & Hnx)%qnx_Some. rewrite Hp in Hq'. injection Hq' as <-. subst n.
  assert ((p ∉ c) ∧ ∀ y, y ∈ d → y ∉ c) as [Hpc Hdc].
  { apply NoDup_app in Hnd as (_ & Hnd & _). split; [intros Hpc; apply (Hnd p Hpc), list_elem_of_here|].
    intros y Hy Hyc. by apply (Hnd y Hyc), list_elem_of_further. }
  assert (∀ y, m_qs m' !! y = if decide (last c = Some y) then (fun q0 => q0 <| Q_next := Q_next q |>) <$> m_qs m !! y else m_qs m !! y) as Hat.
  { intros y. by apply (relink_q_at m (base loc) c p). }
  assert (m_qs m' !! p = Some q) as Hp'. { rewrite Hat, decide_False; [done|]. by intros ?%last_Some_elem_of. }
  assert (chain (qnx (m_qs m')) (head_of m' (base loc)) (c ++ d)) as Hch'.
  { apply lseg_app. exists (Q_next q). split; [apply (relink_q_lseg m (base loc) c p); [done|done|]; by apply NoDup_app in Hnd as (? & _)|].
    apply (lseg_ext (qnx (m_qs m))); [|done]. intros y Hy. unfold qnx. rewrite Hat, decide_False; [done|]. intros ?%last_Some_elem_of. by apply (Hdc y). }
  assert (∀ z, z ∈ l → z ∉ L) as Hdis by (intros z; apply (qlists_disjoint Hq)).
  assert (∀ b' y, is_base b' → b' ≠ base loc → chain (qnx (m_qs m)) (head_of m b') y → (∀ z, z ∈ y → z ∉ c) → chain (qnx (m_qs m')) (head_of m' b') y) as Hoth.
  { intros b' y Hb' Hne Hy Hyc. replace (head_of m' b') with (head_of m b').
    - apply (lseg_ext (qnx (m_qs m))); [|done]. intros z Hz. unfold qnx. rewrite Hat, decide_False; [done|]. intros ?%last_Some_elem_of. by apply (Hyc z).
    - unfold m', relink_q. destruct (last c), loc, b'; done. }
  rewrite <- (rm_mid p c d Hnd), <- Hx in Hch'.
  split; [|done]. split.
  - destruct loc; [|exact Hch']. rewrite rm_notin; [apply (Hoth Questions); try done; [apply Hq|]; intros z Hz Hzc; apply (Hdis z Hz); rewrite Hx; set_solver|].
    intros Hpl. apply (Hdis p Hpl). rewrite Hx. set_solver.
  - destruct loc; [exact Hch'|]. rewrite rm_notin; [apply (Hoth LocalOnlyQuestions); try done; [apply Hq|]; intros z Hz Hzc; apply (Hdis z); [rewrite Hx; set_solver|done]|].
    apply Hdis. rewrite Hx. set_solver.
  - intros y c0 Hy. rewrite Hat in Hy. rewrite !elem_of_rm.
    assert (∃ c1, m_qs m !! y = Some c1 ∧ is_local c0 = is_local c1) as (c1 & Hc1 & ->).
    { destruct (decide _); [|by eauto]. apply fmap_Some in Hy as (c1 & Hc1 & ->). by exists c1. }
    assert (y ≠ 0) by (intros ->; by rewrite (ql_pos Hq) in Hc1). destruct (ql_in Hq y c1 Hc1). naive_solver.
  - intros y c0 Hy Hyp. rewrite Hat in Hy.
    assert (∃ c1, m_qs m !! y = Some c1 ∧ (q_ok c1 → q_ok c0)) as (c1 & Hc1 & Hok).
    { destruct (decide _); [|by eauto]. apply fmap_Some in Hy as (c1 & Hc1 & ->). exists c1. split; [done|]. by intros []. }
    apply Hok, (ql_ok Hq y c1 Hc1). intros ->. by rewrite (ql_pos Hq) in Hc1.
  - rewrite Hat. rewrite (ql_pos Hq). by destruct (decide _).
Qed.

(** ** Steps that change only questions *)
Definition qstep m m' : Prop :=
  m' = m <| m_qs := m_qs m' |> <| m_NextScheduledQuery := m_NextScheduledQuery m' |> <| m_log := m_log m' |>.
#[export] Instance qstep_preorder : PreOrder qstep.
Proof.
  split; [intros m; by destruct m|]. intros m m' m'' H1 H2. unfold qstep in *. rewrite H2, H1. by destruct m, m', m''.
Qed.
Lemma qstep_put_q m p q : qstep m (put_q m p q).
Proof. unfold qstep, put_q. by destruct m. Qed.
Lemma qstep_fields m m' : qstep m m' → m_Questions m' = m_Questions m ∧ m_LocalOnlyQuestions m' = m_LocalOnlyQuestions m ∧
  m_NewQuestions m' = m_NewQuestions m ∧ m_NewLocalOnlyQuestions m' = m_NewLocalOnlyQuestions m ∧ calm m m' ∧ same_cache m m' ∧
  m_AuthInfoList m' = m_AuthInfoList m.
Proof. intros ->. done. Qed.
Lemma qstep_wf t co m m' : qstep m m' → cache_wf t co m → cache_wf t co m'.
Proof. intros (_ & _ & _ & _ & _ & ? & _)%qstep_fields Hw. by eapply same_cache_wf. Qed.

Section Stop.
Context `{Platform}.

Lemma SetNextQueryTime_step m p q : m_qs m !! p = Some q → ∃ m', SetNextQueryTime m p = Ret m' ∧ qstep m m' ∧ m_qs m' = m_qs m.
Proof.
  intros Hp. destruct (SetNextQueryTime_spec m p q Hp) as (x & y & ->). eexists. split; [done|]. split; [|done]. unfold qstep. by destruct m.
Qed.

(** ** Questions that duplicate the one that goes *)
Definition settled l q : Prop := Q_DuplicateOf q = 0 ∨ Q_DuplicateOf q ∈ l.
Lemma inherit_alike q qn : wide qn → alike q (inherit q qn) ∧ Q_DuplicateOf (inherit q qn) = Q_DuplicateOf q.
Proof. intros (H1 & H2 & H3 & H4 & _). split; [|done]. split; try done. intros (? & ? & ? & ? & ?). by split_and!. Qed.

(** One question is looked at. *)
Definition update_one m p question : outcome mDNS :=
  let* q := get_q m p in
  if Q_DuplicateOf q =? question then
    let* d := FindDuplicateQuestion m p in
    let* m := set_q m p (fun q => q <| Q_DuplicateOf := d |>) in
    if d =? 0 then
      let* qn := get_q m question in
      let* m := set_q m p (fun q => inherit q qn) in
      let* m := set_q m question (fun q => q <| Q_LocalSocket := 0 |> <| Q_nta := 0 |>) in
      if negb (Q_nta qn =? 0) then Fault WideArea else
      let* m := set_q m question (fun q => if Q_state q =? LLQ_Established then q <| Q_state := 0 |> else q) in
      SetNextQueryTime m p
    else Ret m
  else Ret m.

Lemma update_one_spec p l L m x : qlists p (m_qs m) (m_Questions m) (m_LocalOnlyQuestions m) l L → x ∈ l → dups_ok p (m_qs m) l →
  (∃ qp, m_qs m !! p = Some qp ∧ wide qp) →
  ∃ m', update_one m x p = Ret m' ∧ qstep m m' ∧ shape (m_qs m) (m_qs m') ∧
    (∀ y q q', y ≠ x → m_qs m !! y = Some q → m_qs m' !! y = Some q' → Q_DuplicateOf q' = Q_DuplicateOf q) ∧
    ∃ q', m_qs m' !! x = Some q' ∧ settled l q'.
Proof.
  intros Hq Hx Hdup (qp & Hqp & Hwp). destruct (qlists_at Hq x Hx) as (q & Hqx & Hok & _ & Hxp & _). unfold update_one.
  rewrite (get_q_at m x q Hqx). cbn [obind]. destruct (Z.eqb_spec (Q_DuplicateOf q) p) as [Heq|Hne].
  2: { exists m. split_and!; [done|reflexivity|reflexivity|congruence|]. exists q. split; [done|].
       destruct (Hdup x q Hqx Hx) as [|[|[? _]]]; [by left|by right|done]. }
  destruct (find_duplicate_spec m l x q Hqx (qk_name _ Hok) (q_fuel m) (m_Questions m)) as (d & Hd & Hres); [apply Hq| | |].
  { intros y c Hy Hc _. destruct (qlists_at Hq y Hy) as (c' & Hc' & ? & _). congruence. }
  { unfold q_fuel. pose proof (proj1 (qlists_fuel _ _ _ _ _ _ Hq)). lia. }
  unfold FindDuplicateQuestion. rewrite Hd. cbn [obind]. rewrite (set_q_at m x q _ Hqx). cbn [obind].
  set (q1 := q <| Q_DuplicateOf := d |>). assert (alike q q1) as Ha1 by by split.
  assert (settled l q1) as Hs1 by (destruct Hres as [->|[? _]]; [by left|by right]).
  assert (shape (m_qs m) (<[x := q1]> (m_qs m))) as Hsh1 by by eapply shape_insert.
  destruct (Z.eqb_spec d 0) as [->|Hd0].
  2: { eexists. split; [done|]. rewrite put_q_qs. split_and!; [apply qstep_put_q|done| |].
       - intros y c c' Hyx Hc. rewrite lookup_insert_ne by done. congruence.
       - exists q1. by rewrite lookup_insert_eq. }
  set (m1 := put_q m x q1).
  assert (m_qs m1 !! p = Some qp) as Hp1 by (unfold m1; rewrite put_q_qs, lookup_insert_ne by done; done).
  rewrite (get_q_at m1 p qp Hp1). cbn [obind]. unfold m1. rewrite set_put_q. cbn [obind]. cbv beta.
  destruct (inherit_alike q1 qp Hwp) as [Ha2 Hd2]. set (q2 := inherit q1 qp) in *. set (m2 := put_q m x q2).
  assert (m_qs m2 !! p = Some qp) as Hp2 by (unfold m2; rewrite put_q_qs, lookup_insert_ne by done; done).
  rewrite (set_q_at m2 p qp _ Hp2). cbn [obind]. rewrite (proj1 (proj2 Hwp)). cbn [Z.eqb negb]. rewrite set_put_q. cbn [obind]. cbv beta.
  match goal with |- context [SetNextQueryTime (put_q m2 p ?c) x] => set (qp' := c) end.
  assert (alike qp qp' ∧ Q_DuplicateOf qp' = Q_DuplicateOf qp) as [Hap Hdp].
  { unfold qp'. cbv beta. destruct (_ =? LLQ_Established); (split; [split; try done; intros (? & ? & ? & ? & ?); by split_and!|done]). }
  clearbody qp'. set (m3 := put_q m2 p qp').
  assert (m_qs m3 = <[p := qp']> (<[x := q2]> (m_qs m))) as HQ3 by done.
  destruct (SetNextQueryTime_step m3 x q2) as (m4 & -> & Hst4 & HQ4); [by rewrite HQ3, lookup_insert_ne, lookup_insert_eq by done|].
  exists m4. rewrite HQ4, HQ3. split_and!; [done| | | |].
  - transitivity m3; [|done]. transitivity m2; apply qstep_put_q.
  - transitivity (<[x := q2]> (m_qs m)); [eapply shape_insert; [done|by transitivity q1]|].
    eapply shape_insert; [|done]. by rewrite lookup_insert_ne by done.
  - intros y c c' Hyx Hc. intros [[<- <-]|[Hne Hc']]%lookup_insert_Some; [congruence|].
    rewrite lookup_insert_ne in Hc' by done. congruence.
  - exists q2. rewrite lookup_insert_ne, lookup_insert_eq by done. split; [done|]. unfold settled. by rewrite Hd2.
Qed.

Lemma update_duplicates_unfold fuel m x question q : x ≠ 0 → m_qs m !! x = Some q →
  update_duplicates (S fuel) m x question =
  let* m := update_one m x question in let* q := get_q m x in update_duplicates fuel m (Q_next q) question.
Proof.
  intros Hx Hq. cbn [update_duplicates]. unfold update_one. rewrite (proj2 (Z.eqb_neq x 0)) by done. rewrite (get_q_at m x q Hq). done.
Qed.
Lemma update_duplicates_spec p l L s : ∀ a fuel m h, qlists p (m_qs m) (m_Questions m) (m_LocalOnlyQuestions m) l L → l = a ++ s →
  chain (qnx (m_qs m)) h s → (length s < fuel)%nat → (∃ qp, m_qs m !! p = Some qp ∧ wide qp) → dups_ok p (m_qs m) l →
  (∀ x q, x ∈ a → m_qs m !! x = Some q → settled l q) →
  ∃ m', update_duplicates fuel m h p = Ret m' ∧ qstep m m' ∧ shape (m_qs m) (m_qs m') ∧ dups_ok 0 (m_qs m') l.
Proof.
  induction s as [|x s IH]; intros a [|fuel] m h Hq Hl Hch Hf Hp Hdup Hset; simpl in Hf; try lia.
  - simpl in Hch. subst h. exists m. split_and!; try done. intros x q Hx Hin. rewrite Hl, app_nil_r in Hin.
    destruct (Hset x q Hin Hx); [by left|by right; left].
  - destruct Hch as (-> & Hx & n & (q & Hqx & <-)%qnx_Some & Hs). rewrite (update_duplicates_unfold fuel m x p q Hx Hqx).
    assert (x ∈ l) as Hxl by (rewrite Hl; set_solver).
    destruct (update_one_spec p l L m x Hq Hxl Hdup Hp) as (m1 & -> & Hst & Hsh & Hoth & q1 & Hq1 & Hs1). cbn [obind].
    destruct (qstep_fields _ _ Hst) as (HQ & HL & _). rewrite (get_q_at m1 x q1 Hq1). cbn [obind].
    assert (Q_next q1 = Q_next q) as ->.
    { destruct (shape_at Hsh x q Hqx) as (q' & Hq' & Ha). rewrite Hq1 in Hq'. injection Hq' as <-. apply Ha. }
    destruct (IH (a ++ [x]) fuel m1 (Q_next q)) as (m' & Hrun & Hst' & Hsh' & Hd').
    + rewrite HQ, HL. by eapply qlists_shape.
    + by rewrite <- app_assoc.
    + apply (lseg_ext (qnx (m_qs m))); [|done]. intros y _. by apply shape_qnx.
    + lia.
    + destruct Hp as (qp & Hqp & Hwp). destruct (shape_at Hsh p qp Hqp) as (qp' & Hqp' & Ha). exists qp'. split; [done|]. by apply Ha.
    + intros y c Hc Hin. destruct (decide (y = x)) as [->|Hne]; [rewrite Hq1 in Hc; injection Hc as <-; destruct Hs1; [by left|by right; left]|].
      destruct (shape_back Hsh y c Hc) as (c0 & Hc0 & _). rewrite (Hoth y c0 c Hne Hc0 Hc). by apply (Hdup y c0).
    + intros y c Hy Hc. destruct (decide (y = x)) as [->|Hne]; [rewrite Hq1 in Hc; injection Hc as <-; done|].
      destruct (shape_back Hsh y c Hc) as (c0 & Hc0 & _). unfold settled. rewrite (Hoth y c0 c Hne Hc0 Hc).
      apply (Hset y c0); [|done]. rewrite elem_of_app, list_elem_of_singleton in Hy. naive_solver.
    + exists m'. split_and!; try done; by etransitivity.
Qed.

(** ** Another question for a record *)
(** The record has the name of the question. *)
Definition named m (rr : ResourceRecord) p : Prop :=
  ∃ q, m_qs m !! p = Some q ∧ same_mem (rr_name rr) (q_qname (Q_q q)).
Lemma answers_total rr q : name_mem (rr_name rr) (rr_namehash rr) → name_mem (q_qname (Q_q q)) (q_qnamehash (Q_q q)) →
  ∃ b, ResourceRecordAnswersQuestion rr (Q_q q) = Ret b ∧ (b = true → same_mem (rr_name rr) (q_qname (Q_q q))).
Proof.
  intros (ls & Hls & Hd & Hh) (ls' & Hls' & Hd' & Hh').
  rewrite (ResourceRecordAnswersQuestion_spec rr (Q_q q) ls ls') by done.
  eexists. split; [done|]. rewrite andb_true_iff, bool_decide_eq_true. intros [_ Hs]. by exists ls, ls'.
Qed.
Lemma find_active_spec m rr s : name_mem (rr_name rr) (rr_namehash rr) → ∀ fuel h, chain (qnx (m_qs m)) h s →
  (∀ x q, x ∈ s → m_qs m !! x = Some q → q_ok q) → (length s < fuel)%nat →
  ∃ x, find_active fuel m h rr = Ret x ∧ (x = 0 ∨ x ∈ s ∧ named m rr x).
Proof.
  intros Hn. induction s as [|x s IH]; intros [|fuel] h Hch Hok Hf; simpl in Hf; try lia; cbn [find_active].
  - simpl in Hch. subst h. exists 0. by split; [|left].
  - destruct Hch as (-> & Hx & n & (q & Hq & <-)%qnx_Some & Hs). rewrite (proj2 (Z.eqb_neq x 0)) by done.
    rewrite (get_q_at m x q Hq). cbn [obind]. pose proof (Hok x q (list_elem_of_here _ _) Hq) as Hqok.
    destruct (answers_total rr q Hn (qk_name _ Hqok)) as (b & Hb & Hsm).
    assert (∃ c, (if ActiveQuestion q then ResourceRecordAnswersQuestion rr (Q_q q) else Ret false) = Ret c ∧ (c = true → b = true)) as (c & -> & Hcb).
    { destruct (ActiveQuestion q); [by exists b|by exists false]. }
    cbn [obind]. destruct c.
    + exists x. split; [done|]. right. split; [apply list_elem_of_here|]. exists q. split; [done|]. by apply Hsm, Hcb.
    + destruct (IH fuel (Q_next q) Hs) as (y & Hy & Hres); [|lia|].
      * intros y c Hy. apply Hok. by apply list_elem_of_further.
      * exists y. split; [done|]. destruct Hres as [|[? ?]]; [by left|right]. split; [by apply list_elem_of_further|done].
Qed.

Lemma active_range t co m : cache_wf t co m → 0 ≤ count is_active (m_ents m) ∧ is_u32 (count is_active (m_ents m)).
Proof.
  intros Hw. destruct (used_range t co m Hw) as [_ Hs]. pose proof (count_le is_active (fun _ => true) (m_ents m) ltac:(done)) as Hle.
  rewrite count_true in Hle. pose proof (count_nonneg is_active (m_ents m)). lia.
Qed.
Lemma same_cache_active m r cr x : m_ents m !! r = Some (ERecord cr) →
  same_cache m (put_entity m r (ERecord (cr <| cr_CRActiveQuestion := x |>))).
Proof.
  intros Hr. split; try done. intros y. rewrite put_entity_ents. destruct (decide (y = r)) as [->|]; [rewrite lookup_insert_eq, Hr|by rewrite lookup_insert_ne].
  simpl. do 2 f_equal.
Qed.
Lemma linked_name t co m r cr : cache_wf t co m → m_ents m !! r = Some (ERecord cr) → r ≠ co →
  ∃ cg, m_ents m !! cr_group cr = Some (EGroup cg) ∧ cr_group cr ≠ co ∧
    let rr := (cr_resrec cr) <| rr_name := cg_name cg |> in resrec_of m cr = Ret rr ∧ name_mem (rr_name rr) (rr_namehash rr).
Proof.
  intros Hw Hr Hco. destruct (cw_rec Hw r cr Hr Hco) as (cg & Hcg & Hgo & Hh & _). exists cg. split; [done|]. split; [done|].
  unfold resrec_of. rewrite (proj2 (Z.eqb_neq _ 0)) by by eapply wf_nonzero. rewrite (get_group_at _ cg Hcg). split; [done|].
  struct_simpl. rewrite Hh. by apply (cw_name Hw _ cg Hcg).
Qed.

(** How a record is changed. *)
Definition retargeted m l p (rs : list Z) r (cr cr' : CacheRecord) : Prop :=
  (cr' = cr ∧ (r ∈ rs → cr_CRActiveQuestion cr ≠ p)) ∨
  (r ∈ rs ∧ ∃ x, cr' = cr <| cr_CRActiveQuestion := x |> ∧
    (x = 0 ∨ x ∈ l ∧ ∃ cg q, m_ents m !! cr_group cr = Some (EGroup cg) ∧ m_qs m !! x = Some q ∧ same_mem (cg_name cg) (q_qname (Q_q q)))).
Definition rstep m m' : Prop := m' = m <| m_ents := m_ents m' |> <| m_rrcache_active := m_rrcache_active m' |>.
#[export] Instance rstep_preorder : PreOrder rstep.
Proof. split; [intros m; by destruct m|]. intros m m' m'' H1 H2. unfold rstep in *. rewrite H2, H1. by destruct m, m', m''. Qed.

Lemma retarget_one t co p l L m r cr : cache_wf t co m → qlists p (m_qs m) (m_Questions m) (m_LocalOnlyQuestions m) l L →
  m_rrcache_active m = count is_active (m_ents m) → p ≠ 0 → m_ents m !! r = Some (ERecord cr) → r ≠ co → cr_CRActiveQuestion cr = p →
  ∃ x m', (let* rr := resrec_of m cr in
    let* q := find_active (q_fuel m) m (m_Questions m) rr in
    let* m := set_rec m r (fun cr => cr <| cr_CRActiveQuestion := q |>) in
    Ret (if q =? 0 then m <| m_rrcache_active := u32 (m_rrcache_active m - 1) |> else m)) = Ret m' ∧
    rstep m m' ∧ same_cache m m' ∧ m_rrcache_active m' = count is_active (m_ents m') ∧
    m_ents m' = <[r := ERecord (cr <| cr_CRActiveQuestion := x |>)]> (m_ents m) ∧
    (x = 0 ∨ x ∈ l ∧ ∃ cg q, m_ents m !! cr_group cr = Some (EGroup cg) ∧ m_qs m !! x = Some q ∧ same_mem (cg_name cg) (q_qname (Q_q q))).
Proof.
  intros Hw Hq Hct Hp0 Hr Hco Hpr. destruct (linked_name t co m r cr Hw Hr Hco) as (cg & Hcg & Hgo & -> & Hname). cbn [obind].
  destruct (find_active_spec m _ l Hname (q_fuel m) (m_Questions m)) as (x & -> & Hx); [apply Hq| | |].
  { intros y c Hy Hc. destruct (qlists_at Hq y Hy) as (c' & Hc' & ? & _). congruence. }
  { unfold q_fuel. pose proof (proj1 (qlists_fuel _ _ _ _ _ _ Hq)). lia. }
  cbn [obind]. rewrite (set_rec_at Hw r cr _ Hr). cbn [obind]. set (cr' := cr <| cr_CRActiveQuestion := x |>).
  set (m1 := put_entity m r (ERecord cr')). pose proof (same_cache_active m r cr x Hr) as Hsc. fold cr' m1 in Hsc.
  assert (count is_active (m_ents m1) = m_rrcache_active m + Z.b2z (negb (x =? 0)) - 1) as Hcnt.
  { unfold m1. rewrite put_entity_ents, count_insert, Hr, Hct. unfold cell. cbn [is_active]. rewrite Hpr, (proj2 (Z.eqb_neq p 0)) by done. done. }
  pose proof (active_range t co m1 ltac:(by eapply same_cache_wf)) as Hrange.
  exists x. destruct (Z.eqb_spec x 0) as [Hx0|Hx0].
  - eexists. split; [done|]. cbn [negb Z.b2z] in Hcnt. split_and!; [reflexivity|by destruct Hsc; split| |done|by left].
    struct_simpl. rewrite Hcnt. rewrite u32_id; [unfold m1, put_entity; struct_simpl; lia|].
    change (m_rrcache_active m1) with (m_rrcache_active m). lia.
  - exists m1. cbn [negb Z.b2z] in Hcnt. split_and!; try done; [change (m_rrcache_active m1) with (m_rrcache_active m); lia|].
    destruct Hx as [|[Hxl (q & Hqx & Hsm)]]; [done|]. right. split; [done|]. by exists cg, q.
Qed.

Lemma retarget_loop_spec t co p l L rs : ∀ fuel m h, cache_wf t co m → qlists p (m_qs m) (m_Questions m) (m_LocalOnlyQuestions m) l L →
  m_rrcache_active m = count is_active (m_ents m) → p ≠ 0 → chain (rec_next (m_ents m)) h rs → (∀ r, r ∈ rs → r ≠ co) → p ∉ l → (length rs < fuel)%nat →
  ∃ m', retarget_loop fuel m h p = Ret m' ∧ rstep m m' ∧ same_cache m m' ∧ m_rrcache_active m' = count is_active (m_ents m') ∧
    ∀ r cr', m_ents m' !! r = Some (ERecord cr') → ∃ cr, m_ents m !! r = Some (ERecord cr) ∧ retargeted m l p rs r cr cr'.
Proof.
  induction rs as [|r rs IH]; intros [|fuel] m h Hw Hq Hct Hp0 Hch Hco Hpl Hf; simpl in Hf; try lia; cbn [retarget_loop].
  - simpl in Hch. subst h. exists m. split_and!; try done. intros r cr Hr. exists cr. split; [done|]. left. split; [done|]. by intros ?%elem_of_nil.
  - destruct Hch as (-> & Hr0 & n & (cr & Hr & <-)%rec_next_Some & Hrs). rewrite (proj2 (Z.eqb_neq r 0)) by done.
    rewrite (get_rec_at Hw r cr Hr). cbn [obind]. pose proof (Hco r (list_elem_of_here _ _)) as Hrco.
    assert (r ∉ rs) as Hrr.
    { intros Hin. assert (chain (rec_next (m_ents m)) r (r :: rs)) as Hc by (split; [done|]; split; [done|]; exists (cr_next cr); split; [|done]; apply rec_next_Some; by eauto).
      by apply chain_NoDup, NoDup_cons in Hc as [? _]. }
    assert (∃ m1 x, (if cr_CRActiveQuestion cr =? p then
        let* rr := resrec_of m cr in let* q := find_active (q_fuel m) m (m_Questions m) rr in
        let* m := set_rec m r (fun cr => cr <| cr_CRActiveQuestion := q |>) in
        Ret (if q =? 0 then m <| m_rrcache_active := u32 (m_rrcache_active m - 1) |> else m) else Ret m) = Ret m1 ∧
      rstep m m1 ∧ same_cache m m1 ∧ m_rrcache_active m1 = count is_active (m_ents m1) ∧
      m_ents m1 = <[r := ERecord (cr <| cr_CRActiveQuestion := x |>)]> (m_ents m) ∧ retargeted m l p (r :: rs) r cr (cr <| cr_CRActiveQuestion := x |>))
      as (m1 & x & -> & Hst1 & Hsc1 & Hct1 & HE1 & Hrt).
    { destruct (Z.eqb_spec (cr_CRActiveQuestion cr) p) as [Heq|Hne].
      - destruct (retarget_one t co p l L m r cr Hw Hq Hct Hp0 Hr Hrco Heq) as (x & m1 & Hrun & Hst & Hsc & Hc1 & HE & Hx).
        exists m1, x. split_and!; try done. right. split; [apply list_elem_of_here|]. by exists x.
      - exists m, (cr_CRActiveQuestion cr). assert (cr <| cr_CRActiveQuestion := cr_CRActiveQuestion cr |> = cr) as -> by by destruct cr.
        split_and!; try done; [by rewrite insert_id|]. by left. }
    cbn [obind]. set (cr1 := cr <| cr_CRActiveQuestion := x |>) in *.
    assert (m_qs m1 = m_qs m ∧ m_Questions m1 = m_Questions m ∧ m_LocalOnlyQuestions m1 = m_LocalOnlyQuestions m) as (HQ & Hh & Hl).
    { unfold rstep in Hst1. rewrite Hst1. done. }
    destruct (IH fuel m1 (cr_next cr)) as (m' & Hrun & Hst' & Hsc' & Hct' & Hres).
    + by eapply same_cache_wf.
    + by rewrite HQ, Hh, Hl.
    + done.
    + done.
    + apply (lseg_ext (rec_next (m_ents m))); [|done]. intros y _. apply (same_ents_next (sc_ents _ _ Hsc1)).
    + intros y Hy. apply Hco. by apply list_elem_of_further.
    + done.
    + lia.
    + exists m'. split; [done|]. split; [by transitivity m1|]. split; [by transitivity m1|]. split; [done|].
      intros y cy' Hy'. destruct (Hres y cy' Hy') as (cy1 & Hy1 & Hr1). rewrite HE1 in Hy1. apply lookup_insert_Some in Hy1 as [[<- Heq]|[Hne Hy]].
      * exists cr. split; [done|]. destruct Hr1 as [[-> _]|[? _]]; [|done]. assert (cy1 = cr1) as -> by congruence. done.
      * exists cy1. split; [done|]. unfold retargeted in *. rewrite HQ in Hr1. rewrite elem_of_cons. destruct Hr1 as [[-> Hr1]|[Hin (z & -> & Hz)]].
        -- left. split; [done|]. naive_solver.
        -- right. split; [by right|]. exists z. split; [done|]. destruct Hz as [|[Hzl (cg & q & Hcg & Hqz)]]; [by left|right]. split; [done|].
           exists cg, q. split; [|done]. rewrite HE1 in Hcg. apply lookup_insert_Some in Hcg as [[_ Hx]|[_ ?]]; [discriminate Hx|done].
Qed.

(** ** Stopping a question *)
(** Records differ at most in the question they are of use to, and the one
    that is in no list does not differ. *)
Definition only_active co m m' : Prop :=
  ∀ r cr', m_ents m' !! r = Some (ERecord cr') → ∃ cr x, m_ents m !! r = Some (ERecord cr) ∧
    cr' = cr <| cr_CRActiveQuestion := x |> ∧ (r = co → cr' = cr).
Lemma only_active_refl co m : only_active co m m.
Proof. intros r cr Hr. exists cr, (cr_CRActiveQuestion cr). split_and!; try done. by destruct cr. Qed.
Lemma only_active_trans co m m' m'' : only_active co m m' → only_active co m' m'' → only_active co m m''.
Proof.
  intros H1 H2 r cr'' Hr. destruct (H2 r cr'' Hr) as (cr' & y & Hr' & -> & Hco'). destruct (H1 r cr' Hr') as (cr & x & Hr0 & -> & Hco).
  exists cr, y. split_and!; try done. intros Heq. by rewrite (Hco' Heq), (Hco Heq).
Qed.

(** The cache side after the records were looked at. *)
Lemma retarget_active t co p l L m m' name g rs : cache_wf t co m → active_ok p co (m_ents m) (m_qs m) l →
  qlists p (m_qs m) (m_Questions m) (m_LocalOnlyQuestions m) l L →
  (∃ q, m_qs m !! p = Some q ∧ q_qname (Q_q q) = name) → finds m co name g →
  (∀ r cr, m_ents m !! r = Some (ERecord cr) → (r ∈ rs ↔ r ≠ co ∧ cr_group cr = g)) → same_cache m m' → rstep m m' → p ≠ 0 →
  (∀ r cr', m_ents m' !! r = Some (ERecord cr') → ∃ cr, m_ents m !! r = Some (ERecord cr) ∧ retargeted m l p rs r cr cr') →
  active_ok 0 co (m_ents m') (m_qs m') l ∧ only_active co m m'.
Proof.
  intros Hw Ha Hq (q & Hqp & Hname) Hg Hin Hsc Hst Hp0 Hres. assert (m_qs m' = m_qs m) as HQ by (unfold rstep in Hst; by rewrite Hst).
  split.
  - intros r cr' Hr Hrco Hact. rewrite HQ. destruct (Hres r cr' Hr) as (cr & Hr0 & [[-> Hnp]|(Hrs & x & -> & Hx)]).
    + destruct (Ha r cr Hr0 Hrco Hact) as [(qa & cg & Hqa & Hcg & Hsm) Hl]. apply (same_ents_group (sc_ents _ _ Hsc)) in Hcg as Hcg'.
      split; [by exists qa, cg|]. left. destruct Hl as [|Heq]; [done|]. exfalso. apply Hnp; [|done]. apply (Hin r cr Hr0). split; [done|].
      rewrite Heq, Hqp in Hqa. injection Hqa as <-. rewrite Hname in Hsm.
      destruct (cw_rec Hw r cr Hr0 Hrco) as (cg1 & Hcg1 & Hgo & _).
      destruct Hg as [[-> Hno]|(Hgne & cgg & Hcgg & Hsg)]; [by destruct (Hno _ _ Hcg Hgo)|].
      apply (cw_unique Hw _ cg g cgg Hcg Hcgg Hgo Hgne). eapply same_mem_trans; [done|by apply same_mem_sym].
    + struct_simpl in Hact. struct_simpl. destruct Hx as [|(Hxl & cg & qx & Hcg & Hqx & Hsm)]; [done|]. split; [|by left].
      exists qx, cg. split_and!; try done. by apply (same_ents_group (sc_ents _ _ Hsc)).
  - intros r cr' Hr. destruct (Hres r cr' Hr) as (cr & Hr0 & [[-> _]|(Hrs & x & -> & _)]).
    + exists cr, (cr_CRActiveQuestion cr). split_and!; try done. by destruct cr.
    + exists cr, x. split_and!; try done. intros ->. by apply (Hin co cr Hr0) in Hrs as [].
Qed.

(** Where a pointer into the list goes when [p] leaves. *)
Definition moved p n x : Z := if x =? p then n else x.

Inductive stopped t co p m P N L M q : mDNS → Prop :=
| stopped_ok m' q' : rest m' = rest m → same_cache m m' → only_active co m m' →
    inv t co p m' (rm p P) (rm p N) (rm p L) (rm p M) → m_qs m' !! p = Some q' → q_mem q' → is_local q' = is_local q → same_names [p] (m_qs m) (m_qs m') →
    m_CurrentQuestion m' = moved p (Q_next q) (m_CurrentQuestion m) → stopped t co p m P N L M q m'.

Lemma inv_member t co m P N L M p q : inv t co 0 m P N L M → m_qs m !! p = Some q → p ≠ 0 ∧ q_ok q ∧
  p ∈ (if is_local q then L ++ M else P ++ N).
Proof.
  intros Hi Hp. assert (p ≠ 0) as H0 by (intros ->; by rewrite (ql_pos (iv_q Hi)) in Hp).
  split; [done|]. split; [by apply (ql_ok (iv_q Hi) p)|]. destruct (ql_in (iv_q Hi) p q Hp). destruct (is_local q); naive_solver.
Qed.

(** ** The question list without [p] *)
Lemma unlink_dups m l b c p n : is_base b → lseg (qnx (m_qs m)) (head_of m b) p c → dups_ok 0 (m_qs m) l → p ≠ 0 →
  dups_ok p (m_qs (relink_q m b c n)) (rm p l).
Proof.
  intros Hb Hc Hd Hp0 y q Hy [Hin Hyp]%elem_of_rm. rewrite (relink_q_at m b c p) in Hy by done.
  assert (∃ q0, m_qs m !! y = Some q0 ∧ Q_DuplicateOf q = Q_DuplicateOf q0) as (q0 & Hq0 & ->).
  { destruct (decide _); [|by eauto]. apply fmap_Some in Hy as (q0 & Hq0 & ->). by exists q0. }
  rewrite elem_of_rm. destruct (decide (Q_DuplicateOf q0 = p)); [by right; right|]. destruct (Hd y q0 Hq0 Hin) as [|[|[_ []]]]; [by left|by right; left|done].
Qed.
Lemma unlink_active m co l b c p n : is_base b → lseg (qnx (m_qs m)) (head_of m b) p c → active_ok 0 co (m_ents m) (m_qs m) l →
  active_ok p co (m_ents m) (m_qs (relink_q m b c n)) (rm p l).
Proof.
  intros Hb Hc Ha r cr Hr Hco Hact. destruct (Ha r cr Hr Hco Hact) as [(q & cg & Hq & Hcg & Hs) Hl]. split.
  - assert (∃ q', m_qs (relink_q m b c n) !! cr_CRActiveQuestion cr = Some q' ∧ q_qname (Q_q q') = q_qname (Q_q q)) as (q' & Hq' & Hn).
    { rewrite (relink_q_at m b c p), Hq by done. destruct (decide _); by eexists. }
    exists q', cg. by rewrite Hn.
  - rewrite elem_of_rm. destruct (decide (cr_CRActiveQuestion cr = p)); [by right|]. left. by destruct Hl.
Qed.

Lemma next_of_list t co qo m P N L M p q c d : inv t co qo m P N L M → m_qs m !! p = Some q →
  (if is_local q then L ++ M else P ++ N) = c ++ p :: d → Q_next q = hd 0 d.
Proof.
  intros Hi Hp Hx. pose proof (list_chain t co qo m P N L M (is_local q) Hi) as Hch. rewrite Hx in Hch.
  apply (lseg_head _ _ _ _ _ _ Hch). apply qnx_Some. by exists q.
Qed.
Lemma moved_new t co m P N L M p q : inv t co 0 m P N L M → m_qs m !! p = Some q →
  moved p (Q_next q) (m_NewQuestions m) = hd 0 (rm p N) ∧ moved p (Q_next q) (m_NewLocalOnlyQuestions m) = hd 0 (rm p M).
Proof.
  intros Hi Hp. destruct (inv_member _ _ _ _ _ _ _ _ _ Hi Hp) as (Hp0 & _ & Hin). unfold moved. rewrite (iv_new Hi), (iv_newl Hi).
  pose proof (chain_NoDup _ _ _ (ql_chain (iv_q Hi))) as Hnd. pose proof (chain_NoDup _ _ _ (ql_local (iv_q Hi))) as Hnd'.
  assert (∀ a b x, (hd 0 b =? p) = false → p ∉ b → NoDup (a ++ b) → (if hd 0 b =? p then x else hd 0 b) = hd 0 (rm p b)) as Hno.
  { intros a b x Hh Hpb _. by rewrite Hh, rm_notin. }
  assert (∀ b, p ∉ b → (hd 0 b =? p) = false) as Hhd.
  { intros [|y b] Hb; simpl; [by destruct p|]. apply Z.eqb_neq. intros ->. apply Hb, list_elem_of_here. }
  pose proof (fun c d => next_of_list t co 0 m P N L M p q c d Hi Hp) as Hnx.
  pose proof (ql_in (iv_q Hi) p q Hp) as [H1 H2]. destruct (is_local q).
  - assert (p ∉ N) as HN by (intros HN; assert (p ∈ P ++ N) as Hx by set_solver; by apply H1 in Hx as []).
    split; [by apply (Hno P); [apply Hhd| |]|]. symmetry. by apply (hd_rm p L).
  - assert (p ∉ M) as HM by (intros HM; assert (p ∈ L ++ M) as Hx by set_solver; by apply H2 in Hx as []).
    split; [symmetry; by apply (hd_rm p P)|by apply (Hno L); [apply Hhd| |]].
Qed.

(** The first half: the question is cut out and its duplicates see to it. *)
Lemma stop_unlink t co m P N L M p q c d : inv t co 0 m P N L M → m_qs m !! p = Some q →
  (if is_local q then L ++ M else P ++ N) = c ++ p :: d →
  ∃ m' q', UpdateQuestionDuplicates (relink_q m (base (is_local q)) c (Q_next q)) p = Ret m' ∧
    qlists p (m_qs m') (m_Questions m') (m_LocalOnlyQuestions m') (rm p (P ++ N)) (rm p (L ++ M)) ∧ dups_ok 0 (m_qs m') (rm p (P ++ N)) ∧
    active_ok p co (m_ents m') (m_qs m') (rm p (P ++ N)) ∧ m_qs m' !! p = Some q' ∧ alike q q' ∧ calm m m' ∧ same_cache m m' ∧
    m_NewQuestions m' = m_NewQuestions m ∧ m_NewLocalOnlyQuestions m' = m_NewLocalOnlyQuestions m ∧ m_AuthInfoList m' = m_AuthInfoList m ∧ same_names [p] (m_qs m) (m_qs m').
Proof.
  intros Hi Hp Hx. destruct (inv_member _ _ _ _ _ _ _ _ _ Hi Hp) as (Hp0 & Hok & _). set (b := base (is_local q)).
  assert (is_base b) as Hb by (unfold b; by destruct (is_local q)).
  pose proof (list_chain t co 0 m P N L M (is_local q) Hi) as Hch. fold b in Hch. rewrite Hx in Hch. pose proof Hch as (k & Hc & -> & _)%lseg_app.
  destruct (unlink_qlists m _ _ p q (is_local q) c d (iv_q Hi) Hp eq_refl Hx) as [Hq1 Hp1].
  pose proof (unlink_dups m _ b c p (Q_next q) Hb Hc (iv_dups Hi) Hp0) as Hd1.
  pose proof (unlink_active m co _ b c p (Q_next q) Hb Hc (iv_active Hi)) as Ha1.
  fold b in Hq1, Hp1. destruct (relink_q_fields m b c (Q_next q) _ eq_refl) as (HE1 & Hsc1 & HN1 & HM1 & Hct1 & Hk1 & _).
  pose proof (names_relink [p] m b c (Q_next q)) as Hna1. pose proof (calm_relink m b c (Q_next q)) as Hcm1. set (m1 := relink_q m b c (Q_next q)) in *. clearbody m1.
  destruct (update_duplicates_spec p _ _ (rm p (P ++ N)) [] (q_fuel m1) m1 (m_Questions m1) Hq1) as (m2 & Hrun & Hst & Hsh & Hd2).
  - done.
  - apply Hq1.
  - unfold q_fuel. pose proof (proj1 (qlists_fuel _ _ _ _ _ _ Hq1)). lia.
  - exists q. split; [done|]. apply Hok.
  - done.
  - by intros x c0 ?%elem_of_nil.
  - destruct (shape_at Hsh p q Hp1) as (q' & Hq' & Hal). destruct (qstep_fields _ _ Hst) as (HQ & HL & HN & HM & Hcm & Hsc & Hk).
    exists m2, q'. split; [done|]. split; [rewrite HQ, HL; by eapply qlists_shape|]. split; [done|].
    split. { destruct Hcm as (_ & HE & _). rewrite HE, HE1. by eapply active_ok_shape. }
    split_and!; try done; try congruence; try by etransitivity. apply (names_weaken ([p] ++ [])); [set_solver|]. eapply names_trans; [exact Hna1|by apply names_shape].
Qed.

(** The last part: the pointers into the list. *)
Definition stop_finish m p : outcome (mDNS * Z) :=
  let* q := get_q m p in
  let m := if m_CurrentQuestion m =? p then m <| m_CurrentQuestion := Q_next q |> else m in
  let m := if m_NewQuestions m =? p then m <| m_NewQuestions := Q_next q |> else m in
  let m := if m_NewLocalOnlyQuestions m =? p then m <| m_NewLocalOnlyQuestions := Q_next q |> else m in
  let* m := set_q m p (fun q => q <| Q_next := 0 |>) in
  let* q := get_q m p in
  if negb (Q_nta q =? 0) || negb (Q_tcp q =? 0) || negb (Q_LocalSocket q =? 0) ||
     negb (q_TargetQID (Q_q q) =? 0) && Q_LongLived q then Fault WideArea else
  Ret (m, mStatus_NoError).
Lemma stop_finish_spec m p q : m_qs m !! p = Some q → wide q →
  stop_finish m p = Ret (m <| m_CurrentQuestion := moved p (Q_next q) (m_CurrentQuestion m) |>
    <| m_NewQuestions := moved p (Q_next q) (m_NewQuestions m) |>
    <| m_NewLocalOnlyQuestions := moved p (Q_next q) (m_NewLocalOnlyQuestions m) |>
    <| m_qs := <[p := q <| Q_next := 0 |>]> (m_qs m) |>, mStatus_NoError).
Proof.
  intros Hp (HT & Hn & Ht & Hl & _). unfold stop_finish, moved. rewrite (get_q_at m p q Hp). cbn [obind].
  match goal with |- (let* m := set_q ?a _ _ in _) = Ret (?b, _) => set (m1 := a); set (m2 := b) end.
  assert (m1 = m <| m_CurrentQuestion := moved p (Q_next q) (m_CurrentQuestion m) |> <| m_NewQuestions := moved p (Q_next q) (m_NewQuestions m) |>
    <| m_NewLocalOnlyQuestions := moved p (Q_next q) (m_NewLocalOnlyQuestions m) |>) as Hm1.
  { unfold m1, moved. destruct (m_CurrentQuestion m =? p); struct_simpl; destruct (m_NewQuestions m =? p); struct_simpl;
      destruct (m_NewLocalOnlyQuestions m =? p); struct_simpl; clear; by destruct m. }
  assert (m_qs m1 !! p = Some q) as Hp1 by by rewrite Hm1. rewrite (set_q_at m1 p q _ Hp1). cbn [obind]. rewrite get_put_q. cbn [obind]. struct_simpl.
  rewrite HT, Hn, Ht, Hl. cbn [Z.eqb negb orb andb]. do 2 f_equal. unfold m2, put_q. rewrite Hm1. done.
Qed.

Lemma StopQuery_internal_spec t co m P N L M p q : inv t co 0 m P N L M → m_qs m !! p = Some q →
  ∃ m', mDNS_StopQuery_internal m p = Ret (m', mStatus_NoError) ∧ stopped t co p m P N L M q m'.
Proof.
  intros Hi Hp. destruct (inv_member _ _ _ _ _ _ _ _ _ Hi Hp) as (Hp0 & Hok & Hin).
  unfold mDNS_StopQuery_internal. rewrite (get_q_at m p q Hp). cbn [obind]. pose proof (qk_name _ Hok) as Hname.
  assert (HashSlot (q_qname (Q_q q)) = Ret (q_qnamehash (Q_q q) mod CACHE_HASH_SLOTS)) as ->.
  { destruct Hname as (? & _ & _ & Hh). unfold HashSlot. by rewrite Hh. }
  cbn [obind]. destruct (CacheGroupForName_spec t co m _ _ (iv_cache Hi) Hname) as (g & -> & Hg). cbn [obind]. rewrite question_list_base.
  destruct (find_link_list t co 0 m P N L M p (is_local q) Hi) as [[Hno _]|(c & d & Hx & ->)]; [done|]. cbn [obind].
  assert (is_base (base (is_local q))) as Hb by by destruct (is_local q).
  pose proof (list_chain t co 0 m P N L M (is_local q) Hi) as Hch. rewrite Hx in Hch. pose proof Hch as (k & Hc & -> & _)%lseg_app.
  rewrite (read_qtail m _ c p Hb Hc). cbn [obind]. rewrite (proj2 (Z.eqb_neq p 0)) by done.
  rewrite (write_qtail m _ c p _ Hb Hc). cbn [obind].
  destruct (stop_unlink t co m P N L M p q c d Hi Hp Hx)
    as (m2 & q2 & -> & Hq2 & Hd2 & Ha2 & Hp2 & Hal2 & Hcm2 & Hsc2 & HN2 & HM2 & Hk2 & Hna2). cbn [obind].
  rewrite (set_q_at m2 p q2 _ Hp2). cbn [obind]. set (q3 := q2 <| Q_ThisQInterval := -1 |>).
  assert (alike q q3) as Hal3 by (destruct Hal2; by split). set (m3 := put_q m2 p q3).
  assert (same_cache m m3) as Hsc3 by (destruct Hsc2; by split).
  pose proof (qlists_set_out Hq2 q2 q3 Hp2 eq_refl) as Hq3. change (qlists p (m_qs m3) (m_Questions m3) (m_LocalOnlyQuestions m3) (rm p (P ++ N)) (rm p (L ++ M))) in Hq3.
  pose proof (same_cache_wf t co m m3 (iv_cache Hi) Hsc3) as Hw3.
  assert (active_ok p co (m_ents m3) (m_qs m3) (rm p (P ++ N))) as Ha3 by by apply (active_ok_set p co _ _ _ p q2).
  assert (dups_ok 0 (m_qs m3) (rm p (P ++ N))) as Hd3 by by apply (dups_ok_set 0 _ _ p q2); [| |left].
  assert (m_qs m3 !! p = Some q3) as Hp3 by (unfold m3; rewrite put_q_qs; apply lookup_insert_eq).
  assert (m_ents m3 = m_ents m) as HE3 by apply Hcm2.
  assert (finds m3 co (q_qname (Q_q q)) g) as Hg3 by (unfold finds; by rewrite HE3).
  assert (m_rrcache_active m3 = count is_active (m_ents m3)) as Hct3 by (rewrite HE3; destruct Hcm2 as (_ & _ & Hx3 & _); change (m_rrcache_active m3) with (m_rrcache_active m2); rewrite Hx3; apply Hi).
  assert (calm m m3) as Hcm3 by by transitivity m2.
  assert (same_names [p] (m_qs m) (m_qs m3)) as Hna3.
  { apply (names_weaken ([p] ++ [p])); [set_solver|]. eapply names_trans; [exact Hna2|]. apply names_insert. }
  assert (m_NewQuestions m3 = m_NewQuestions m ∧ m_NewLocalOnlyQuestions m3 = m_NewLocalOnlyQuestions m ∧ m_AuthInfoList m3 = m_AuthInfoList m)
    as (HN3 & HM3 & Hk3) by by split_and!.
  clearbody m3. destruct (members_of_spec t co m3 _ g Hw3 Hg3) as (rs & h & -> & Hrs & Hrin). cbn [obind].
  destruct (retarget_loop_spec t co p _ _ rs (list_fuel m3) m3 h Hw3 Hq3 Hct3 Hp0 Hrs) as (m4 & -> & Hst4 & Hsc4 & Hct4 & Hres4).
  { intros r Hr. destruct (lseg_next _ _ _ _ _ Hrs Hr) as [_ [n Hn]]. apply rec_next_Some in Hn as (cr & Hcr & _). by apply (Hrin r cr Hcr) in Hr as []. }
  { by intros [_ ?]%elem_of_rm. }
  { by eapply wf_fuel. }
  cbn [obind]. fold (stop_finish m4 p).
  assert (m_qs m4 = m_qs m3) as HQ4 by (unfold rstep in Hst4; by rewrite Hst4).
  rewrite (stop_finish_spec m4 p q3) by (rewrite ?HQ4; done || apply Hal3, Hok).
  match goal with |- context [Ret (?x, _) = _] => set (m5 := x) end. exists m5. split; [done|].
  destruct (retarget_active t co p _ _ m3 m4 _ g rs Hw3 Ha3 Hq3 ltac:(exists q3; split; [done|apply Hal3]) Hg3 Hrin Hsc4 Hst4 Hp0 Hres4) as [Ha4 Hon].
  assert (m_Questions m4 = m_Questions m3 ∧ m_LocalOnlyQuestions m4 = m_LocalOnlyQuestions m3 ∧ m_NewQuestions m4 = m_NewQuestions m ∧
    m_NewLocalOnlyQuestions m4 = m_NewLocalOnlyQuestions m ∧ m_AuthInfoList m4 = m_AuthInfoList m ∧ rest m4 = rest m ∧
    m_CurrentQuestion m4 = m_CurrentQuestion m) as (HQs4 & HLs4 & HN4 & HM4 & Hk4 & Hr4 & Hc4).
  { destruct Hcm3 as (Hr3 & _ & _ & Hc3). unfold rstep in Hst4. rewrite <- HN3, <- HM3, <- Hk3, <- Hr3, <- Hc3. rewrite Hst4. by split_and!. }
  destruct (moved_new t co m P N L M p q Hi Hp) as [Hmn Hml]. pose proof (al_next _ _ Hal3) as Hnx.
  apply (stopped_ok t co p m P N L M q m5 (q3 <| Q_next := 0 |>)).
  - exact Hr4.
  - transitivity m3; [done|]. transitivity m4; [done|]. by split.
  - intros r cr' Hr. destruct (Hon r cr' Hr) as (cr & x & Hr0 & ?). exists cr, x. by rewrite HE3 in Hr0.
  - unfold m5. split; struct_simpl.
    + apply (same_cache_wf t co m4); [by eapply same_cache_wf|by split].
    + rewrite <- !rm_app, HQs4, HLs4, HQ4. by apply (qlists_set_out Hq3 q3).
    + by rewrite HN4, Hnx.
    + by rewrite HM4, Hnx.
    + rewrite <- rm_app, HQ4. by apply (dups_ok_set 0 _ _ p q3); [| |left].
    + rewrite <- rm_app, HQ4. rewrite HQ4 in Ha4. by apply (active_ok_set 0 co _ _ _ p q3).
    + done.
    + rewrite Hk4. apply Hi.
  - unfold m5. struct_simpl. by rewrite lookup_insert_eq.
  - unfold q_mem. struct_simpl. rewrite (proj1 (al_name _ _ Hal3)). apply Hok.
  - apply (al_local _ _ Hal3).
  - unfold m5. struct_simpl. rewrite HQ4. apply (names_weaken ([p] ++ [p])); [set_solver|]. eapply names_trans; [exact Hna3|]. apply names_insert.
  - unfold m5. struct_simpl. by rewrite Hc4, Hnx.
Qed.
End Stop.
