(* ===== verification/MDNSClient.v ===== *)
(** What a client callback may do, and that whatever it does the invariant
    holds and the walk over the question list keeps its place.

    A callback starts and stops questions.  [ClientOk] is the contract: a
    question it starts has the memory of a question, and if it starts the
    question it is called for again, at the same address, then it stops no
    question after that (the walk would take the new question for the old
    one if it stopped all the questions between them). *)
From S2P Require Import Prelude Bytes DNSTypes DNSName DNSRecord DNSMessage MDNSTypes MDNSCache MDNSQuestion MDNSList MDNSInv MDNSPool MDNSRecycle MDNSGet MDNSQInv MDNSStart MDNSStop.

Implicit Types (m : mDNS) (p r t co qo h : Z) (l P N L M S A X Y : list Z) (q : Question) (c : client_call) (cs : list client_call).

Definition call_ok c : Prop := match c with StartQuery p q => q_mem q | StopQuery p => True end.
Definition no_stop c : bool := match c with StopQuery _ => false | StartQuery _ _ => true end.
Definition is_stop c : bool := negb (no_stop c).
Fixpoint well_behaved p cs : bool :=
  match cs with
  | [] => true
  | StartQuery x _ :: cs => if x =? p then forallb no_stop cs else well_behaved p cs
  | StopQuery _ :: cs => well_behaved p cs
  end.
Class ClientOk `{Platform} : Prop :=
  callback_ok : ∀ p rr a m, Forall call_ok (QuestionCallback p rr a m) ∧ well_behaved p (QuestionCallback p rr a m) = true.

(** ** A place in a question list: [X] is what is left before [Y] *)
Definition cursor (x : Z) X Y : Prop := x = hd 0 (X ++ Y) ∨ X = [] ∧ x = 0.
Definition without S l : list Z := filter (fun x => x ∉ S) l.
Lemma without_nil l : without [] l = l.
Proof. induction l as [|x l IH]; [done|]. unfold without in *. rewrite filter_cons_True, IH by apply not_elem_of_nil. done. Qed.
Lemma without_rm p S l : without S (rm p l) = without (p :: S) l.
Proof. unfold without, rm. rewrite list_filter_filter. apply list_filter_iff. intros x. rewrite not_elem_of_cons. naive_solver. Qed.
Lemma elem_of_without x S l : x ∈ without S l ↔ x ∈ l ∧ x ∉ S.
Proof. unfold without. rewrite list_elem_of_filter. tauto. Qed.
Lemma without_app S a b : without S (a ++ b) = without S a ++ without S b.
Proof. apply filter_app. Qed.
Lemma without_comp S S' l : without S' (without S l) = without (S ++ S') l.
Proof. unfold without. rewrite list_filter_filter. apply list_filter_iff. intros x. rewrite not_elem_of_app. naive_solver. Qed.

Lemma cursor_stop p (n : Z) A X Y x : p ≠ 0 → NoDup (A ++ X ++ Y) → (∀ a b, A ++ X ++ Y = a ++ p :: b → n = hd 0 b) →
  cursor x X Y → cursor (moved p n x) (rm p X) (rm p Y).
Proof.
  intros Hp Hnd Hn Hc. unfold moved. destruct (Z.eqb_spec x p) as [->|Hne].
  - destruct Hc as [Hc|[_ ?]]; [|done]. destruct (X ++ Y) as [|y XY] eqn:Hxy; simpl in Hc; [done|subst y].
    left. rewrite <- rm_app, Hxy. apply NoDup_app in Hnd as (_ & _ & [Hy _]%NoDup_cons). unfold rm. rewrite filter_cons_False by naive_solver.
    fold (rm p XY). rewrite rm_notin by done. by apply (Hn A).
  - destruct Hc as [Hc|[-> ?]]; [|by right]. left. rewrite <- rm_app. destruct (X ++ Y) as [|y XY]; simpl in Hc; [done|subst y].
    unfold rm. by rewrite filter_cons_True.
Qed.
Lemma cursor_start p X Y x : cursor x X Y → cursor x X (Y ++ [p]).
Proof.
  intros [Hc|Hc]; [|by right]. destruct X as [|y X]; simpl in *; [|by left]. destruct Y as [|y Y]; simpl in *; [by right|by left].
Qed.
Lemma cursor_in x X Y : cursor x X Y → x = 0 ∨ x ∈ X ++ Y.
Proof. intros [Hc|[_ ?]]; [|by left]. destruct (X ++ Y) as [|y XY]; simpl in Hc; [by left|right]. subst. apply list_elem_of_here. Qed.

(** The walk stands on a question that was not stopped. *)
Definition here m l : Prop := m_CurrentQuestion m = 0 ∨ m_CurrentQuestion m ∈ l.
Lemma here_stop p (n : Z) l x : p ≠ 0 → NoDup l → (∀ a b, l = a ++ p :: b → n = hd 0 b) → x = 0 ∨ x ∈ l → moved p n x = 0 ∨ moved p n x ∈ rm p l.
Proof.
  intros Hp Hnd Hn Hx. unfold moved. destruct (Z.eqb_spec x p) as [->|Hne]; [|destruct Hx as [|Hx]; [by left|right; by apply elem_of_rm]].
  destruct Hx as [?|(a & b & ->)%list_elem_of_split]; [done|].
  rewrite (Hn a b eq_refl). apply NoDup_app in Hnd as (_ & _ & [Hpb _]%NoDup_cons). destruct b as [|y b]; [by left|right].
  simpl. apply elem_of_rm. split; [set_solver|]. intros ->. apply Hpb, list_elem_of_here.
Qed.

(** ** Inside a callback *)
Record in_callback m : Prop := {
  cb_busy : m_busy m = m_reentrancy m;
  cb_depth : 1 ≤ m_reentrancy m ≤ 0x7FFFFFFF;
  cb_time : m_timenow m ≠ 0 ∧ m_timenow_last m = m_timenow m
}.
Definition hold m : mDNS := m <| m_busy := m_busy m + 1 |>.
Definition unhold m : mDNS := m <| m_busy := m_busy m - 1 |>.

(** What calls of the client, in a callback, do to the state: the questions
    [S] have been stopped, and new ones are in [N'] and [M']. *)
Record evolves t co m P N L M S m' N' M' : Prop := {
  ev_rest : rest m' = rest m;
  ev_cache : same_cache m m';
  ev_only : only_active co m m';
  ev_inv : inv t co 0 m' (without S P) N' (without S L) M';
  ev_cur : ∀ A X, P = A ++ X → cursor (m_CurrentQuestion m) X N → cursor (m_CurrentQuestion m') (without S X) N';
  ev_curl : ∀ A X, L = A ++ X → cursor (m_CurrentQuestion m) X M → cursor (m_CurrentQuestion m') (without S X) M';
  ev_names : same_names S (m_qs m) (m_qs m');
  ev_here : here m (P ++ N) → here m' (without S P ++ N')
}.

Lemma evolves_refl t co m P N L M m' : inv t co 0 m' P N L M → calm m m' → same_cache m m' → same_names [] (m_qs m) (m_qs m') → evolves t co m P N L M [] m' N M.
Proof.
  intros Hi (Hr & HE & Ha & Hc) Hsc Hna. split; rewrite ?without_nil; try done.
  - intros r cr Hx. rewrite HE in Hx. exists cr, (cr_CRActiveQuestion cr). split_and!; try done. by destruct cr.
  - intros A X -> Hcur. by rewrite without_nil, Hc.
  - intros A X -> Hcur. by rewrite without_nil, Hc.
  - unfold here. by rewrite Hc.
Qed.
Lemma evolves_trans t co m P N L M S m1 N1 M1 S' m2 N2 M2 : evolves t co m P N L M S m1 N1 M1 →
  evolves t co m1 (without S P) N1 (without S L) M1 S' m2 N2 M2 → evolves t co m P N L M (S ++ S') m2 N2 M2.
Proof.
  intros [Hr Hc Ho Hi Hcu Hcl Hna Hh] [Hr' Hc' Ho' Hi' Hcu' Hcl' Hna' Hh']. split.
  - by rewrite Hr'.
  - by transitivity m1.
  - by eapply only_active_trans.
  - by rewrite <- !without_comp.
  - intros A X HP Hx. rewrite <- without_comp. apply (Hcu' (without S A)); [by rewrite HP, without_app|by eapply Hcu].
  - intros A X HP Hx. rewrite <- without_comp. apply (Hcl' (without S A)); [by rewrite HP, without_app|by eapply Hcl].
  - by eapply names_trans.
  - rewrite <- without_comp. by intros Hx%Hh%Hh'.
Qed.
Lemma rest_busy m m' : rest m' = rest m → m_busy m' = m_busy m ∧ m_reentrancy m' = m_reentrancy m ∧ m_timenow m' = m_timenow m ∧
  m_timenow_last m' = m_timenow_last m ∧ m_lock_rrcache m' = m_lock_rrcache m ∧ m_rec m' = m_rec m ∧ m_rrcache_size m' = m_rrcache_size m ∧
  m_NextCacheCheck m' = m_NextCacheCheck m.
Proof.
  intros Hr. assert (∀ {T} (f : mDNS → T), f (rest m') = f (rest m)) as F by by intros; rewrite Hr.
  exact (conj (F _ m_busy) (conj (F _ m_reentrancy) (conj (F _ m_timenow) (conj (F _ m_timenow_last) (conj (F _ m_lock_rrcache)
    (conj (F _ m_rec) (conj (F _ m_rrcache_size) (F _ m_NextCacheCheck)))))))).
Qed.
Lemma in_callback_rest m m' : rest m' = rest m → in_callback m → in_callback m'.
Proof. intros (Hb & Hr & Ht & Hl & _)%rest_busy []. split; rewrite ?Hb, ?Hr, ?Ht, ?Hl; done. Qed.

Section Client.
Context `{Platform}.

Lemma lock_in m : in_callback m → mDNS_Lock m = hold m.
Proof.
  intros [Hb Hd [Ht Hl]]. unfold mDNS_Lock, log_if, hold. rewrite Hb, Z.eqb_refl. cbn [negb].
  rewrite Hb, (proj2 (Z.eqb_neq (m_reentrancy m) 0)), (proj2 (Z.eqb_neq (m_timenow m) 0)) by lia.
  rewrite Hl, Z.sub_diag. change (0 <? s32 0) with false. cbn beta iota zeta. struct_simpl. rewrite Hb, (u32_id (m_reentrancy m + 1)) by lia.
  rewrite <- Hl. by destruct m.
Qed.
Lemma unlock_in m : in_callback (unhold m) → mDNS_Unlock m = Ret (unhold m).
Proof.
  intros [Hb Hd _]. unfold unhold in Hb, Hd. struct_simpl in Hb. struct_simpl in Hd. unfold mDNS_Unlock, log_if. struct_simpl.
  rewrite (u32_id (m_busy m - 1)) by lia. rewrite (proj2 (Z.eqb_neq (m_busy m - 1) 0)) by lia. cbn [obind]. struct_simpl.
  rewrite Hb, Z.eqb_refl. cbn [negb]. unfold unhold. by rewrite Hb.
Qed.
Lemma inv_hold t co qo m P N L M : inv t co qo m P N L M → inv t co qo (hold m) P N L M.
Proof. intros []. split; try done. by apply (same_cache_wf t co m). Qed.
Lemma inv_unhold t co qo m P N L M : inv t co qo m P N L M → inv t co qo (unhold m) P N L M.
Proof. intros []. split; try done. by apply (same_cache_wf t co m). Qed.
Lemma rest_unhold m m' : rest m' = rest (hold m) → rest (unhold m') = rest m.
Proof.
  intros Hr. pose proof (f_equal m_busy Hr) as Hb. change (m_busy m' = m_busy m + 1) in Hb.
  transitivity ((rest m') <| m_busy := m_busy m' - 1 |>); [done|]. rewrite Hr, Hb. replace (m_busy m + 1 - 1) with (m_busy m) by lia. clear. destruct m. reflexivity.
Qed.
Lemma in_callback_unhold m m' : in_callback m → rest m' = rest (hold m) → in_callback (unhold m').
Proof. intros Hcb Hr. apply (in_callback_rest m); [by apply rest_unhold|done]. Qed.

(** ** Memory given and taken *)
Lemma inv_add t co m P N L M p q : inv t co 0 m P N L M → m_qs m !! p = None → p ≠ 0 → inv t co p (put_q m p q) P N L M.
Proof.
  intros [Hc Hq Hn Hnl Hd Ha Hct Hk] Hp Hp0.
  assert (p ∉ P ++ N) as HpP by (intros Hx; destruct (qlists_at Hq p Hx) as (? & ? & _); congruence).
  assert (p ∉ L ++ M) as HpL by (intros Hx; destruct (qlists_local_at Hq p Hx) as (? & ? & _); congruence).
  assert (∀ x, x ≠ p → qnx (<[p := q]> (m_qs m)) x = qnx (m_qs m) x) as Hnx by (intros x Hx; unfold qnx; by rewrite lookup_insert_ne).
  split; unfold put_q; struct_simpl; try done.
  - by apply (same_cache_wf t co m).
  - split.
    + apply (lseg_ext (qnx (m_qs m))); [|apply Hq]. intros x Hx. apply Hnx. by intros ->.
    + apply (lseg_ext (qnx (m_qs m))); [|apply Hq]. intros x Hx. apply Hnx. by intros ->.
    + intros x c [[<- <-]|[Hne Hx]]%lookup_insert_Some; [naive_solver|]. assert (x ≠ 0) by (intros ->; by rewrite (ql_pos Hq) in Hx).
      destruct (ql_in Hq x c Hx). naive_solver.
    + intros x c [[<- <-]|[Hne Hx]]%lookup_insert_Some Hxp; [done|]. apply (ql_ok Hq x c Hx). intros ->. by rewrite (ql_pos Hq) in Hx.
    + rewrite lookup_insert_ne by done. apply Hq.
  - intros x c [[<- <-]|[_ Hx]]%lookup_insert_Some Hin; [done|by eapply Hd].
  - intros r cr Hr Hco Hact. destruct (Ha r cr Hr Hco Hact) as [(q0 & cg & Hq0 & ?) Hl]. split; [|done]. exists q0, cg.
    rewrite lookup_insert_ne; [done|]. intros Heq. rewrite <- Heq in Hq0. congruence.
Qed.
Lemma inv_delete t co m P N L M p : inv t co p m P N L M → p ≠ 0 → inv t co 0 (m <| m_qs := delete p (m_qs m) |>) P N L M.
Proof.
  intros [Hc Hq Hn Hnl Hd Ha Hct Hk] Hp0. destruct (qlists_out Hq) as [Hpl HpL].
  assert (∀ x, x ≠ p → qnx (delete p (m_qs m)) x = qnx (m_qs m) x) as Hnx by (intros x Hx; unfold qnx; by rewrite lookup_delete_ne).
  split; struct_simpl; try done.
  - by apply (same_cache_wf t co m).
  - split.
    + apply (lseg_ext (qnx (m_qs m))); [|apply Hq]. intros x Hx. apply Hnx. by intros ->.
    + apply (lseg_ext (qnx (m_qs m))); [|apply Hq]. intros x Hx. apply Hnx. by intros ->.
    + intros x c [Hne Hx]%lookup_delete_Some. assert (x ≠ 0) by (intros ->; by rewrite (ql_pos Hq) in Hx). destruct (ql_in Hq x c Hx). naive_solver.
    + intros x c [Hne Hx]%lookup_delete_Some _. by apply (ql_ok Hq x c Hx).
    + rewrite lookup_delete_ne by done. apply Hq.
  - intros x c [Hne Hx]%lookup_delete_Some Hin. by apply (Hd x c).
  - intros r cr Hr Hco Hact. destruct (Ha r cr Hr Hco Hact) as [(q0 & cg & Hq0 & ?) Hl]. split; [|done]. exists q0, cg.
    rewrite lookup_delete_ne; [done|]. intros Heq. destruct Hl as [Hl|Hl]; congruence.
Qed.
Lemma inv_dom t co m P N L M p : inv t co 0 m P N L M → is_Some (m_qs m !! p) ↔ p ∈ P ++ N ∨ p ∈ L ++ M.
Proof.
  intros Hi. split.
  - intros [q Hq]. destruct (inv_member _ _ _ _ _ _ _ _ _ Hi Hq) as (_ & _ & Hin). destruct (is_local q); tauto.
  - intros [Hp|Hp]; [destruct (qlists_at (iv_q Hi) p Hp) as (q & Hq & _)|destruct (qlists_local_at (iv_q Hi) p Hp) as (q & Hq & _)]; by eauto.
Qed.

(** ** One call *)
Lemma StartQuery_again t co m P N L M p q : inv t co 0 m P N L M → m_qs m !! p = Some q →
  ∃ m' st, mDNS_StartQuery_internal m p = Ret (m', st) ∧ calm m m' ∧ same_cache m m' ∧ inv t co 0 m' P N L M ∧ same_names [] (m_qs m) (m_qs m') ∧
    st = (if m_rrcache_size m =? 0 then mStatus_NoCache else mStatus_AlreadyRegistered).
Proof.
  intros Hi Hp. unfold mDNS_StartQuery_internal. rewrite (set_q_at m p q _ Hp). cbn [obind].
  destruct (clear_target_alike q) as [Hal Hdp]. set (q1 := clear_target q) in *. clearbody q1.
  pose proof (inv_put_q t co 0 m P N L M p q q1 Hi Hp Hal ltac:(by left)) as Hi1. set (m1 := put_q m p q1) in *.
  assert (same_names [] (m_qs m) (m_qs m1)) as Hna1 by by apply names_shape, (shape_insert _ p q q1).
  assert (calm m m1 ∧ same_cache m m1) as [Hc1 Hs1] by done. assert (m_qs m1 !! p = Some q1) as Hp1 by (unfold m1; rewrite put_q_qs; apply lookup_insert_eq).
  rewrite (sc_size _ _ Hs1). clearbody m1. destruct (m_rrcache_size m =? 0); [by eexists _, _|]. rewrite (get_q_at m1 p q1 Hp1). cbn [obind].
  destruct (inv_member _ _ _ _ _ _ _ _ _ Hi1 Hp1) as (Hp0 & Hok & Hin). destruct (qk_name _ Hok) as (ls & Hls & Hd & _).
  rewrite (DomainNameLength_name _ ls Hls Hd). cbn [obind]. rewrite (proj2 (Z.leb_le _ _)) by apply Hls. cbn [negb]. rewrite question_list_base.
  destruct (find_link_list t co 0 m1 P N L M p (is_local q1) Hi1) as [[Hno _]|(c & d & Hx & ->)]; [done|]. cbn [obind].
  assert (is_base (base (is_local q1))) as Hb by by destruct (is_local q1).
  pose proof (list_chain t co 0 m1 P N L M (is_local q1) Hi1) as Hch. rewrite Hx in Hch. pose proof Hch as (k & Hc & -> & _)%lseg_app.
  rewrite (read_qtail m1 _ c p Hb Hc). cbn [obind]. rewrite (proj2 (Z.eqb_neq p 0)) by done. cbn [negb]. eexists _, _. split; [done|].
  split; [by transitivity m1|]. split; [by transitivity m1|]. split; [|by split]. destruct Hi1. split; try done. by apply (same_cache_wf t co m1).
Qed.

(** The questions [S] were stopped and none was started: the walk is where it
    was among the questions that are left. *)
Definition stops_only m P N S m' N' : Prop :=
  N' = without S N ∧ ∀ A X, P ++ N = A ++ X → m_CurrentQuestion m = hd 0 X → m_CurrentQuestion m' = hd 0 (without S X).
Lemma stops_refl m m' P N : m_CurrentQuestion m' = m_CurrentQuestion m → stops_only m P N [] m' N.
Proof. intros Hc. split; [by rewrite without_nil|]. intros A X _. by rewrite without_nil, Hc. Qed.
Lemma stops_trans m P N S m1 N1 S' m2 N2 : stops_only m P N S m1 N1 → stops_only m1 (without S P) N1 S' m2 N2 → stops_only m P N (S ++ S') m2 N2.
Proof.
  intros [-> H1] [-> H2]. split; [apply without_comp|]. intros A X HP Hc. rewrite <- without_comp. apply (H2 (without S A)); [|by eapply H1].
  by rewrite <- !without_app, HP.
Qed.

(** The new questions and the memory in use after one call. *)
Definition call_effect m P N M c m' S N' M' : Prop :=
  match c with
  | StartQuery x _ => S = [] ∧ m_CurrentQuestion m' = m_CurrentQuestion m ∧
      (∀ y, y ∈ N' ++ M' → y = x ∨ y ∈ N ++ M) ∧ (∀ y, is_Some (m_qs m' !! y) → y = x ∨ is_Some (m_qs m !! y))
  | StopQuery x => (∀ y, y ∈ S → y = x ∧ m_qs m' !! x = None) ∧ (∀ y, y ∈ N' ++ M' → y ∈ N ++ M) ∧ (∀ y, is_Some (m_qs m' !! y) → is_Some (m_qs m !! y)) ∧
      stops_only m P N S m' N'
  end.

Lemma run_stop t co m P N L M p : in_callback m → inv t co 0 m P N L M →
  ∃ m' S N' M', run_call m (StopQuery p) = Ret m' ∧ evolves t co m P N L M S m' N' M' ∧ call_effect m P N M (StopQuery p) m' S N' M'.
Proof.
  intros Hcb Hi. cbn [run_call call_effect]. destruct (m_qs m !! p) as [q|] eqn:Hp.
  2: { exists m, [], N, M. split; [done|]. split; [by apply evolves_refl; [| | |apply names_refl]|]. split; [by intros y ?%elem_of_nil|]. split_and!; try done. by apply stops_refl. }
  unfold mDNS_StopQuery. rewrite (lock_in m Hcb).
  destruct (StopQuery_internal_spec t co (hold m) P N L M p q (inv_hold _ _ _ _ _ _ _ _ Hi) Hp) as (m1 & -> & Hst). cbn [obind].
  destruct Hst as [m1 q' Hr Hsc Hon Hi1 Hp1 _ _ Hna1 Hcur]. rewrite (unlock_in m1) by by apply (in_callback_unhold m). cbn [obind Z.eqb].
  set (m2 := (unhold m1) <| m_qs := delete p (m_qs (unhold m1)) |>). destruct (inv_member _ _ _ _ _ _ _ _ _ Hi Hp) as (Hp0 & _ & _).
  assert (∀ l, without [p] l = rm p l) as Hw by (intros l; rewrite <- without_rm; apply without_nil).
  assert (∀ A X, P = A ++ X → cursor (m_CurrentQuestion m) X N → cursor (m_CurrentQuestion m1) (rm p X) (rm p N)) as Hc1.
  { intros A X HP Hx. rewrite Hcur. apply (cursor_stop p _ A); [done| | |done].
    - rewrite app_assoc, <- HP. apply (chain_NoDup _ _ _ (ql_chain (iv_q Hi))).
    - intros a b Hab. rewrite app_assoc, <- HP in Hab. apply (next_of_list t co 0 m P N L M p q a b Hi Hp).
      pose proof (ql_in (iv_q Hi) p q Hp) as [Hq1 _]. rewrite Hab in Hq1 |- *. destruct (is_local q); [|done].
      destruct Hq1 as [Hq1 _]. destruct Hq1 as [_ ?]; [set_solver|done]. }
  assert (∀ A X, L = A ++ X → cursor (m_CurrentQuestion m) X M → cursor (m_CurrentQuestion m1) (rm p X) (rm p M)) as Hc2.
  { intros A X HP Hx. rewrite Hcur. apply (cursor_stop p _ A); [done| | |done].
    - rewrite app_assoc, <- HP. apply (chain_NoDup _ _ _ (ql_local (iv_q Hi))).
    - intros a b Hab. rewrite app_assoc, <- HP in Hab. apply (next_of_list t co 0 m P N L M p q a b Hi Hp).
      pose proof (ql_in (iv_q Hi) p q Hp) as [_ Hq1]. rewrite Hab in Hq1 |- *. destruct (is_local q); [done|].
      destruct Hq1 as [Hq1 _]. destruct Hq1 as [_ ?]; [set_solver|done]. }
  assert (here m (P ++ N) → here m1 (rm p (P ++ N))) as Hc3.
  { intros Hx. unfold here. rewrite Hcur. apply here_stop; [done|apply (chain_NoDup _ _ _ (ql_chain (iv_q Hi)))| |done].
    intros a b Hab. apply (next_of_list t co 0 m P N L M p q a b Hi Hp).
    pose proof (ql_in (iv_q Hi) p q Hp) as [Hq1 _]. destruct (is_local q); [|done]. rewrite Hab in Hq1. destruct (proj1 Hq1); [set_solver|done]. }
  assert (stops_only m P N [p] m2 (rm p N)) as Hso.
  { split; [by rewrite Hw|]. intros A X HP Hx. rewrite Hw. pose proof (chain_NoDup _ _ _ (ql_chain (iv_q Hi))) as Hnd. rewrite HP in Hnd.
    destruct (cursor_stop p (Q_next q) A X [] (m_CurrentQuestion m)) as [Hz|[Hz1 Hz2]]; rewrite ?app_nil_r; try done.
    - intros a b Hab. apply (next_of_list t co 0 m P N L M p q a b Hi Hp). rewrite <- Hab, <- HP. destruct (ql_in (iv_q Hi) p q Hp) as [Hq1 _].
      destruct (is_local q); [|done]. destruct (proj1 Hq1); [rewrite HP, Hab; set_solver|done].
    - left. by rewrite app_nil_r.
    - cbn in Hz. rewrite app_nil_r in Hz. rewrite <- Hz. exact Hcur.
    - rewrite Hz1. rewrite <- Hz2. exact Hcur. }
  exists m2, [p], (rm p N), (rm p M). split; [done|]. split.
  - split; rewrite ?Hw; try done.
    + by rewrite <- (rest_unhold m m1 Hr).
    + transitivity (hold m); [by split|]. transitivity m1; [done|by split].
    + apply (inv_delete t co (unhold m1)); [by apply inv_unhold|done].
    + intros A X HP Hx. rewrite Hw. by apply (Hc1 A).
    + intros A X HP Hx. rewrite Hw. by apply (Hc2 A).
    + apply (names_weaken ([p] ++ [p])); [set_solver|]. eapply names_trans; [exact Hna1|apply names_delete].
    + by rewrite <- rm_app.
  - split; [intros y ->%list_elem_of_singleton; split; [done|]; apply lookup_delete_eq|]. split; [|split; [|done]].
    + intros y. rewrite !elem_of_app, !elem_of_rm. tauto.
    + intros y Hy. unfold m2 in Hy. struct_simpl in Hy. rewrite lookup_delete_is_Some in Hy. destruct Hy as [Hne Hy].
      apply (inv_dom t co m P N L M y Hi). assert (y ∈ rm p P ++ rm p N ∨ y ∈ rm p L ++ rm p M) as Hyy.
      { destruct Hy as [c Hy]. destruct (ql_in (iv_q Hi1) y c Hy) as [H1 H2]. destruct (is_local c); naive_solver. }
      rewrite <- !rm_app, !elem_of_rm in Hyy. tauto.
Qed.

Lemma run_start t co m P N L M p q : in_callback m → inv t co 0 m P N L M → q_mem q →
  ∃ m' S N' M', run_call m (StartQuery p q) = Ret m' ∧ evolves t co m P N L M S m' N' M' ∧ call_effect m P N M (StartQuery p q) m' S N' M'.
Proof.
  intros Hcb Hi Hmem. cbn [run_call call_effect]. destruct (Z.eqb_spec p 0) as [->|Hp0].
  { exists m, [], N, M. split; [done|]. split; [by apply evolves_refl; [| | |apply names_refl]|]. split_and!; try done; by right. }
  destruct (m_qs m !! p) as [q0|] eqn:Hp; unfold mDNS_StartQuery.
  - rewrite (lock_in m Hcb). destruct (StartQuery_again t co (hold m) P N L M p q0 (inv_hold _ _ _ _ _ _ _ _ Hi) Hp) as (m1 & st & -> & Hcm & Hsc & Hi1 & Hna1 & _).
    cbn [obind]. rewrite (unlock_in m1) by (apply (in_callback_unhold m); [done|apply Hcm]). cbn [obind].
    assert (inv t co 0 (unhold m1) P N L M) as Hi2 by by apply inv_unhold.
    exists (unhold m1), [], N, M. split; [done|]. split.
    + apply evolves_refl; [done| | |done].
      * destruct Hcm as (Hr & HE & Ha & Hc). split_and!; try done. by apply rest_unhold.
      * transitivity (hold m); [by split|]. transitivity m1; [done|by split].
    + split_and!; [done|apply Hcm|by right|]. intros y Hy. right. apply (inv_dom _ _ _ _ _ _ _ _ Hi2) in Hy. by apply (inv_dom _ _ _ _ _ _ _ _ Hi).
  - pose proof (inv_add t co m P N L M p q Hi Hp Hp0) as Hia. set (m0 := put_q m p q) in *.
    assert (in_callback m0) as Hcb0 by by apply (in_callback_rest m). rewrite (lock_in m0 Hcb0).
    assert (m_qs (hold m0) !! p = Some q) as Hpa by apply lookup_insert_eq.
    destruct (StartQuery_internal_spec t co (hold m0) P N L M p q (inv_hold _ _ _ _ _ _ _ _ Hia) Hpa Hmem) as (m1 & st & -> & Hcm & Hna1 & Hres).
    assert (∀ Q', (∀ x, x ≠ p → Q' !! x = m_qs m1 !! x) → same_names [] (m_qs m) Q') as Hna.
    { intros Q' HQ' x c _ Hx. assert (x ≠ p) as Hne by congruence. rewrite HQ' by done. apply Hna1; [by intros ->%list_elem_of_singleton|].
      change (m_qs (hold m0) !! x) with (<[p := q]> (m_qs m) !! x). by rewrite lookup_insert_ne. }
    cbn [obind]. rewrite (unlock_in m1) by (apply (in_callback_unhold m0); [done|apply Hcm]). cbn [obind].
    assert (calm m (unhold m1)) as Hcm1.
    { destruct Hcm as (Hr & HE & Ha & Hc). split_and!; try done. by rewrite (rest_unhold m0 m1 Hr). }
    assert (∀ x, same_cache m ((unhold m1) <| m_qs := x |>)) as Hsc1.
    { intros x. destruct Hcm1 as (Hr & HE & _). assert (∀ {T} (f : mDNS → T), f (rest (unhold m1)) = f (rest m)) as F by by intros; rewrite Hr.
      split; try done; [exact (F _ m_rrcache_hash)|exact (F _ m_rrcache_free)|exact (F _ m_rrcache_size)|exact (F _ m_rrcache_totalused)|exact (F _ m_blocks)|].
      struct_simpl. by rewrite HE. }
    destruct Hres as [(-> & Hst & _)|(Hne & Hi1 & _)].
    + cbn [Z.eqb mStatus_NoError]. change (mStatus_NoError =? mStatus_NoError) with true. cbn beta iota.
      assert (∃ N' M', inv t co 0 (unhold m1) P N' L M' ∧ (∀ y, y ∈ N' ++ M' → y = p ∨ y ∈ N ++ M) ∧
        (N' = N ∨ N' = N ++ [p]) ∧ (M' = M ∨ M' = M ++ [p])) as (N' & M' & Hi2 & Hin & HN' & HM').
      { unfold started in Hst. destruct (is_local q).
        - exists N, (M ++ [p]). split; [by apply inv_unhold|]. split; [intros y; rewrite !elem_of_app, list_elem_of_singleton; tauto|]. auto.
        - exists (N ++ [p]), M. split; [by apply inv_unhold|]. split; [intros y; rewrite !elem_of_app, list_elem_of_singleton; tauto|]. auto. }
      exists (unhold m1), [], N', M'. split; [done|]. destruct Hcm1 as (Hr & HE & _ & Hc). split.
      * split; rewrite ?without_nil; try done.
        -- specialize (Hsc1 (m_qs (unhold m1))). destruct Hsc1. by split.
        -- intros r cr Hx. rewrite HE in Hx. exists cr, (cr_CRActiveQuestion cr). split_and!; try done. by destruct cr.
        -- intros A X -> Hx. rewrite without_nil, Hc. destruct HN' as [-> | ->]; [done|by apply cursor_start].
        -- intros A X -> Hx. rewrite without_nil, Hc. destruct HM' as [-> | ->]; [done|by apply cursor_start].
        -- by apply Hna.
        -- unfold here. rewrite Hc. destruct HN' as [-> | ->]; [done|]. rewrite !elem_of_app. tauto.
      * split_and!; try done. intros y Hy. apply (inv_dom _ _ _ _ _ _ _ _ Hi2) in Hy. rewrite (inv_dom _ _ _ _ _ _ _ _ Hi).
        assert (y ∈ P ++ L ∨ y ∈ N' ++ M') as [Hy'|Hy'] by (rewrite !elem_of_app in *; tauto); [rewrite !elem_of_app in *; tauto|].
        destruct (Hin y Hy') as [|Hy2]; [by left|]. rewrite !elem_of_app in *. tauto.
    + rewrite (proj2 (Z.eqb_neq _ _) Hne). set (m2 := (unhold m1) <| m_qs := delete p (m_qs (unhold m1)) |>).
      assert (inv t co 0 m2 P N L M) as Hi2 by (apply (inv_delete t co (unhold m1)); [by apply inv_unhold|done]).
      exists m2, [], N, M. split; [done|]. split; [apply evolves_refl; [done|done|apply Hsc1|apply Hna; intros; apply lookup_delete_ne; congruence]|].
      split_and!; [done|apply Hcm1|by right|]. intros y Hy. right. apply (inv_dom _ _ _ _ _ _ _ _ Hi2) in Hy. by apply (inv_dom _ _ _ _ _ _ _ _ Hi).
Qed.

(** ** Sequences of calls *)
(** The walk stands somewhere in one of the lists. *)
Definition located m P N L M : Prop :=
  (∃ A X, P = A ++ X ∧ cursor (m_CurrentQuestion m) X N) ∨ (∃ A X, L = A ++ X ∧ cursor (m_CurrentQuestion m) X M).
Lemma located_evolves t co m P N L M S m' N' M' : evolves t co m P N L M S m' N' M' → located m P N L M → located m' (without S P) N' (without S L) M'.
Proof.
  intros Hev [(A & X & -> & Hc)|(A & X & -> & Hc)]; [left|right]; exists (without S A), (without S X); rewrite without_app; (split; [done|]).
  - by apply (ev_cur _ _ _ _ _ _ _ _ _ _ _ Hev A).
  - by apply (ev_curl _ _ _ _ _ _ _ _ _ _ _ Hev A).
Qed.
Lemma located_dom t co m P N L M p : inv t co 0 m P N L M → located m P N L M → m_qs m !! p = None → p ≠ 0 → m_CurrentQuestion m ≠ p.
Proof.
  intros Hi Hl Hp Hp0 Heq. assert (¬ is_Some (m_qs m !! p)) as Hn by (rewrite Hp; by intros [? [=]]). apply Hn, (inv_dom _ _ _ _ _ _ _ _ Hi).
  destruct Hl as [(A & X & -> & Hc)|(A & X & -> & Hc)]; apply cursor_in in Hc as [Hc|Hc]; try congruence; rewrite Heq, !elem_of_app in *; tauto.
Qed.

Lemma run_call_spec t co m P N L M c : in_callback m → inv t co 0 m P N L M → call_ok c →
  ∃ m' S N' M', run_call m c = Ret m' ∧ evolves t co m P N L M S m' N' M' ∧ call_effect m P N M c m' S N' M'.
Proof. destruct c as [p q|p]; intros Hcb Hi Hok; [by apply run_start|by apply run_stop]. Qed.

(** The question [p] the callback was called for is still the current one
    only if it was not stopped. *)
Definition keeps_place p cs m P N L M S m' : Prop :=
  well_behaved p cs = true → located m P N L M → p ≠ 0 → p ∉ N ++ M → p ∈ S ∨ m_qs m !! p = None → m_CurrentQuestion m' ≠ p.
Lemma run_calls_spec t co p cs : ∀ m P N L M, in_callback m → inv t co 0 m P N L M → Forall call_ok cs →
  ∃ m' S N' M', run_calls m cs = Ret m' ∧ evolves t co m P N L M S m' N' M' ∧
    (forallb no_stop cs = true → S = [] ∧ m_CurrentQuestion m' = m_CurrentQuestion m) ∧ keeps_place p cs m P N L M S m' ∧
    (forallb is_stop cs = true → stops_only m P N S m' N').
Proof.
  induction cs as [|c cs IH]; intros m P N L M Hcb Hi Hok; cbn [run_calls].
  - exists m, [], N, M. split; [done|]. split; [by apply evolves_refl; [| | |apply names_refl]|]. split; [done|]. split; [|by intros _; apply stops_refl].
    intros _ Hl Hp0 _ [?%elem_of_nil|Hp]; [done|]. by eapply located_dom.
  - apply Forall_cons in Hok as [Hc Hok]. destruct (run_call_spec t co m P N L M c Hcb Hi Hc) as (m1 & S1 & N1 & M1 & -> & Hev1 & Hef). cbn [obind].
    pose proof (ev_inv _ _ _ _ _ _ _ _ _ _ _ Hev1) as Hi1.
    destruct (IH m1 _ N1 _ M1 ltac:(eapply in_callback_rest; [apply Hev1|done]) Hi1 Hok) as (m2 & S2 & N2 & M2 & -> & Hev2 & Hns & Hkp & Hst).
    exists m2, (S1 ++ S2), N2, M2. split; [done|]. split; [by eapply evolves_trans|]. split; [|split].
    + cbn [forallb]. intros [Hc1 Hcs]%andb_true_iff. destruct c as [x qx|x]; [|done]. destruct Hef as (-> & Hcur & _).
      destruct (Hns Hcs) as [-> Hcur2]. split; [done|]. by rewrite Hcur2.
    + intros Hwb Hl Hp0 Hnew Hgone. pose proof (located_evolves _ _ _ _ _ _ _ _ _ _ _ Hev1 Hl) as Hl1.
      assert (∀ y, (is_Some (m_qs m1 !! y) → is_Some (m_qs m !! y)) → m_qs m !! y = None → m_qs m1 !! y = None) as Hnone.
      { intros y Hy Hy0. destruct (m_qs m1 !! y) eqn:Hx; [|done]. destruct Hy as [? ?]; [by eauto|congruence]. }
      destruct c as [x qx|x]; cbn [well_behaved call_effect] in Hwb, Hef.
      * destruct Hef as (-> & Hcur & HN & Hdom). destruct (Z.eqb_spec x p) as [->|Hxp].
        -- destruct (Hns Hwb) as [-> ->]. rewrite Hcur. destruct Hgone as [?%elem_of_nil|Hp]; [done|]. by eapply located_dom.
        -- apply Hkp; try done; [intros Hin; destruct (HN p Hin); [by subst|done]|]. destruct Hgone as [Hg|Hg]; [by left|right].
           apply Hnone; [|done]. intros Hs. destruct (Hdom p Hs); [by subst|done].
      * destruct Hef as (HS & HN & Hdom & _). apply Hkp; try done; [intros Hin; by apply Hnew, HN|].
        rewrite elem_of_app in Hgone. destruct Hgone as [[Hg|Hg]|Hg]; [right|by left|right; apply Hnone; [apply Hdom|done]].
        by destruct (HS p Hg) as [-> ?].
    + cbn [forallb]. intros [Hc1 Hcs]%andb_true_iff. destruct c as [x qx|x]; [done|]. destruct Hef as (_ & _ & _ & Hso). eapply stops_trans; [exact Hso|by apply Hst].
Qed.
End Client.
