(* ===== verification/MDNSVolatile.v ===== *)
(** Operations that change only what records say about their own times:
    [SetNextCacheCheckTime], [mDNS_Reconfirm_internal],
    [mDNS_PurgeCacheResourceRecord], [RefreshCacheRecord],
    [ReconfirmAntecedents].  They succeed and keep every invariant. *)
From S2P Require Import Prelude Bytes DNSTypes DNSName DNSRecord DNSMessage MDNSTypes MDNSCache MDNSQuestion MDNSList MDNSInv MDNSPool MDNSRecycle MDNSGet MDNSQInv MDNSStart MDNSStop.

Implicit Types (E : gmap Z CacheEntity) (m : mDNS) (p r t co qo g h : Z) (l P N L M : list Z).

(** ** Volatile changes *)
Definition crq (e : CacheEntity) : option Z := match e with ERecord cr => Some (cr_CRActiveQuestion cr) | _ => None end.
Definition fixed m : mDNS :=
  m <| m_ents := ∅ |> <| m_seed := 0 |> <| m_NextCacheCheck := 0 |> <| m_RandomReconfirmDelay := 0 |> <| m_NextScheduledQuery := 0 |>
    <| m_NextScheduledEvent := 0 |> <| m_rec := (m_rec m) <| cr_LastUsed := 0 |> |>.
Record vol_gen {keep : bool} m m' : Prop := {
  vo_fixed : fixed m' = fixed m;
  vo_ents : same_gen keep (m_ents m) (m_ents m');
  vo_active : ∀ p, m_ents m' !! p ≫= crq = m_ents m !! p ≫= crq
}.
Abbreviation vol := (@vol_gen true).
#[export] Instance vol_preorder keep : PreOrder (@vol_gen keep).
Proof. split; [by intros m; split|]. intros m m' m'' [] []. split; [congruence|by etransitivity|congruence]. Qed.

Lemma fixed_fields m m' : fixed m' = fixed m → m_busy m' = m_busy m ∧ m_reentrancy m' = m_reentrancy m ∧ m_timenow m' = m_timenow m ∧
  m_timenow_last m' = m_timenow_last m ∧ m_lock_rrcache m' = m_lock_rrcache m ∧ m_qs m' = m_qs m ∧ m_Questions m' = m_Questions m ∧
  m_NewQuestions m' = m_NewQuestions m ∧ m_CurrentQuestion m' = m_CurrentQuestion m ∧ m_LocalOnlyQuestions m' = m_LocalOnlyQuestions m ∧
  m_NewLocalOnlyQuestions m' = m_NewLocalOnlyQuestions m ∧ m_rrcache_active m' = m_rrcache_active m ∧ m_AuthInfoList m' = m_AuthInfoList m ∧
  (m_rec m') <| cr_LastUsed := 0 |> = (m_rec m) <| cr_LastUsed := 0 |> ∧ m_rrcache_free m' = m_rrcache_free m ∧ m_log m' = m_log m.
Proof.
  intros Hr. assert (∀ {T} (f : mDNS → T), f (fixed m') = f (fixed m)) as F by by intros; rewrite Hr.
  exact (conj (F _ m_busy) (conj (F _ m_reentrancy) (conj (F _ m_timenow) (conj (F _ m_timenow_last) (conj (F _ m_lock_rrcache) (conj (F _ m_qs)
    (conj (F _ m_Questions) (conj (F _ m_NewQuestions) (conj (F _ m_CurrentQuestion) (conj (F _ m_LocalOnlyQuestions) (conj (F _ m_NewLocalOnlyQuestions)
    (conj (F _ m_rrcache_active) (conj (F _ m_AuthInfoList) (conj (F _ m_rec) (conj (F _ m_rrcache_free) (F _ m_log)))))))))))))))).
Qed.
Lemma vol_same_cache {keep} m m' : @vol_gen keep m m' → @same_cache_gen keep m m'.
Proof.
  intros [Hr He _]. assert (∀ {T} (f : mDNS → T), f (fixed m') = f (fixed m)) as F by by intros; rewrite Hr.
  split; [exact (F _ m_rrcache_hash)|exact (F _ m_rrcache_free)|exact (F _ m_rrcache_size)|exact (F _ m_rrcache_totalused)|exact (F _ m_blocks)|done].
Qed.
Lemma vol_rec {keep} m m' r cr' : @vol_gen keep m m' → m_ents m' !! r = Some (ERecord cr') → ∃ cr, m_ents m !! r = Some (ERecord cr) ∧
  strip_gen keep cr' = strip_gen keep cr ∧ cr_CRActiveQuestion cr' = cr_CRActiveQuestion cr.
Proof.
  intros [_ He Ha] Hr. destruct (same_ents_rec (symmetry He) Hr) as (cr & Hcr & Hs). exists cr. split; [done|]. split; [done|].
  specialize (Ha r). rewrite Hr, Hcr in Ha. simpl in Ha. congruence.
Qed.
Lemma inv_vol {keep} t co qo m m' P N L M : @vol_gen keep m m' → inv t co qo m P N L M → inv t co qo m' P N L M.
Proof.
  intros Hv [Hc Hq Hn Hnl Hd Ha Hct Hk]. pose proof (vol_same_cache _ _ Hv) as Hsc.
  destruct (fixed_fields _ _ (vo_fixed _ _ Hv)) as (_ & _ & _ & _ & _ & HQ & HQs & HN & _ & HL & HM & Hact & Hau & _).
  split; rewrite ?HQ, ?HQs, ?HN, ?HL, ?HM, ?Hau; try done.
  - by eapply same_gen_wf.
  - intros r cr' Hr Hrc Hx. destruct (vol_rec m m' r cr' Hv Hr) as (cr & Hcr & Hs & Hcq). rewrite Hcq in *.
    destruct (Ha r cr Hcr Hrc Hx) as [(q & cg & Hqq & Hcg & Hsm) Hl]. split; [|done]. exists q, cg. split; [done|].
    apply strip_rec_inv in Hs as (_ & Hg & _). rewrite Hg. split; [|done]. by apply (same_ents_group (vo_ents _ _ Hv)).
  - rewrite Hact, Hct. apply count_ext. intros x. pose proof (vo_active _ _ Hv x) as Hx. pose proof (vo_ents _ _ Hv x) as Hy.
    destruct (m_ents m !! x) as [[| | |cr]|], (m_ents m' !! x) as [[| | |cr']|]; simpl in *; congruence.
Qed.

(** Changing one record. *)
Lemma vol_put {keep} m r cr cr' : m_ents m !! r = Some (ERecord cr) → strip_gen keep cr' = strip_gen keep cr → cr_CRActiveQuestion cr' = cr_CRActiveQuestion cr →
  @vol_gen keep m (put_entity m r (ERecord cr')).
Proof.
  intros Hr Hs Hq. split; [done| |]; intros x; rewrite put_entity_ents; (destruct (decide (x = r)) as [->|]; [rewrite lookup_insert_eq, Hr; simpl|by rewrite lookup_insert_ne]).
  - by rewrite Hs.
  - by rewrite Hq.
Qed.

Section Volatile.
Context `{Platform}.

Lemma random_vol m max : vol m (fst (random m max)).
Proof. unfold random. destruct (mDNSRandom_ _ _). simpl. by split. Qed.

Lemma set_rec_vol t co m r cr f : cache_wf t co m → m_ents m !! r = Some (ERecord cr) → strip_rec (f cr) = strip_rec cr →
  cr_CRActiveQuestion (f cr) = cr_CRActiveQuestion cr → ∃ m', set_rec m r f = Ret m' ∧ vol m m' ∧ m_ents m' !! r = Some (ERecord (f cr)).
Proof.
  intros Hw Hr Hs Hq. rewrite (set_rec_at Hw r cr f Hr). eexists. split; [done|]. split; [by apply (vol_put m r cr)|].
  rewrite put_entity_ents. apply lookup_insert_eq.
Qed.

Lemma SetNextCacheCheckTime_vol t co m r cr : cache_wf t co m → m_ents m !! r = Some (ERecord cr) →
  ∃ m' cr', SetNextCacheCheckTime m r = Ret m' ∧ vol m m' ∧ m_ents m' !! r = Some (ERecord cr').
Proof.
  intros Hw Hr. unfold SetNextCacheCheckTime. rewrite (get_rec_at Hw r cr Hr). cbn [obind]. struct_simpl.
  match goal with |- context [let '(_, _) := ?x in _] => assert (∃ m1 n, x = (m1, cr <| cr_NextRequiredQuery := n |>) ∧ vol m m1 ∧ m_ents m1 = m_ents m) as (m1 & n & -> & Hv & HE) end.
  { destruct (_ && _); [|by eexists _, _]. pose proof (random_vol m (u32 (TicksTTL (cr <| cr_NextRequiredQuery := RRExpireTime cr |>)) / 50)) as Hv.
    match goal with |- context [random m ?x] => destruct (random m x) as [m1 y] eqn:Hm end.
    eexists m1, _. split; [done|]. unfold random in Hm. destruct (mDNSRandom_ _ _). injection Hm as <- <-. by split. }
  destruct (set_rec_vol t co m1 r cr (fun _ => cr <| cr_NextRequiredQuery := n |>)) as (m2 & -> & Hv2 & Hr2);
    [apply (same_cache_wf t co m); [done|by apply vol_same_cache]|by rewrite HE|done|done|]. cbn [obind].
  match goal with |- context [Ret ?x = _] => set (m3 := x) end.
  exists m3, (cr <| cr_NextRequiredQuery := n |>). split; [done|].
  assert (vol m2 m3 ∧ m_ents m3 = m_ents m2) as [Hv3 HE3].
  { unfold m3. destruct (0 <? s32 (m_NextCacheCheck m2 - _)); struct_simpl; (destruct (negb _ && _); (split; [by split|done])). }
  split; [|by rewrite HE3]. transitivity m1; [done|]. by transitivity m2.
Qed.

Lemma vol_wf t co m m' : vol m m' → cache_wf t co m → cache_wf t co m'.
Proof. intros Hv Hw. eapply same_cache_wf; [done|by apply vol_same_cache]. Qed.
Lemma vol_at m m' r cr : vol m m' → m_ents m !! r = Some (ERecord cr) → ∃ cr', m_ents m' !! r = Some (ERecord cr') ∧ cr_CRActiveQuestion cr' = cr_CRActiveQuestion cr.
Proof.
  intros Hv Hr. destruct (same_ents_rec (vo_ents _ _ Hv) Hr) as (cr' & Hr' & _). exists cr'. split; [done|].
  pose proof (vo_active _ _ Hv r) as Ha. rewrite Hr, Hr' in Ha. simpl in Ha. congruence.
Qed.

(** A record's times are set, and the next check with them. *)
Lemma set_times_vol t co m r cr f : cache_wf t co m → m_ents m !! r = Some (ERecord cr) → strip_rec (f cr) = strip_rec cr →
  cr_CRActiveQuestion (f cr) = cr_CRActiveQuestion cr → ∃ m', (let* m := set_rec m r f in SetNextCacheCheckTime m r) = Ret m' ∧ vol m m'.
Proof.
  intros Hw Hr Hs Hq. destruct (set_rec_vol t co m r cr f Hw Hr Hs Hq) as (m1 & -> & Hv1 & Hr1). cbn [obind].
  destruct (SetNextCacheCheckTime_vol t co m1 r _ (vol_wf _ _ _ _ Hv1 Hw) Hr1) as (m2 & cr2 & -> & Hv2 & _). exists m2. split; [done|]. by transitivity m1.
Qed.
Lemma RefreshCacheRecord_vol t co m r cr ttl : cache_wf t co m → m_ents m !! r = Some (ERecord cr) →
  ∃ m', RefreshCacheRecord m r ttl = Ret m' ∧ vol m m'.
Proof. intros Hw Hr. by apply (set_times_vol t co m r cr). Qed.
Lemma PurgeCacheResourceRecord_vol t co m r cr : cache_wf t co m → m_ents m !! r = Some (ERecord cr) →
  ∃ m', mDNS_PurgeCacheResourceRecord m r = Ret m' ∧ vol m m'.
Proof. intros Hw Hr. by apply (set_times_vol t co m r cr). Qed.
Lemma Reconfirm_internal_vol t co m r cr i : cache_wf t co m → m_ents m !! r = Some (ERecord cr) →
  ∃ m', mDNS_Reconfirm_internal m r i = Ret (m', mStatus_NoError) ∧ vol m m'.
Proof.
  intros Hw Hr. unfold mDNS_Reconfirm_internal. rewrite (get_rec_at Hw r cr Hr). cbn [obind]. cbv zeta.
  destruct (_ <? s32 (RRExpireTime cr - m_timenow m)); [|by exists m].
  match goal with |- context [set_rec ?x r _] => assert (vol m x ∧ m_ents x = m_ents m) as [Hv1 HE1]; [|set (m1 := x) in *] end.
  { destruct (m_RandomReconfirmDelay m =? 0); [|done]. unfold random. destruct (mDNSRandom_ _ _). by split. }
  match goal with |- context [set_rec m1 r ?f] => destruct (set_rec_vol t co m1 r cr f) as (m2 & -> & Hv2 & Hr2) end;
    [by eapply vol_wf|by rewrite HE1|done|done|]. cbn [obind].
  destruct (SetNextCacheCheckTime_vol t co m2 r _ ltac:(eapply vol_wf; [done|by eapply vol_wf]) Hr2) as (m3 & cr3 & -> & Hv3 & _). cbn [obind].
  exists m3. split; [done|]. transitivity m1; [done|]. by transitivity m2.
Qed.

(** ** All the records of the cache *)
Section ForAll.
Context (t co : Z) (m0 : mDNS) (f : mDNS → Z → outcome mDNS).
Context (Hf : ∀ m r cr, cache_wf t co m → vol m0 m → m_ents m !! r = Some (ERecord cr) → r ≠ co → ∃ m', f m r = Ret m' ∧ vol m m').

Lemma for_members_vol rs : ∀ fuel m r, cache_wf t co m → vol m0 m → chain (rec_next (m_ents m)) r rs → (∀ x, x ∈ rs → x ≠ co) →
  (length rs < fuel)%nat → ∃ m', for_members fuel f m r = Ret m' ∧ vol m m'.
Proof.
  induction rs as [|r rs IH]; intros [|fuel] m h Hw Hv0 Hch Hco Hfu; simpl in Hfu; try lia; cbn [for_members].
  - simpl in Hch. subst h. by exists m.
  - destruct Hch as (-> & Hr0 & n & (cr & Hr & <-)%rec_next_Some & Hrs). rewrite (proj2 (Z.eqb_neq r 0)) by done.
    destruct (Hf m r cr Hw Hv0 Hr (Hco r (list_elem_of_here _ _))) as (m1 & -> & Hv1). cbn [obind]. pose proof (vol_wf _ _ _ _ Hv1 Hw) as Hw1.
    destruct (same_ents_rec (vo_ents _ _ Hv1) Hr) as (cr1 & Hr1 & Hs). rewrite (get_rec_at Hw1 r cr1 Hr1). cbn [obind].
    apply strip_rec_inv in Hs as (-> & _). destruct (IH fuel m1 (cr_next cr) Hw1) as (m' & Hrun & Hv'); [by transitivity m| |..].
    + apply (lseg_ext (rec_next (m_ents m))); [|done]. intros x _. apply (same_ents_next (vo_ents _ _ Hv1)).
    + intros x Hx. apply Hco. by apply list_elem_of_further.
    + lia.
    + exists m'. split; [done|]. by transitivity m1.
Qed.
Lemma for_groups_vol gs : ∀ fuel m g, cache_wf t co m → vol m0 m → chain (group_next (m_ents m)) g gs → (∀ x, x ∈ gs → x ≠ co) →
  (length gs < fuel)%nat → ∃ m', for_groups fuel f m g = Ret m' ∧ vol m m'.
Proof.
  induction gs as [|g gs IH]; intros [|fuel] m h Hw Hv0 Hch Hco Hfu; simpl in Hfu; try lia; cbn [for_groups].
  - simpl in Hch. subst h. by exists m.
  - destruct Hch as (-> & Hg0 & n & (cg & Hg & <-)%group_next_Some & Hgs). rewrite (proj2 (Z.eqb_neq g 0)) by done.
    rewrite (get_group_at g cg Hg). cbn [obind]. destruct (wf_members Hw g cg Hg (Hco g (list_elem_of_here _ _))) as (rs & Hrs & Hin & _).
    destruct (for_members_vol rs (list_fuel m) m (cg_members cg) Hw Hv0 Hrs) as (m1 & -> & Hv1); [|by eapply wf_fuel|].
    { intros x Hx. destruct (lseg_next _ _ _ _ _ Hrs Hx) as [_ [n Hn]]. apply rec_next_Some in Hn as (cr & Hcr & _). by apply (Hin x cr Hcr) in Hx as []. }
    cbn [obind]. pose proof (vol_wf _ _ _ _ Hv1 Hw) as Hw1. rewrite (get_group_at g cg) by by apply (same_ents_group (vo_ents _ _ Hv1)). cbn [obind].
    destruct (IH fuel m1 (cg_next cg) Hw1) as (m' & Hrun & Hv'); [by transitivity m| |..].
    + apply (lseg_ext (group_next (m_ents m))); [|done]. intros x _. apply (same_ents_next (vo_ents _ _ Hv1)).
    + intros x Hx. apply Hco. by apply list_elem_of_further.
    + lia.
    + exists m'. split; [done|]. by transitivity m1.
Qed.
Lemma for_slots_vol n : ∀ m s, cache_wf t co m → vol m0 m → 0 ≤ s → s + Z.of_nat n ≤ CACHE_HASH_SLOTS → ∃ m', for_slots n f m s = Ret m' ∧ vol m m'.
Proof.
  induction n as [|n IH]; intros m s Hw Hv0 Hs Hn; cbn [for_slots]; [by exists m|].
  destruct (at_exists (m_rrcache_hash m) s) as (h & Hi); [rewrite (cw_hash Hw); lia|]. rewrite (proj2 (aget_at _ _ _) Hi). cbn [obind].
  destruct (cw_slot Hw s h Hi) as (gs & Hgs & Hin).
  destruct (for_groups_vol gs (list_fuel m) m h Hw Hv0 Hgs) as (m1 & -> & Hv1); [|by eapply wf_group_fuel|].
  { intros x Hx. destruct (lseg_next _ _ _ _ _ Hgs Hx) as [_ [k Hk]]. apply group_next_Some in Hk as (cg & Hcg & _). by apply (Hin x cg Hcg) in Hx as []. }
  cbn [obind]. destruct (IH m1 (s + 1)) as (m' & Hrun & Hv'); [by eapply vol_wf|by transitivity m|lia|lia|]. exists m'. split; [done|]. by transitivity m1.
Qed.
End ForAll.

Lemma ReconfirmAntecedents_vol t co more : ∀ m name nh, cache_wf t co m → name_mem name nh → ∃ m', ReconfirmAntecedents more m name nh = Ret m' ∧ vol m m'.
Proof.
  induction more as [|more IH]; intros m name nh Hw Hname.
  all: cbn [ReconfirmAntecedents]; unfold FORALL_CACHERECORDS; apply (for_slots_vol t co m); [|done|reflexivity|lia|done].
  all: intros m1 r cr Hw1 Hv Hr Hrco; rewrite (get_rec_at Hw1 r cr Hr); cbn [obind].
  all: destruct (cw_rec Hw1 r cr Hr Hrco) as (cg & Hcg & Hgo & Hh & Htg%data_target).
  all: destruct (GetRRDomainNameTarget (cr_resrec cr)) as [d|] eqn:Hd; [|by exists m1].
  all: destruct (Htg d Hd) as (ls & Hls & Hdl); destruct Hname as (ls' & Hls' & Hn' & Hnh).
  all: rewrite (SameDomainName_spec d name ls ls') by (done || apply Hls || apply Hls').
  all: destruct (rr_rdatahash (cr_resrec cr) =? nh); cbn [obind]; [|by exists m1].
  all: case_bool_decide; [|by exists m1].
  all: destruct (Reconfirm_internal_vol t co m1 r cr kDefaultReconfirmTimeForNoAnswer Hw1 Hr) as (m2 & -> & Hv2); cbn [obind].
  { by exists m2. }
  pose proof (vol_wf _ _ _ _ Hv2 Hw1) as Hw2. destruct (vol_at m1 m2 r cr Hv2 Hr) as (cr2 & Hr2 & _). rewrite (get_rec_at Hw2 r cr2 Hr2). cbn [obind].
  destruct (linked_name t co m2 r cr2 Hw2 Hr2 Hrco) as (cg2 & _ & _ & -> & Hn2). cbn [obind].
  destruct (IH m2 _ _ Hw2 Hn2) as (m3 & -> & Hv3). exists m3. split; [done|]. by transitivity m2.
Qed.
End Volatile.
