(* ===== verification/MDNSWalk.v ===== *)
(** Delivering a record to the questions: [AnswerCurrentQuestionWithResourceRecord],
    and the walks over the question list in [CacheRecordDeferredAdd],
    [CacheRecordAdd] and [CacheRecordRmv].  For every client that keeps its
    contract, the walks end, use no question that was stopped, and keep the
    invariant. *)
From S2P Require Import Prelude Bytes DNSTypes DNSName DNSRecord DNSMessage MDNSTypes MDNSCache MDNSQuestion MDNSAnswer MDNSList MDNSInv MDNSPool MDNSRecycle MDNSGet MDNSQInv MDNSStart MDNSStop MDNSClient MDNSVolatile.

Implicit Types (E : gmap Z CacheEntity) (m : mDNS) (p r t co qo g h : Z) (l P N L M S A X Y : list Z) (q : Question).

(** ** What a delivery leaves alone *)
Record wframe co m m' : Prop := {
  wf_lock : m_busy m' = m_busy m ∧ m_reentrancy m' = m_reentrancy m ∧ m_timenow m' = m_timenow m ∧ m_timenow_last m' = m_timenow_last m;
  wf_rrcache : m_lock_rrcache m' = m_lock_rrcache m;
  wf_own : m_ResourceRecords m' = m_ResourceRecords m;
  wf_cache : same_cache m m';
  wf_rec : (m_rec m') <| cr_LastUsed := 0 |> = (m_rec m) <| cr_LastUsed := 0 |>;
  wf_co : ∀ cr, m_ents m !! co = Some (ERecord cr) → ∃ cr', m_ents m' !! co = Some (ERecord cr') ∧ cr_CRActiveQuestion cr' = cr_CRActiveQuestion cr
}.
#[export] Instance wframe_preorder co : PreOrder (wframe co).
Proof.
  split; [intros m; split; eauto; done|].
  intros m m' m'' [(? & ? & ? & ?) ? ? ? ? Hc] [(? & ? & ? & ?) ? ? ? ? Hc']. split; [split_and!; congruence|congruence|congruence|by etransitivity|congruence|].
  intros cr Hcr. destruct (Hc cr Hcr) as (cr' & Hcr' & He). destruct (Hc' cr' Hcr') as (cr'' & ? & ?). exists cr''. split; [done|congruence].
Qed.
Lemma wframe_vol co m m' : vol m m' → wframe co m m'.
Proof.
  intros Hv. destruct (fixed_fields _ _ (vo_fixed _ _ Hv)) as (? & ? & ? & ? & ? & _ & _ & _ & _ & _ & _ & _ & _ & ? & _).
  split; try done; [exact (f_equal m_ResourceRecords (vo_fixed _ _ Hv))|by apply vol_same_cache|]. intros cr Hcr. by apply (vol_at m m' co cr Hv).
Qed.
Lemma wframe_rest co m m' : rest m' = rest m → same_cache m m' → only_active co m m' → wframe co m m'.
Proof.
  intros Hr Hsc Ho. destruct (rest_busy _ _ Hr) as (? & ? & ? & ? & ? & Hrec & _). split; try done; [exact (f_equal m_ResourceRecords Hr)|by rewrite Hrec|].
  intros cr Hcr. destruct (same_ents_rec (sc_ents _ _ Hsc) Hcr) as (cr' & Hcr' & _). exists cr'. split; [done|].
  destruct (Ho co cr' Hcr') as (cr0 & x & Hcr0 & _ & Heq). rewrite Hcr in Hcr0. injection Hcr0 as <-. by rewrite (Heq eq_refl).
Qed.
Lemma wframe_locked co m m' : wframe co m m' → locked m → locked m'.
Proof. intros [(Hb & Hr & Ht & Hl) _ _ _ _ _] []. split; rewrite ?Hb, ?Hr, ?Ht, ?Hl; done. Qed.
Lemma wframe_wf t co m m' : wframe co m m' → cache_wf t co m → cache_wf t co m'.
Proof. intros Hf Hw. eapply same_cache_wf; [done|apply Hf]. Qed.

(** ** The record that is delivered *)
Definition followable (rr : ResourceRecord) : Prop := rr_RecordType rr = kDNSRecordTypePacketNegative ∨ target_ok rr.
Definition subject co m r : Prop :=
  (r = rec_ptr ∧ cr_group (m_rec m) = 0 ∧ name_mem (rr_name (cr_resrec (m_rec m))) (rr_namehash (cr_resrec (m_rec m))) ∧ followable (cr_resrec (m_rec m))) ∨
  (∃ cr, m_ents m !! r = Some (ERecord cr) ∧ record_ok (m_ents m) co cr).
Lemma subject_frame co m m' r : wframe co m m' → subject co m r → subject co m' r.
Proof.
  intros Hf [(-> & Hg & Hn & Ht)|(cr & Hr & Hok)].
  - left. pose proof (wf_rec _ _ _ Hf) as Hx. pose proof (f_equal cr_group Hx) as Hgr. pose proof (f_equal cr_resrec Hx) as Hrr.
    change (cr_group (m_rec m') = cr_group (m_rec m)) in Hgr. change (cr_resrec (m_rec m') = cr_resrec (m_rec m)) in Hrr. by rewrite Hgr, Hrr.
  - right. by apply (same_record_ok (sc_ents _ _ (wf_cache _ _ _ Hf)) co r cr).
Qed.
Lemma subject_spec t co m r : cache_wf t co m → subject co m r → ∃ cr rr, get_rec m r = Ret cr ∧ resrec_of m cr = Ret rr ∧
  name_mem (rr_name rr) (rr_namehash rr) ∧ followable (cr_resrec cr).
Proof.
  intros Hw [(-> & Hg & Hn & Ht)|(cr & Hr & cg & Hcg & Hgo & Hh & Ht%data_target)].
  - exists (m_rec m), (cr_resrec (m_rec m)). unfold get_rec, resrec_of. rewrite Z.eqb_refl, Hg. done.
  - exists cr, ((cr_resrec cr) <| rr_name := cg_name cg |>). rewrite (get_rec_at Hw r cr Hr). split; [done|].
    unfold resrec_of. rewrite (proj2 (Z.eqb_neq _ 0)) by by eapply wf_nonzero. rewrite (get_group_at _ cg Hcg). split; [done|].
    struct_simpl. rewrite Hh. split; [by apply (cw_name Hw _ cg Hcg)|by right].
Qed.
Lemma linked_subject t co m r cr : cache_wf t co m → m_ents m !! r = Some (ERecord cr) → r ≠ co → subject co m r.
Proof. intros Hw Hr Hco. right. exists cr. split; [done|]. by apply (cw_rec Hw r). Qed.

(** ** Progress of a walk *)
Record answered t co m P N L M S m' N' M' : Prop := {
  an_frame : wframe co m m';
  an_inv : inv t co 0 m' (without S P) N' (without S L) M';
  an_cur : ∀ A X, P = A ++ X → cursor (m_CurrentQuestion m) X N → cursor (m_CurrentQuestion m') (without S X) N';
  an_curl : ∀ A X, L = A ++ X → cursor (m_CurrentQuestion m) X M → cursor (m_CurrentQuestion m') (without S X) M';
  an_names : same_names S (m_qs m) (m_qs m');
  an_here : here m (P ++ N) → here m' (without S P ++ N')
}.
Arguments an_frame {t co m P N L M S m' N' M'}. Arguments an_inv {t co m P N L M S m' N' M'}.
Arguments an_cur {t co m P N L M S m' N' M'}. Arguments an_curl {t co m P N L M S m' N' M'}.
Arguments an_here {t co m P N L M S m' N' M'}.

Lemma answered_still t co m P N L M m' : inv t co 0 m' P N L M → wframe co m m' → m_CurrentQuestion m' = m_CurrentQuestion m →
  same_names [] (m_qs m) (m_qs m') → answered t co m P N L M [] m' N M.
Proof.
  intros Hi Hf Hc Hna. split; rewrite ?without_nil; try done; [intros A X -> Hx; by rewrite without_nil, Hc..|].
  unfold here. by rewrite Hc.
Qed.
Lemma answered_trans t co m P N L M S m1 N1 M1 S' m2 N2 M2 : answered t co m P N L M S m1 N1 M1 →
  answered t co m1 (without S P) N1 (without S L) M1 S' m2 N2 M2 → answered t co m P N L M (S ++ S') m2 N2 M2.
Proof.
  intros [Hf Hi Hc Hcl Hna Hh] [Hf' Hi' Hc' Hcl' Hna' Hh']. split.
  - by transitivity m1.
  - by rewrite <- !without_comp.
  - intros A X HP Hx. rewrite <- without_comp. apply (Hc' (without S A)); [by rewrite HP, without_app|by eapply Hc].
  - intros A X HP Hx. rewrite <- without_comp. apply (Hcl' (without S A)); [by rewrite HP, without_app|by eapply Hcl].
  - by eapply names_trans.
  - rewrite <- without_comp. by intros Hx%Hh%Hh'.
Qed.
Lemma answered_after t co m m1 P N L M S m2 N2 M2 : answered t co m1 P N L M S m2 N2 M2 → wframe co m m1 →
  m_CurrentQuestion m1 = m_CurrentQuestion m → same_names [] (m_qs m) (m_qs m1) → answered t co m P N L M S m2 N2 M2.
Proof.
  intros [Hf Hi Hc Hcl Hna Hh] Hf0 Hcur Hna0. unfold here in Hh. rewrite Hcur in Hc, Hcl, Hh.
  split; try done; [by transitivity m1|]. exact (names_trans [] S _ _ _ Hna0 Hna).
Qed.
Lemma answered_evolves t co m P N L M S m' N' M' : evolves t co m P N L M S m' N' M' → answered t co m P N L M S m' N' M'.
Proof. intros [Hr Hsc Ho Hi Hc Hcl Hna Hh]. split; try done. by apply wframe_rest. Qed.

Section Walk.
Context `{PlatformOk}.

(** ** The record becomes of use to the question *)
(** [named_for m r p]: the record's group has the name of the question. *)
Definition named_for m r p : Prop :=
  ∃ cr cg q, m_ents m !! r = Some (ERecord cr) ∧ m_ents m !! cr_group cr = Some (EGroup cg) ∧ m_qs m !! p = Some q ∧
    same_mem (cg_name cg) (q_qname (Q_q q)).
Lemma inv_activate t co m P N L M r cr p : inv t co 0 m P N L M → m_ents m !! r = Some (ERecord cr) → r ≠ co → p ∈ P ++ N → named_for m r p →
  let m1 := if cr_CRActiveQuestion cr =? 0 then m <| m_rrcache_active := u32 (m_rrcache_active m + 1) |> else m in
  inv t co 0 (put_entity m1 r (ERecord (cr <| cr_CRActiveQuestion := p |>))) P N L M.
Proof.
  intros Hi Hr Hco Hp (cr0 & cg & q & Hr0 & Hcg & Hq & Hsm) m1. rewrite Hr in Hr0. injection Hr0 as <-.
  assert (p ≠ 0) as Hp0 by by destruct (qlists_at (iv_q Hi) p Hp) as (? & _ & _ & _ & _ & ?).
  set (m2 := put_entity m1 r (ERecord (cr <| cr_CRActiveQuestion := p |>))).
  assert (m_ents m1 = m_ents m) as HE1 by (unfold m1; by destruct (_ =? 0)).
  assert (same_cache m m2) as Hsc.
  { transitivity m1; [unfold m1; by destruct (_ =? 0)|]. apply (same_cache_active m1 r cr p). by rewrite HE1. }
  pose proof (same_cache_wf t co m m2 (iv_cache Hi) Hsc) as Hw2.
  assert (count is_active (m_ents m2) = count is_active (m_ents m) + (if cr_CRActiveQuestion cr =? 0 then 1 else 0)) as Hct.
  { unfold m2. rewrite put_entity_ents, HE1, count_insert, Hr. unfold cell. cbn [is_active]. struct_simpl. rewrite (proj2 (Z.eqb_neq p 0)) by done.
    destruct (cr_CRActiveQuestion cr =? 0); simpl; lia. }
  pose proof (active_range t co m2 Hw2) as Hrange. destruct Hi as [Hc Hql Hn Hnl Hd Ha Hcount Hk].
  assert (m_qs m2 = m_qs m ∧ m_Questions m2 = m_Questions m ∧ m_LocalOnlyQuestions m2 = m_LocalOnlyQuestions m ∧ m_NewQuestions m2 = m_NewQuestions m ∧
    m_NewLocalOnlyQuestions m2 = m_NewLocalOnlyQuestions m ∧ m_AuthInfoList m2 = m_AuthInfoList m) as (HQ & HQs & HLs & HN & HM & Hau)
    by (unfold m2, m1; by destruct (_ =? 0)).
  split; rewrite ?HQ, ?HQs, ?HLs, ?HN, ?HM, ?Hau; try done.
  - intros x cx Hx Hxco Hact. unfold m2 in Hx |- *. rewrite put_entity_ents, HE1 in *. apply lookup_insert_Some in Hx as [[<- Heq]|[Hne Hx]].
    + assert (cx = cr <| cr_CRActiveQuestion := p |>) as -> by congruence. struct_simpl. split; [|by left]. exists q, cg. split; [done|]. split; [|done].
      rewrite lookup_insert_ne; [done|]. struct_simpl. intros Heq'. rewrite <- Heq' in Hcg. congruence.
    + destruct (Ha x cx Hx Hxco Hact) as [(qx & cgx & Hqx & Hcgx & Hsx) Hl]. split; [|done]. exists qx, cgx. split; [done|]. split; [|done].
      rewrite lookup_insert_ne; [done|]. intros Heq'. rewrite <- Heq' in Hcgx. congruence.
  - rewrite Hct. unfold m2, m1. destruct (cr_CRActiveQuestion cr =? 0); unfold put_entity; struct_simpl; [|lia].
    rewrite u32_id; lia.
Qed.

Definition add_linked co m r p (AddRecord : Z) : Prop := AddRecord = QC_add → r ≠ co ∧ named_for m r p.

Lemma activate_spec t co m P N L M r p AddRecord : inv t co 0 m P N L M → subject co m r → p ∈ P ++ N → add_linked co m r p AddRecord →
  ∃ m', activate m p r AddRecord = Ret m' ∧ inv t co 0 m' P N L M ∧ wframe co m m' ∧ m_qs m' = m_qs m ∧ m_CurrentQuestion m' = m_CurrentQuestion m.
Proof.
  intros Hi Hs Hp Hadd. pose proof (iv_cache Hi) as Hw. unfold activate.
  assert (∃ m1, set_rec m r (fun cr => cr <| cr_LastUsed := m_timenow m |>) = Ret m1 ∧ vol m m1) as (m1 & -> & Hv1).
  { destruct Hs as [(-> & _)|(cr & Hr & _)].
    - unfold set_rec, get_rec. rewrite Z.eqb_refl. cbn [obind]. eexists. split; [done|]. by split.
    - destruct (set_rec_vol t co m r cr (fun cr => cr <| cr_LastUsed := m_timenow m |>) Hw Hr) as (m1 & ? & ? & _); [done|done|by eauto]. }
  cbn [obind]. pose proof (inv_vol _ _ _ _ _ _ _ _ _ Hv1 Hi) as Hi1. pose proof (subject_frame co m m1 r (wframe_vol co _ _ Hv1) Hs) as Hs1.
  destruct (fixed_fields _ _ (vo_fixed _ _ Hv1)) as (_ & _ & _ & _ & _ & HQ & _ & _ & Hcur & _).
  destruct (qlists_at (iv_q Hi1) p Hp) as (q & Hq & _). rewrite (get_q_at m1 p q Hq). cbn [obind].
  destruct (subject_spec t co m1 r (iv_cache Hi1) Hs1) as (cr & rr & Hcr & _). rewrite Hcr. cbn [obind].
  destruct (_ && _) eqn:Hb.
  2: { exists m1. split_and!; try done. by apply wframe_vol. }
  apply andb_true_iff in Hb as [[Hadd1 _]%andb_true_iff _]. apply Z.eqb_eq in Hadd1. destruct (Hadd Hadd1) as [Hco Hnf].
  assert (m_ents m1 !! r = Some (ERecord cr) ∧ named_for m1 r p) as [Hr1 Hnf1].
  { destruct Hnf as (c0 & cg & q0 & Hr0 & Hcg & Hq0 & Hsm). destruct (same_ents_rec (vo_ents _ _ Hv1) Hr0) as (c1 & Hr1 & Hst).
    rewrite (get_rec_at (iv_cache Hi1) r c1 Hr1) in Hcr. injection Hcr as ->. split; [done|]. exists cr, cg, q0.
    apply strip_rec_inv in Hst as (_ & -> & _). rewrite HQ. split_and!; try done. by apply (same_ents_group (vo_ents _ _ Hv1)). }
  match goal with |- context [set_rec ?x r _] => set (m2 := x) end.
  assert (same_cache m1 m2 ∧ m_ents m2 = m_ents m1) as [Hsc2 HE2] by (unfold m2; by destruct (_ =? 0)).
  pose proof (same_cache_wf t co m1 m2 (iv_cache Hi1) Hsc2) as Hw2.
  pose proof (inv_activate t co m1 P N L M r cr p Hi1 Hr1 Hco Hp Hnf1) as Hi3. fold m2 in Hi3.
  rewrite (set_rec_at Hw2 r cr) by by rewrite HE2. cbn [obind]. set (m3 := put_entity m2 r (ERecord (cr <| cr_CRActiveQuestion := p |>))) in *.
  assert (m_ents m3 !! r = Some (ERecord (cr <| cr_CRActiveQuestion := p |>))) as Hr3 by (unfold m3; rewrite put_entity_ents; apply lookup_insert_eq).
  destruct (SetNextCacheCheckTime_vol t co m3 r _ (iv_cache Hi3) Hr3) as (m4 & cr4 & -> & Hv4 & _).
  destruct (fixed_fields _ _ (vo_fixed _ _ Hv4)) as (_ & _ & _ & _ & _ & HQ4 & _ & _ & Hcur4 & _).
  assert (m_qs m3 = m_qs m1 ∧ m_CurrentQuestion m3 = m_CurrentQuestion m1) as [HQ3 Hcur3] by (unfold m3, m2; by destruct (_ =? 0)).
  exists m4. split; [done|]. split; [by eapply inv_vol|]. split; [|split; congruence].
  transitivity m1; [by apply wframe_vol|]. transitivity m3; [|by apply wframe_vol]. split.
  - unfold m3, m2. by destruct (_ =? 0).
  - unfold m3, m2. by destruct (_ =? 0).
  - unfold m3, m2. by destruct (_ =? 0).
  - transitivity m2; [done|]. apply (same_cache_active m2 r cr p). by rewrite HE2.
  - unfold m3, m2. by destruct (_ =? 0).
  - intros c Hc. exists c. split; [|done]. unfold m3. rewrite put_entity_ents, HE2, lookup_insert_ne; done.
Qed.

Lemma stop_polling_spec t co m P N L M r p AddRecord : inv t co 0 m P N L M → subject co m r → p ∈ P ++ N →
  ∃ m', stop_polling m p r AddRecord = Ret m' ∧ inv t co 0 m' P N L M ∧ wframe co m m' ∧ m_CurrentQuestion m' = m_CurrentQuestion m ∧
    m_ents m' = m_ents m ∧ shape (m_qs m) (m_qs m').
Proof.
  intros Hi Hs Hp. unfold stop_polling. destruct (qlists_at (iv_q Hi) p Hp) as (q & Hq & _). rewrite (get_q_at m p q Hq). cbn [obind].
  destruct (subject_spec t co m r (iv_cache Hi) Hs) as (cr & rr & -> & _). cbn [obind]. destruct (_ && _).
  2: { exists m. by split_and!. }
  rewrite (set_q_at m p q _ Hq). eexists. split; [done|]. split_and!.
  - apply (inv_put_q t co 0 m P N L M p q); [done|done|by split|by left].
  - split; try done. by eauto.
  - done.
  - done.
  - rewrite put_q_qs. eapply shape_insert; [done|]. by split.
Qed.

(** ** The callback *)
(** The clients start no question when they are given such an answer. *)
Definition starts_none (AddRecord : Z) : Prop := ∀ p rr m, forallb is_stop (QuestionCallback p rr AddRecord m) = true.
Lemma callback_spec `{!ClientOk} t co m P N L M p rr AddRecord : locked m → inv t co 0 m P N L M →
  ∃ m' S N' M', (let* m := call_back (mDNS_DropLockBeforeCallback m) p rr AddRecord in Ret (mDNS_ReclaimLockAfterCallback m)) = Ret m' ∧
    answered t co m P N L M S m' N' M' ∧ (p ∈ P ++ L → located m P N L M → p ∈ S → m_CurrentQuestion m' ≠ p) ∧
    (starts_none AddRecord → stops_only m P N S m' N').
Proof.
  intros Hlk Hi. rewrite (drop_lock m Hlk). unfold call_back. cbv zeta.
  set (m1 := (m <| m_reentrancy := m_reentrancy m + 1 |>) <| m_calls := mkCallback p rr AddRecord :: m_calls (m <| m_reentrancy := m_reentrancy m + 1 |>) |>).
  assert (in_callback m1) as Hcb.
  { destruct Hlk as [Hb Hd [Ht _] Hl]. split; unfold m1; struct_simpl; [done|lia|done]. }
  assert (inv t co 0 m1 P N L M) as Hi1 by (destruct Hi; split; try done; by apply (same_cache_wf t co m)).
  destruct (callback_ok p rr AddRecord m1) as [Hok Hwb].
  destruct (run_calls_spec t co p (QuestionCallback p rr AddRecord m1) m1 P N L M Hcb Hi1 Hok) as (m2 & S & N2 & M2 & -> & Hev & _ & Hkp & Hso).
  cbn [obind]. destruct (rest_busy _ _ (ev_rest _ _ _ _ _ _ _ _ _ _ _ Hev)) as (Hb & Hr & Ht & Hl & Hk & Hrec & _).
  pose proof (f_equal m_ResourceRecords (ev_rest _ _ _ _ _ _ _ _ _ _ _ Hev)) as Hown.
  assert (mDNS_ReclaimLockAfterCallback m2 = m2 <| m_reentrancy := m_reentrancy m |>) as ->.
  { unfold mDNS_ReclaimLockAfterCallback, log_if. rewrite Hb, Hr, (cb_busy _ Hcb), Z.eqb_refl. cbn [negb]. rewrite Hr. unfold m1. struct_simpl.
    replace (m_reentrancy m + 1 - 1) with (m_reentrancy m) by lia. rewrite u32_id; [done|]. pose proof (lk_depth _ Hlk). lia. }
  destruct Hev as [_ Hsc Ho Hi2 Hc Hcl Hna2 Hh2]. exists (m2 <| m_reentrancy := m_reentrancy m |>), S, N2, M2. split; [done|]. split; [|split; [|by intros Hst; apply Hso, Hst]].
  - split; try done.
    + split; struct_simpl; try done; [transitivity m1; [done|]; transitivity m2; [done|by split]|by rewrite Hrec|]. intros cr Hcr. destruct (same_ents_rec (sc_ents _ _ Hsc) Hcr) as (cr' & Hcr' & _).
      exists cr'. split; [done|]. destruct (Ho co cr' Hcr') as (c0 & x & Hc0 & _ & Heq). change (m_ents m1) with (m_ents m) in Hc0.
      rewrite Hcr in Hc0. injection Hc0 as <-. by rewrite (Heq eq_refl).
    + destruct Hi2. split; try done. by apply (same_cache_wf t co m2).
  - intros Hp Hloc HpS. apply Hkp; try done; [|rewrite elem_of_app|by left].
    + apply elem_of_app in Hp as [Hp|Hp]; [by destruct (qlists_at (iv_q Hi) p ltac:(set_solver)) as (? & _ & _ & _ & _ & ?)|].
      by destruct (qlists_local_at (iv_q Hi) p ltac:(set_solver)) as (? & _ & _ & _ & _ & ?).
    + pose proof (chain_NoDup _ _ _ (ql_chain (iv_q Hi))) as Hnd. apply NoDup_app in Hnd as (_ & Hnd & _).
      pose proof (chain_NoDup _ _ _ (ql_local (iv_q Hi))) as Hnl. apply NoDup_app in Hnl as (_ & Hnl & _).
      pose proof (qlists_disjoint (iv_q Hi) p) as Hdis. rewrite !elem_of_app in Hdis. apply elem_of_app in Hp as [Hp|Hp].
      * intros [Hn|Hm]; [by apply (Hnd p)|]. apply Hdis; tauto.
      * intros [Hn|Hm]; [|by apply (Hnl p)]. apply Hdis; tauto.
Qed.

(** ** Following a CNAME *)
Lemma encode_bytes ls : Forall label_ok ls → bytes_ok (encode ls).
Proof.
  induction ls as [|x ls IH]; intros Hls; [by constructor|]. apply Forall_cons in Hls as [[Hx Hb] Hls]. rewrite encode_cons.
  constructor; [unfold MAX_DOMAIN_LABEL in Hx; lia|]. apply Forall_app. split; [done|by apply IH].
Qed.
Lemma assign_legal dst d : zlen dst = 256 → bytes_ok dst → (∃ ls, name_ok ls ∧ is_name d ls) →
  ∃ d', AssignDomainName dst d = Ret d' ∧ zlen d' = 256 ∧ bytes_ok d' ∧ (∃ ls, name_ok ls ∧ is_name d' ls).
Proof.
  intros Hz Hb (ls & Hls & Hd). pose proof (name_ok_bound ls Hls) as Hle. pose proof (zlen_nonneg (encode ls)).
  exists (write dst 0 (encode ls)). split_and!.
  - unfold AssignDomainName. rewrite (DomainNameLength_name d ls Hls Hd). cbn [obind]. rewrite (proj2 (Z.leb_le _ _)) by apply Hls.
    apply copy_write; [done|lia|lia].
  - rewrite zlen_write; lia.
  - apply write_bytes_ok; [done|]. apply encode_bytes, Hls.
  - exists ls. split; [done|]. apply write_holds; lia.
Qed.

Lemma cname_target t co m r cr m' : cache_wf t co m → subject co m r → get_rec m r = Ret cr → rr_rrtype (cr_resrec cr) = kDNSType_CNAME →
  rr_RecordType (cr_resrec cr) ≠ kDNSRecordTypePacketNegative → wframe co m m' →
  ∃ cr', get_rec m' r = Ret cr' ∧ ∃ ls, name_ok ls ∧ is_name (rr_rdata (cr_resrec cr')) ls.
Proof.
  intros Hw Hs Hcr Ht Hn Hf. assert (∀ rr, rr_rrtype rr = kDNSType_CNAME → target_ok rr → ∃ ls, name_ok ls ∧ is_name (rr_rdata rr) ls) as Hok.
  { intros rr Hrt Htg. apply Htg. unfold GetRRDomainNameTarget. by rewrite Hrt. }
  destruct Hs as [(-> & Hg & _ & Hfo)|(c & Hr & cg & Hcg & Hgo & Hh & Htg%data_target)].
  - unfold get_rec in *. rewrite Z.eqb_refl in *. injection Hcr as <-. exists (m_rec m'). split; [done|].
    pose proof (f_equal cr_resrec (wf_rec _ _ _ Hf)) as Hx. change (cr_resrec (m_rec m') = cr_resrec (m_rec m)) in Hx. rewrite Hx.
    destruct Hfo as [|Htg]; [done|]. by apply Hok.
  - rewrite (get_rec_at Hw r c Hr) in Hcr. injection Hcr as ->.
    destruct (same_ents_rec (sc_ents _ _ (wf_cache _ _ _ Hf)) Hr) as (c' & Hr' & Hst). exists c'.
    rewrite (get_rec_at (wframe_wf t co m m' Hf Hw) r c' Hr'). split; [done|].
    apply strip_rec_inv in Hst as (_ & _ & _ & _ & _ & _ & _ & _ & _ & ->). by apply Hok.
Qed.

Lemma follow_cname_spec t co m P N L M p r : inv t co 0 m P N L M →
  (∀ m', wframe co m m' → ∃ cr', get_rec m' r = Ret cr' ∧ ∃ ls, name_ok ls ∧ is_name (rr_rdata (cr_resrec cr')) ls) →
  p ∈ P ++ N → m_CurrentQuestion m = p → m_rrcache_size m ≠ 0 →
  ∃ m' N' M', follow_cname m p r = Ret m' ∧ answered t co m P N L M [p] m' N' M' ∧ m_CurrentQuestion m' ≠ p.
Proof.
  intros Hi Hcname Hp Hcur Hsize.
  destruct (qlists_at (iv_q Hi) p Hp) as (q & Hq & Hok & Hloc & _ & Hp0). unfold follow_cname. rewrite (get_q_at m p q Hq). cbn [obind].
  destruct (StopQuery_internal_spec t co m P N L M p q Hi Hq) as (m1 & -> & Hst). cbn [obind].
  destruct Hst as [m1 q1 Hr1 Hsc1 Ho1 Hi1 Hq1 Hmem1 Hloc1 Hna1 Hcur1].
  assert (wframe co m m1) as Hf1 by by apply wframe_rest.
  destruct (Hcname m1 Hf1) as (cr1 & -> & Hleg). cbn [obind].
  rewrite (get_q_at m1 p q1 Hq1). cbn [obind].
  destruct (assign_legal (q_qname (Q_q q1)) _ (proj2 Hmem1) (proj1 Hmem1) Hleg) as (d & -> & Hdz & Hdb & Hdl). cbn [obind].
  destruct (name_mem_legal d Hdl) as (hh & -> & Hname & _). cbn [obind]. rewrite (set_q_at m1 p q1 _ Hq1). cbn [obind].
  match goal with |- context [put_q m1 p ?c] => set (q2 := c) end.
  pose proof (inv_put t co m1 _ _ _ _ p q1 q2 Hi1 Hq1 eq_refl) as Hi2. set (m2 := put_q m1 p q2) in *.
  assert (m_qs m2 !! p = Some q2) as Hq2 by (unfold m2; rewrite put_q_qs; apply lookup_insert_eq).
  assert (is_local q2 = false) as Hloc2 by (change (is_local q1 = false); congruence).
  destruct (StartQuery_internal_spec t co m2 _ _ _ _ p q2 Hi2 Hq2) as (m3 & st & -> & Hcm & Hna3 & Hres); [by split|]. cbn [obind].
  destruct Hres as [(-> & Hst3 & _)|(_ & _ & [[Hz _]|(_ & Hnl & _)])].
  2: { exfalso. apply Hsize. change (m_rrcache_size m2) with (m_rrcache_size m1) in Hz. by rewrite <- (sc_size _ _ Hsc1). }
  2: { by destruct Hnl. }
  rewrite Hloc2 in Hst3. unfold started in Hst3.
  destruct (qlists_at (iv_q Hst3) p ltac:(set_solver)) as (q3 & Hq3 & _). rewrite (set_q_at m3 p q3 _ Hq3).
  match goal with |- context [put_q m3 p ?c] => set (q4 := c) end. set (m4 := put_q m3 p q4).
  exists m4, (rm p N ++ [p]), (rm p M). split; [done|].
  assert (∀ l, without [p] l = rm p l) as Hw by (intros l; rewrite <- without_rm; apply without_nil).
  assert (m_CurrentQuestion m4 = moved p (Q_next q) p) as Hcur4.
  { destruct Hcm as (_ & _ & _ & Hc3). change (m_CurrentQuestion m3 = moved p (Q_next q) p). rewrite Hc3. change (m_CurrentQuestion m1 = moved p (Q_next q) p).
    by rewrite Hcur1, Hcur. }
  assert (∀ a b, P ++ N = a ++ p :: b → Q_next q = hd 0 b) as Hnx.
  { intros a b Hab. apply (next_of_list t co 0 m P N L M p q a b Hi Hq). by rewrite Hloc. }
  pose proof (chain_NoDup _ _ _ (ql_chain (iv_q Hi))) as Hnd.
  split.
  - split; rewrite ?Hw.
    + transitivity m1; [done|]. destruct Hcm as (Hr & HE & Ha & Hc). transitivity m2; [split; try done; by eauto|]. transitivity m3; [|split; try done; by eauto].
      apply wframe_rest; [done| |].
      * assert (∀ {T} (f : mDNS → T), f (rest m3) = f (rest m2)) as F by by intros; rewrite Hr.
        split; [exact (F _ m_rrcache_hash)|exact (F _ m_rrcache_free)|exact (F _ m_rrcache_size)|exact (F _ m_rrcache_totalused)|exact (F _ m_blocks)|by rewrite HE].
      * intros x c Hx. rewrite HE in Hx. exists c, (cr_CRActiveQuestion c). split_and!; try done. by destruct c.
    + by apply (inv_put_q t co 0 m3 _ _ _ _ p q3); [| |split|left].
    + intros A' X' HP' Hx. rewrite Hw, Hcur4, <- Hcur at 1. apply cursor_start. rewrite Hcur. rewrite Hcur in Hx.
      apply (cursor_stop p _ A'); [done|by rewrite app_assoc, <- HP'| |done]. by rewrite app_assoc, <- HP'.
    + intros A' X' HP' Hx. rewrite Hw, Hcur4. rewrite Hcur in Hx. apply cursor_in in Hx as Hin. exfalso.
      destruct Hin as [|Hin]; [done|]. apply (qlists_disjoint (iv_q Hi) p Hp). rewrite HP'. set_solver.
    + apply (names_weaken ([p] ++ [p] ++ [p] ++ [p])); [set_solver|]. eapply names_trans; [exact Hna1|]. eapply names_trans; [apply (names_insert p _ q2)|].
      eapply names_trans; [exact Hna3|apply names_insert].
    + intros _. unfold here. rewrite Hcur4. destruct (here_stop p (Q_next q) (P ++ N) p Hp0 Hnd Hnx ltac:(by right)) as [Hx|Hx]; [by left|right].
      rewrite rm_app in Hx. rewrite app_assoc, elem_of_app. by left.
  - rewrite Hcur4. unfold moved. rewrite Z.eqb_refl. apply list_elem_of_split in Hp as (a & b & Hab). rewrite (Hnx a b Hab). rewrite Hab in Hnd.
    apply NoDup_app in Hnd as (_ & _ & [Hx _]%NoDup_cons). destruct b as [|y b]; simpl; [done|].
    intros ->. apply Hx, list_elem_of_here.
Qed.

(** ** One question is answered *)
Lemma cursor_at m P N L M A X p : P = A ++ p :: X → m_CurrentQuestion m = p → located m P N L M.
Proof. intros -> Hc. left. exists A, (p :: X). split; [done|]. by left. Qed.
Lemma without_keep S p A X : p ∉ S → without S (A ++ p :: X) = without S A ++ p :: without S X.
Proof. intros Hp. rewrite without_app. f_equal. unfold without. by rewrite filter_cons_True. Qed.

Lemma answer_current_any `{!ClientOk} t co m P N L M p r AddRecord : locked m → inv t co 0 m P N L M → p ∈ P ++ N → m_CurrentQuestion m = p →
  subject co m r → add_linked co m r p AddRecord → m_rrcache_size m ≠ 0 →
  ∃ m' S N' M', AnswerCurrentQuestionWithResourceRecord m r AddRecord = Ret m' ∧ answered t co m P N L M S m' N' M' ∧ (p ∈ P → p ∈ S → m_CurrentQuestion m' ≠ p) ∧
    (starts_none AddRecord → (∀ cr, get_rec m r = Ret cr → rr_rrtype (cr_resrec cr) ≠ kDNSType_CNAME) → stops_only m P N S m' N').
Proof.
  intros Hlk Hi Hp Hcur Hs Hadd Hsize. unfold AnswerCurrentQuestionWithResourceRecord. rewrite Hcur.
  destruct (qlists_at (iv_q Hi) p Hp) as (q & Hq & _). rewrite (get_q_at m p q Hq). cbn [obind].
  destruct (subject_spec t co m r (iv_cache Hi) Hs) as (cr & rr & Hcr & _). rewrite Hcr. cbn [obind].
  set (fol := negb _ && _ && _ && _).
  assert (fol = true → ∀ m', wframe co m m' → ∃ cr', get_rec m' r = Ret cr' ∧ ∃ ls, name_ok ls ∧ is_name (rr_rdata (cr_resrec cr')) ls) as Hfol.
  { intros Hf m' Hfr. apply andb_true_iff in Hf as [[[Hne _]%andb_true_iff Hty]%andb_true_iff _]. apply Z.eqb_eq in Hty. apply negb_true_iff, Z.eqb_neq in Hne.
    by apply (cname_target t co m r cr m' (iv_cache Hi) Hs Hcr Hty Hne). }
  assert (fol = true → rr_rrtype (cr_resrec cr) = kDNSType_CNAME) as Hcn by by intros [[_ ?%Z.eqb_eq]%andb_true_iff _]%andb_true_iff.
  clearbody fol. destruct (activate_spec t co m P N L M r p AddRecord Hi Hs Hp Hadd) as (m1 & -> & Hi1 & Hf1 & HQ1 & Hc1). cbn [obind].
  pose proof (subject_frame co m m1 r Hf1 Hs) as Hs1.
  destruct (stop_polling_spec t co m1 P N L M r p AddRecord Hi1 Hs1 Hp) as (m2 & -> & Hi2 & Hf2 & Hc2 & HE2 & Hsh2). cbn [obind].
  assert (wframe co m m2) as Hf02 by by transitivity m1. pose proof (subject_frame co m m2 r Hf02 Hs) as Hs2.
  destruct (subject_spec t co m2 r (iv_cache Hi2) Hs2) as (cr2 & rr2 & -> & Hrr2 & _). cbn [obind].
  destruct (qlists_at (iv_q Hi2) p Hp) as (q2 & Hq2 & _). rewrite (get_q_at m2 p q2 Hq2). cbn [obind].
  assert (m_CurrentQuestion m2 = m_CurrentQuestion m) as Hcur2 by congruence.
  assert (same_names [] (m_qs m) (m_qs m2)) as Hna2 by (rewrite <- HQ1; by apply names_shape).
  pose proof (answered_still t co m P N L M m2 Hi2 Hf02 Hcur2 Hna2) as Han2.
  pose proof (stops_refl m m2 P N Hcur2) as Hso2.
  destruct (negb (cr_DelayDelivery cr2 =? 0)); [exists m2, [], N, M; split; [done|]; split; [done|split; [by intros _ ?%elem_of_nil|done]]|].
  destruct (_ && _); [exists m2, [], N, M; split; [done|]; split; [done|split; [by intros _ ?%elem_of_nil|done]]|].
  assert (∃ m3 S N3 M3, (if negb (Q_QuestionCallback q2 =? 0) && (Q_NoAnswer q2 =? 0) && (negb fol || Q_ReturnIntermed q2) then
      let* rr := resrec_of m2 cr2 in let* m := call_back (mDNS_DropLockBeforeCallback m2) p rr AddRecord in Ret (mDNS_ReclaimLockAfterCallback m)
    else Ret m2) = Ret m3 ∧ answered t co m P N L M S m3 N3 M3 ∧ (p ∈ P → p ∈ S → m_CurrentQuestion m3 ≠ p) ∧
    (starts_none AddRecord → stops_only m P N S m3 N3)) as (m3 & S & N3 & M3 & -> & Han3 & Hgone & Hso3).
  { destruct (_ && _); [|exists m2, [], N, M; split; [done|]; split; [done|split; [by intros _ ?%elem_of_nil|done]]]. rewrite Hrr2. cbn [obind].
    destruct (callback_spec t co m2 P N L M p rr2 AddRecord) as (m3 & S & N3 & M3 & -> & Han & Hg & Hso);
      [by eapply wframe_locked|done|].
    exists m3, S, N3, M3. split; [done|]. split; [by apply (answered_after t co m m2)|].
    split; [|intros Hst; destruct (Hso Hst) as [HN3 Hx]; split; [done|]; by rewrite <- Hcur2].
    intros HpP. apply Hg; [apply elem_of_app; by left|]. apply list_elem_of_split in HpP as (A & X & HP).
    by apply (cursor_at m2 P N L M A X p); [|congruence]. }
  cbn [obind]. destruct (fol && (m_CurrentQuestion m3 =? p)) eqn:Hb; [|exists m3, S, N3, M3; split_and!; by auto].
  apply andb_true_iff in Hb as [Hft Hc3%Z.eqb_eq]. pose proof (an_inv Han3) as Hi3.
  assert (p ∈ without S P ++ N3) as Hp3.
  { destruct (an_here Han3) as [Hz|Hin]; [right; by rewrite Hcur| |by rewrite Hc3 in Hin]. by destruct (qlists_at (iv_q Hi) p Hp) as (_ & _ & _ & _ & _ & Hp0); congruence. }
  destruct (qlists_at (iv_q Hi3) p Hp3) as (q3 & Hq3 & _). rewrite (get_q_at m3 p q3 Hq3). cbn [obind].
  destruct (_ <? 10); [|exists m3, S, N3, M3; split_and!; by auto].
  destruct (follow_cname_spec t co m3 _ N3 _ M3 p r Hi3) as (m4 & N4 & M4 & -> & Han4 & Hne4); [|done|done| |].
  - intros m' Hf'. apply (Hfol Hft). transitivity m3; [apply Han3|done].
  - by rewrite (sc_size _ _ (wf_cache _ _ _ (an_frame Han3))).
  - exists m4, (S ++ [p]), N4, M4. split; [done|]. split; [by eapply answered_trans|]. split; [done|]. intros _ Hty. by destruct (Hty cr eq_refl), Hcn.
Qed.

Lemma answer_current_spec `{!ClientOk} t co m P N L M p r A X AddRecord : locked m → inv t co 0 m P N L M → P = A ++ p :: X → m_CurrentQuestion m = p →
  subject co m r → add_linked co m r p AddRecord → m_rrcache_size m ≠ 0 →
  ∃ m' S N' M', AnswerCurrentQuestionWithResourceRecord m r AddRecord = Ret m' ∧ answered t co m P N L M S m' N' M' ∧ (p ∈ S → m_CurrentQuestion m' ≠ p).
Proof.
  intros Hlk Hi HP Hcur Hs Hadd Hsize. assert (p ∈ P) as HpP by (rewrite HP; set_solver).
  destruct (answer_current_any t co m P N L M p r AddRecord Hlk Hi) as (m' & S & N' & M' & ? & ? & Hg & _); [apply elem_of_app; by left|done..|].
  exists m', S, N', M'. split; [done|]. split; [done|by apply Hg].
Qed.

(** ** The walk over the old questions *)
Definition with_current m x : mDNS := m <| m_CurrentQuestion := x |>.
Lemma inv_current t co qo m P N L M x : inv t co qo m P N L M → inv t co qo (with_current m x) P N L M.
Proof. intros []. split; try done. by apply (same_cache_wf t co m). Qed.
Lemma wframe_current co m x : wframe co m (with_current m x).
Proof. split; try done. by eauto. Qed.

(** What one turn of the walk has to do; [J] is what it needs to know of the
    record. *)
Definition turn_ok t co (J : mDNS → Prop) (body : mDNS → Z → outcome mDNS) : Prop :=
  ∀ m P N L M A X p, locked m → inv t co 0 m P N L M → P = A ++ p :: X → m_CurrentQuestion m = p → J m →
    ∃ m' S N' M', body m p = Ret m' ∧ answered t co m P N L M S m' N' M' ∧ (p ∈ S → m_CurrentQuestion m' ≠ p).

Lemma auto_advance_spec t co m P N L M A X p m1 S N1 M1 : P = A ++ p :: X → m_CurrentQuestion m = p → p ≠ 0 →
  answered t co m P N L M S m1 N1 M1 → (p ∈ S → m_CurrentQuestion m1 ≠ p) →
  ∃ x A1, auto_advance m1 p = Ret (with_current m1 x) ∧ without S P = A1 ++ without S X ∧ cursor x (without S X) N1.
Proof.
  intros HP Hcur Hp0 Han Hgone. unfold auto_advance. pose proof (an_cur Han A (p :: X) HP ltac:(by left)) as Hc.
  destruct (decide (p ∈ S)) as [HpS|HpS].
  - rewrite (proj2 (Z.eqb_neq _ _) (Hgone HpS)). exists (m_CurrentQuestion m1), (without S A).
    assert (without S (p :: X) = without S X) as Hx by (unfold without; by rewrite filter_cons_False by naive_solver).
    split; [f_equal; by destruct m1|]. split; [by rewrite HP, without_app, Hx|]. by rewrite Hx in Hc.
  - pose proof (without_keep S p A X HpS) as Hwk. rewrite <- HP in Hwk.
    assert (without S (p :: X) = p :: without S X) as Hx by (unfold without; by rewrite filter_cons_True).
    rewrite Hx in Hc. destruct Hc as [Hc|[? _]]; [|done]. simpl in Hc. rewrite Hc, Z.eqb_refl.
    destruct (qlists_at (iv_q (an_inv Han)) p ltac:(rewrite Hwk; set_solver)) as (q & Hq & _ & Hloc & _). rewrite (get_q_at m1 p q Hq). cbn [obind].
    exists (Q_next q), (without S A ++ [p]). split; [done|]. split; [by rewrite Hwk, <- app_assoc|]. left.
    apply (next_of_list t co 0 m1 _ N1 _ M1 p q (without S A) (without S X ++ N1) (an_inv Han) Hq). rewrite Hloc, Hwk, <- app_assoc. done.
Qed.

Lemma walk_spec t co J body : turn_ok t co J body → (∀ m m', wframe co m m' → J m → J m') → ∀ fuel m P N L M A X,
  locked m → inv t co 0 m P N L M → P = A ++ X → cursor (m_CurrentQuestion m) X N → J m → (length X < fuel)%nat →
  ∃ m' S N' M', walk fuel m_NewQuestions body m = Ret m' ∧ wframe co m m' ∧ inv t co 0 m' (without S P) N' (without S L) M'.
Proof.
  intros Hbody HJ. induction fuel as [|fuel IH]; intros m P N L M A X Hlk Hi HP Hc HJm Hf; [lia|]. cbn [walk].
  destruct X as [|p X].
  - exists m, [], N, M. rewrite !without_nil. split; [|done]. rewrite (iv_new Hi).
    destruct Hc as [Hc|[_ Hc]]; rewrite Hc; [|done]. simpl. by rewrite Z.eqb_refl, orb_true_r.
  - assert (m_CurrentQuestion m = p) as Hcur by (destruct Hc as [Hc|[? _]]; done).
    assert (p ∈ P ++ N) as Hp by (rewrite HP; set_solver). destruct (qlists_at (iv_q Hi) p Hp) as (_ & _ & _ & _ & _ & Hp0).
    assert (p ≠ m_NewQuestions m) as Hnew.
    { rewrite (iv_new Hi). intros Heq. pose proof (chain_NoDup _ _ _ (ql_chain (iv_q Hi))) as Hnd. apply NoDup_app in Hnd as (_ & Hnd & _).
      destruct N as [|y N]; [done|]. simpl in Heq. subst y. apply (Hnd p); [rewrite HP; set_solver|apply list_elem_of_here]. }
    rewrite Hcur, (proj2 (Z.eqb_neq p 0)), (proj2 (Z.eqb_neq p (m_NewQuestions m))) by done. cbn [orb].
    destruct (Hbody m P N L M A X p Hlk Hi HP Hcur HJm) as (m1 & S & N1 & M1 & -> & Han & Hgone). cbn [obind].
    destruct (auto_advance_spec t co m P N L M A X p m1 S N1 M1 HP Hcur Hp0 Han Hgone) as (x & A1 & -> & HP1 & Hc1). cbn [obind].
    pose proof (an_frame Han) as Hf1. set (m2 := with_current m1 x).
    assert (wframe co m m2) as Hf2 by (transitivity m1; [done|apply wframe_current]).
    destruct (IH m2 (without S P) N1 (without S L) M1 A1 (without S X)) as (m' & S' & N' & M' & -> & Hf' & Hi').
    + by eapply wframe_locked.
    + by apply inv_current, (an_inv Han).
    + done.
    + done.
    + by eapply HJ.
    + pose proof (length_filter (fun x => x ∉ S) X) as Hlen. unfold without. simpl in Hf. lia.
    + exists m', (S ++ S'), N', M'. split; [done|]. split; [by transitivity m2|]. by rewrite <- !without_comp.
Qed.

(** *** The walk over all the questions

    It goes on to the questions that are started meanwhile.  [C]: no question
    is started. *)
Definition turn_any t co (J : mDNS → Prop) (C : Prop) (body : mDNS → Z → outcome mDNS) : Prop :=
  ∀ m P N L M p, locked m → inv t co 0 m P N L M → p ∈ P ++ N → m_CurrentQuestion m = p → J m →
    ∃ m' S N' M', body m p = Ret m' ∧ answered t co m P N L M S m' N' M' ∧ (C → stops_only m P N S m' N').
(** [n] turns are left. *)
Definition turns_left m l (n : nat) : Prop := ∃ A X, l = A ++ X ∧ m_CurrentQuestion m = hd 0 X ∧ (length X < n)%nat.

Lemma advance_any t co m P N L M p : inv t co 0 m P N L M → here m (P ++ N) → p ≠ 0 →
  ∃ x, auto_advance m p = Ret (with_current m x) ∧ here (with_current m x) (P ++ N) ∧
    (m_CurrentQuestion m ≠ p → x = m_CurrentQuestion m) ∧ (∀ A X, P ++ N = A ++ p :: X → m_CurrentQuestion m = p → x = hd 0 X).
Proof.
  intros Hi Hh Hp0. unfold auto_advance, here, with_current. struct_simpl. destruct (Z.eqb_spec (m_CurrentQuestion m) p) as [Hc|Hc].
  2: { exists (m_CurrentQuestion m). split; [f_equal; by destruct m|]. by split. }
  destruct Hh as [Hz|Hin]; [congruence|]. rewrite Hc in Hin. destruct (qlists_at (iv_q Hi) p Hin) as (q & Hq & _ & Hloc & _).
  rewrite (get_q_at m p q Hq). cbn [obind].
  assert (∀ A X, P ++ N = A ++ p :: X → Q_next q = hd 0 X) as Hnx.
  { intros A X HP. apply (next_of_list t co 0 m P N L M p q A X Hi Hq). by rewrite Hloc. }
  exists (Q_next q). split; [done|]. split; [|split; [done|by intros A X HP _; apply (Hnx A)]].
  apply list_elem_of_split in Hin as (A & X & HP). rewrite (Hnx A X HP), HP. destruct X as [|y X]; [by left|right]. simpl. set_solver.
Qed.
Lemma hd_without S X p : p ≠ 0 → p ∈ S → hd 0 (without S X) ≠ p.
Proof.
  intros Hp0 HpS Heq. destruct (without S X) as [|y l] eqn:Hx; [by simpl in Heq|]. simpl in Heq. subst y.
  assert (p ∈ without S X) as Hin by (rewrite Hx; apply list_elem_of_here). by apply elem_of_without in Hin as [_ ?].
Qed.
Lemma fewer_turns m P N S m1 N1 p x n : m_CurrentQuestion m = p → p ≠ 0 → stops_only m P N S m1 N1 →
  (m_CurrentQuestion m1 ≠ p → x = m_CurrentQuestion m1) →
  (∀ A X, without S P ++ N1 = A ++ p :: X → m_CurrentQuestion m1 = p → x = hd 0 X) →
  turns_left m (P ++ N) (Datatypes.S n) → turns_left (with_current m1 x) (without S P ++ N1) n.
Proof.
  intros Hc Hp0 [-> Hso] Hstay Hnext (A & X & HP & Hx & Hlen). rewrite <- without_app in *. pose proof (Hso A X HP Hx) as Hc1.
  destruct X as [|y X]; simpl in Hx; [congruence|]. assert (y = p) as -> by congruence. rewrite HP in *. rewrite without_app in *.
  assert (length (without S X) < n)%nat as Hl by (pose proof (length_filter (fun x => x ∉ S) X); unfold without; simpl in Hlen; lia).
  unfold turns_left, with_current. struct_simpl. destruct (decide (p ∈ S)) as [HpS|HpS].
  - assert (without S (p :: X) = without S X) as Hw by (unfold without; by rewrite filter_cons_False by naive_solver). rewrite Hw in *.
    exists (without S A), (without S X). split_and!; [done| |done]. rewrite <- Hc1. apply Hstay. rewrite Hc1. by apply hd_without.
  - assert (without S (p :: X) = p :: without S X) as Hw by (unfold without; by rewrite filter_cons_True). rewrite Hw in *.
    exists (without S A ++ [p]), (without S X). split_and!; [by rewrite <- app_assoc| |done]. by apply (Hnext (without S A)).
Qed.
Lemma walk_any_spec t co J C body : turn_any t co J C body → (∀ m m', wframe co m m' → J m → J m') → ∀ fuel m P N L M,
  locked m → inv t co 0 m P N L M → here m (P ++ N) → J m →
  (∃ m' P' N' L' M', walk fuel (fun _ => 0) body m = Ret m' ∧ wframe co m m' ∧ inv t co 0 m' P' N' L' M') ∨
  (walk fuel (fun _ => 0) body m = Fault OutOfFuel ∧ ¬ (C ∧ turns_left m (P ++ N) fuel)).
Proof.
  intros Hbody HJ. induction fuel as [|fuel IH]; intros m P N L M Hlk Hi Hh HJm; cbn [walk].
  { right. split; [done|]. intros (_ & A & X & _ & _ & Hl). lia. }
  rewrite orb_diag. destruct (Z.eqb_spec (m_CurrentQuestion m) 0) as [Hz|Hp0]; [left; by exists m, P, N, L, M|].
  destruct Hh as [?|Hp]; [done|]. destruct (Hbody m P N L M (m_CurrentQuestion m) Hlk Hi Hp eq_refl HJm) as (m1 & S & N1 & M1 & -> & Han & Hso). cbn [obind].
  destruct (advance_any t co m1 _ N1 _ M1 (m_CurrentQuestion m) (an_inv Han)) as (x & -> & Hh2 & Hstay & Hnext); [by apply (an_here Han); right|done|]. cbn [obind].
  pose proof (an_frame Han) as Hf1. set (m2 := with_current m1 x) in *.
  assert (wframe co m m2) as Hf2 by (transitivity m1; [done|apply wframe_current]).
  destruct (IH m2 (without S P) N1 (without S L) M1) as [(m' & P' & N' & L' & M' & -> & Hf' & Hi')|[-> Hno]].
  - by eapply wframe_locked.
  - by apply inv_current, (an_inv Han).
  - done.
  - by eapply HJ.
  - left. exists m', P', N', L', M'. split; [done|]. split; [by transitivity m2|done].
  - right. split; [done|]. intros [HC Hl]. apply Hno. split; [done|]. by eapply (fewer_turns m P N S m1 N1 (m_CurrentQuestion m)); [| |apply Hso| | |].
Qed.

(** ** The turns *)
Definition record_at co m r : Prop := ∃ cr, m_ents m !! r = Some (ERecord cr) ∧ record_ok (m_ents m) co cr.
Lemma record_at_frame co m m' r : wframe co m m' → record_at co m r → record_at co m' r.
Proof.
  intros Hf (cr & Hr & Hok). by apply (same_record_ok (sc_ents _ _ (wf_cache _ _ _ Hf)) co r cr).
Qed.

(** What does not move the walk. *)
Record steady t co m P N L M m' : Prop := {
  sd_inv : inv t co 0 m' P N L M; sd_frame : wframe co m m'; sd_cur : m_CurrentQuestion m' = m_CurrentQuestion m;
  sd_names : same_names [] (m_qs m) (m_qs m')
}.
Lemma steady_trans t co m m1 m2 P N L M : steady t co m P N L M m1 → steady t co m1 P N L M m2 → steady t co m P N L M m2.
Proof. intros [_ Hf Hc Hna] [Hi' Hf' Hc' Hna']. split; [done|by transitivity m1|congruence|exact (names_trans [] [] _ _ _ Hna Hna')]. Qed.
Lemma steady_refl t co m P N L M : inv t co 0 m P N L M → steady t co m P N L M m.
Proof. split; try done. apply names_refl. Qed.
Lemma steady_vol t co m m' P N L M : inv t co 0 m P N L M → vol m m' → steady t co m P N L M m'.
Proof.
  intros Hi Hv. destruct (fixed_fields _ _ (vo_fixed _ _ Hv)) as (_ & _ & _ & _ & _ & HQ & _ & _ & ? & _).
  split; [by eapply inv_vol|by apply wframe_vol|done|]. rewrite HQ. apply names_refl.
Qed.
Lemma steady_set_q t co m P N L M p f : inv t co 0 m P N L M → p ∈ P ++ N → (∀ q, alike q (f q) ∧ Q_DuplicateOf (f q) = Q_DuplicateOf q) →
  ∃ m', set_q m p f = Ret m' ∧ steady t co m P N L M m' ∧ m_ents m' = m_ents m.
Proof.
  intros Hi Hp Hf. destruct (qlists_at (iv_q Hi) p Hp) as (q & Hq & _). rewrite (set_q_at m p q _ Hq). eexists. split; [done|]. split; [|done].
  destruct (Hf q) as [Hal Hd]. split; [apply (inv_put_q t co 0 m P N L M p q); [done|done|done|by left]|split; try done; by eauto|done|].
  by apply names_shape, (shape_insert _ p q).
Qed.
Lemma steady_log t co m P N L M b e : inv t co 0 m P N L M → steady t co m P N L M (log_if b e m).
Proof.
  intros Hi. unfold log_if, LogMsg. destruct b; [|by apply steady_refl]. split; [|split; try done; by eauto|done|apply names_refl].
  destruct Hi. split; try done. by apply (same_cache_wf t co m).
Qed.
Lemma steady_next t co m P N L M p : inv t co 0 m P N L M → p ∈ P ++ N → ∃ m', SetNextQueryTime m p = Ret m' ∧ steady t co m P N L M m' ∧ m_ents m' = m_ents m.
Proof.
  intros Hi Hp. destruct (qlists_at (iv_q Hi) p Hp) as (q & Hq & _). destruct (SetNextQueryTime_spec m p q Hq) as (x & y & ->).
  eexists. split; [done|]. split; [|done]. split; [by apply inv_sched|split; try done; by eauto|done|apply names_refl].
Qed.
Lemma answers_spec t co m P N L M r p : inv t co 0 m P N L M → subject co m r → p ∈ P ++ N →
  ∃ b, answers m r p = Ret b ∧ (b = true → record_at co m r → named_for m r p).
Proof.
  intros Hi Hs Hp. pose proof (iv_cache Hi) as Hw. unfold answers. destruct (subject_spec t co m r Hw Hs) as (cr & rr & Hcr & Hrr & Hn & _).
  rewrite Hcr. cbn [obind]. rewrite Hrr. cbn [obind]. destruct (qlists_at (iv_q Hi) p Hp) as (q & Hq & Hok & _). rewrite (get_q_at m p q Hq). cbn [obind].
  destruct (answers_total rr q Hn (qk_name _ Hok)) as (b & Hb & Hsm). exists b. split; [done|]. intros Hbt (c & Hr & cg & Hcg & Hgo & _).
  rewrite (get_rec_at Hw r c Hr) in Hcr. injection Hcr as ->. exists cr, cg, q. split_and!; try done.
  unfold resrec_of in Hrr. rewrite (proj2 (Z.eqb_neq _ 0)) in Hrr by by eapply wf_nonzero. rewrite (get_group_at _ cg Hcg) in Hrr.
  injection Hrr as <-. by apply Hsm.
Qed.

(** A record of the cache is added. *)
Definition added co r m : Prop := record_at co m r ∧ r ≠ co ∧ m_rrcache_size m ≠ 0.
Lemma added_frame co r m m' : wframe co m m' → added co r m → added co r m'.
Proof. intros Hf (Hr & Hco & Hsz). split; [by eapply record_at_frame|]. split; [done|]. by rewrite (sc_size _ _ (wf_cache _ _ _ Hf)). Qed.
Lemma add_turn `{!ClientOk} t co r : turn_ok t co (added co r) (answer_body r QC_add).
Proof.
  intros m P N L M A X p Hlk Hi HP Hcur (Hr & Hco & Hsz). unfold answer_body. assert (subject co m r) as Hs by by right.
  destruct (answers_spec t co m P N L M r p Hi Hs) as (b & -> & Hb); [rewrite HP; set_solver|]. cbn [obind]. destruct b.
  - apply (answer_current_spec t co m P N L M p r A X); try done. intros _. split; [done|]. by apply Hb.
  - exists m, [], N, M. split; [done|]. split; [by apply answered_still; [| | |apply names_refl]|by intros ?%elem_of_nil].
Qed.
(** A record that is not kept is delivered. *)
Definition passing co m : Prop := subject co m rec_ptr ∧ m_rrcache_size m ≠ 0.
Lemma passing_frame co m m' : wframe co m m' → passing co m → passing co m'.
Proof. intros Hf (Hr & Hsz). split; [by eapply subject_frame|]. by rewrite (sc_size _ _ (wf_cache _ _ _ Hf)). Qed.
(** Nothing is started: the record is no referral, and no client starts a
    question. *)
Definition rec_type m : Z := rr_rrtype (cr_resrec (m_rec m)).
Lemma wframe_rec_type co m m' : wframe co m m' → rec_type m' = rec_type m.
Proof. intros Hf. exact (f_equal (fun cr => rr_rrtype (cr_resrec cr)) (wf_rec _ _ _ Hf)). Qed.
Definition no_starts (ty : Z) : Prop := ty ≠ kDNSType_CNAME ∧ starts_none QC_addnocache.
Lemma passing_turn `{!ClientOk} t co ty : turn_any t co (fun m => passing co m ∧ rec_type m = ty) (no_starts ty) (answer_body rec_ptr QC_addnocache).
Proof.
  intros m P N L M p Hlk Hi Hp Hcur [[Hs Hsz] Hty]. unfold answer_body.
  destruct (answers_spec t co m P N L M rec_ptr p Hi Hs Hp) as (b & -> & _). cbn [obind]. destruct b.
  - destruct (answer_current_any t co m P N L M p rec_ptr QC_addnocache Hlk Hi Hp Hcur Hs) as (m' & S & N' & M' & ? & ? & _ & Hso); [by intros [=]|done|].
    exists m', S, N', M'. split; [done|]. split; [done|]. intros [Hne Hst]. apply Hso; [done|]. unfold get_rec. rewrite Z.eqb_refl. intros cr [= <-].
    unfold rec_type in Hty. by rewrite Hty.
  - exists m, [], N, M. split; [done|]. split; [by apply answered_still; [| | |apply names_refl]|]. intros _. by apply stops_refl.
Qed.
(** The record that was cut out is removed. *)
Definition removed co r m : Prop := subject co m r ∧ m_rrcache_size m ≠ 0.
Lemma removed_frame co r m m' : wframe co m m' → removed co r m → removed co r m'.
Proof. intros Hf (Hr & Hsz). split; [by eapply subject_frame|]. by rewrite (sc_size _ _ (wf_cache _ _ _ Hf)). Qed.
Lemma uncount_alike rr q : alike q (uncount_answer rr q) ∧ Q_DuplicateOf (uncount_answer rr q) = Q_DuplicateOf q.
Proof. unfold uncount_answer. struct_simpl. destruct (Q_CurrentAnswers q =? 0); (split; [by split|done]). Qed.
Lemma remove_turn `{!ClientOk} t co r : turn_ok t co (removed co r) (remove_body r).
Proof.
  intros m P N L M A X p Hlk Hi HP Hcur [Hs Hsz]. unfold remove_body. assert (p ∈ P ++ N) as Hp by (rewrite HP; set_solver).
  assert (∀ m', steady t co m P N L M m' → ∃ m'' S N' M', Ret m' = Ret m'' ∧ answered t co m P N L M S m'' N' M' ∧ (p ∈ S → m_CurrentQuestion m'' ≠ p)) as Hstill.
  { intros m' [Hi' Hf' Hc' Hna']. exists m', [], N, M. split; [done|]. split; [by apply answered_still|by intros ?%elem_of_nil]. }
  destruct (answers_spec t co m P N L M r p Hi Hs Hp) as (b & -> & _). cbn [obind]. destruct b; cbn [negb]; [|by apply Hstill, steady_refl].
  destruct (subject_spec t co m r (iv_cache Hi) Hs) as (cr & rr & -> & _). cbn [obind].
  destruct (qlists_at (iv_q Hi) p Hp) as (q & Hq & _). rewrite (get_q_at m p q Hq). cbn [obind].
  pose proof (steady_log t co m P N L M (Q_CurrentAnswers q =? 0) CacheRecordRmv_zero Hi) as Hst1. set (m1 := log_if _ _ m) in *.
  destruct (steady_set_q t co m1 P N L M p (uncount_answer (cr_resrec cr)) (sd_inv _ _ _ _ _ _ _ _ Hst1) Hp) as (m2 & -> & Hst2 & _);
    [intros q0; apply uncount_alike|]. cbn [obind]. pose proof (steady_trans _ _ _ _ _ _ _ _ _ Hst1 Hst2) as Hst02.
  destruct (rr_MaxRDLength (cr_resrec cr) =? 0); [by apply Hstill|]. pose proof (sd_inv _ _ _ _ _ _ _ _ Hst2) as Hi2.
  destruct (qlists_at (iv_q Hi2) p Hp) as (q2 & Hq2 & Hok2 & _). rewrite (get_q_at m2 p q2 Hq2). cbn [obind].
  assert (∃ m3, (if Q_CurrentAnswers q2 =? 0 then ReconfirmAntecedents 5 m2 (q_qname (Q_q q2)) (q_qnamehash (Q_q q2)) else Ret m2) = Ret m3 ∧
    steady t co m P N L M m3) as (m3 & -> & Hst3).
  { destruct (Q_CurrentAnswers q2 =? 0); [|exists m2; split; [done|exact Hst02]]. destruct (ReconfirmAntecedents_vol t co 5 m2 _ _ (iv_cache Hi2) (qk_name _ Hok2)) as (m3 & -> & Hv).
    exists m3. split; [done|]. eapply steady_trans; [exact Hst02|]. by apply steady_vol. }
  cbn [obind]. destruct Hst3 as [Hi3 Hf3 Hc3].
  destruct (answer_current_spec t co m3 P N L M p r A X QC_rmv) as (m4 & S & N4 & M4 & -> & Han & Hg); try done.
  - by eapply wframe_locked.
  - congruence.
  - by eapply subject_frame.
  - by rewrite (sc_size _ _ (wf_cache _ _ _ Hf3)).
  - exists m4, S, N4, M4. split; [done|]. split; [|done]. by apply (answered_after t co m m3).
Qed.
End Walk.
