(* ===== verification/MDNSExpire.v ===== *)
(** Records come and go: [CacheRecordAdd], [CacheRecordDeferredAdd] and
    [CacheRecordRmv] return for every client, and so do
    [CheckCacheExpiration] and the purge of the cache in [mDNS_Execute],
    which release the records that have expired and the groups that are
    empty. *)
From S2P Require Import Prelude Bytes DNSTypes DNSName DNSRecord DNSMessage MDNSTypes MDNSCache MDNSQuestion MDNSAnswer MDNSList MDNSInv MDNSPool MDNSRecycle MDNSGet MDNSQInv MDNSStart MDNSStop MDNSClient MDNSVolatile MDNSWalk.

Implicit Types (E : gmap Z CacheEntity) (m : mDNS) (p r t co g h : Z) (l P N L M S A X ks rs : list Z) (q : Question).

(** The invariant, whatever the questions are. *)
Definition good t co m : Prop := ∃ P N L M, inv t co 0 m P N L M.
Lemma good_wf t co m : good t co m → cache_wf t co m.
Proof. intros (P & N & L & M & Hi). apply Hi. Qed.
Lemma good_vol t co m m' : vol m m' → good t co m → good t co m'.
Proof. intros Hv (P & N & L & M & Hi). exists P, N, L, M. by eapply inv_vol. Qed.

Section Expire.
Context `{PlatformOk} `{!ClientOk}.

(** ** Whole walks *)
Lemma deliver_spec t co J body e m : turn_ok t co J body → (∀ m m', wframe co m m' → J m → J m') → locked m → good t co m → J m →
  ∃ m', (let m := start_walk m e in let* m := walk (q_fuel m) m_NewQuestions body m in Ret (m <| m_CurrentQuestion := 0 |>)) = Ret m' ∧
    good t co m' ∧ wframe co m m' ∧ m_CurrentQuestion m' = 0.
Proof.
  intros Hbody HJ Hlk (P & N & L & M & Hi) HJm. cbv zeta. set (m1 := start_walk m e).
  assert (m1 = with_current (log_if (negb (m_CurrentQuestion m =? 0)) e m) (m_Questions m)) as Hm1 by (unfold m1, start_walk, log_if; by destruct (negb _)).
  pose proof (steady_log t co m P N L M (negb (m_CurrentQuestion m =? 0)) e Hi) as [Hil Hfl _ _].
  assert (wframe co m m1) as Hf1 by (rewrite Hm1; etransitivity; [exact Hfl|apply wframe_current]).
  assert (inv t co 0 m1 P N L M) as Hi1 by (rewrite Hm1; by apply inv_current). 
  destruct (walk_spec t co J body Hbody HJ (q_fuel m1) m1 P N L M [] P) as (m2 & S & N2 & M2 & -> & Hf2 & Hi2).
  - by eapply wframe_locked.
  - done.
  - done.
  - rewrite Hm1. unfold with_current. struct_simpl. pose proof (ql_chain (iv_q Hi)) as Hch. left. destruct (P ++ N); simpl; [done|]. by destruct Hch.
  - by eapply HJ.
  - unfold q_fuel. pose proof (proj1 (qlists_fuel _ _ _ _ _ _ (iv_q Hi1))) as Hl. rewrite length_app in Hl. lia.
  - cbn [obind]. eexists. split; [done|]. split; [eexists _, _, _, _; by apply (inv_current t co 0 m2)|]. split; [|done].
    transitivity m1; [done|]. transitivity m2; [done|apply wframe_current].
Qed.

Lemma CacheRecordDeferredAdd_spec t co m r : locked m → good t co m → added co r m →
  ∃ m', CacheRecordDeferredAdd m r = Ret m' ∧ good t co m' ∧ wframe co m m' ∧ m_CurrentQuestion m' = 0.
Proof.
  intros Hlk Hg Ha. unfold CacheRecordDeferredAdd. pose proof Ha as ((cr & Hr & _) & _).
  destruct (set_rec_vol t co m r cr (fun cr => cr <| cr_DelayDelivery := 0 |>) (good_wf _ _ _ Hg) Hr) as (m1 & -> & Hv & _); [done|done|]. cbn [obind].
  pose proof (wframe_vol co _ _ Hv) as Hf1.
  destruct (deliver_spec t co (added co r) (answer_body r QC_add) CacheRecordDeferredAdd_current m1) as (m2 & Hrun & Hg2 & Hf2 & Hc2).
  - apply add_turn.
  - intros; by eapply added_frame.
  - by eapply wframe_locked.
  - by eapply good_vol.
  - by eapply added_frame.
  - exists m2. split; [exact Hrun|]. split; [done|]. split; [by transitivity m1|done].
Qed.
Lemma CacheRecordRmv_spec t co m r : locked m → good t co m → removed co r m →
  ∃ m', CacheRecordRmv m r = Ret m' ∧ good t co m' ∧ wframe co m m' ∧ m_CurrentQuestion m' = 0.
Proof.
  intros Hlk Hg Ha. apply (deliver_spec t co (removed co r) (remove_body r)); try done; [apply remove_turn|intros; by eapply removed_frame].
Qed.

(** ** Counting the answers of a new record *)
Lemma set_q_alike_fields q x y z n : alike q (q <| Q_CurrentAnswers := x |> <| Q_unansweredQueries := y |> <| Q_LargeAnswers := z |> <| Q_UniqueAnswers := n |>).
Proof. by split. Qed.
Lemma count_answer_spec t co m P N L M r p : inv t co 0 m P N L M → record_at co m r → p ∈ P ++ N →
  ∃ m', count_answer m r p = Ret m' ∧ steady t co m P N L M m'.
Proof.
  intros Hi Hr Hp. unfold count_answer. destruct (qlists_at (iv_q Hi) p Hp) as (q & Hq & _). rewrite (get_q_at m p q Hq). cbn [obind].
  match goal with |- context [let* m := (if Q_LastAnswerPktNum q =? m_PktNum m then Ret m else ?b) in _] =>
    assert (∃ m1, (if Q_LastAnswerPktNum q =? m_PktNum m then Ret m else b) = Ret m1 ∧ steady t co m P N L M m1) as (m1 & -> & Hst1) end.
  { destruct (Q_LastAnswerPktNum q =? m_PktNum m); [exists m; split; [done|by apply steady_refl]|].
    destruct (steady_set_q t co m P N L M p (fun qq => qq <| Q_LastAnswerPktNum := m_PktNum m |>) Hi Hp) as (m1 & -> & Hst1 & _); [intros; by split; [split|]|]. cbn [obind].
    destruct (_ && ActiveQuestion q); [|by exists m1].
    destruct (steady_set_q t co m1 P N L M p (fun qq => qq <| Q_RecentAnswerPkts := u32 (Q_RecentAnswerPkts qq + 1) |>) (sd_inv _ _ _ _ _ _ _ _ Hst1) Hp)
      as (m2 & -> & Hst2 & _); [intros; by split; [split|]|]. cbn [obind]. pose proof (steady_trans _ _ _ _ _ _ _ _ _ Hst1 Hst2) as Hst02.
    destruct (_ && _); [|by exists m2]. pose proof (random_vol m2 (u32 (one_second * 4))) as Hv. destruct (random m2 _) as [m3 x]. simpl in Hv.
    pose proof (steady_vol t co m2 m3 P N L M (sd_inv _ _ _ _ _ _ _ _ Hst2) Hv) as Hst3. pose proof (steady_trans _ _ _ _ _ _ _ _ _ Hst02 Hst3) as Hst03.
    match goal with |- context [set_q m3 p ?f] => destruct (steady_set_q t co m3 P N L M p f (sd_inv _ _ _ _ _ _ _ _ Hst3) Hp) as (m4 & -> & Hst4 & _) end;
      [intros; by split; [split|]|]. cbn [obind]. destruct (steady_next t co m4 P N L M p (sd_inv _ _ _ _ _ _ _ _ Hst4) Hp) as (m5 & -> & Hst5 & _).
    exists m5. split; [done|]. eapply steady_trans; [exact Hst03|]. by eapply steady_trans. }
  cbn [obind]. destruct (record_at_frame co m m1 r (sd_frame _ _ _ _ _ _ _ _ Hst1) Hr) as (cr & Hcr & _).
  rewrite (get_rec_at (iv_cache (sd_inv _ _ _ _ _ _ _ _ Hst1)) r cr Hcr). cbn [obind].
  match goal with |- context [set_q m1 p ?f] => destruct (steady_set_q t co m1 P N L M p f (sd_inv _ _ _ _ _ _ _ _ Hst1) Hp) as (m2 & -> & Hst2 & HE2) end;
    [intros; split; [apply set_q_alike_fields|done]|]. cbn [obind]. pose proof (steady_trans _ _ _ _ _ _ _ _ _ Hst1 Hst2) as Hst02.
  destruct (qlists_at (iv_q (sd_inv _ _ _ _ _ _ _ _ Hst2)) p Hp) as (q2 & Hq2 & _). rewrite (get_q_at m2 p q2 Hq2). cbn [obind].
  destruct (4000 <? _); [|by exists m2].
  match goal with |- context [set_rec m2 r ?f] => destruct (set_rec_vol t co m2 r cr f) as (m3 & -> & Hv3 & _) end;
    [apply (sd_inv _ _ _ _ _ _ _ _ Hst2)|by rewrite HE2|done|done|].
  exists m3. split; [done|]. eapply steady_trans; [exact Hst02|]. apply steady_vol; [apply Hst2|done].
Qed.
Lemma count_loop_spec t co r P N L M : ∀ X fuel m A h, inv t co 0 m P N L M → record_at co m r → P = A ++ X → lseg (qnx (m_qs m)) h (hd 0 N) X →
  (length X < fuel)%nat → ∃ m', count_loop fuel m r h = Ret m' ∧ steady t co m P N L M m'.
Proof.
  induction X as [|p X IH]; intros [|fuel] m A h Hi Hr HP Hch Hf; simpl in Hf; try lia; cbn [count_loop].
  - simpl in Hch. subst h. rewrite (iv_new Hi), Z.eqb_refl, orb_true_r. exists m. split; [done|by apply steady_refl].
  - destruct Hch as (-> & Hp0 & n & (q & Hq & <-)%qnx_Some & HX). assert (p ∈ P ++ N) as Hp by (rewrite HP; set_solver).
    assert (p ≠ m_NewQuestions m) as Hnew.
    { rewrite (iv_new Hi). intros Heq. pose proof (chain_NoDup _ _ _ (ql_chain (iv_q Hi))) as Hnd. apply NoDup_app in Hnd as (_ & Hnd & _).
      destruct N as [|y N]; [done|]. simpl in Heq. subst y. apply (Hnd p); [rewrite HP; set_solver|apply list_elem_of_here]. }
    rewrite (proj2 (Z.eqb_neq p 0)), (proj2 (Z.eqb_neq p (m_NewQuestions m))) by done. cbn [orb].
    destruct (answers_spec t co m P N L M r p Hi (or_intror Hr) Hp) as (b & -> & _). cbn [obind].
    assert (∃ m1, (if b then count_answer m r p else Ret m) = Ret m1 ∧ steady t co m P N L M m1) as (m1 & -> & Hst1).
    { destruct b; [by apply count_answer_spec|]. exists m. split; [done|by apply steady_refl]. }
    cbn [obind]. pose proof (sd_inv _ _ _ _ _ _ _ _ Hst1) as Hi1. destruct (qlists_at (iv_q Hi1) p Hp) as (q1 & Hq1 & _ & Hloc1 & _).
    rewrite (get_q_at m1 p q1 Hq1). cbn [obind].
    assert (chain (qnx (m_qs m1)) (m_Questions m1) (A ++ p :: X ++ N)) as Hch1.
    { pose proof (ql_chain (iv_q Hi1)) as Hc. rewrite HP, <- app_assoc in Hc. exact Hc. }
    destruct (IH fuel m1 (A ++ [p]) (Q_next q1)) as (m' & Hrun & Hst').
    + done.
    + by eapply record_at_frame; [apply Hst1|].
    + by rewrite <- app_assoc.
    + apply lseg_app in Hch1 as (k & _ & <- & _ & n & (c & Hc & <-)%qnx_Some & Hrest). rewrite Hq1 in Hc. injection Hc as <-.
      apply lseg_app in Hrest as (k' & HXs & HN). assert (k' = hd 0 N) as <-; [|done]. destruct N; [done|by destruct HN].
    + lia.
    + exists m'. split; [done|]. by eapply steady_trans.
Qed.
Lemma CacheRecordAdd_spec t co m r : locked m → good t co m → added co r m → ∃ m', CacheRecordAdd m r = Ret m' ∧ good t co m' ∧ wframe co m m'.
Proof.
  intros Hlk (P & N & L & M & Hi) Ha. pose proof Ha as (Hr & Hco & Hsz). unfold CacheRecordAdd.
  destruct (count_loop_spec t co r P N L M P (q_fuel m) m [] (m_Questions m) Hi Hr eq_refl) as (m1 & -> & Hst1).
  { pose proof (ql_chain (iv_q Hi)) as (k & HP & HN)%lseg_app. assert (k = hd 0 N) as <-; [|done]. destruct N; [done|by destruct HN]. }
  { unfold q_fuel. pose proof (proj1 (qlists_fuel _ _ _ _ _ _ (iv_q Hi))) as Hl. rewrite length_app in Hl. lia. }
  cbn [obind]. destruct Hst1 as [Hi1 Hf1 _ _]. destruct (added_frame co r m m1 Hf1 Ha) as (Hr1 & _ & Hsz1). pose proof Hr1 as (cr1 & Hcr1 & _).
  rewrite (get_rec_at (iv_cache Hi1) r cr1 Hcr1). cbn [obind]. assert (good t co m1) as Hg1 by by exists P, N, L, M.
  match goal with |- context [if cr_DelayDelivery cr1 =? 0 then ?b else Ret m1] => assert (∃ m2, (if cr_DelayDelivery cr1 =? 0 then b else Ret m1) = Ret m2 ∧
    good t co m2 ∧ wframe co m m2) as (m2 & -> & Hg2 & Hf2) end.
  { destruct (cr_DelayDelivery cr1 =? 0); [|by exists m1]. destruct (deliver_spec t co (added co r) (answer_body r QC_add) CacheRecordAdd_current m1) as (m2 & Hrun & Hg2 & Hf2 & _).
    - apply add_turn.
    - intros; by eapply added_frame.
    - by eapply wframe_locked.
    - done.
    - done.
    - exists m2. split; [exact Hrun|]. split; [done|]. by transitivity m1. }
  cbn [obind]. destruct (record_at_frame co m m2 r Hf2 Hr) as (cr2 & Hcr2 & _).
  destruct (SetNextCacheCheckTime_vol t co m2 r cr2 (good_wf _ _ _ Hg2) Hcr2) as (m3 & cr3 & -> & Hv3 & _).
  exists m3. split; [done|]. split; [by eapply good_vol|]. transitivity m2; [done|by apply wframe_vol].
Qed.

(** ** What expiry leaves alone *)
Definition group_name E g : option (list Z) := match E !! g with Some (EGroup cg) => Some (cg_name cg) | _ => None end.
Lemma group_name_frame E E' x : same_frame E E' → group_name E' x = group_name E x.
Proof.
  intros Hf. specialize (Hf x). unfold group_name. destruct (E !! x) as [[| |cg|]|], (E' !! x) as [[| |cg'|]|]; simpl in Hf; try done.
  by destruct (frame_group_inv cg cg') as (_ & _ & -> & _); [simpl; congruence|].
Qed.
Record eframe m m' : Prop := {
  ef_lock : m_busy m' = m_busy m ∧ m_reentrancy m' = m_reentrancy m ∧ m_timenow m' = m_timenow m ∧ m_timenow_last m' = m_timenow_last m;
  ef_rrcache : m_lock_rrcache m' = m_lock_rrcache m;
  ef_own : m_ResourceRecords m' = m_ResourceRecords m;
  ef_hash : m_rrcache_hash m' = m_rrcache_hash m;
  ef_size : m_rrcache_size m' = m_rrcache_size m;
  ef_groups : ∀ x, group_next (m_ents m') x = group_next (m_ents m) x;
  ef_names : ∀ x, group_name (m_ents m') x = group_name (m_ents m) x
}.
#[export] Instance eframe_preorder : PreOrder eframe.
Proof.
  split; [by intros m; split|]. intros m m' m'' [(? & ? & ? & ?) ? ? ? ? ? ?] [(? & ? & ? & ?) ? ? ? ? ? ?]. split; [split_and!; congruence|congruence..].
Qed.
Lemma eframe_wframe co m m' : wframe co m m' → eframe m m'.
Proof.
  intros [? ? ? [? ? ? ? ? He] _ _]. split; try done; intros x; [apply (same_ents_next He)|]. unfold group_name.
  specialize (He x). destruct (m_ents m !! x) as [[| |cg|]|], (m_ents m' !! x) as [[| |cg'|]|]; simpl in He; congruence.
Qed.
Lemma eframe_locked m m' : eframe m m' → locked m → locked m'.
Proof. intros [(Hb & Hr & Ht & Hl) _ _ _ _ _ _] []. split; rewrite ?Hb, ?Hr, ?Ht, ?Hl; done. Qed.

(** What releasing entities leaves alone. *)
Lemma outside_fields m m' : outside m' = outside m → m_busy m' = m_busy m ∧ m_reentrancy m' = m_reentrancy m ∧ m_timenow m' = m_timenow m ∧ m_timenow_last m' = m_timenow_last m.
Proof. intros Ho. split_and!; [exact (f_equal m_busy Ho)|exact (f_equal m_reentrancy Ho)|exact (f_equal m_timenow Ho)|exact (f_equal m_timenow_last Ho)]. Qed.
Lemma outside_questions m m' : outside m' = outside m → m_qs m' = m_qs m ∧ m_Questions m' = m_Questions m ∧ m_LocalOnlyQuestions m' = m_LocalOnlyQuestions m ∧
  m_NewQuestions m' = m_NewQuestions m ∧ m_NewLocalOnlyQuestions m' = m_NewLocalOnlyQuestions m ∧ m_AuthInfoList m' = m_AuthInfoList m ∧
  m_rrcache_active m' = m_rrcache_active m.
Proof.
  intros Ho. split_and!; [exact (f_equal m_qs Ho)|exact (f_equal m_Questions Ho)|exact (f_equal m_LocalOnlyQuestions Ho)|exact (f_equal m_NewQuestions Ho)|
    exact (f_equal m_NewLocalOnlyQuestions Ho)|exact (f_equal m_AuthInfoList Ho)|exact (f_equal m_rrcache_active Ho)].
Qed.

(** ** Cutting out and releasing a record, with the questions *)
Lemma inv_reframe t o t' o' m E' P N L M : inv t o 0 m P N L M → same_frame (m_ents m) E' → cache_wf t' o' (m <| m_ents := E' |>) →
  (∀ c, E' !! o = Some (ERecord c) → cr_CRActiveQuestion c = 0) →
  inv t' o' 0 (m <| m_ents := E' |>) P N L M.
Proof.
  intros Hi Hf Hw Ho. destruct Hi as [Hc Hq Hn Hnl Hd Ha Hct Hk]. split; struct_simpl; try done.
  - intros r cr Hr Hro Hact. destruct (frame_rec Hf _ _ Hr) as (cr0 & Hr0 & Hg & _ & _ & Hq0). rewrite <- Hq0 in *.
    assert (r ≠ o) as Hro' by (intros ->; rewrite Hq0 in Hact; by apply Hact, Ho).
    destruct (Ha r cr0 Hr0 Hro' Hact) as [(q & cg & Hqq & Hcg & Hs) Hl]. split; [|done].
    pose proof (Hf (cr_group cr0)) as Hx. rewrite Hcg in Hx. destruct (E' !! cr_group cr0) as [[| |cg'|]|] eqn:Hcg'; simpl in Hx; try discriminate.
    exists q, cg'. rewrite <- Hg. split_and!; try done. destruct (frame_group_inv cg cg') as (_ & _ & <- & _); [simpl; congruence|done].
  - rewrite (frame_count Hf) by by intros []. done.
Qed.
Lemma inv_release t r m P N L M cr : inv t r 0 m P N L M → r ≠ 0 → m_ents m !! r = Some (ERecord cr) →
  let m1 := if cr_CRActiveQuestion cr =? 0 then m else m <| m_rrcache_active := u32 (m_rrcache_active m - 1) |> in
  ∃ m', ReleaseCacheRecord m1 r = Ret m' ∧ inv t 0 0 m' P N L M ∧ (∃ k, m_ents m' = <[r := EFree k]> (m_ents m)) ∧
    m_rrcache_hash m' = m_rrcache_hash m ∧ outside m' = outside m1 ∧ m_lock_rrcache m' = m_lock_rrcache m ∧ m_rrcache_size m' = m_rrcache_size m.
Proof.
  intros Hi Hr0 Hr m1. pose proof (iv_cache Hi) as Hw. assert (same_cache m m1 ∧ m_ents m1 = m_ents m) as [Hsc1 HE1] by (unfold m1; by destruct (_ =? 0)).
  pose proof (same_cache_wf t r m m1 Hw Hsc1) as Hw1. rewrite <- HE1 in Hr.
  destruct (release_wf t r m1 (ERecord cr) Hw1 Hr0 Hr eq_refl) as (Hrel & Hw2 & HE2 & Hout). match type of Hrel with _ = Ret ?x => set (m2 := x) in * end.
  exists m2. split; [unfold ReleaseCacheRecord; by rewrite (get_rec_at Hw1 r cr Hr)|].
  assert (m_rrcache_hash m2 = m_rrcache_hash m1 ∧ m_lock_rrcache m2 = m_lock_rrcache m1 ∧ m_rrcache_size m2 = m_rrcache_size m1) as (Hh & Hk2 & Hs2)
    by (unfold m2, free_block; by destruct (is_external _)).
  assert (m_rrcache_hash m1 = m_rrcache_hash m ∧ m_lock_rrcache m1 = m_lock_rrcache m ∧ m_rrcache_size m1 = m_rrcache_size m) as (Hh1 & Hk1 & Hs1)
    by (unfold m1; by destruct (_ =? 0)).
  split; [|split_and!; [eexists; rewrite <- HE1; exact HE2|congruence|done|congruence|congruence]].
  assert (m_qs m2 = m_qs m ∧ m_Questions m2 = m_Questions m ∧ m_LocalOnlyQuestions m2 = m_LocalOnlyQuestions m ∧ m_NewQuestions m2 = m_NewQuestions m ∧
    m_NewLocalOnlyQuestions m2 = m_NewLocalOnlyQuestions m ∧ m_AuthInfoList m2 = m_AuthInfoList m ∧ m_rrcache_active m2 = m_rrcache_active m1) as (HQ & HQs & HLs & HN & HM & Hau & Hact).
  { destruct (outside_questions _ _ Hout) as (F1 & F2 & F3 & F4 & F5 & F6 & F7).
    assert (m_qs m1 = m_qs m ∧ m_Questions m1 = m_Questions m ∧ m_LocalOnlyQuestions m1 = m_LocalOnlyQuestions m ∧ m_NewQuestions m1 = m_NewQuestions m ∧
      m_NewLocalOnlyQuestions m1 = m_NewLocalOnlyQuestions m ∧ m_AuthInfoList m1 = m_AuthInfoList m) as (<- & <- & <- & <- & <- & <-)
      by (unfold m1; by destruct (cr_CRActiveQuestion cr =? 0)).
    by split_and!. }
  destruct Hi as [_ Hq Hn Hnl Hd Ha Hct Hk]. pose proof (active_range t 0 m2 Hw2) as Hrange. clearbody m2.
  split; rewrite ?HQ, ?HQs, ?HLs, ?HN, ?HM, ?Hau; try done.
  - intros x cx Hx _ Hactx. rewrite HE2, HE1 in *. apply lookup_insert_Some in Hx as [[_ ?]|[Hne Hx]]; [done|].
    destruct (Ha x cx Hx ltac:(done) Hactx) as [(q & cg & Hqq & Hcg & Hs) Hl]. split; [|done]. exists q, cg. split; [done|]. split; [|done].
    rewrite lookup_insert_ne; [done|]. intros Heq. rewrite <- Heq in Hcg. congruence.
  - rewrite HE2, count_insert, Hr, HE1 in *. unfold cell in *. cbn [is_active Z.b2z] in *. rewrite Hact. unfold m1.
    destruct (Z.eqb_spec (cr_CRActiveQuestion cr) 0); cbn [negb Z.b2z] in *; [rewrite Hct; lia|]. struct_simpl. rewrite Hct, u32_id; lia.
Qed.

Lemma remove_record_spec m g cg ks r cr rs : good g 0 m → locked m → m_rrcache_size m ≠ 0 → m_ents m !! g = Some (EGroup cg) →
  chain (rec_next (m_ents m)) (cg_members cg) (ks ++ r :: rs) → m_ents m !! r = Some (ERecord cr) →
  ∃ m' cg', remove_record m (tail_of g ks) r = Ret m' ∧ good g 0 m' ∧ m_ents m' !! g = Some (EGroup cg') ∧
    chain (rec_next (m_ents m')) (cg_members cg') (ks ++ rs) ∧ eframe m m'.
Proof.
  intros (P & N & L & M & Hi) Hlk Hsz Hg Hch Hr. pose proof (iv_cache Hi) as Hw. pose proof (wf_nonzero _ _ _ _ _ Hw Hr) as Hr0.
  unfold remove_record. rewrite (get_rec_at Hw r cr Hr). cbn [obind].
  destruct (unlink_wf g m g cg ks r cr rs Hw (or_intror eq_refl) Hg Hch Hr) as (-> & Hw1 & cg1 & Hg1 & Hch1 & _ & Hr1). cbn [obind].
  pose proof (inv_reframe _ _ _ _ _ _ _ _ _ _ Hi (same_frame_relink _ _ _) Hw1 ltac:(intros c Hc; by apply (wf_nonzero _ _ _ _ _ Hw1) in Hc)) as Hi1.
  assert (eframe m (m <| m_ents := relink (m_ents m) (tail_of g ks) (cr_next cr) |>)) as He1.
  { split; try done; intros x; [apply (frame_next (same_frame_relink _ _ _))|apply group_name_frame, same_frame_relink]. }
  assert (r ∉ ks ++ rs) as Hrk.
  { apply chain_NoDup in Hch. rewrite <- Permutation_middle in Hch. by apply NoDup_cons in Hch as [? _]. }
  destruct (cw_rec Hw r cr Hr Hr0) as (cgr & Hcgr & _ & Hh & Htg).
  assert (cr_group cr = g) as Hgr.
  { destruct (wf_members Hw g cg Hg) as (all & Hall & Hin & _); [by eapply wf_nonzero|]. rewrite (chain_det _ _ _ _ Hall Hch) in Hin. apply (Hin r cr Hr). set_solver. }
  rewrite Hgr, Hg in Hcgr. injection Hcgr as <-. assert (g ≠ r) as Hne by (intros ->; congruence).
  set (m1 := m <| m_ents := relink (m_ents m) (tail_of g ks) (cr_next cr) |>) in *.
  assert (record_at r m1 r) as Hra.
  { exists cr. split; [done|]. exists cg1. rewrite Hgr. split_and!; try done. rewrite Hh.
    destruct (frame_group (same_frame_relink _ _ _) _ _ Hg1) as (c0 & Hc0 & _ & <- & _). rewrite Hg in Hc0. by injection Hc0 as <-. }
  assert (locked m1) as Hlk1 by by eapply eframe_locked.
  change (relink (m_ents m) (tail_of g ks) (cr_next cr)) with (m_ents m1) in Hg1, Hch1, Hr1. clearbody m1.
  assert (∃ m2 cr2, (if cr_CRActiveQuestion cr =? 0 then Ret m1 else
      let* m := CacheRecordRmv m1 r in Ret (m <| m_rrcache_active := u32 (m_rrcache_active m - 1) |>)) =
      Ret (if cr_CRActiveQuestion cr2 =? 0 then m2 else m2 <| m_rrcache_active := u32 (m_rrcache_active m2 - 1) |>) ∧
    good g r m2 ∧ wframe r m1 m2 ∧ m_ents m2 !! r = Some (ERecord cr2)) as (m2 & cr2 & -> & (P2 & N2 & L2 & M2 & Hi2) & Hf2 & Hr2).
  { destruct (cr_CRActiveQuestion cr =? 0) eqn:Hz.
    - exists m1, cr. rewrite Hz. split; [done|]. split; [by exists P, N, L, M|]. by split; [reflexivity|].
    - destruct (CacheRecordRmv_spec g r m1 r Hlk1) as (m2 & -> & Hg2 & Hf2 & _); [by exists P, N, L, M|split; [by right|by rewrite (ef_size _ _ He1)]|].
      destruct (wf_co _ _ _ Hf2 cr Hr1) as (cr2 & Hr2 & Hq2). exists m2, cr2. cbn [obind]. rewrite Hq2, Hz. by split_and!. }
  cbn [obind]. destruct (inv_release g r m2 P2 N2 L2 M2 cr2 Hi2 Hr0 Hr2) as (m3 & Hrun & Hi3 & (k & HE3) & Hh3 & Ho3 & Hk3 & Hs3).
  rewrite Hrun. pose proof (sc_ents _ _ (wf_cache _ _ _ Hf2)) as Hse. exists m3, cg1. split; [done|]. split; [by exists P2, N2, L2, M2|].
  apply (same_ents_group Hse) in Hg1 as Hg2. split; [by rewrite HE3, lookup_insert_ne by done|]. split.
  - apply (lseg_ext (rec_next (m_ents m1))); [|done]. intros x Hx. rewrite HE3. unfold rec_next at 1. rewrite lookup_insert_ne by (intros <-; done).
    apply (same_ents_next Hse).
  - transitivity m1; [done|]. transitivity m2; [by eapply eframe_wframe|]. split; try done.
    + destruct (outside_fields _ _ Ho3) as (F1 & F2 & F3 & F4). rewrite F1, F2, F3, F4. by destruct (cr_CRActiveQuestion cr2 =? 0).
    + pose proof (f_equal m_ResourceRecords Ho3) as F. change (m_ResourceRecords (outside m3)) with (m_ResourceRecords m3) in F. rewrite F.
      by destruct (cr_CRActiveQuestion cr2 =? 0).
    + intros x. rewrite HE3. unfold group_next. destruct (decide (x = r)) as [->|]; [by rewrite lookup_insert_eq, Hr2|by rewrite lookup_insert_ne].
    + intros x. rewrite HE3. unfold group_name. destruct (decide (x = r)) as [->|]; [by rewrite lookup_insert_eq, Hr2|by rewrite lookup_insert_ne].
Qed.

Lemma size_pos t co m p e : cache_wf t co m → m_ents m !! p = Some e → m_rrcache_size m ≠ 0.
Proof.
  intros Hw He. destruct (cw_size Hw) as [-> _]. intros Hz. assert (size (m_ents m) = 0%nat) as Hs by lia.
  apply map_size_empty_iff in Hs. by rewrite Hs in He.
Qed.

(** ** A record that has not expired *)
Lemma earlier_check_vol m x : vol m (earlier_check m x).
Proof. unfold earlier_check. destruct (_ <? _); [by split|reflexivity]. Qed.
Lemma keep_record_spec t m r : good t 0 m → locked m → added 0 r m → ∃ m', keep_record m r = Ret m' ∧ good t 0 m' ∧ wframe 0 m m'.
Proof.
  intros Hg Hlk Ha. unfold keep_record. pose proof Ha as ((cr & Hr & _) & _). rewrite (get_rec_at (good_wf _ _ _ Hg) r cr Hr). cbn [obind].
  match goal with |- context [let* '(_, _) := ?b in _] => assert (∃ m1 ev, b = Ret (m1, ev) ∧ good t 0 m1 ∧ wframe 0 m m1) as (m1 & ev & -> & Hg1 & Hf1) end.
  { destruct (negb _ && _); [by exists m, (cr_DelayDelivery cr)|].
    assert (∃ m1, (if cr_DelayDelivery cr =? 0 then Ret m else CacheRecordDeferredAdd m r) = Ret m1 ∧ good t 0 m1 ∧ wframe 0 m m1) as (m1 & -> & Hg1 & Hf1).
    { destruct (cr_DelayDelivery cr =? 0); [by exists m|]. destruct (CacheRecordDeferredAdd_spec t 0 m r Hlk Hg Ha) as (m1 & -> & Hg1 & Hf1 & _). by exists m1. }
    cbn [obind]. destruct (added_frame 0 r m m1 Hf1 Ha) as ((cr1 & Hr1 & _) & _). rewrite (get_rec_at (good_wf _ _ _ Hg1) r cr1 Hr1). cbn [obind].
    destruct (negb _ && _); [|by exists m1, (RRExpireTime cr)]. destruct (_ <? 0); [by exists m1, (cr_NextRequiredQuery cr1)|].
    assert (vol m1 (m1 <| m_NextScheduledQuery := m_timenow m1 |>)) as Hv by by split.
    eexists _, _. split; [done|]. split; [by eapply good_vol|]. transitivity m1; [done|by apply wframe_vol]. }
  cbn [obind]. destruct (added_frame 0 r m m1 Hf1 Ha) as ((cr1 & Hr1 & _) & _). rewrite (get_rec_at (good_wf _ _ _ Hg1) r cr1 Hr1). cbn [obind].
  eexists. split; [done|]. pose proof (earlier_check_vol m1 (s32 (ev + CacheCheckGracePeriod cr1))) as Hv.
  split; [by eapply good_vol|]. transitivity m1; [done|by apply wframe_vol].
Qed.

(** ** The records of a group *)
Lemma expire_loop_spec g rs : ∀ fuel m cg ks, good g 0 m → locked m → m_ents m !! g = Some (EGroup cg) →
  chain (rec_next (m_ents m)) (cg_members cg) (ks ++ rs) → (length rs < fuel)%nat →
  ∃ m' cg' rs', expire_loop fuel m (tail_of g ks) = Ret (m', tail_of g (ks ++ rs')) ∧ good g 0 m' ∧ eframe m m' ∧
    m_ents m' !! g = Some (EGroup cg') ∧ chain (rec_next (m_ents m')) (cg_members cg') (ks ++ rs').
Proof.
  induction rs as [|r rs IH]; intros [|fuel] m cg ks Hgd Hlk Hg Hch Hf; simpl in Hf; try lia; cbn [expire_loop].
  - rewrite app_nil_r in Hch. rewrite (read_rr_tail g 0 m g cg ks 0 (good_wf _ _ _ Hgd) Hg Hch). cbn [obind]. rewrite Z.eqb_refl.
    exists m, cg, []. rewrite app_nil_r. by split_and!.
  - pose proof (good_wf _ _ _ Hgd) as Hw. pose proof (size_pos _ _ _ _ _ Hw Hg) as Hsz.
    pose proof Hch as (k & Hks & -> & Hr0 & n & (cr & Hr & <-)%rec_next_Some & Hrs)%lseg_app.
    rewrite (read_rr_tail g 0 m g cg ks r Hw Hg Hks). cbn [obind]. rewrite (proj2 (Z.eqb_neq r 0)), (get_rec_at Hw r cr Hr) by done. cbn [obind].
    destruct (0 <=? _).
    + destruct (remove_record_spec m g cg ks r cr rs Hgd Hlk Hsz Hg Hch Hr) as (m1 & cg1 & -> & Hgd1 & Hg1 & Hch1 & He1). cbn [obind].
      destruct (IH fuel m1 cg1 ks Hgd1) as (m' & cg' & rs' & -> & Hgd' & He' & Hg' & Hch'); [by eapply eframe_locked|done|done|lia|].
      exists m', cg', rs'. split; [done|]. split; [done|]. split; [by transitivity m1|done].
    + assert (added 0 r m) as Ha by (split; [exists cr; split; [done|by apply (cw_rec Hw r cr Hr)]|done]).
      destruct (keep_record_spec g m r Hgd Hlk Ha) as (m1 & -> & Hgd1 & Hf1). cbn [obind].
      pose proof (sc_ents _ _ (wf_cache _ _ _ Hf1)) as Hse.
      destruct (IH fuel m1 cg (ks ++ [r]) Hgd1) as (m' & cg' & rs' & Hrun & Hgd' & He' & Hg' & Hch').
      * by eapply wframe_locked.
      * by apply (same_ents_group Hse).
      * rewrite <- app_assoc. eapply lseg_ext; [|exact Hch]. intros x _. apply (same_ents_next Hse).
      * lia.
      * rewrite tail_of_snoc in Hrun. exists m', cg', (r :: rs'). rewrite <- app_assoc in Hrun, Hch'. split; [done|]. split; [done|].
        split; [transitivity m1; [by eapply eframe_wframe|done]|done].
Qed.

Lemma good_weaken t m : good 0 0 m → good t 0 m.
Proof. intros (P & N & L & M & [Hc Hq Hn Hnl Hd Ha Hct Hk]). exists P, N, L, M. split; try done. by apply wf_weaken_tail. Qed.
Lemma good_lock t co m x : good t co m → good t co (m <| m_lock_rrcache := x |>).
Proof.
  intros (P & N & L & M & [Hc Hq Hn Hnl Hd Ha Hct Hk]). exists P, N, L, M. split; try done. by eapply same_cache_wf.
Qed.
Lemma good_set_tail t m g cg rs : good t 0 m → t = 0 ∨ t = g → m_ents m !! g = Some (EGroup cg) → chain (rec_next (m_ents m)) (cg_members cg) rs →
  ∃ m', set_group m g (fun cg => cg <| cg_rrcache_tail := tail_of g rs |>) = Ret m' ∧ good 0 0 m' ∧ eframe m m' ∧
    m_ents m' !! g = Some (EGroup (cg <| cg_rrcache_tail := tail_of g rs |>)) ∧ ∀ x, rec_next (m_ents m') x = rec_next (m_ents m) x.
Proof.
  intros (P & N & L & M & Hi) Ht Hg Hch. destruct (set_tail_wf t m g cg rs (iv_cache Hi) Ht Hg Hch) as [Hset Hw]. eexists. split; [exact Hset|].
  assert (same_frame (m_ents m) (<[g := EGroup (cg <| cg_rrcache_tail := tail_of g rs |>)]> (m_ents m))) as Hsf.
  { intros x. destruct (decide (x = g)) as [->|]; [by rewrite lookup_insert_eq, Hg|by rewrite lookup_insert_ne]. }
  split; [exists P, N, L, M; apply (inv_reframe _ _ _ _ _ _ _ _ _ _ Hi Hsf Hw); intros c Hc; by apply (wf_nonzero _ _ _ _ _ Hw) in Hc|].
  split; [split; try done; intros x; [apply (frame_next Hsf)|by apply group_name_frame]|]. unfold put_entity. struct_simpl. split; [by rewrite lookup_insert_eq|].
  intros x. unfold rec_next. destruct (decide (x = g)) as [->|]; [by rewrite lookup_insert_eq, Hg|by rewrite lookup_insert_ne].
Qed.
Lemma CheckCacheExpiration_spec m g cg : good 0 0 m → locked m → m_lock_rrcache m = 0 → m_ents m !! g = Some (EGroup cg) →
  ∃ m', CheckCacheExpiration m g = Ret m' ∧ good 0 0 m' ∧ eframe m m' ∧ ∃ cg', m_ents m' !! g = Some (EGroup cg').
Proof.
  intros Hgd Hlk Hl Hg. unfold CheckCacheExpiration. rewrite Hl. cbn [Z.eqb negb].
  destruct (wf_members (good_wf _ _ _ Hgd) g cg Hg) as (rs & Hch & _); [by eapply wf_nonzero; [by apply good_wf|]|].
  set (m1 := m <| m_lock_rrcache := 1 |>).
  destruct (expire_loop_spec g rs (list_fuel m1) m1 cg []) as (m2 & cg2 & rs2 & Hrun & Hgd2 & He2 & Hg2 & Hch2); try done.
  - by apply good_weaken, good_lock.
  - by destruct Hlk.
  - exact (wf_fuel _ _ Hch).
  - rewrite tail_of_nil in Hrun. cbn [app] in *. rewrite Hrun. cbn [obind].
    destruct (good_set_tail g m2 g cg2 rs2 Hgd2 (or_intror eq_refl) Hg2 Hch2) as (m3 & -> & Hgd3 & He3 & Hg3 & _). cbn [obind].
    eexists. split; [done|]. split; [by apply good_lock|]. split; [|by eexists].
    destruct He2 as [(? & ? & ? & ?) ? ? ? ? Hn2 Hm2], He3 as [(? & ? & ? & ?) ? ? ? ? Hn3 Hm3]. split; struct_simpl; [split_and!; etransitivity; eassumption|done|etransitivity; eassumption..| |].
    + intros x. by rewrite Hn3, Hn2.
    + intros x. by rewrite Hm3, Hm2.
Qed.

(** ** Purging the groups that are empty *)
Lemma released_at m g : cache_wf 0 0 m → g ≠ 0 → m_rrcache_free m = g → ∃ k, m_ents m !! g = Some (EFree k).
Proof.
  intros Hw Hg0 Hf. destruct (cw_free Hw) as ([|x l] & Hch & _); rewrite Hf in Hch; [by destruct Hg0|].
  destruct Hch as (-> & _ & n & Hn%free_next_Some & _). by exists n.
Qed.
Lemma good_release_group m m' g cg : good 0 0 m → cache_wf 0 0 m' → m_ents m !! g = Some (EGroup cg) → cg_members cg = 0 →
  m_rrcache_free m' = g → (∀ p, p ≠ g → gframe <$> m_ents m !! p = gframe <$> m_ents m' !! p) → outside m' = outside m → good 0 0 m'.
Proof.
  intros (P & N & L & M & Hi) Hw' Hg Hmem Hfree Hgf Hout. pose proof (iv_cache Hi) as Hw. pose proof (wf_nonzero _ _ _ _ _ Hw Hg) as Hg0.
  destruct (released_at m' g Hw' Hg0 Hfree) as [k Hk].
  destruct (outside_questions _ _ Hout) as (F1 & F2 & F3 & F4 & F5 & F6 & F7).
  exists P, N, L, M. destruct Hi as [_ Hq Hn Hnl Hd Ha Hct Hkeys]. split; rewrite ?F1, ?F2, ?F3, ?F4, ?F5, ?F6, ?F7; try done.
  - intros r cr Hr Hro Hact. assert (r ≠ g) as Hne by congruence. pose proof (Hgf r Hne) as Hx. rewrite Hr in Hx.
    destruct (m_ents m !! r) as [[| | |cr0]|] eqn:Hr1; try discriminate. simpl in Hx. injection Hx as ->.
    destruct (Ha r cr Hr1 Hro Hact) as [(q & c & Hqq & Hc & Hs) Hl]. split; [|done].
    assert (cr_group cr ≠ g) as Hgr.
    { destruct (wf_members Hw g cg Hg Hg0) as (rs & Hrs & Hin & _). rewrite Hmem in Hrs. apply chain_zero in Hrs as ->. intros Heq.
      assert (r ∈ []) as Hnil by (apply (Hin r cr Hr1); done). set_solver. }
    pose proof (Hgf _ Hgr) as Hy. rewrite Hc in Hy. destruct (m_ents m' !! cr_group cr) as [[| |c'|]|] eqn:Hc'; try discriminate.
    exists q, c'. split_and!; try done. simpl in Hy. injection Hy as _ _ _ <- _. done.
  - rewrite Hct. apply count_ext. intros p. destruct (decide (p = g)) as [->|Hne]; [by rewrite Hg, Hk|].
    pose proof (Hgf p Hne) as Hx. destruct (m_ents m !! p) as [[]|], (m_ents m' !! p) as [[]|]; simpl in Hx; try discriminate; try done.
    by injection Hx as ->.
Qed.

(** What the purge leaves alone. *)
Definition pframe m m' : Prop := m_busy m' = m_busy m ∧ m_reentrancy m' = m_reentrancy m ∧ m_timenow m' = m_timenow m ∧
  m_timenow_last m' = m_timenow_last m ∧ m_lock_rrcache m' = m_lock_rrcache m ∧ m_ResourceRecords m' = m_ResourceRecords m.
#[export] Instance pframe_equiv : Equivalence pframe.
Proof. split; [done|intros ?? (? & ? & ? & ? & ? & ?); by split_and!|intros ??? (? & ? & ? & ? & ? & ?) (? & ? & ? & ? & ? & ?); split_and!; congruence]. Qed.
Lemma pframe_locked m m' : pframe m m' → locked m → locked m'.
Proof. intros (Hb & Hr & Ht & Hl & _) []. split; rewrite ?Hb, ?Hr, ?Ht, ?Hl; done. Qed.
Lemma outside_pframe m m' : outside m' = outside m → m_lock_rrcache m' = m_lock_rrcache m → pframe m m'.
Proof. intros Ho Hl. destruct (outside_fields _ _ Ho) as (? & ? & ? & ?). split_and!; try done. exact (f_equal m_ResourceRecords Ho). Qed.
Lemma pframe_eframe m m' : eframe m m' → pframe m m'.
Proof. intros [(? & ? & ? & ?) ? ? _ _ _ _]. by split_and!. Qed.

Lemma purge_groups_spec rest : ∀ fuel m i h gs, good 0 0 m → locked m → m_lock_rrcache m = 0 → at_ (m_rrcache_hash m) i h →
  chain (group_next (m_ents m)) h (gs ++ rest) → (length rest < fuel)%nat →
  ∃ m', purge_groups fuel m (gtail_of i gs) = Ret m' ∧ good 0 0 m' ∧ pframe m m'.
Proof.
  induction rest as [|g rest IH]; intros [|fuel] m i h gs Hgd Hlk Hl Hi Hch Hf; simpl in Hf; try lia; cbn [purge_groups].
  - rewrite app_nil_r in Hch. rewrite (read_cg_tail m i h gs 0 Hi Hch). cbn [obind]. rewrite Z.eqb_refl. by exists m.
  - pose proof Hch as (k & Hgs & -> & Hg0 & n & (cg & Hg & <-)%group_next_Some & Hrest)%lseg_app.
    rewrite (read_cg_tail m i h gs g Hi Hgs). cbn [obind]. rewrite (proj2 (Z.eqb_neq g 0)) by done.
    destruct (CheckCacheExpiration_spec m g cg Hgd Hlk Hl Hg) as (m1 & -> & Hgd1 & He1 & cg1 & Hg1). cbn [obind].
    rewrite (get_group_at _ _ Hg1). cbn [obind]. pose proof (pframe_eframe _ _ He1) as Hp1. pose proof He1 as [_ Hl1 _ Hh1 _ Hn1 _].
    assert (at_ (m_rrcache_hash m1) i h) as Hi1 by by rewrite Hh1.
    assert (chain (group_next (m_ents m1)) h (gs ++ g :: rest)) as Hch1 by (eapply lseg_ext; [intros x _; apply Hn1|done]).
    assert (locked m1) as Hlk1 by by eapply pframe_locked. rewrite Hl in Hl1.
    destruct (Z.eqb_spec (cg_members cg1) 0) as [Hz|_]; cbn [negb].
    + destruct (ReleaseCacheGroup_wf m1 i h gs g cg1 rest (good_wf _ _ _ Hgd1) Hi1 Hch1 Hg1 Hz) as (m2 & h2 & -> & Hw2 & Hi2 & Hch2 & Hfr & Hgf & Ho & _ & Hl2).
      cbn [obind]. assert (pframe m1 m2) as Hp2 by by apply outside_pframe.
      destruct (IH fuel m2 i h2 gs) as (m' & Hrun & Hgd' & Hp'); try done; [by eapply good_release_group|by eapply pframe_locked|congruence|lia|].
      exists m'. split; [done|]. split; [done|]. transitivity m1; [done|]. by transitivity m2.
    + destruct (IH fuel m1 i h (gs ++ [g])) as (m' & Hrun & Hgd' & Hp'); try done; [by rewrite <- app_assoc|lia|].
      rewrite gtail_of_snoc in Hrun. exists m'. split; [done|]. split; [done|]. by transitivity m1.
Qed.
Lemma purge_slots_spec n : ∀ m s, good 0 0 m → locked m → m_lock_rrcache m = 0 → 0 ≤ s → s + Z.of_nat n ≤ CACHE_HASH_SLOTS →
  ∃ m', purge_slots n m s = Ret m' ∧ good 0 0 m' ∧ pframe m m'.
Proof.
  induction n as [|n IH]; intros m s Hgd Hlk Hl Hs Hb; cbn [purge_slots]; [by exists m|].
  destruct (at_exists (m_rrcache_hash m) s) as [h Hi]; [rewrite (cw_hash (good_wf _ _ _ Hgd)); lia|].
  destruct (cw_slot (good_wf _ _ _ Hgd) s h Hi) as (gs & Hch & _).
  destruct (purge_groups_spec gs (list_fuel m) m s h [] Hgd Hlk Hl Hi Hch) as (m1 & Hrun & Hgd1 & Hp1); [by eapply wf_group_fuel|].
  change (gtail_of s []) with (Slot s) in Hrun. rewrite Hrun. cbn [obind]. pose proof Hp1 as (_ & _ & _ & _ & Hl1 & _).
  destruct (IH m1 (s + 1) Hgd1) as (m' & -> & Hgd' & Hp'); [by eapply pframe_locked|congruence|lia|lia|].
  exists m'. split; [done|]. split; [done|]. by transitivity m1.
Qed.
Lemma purge_cache_spec m : good 0 0 m → locked m → m_lock_rrcache m = 0 → ∃ m', purge_cache m = Ret m' ∧ good 0 0 m' ∧ pframe m m'.
Proof.
  intros Hgd Hlk Hl. unfold purge_cache. destruct (negb _ && _); [|by exists m].
  set (m1 := m <| m_NextCacheCheck := s32 (m_timenow m + 0x3FFFFFFF) |>). assert (vol m m1) as Hv by by split.
  apply (purge_slots_spec _ m1 0); try done; [by eapply good_vol|by destruct Hlk].
Qed.
End Expire.
