(* ===== verification/MDNSCreate.v ===== *)
(** Storing a received record: [CreateNewCacheEntry].

    Taking memory for a record or a group may recycle records that answer no
    question; the questions' side of the invariant is not touched by that.
    The record then enters the list of its group, with a copy of its data,
    and is announced to the questions. *)
From S2P Require Import Prelude Bytes DNSTypes DNSName DNSRecord DNSMessage DNSRecordSpec MDNSTypes MDNSCache MDNSQuestion MDNSAnswer MDNSList MDNSInv MDNSPool MDNSRecycle MDNSGet MDNSQInv MDNSStart MDNSStop MDNSClient MDNSVolatile MDNSWalk MDNSExpire.

Implicit Types (E : gmap Z CacheEntity) (m : mDNS) (p r t co g h : Z) (l P N L M : list Z) (q : Question) (rr : ResourceRecord).

(** ** Recycling and the questions *)
Lemma count_cells {A} (f : A → bool) (M M' : gmap Z A) : (∀ p, cell f (M !! p) = cell f (M' !! p)) → count f M = count f M'.
Proof.
  intros Hc. unfold count. do 2 f_equal. apply map_eq. intros p. apply option_eq. intros b. rewrite !map_lookup_filter_Some, !lookup_fmap. simpl.
  specialize (Hc p). unfold cell in Hc. destruct (M !! p) as [a|], (M' !! p) as [a'|]; simpl; try done.
  - assert (f a = f a') as -> by (destruct (f a), (f a'); done). done.
  - destruct (f a) eqn:Hf; [done|]. by split; intros [[= <-] ?].
  - destruct (f a') eqn:Hf; [done|]. by split; intros [[= <-] ?].
Qed.
Lemma recycled_rec {E E'} (H : recycled E E') r cr' : E' !! r = Some (ERecord cr') →
  ∃ cr, E !! r = Some (ERecord cr) ∧ cr_group cr = cr_group cr' ∧ cr_CRActiveQuestion cr = cr_CRActiveQuestion cr'.
Proof.
  intros Hr. destruct (rc_old _ _ H r _ Hr eq_refl) as (e & He & Hb). apply bare_rec_r in Hb as (cr & -> & Hf).
  apply frame_rec_inv in Hf as (Hg & _ & _ & Ha). by exists cr.
Qed.
Lemma recycled_cells {E E'} (H : recycled E E') p : cell is_active (E !! p) = cell is_active (E' !! p).
Proof.
  destruct (E' !! p) as [[| | |cr']|] eqn:Hp'; simpl.
  4: { destruct (recycled_rec H p cr' Hp') as (cr & -> & _ & Ha). simpl. by rewrite Ha. }
  all: destruct (E !! p) as [[| | |cr]|] eqn:Hp; simpl; try done.
  all: destruct (cr_CRActiveQuestion cr =? 0) eqn:Hz; [done|exfalso].
  all: destruct (rc_keep _ _ H p cr Hp) as [cr' Hcr']; [unfold keeps; by rewrite Hz|congruence].
Qed.
Lemma active_recycled t m E Q l : cache_wf t 0 m → recycled E (m_ents m) → active_ok 0 0 E Q l → active_ok 0 0 (m_ents m) Q l.
Proof.
  intros Hw Hrc Ha r cr' Hr' Hr0 Hact. destruct (recycled_rec Hrc r cr' Hr') as (cr & Hr & Hg & Hq). rewrite <- Hq in *.
  destruct (Ha r cr Hr Hr0 Hact) as [(q & cg & Hqq & Hcg & Hs) Hl]. split; [|done].
  destruct (cw_rec Hw r cr' Hr' Hr0) as (cg' & Hcg' & _). destruct (rc_old _ _ Hrc _ _ Hcg' eq_refl) as (e & He & Hb).
  apply bare_group_r in Hb as (c & -> & _ & Hn & _). rewrite <- Hg in *. rewrite Hcg in He. injection He as <-.
  exists q, cg'. rewrite <- Hn, <- Hg. done.
Qed.
(** A cell is taken for something that is of no use to a question yet. *)
Lemma active_place E Q l e n c : E !! e = Some (EFree n) → active_ok 0 0 E Q l → is_active c = false → active_ok 0 0 (<[e := c]> E) Q l.
Proof.
  intros He Ha Hc r cr Hr Hr0 Hact. apply lookup_insert_Some in Hr as [[-> ->]|[Hne Hr]].
  { simpl in Hc. by rewrite (proj2 (Z.eqb_neq _ 0)) in Hc. }
  destruct (Ha r cr Hr Hr0 Hact) as [(q & cg & Hqq & Hcg & Hs) Hl]. split; [|done]. exists q, cg. split_and!; try done.
  rewrite lookup_insert_ne; [done|congruence].
Qed.
Lemma count_place E e n c : E !! e = Some (EFree n) → is_active c = false → count is_active (<[e := c]> E) = count is_active E.
Proof. intros He Hc. rewrite count_insert, He, Hc. simpl. lia. Qed.

(** The questions' side of the invariant, in a state with the same questions. *)
Lemma inv_outside t co m m' P N L M : inv 0 0 0 m P N L M → outside m' = outside m → cache_wf t co m' →
  active_ok 0 co (m_ents m') (m_qs m) (P ++ N) → count is_active (m_ents m') = count is_active (m_ents m) → inv t co 0 m' P N L M.
Proof.
  intros [_ Hq Hn Hnl Hd _ Hct Hk] Ho Hw Ha Hc. destruct (outside_questions _ _ Ho) as (F1 & F2 & F3 & F4 & F5 & F6 & F7).
  split; rewrite ?F1, ?F2, ?F3, ?F4, ?F5, ?F6, ?F7; try done. congruence.
Qed.
Lemma inv_recycled m m' P N L M : inv 0 0 0 m P N L M → outside m' = outside m → cache_wf 0 0 m' → recycled (m_ents m) (m_ents m') →
  inv 0 0 0 m' P N L M.
Proof.
  intros Hi Ho Hw Hrc. eapply inv_outside; try done; [eapply active_recycled; [done|done|apply Hi]|].
  apply count_cells. intros p. by rewrite (recycled_cells Hrc p).
Qed.
Lemma inv_placed co m m1 m' e n c P N L M : inv 0 0 0 m P N L M → outside m' = outside m → cache_wf 0 0 m1 → recycled (m_ents m) (m_ents m1) →
  m_ents m1 !! e = Some (EFree n) → m_ents m' = <[e := c]> (m_ents m1) → is_active c = false → cache_wf 0 co m' → inv 0 co 0 m' P N L M.
Proof.
  intros Hi Ho Hw1 Hrc He HE Hc Hw'. eapply inv_outside; try done; rewrite HE.
  - intros r cr Hr _. eapply active_place; try done; [by eapply active_recycled; [|done|apply Hi]|]. by intros ->; apply (wf_nonzero _ _ _ _ _ Hw' (eq_trans (f_equal (.!! 0) HE) Hr)).
  - erewrite count_place by done. symmetry. apply count_cells, (recycled_cells Hrc).
Qed.

(** ** Room *)
(** At most [k] cells were taken, and no record has joined or left the list of
    records to flush. *)
Definition near (k : Z) E E' : Prop := count is_free E - k ≤ count is_free E' ∧ same_cf E E'.
Lemma near_trans (k l : Z) E E' E'' : near k E E' → near l E' E'' → near (k + l) E E''.
Proof. intros [Hc Hs] [Hc' Hs']. split; [lia|by transitivity E']. Qed.
Lemma near_le (k l : Z) E E' : near k E E' → k ≤ l → near l E E'.
Proof. intros [Hc Hs] Hk. split; [lia|done]. Qed.
Lemma near_recycled E E' : recycled E E' → near 0 E E'.
Proof. intros H. split; [|by apply recycled_cf]. pose proof (recycled_free_count E E' H). lia. Qed.
Lemma same_free {keep} E E' : same_gen keep E E' → count is_free E' = count is_free E.
Proof.
  intros H. apply count_ext. intros p. specialize (H p).
  unfold is_free. destruct (E !! p) as [[]|], (E' !! p) as [[]|]; simpl in *; congruence.
Qed.
Lemma near_same E E' : same_ents E E' → near 0 E E'.
Proof.
  intros H. split; [|by apply same_cf_ents]. rewrite (same_free _ _ H). lia.
Qed.
Lemma near_frame E E' : same_frame E E' → near 0 E E'.
Proof. intros H. split; [|by apply same_cf_frame]. rewrite (frame_count H is_free); [lia|]. by intros []. Qed.
Lemma near_place E e n c : E !! e = Some (EFree n) → match c with ERecord cr => cr_NextInCFList cr = 0 | _ => True end → near 1 E (<[e := c]> E).
Proof.
  intros He Hc. split; [rewrite count_insert, He; simpl; destruct (is_free c); simpl; lia|]. apply same_cf_insert. unfold cf_link. rewrite He. by destruct c.
Qed.
Lemma recycled_size m m' : cache_wf 0 0 m → cache_wf 0 0 m' → recycled (m_ents m) (m_ents m') → m_rrcache_size m ≠ 0 → m_rrcache_size m' ≠ 0.
Proof.
  intros Hw Hw' Hrc Hsz. destruct (cw_size Hw) as [Hs _]. destruct (map_choose (m_ents m)) as (p & e & He).
  { intros Hz. rewrite Hz, map_size_empty in Hs. done. }
  destruct (rc_dom _ _ Hrc p) as [e' He']; [by rewrite He|]. by eapply size_pos.
Qed.
(** The record read from the packet, but for the time of its last use. *)
Definition same_rec m m' : Prop := (m_rec m') <| cr_LastUsed := 0 |> = (m_rec m) <| cr_LastUsed := 0 |>.
#[export] Instance same_rec_equiv : Equivalence same_rec.
Proof. split; unfold same_rec; [by intros m|by intros m m' H|]. intros m m' m'' H1 H2. by rewrite H2. Qed.

(** ** The copy of the record *)
(** The part of the rdata that the cache keeps. *)
Definition kept_data (rr : ResourceRecord) : list Z := take (Z.to_nat (Z.max InlineCacheRDSize (storage_length rr))) (rr_rdata rr).
(** A record as it has been read from a packet. *)
Record received (rec : CacheRecord) : Prop := {
  rv_idle : cr_CRActiveQuestion rec = 0;
  rv_own : cr_group rec = 0;
  rv_flush : cr_NextInCFList rec = 0;
  rv_name : name_mem (rr_name (cr_resrec rec)) (rr_namehash (cr_resrec rec));
  rv_data : data_ok ((cr_resrec rec) <| rr_rdata := kept_data (cr_resrec rec) |>)
}.
Lemma holds_take d p bs (k : nat) : holds (ptr_add (take k d) p) 0 bs → holds (ptr_add d p) 0 bs.
Proof.
  intros Hh. assert (∃ x, ptr_add d p = ptr_add (take k d) p ++ x) as [x ->].
  { unfold ptr_add. destruct (decide (Z.to_nat p ≤ length (take k d))%nat).
    - exists (drop k d). rewrite <- drop_app_le by done. by rewrite take_drop.
    - rewrite (drop_ge (take k d)) by lia. by eexists. }
  apply holds_split in Hh as (pre & post & -> & Hp). apply holds_split. exists pre, (post ++ x). by rewrite <- !app_assoc.
Qed.
Lemma legal_take u off (k : nat) : legal_at (take k u) off → legal_at u off.
Proof. intros (ls & Hls & Hn). exists ls. split; [done|]. by apply (holds_take u off _ k). Qed.
Lemma data_take rr (k : nat) : data_ok (rr <| rr_rdata := take k (rr_rdata rr) |>) → data_ok rr.
Proof.
  assert (∀ u : list Z, zlen (take k u) ≤ zlen u) as Hz by (intros u; unfold zlen; rewrite length_take; lia). unfold data_ok, rdata_ok. struct_simpl.
  specialize (Hz (rr_rdata rr)). intros [Hd Hl]. split; [|lia]. destruct (kind_of_type _); destruct_and?; split_and?; try lia; by eapply legal_take.
Qed.
Lemma received_followable rec : received rec → followable (cr_resrec rec).
Proof. intros [_ _ _ _ Hd]. right. apply data_target. by eapply data_take. Qed.
Lemma received_same m m' : same_rec m m' → received (m_rec m) → received (m_rec m').
Proof.
  intros H [H1 H2 H3 H4 H5]. pose proof (f_equal cr_resrec H) as Hr. change (cr_resrec (m_rec m') = cr_resrec (m_rec m)) in Hr.
  split; [by rewrite <- H1; exact (f_equal cr_CRActiveQuestion H)|by rewrite <- H2; exact (f_equal cr_group H)|by rewrite <- H3; exact (f_equal cr_NextInCFList H)|by rewrite Hr|by rewrite Hr].
Qed.
Lemma same_rec_vol {keep} m m' : @vol_gen keep m m' → same_rec m m'.
Proof. intros Hv. exact (f_equal m_rec (vo_fixed _ _ Hv)). Qed.
Lemma copy_data rec g : received rec → let len := storage_length (cr_resrec rec) in
  data_ok (cr_resrec (copy_record rec (InlineCacheRDSize <? len) g len)).
Proof.
  intros [_ _ _ _ Hd] len. assert (Z.max InlineCacheRDSize len = if InlineCacheRDSize <? len then len else InlineCacheRDSize) as Hm by (destruct (Z.ltb_spec InlineCacheRDSize len); lia).
  unfold kept_data in Hd. fold len in Hd. rewrite Hm in Hd. exact Hd.
Qed.

(** ** Filling in the record *)
Section Create.
Context `{PlatformOk} `{!ClientOk}.

(** The data of a record: its rdata is kept up to what its type needs. *)
Definition holds_data (rr rr' : ResourceRecord) : Prop :=
  rr_rrtype rr = rr_rrtype rr' ∧ rr_rrclass rr = rr_rrclass rr' ∧ rr_InterfaceID rr = rr_InterfaceID rr' ∧
  rr_rdata rr = take (Z.to_nat (Z.max InlineCacheRDSize (storage_length rr'))) (rr_rdata rr').
(** The record [r] is the last one of its group, and holds the data of [rec]. *)
Definition stored m g r (rec : CacheRecord) : Prop :=
  ∃ cr cg rs, m_ents m !! r = Some (ERecord cr) ∧ m_ents m !! g = Some (EGroup cg) ∧ chain (rec_next (m_ents m)) (cg_members cg) (rs ++ [r]) ∧
    cr_group cr = g ∧ same_mem (cg_name cg) (rr_name (cr_resrec rec)) ∧ holds_data (cr_resrec cr) (cr_resrec rec) ∧ cr_NextInCFList cr = 0.

Lemma fill_record_spec m0 m g cg r cr0 P N L M : inv 0 0 0 m0 P N L M → placed m0 m r (ERecord cr0) → outside m = outside m0 →
  m_ents m !! g = Some (EGroup cg) → received (m_rec m) → same_mem (cg_name cg) (rr_name (cr_resrec (m_rec m))) →
  cr_external cr0 = (InlineCacheRDSize <? storage_length (cr_resrec (m_rec m))) →
  ∃ m', fill_record m (cg_namehash cg mod CACHE_HASH_SLOTS) g r (storage_length (cr_resrec (m_rec m))) = Ret m' ∧ inv 0 0 0 m' P N L M ∧
    stored m' g r (m_rec m) ∧ pframe m m' ∧ m_log m' = m_log m ∧ near 1 (m_ents m0) (m_ents m') ∧ same_rec m m'.
Proof.
  intros Hi0 Hpl Ho Hg Hrv Hs Hx. set (len := storage_length _) in *. pose proof Hpl as (Hr0 & Hw & Hr & _).
  assert (g ≠ r) as Hgr by congruence.
  assert (cg_namehash cg = rr_namehash (cr_resrec (m_rec m))) as Hh by (eapply same_mem_hash; [by apply (cw_name Hw g cg Hg)|apply Hrv|done]).
  unfold fill_record. rewrite (get_rec_at Hw r cr0 Hr). cbn [obind].
  assert (∀ b e, b = false → log_if b e m = m) as Hlog by by intros ? ? ->.
  rewrite (Hlog _ CreateNewCacheEntry_inline), (Hlog _ CreateNewCacheEntry_external) by (rewrite Hx, ?Z.leb_antisym; by destruct (InlineCacheRDSize <? len)).
  rewrite (set_rec_at Hw r cr0 _ Hr). cbn [obind]. set (new := copy_record (m_rec m) (cr_external cr0) g len).
  assert (placed m0 (put_entity m r (ERecord new)) r (ERecord new)) as Hpl1 by by apply (placed_put_same m0 m r (ERecord cr0)).
  set (m1 := put_entity m r (ERecord new)) in *. pose proof Hpl1 as (_ & Hw1 & Hr1 & ma & n & Hrc & Hwa & Hfr & HE & _).
  assert (m_ents m1 !! g = Some (EGroup cg)) as Hg1 by (unfold m1; rewrite put_entity_ents, lookup_insert_ne; done).
  assert (inv 0 r 0 m1 P N L M) as Hi1.
  { eapply inv_placed; try done. simpl. by rewrite (rv_idle _ Hrv). }
  rewrite (get_group_at _ _ Hg1). cbn [obind]. destruct (wf_members Hw1 g cg Hg1 Hgr) as (rs & Hch & _).
  destruct (link_wf m1 g cg r new rs Hw1 Hr0 Hg1 Hgr Hch Hr1 eq_refl eq_refl) as (m2 & cg2 & m3 & -> & Hset & Hw3 & Hm3 & Hsf & Hg3 & Hch3 & Hr3); [by rewrite Hh| |].
  { unfold new. rewrite Hx. by apply copy_data. }
  cbn [obind]. rewrite Hset. cbn [obind].
  assert (inv 0 0 0 m3 P N L M) as Hi3.
  { rewrite Hm3. apply (inv_reframe 0 r 0 0 m1); [done|done|by rewrite <- Hm3|]. intros c Hc. rewrite Hr3 in Hc. injection Hc as <-. apply Hrv. }
  rewrite (get_rec_at Hw3 r new Hr3). cbn [obind]. unfold resrec_of. change (cr_group new) with g.
  rewrite (proj2 (Z.eqb_neq g 0)), (get_group_at _ _ Hg3) by by eapply wf_nonzero. cbn [obind]. struct_simpl.
  destruct (frame_group Hsf g cg2 Hg3) as (c & Hc & _ & Hh2 & Hn2 & _). rewrite Hg1 in Hc. injection Hc as <-.
  match goal with |- context [let* delay := ?d in _] => assert (∃ x, d = Ret x) as [x ->] end.
  { destruct (_ =? kDNSRecordTypePacketNegative); [by eexists|]. destruct (_ && _); [by eexists|].
    change (rr_namehash (cr_resrec new)) with (rr_namehash (cr_resrec (m_rec m))). rewrite Hh.
    apply (CheckForSoonToExpireRecords_total 0 0 m3); [done|]. rewrite <- Hh, Hh2. apply (cw_name Hw3 g cg2 Hg3). by eapply wf_nonzero. }
  cbn [obind]. destruct (set_rec_vol 0 0 m3 r new (fun cr => cr <| cr_DelayDelivery := x |>) Hw3 Hr3) as (m4 & -> & Hv & Hr4); [done|done|].
  pose proof (vo_ents _ _ Hv) as Hse. destruct (fixed_fields _ _ (vo_fixed _ _ Hv)) as (? & ? & ? & ? & ? & _ & _ & _ & _ & _ & _ & _ & _ & _ & _ & Hlog4).
  exists m4. split; [done|]. split; [by eapply inv_vol|]. split.
  { exists (new <| cr_DelayDelivery := x |>), cg2, rs. split; [done|]. split; [by apply (same_ents_group Hse)|]. split.
    - eapply lseg_ext; [|exact Hch3]. intros y _. apply (same_ents_next Hse).
    - split; [done|]. split; [by rewrite <- Hn2|]. split; [|apply Hrv]. unfold new, copy_record, holds_data. struct_simpl. split_and!; try done. fold len. rewrite Hx.
      do 2 f_equal. destruct (Z.ltb_spec InlineCacheRDSize len); lia. }
  pose proof (f_equal m_ResourceRecords (vo_fixed _ _ Hv)) as Hown.
  assert (near 1 (m_ents m0) (m_ents m4)) as Hnr.
  { apply (near_trans 0 1 _ (m_ents ma)); [by apply near_recycled|]. apply (near_trans 1 0 _ (m_ents m1)); [rewrite HE; eapply near_place; [done|apply Hrv]|].
    apply (near_trans 0 0 _ (m_ents m3)); [by apply near_frame|by apply near_same]. }
  pose proof (f_equal m_rec (vo_fixed _ _ Hv)) as Hrec. rewrite Hm3 in *. by split_and!.
Qed.

(** ** A record for which there is no memory *)
Lemma received_passing co m : received (m_rec m) → m_rrcache_size m ≠ 0 → passing co m.
Proof. intros Hrv Hsz. split; [|done]. left. split; [done|]. split; [apply Hrv|]. split; [apply Hrv|]. by apply received_followable. Qed.
(** It is delivered to every question; only if questions are started on the
    way may the walk be longer than [fuel] allows. *)
Lemma NoCacheAnswer_spec fuel m : good 0 0 m → locked m → received (m_rec m) → m_rrcache_size m ≠ 0 →
  (∃ m', NoCacheAnswer fuel m rec_ptr = Ret m' ∧ good 0 0 m' ∧ wframe 0 m m') ∨
  (NoCacheAnswer fuel m rec_ptr = Fault OutOfFuel ∧ ¬ no_starts (rec_type m)).
Proof.
  intros (P & N & L & M & Hi) Hlk Hrv Hsz. unfold NoCacheAnswer. cbv zeta. set (m1 := start_walk m NoCacheAnswer_current).
  assert (m1 = with_current (log_if (negb (m_CurrentQuestion m =? 0)) NoCacheAnswer_current m) (m_Questions m)) as Hm1 by (unfold m1, start_walk, log_if; by destruct (negb _)).
  pose proof (steady_log 0 0 m P N L M (negb (m_CurrentQuestion m =? 0)) NoCacheAnswer_current Hi) as [Hil Hfl _ _].
  assert (wframe 0 m m1) as Hf1 by (rewrite Hm1; etransitivity; [exact Hfl|apply wframe_current]).
  assert (inv 0 0 0 m1 P N L M) as Hi1 by (rewrite Hm1; by apply inv_current).
  assert (m_CurrentQuestion m1 = hd 0 (P ++ N)) as Hc1.
  { rewrite Hm1. unfold with_current. struct_simpl. pose proof (ql_chain (iv_q Hi)) as Hch. destruct (P ++ N); [done|]. by destruct Hch. }
  assert (passing 0 m1 ∧ rec_type m1 = rec_type m) as HJ by (split; [by eapply passing_frame, received_passing|by eapply wframe_rec_type]).
  destruct (walk_any_spec 0 0 _ _ _ (passing_turn 0 0 (rec_type m))) with (fuel := (fuel + q_fuel m1)%nat) (m := m1) (P := P) (N := N) (L := L) (M := M)
    as [(m2 & P2 & N2 & L2 & M2 & -> & Hf2 & Hi2)|[-> Hno]]; [|by eapply wframe_locked|done| |done| |].
  - intros a b Hf [Hp Ht]. split; [by eapply passing_frame|]. by rewrite (wframe_rec_type _ _ _ Hf).
  - unfold here. rewrite Hc1. destruct (P ++ N); [by left|right; apply list_elem_of_here].
  - left. cbn [obind]. eexists. split; [done|]. split; [exists P2, N2, L2, M2; by apply (inv_current 0 0 0 m2)|].
    transitivity m1; [done|]. transitivity m2; [done|apply wframe_current].
  - right. split; [done|]. intros Hs. apply Hno. split; [done|]. exists [], (P ++ N). split_and!; [done|done|].
    unfold q_fuel. pose proof (proj1 (qlists_fuel _ _ _ _ _ _ (iv_q Hi1))). lia.
Qed.

(** ** The whole function *)
Lemma stored_added m g r rec : good 0 0 m → stored m g r rec → added 0 r m.
Proof.
  intros Hg (cr & cg & rs & Hr & _). pose proof (good_wf _ _ _ Hg) as Hw. pose proof (wf_nonzero _ _ _ _ _ Hw Hr) as Hr0.
  split; [exists cr; split; [done|by apply (cw_rec Hw r cr Hr)]|]. split; [done|by eapply size_pos].
Qed.
Lemma stored_frame m m' g r rec : wframe 0 m m' → stored m g r rec → stored m' g r rec.
Proof.
  intros Hf (cr & cg & rs & Hr & Hg & Hch & Hgr & Hh & Hd & Hcf). pose proof (sc_ents _ _ (wf_cache _ _ _ Hf)) as Hse.
  destruct (same_ents_rec Hse Hr) as (cr' & Hr' & Hs). pose proof (strip_rec_cf _ _ Hs). apply strip_rec_inv in Hs as (_ & Hgr' & _ & _ & _ & _ & Hi & Ht & Hc & Hrd).
  exists cr', cg, rs. split; [done|]. split; [by apply (same_ents_group Hse)|]. split; [eapply lseg_ext; [|exact Hch]; intros y _; apply (same_ents_next Hse)|].
  split; [congruence|]. split; [done|]. split; [|congruence]. unfold holds_data. by rewrite Hi, Ht, Hc, Hrd.
Qed.
Lemma quiet_pframe m m' : quiet m m' → pframe m m'.
Proof. intros (Ho & _ & Hl). by apply outside_pframe. Qed.
Lemma quiet_rec m m' : outside m' = outside m → m_rec m' = m_rec m.
Proof. exact (f_equal m_rec (x := outside m') (y := outside m)). Qed.
Lemma pframe_wframe co m m' : wframe co m m' → pframe m m'.
Proof. intros [(? & ? & ? & ?) ? ? _ _ _]. by split_and!. Qed.

(** [m'] has the received record of [m] in its cache. *)
Definition created (k : Z) m m' r : Prop :=
  good 0 0 m' ∧ pframe m m' ∧ (∃ g, stored m' g r (m_rec m)) ∧ near k (m_ents m) (m_ents m') ∧ same_rec m m'.

(** With a group for the record. *)
Lemma create_in_group fuel m g cg : good 0 0 m → locked m → m_lock_rrcache m = 0 → received (m_rec m) → m_ents m !! g = Some (EGroup cg) →
  same_mem (cg_name cg) (rr_name (cr_resrec (m_rec m))) → let len := storage_length (cr_resrec (m_rec m)) in
  let slot := rr_namehash (cr_resrec (m_rec m)) mod CACHE_HASH_SLOTS in
  let run := let* '(m, r) := GetCacheRecord m g len in
    if r =? 0 then let* m := NoCacheAnswer fuel m rec_ptr in Ret (m, 0) else
    let* m := fill_record m slot g r len in let* m := CacheRecordAdd m r in Ret (m, r) in
  (∃ m' r, run = Ret (m', r) ∧ r ≠ 0 ∧ created 1 m m' r) ∨
  (∃ m', run = (let* m := NoCacheAnswer fuel m' rec_ptr in Ret (m, 0)) ∧ good 0 0 m' ∧ quiet m m' ∧ m_rrcache_size m' ≠ 0 ∧ near 0 (m_ents m) (m_ents m') ∧
     (plenty → count is_free (m_ents m) = 0)).
Proof.
  intros (P & N & L & M & Hi) Hlk Hl Hrv Hg Hs len slot run. unfold run. pose proof (iv_cache Hi) as Hw. pose proof (wf_nonzero _ _ _ _ _ Hw Hg) as Hg0.
  destruct (GetCacheRecord_got m g len Hw Hlk Hl) as (m1 & r & -> & Hgot). cbn [obind].
  destruct Hgot as [m1 Hw1 Hrc Hq Hpy|m1 r cr Hpl Hx Hq HP].
  { right. exists m1. split; [done|]. split; [exists P, N, L, M; eapply inv_recycled; try done; apply Hq|]. split; [done|].
    split; [eapply recycled_size; [exact Hw|done|done|by eapply size_pos]|]. split; [by apply near_recycled|done]. }
  left. pose proof Hpl as (Hr0 & Hw1 & Hr & ma & n & Hrc & _ & Hfr & HE & _). rewrite (proj2 (Z.eqb_neq r 0)) by done.
  destruct (HP cg Hg) as [cg1 Hg1]. pose proof Hq as (Ho & _ & _). pose proof (quiet_rec _ _ Ho) as Hrec.
  assert (cg_namehash cg1 = cg_namehash cg ∧ cg_name cg1 = cg_name cg) as [Hnh Hnm].
  { assert (g ≠ r) as Hne by congruence. rewrite HE, lookup_insert_ne in Hg1 by done. destruct (rc_old _ _ Hrc g _ Hg1 eq_refl) as (e & He & Hb).
    apply bare_group_r in Hb as (c & -> & ? & ? & _). rewrite Hg in He. injection He as <-. done. }
  assert (cg_namehash cg = rr_namehash (cr_resrec (m_rec m))) as Hh by (eapply same_mem_hash; [by apply (cw_name Hw g cg Hg)|apply Hrv|done]).
  destruct (fill_record_spec m m1 g cg1 r cr P N L M Hi Hpl Ho Hg1) as (m2 & Hrun & Hi2 & Hst2 & Hp2 & _ & Hnr2 & Hsr2); rewrite ?Hrec; try done; [congruence|].
  rewrite Hnh, Hh, Hrec in Hrun. fold slot len in Hrun. rewrite Hrun. cbn [obind]. assert (good 0 0 m2) as Hgd2 by by exists P, N, L, M.
  assert (pframe m m2) as Hpf by (transitivity m1; [by apply quiet_pframe|done]).
  destruct (CacheRecordAdd_spec 0 0 m2 r) as (m3 & -> & Hgd3 & Hf3); [by eapply pframe_locked|done|by eapply stored_added|]. cbn [obind].
  eexists _, _. split; [done|]. split; [done|]. rewrite Hrec in Hst2. pose proof (stored_frame _ _ _ _ _ Hf3 Hst2) as Hst3.
  split; [done|]. split; [transitivity m2; [done|by eapply pframe_wframe]|]. split; [by exists g|]. split.
  - apply (near_trans 1 0 _ (m_ents m2)); [done|]. apply near_same, (sc_ents _ _ (wf_cache _ _ _ Hf3)).
  - transitivity m2; [|apply (wf_rec _ _ _ Hf3)]. transitivity m1; [unfold same_rec; by rewrite Hrec|done].
Qed.

Lemma CreateNewCacheEntry_spec fuel m g : good 0 0 m → locked m → m_lock_rrcache m = 0 → received (m_rec m) →
  finds m 0 (rr_name (cr_resrec (m_rec m))) g → let slot := rr_namehash (cr_resrec (m_rec m)) mod CACHE_HASH_SLOTS in
  (∃ m' r, CreateNewCacheEntry fuel m slot g = Ret (m', r) ∧ r ≠ 0 ∧ created 2 m m' r) ∨
  (∃ m', CreateNewCacheEntry fuel m slot g = (let* m := NoCacheAnswer fuel m' rec_ptr in Ret (m, 0)) ∧ good 0 0 m' ∧
     (outside m' = outside m ∧ m_lock_rrcache m' = m_lock_rrcache m) ∧ (m_rrcache_size m ≠ 0 → m_rrcache_size m' ≠ 0) ∧ same_cf (m_ents m) (m_ents m') ∧
     (plenty → count is_free (m_ents m) ≤ 1)).
Proof.
  intros Hgd Hlk Hl Hrv Hf slot. unfold CreateNewCacheEntry. pose proof (good_wf _ _ _ Hgd) as Hw. pose proof (rv_name _ Hrv) as Hnm.
  destruct Hf as [[-> Hnone]|[Hg0 (cg & Hg & Hs)]]; cbn [Z.eqb].
  - destruct Hgd as (P & N & L & M & Hi).
    destruct (GetCacheGroup_got m (cr_resrec (m_rec m)) Hw Hlk Hl Hnm (or_introl (conj eq_refl Hnone))) as (m1 & g & Hrun & Hgot).
    fold slot in Hrun. rewrite Hrun. cbn [obind]. destruct Hgot as [m1 Hw1 Hrc Ho Hl1 _ Hpy|m1 g cg ma n Hw1 Hg0 Hf Hg _ Hrc Hwa Hfr HE Hq].
    { right. exists m1. split; [done|]. split; [exists P, N, L, M; by eapply inv_recycled|]. split; [done|]. split; [by eapply recycled_size|].
      split; [by apply recycled_cf|]. intros Hp. specialize (Hpy Hp). lia. }
    rewrite (proj2 (Z.eqb_neq g 0)) by done. destruct Hf as [[? _]|[_ (cg' & Hcg & Hs)]]; [done|]. rewrite Hg in Hcg. injection Hcg as <-.
    assert (good 0 0 m1) as Hgd1 by (exists P, N, L, M; eapply inv_placed; try done; apply Hq).
    pose proof Hq as (Ho & _ & Hlr). pose proof (quiet_rec _ _ Ho) as Hrec. pose proof (quiet_pframe _ _ Hq) as Hp1.
    assert (near 1 (m_ents m) (m_ents m1)) as Hnr1.
    { apply (near_trans 0 1 _ (m_ents ma)); [by apply near_recycled|]. rewrite HE. by eapply near_place. }
    destruct (create_in_group fuel m1 g cg) as [(m' & r & Hr & Hr0 & Hc)|(m' & Hr & Hgd' & Hq' & Hsz' & [_ Hcf'] & Hpy)]; rewrite ?Hrec in *; try done;
      [by eapply pframe_locked|congruence|left|right].
    + exists m', r. split; [exact Hr|]. split; [done|]. unfold created in *. rewrite Hrec in Hc. destruct Hc as (? & ? & ? & ? & ?).
      split; [done|]. split; [by transitivity m1|]. split; [done|]. split; [by apply (near_trans 1 1 _ (m_ents m1))|].
      transitivity m1; [unfold same_rec; by rewrite Hrec|done].
    + exists m'. split; [exact Hr|]. split; [done|]. destruct Hq' as (Ho' & _ & Hl'). split; [split; congruence|]. split; [done|].
      destruct Hnr1 as [Hnr1 Hcf1]. split; [by transitivity (m_ents m1)|]. intros Hp. specialize (Hpy Hp). lia.
  - rewrite (proj2 (Z.eqb_neq g 0)) by done. cbn [obind]. rewrite (proj2 (Z.eqb_neq g 0)) by done.
    destruct (create_in_group fuel m g cg Hgd Hlk Hl Hrv Hg Hs) as [(m' & r & Hr & Hr0 & ? & ? & ? & Hnr & ?)|(m' & Hr & Hgd' & Hq' & Hsz' & [_ Hcf'] & Hpy)]; [left|right].
    + exists m', r. split; [exact Hr|]. split; [done|]. split_and!; try done. by eapply near_le.
    + exists m'. split; [exact Hr|]. split; [done|]. split; [by split; apply Hq'|]. split; [done|]. split; [done|]. intros Hp. specialize (Hpy Hp). lia.
Qed.

(** All in all: the record is kept, or delivered without being kept; and that
    returns, unless questions are started on the way. *)
Lemma CreateNewCacheEntry_total fuel m g : good 0 0 m → locked m → m_lock_rrcache m = 0 → received (m_rec m) → m_rrcache_size m ≠ 0 →
  finds m 0 (rr_name (cr_resrec (m_rec m))) g → let slot := rr_namehash (cr_resrec (m_rec m)) mod CACHE_HASH_SLOTS in
  (∃ m' r, CreateNewCacheEntry fuel m slot g = Ret (m', r) ∧ good 0 0 m' ∧ pframe m m' ∧ same_rec m m' ∧ m_rrcache_size m' ≠ 0 ∧
     same_cf (m_ents m) (m_ents m') ∧ (r ≠ 0 → created 2 m m' r) ∧ (r = 0 → plenty → count is_free (m_ents m) ≤ 1)) ∨
  (CreateNewCacheEntry fuel m slot g = Fault OutOfFuel ∧ ¬ no_starts (rec_type m) ∧ (plenty → count is_free (m_ents m) ≤ 1) ∧
     ∃ m1, outside m1 = outside m ∧ NoCacheAnswer fuel m1 rec_ptr = Fault OutOfFuel).
Proof.
  intros Hgd Hlk Hl Hrv Hsz Hf slot. destruct (CreateNewCacheEntry_spec fuel m g Hgd Hlk Hl Hrv Hf) as
    [(m' & r & Hrun & Hr0 & Hcr)|(m1 & Hrun & Hgd1 & [Ho Hl1] & Hsz1 & Hcf1 & Hpy)].
  - left. exists m', r. split; [exact Hrun|]. pose proof Hcr as (Hgd' & Hp & (gx & Hst) & [_ Hcf] & Hsr). split_and!; try done.
    destruct Hst as (cr & _ & _ & Hr & _). by eapply size_pos; [by apply good_wf|].
  - fold slot in Hrun. rewrite Hrun. pose proof (quiet_rec _ _ Ho) as Hrec. pose proof (outside_pframe _ _ Ho Hl1) as Hp1.
    destruct (NoCacheAnswer_spec fuel m1 Hgd1) as [(m' & -> & Hgd' & Hf')|[Hout Hno]]; [by eapply pframe_locked|by rewrite Hrec|by apply Hsz1|left|right].
    + cbn [obind]. exists m', 0. split; [done|]. split; [done|]. split; [transitivity m1; [done|by eapply pframe_wframe]|].
      split; [transitivity m1; [unfold same_rec; by rewrite Hrec|apply (wf_rec _ _ _ Hf')]|].
      split; [rewrite (sc_size _ _ (wf_cache _ _ _ Hf')); by apply Hsz1|].
      split; [transitivity (m_ents m1); [done|]; apply same_cf_ents, (sc_ents _ _ (wf_cache _ _ _ Hf'))|]. by split.
    + rewrite Hout. split; [done|]. split; [unfold rec_type in *; by rewrite Hrec in Hno|]. split; [done|by exists m1].
Qed.
(** The walk of [NoCacheAnswer] is longer than [fuel] allows: questions are
    started on the way. *)
Definition endless (fuel : nat) : Prop :=
  ∃ m, NoCacheAnswer fuel m rec_ptr = Fault OutOfFuel ∧ (rec_type m = kDNSType_CNAME ∨ ¬ starts_none QC_addnocache).
Lemma endless_intro fuel m m1 : outside m1 = outside m → NoCacheAnswer fuel m1 rec_ptr = Fault OutOfFuel → ¬ no_starts (rec_type m) → endless fuel.
Proof.
  intros Ho Hrun Hno. exists m1. split; [done|]. unfold rec_type in *. rewrite (quiet_rec _ _ Ho). unfold no_starts in Hno.
  destruct (decide (rr_rrtype (cr_resrec (m_rec m)) = kDNSType_CNAME)); [by left|right; tauto].
Qed.
End Create.
