(* ===== verification/MDNSPacket.v ===== *)
(** Records read from packets can be stored: what [GetLargeResourceRecord]
    accepts is [received], if its class is not ANY, and can be compared with
    the records of the cache. *)
From S2P Require Import Prelude Bytes DNSTypes DNSName DNSWireGet DNSRecord DNSRecordSpec DNSMessage DNSMessageGet MDNSTypes MDNSCache MDNSQuestion MDNSAnswer MDNSReceive MDNSList MDNSInv MDNSPool MDNSRecycle MDNSGet MDNSQInv MDNSStart MDNSStop MDNSClient MDNSVolatile MDNSWalk MDNSExpire MDNSCreate.

Implicit Types (m : mDNS) (rr : ResourceRecord).

(** ** The part of the rdata that is kept *)
Lemma legal_keep u off ls (k : nat) : 0 ≤ off ≤ zlen u → is_name (ptr_add u off) ls → name_ok ls → off + zlen (encode ls) ≤ Z.of_nat k → legal_at (take k u) off.
Proof.
  intros Ho Hn Hls Hk. exists ls. split; [done|]. apply is_name_ptr_add. apply holds_ptr_add_inv in Hn; [|done]. rewrite Z.add_0_r in Hn.
  apply holds_split in Hn as (pre & post & Hu & Hp). apply holds_split. exists pre, (take (k - length (pre ++ encode ls)) post).
  split; [|done]. rewrite Hu, app_assoc, take_app_ge, <- app_assoc; [done|]. rewrite length_app. unfold zlen in *. lia.
Qed.
Lemma storage_kind rr : storage_length rr =
  match kind_of_type (rr_rrtype rr) with KindSOA => sizeof_rdataSOA | KindRP => sizeof_rdataRP | KindPX => sizeof_rdataPX | _ => rr_rdlength rr end.
Proof.
  unfold storage_length, kind_of_type. destruct (Z.eqb_spec (rr_rrtype rr) kDNSType_SOA) as [->|]; [done|].
  destruct (Z.eqb_spec (rr_rrtype rr) kDNSType_RP) as [->|]; [done|]. destruct (Z.eqb_spec (rr_rrtype rr) kDNSType_PX) as [->|]; [done|].
  by repeat case_match.
Qed.
Lemma legal_length u off : legal_at u off → ∃ ls, name_ok ls ∧ is_name (ptr_add u off) ls ∧ 0 ≤ zlen (encode ls) ≤ 255 ∧
  CompressedDomainNameLength (ptr_add u off) None = Ret (zlen (encode ls)).
Proof.
  intros (ls & Hls & Hn). exists ls. split; [done|]. split; [done|]. split; [split; [apply zlen_nonneg|by apply name_ok_bound]|].
  rewrite <- (compressed_length_nil ls). by apply CompressedDomainNameLength_spec.
Qed.

(** The names of accepted rdata, and all of [rdlength], are kept. *)
Lemma got_kept msg p e rr next : rec_ok rr → DNSMessageGet.got_record msg p e rr next → rr_rrclass rr ≠ kDNSQClass_ANY →
  data_ok (rr <| rr_rdata := kept_data rr |>).
Proof.
  intros (_ & (_ & Hz & _) & Hl) (_ & _ & _ & _ & Hok & Hlen) Hany. destruct Hok as [Hok|[? _]]; [|done].
  unfold MaximumRDSize in *. unfold data_ok, kept_data, InlineCacheRDSize. struct_simpl. rewrite storage_kind.
  unfold GetRDLength in Hlen. rewrite (proj2 (Z.eqb_neq _ _) Hany) in Hlen. unfold rdata_ok in *. struct_simpl.
  assert (∀ k : Z, zlen (take (Z.to_nat (Z.max 68 k)) (rr_rdata rr)) = Z.min (Z.max 68 k) 8192) as Hk by (intros k; unfold zlen in *; rewrite length_take; lia).
  destruct (Z.eqb_spec (rr_rrtype rr) kDNSType_HINFO) as [Ht|_].
  { rewrite Ht in *. change (kind_of_type kDNSType_HINFO) with KindRaw in *. cbn beta iota in *. rewrite Hk. lia. }
  unfold sizeof_rdataSOA, sizeof_rdataRP, sizeof_rdataPX, off_soa_mname, off_soa_rname, off_soa_serial, off_mx_exchange, off_rp_txt, off_px_map822, off_px_mapx400,
    off_srv_target, u16 in *.
  destruct (kind_of_type (rr_rrtype rr)); cbn beta iota in *; rewrite ?Hk; try lia; destruct_and?;
    repeat match goal with H : legal_at _ _ |- _ => apply legal_length in H as (? & ? & ? & ? & HC); rewrite HC in Hlen; clear HC; cbn [obind] in Hlen end;
    injection Hlen as Hlen; rewrite ?Z.mod_small in Hlen by lia; split_and?; try lia; (eapply legal_keep; [|eassumption|eassumption|]; lia).
Qed.

(** ** Comparing with a record of the cache *)
Lemma IdenticalSameNameRecord_total r1 r2 : data_ok r1 → data_ok r2 →
  ∃ b, IdenticalSameNameRecord r1 r2 = Ret b ∧ (b = true → rr_rdlength r1 = rr_rdlength r2).
Proof.
  intros [H1 Hl1] [H2 Hl2]. unfold IdenticalSameNameRecord. destruct (_ && _) eqn:Hb; [|by exists false].
  repeat (apply andb_true_iff in Hb as [Hb ?]). apply Z.eqb_eq in Hb. assert (rr_rdlength r1 = rr_rdlength r2) as Hlen by lia.
  destruct (SameRDataBody_total r1 (rr_rdata r2) H1) as [b Hs]; [unfold rdata_ok in *; by rewrite Hb, Hlen|]. by exists b.
Qed.

(** ** The record storage of the searcher *)
(** A packet in memory that extends 22 bytes past its end. *)
Record packet_ok (msg : list Z) (e : Z) : Prop := {
  po_bytes : bytes_ok msg;
  po_size : e ≤ MaximumRDSize;
  po_memory : e + 22 ≤ zlen msg;
  po_header : 12 ≤ zlen msg
}.
Definition storage_ok m : Prop := let rr := cr_resrec (m_rec m) in mem_ok (rr_rdata rr) ∧ 0 ≤ rr_rdlength rr ≤ MaximumRDSize.
Lemma storage_same m m' : same_rec m m' → storage_ok m → storage_ok m'.
Proof.
  intros H. pose proof (f_equal cr_resrec H) as Hr. change (cr_resrec (m_rec m') = cr_resrec (m_rec m)) in Hr. unfold storage_ok. by rewrite Hr.
Qed.

Section Packet.
Context `{PlatformOk}.

Lemma get_packet_record_spec m msg p e InterfaceID RecordType : packet_ok msg e → storage_ok m →
  ∃ rec b r, get_packet_record m msg p e InterfaceID RecordType = Ret ((log_if b Rec_in_use m) <| m_rec := rec |>, r) ∧
    storage_ok ((log_if b Rec_in_use m) <| m_rec := rec |>) ∧
    match r with
    | Some next => ∃ ls, record_frame msg p e ls (rr_rrclass (cr_resrec rec)) next ∧ p < next ≤ e ∧
        name_ok ls ∧ (rr_rrclass (cr_resrec rec) ≠ kDNSQClass_ANY → received rec)
    | None => True
    end.
Proof.
  intros [Hb He Hm _] [Hmem Hl]. unfold get_packet_record. set (b := negb _). set (m1 := log_if b Rec_in_use m).
  assert (m_rec m1 = m_rec m) as -> by by unfold m1, log_if; destruct b. assert (0 < one_second) as Hone by (pose proof one_second_range; lia).
  set (rr0 := (cr_resrec (m_rec m)) <| rr_name := replicate 256 0 |>). assert (rec_ok rr0) as Hr0 by done.
  destruct (safe_elim _ _ (GetLargeResourceRecord_spec one_second msg e Hone Hb He Hm p InterfaceID RecordType rr0 Hr0)) as ([rr r] & -> & Hsp).
  cbn beta iota in Hsp. destruct Hsp as [Hr Hgot]. cbn [obind]. eexists _, b, r. split; [done|]. split; [split; apply Hr|]. destruct r as [next|]; [|done]. struct_simpl.
  pose proof Hgot as (Hn & (ls & Hf & Hls & Hnm) & Hh & _). exists ls. split; [exact Hf|]. split; [done|]. split; [done|]. intros Hany. split; try done.
  - exists ls. by split_and!.
  - by eapply got_kept.
Qed.
End Packet.
