(* ===== verification/MDNSInit.v ===== *)
(** The start: after [mDNS_Init] the invariant holds, with the storage the
    client gave as the free list.  Then a small concrete platform, with a
    choice of clients, and states reached from its start, on which the
    theorems are tried. *)
From S2P Require Import Prelude Bytes DNSTypes DNSName DNSRecord DNSMessage MDNSTypes MDNSCache MDNSQuestion MDNSAnswer MDNSList MDNSInv MDNSPool MDNSRecycle MDNSGet MDNSQInv MDNSStart MDNSStop MDNSClient MDNSVolatile MDNSWalk MDNSExpire MDNSCreate.

Implicit Types (E : gmap Z CacheEntity) (m : mDNS) (p r t co g h : Z) (q : Question) (rr : ResourceRecord).

(** Memory in which nothing has been started. *)
Record blank m : Prop := {
  bl_ents : m_ents m = ∅;
  bl_qs : m_qs m = ∅;
  bl_blocks : m_blocks m = 0;
  bl_keys : m_AuthInfoList m = []
}.

(** An empty cache, and no questions. *)
Lemma empty_good m : m_ents m = ∅ → m_qs m = ∅ → m_blocks m = 0 → m_AuthInfoList m = [] → m_Questions m = 0 → m_LocalOnlyQuestions m = 0 →
  m_NewQuestions m = 0 → m_NewLocalOnlyQuestions m = 0 → m_rrcache_size m = 0 → m_rrcache_totalused m = 0 → m_rrcache_active m = 0 →
  m_rrcache_free m = 0 → m_rrcache_hash m = replicate (Z.to_nat CACHE_HASH_SLOTS) 0 → inv 0 0 0 m [] [] [] [].
Proof.
  intros HE HQ Hb Hk Hq Hl Hn Hnl Hs Hu Ha Hf Hh. split; rewrite ?HE, ?HQ, ?Hq, ?Hl, ?Hn, ?Hnl, ?Ha, ?Hk; try done.
  - split; rewrite ?HE, ?Hs, ?Hu, ?Hb, ?Hf; try done.
    + split; try (intros; by rewrite lookup_empty in *).
      intros i h Hi. rewrite Hh in Hi. destruct Hi as [_ [-> _]%lookup_replicate]. exists []. split; [done|]. intros g cg Hg. by rewrite lookup_empty in Hg.
    + by rewrite Hh.
    + by exists [].
    + by left.
  - apply Forall_nil_2.
Qed.

(** The state after the start: no questions, [n] free entities, no lock. *)
Record init_ok (n : Z) m : Prop := {
  in_inv : inv 0 0 0 m [] [] [] [];
  in_size : m_rrcache_size m = n;
  in_lock : m_lock_rrcache m = 0;
  in_busy : m_busy m = 0;
  in_depth : m_reentrancy m = 0;
  in_time : m_timenow m = 0;
  in_last : is_s32 (m_timenow_last m)
}.

Section Init.
Context `{PlatformOk}.
Lemma link_storage_size k : ∀ m p, m_rrcache_size (link_storage k m p) = m_rrcache_size m.
Proof. induction k as [|k IH]; intros m p; [done|]. cbn [link_storage]. by rewrite IH. Qed.
Lemma Init_good m s n : blank m → 0 < s → 0 ≤ n → is_u32 n → init_ok n (fst (mDNS_Init m s n mStatus_NoError)).
Proof.
  intros [HE HQ Hb Hk] Hs Hn Hu. unfold mDNS_Init. rewrite (proj2 (Z.eqb_neq s 0)) by lia. change (mStatus_NoError =? mStatus_NoError) with true. cbn [negb].
  destruct (random _ 0xFFFFFFFF) as [m1 rnd] eqn:Hr. cbv zeta.
  assert (m_ents m1 = ∅ ∧ m_qs m1 = ∅ ∧ m_blocks m1 = 0 ∧ m_AuthInfoList m1 = [] ∧ m_lock_rrcache m1 = 0 ∧ m_busy m1 = 0 ∧ m_reentrancy m1 = 0) as (HE1 & HQ1 & Hb1 & Hk1 & Hl1 & Hb2 & Hr2).
  { unfold random in Hr. destruct (mDNSRandom_ _ _). injection Hr as <- _. by split_and!. }
  match goal with |- context [mDNS_GrowCache_internal ?a s n] => set (m2 := a) end.
  assert (m_ents m2 = ∅ ∧ m_rrcache_size m2 = 0 ∧ m_lock_rrcache m2 = 0 ∧ m_busy m2 = 0 ∧ m_reentrancy m2 = 0 ∧ m_timenow m2 = 0)
    as (HE2 & Hs2 & Hl2 & Hb3 & Hr3 & Ht3) by by split_and!.
  assert (is_s32 (m_timenow_last m2)) as Ht by apply s32_range. assert (inv 0 0 0 m2 [] [] [] []) as Hi2 by by apply empty_good. clearbody m2.
  assert (∀ m3, inv 0 0 0 m3 [] [] [] [] → m_rrcache_size m3 = n → m_lock_rrcache m3 = 0 → m_busy m3 = 0 → m_reentrancy m3 = 0 → m_timenow m3 = 0 →
    m_timenow_last m3 = m_timenow_last m2 → init_ok n (m3 <| m_ResourceRecords := [] |> <| m_NewLocalRecordReady := false |> <| m_NewLocalRecords := [] |> <| m_HostInterfaces := [] |>)) as Hlast.
  { intros m3 [] ? ? ? ? ? Heq. split; try done; [|by rewrite <- Heq in Ht]. split; try done. by apply (same_cache_wf 0 0 m3). }
  destruct (decide (n = 0)) as [->|Hn0].
  { assert (mDNS_GrowCache_internal m2 s 0 = m2) as -> by (unfold mDNS_GrowCache_internal; by rewrite andb_false_r). by apply Hlast. }
  destruct (GrowCache_wf 0 0 m2 s n (iv_cache Hi2)) as (Hw & Hold & _ & Hnew & Ho & _ & Hlk & _); [lia|lia|lia|by rewrite Hs2|intros; by rewrite HE2|].
  assert (m_rrcache_size (mDNS_GrowCache_internal m2 s n) = n) as Hsz.
  { unfold mDNS_GrowCache_internal. rewrite (proj2 (Z.eqb_neq s 0)), (proj2 (Z.eqb_neq n 0)) by lia. cbn [negb andb]. struct_simpl.
    unfold put_entity. struct_simpl. rewrite link_storage_size, Hs2, Z.add_0_l. by apply u32_id. }
  set (m3 := mDNS_GrowCache_internal m2 s n) in *. clearbody m3.
  assert (∀ x e, m_ents m3 !! x = Some e → ∃ k, e = EFree k) as Hfree.
  { intros x e Hx. destruct (Hnew x e Hx) as [Hx'|?]; [|done]. by rewrite HE2 in Hx'. }
  assert (inv 0 0 0 m3 [] [] [] []) as Hi3.
  { eapply inv_outside; [exact Hi2|done|done| |].
    - intros x c Hx. by destruct (Hfree x _ Hx).
    - apply count_cells. intros x. rewrite HE2, lookup_empty. destruct (m_ents m3 !! x) as [e|] eqn:Hx; [|done]. by destruct (Hfree x e Hx) as [k ->]. }
  destruct (outside_fields _ _ Ho) as (F1 & F2 & F3 & F4). apply Hlast; congruence.
Qed.
End Init.

(** ** A small platform *)
(** A clock with 1000 ticks a second that stands at 5000, no luck, enough
    memory for long names and none for more entities. *)
Definition small_platform (client : Z → ResourceRecord → Z → mDNS → list client_call) : Platform := {|
  one_second := 1000;
  mDNSRandom_ := fun seed max => (0, seed);
  mDNSRandomFromFixedSeed_ := fun seed max => 0;
  RawTime := fun m => 5000;
  MemAllocate := fun m n => true;
  MainCallback := None;
  QuestionCallback := client
|}.
#[export] Instance small_platform_ok client : @PlatformOk (small_platform client).
Proof. split; simpl; try done; intros; lia. Qed.

Definition blank_state : mDNS :=
  mkmDNS 0 0 0 0 0 0 0 0 0 0 0 0 0 0 0 false false 0 0 0 0 0 0 0 0 0 0 0 [] 0 [] [] zero_record ∅ ∅ 0 0 [] [] [] [].

Definition a_local : list Z := [1; 97; 5; 108; 111; 99; 97; 108; 0].
Definition b_local : list Z := [1; 98; 5; 108; 111; 99; 97; 108; 0].
Definition in_buffer (d : list Z) : list Z := d ++ replicate (256 - length d) 0.
Definition ask (d : list Z) (qtype : Z) : Question :=
  mkQuestion 0 (mkDNSQuestion 0 0 (in_buffer d) 0 qtype 1) 0 0 (-1) 0 0 0 0 0 0 0 0 0 0 0 [] 0 false 0 0 0 0 0 0 0 0 0 0 0 0 0 0 0
    (mkAddr 0 []) 0 0 false false false false 1.
(** A received record of the name [d] with an address, to be kept for [ttl] seconds. *)
Definition hash_of (d : list Z) : Z := match DomainNameHashValue d with Ret h => h | _ => 0 end.
Definition address_record (d : list Z) (ttl : Z) (m : mDNS) : CacheRecord :=
  mkCacheRecord 0 (mkResourceRecord 0xC0 0 (in_buffer d) kDNSType_A 1 ttl 4 4 (hash_of d) 0 8192 (replicate 512 0)) 0 false 0 (m_timenow m) 0 (m_timenow m)
    (m_timenow m) 0 0 0 0 0 0 false 0.

Section Small.
Context (client : Z → ResourceRecord → Z → mDNS → list client_call).
Let plat := small_platform client.
Local Existing Instance plat.

(** Start with eight entities at address 1000, and lock. *)
Definition small_start : mDNS := mDNS_Lock (fst (mDNS_Init blank_state 1000 8 mStatus_NoError)).
Definition ask_at (m : mDNS) (p : Z) (q : Question) : outcome mDNS :=
  let* '(m, _) := mDNS_StartQuery_internal (put_q m p q) p in Ret m.
Definition receive (m : mDNS) (rec : CacheRecord) : outcome mDNS :=
  let m := m <| m_rec := rec |> in
  let h := rr_namehash (cr_resrec rec) in
  let* cg := CacheGroupForName m (h mod CACHE_HASH_SLOTS) h (rr_name (cr_resrec rec)) in
  let* '(m, _) := CreateNewCacheEntry 10 m (h mod CACHE_HASH_SLOTS) cg in Ret m.
(** The clock moves on. *)
Definition at_time (m : mDNS) (t : Z) : mDNS := m <| m_timenow := t |> <| m_timenow_last := t |>.
End Small.

(** ** The states at hand are good ones *)
Lemma lock_good `{Platform} m : good 0 0 m → good 0 0 (mDNS_Lock m).
Proof.
  intros (P & N & L & M & Hi). exists P, N, L, M. unfold mDNS_Lock, set_timenow, log_if, LogMsg.
  repeat match goal with |- context [if ?b then _ else _] => destruct b end; destruct Hi; split; try done; by apply (same_cache_wf 0 0 m).
Qed.
Lemma lock_keeps `{Platform} m : m_lock_rrcache (mDNS_Lock m) = m_lock_rrcache m ∧ m_ResourceRecords (mDNS_Lock m) = m_ResourceRecords m.
Proof. unfold mDNS_Lock, set_timenow, log_if, LogMsg. by repeat match goal with |- context [if ?b then _ else _] => destruct b end. Qed.
(** Taking the lock for the first time. *)
Lemma lock_locked `{Platform} m : m_busy m = 0 → m_reentrancy m = 0 → is_s32 (m_timenow_last m) → m_timenow_last m ≠ 0 → locked (mDNS_Lock m).
Proof.
  intros Hb Hr Hl Hl0. unfold mDNS_Lock, set_timenow, log_if, LogMsg. rewrite Hb, Hr. cbn [Z.eqb negb].
  assert (∀ x, (if s32 x =? 0 then 1 else s32 x) ≠ 0 ∧ is_s32 (if s32 x =? 0 then 1 else s32 x)) as Hnz.
  { intros x. pose proof (s32_range x). destruct (Z.eqb_spec (s32 x) 0); lia. }
  rewrite Hb. cbn [Z.eqb].
  destruct (negb (m_timenow m =? 0)), (0 <? _); split; struct_simpl; rewrite ?Hb, ?Hr; try done; try lia; split_and!; try done; try lia; apply Hnz.
Qed.
Lemma small_start_good client : good 0 0 (small_start client).
Proof. apply lock_good. exists [], [], [], []. apply (in_inv 8), (Init_good (H := small_platform client)); [by split|lia|lia|lia]. Qed.
Lemma small_start_locked client : locked (small_start client).
Proof. by split; vm_compute. Qed.

Lemma hash_of_name d ls : name_ok ls → is_name d ls → name_mem d (hash_of d).
Proof.
  intros Hls Hd. destruct (name_mem_legal d) as (h & Hh & Hn & _); [by exists ls|]. unfold hash_of. by rewrite Hh.
Qed.
Lemma in_buffer_name ls : name_ok ls → is_name (in_buffer (encode ls)) ls.
Proof. intros Hls. unfold in_buffer. apply is_name_app. Qed.
Definition get_ret {A} (d : A) (o : outcome A) : A := match o with Ret a => a | Fault _ => d end.
Lemma get_ret_eq {A} (d : A) o a : o = Ret a → a = get_ret d o.
Proof. by intros ->. Qed.
