(* ===== verification/MDNSNew.v ===== *)
(** Answering a new question: [AnswerNewQuestion], [AnswerNewLocalOnlyQuestion]
    and the host's own records.

    The question that is answered is the current one; a callback may stop it,
    and then the current question is another one.  [standing p m]: the walk
    stands on [p], which is in its list.  [after p m m']: the answers given
    between [m] and [m'] kept the invariant, and if the walk still stands on
    [p], it is still the same question. *)
From S2P Require Import Prelude Bytes DNSTypes DNSName DNSRecord DNSMessage MDNSTypes MDNSCache MDNSQuestion MDNSAnswer MDNSList MDNSInv MDNSPool MDNSRecycle MDNSGet MDNSQInv MDNSStart MDNSStop MDNSClient MDNSVolatile MDNSWalk MDNSExpire MDNSCreate.

Implicit Types (E : gmap Z CacheEntity) (m : mDNS) (p r t co g h : Z) (l P N L M S A X rs : list Z) (q : Question) (rr : ResourceRecord) (loc : bool).

Definition standing loc p m : Prop := ∃ P N L M A X, inv 0 0 0 m P N L M ∧ (if loc then L else P) = A ++ p :: X ∧ m_CurrentQuestion m = p.
Definition named_like m m' p : Prop := ∀ q, m_qs m !! p = Some q → ∃ q', m_qs m' !! p = Some q' ∧ q_qname (Q_q q') = q_qname (Q_q q).
Definition after loc p m m' : Prop := good 0 0 m' ∧ wframe 0 m m' ∧ (m_CurrentQuestion m' = p → standing loc p m' ∧ named_like m m' p).

Lemma answered_standing loc p m P N L M A X S m' N' M' : (if loc then L else P) = A ++ p :: X → answered 0 0 m P N L M S m' N' M' →
  (p ∈ S → m_CurrentQuestion m' ≠ p) → after loc p m m'.
Proof.
  intros HP Han Hp. split; [eexists _, _, _, _; apply Han|]. split; [apply Han|]. intros Hc. assert (p ∉ S) as Hn by tauto. split.
  - exists (without S P), N', (without S L), M', (without S A), (without S X). split; [apply Han|]. split; [|done].
    rewrite <- without_keep by done. rewrite <- HP. by destruct loc.
  - intros q Hq. by apply (an_names _ _ _ _ _ _ _ _ _ _ _ Han p q Hn).
Qed.
Lemma after_trans loc p m m1 m2 : after loc p m m1 → m_CurrentQuestion m1 = p → after loc p m1 m2 → after loc p m m2.
Proof.
  intros (_ & Hf & Hs) Hc (Hg & Hf' & Hs'). split; [done|]. split; [by transitivity m1|]. intros Hc2. destruct (Hs' Hc2) as [Hst Hn2]. split; [done|].
  destruct (Hs Hc) as [_ Hn1]. intros q Hq. destruct (Hn1 q Hq) as (q1 & Hq1 & He1). destruct (Hn2 q1 Hq1) as (q2 & Hq2 & He2). exists q2. split; [done|congruence].
Qed.
Lemma standing_good loc p m : standing loc p m → good 0 0 m.
Proof. intros (P & N & L & M & _ & _ & Hi & _). by exists P, N, L, M. Qed.
Lemma after_refl loc p m : standing loc p m → after loc p m m.
Proof. intros Hs. split; [by eapply standing_good|]. split; [done|]. intros _. split; [done|]. intros q Hq. by exists q. Qed.
Lemma standing_q loc p m : standing loc p m → ∃ q, m_qs m !! p = Some q ∧ q_ok q ∧ p ≠ 0.
Proof.
  intros (P & N & L & M & A & X & Hi & HP & _). destruct loc.
  - destruct (qlists_local_at (iv_q Hi) p) as (q & ? & ? & _ & _ & ?); [rewrite HP; set_solver|by exists q].
  - destruct (qlists_at (iv_q Hi) p) as (q & ? & ? & _ & _ & ?); [rewrite HP; set_solver|by exists q].
Qed.
(** Changes that leave the lists and the names alone. *)
Lemma after_steady p m m' P N L M A X : P = A ++ p :: X → m_CurrentQuestion m = p → steady 0 0 m P N L M m' → after false p m m'.
Proof.
  intros HP Hc [Hi' Hf Hc' Hna]. split; [by exists P, N, L, M|]. split; [done|]. intros _. split.
  - exists P, N, L, M, A, X. split; [done|]. split; [done|congruence].
  - intros q Hq. by apply (Hna p q); [apply not_elem_of_nil|].
Qed.

Section New.
Context `{PlatformOk} `{!ClientOk}.

(** ** The host's own records *)
Lemma local_answer_spec loc m p rr AddRecord : locked m → standing loc p m →
  ∃ m', AnswerLocalOnlyQuestionWithResourceRecord m p rr AddRecord = Ret m' ∧ after loc p m m'.
Proof.
  intros Hlk Hst. pose proof Hst as (P & N & L & M & A & X & Hi & HP & Hc). destruct (standing_q loc p m Hst) as (q & Hq & _).
  unfold AnswerLocalOnlyQuestionWithResourceRecord.
  assert (get_q (mDNS_DropLockBeforeCallback m) p = Ret q) as -> by (rewrite (drop_lock m Hlk); by apply get_q_at). cbn [obind].
  destruct (_ && _).
  - assert (p ∈ P ++ L) as Hp by (destruct loc; rewrite HP; set_solver).
    assert (located m P N L M) as Hl.
    { destruct loc; [right|left]; exists A, (p :: X); (split; [done|]); left; by rewrite Hc. }
    destruct (callback_spec 0 0 m P N L M p rr AddRecord Hlk Hi) as (m' & S & N' & M' & Hrun & Han & Hgone & _).
    exists m'. split; [exact Hrun|]. by eapply answered_standing; [done|done|apply Hgone].
  - cbn [obind]. rewrite (drop_lock m Hlk), (reclaim_lock m Hlk). exists m. split; [done|by apply after_refl].
Qed.

Definition own_ok (rrs : list ResourceRecord) : Prop := Forall (fun rr => name_mem (rr_name rr) (rr_namehash rr)) rrs.
Lemma offer_local_spec loc p b rrs : own_ok rrs → ∀ m, locked m → standing loc p m → ∃ m', offer_local m p b rrs = Ret m' ∧ after loc p m m'.
Proof.
  induction rrs as [|rr rrs IH]; intros Hok m Hlk Hst; cbn [offer_local]; [exists m; split; [done|by apply after_refl]|].
  apply Forall_cons in Hok as [Hrr Hok]. destruct (b && _); [by apply IH|].
  destruct (standing_q loc p m Hst) as (q & Hq & Hqk & _). rewrite (get_q_at m p q Hq). cbn [obind].
  destruct (answers_total rr q Hrr (qk_name _ Hqk)) as (a & -> & _). cbn [obind]. destruct a; [|by apply IH].
  destruct (local_answer_spec loc m p rr QC_add Hlk Hst) as (m1 & -> & Haf). cbn [obind]. pose proof Haf as (_ & Hf & Hs).
  destruct (Z.eqb_spec (m_CurrentQuestion m1) p) as [Hc|_]; [|by exists m1].
  destruct (IH Hok m1) as (m2 & -> & Haf2); [by eapply wframe_locked|by apply Hs|]. exists m2. split; [done|by eapply after_trans].
Qed.

(** ** Records of the cache *)
(** The records from [r] on have the name of the question. *)
Definition group_of m p g rs : Prop := ∃ cg q, m_ents m !! g = Some (EGroup cg) ∧ m_qs m !! p = Some q ∧ same_mem (cg_name cg) (q_qname (Q_q q)) ∧
  ∀ r, r ∈ rs → ∃ cr, m_ents m !! r = Some (ERecord cr) ∧ cr_group cr = g.
Lemma group_of_frame m m' p g rs : wframe 0 m m' → named_like m m' p → group_of m p g rs → group_of m' p g rs.
Proof.
  intros Hf Hn (cg & q & Hg & Hq & Hs & Hrs). pose proof (sc_ents _ _ (wf_cache _ _ _ Hf)) as He. destruct (Hn q Hq) as (q' & Hq' & Heq).
  exists cg, q'. split; [by apply (same_ents_group He)|]. split; [done|]. rewrite Heq. split; [done|]. intros r Hr. destruct (Hrs r Hr) as (cr & Hcr & Hgr).
  destruct (same_ents_rec He Hcr) as (cr' & Hcr' & Hst). apply strip_rec_inv in Hst as (_ & Hg' & _). exists cr'. split; [done|congruence].
Qed.

Lemma offer_record_spec m p g rs r : locked m → standing false p m → group_of m p g rs → r ∈ rs →
  ∃ m' b, offer_record m p r = Ret (m', b) ∧ after false p m m'.
Proof.
  intros Hlk Hst (cg & q & Hg & Hq & Hs & Hrs) Hr. destruct (Hrs r Hr) as (cr & Hcr & Hgr). pose proof Hst as (P & N & L & M & A & X & Hi & HP & Hc).
  pose proof (iv_cache Hi) as Hw. pose proof (wf_nonzero _ _ _ _ _ Hw Hcr) as Hr0. assert (p ∈ P ++ N) as Hp by (rewrite HP; set_solver).
  unfold offer_record. rewrite (get_rec_at Hw r cr Hcr). cbn [obind].
  destruct (subject_spec 0 0 m r Hw (linked_subject 0 0 m r cr Hw Hcr Hr0)) as (cr' & rr & Hcr' & Hrr & Hn & _).
  rewrite (get_rec_at Hw r cr Hcr) in Hcr'. injection Hcr' as <-. rewrite Hrr. cbn [obind]. rewrite (get_q_at m p q Hq). cbn [obind].
  destruct (SameNameRecordAnswersQuestion rr (Q_q q)).
  - destruct (_ <=? _).
    { eexists _, _. split; [done|]. eapply after_steady; [done|done|]. exact (steady_log 0 0 m P N L M true AnswerNewQuestion_expired Hi). }
    match goal with |- context [set_q m p ?f] => destruct (steady_set_q 0 0 m P N L M p f Hi Hp) as (m1 & -> & Hst1 & HE1) end; [intros; by split; [split|]|].
    cbn [obind]. destruct Hst1 as [Hi1 Hf1 Hc1 Hna1].
    destruct (answer_current_spec 0 0 m1 P N L M p r A X QC_add) as (m2 & S & N2 & M2 & -> & Han & Hgone); try done.
    + by eapply wframe_locked.
    + congruence.
    + eapply linked_subject; [apply Hi1|by rewrite HE1|done].
    + intros _. split; [done|]. destruct (Hna1 p q) as (q1 & Hq1 & Hnm); [apply not_elem_of_nil|done|]. exists cr, cg, q1. rewrite HE1, Hgr, Hnm. done.
    + rewrite (sc_size _ _ (wf_cache _ _ _ Hf1)). by eapply size_pos.
    + cbn [obind]. eexists _, _. split; [done|]. eapply after_trans; [by eapply after_steady|congruence|by eapply answered_standing].
  - destruct (_ && _ && _).
    + destruct (name_mem_same _ _ _ _ Hn (qk_name _ (ql_ok (iv_q Hi) p q Hq ltac:(by destruct (standing_q _ _ _ Hst) as (_ & _ & _ & ?))))) as (b & -> & _).
      cbn [obind]. eexists _, _. split; [done|by apply after_refl].
    + eexists _, _. split; [done|by apply after_refl].
Qed.
Lemma offer_loop_spec p g rs : ∀ fuel m r b, locked m → standing false p m → group_of m p g rs → chain (rec_next (m_ents m)) r rs → (length rs < fuel)%nat →
  ∃ m' b', offer_loop fuel m p r b = Ret (m', b') ∧ after false p m m'.
Proof.
  induction rs as [|x rs IH]; intros [|fuel] m r b Hlk Hst Hgo Hch Hf; simpl in Hf; try lia; cbn [offer_loop].
  - simpl in Hch. subst r. rewrite Z.eqb_refl. eexists _, _. split; [done|by apply after_refl].
  - destruct Hch as (-> & Hx0 & n & (cr & Hcr & <-)%rec_next_Some & Hrs). rewrite (proj2 (Z.eqb_neq x 0)) by done.
    destruct (offer_record_spec m p g (x :: rs) x Hlk Hst Hgo) as (m1 & b1 & -> & Haf); [apply list_elem_of_here|]. cbn [obind].
    destruct (Z.eqb_spec (m_CurrentQuestion m1) p) as [Hc|_]; [|by eexists _, _]. pose proof Haf as (Hg1 & Hf1 & Hs1). destruct (Hs1 Hc) as [Hst1 Hn1].
    pose proof (sc_ents _ _ (wf_cache _ _ _ Hf1)) as He. destruct (same_ents_rec He Hcr) as (cr1 & Hcr1 & Hsr). apply strip_rec_inv in Hsr as (Hnx & _).
    rewrite (get_rec_at (good_wf _ _ _ Hg1) x cr1 Hcr1). cbn [obind].
    destruct (IH fuel m1 (cr_next cr1) (b && b1)) as (m2 & b2 & -> & Haf2); [by eapply wframe_locked|done| | |lia|].
    + pose proof (group_of_frame _ _ _ _ _ Hf1 Hn1 Hgo) as (cg & q & ? & ? & ? & Hall). exists cg, q. split_and!; try done. intros y Hy. apply Hall. by apply list_elem_of_further.
    + rewrite Hnx. eapply lseg_ext; [|exact Hrs]. intros y _. apply (same_ents_next He).
    + eexists _, _. split; [done|by eapply after_trans].
Qed.

(** ** Asking at once *)
Lemma query_now_spec m p : standing false p m → ∃ m', query_now m p = Ret m' ∧ after false p m m'.
Proof.
  intros Hst. pose proof Hst as (P & N & L & M & A & X & Hi & HP & Hc). assert (p ∈ P ++ N) as Hp by (rewrite HP; set_solver).
  destruct (standing_q _ _ _ Hst) as (q & Hq & _). unfold query_now. rewrite (get_q_at m p q Hq). cbn [obind].
  destruct (ActiveQuestion q); [|exists m; split; [done|by apply after_refl]].
  match goal with |- context [let '(m, last) := ?b in _] => assert (∃ m1 x, b = (m1, x) ∧ steady 0 0 m P N L M m1) as (m1 & x & -> & Hst1) end.
  { destruct (_ =? 0); [|eexists _, _; split; [done|by apply steady_refl]].
    destruct (m_RandomQueryDelay m =? 0); [|eexists _, _; split; [done|by apply steady_refl]].
    pose proof (random_vol m (u32 (one_second * 5))) as Hv. destruct (random m _) as [m1 x]. eexists _, _. split; [done|].
    destruct (steady_vol 0 0 m m1 P N L M Hi Hv) as [Hi1 Hf1 Hc1 Hna1]. split; [|transitivity m1; [done|split; try done; by eauto]|done|done].
    destruct Hi1. split; try done. by apply (same_cache_wf 0 0 m1). }
  destruct (steady_set_q 0 0 m1 P N L M p (fun qq => qq <| Q_ThisQInterval := InitialQuestionInterval |> <| Q_LastQTime := x |>) (sd_inv _ _ _ _ _ _ _ _ Hst1) Hp)
    as (m2 & -> & Hst2 & _); [intros; by split; [split|]|]. cbn [obind].
  eexists. split; [done|]. eapply after_steady; [done|done|]. eapply steady_trans; [exact Hst1|]. eapply steady_trans; [exact Hst2|].
  destruct (0 <? _); [|apply steady_refl, Hst2]. apply steady_vol; [apply Hst2|by split].
Qed.

(** ** The first new question becomes the current one *)
Lemma take_new m P N L M A p X q : inv 0 0 0 m P N L M → P ++ N = A ++ p :: X → m_qs m !! p = Some q →
  inv 0 0 0 (m <| m_NewQuestions := Q_next q |>) (A ++ [p]) X L M.
Proof.
  intros Hi HPN Hq. pose proof (ql_chain (iv_q Hi)) as Hch. rewrite HPN in Hch. apply lseg_app in Hch as (k & _ & -> & _ & n & (c & Hc & <-)%qnx_Some & HN).
  rewrite Hq in Hc. injection Hc as <-. destruct Hi as [Hw Hql Hn Hnl Hd Ha Hct Hk]. rewrite HPN in *.
  split; rewrite <- ?app_assoc; try done; [by apply (same_cache_wf 0 0 m)|]. struct_simpl. destruct X; [done|by destruct HN].
Qed.
Lemma take_new_local m P N L p M q : inv 0 0 0 m P N L (p :: M) → m_qs m !! p = Some q → inv 0 0 0 (m <| m_NewLocalOnlyQuestions := Q_next q |>) P N (L ++ [p]) M.
Proof.
  intros Hi Hq. pose proof (ql_local (iv_q Hi)) as (k & _ & -> & _ & n & (c & Hc & <-)%qnx_Some & HN)%lseg_app.
  rewrite Hq in Hc. injection Hc as <-. destruct Hi as [Hw Hql Hn Hnl Hd Ha Hct Hk].
  split; rewrite <- ?app_assoc; try done; [by apply (same_cache_wf 0 0 m)|]. struct_simpl. destruct M; [done|by destruct HN].
Qed.
(** The state in which a question is answered: nothing that the invariant
    depends on differs. *)
Lemma inv_start m P N L M x k y : inv 0 0 0 m P N L M → inv 0 0 0 (m <| m_CurrentQuestion := x |> <| m_lock_rrcache := k |> <| m_log := y |>) P N L M.
Proof. intros []. split; try done. by apply (same_cache_wf 0 0 m). Qed.

Lemma AnswerNewLocalOnlyQuestion_spec m : good 0 0 m → locked m → own_ok (m_ResourceRecords m) → m_NewLocalOnlyQuestions m ≠ 0 →
  ∃ m', AnswerNewLocalOnlyQuestion m = Ret m' ∧ good 0 0 m' ∧ pframe m m' ∧ m_CurrentQuestion m' = 0.
Proof.
  intros (P & N & L & M & Hi) Hlk Hown Hnew. unfold AnswerNewLocalOnlyQuestion. pose proof (iv_newl Hi) as HM. set (p := m_NewLocalOnlyQuestions m) in *.
  destruct M as [|x M]; [done|]. simpl in HM. subst x. destruct (qlists_local_at (iv_q Hi) p ltac:(set_solver)) as (q & Hq & _).
  rewrite (get_q_at m p q Hq). cbn [obind]. pose proof (take_new_local m P N L p M q Hi Hq) as Hi1.
  match goal with |- context [offer_local ?x p false ?l] => set (m1 := x) end.
  assert (∃ y, m1 = m <| m_NewLocalOnlyQuestions := Q_next q |> <| m_CurrentQuestion := p |> <| m_lock_rrcache := m_lock_rrcache m |> <| m_log := y |>) as [y Hm1].
  { unfold m1, log_if, LogMsg. destruct (negb _); eexists; clear; destruct m; reflexivity. }
  assert (standing true p m1) as Hst.
  { exists P, N, (L ++ [p]), M, L, []. rewrite Hm1. split; [by apply inv_start|done]. }
  assert (pframe m m1 ∧ locked m1 ∧ m_ResourceRecords m1 = m_ResourceRecords m) as (Hp1 & Hlk1 & ->).
  { rewrite Hm1. split; [done|]. by split; [destruct Hlk|]. }
  destruct (offer_local_spec true p false _ Hown m1 Hlk1 Hst) as (m2 & -> & Hg2 & Hf2 & _). cbn [obind]. eexists. split; [done|]. split; [|split; [|done]].
  - destruct Hg2 as (P2 & N2 & L2 & M2 & Hi2). exists P2, N2, L2, M2. by apply (inv_current 0 0 0 m2).
  - transitivity m1; [done|]. by apply (pframe_wframe 0) in Hf2.
Qed.

(** ** A new question *)
(** The first part: the records of its name that have expired are removed. *)
Definition drop_expired m : outcome mDNS :=
  let* qq := get_q m (m_NewQuestions m) in
  let* slot := HashSlot (q_qname (Q_q qq)) in
  let* cg := CacheGroupForName m slot (q_qnamehash (Q_q qq)) (q_qname (Q_q qq)) in
  if cg =? 0 then Ret m else CheckCacheExpiration m cg.
(** A callback of that part that stops the question does not use its memory
    for another one. *)
Definition not_reused m : Prop := ∀ m1 q q1, drop_expired m = Ret m1 → m_qs m !! m_NewQuestions m = Some q → m_qs m1 !! m_NewQuestions m = Some q1 →
  is_local q1 = false ∧ q_qname (Q_q q1) = q_qname (Q_q q).

Lemma drop_expired_spec m q : good 0 0 m → locked m → m_lock_rrcache m = 0 → m_qs m !! m_NewQuestions m = Some q → q_ok q →
  ∃ g m1, HashSlot (q_qname (Q_q q)) = Ret (q_qnamehash (Q_q q) mod CACHE_HASH_SLOTS) ∧
    CacheGroupForName m (q_qnamehash (Q_q q) mod CACHE_HASH_SLOTS) (q_qnamehash (Q_q q)) (q_qname (Q_q q)) = Ret g ∧
    (if g =? 0 then Ret m else CheckCacheExpiration m g) = Ret m1 ∧ drop_expired m = Ret m1 ∧ good 0 0 m1 ∧ eframe m m1 ∧
    (g = 0 ∨ ∃ cg, m_ents m1 !! g = Some (EGroup cg) ∧ same_mem (cg_name cg) (q_qname (Q_q q))).
Proof.
  intros Hg Hlk Hl Hq Hok. pose proof (qk_name _ Hok) as Hn.
  assert (HashSlot (q_qname (Q_q q)) = Ret (q_qnamehash (Q_q q) mod CACHE_HASH_SLOTS)) as Hh.
  { destruct Hn as (? & _ & _ & Hh). unfold HashSlot. by rewrite Hh. }
  destruct (CacheGroupForName_spec 0 0 m _ _ (good_wf _ _ _ Hg) Hn) as (g & Hfind & Hf).
  assert (∃ m1, (if g =? 0 then Ret m else CheckCacheExpiration m g) = Ret m1 ∧ good 0 0 m1 ∧ eframe m m1 ∧
    (g = 0 ∨ ∃ cg, m_ents m1 !! g = Some (EGroup cg) ∧ same_mem (cg_name cg) (q_qname (Q_q q)))) as (m1 & Hrun & Hg1 & He1 & Hgrp).
  { destruct (Z.eqb_spec g 0) as [->|Hg0]; [exists m; split; [done|]; split; [done|]; split; [done|by left]|].
    destruct Hf as [[? _]|[_ (cg & Hcg & Hs)]]; [done|].
    destruct (CheckCacheExpiration_spec m g cg Hg Hlk Hl Hcg) as (m1 & -> & Hg1 & He1 & cg1 & Hcg1). exists m1. split_and!; try done. right.
    exists cg1. split; [done|]. pose proof (ef_names _ _ He1 g) as Hx. unfold group_name in Hx. rewrite Hcg, Hcg1 in Hx. injection Hx as ->. done. }
  exists g, m1. split_and!; try done. unfold drop_expired. rewrite (get_q_at m _ q Hq). cbn [obind]. rewrite Hh. cbn [obind]. rewrite Hfind. exact Hrun.
Qed.

(** The parts that follow, with the question standing. *)
Lemma new_local_spec m p : locked m → standing false p m → own_ok (m_ResourceRecords m) →
  ∃ m', (if m_CurrentQuestion m =? p then
      let* qq := get_q m p in
      if q_InterfaceID (Q_q qq) =? mDNSInterface_Any then offer_local m p true (m_ResourceRecords m) else Ret m
    else Ret m) = Ret m' ∧ after false p m m'.
Proof.
  intros Hlk Hst Hown. destruct (_ =? p); [|exists m; split; [done|by apply after_refl]]. destruct (standing_q _ _ _ Hst) as (q & Hq & _).
  rewrite (get_q_at m p q Hq). cbn [obind]. destruct (_ =? _); [|exists m; split; [done|by apply after_refl]]. by apply offer_local_spec.
Qed.
Lemma new_cache_spec m p g q : locked m → standing false p m → m_qs m !! p = Some q →
  (g = 0 ∨ ∃ cg, m_ents m !! g = Some (EGroup cg) ∧ same_mem (cg_name cg) (q_qname (Q_q q))) →
  ∃ m' b, (let* r := members_of m g in offer_loop (list_fuel m) m p r true) = Ret (m', b) ∧ after false p m m'.
Proof.
  intros Hlk Hst Hq Hg. unfold members_of. destruct (Z.eqb_spec g 0) as [->|Hg0].
  { cbn [obind offer_loop list_fuel Z.eqb]. eexists _, _. split; [done|by apply after_refl]. }
  destruct Hg as [?|(cg & Hcg & Hs)]; [done|]. rewrite (get_group_at _ _ Hcg). cbn [obind]. pose proof (good_wf _ _ _ (standing_good _ _ _ Hst)) as Hw.
  destruct (wf_members Hw g cg Hcg Hg0) as (rs & Hch & Hin & _). apply (offer_loop_spec p g rs); try done; [|by eapply wf_fuel].
  exists cg, q. split_and!; try done. intros r Hr. destruct (lseg_next _ _ _ _ _ Hch Hr) as [_ [n Hn]]. apply rec_next_Some in Hn as (cr & Hcr & _).
  exists cr. split; [done|]. by apply (Hin r cr Hcr) in Hr as [].
Qed.

(** The answers, once the question is the current one. *)
Lemma answer_standing_spec m p g q : locked m → standing false p m → own_ok (m_ResourceRecords m) → m_qs m !! p = Some q →
  (g = 0 ∨ ∃ cg, m_ents m !! g = Some (EGroup cg) ∧ same_mem (cg_name cg) (q_qname (Q_q q))) →
  ∃ m', (let* m := if m_CurrentQuestion m =? p then
           let* qq := get_q m p in
           if q_InterfaceID (Q_q qq) =? mDNSInterface_Any then offer_local m p true (m_ResourceRecords m) else Ret m
         else Ret m in
       let* '(m, now) := if m_CurrentQuestion m =? p then
           let* r := members_of m g in offer_loop (list_fuel m) m p r true
         else Ret (m, true) in
       if (m_CurrentQuestion m =? p) && now then query_now m p else Ret m) = Ret m' ∧ good 0 0 m' ∧ wframe 0 m m'.
Proof.
  intros Hlk Hst Hown Hq Hg. destruct (new_local_spec m p Hlk Hst Hown) as (m3 & -> & Haf3). cbn [obind]. pose proof Haf3 as (Hg3 & Hf3 & Hs3).
  destruct (Z.eqb_spec (m_CurrentQuestion m3) p) as [Hc3|Hc3]; cbn [obind].
  2: { rewrite (proj2 (Z.eqb_neq _ _) Hc3). cbn [andb]. by exists m3. }
  destruct (Hs3 Hc3) as [Hst3 Hn3]. destruct (Hn3 q Hq) as (q3 & Hq3 & Hnm3).
  destruct (new_cache_spec m3 p g q3) as (m4 & b & -> & Haf4); [by eapply wframe_locked|done|done| |].
  { destruct Hg as [?|(cg & Hcg & Hs)]; [by left|right]. exists cg. rewrite Hnm3. split; [|done]. by apply (same_ents_group (sc_ents _ _ (wf_cache _ _ _ Hf3))). }
  cbn [obind]. pose proof (after_trans _ _ _ _ _ Haf3 Hc3 Haf4) as Haf24. pose proof Haf24 as (Hg4 & Hf4 & Hs4).
  destruct (Z.eqb_spec (m_CurrentQuestion m4) p) as [Hc4|Hc4]; cbn [andb]; [|by exists m4]. destruct b; [|by exists m4].
  destruct (Hs4 Hc4) as [Hst4 _]. destruct (query_now_spec m4 p Hst4) as (m5 & -> & Hg5 & Hf5 & _). exists m5. split_and!; try done. by transitivity m4.
Qed.

(** The question is made the current one, and the cache locked. *)
Lemma enter_eq m p : ∃ y,
  (log_if (negb (m_CurrentQuestion ((log_if (negb (m_lock_rrcache m =? 0)) AnswerNewQuestion_locked m) <| m_lock_rrcache := 1 |>) =? 0)) AnswerNewQuestion_current
    ((log_if (negb (m_lock_rrcache m =? 0)) AnswerNewQuestion_locked m) <| m_lock_rrcache := 1 |>)) <| m_CurrentQuestion := p |> =
  m <| m_CurrentQuestion := p |> <| m_lock_rrcache := 1 |> <| m_log := y |>.
Proof. unfold log_if, LogMsg. destruct (negb (m_lock_rrcache m =? 0)), (negb _); eexists; clear; destruct m; reflexivity. Qed.
(** The question is answered, or it was stopped when its expired answers went
    away, and then its memory is used although it was given back. *)
Lemma AnswerNewQuestion_spec m : good 0 0 m → locked m → m_lock_rrcache m = 0 → own_ok (m_ResourceRecords m) → m_NewQuestions m ≠ 0 → not_reused m →
  ∃ m1, drop_expired m = Ret m1 ∧ match m_qs m1 !! m_NewQuestions m with
    | None => AnswerNewQuestion m = Fault Dangling
    | Some _ => ∃ m', AnswerNewQuestion m = Ret m' ∧ good 0 0 m' ∧ pframe m m' ∧ m_CurrentQuestion m' = 0
    end.
Proof.
  intros Hgd Hlk Hl Hown Hnew Hstill. set (p := m_NewQuestions m) in *. pose proof Hgd as (P & N & L & M & Hi).
  assert (∃ N', N = p :: N') as [N' ->]. { pose proof (iv_new Hi) as Hx. fold p in Hx. destruct N as [|x N]; [done|]. simpl in Hx. subst x. by exists N. }
  destruct (qlists_at (iv_q Hi) p ltac:(set_solver)) as (q & Hq & Hok & _). unfold AnswerNewQuestion. fold p. rewrite (get_q_at m p q Hq). cbn [obind].
  destruct (drop_expired_spec m q Hgd Hlk Hl Hq Hok) as (g & m1 & -> & Hfind & Hrun & Hdrop & Hgd1 & He1 & Hg1). cbn [obind]. rewrite Hfind. cbn [obind]. rewrite Hrun. cbn [obind].
  exists m1. split; [done|]. destruct (m_qs m1 !! p) as [q1|] eqn:Hq1; [|unfold get_q; by rewrite Hq1].
  destruct (Hstill m1 q q1 Hdrop Hq Hq1) as [Hloc Hnm].
  rewrite (get_q_at m1 p q1 Hq1). cbn [obind]. pose proof Hgd1 as (P1 & N1 & L1 & M1 & Hi1).
  destruct (inv_member _ _ _ _ _ _ _ _ _ Hi1 Hq1) as (_ & Hok1 & Hin1). rewrite Hloc in Hin1. apply list_elem_of_split in Hin1 as (A1 & N1' & HPN).
  destruct (qk_wide _ Hok1) as (_ & _ & _ & _ & Hna). rewrite (proj2 (Z.eqb_neq _ _) Hna).
  pose proof (take_new m1 P1 N1 L1 M1 A1 p N1' q1 Hi1 HPN Hq1) as Hi2. pose proof (pframe_eframe _ _ He1) as Hp1. pose proof Hp1 as (_ & _ & _ & _ & Hl1 & _).
  match goal with |- context [let* m := Ret ?x in _] => pose proof (enter_eq (m1 <| m_NewQuestions := Q_next q1 |>) p : ∃ y, x = _) as [y Hm2]; set (m2 := x) in * end.
  cbn [obind]. clearbody m2.
  assert (standing false p m2) as Hst2.
  { exists (A1 ++ [p]), N1', L1, M1, A1, []. rewrite Hm2. split; [by apply inv_start|done]. }
  assert (locked m2) as Hlk2 by (rewrite Hm2; by destruct (eframe_locked _ _ He1 Hlk)).
  assert (own_ok (m_ResourceRecords m2)) as Hown2 by (rewrite Hm2; struct_simpl; by rewrite (ef_own _ _ He1)).
  assert (m_qs m2 = m_qs m1 ∧ m_ents m2 = m_ents m1) as [HQ2 HE2] by by rewrite Hm2.
  assert (pframe m (m2 <| m_lock_rrcache := 0 |>)) as Hpf2.
  { destruct Hp1 as (? & ? & ? & ? & ? & ?). rewrite Hm2. split_and!; struct_simpl; congruence. }
  destruct (answer_standing_spec m2 p g q1 Hlk2 Hst2 Hown2) as (m3 & Hrest & Hg3 & Hf3); [by rewrite HQ2|by rewrite HE2, Hnm|].
  revert Hrest. match goal with |- obind ?a _ = _ → _ => destruct a as [ma|]; [|discriminate] end. cbn [obind].
  match goal with |- obind ?a _ = _ → _ => destruct a as [[mb now]|]; [|discriminate] end. cbn [obind].
  intros ->. cbn [obind]. eexists. split; [done|]. split; [|split; [|done]].
  - destruct Hg3 as (P4 & N4 & L4 & M4 & Hi4). exists P4, N4, L4, M4. destruct Hi4. split; try done. by apply (same_cache_wf 0 0 m3).
  - transitivity (m2 <| m_lock_rrcache := 0 |>); [done|]. destruct Hf3 as [(? & ? & ? & ?) _ ? _ _ _]. by split_and!.
Qed.
End New.
