(* ===== verification/MDNSSpec.v ===== *)
(** What the searcher of mDNSCore promises: the theorems on the record cache
    and the questions, and the states on which they are tried. *)
From S2P Require Import Prelude Bytes DNSTypes DNSName DNSRecord DNSMessage MDNSTypes MDNSCache MDNSQuestion MDNSAnswer MDNSList MDNSInv MDNSPool MDNSRecycle MDNSGet MDNSQInv MDNSStart MDNSStop MDNSClient MDNSVolatile MDNSWalk MDNSExpire MDNSCreate MDNSInit MDNSNew.

Implicit Types (E : gmap Z CacheEntity) (m : mDNS) (p r t co g h : Z) (q : Question) (rr : ResourceRecord).

(** ** The searcher as a machine

    Between two callbacks of the platform layer, with the lock held, the
    searcher does one of these things. *)
Inductive operation :=
| OpStart p q            (* a client starts a question, in memory of its own *)
| OpStop p               (* a client stops a question *)
| OpReceive (fuel : nat) (rec : CacheRecord) (* a record that is not in the cache was received *)
| OpRefresh r (ttl : Z)  (* a record of the cache was received again *)
| OpReconfirm r (interval : Z)
| OpPurgeRecord r
| OpPurgeCache           (* step 3 of [mDNS_Execute] *)
| OpAnswer               (* step 4 of [mDNS_Execute] *)
| OpAnswerLocal
| OpTime (t : Z).        (* the clock moves on *)

Section Machine.
Context `{Platform}.

Definition run_op m (o : operation) : outcome mDNS :=
  match o with
  | OpStart p q =>
    let* '(m, status) := mDNS_StartQuery_internal (put_q m p q) p in
    Ret (if status =? mStatus_NoError then m else m <| m_qs := delete p (m_qs m) |>)
  | OpStop p =>
    let* '(m, status) := mDNS_StopQuery_internal m p in
    Ret (if status =? mStatus_NoError then m <| m_qs := delete p (m_qs m) |> else m)
  | OpReceive fuel rec =>
    let m := m <| m_rec := rec |> in
    let h := rr_namehash (cr_resrec rec) in
    if m_rrcache_size m =? 0 then Ret m else
    let* cg := CacheGroupForName m (h mod CACHE_HASH_SLOTS) h (rr_name (cr_resrec rec)) in
    let* '(m, _) := CreateNewCacheEntry fuel m (h mod CACHE_HASH_SLOTS) cg in Ret m
  | OpRefresh r ttl => RefreshCacheRecord m r ttl
  | OpReconfirm r interval => let* '(m, _) := mDNS_Reconfirm_internal m r interval in Ret m
  | OpPurgeRecord r => mDNS_PurgeCacheResourceRecord m r
  | OpPurgeCache => purge_cache m
  | OpAnswer => if m_NewQuestions m =? 0 then Ret m else AnswerNewQuestion m
  | OpAnswerLocal => if m_NewLocalOnlyQuestions m =? 0 then Ret m else AnswerNewLocalOnlyQuestion m
  | OpTime t => Ret (at_time m t)
  end.
Fixpoint run_ops m (os : list operation) : outcome mDNS :=
  match os with [] => Ret m | o :: os => let* m := run_op m o in run_ops m os end.

Definition has_record m r : Prop := ∃ cr, m_ents m !! r = Some (ERecord cr).
(** What the callers see to: questions have memory of their own, the records
    they name are there, those that were received are well formed, and a
    client that stops a new question from the callback that takes an answer
    away does not start another one there in the same memory. *)
Definition op_ok m (o : operation) : Prop :=
  match o with
  | OpStart p q => p ≠ 0 ∧ m_qs m !! p = None ∧ q_mem q
  | OpStop p => is_Some (m_qs m !! p)
  | OpReceive _ rec => received rec
  | OpRefresh r _ | OpReconfirm r _ | OpPurgeRecord r => has_record m r
  | OpPurgeCache | OpAnswerLocal => True
  | OpAnswer => m_NewQuestions m ≠ 0 → not_reused m
  | OpTime t => t ≠ 0 ∧ is_s32 t
  end.
Inductive allowed : mDNS → list operation → Prop :=
| allowed_nil m : allowed m []
| allowed_cons m o os : op_ok m o → (∀ m', run_op m o = Ret m' → allowed m' os) → allowed m (o :: os).

(** The lock is held, the cache is not locked and the invariant holds. *)
Record ready m : Prop := {
  rd_good : good 0 0 m;
  rd_locked : locked m;
  rd_cache : m_lock_rrcache m = 0;
  rd_own : own_ok (m_ResourceRecords m)
}.

(** The two ways in which an operation does not return.  A new question is
    answered that the client stopped when its expired answers were taken
    away; or there is no memory for the record that was received, and it is
    delivered to more questions than were there, since it is a CNAME record
    that is followed or a client starts questions when it is given such an
    answer. *)
Definition breaks m (o : operation) (e : fault) : Prop :=
  match o, e with
  | OpAnswer, Dangling => ∃ m1, drop_expired m = Ret m1 ∧ is_Some (m_qs m !! m_NewQuestions m) ∧ m_qs m1 !! m_NewQuestions m = None
  | OpReceive fuel rec, OutOfFuel =>
      (∃ m1, outside m1 = outside (m <| m_rec := rec |>) ∧ NoCacheAnswer fuel m1 rec_ptr = Fault OutOfFuel) ∧
      (rr_rrtype (cr_resrec rec) = kDNSType_CNAME ∨ ¬ starts_none QC_addnocache)
  | _, _ => False
  end.
End Machine.

(** *** Each operation *)
Section Steps.
Context `{PlatformOk} `{!ClientOk}.

Lemma ready_vol m m' : vol m m' → ready m → ready m'.
Proof.
  intros Hv [Hg Hl Hc Ho]. pose proof (wframe_vol 0 _ _ Hv) as Hf. split; [by eapply good_vol|by eapply wframe_locked|by rewrite (wf_rrcache _ _ _ Hf)|by rewrite (wf_own _ _ _ Hf)].
Qed.
Lemma ready_rest m m' : ready m → good 0 0 m' → rest m' = rest m → ready m'.
Proof.
  intros [_ [] Hc Ho] Hg Hr. destruct (rest_busy _ _ Hr) as (Hb & Hre & Ht & Hl & Hk & _). pose proof (f_equal m_ResourceRecords Hr) as Hown.
  split; [done| |congruence|]; [split; rewrite ?Hb, ?Hre, ?Ht, ?Hl; done|]. change (m_ResourceRecords m' = m_ResourceRecords m) in Hown. by rewrite Hown.
Qed.
Lemma ready_pframe m m' : ready m → good 0 0 m' → pframe m m' → ready m'.
Proof. intros [_ Hl Hc Ho] Hg Hp. split; [done|by eapply pframe_locked|by destruct Hp as (_ & _ & _ & _ & -> & _)|by destruct Hp as (_ & _ & _ & _ & _ & ->)]. Qed.

Lemma ready_rec m rec : ready m → ready (m <| m_rec := rec |>).
Proof. intros [(P & N & L & M & Hi) [] Hc Ho]. split; try done. exists P, N, L, M. destruct Hi. split; try done. by apply (same_cache_wf 0 0 m). Qed.
Lemma start_ready m p q : ready m → op_ok m (OpStart p q) → ∃ m', run_op m (OpStart p q) = Ret m' ∧ ready m'.
Proof.
  intros Hr (Hp0 & Hp & Hmem). pose proof (rd_good _ Hr) as (P & N & L & M & Hi). cbn [run_op].
  pose proof (inv_add 0 0 m P N L M p q Hi Hp Hp0) as Hi1.
  destruct (StartQuery_internal_spec 0 0 (put_q m p q) P N L M p q Hi1 (lookup_insert_eq _ _ _) Hmem) as (m1 & st & -> & Hcm & _ & Hres). cbn [obind].
  assert (rest m1 = rest m) as Hrest by apply Hcm. eexists. split; [done|]. destruct Hres as [(-> & Hst & _)|(Hne & Hi2 & _)].
  - change (mStatus_NoError =? mStatus_NoError) with true. cbn beta iota. apply (ready_rest m); [done| |done].
    unfold started in Hst. destruct (is_local q); eexists _, _, _, _; exact Hst.
  - rewrite (proj2 (Z.eqb_neq _ _) Hne). apply (ready_rest m); [done| |done]. exists P, N, L, M. by apply inv_delete.
Qed.
Lemma stop_ready m p : ready m → op_ok m (OpStop p) → ∃ m', run_op m (OpStop p) = Ret m' ∧ ready m'.
Proof.
  intros Hr [q Hq]. pose proof (rd_good _ Hr) as (P & N & L & M & Hi). cbn [run_op].
  destruct (StopQuery_internal_spec 0 0 m P N L M p q Hi Hq) as (m1 & -> & Hst). cbn [obind].
  destruct Hst as [m1 q' Hrest _ _ Hi1 _ _ _ _ _].
  change (mStatus_NoError =? mStatus_NoError) with true. cbn beta iota. eexists. split; [done|]. apply (ready_rest m); [done| |done].
  eexists _, _, _, _. apply inv_delete; [exact Hi1|]. intros ->. by rewrite (ql_pos (iv_q Hi)) in Hq.
Qed.
(** An operation ends in a state that is ready, or in one of the two ways. *)
Definition op_result m o : Prop := (∃ m', run_op m o = Ret m' ∧ ready m') ∨ (∃ e, run_op m o = Fault e ∧ breaks m o e).
Lemma receive_ready m fuel rec : ready m → received rec → op_result m (OpReceive fuel rec).
Proof.
  intros Hr Hrv. unfold op_result. cbn [run_op]. cbv zeta. set (m0 := m <| m_rec := rec |>). assert (ready m0) as Hr0 by by apply ready_rec.
  pose proof Hr0 as [Hg0 Hl0 Hc0 _]. destruct (Z.eqb_spec (m_rrcache_size m0) 0) as [_|Hsz]; [left; by exists m0|].
  destruct (CacheGroupForName_spec 0 0 m0 _ _ (good_wf _ _ _ Hg0) (rv_name _ Hrv)) as (g & -> & Hf). cbn [obind].
  destruct (CreateNewCacheEntry_total fuel m0 g Hg0 Hl0 Hc0 Hrv Hsz Hf) as [(m' & r & Hrun & Hg' & Hp' & _)|(Hrun & Hno & _ & Hex)];
    change (m_rec m0) with rec in Hrun; rewrite Hrun; cbn [obind]; [left|right].
  - exists m'. split; [done|by apply (ready_pframe m0)].
  - exists OutOfFuel. split; [done|]. split; [done|]. change (rec_type m0) with (rr_rrtype (cr_resrec rec)) in Hno. unfold no_starts in Hno.
    destruct (decide (rr_rrtype (cr_resrec rec) = kDNSType_CNAME)); [by left|right; tauto].
Qed.
Lemma answer_ready m : ready m → m_NewQuestions m ≠ 0 → not_reused m → op_result m OpAnswer.
Proof.
  intros Hr Hn Hre. pose proof Hr as [Hg Hl Hc Ho]. unfold op_result. cbn [run_op]. rewrite (proj2 (Z.eqb_neq _ _) Hn).
  destruct (AnswerNewQuestion_spec m Hg Hl Hc Ho Hn Hre) as (m1 & Hd & Hans). destruct (m_qs m1 !! m_NewQuestions m) eqn:Hq1.
  - left. destruct Hans as (m' & -> & Hg' & Hp' & _). exists m'. split; [done|by eapply ready_pframe].
  - right. exists Dangling. split; [done|]. exists m1. split; [done|]. split; [|done]. unfold drop_expired, get_q in Hd.
    destruct (m_qs m !! m_NewQuestions m); [by eexists|discriminate].
Qed.
Lemma run_op_ready m o : ready m → op_ok m o → op_result m o.
Proof.
  intros Hr Hok. pose proof Hr as [Hg Hl Hc Hown]. pose proof (good_wf _ _ _ Hg) as Hw.
  destruct o; [left; by apply start_ready|left; by apply stop_ready|by apply receive_ready|left|left|left|left| |left|left];
    [..|by destruct (decide (m_NewQuestions m = 0)) as [Hz|Hz]; [left; exists m; cbn [run_op]; rewrite Hz|apply answer_ready; [..|apply Hok]]| |]; cbn [run_op].
  - destruct Hok as [cr Hcr]. destruct (RefreshCacheRecord_vol 0 0 m r cr ttl Hw Hcr) as (m' & -> & Hv). exists m'. split; [done|by eapply ready_vol].
  - destruct Hok as [cr Hcr]. destruct (Reconfirm_internal_vol 0 0 m r cr interval Hw Hcr) as (m' & -> & Hv). exists m'. split; [done|by eapply ready_vol].
  - destruct Hok as [cr Hcr]. destruct (PurgeCacheResourceRecord_vol 0 0 m r cr Hw Hcr) as (m' & -> & Hv). exists m'. split; [done|by eapply ready_vol].
  - destruct (purge_cache_spec m Hg Hl Hc) as (m' & -> & Hg' & Hp'). exists m'. split; [done|by eapply ready_pframe].
  - destruct (Z.eqb_spec (m_NewLocalOnlyQuestions m) 0) as [_|Hn]; [by exists m|].
    destruct (AnswerNewLocalOnlyQuestion_spec m Hg Hl Hown Hn) as (m' & -> & Hg' & Hp' & _). exists m'. split; [done|by eapply ready_pframe].
  - destruct Hok as [Ht0 Ht]. eexists. split; [done|]. destruct Hg as (P & N & L & M & Hi). destruct Hl. split; try done.
    exists P, N, L, M. destruct Hi. split; try done. by apply (same_cache_wf 0 0 m).
Qed.
(** A run ends in a state that is ready, or with the first operation that
    does not return. *)
Definition run_result m (os : list operation) : Prop :=
  (∃ m', run_ops m os = Ret m' ∧ ready m') ∨
  (∃ os1 o os2 m1 e, os = os1 ++ o :: os2 ∧ run_ops m os1 = Ret m1 ∧ ready m1 ∧ breaks m1 o e ∧ run_ops m os = Fault e).
Lemma searcher_steps m os : ready m → allowed m os → run_result m os.
Proof.
  revert m. induction os as [|o os IH]; intros m Hr Hal; [left; by exists m|]. inversion Hal as [|? ? ? Hok Hnext]; subst.
  destruct (run_op_ready m o Hr Hok) as [(m1 & Hrun & Hr1)|(e & Hrun & He)].
  - destruct (IH m1 Hr1 (Hnext m1 Hrun)) as [(m' & Hm' & Hr')|(os1 & o' & os2 & m2 & e & -> & Hm2 & Hr2 & He & Hf)]; [left|right].
    + exists m'. cbn [run_ops]. rewrite Hrun. by split.
    + exists (o :: os1), o', os2, m2, e. cbn [run_ops app]. rewrite Hrun. cbn [obind]. by split_and!.
  - right. exists [], o, os, m, e. cbn [run_ops app]. rewrite Hrun. by split_and!.
Qed.
Lemma result_ready m os m' : run_result m os → run_ops m os = Ret m' → ready m'.
Proof.
  intros [(m1 & Hm1 & Hr1)|(os1 & o & os2 & m1 & e & _ & _ & _ & _ & Hf)] Hrun; [|congruence]. rewrite Hrun in Hm1. by injection Hm1 as ->.
Qed.
Lemma steps_ready m os m' : ready m → allowed m os → run_ops m os = Ret m' → ready m'.
Proof. intros Hr Hal. by apply result_ready, searcher_steps. Qed.
End Steps.

(** C2. The searcher goes wrong in two ways only: from a state in which the
    invariant holds, every sequence of operations that its callers may
    perform, with any memory for the cache and with every client that keeps
    its contract, either returns, and the invariant holds again (the lists of
    free entities, groups, records and questions are intact, the counters
    count, and no record or question refers to a question that has been
    stopped), or it goes well up to an operation that [breaks]: a new
    question is answered that the client stopped when its expired answers
    were taken away, and its memory is used; or there is no memory for a
    record that was received, and it is delivered to questions that are
    started on the way. *)
Theorem searcher_safe `{PlatformOk} `{!ClientOk} m os : ready m → allowed m os →
  (∃ m', run_ops m os = Ret m' ∧ ready m') ∨
  (∃ os1 o os2 m1 e, os = os1 ++ o :: os2 ∧ run_ops m os1 = Ret m1 ∧ ready m1 ∧ breaks m1 o e ∧ run_ops m os = Fault e).
Proof. apply searcher_steps. Qed.

(** A client that stops a question when its answer goes away, and asks
    another one when there is an answer. *)
Definition busy_client (p : Z) (rr : ResourceRecord) (a : Z) (m : mDNS) : list client_call :=
  if a =? QC_rmv then [StopQuery p] else [StartQuery 30 (ask b_local kDNSType_A)].
#[export] Instance busy_client_ok : @ClientOk (small_platform busy_client).
Proof.
  intros p rr a m. cbn. unfold busy_client. destruct (a =? QC_rmv); [split; [by apply Forall_singleton|done]|]. split.
  - apply Forall_singleton. split; [|reflexivity]. apply bytes_okb_ok. reflexivity.
  - cbn [well_behaved forallb]. by destruct (30 =? p).
Qed.
Definition busy_start : mDNS := small_start busy_client.
Lemma busy_ready : ready busy_start.
Proof. split; [apply small_start_good|apply small_start_locked|reflexivity|apply Forall_nil_2]. Qed.
Definition day_in_the_life : list operation :=
  [OpStart 10 (ask a_local kDNSType_A); OpAnswer; OpReceive 0 (address_record a_local 10 busy_start); OpAnswer; OpTime 20000; OpStart 20 (ask a_local kDNSType_A);
   OpPurgeCache; OpAnswer; OpStop 20].
Ltac next_op start := apply allowed_cons; [|let m := fresh "m" in let Hm := fresh "Hm" in intros m Hm%(get_ret_eq start); subst m].
Lemma ask_mem (d : list Z) qtype : forallb byteb (in_buffer d) = true → zlen (in_buffer d) = 256 → q_mem (ask d qtype).
Proof. intros Hb Hz. split; [by apply bytes_okb_ok|done]. Qed.
Lemma a_local_name : ∃ ls, name_ok ls ∧ is_name (in_buffer a_local) ls.
Proof. exists [[97]; [108; 111; 99; 97; 108]]. split; [by apply name_okb_ok|]. change a_local with (encode [[97]; [108; 111; 99; 97; 108]]). apply in_buffer_name. by apply name_okb_ok. Qed.
Lemma address_received ttl m : received (address_record a_local ttl m).
Proof.
  split; [done|done|done| |by split; vm_compute]. destruct a_local_name as (ls & Hls & Hd). destruct (hash_of_name _ _ Hls Hd) as (ls' & ? & ? & Hh). 
  exists ls'. split_and!; try done.
Qed.
Ltac answer_op start := next_op start; [let m := fresh "m" in let q := fresh "q" in let q1 := fresh "q1" in let Hm := fresh "Hm" in let Hq := fresh "Hq" in let Hq1 := fresh "Hq1" in
  intros _ m q q1 Hm%(get_ret_eq start) Hq Hq1; subst m; vm_compute in Hq; vm_compute in Hq1; (discriminate Hq1 || (injection Hq as <-; injection Hq1 as <-; split; reflexivity))|].
Lemma day_allowed : allowed (H := small_platform busy_client) busy_start day_in_the_life.
Proof.
  unfold day_in_the_life. next_op busy_start; [split; [done|]; split; [done|by apply ask_mem]|]. answer_op busy_start.
  next_op busy_start; [apply address_received|].
  answer_op busy_start. next_op busy_start; [done|]. next_op busy_start; [split; [done|]; split; [by vm_compute|by apply ask_mem]|]. next_op busy_start; [done|]. answer_op busy_start.
  next_op busy_start; [vm_compute; by eexists|]. apply allowed_nil.
Qed.
(** The day goes well. *)
Definition busy_evening : mDNS := get_ret busy_start (run_ops (H := small_platform busy_client) busy_start day_in_the_life).
Lemma day_runs : run_ops (H := small_platform busy_client) busy_start day_in_the_life = Ret busy_evening.
Proof. vm_compute. reflexivity. Qed.
Lemma searcher_safe_witness : ready busy_start ∧ allowed (H := small_platform busy_client) busy_start day_in_the_life ∧
  run_ops (H := small_platform busy_client) busy_start day_in_the_life = Ret busy_evening ∧ ready busy_evening.
Proof.
  split; [exact busy_ready|]. split; [exact day_allowed|]. split; [exact day_runs|].
  exact (result_ready (H := small_platform busy_client) busy_start day_in_the_life busy_evening
    (searcher_safe (H := small_platform busy_client) busy_start day_in_the_life busy_ready day_allowed) day_runs).
Defined.

(** ** The cache as a map from names to records *)
Definition name_of m r : option (list Z) :=
  match m_ents m !! r with
  | Some (ERecord cr) => match m_ents m !! cr_group cr with Some (EGroup cg) => Some (cg_name cg) | _ => None end
  | _ => None
  end.
(** The records of a name. *)
Definition has_name m (name : list Z) r : Prop := ∃ d, name_of m r = Some d ∧ same_mem d name.

(** C16. Looking a name up through its hash slot, the groups of the slot and
    the records of the group finds exactly the records of the cache that have
    this name, up to case. *)
Theorem lookup_exact `{PlatformOk} m name nh : cache_wf 0 0 m → name_mem name nh →
  ∃ g h rs, CacheGroupForName m (nh mod CACHE_HASH_SLOTS) nh name = Ret g ∧ members_of m g = Ret h ∧ chain (rec_next (m_ents m)) h rs ∧
    ∀ r, has_record m r → (r ∈ rs ↔ has_name m name r).
Proof.
  intros Hw Hn. destruct (CacheGroupForName_spec 0 0 m nh name Hw Hn) as (g & Hg & Hf). destruct (members_of_spec 0 0 m name g Hw Hf) as (rs & h & Hm & Hch & Hin).
  exists g, h, rs. split_and!; try done. intros r (cr & Hr). rewrite (Hin r cr Hr). pose proof (wf_nonzero _ _ _ _ _ Hw Hr) as Hr0.
  destruct (cw_rec Hw r cr Hr Hr0) as (cg & Hcg & Hgo & _). unfold has_name, name_of. rewrite Hr, Hcg. split.
  - intros [_ <-]. destruct Hf as [[Heq _]|[_ (cg' & Hcg' & Hs)]]; [done|]. rewrite Hcg in Hcg'. injection Hcg' as <-. by exists (cg_name cg).
  - intros (d & [= <-] & Hs). split; [done|]. assert (finds m 0 name (cr_group cr)) as Hf' by (right; split; [done|by exists cg]).
    by eapply finds_unique.
Qed.

(** The state after the day in the life, before the record expires. *)
Definition busy_morning : mDNS := get_ret busy_start (run_ops (H := small_platform busy_client) busy_start (take 4 day_in_the_life)).
Lemma morning_ready : ready busy_morning.
Proof.
  pose proof day_allowed as Hd. assert (∀ os os' m, allowed (H := small_platform busy_client) m (os ++ os') → allowed (H := small_platform busy_client) m os) as Hpre.
  { intros os os'. induction os as [|o os IH]; intros m Hal; [constructor|]. inversion Hal; subst. constructor; [done|]. intros; apply IH; eauto. }
  apply (steps_ready (H := small_platform busy_client) busy_start (take 4 day_in_the_life)); [exact busy_ready|by apply (Hpre _ (drop 4 day_in_the_life))|].
  vm_compute. reflexivity.
Qed.
Lemma lookup_exact_witness : cache_wf 0 0 busy_morning ∧ name_mem (in_buffer a_local) (hash_of a_local) ∧
  ∃ g h rs, CacheGroupForName busy_morning (hash_of a_local mod CACHE_HASH_SLOTS) (hash_of a_local) (in_buffer a_local) = Ret g ∧
    members_of busy_morning g = Ret h ∧ chain (rec_next (m_ents busy_morning)) h rs ∧
    ∀ r, has_record busy_morning r → (r ∈ rs ↔ has_name busy_morning (in_buffer a_local) r).
Proof.
  pose proof (good_wf _ _ _ (rd_good _ morning_ready)) as Hw. pose proof (rv_name _ (address_received 10 busy_start)) as Hn.
  split; [exact Hw|]. split; [exact Hn|]. exact (lookup_exact (H := small_platform busy_client) busy_morning (in_buffer a_local) (hash_of a_local) Hw Hn).
Defined.

(** C6. [CreateNewCacheEntry] files a received record under its name: the
    record is then in the cache with its type, class, interface and rdata,
    and a lookup of the name leads to the group that holds it, whether that
    group was there before or not.  When there is no memory for it, the
    record is offered to the questions without being kept, in a state in
    which the invariant holds. *)
Theorem create_then_found `{PlatformOk} `{!ClientOk} fuel m g : ready m → received (m_rec m) →
  let name := rr_name (cr_resrec (m_rec m)) in let nh := rr_namehash (cr_resrec (m_rec m)) in let slot := nh mod CACHE_HASH_SLOTS in
  CacheGroupForName m slot nh name = Ret g →
  (∃ m' r cr, CreateNewCacheEntry fuel m slot g = Ret (m', r) ∧ ready m' ∧ m_ents m' !! r = Some (ERecord cr) ∧
     has_name m' name r ∧ CacheGroupForName m' slot nh name = Ret (cr_group cr) ∧ holds_data (cr_resrec cr) (cr_resrec (m_rec m))) ∨
  (∃ m', CreateNewCacheEntry fuel m slot g = (let* m := NoCacheAnswer fuel m' rec_ptr in Ret (m, 0)) ∧ good 0 0 m').
Proof.
  intros Hr Hrv name nh slot Hg. pose proof Hr as [Hgd Hlk Hc _]. destruct (CacheGroupForName_spec 0 0 m nh name (good_wf _ _ _ Hgd) (rv_name _ Hrv)) as (g0 & Hg0 & Hf).
  fold slot in Hg0. rewrite Hg in Hg0. injection Hg0 as <-.
  destruct (CreateNewCacheEntry_spec fuel m g Hgd Hlk Hc Hrv Hf) as [(m' & r & Hrun & _ & Hgd' & Hp & (g' & Hst) & _)|(m' & Hrun & Hgd' & _)]; [left|right; by exists m'].
  destruct Hst as (cr & cg & rs & Hcr & Hcg & _ & Hgr & Hs & Hd & _). exists m', r, cr. split; [exact Hrun|]. split; [by eapply ready_pframe|]. split; [done|].
  pose proof (good_wf _ _ _ Hgd') as Hw'. split; [|split; [|done]].
  - exists (cg_name cg). unfold name_of. by rewrite Hcr, Hgr, Hcg.
  - destruct (CacheGroupForName_spec 0 0 m' nh name Hw' (rv_name _ Hrv)) as (g1 & Hg1 & Hf1). fold slot in Hg1. rewrite Hg1, Hgr. f_equal.
    eapply finds_unique; [done|apply Hrv|done|]. right. split; [by eapply wf_nonzero|by exists cg].
Qed.
Definition busy_received : mDNS := busy_morning <| m_rec := address_record a_local 20 busy_morning |>.
Lemma busy_received_ready : ready busy_received.
Proof. apply ready_rec, morning_ready. Qed.
Lemma create_then_found_witness : ready busy_received ∧ received (m_rec busy_received) ∧
  (let nh := hash_of a_local in let slot := nh mod CACHE_HASH_SLOTS in ∃ g, CacheGroupForName busy_received slot nh (in_buffer a_local) = Ret g ∧
   ((∃ m' r cr, CreateNewCacheEntry (H := small_platform busy_client) 5 busy_received slot g = Ret (m', r) ∧ ready m' ∧ m_ents m' !! r = Some (ERecord cr) ∧
       has_name m' (in_buffer a_local) r ∧ CacheGroupForName m' slot nh (in_buffer a_local) = Ret (cr_group cr) ∧
       holds_data (cr_resrec cr) (cr_resrec (m_rec busy_received))) ∨
    (∃ m', CreateNewCacheEntry (H := small_platform busy_client) 5 busy_received slot g =
       (let* m := NoCacheAnswer (H := small_platform busy_client) 5 m' rec_ptr in Ret (m, 0)) ∧ good 0 0 m'))).
Proof.
  split; [exact busy_received_ready|]. split; [apply address_received|]. cbv zeta. exists (get_ret 0 (CacheGroupForName busy_received (hash_of a_local mod CACHE_HASH_SLOTS) (hash_of a_local) (in_buffer a_local))).
  assert (CacheGroupForName busy_received (hash_of a_local mod CACHE_HASH_SLOTS) (hash_of a_local) (in_buffer a_local) =
    Ret (get_ret 0 (CacheGroupForName busy_received (hash_of a_local mod CACHE_HASH_SLOTS) (hash_of a_local) (in_buffer a_local)))) as Hg by (vm_compute; reflexivity).
  split; [exact Hg|]. exact (create_then_found (H := small_platform busy_client) 5 busy_received _ busy_received_ready (address_received 20 busy_morning) Hg).
Defined.

(** C12. [GetCacheEntity] returns a zeroed entity that nothing refers to, or
    NULL, and its effect on every entity of the cache is known ([taken]).  If
    an entity is free, the first free one is taken and nothing else changes.
    If none is free and the cache may grow and the client gives memory, the
    first new entity is taken, and everything else is as it was.  Otherwise
    every record that is not needed (that answers no active question and is
    not being flushed) and every group without needed records, except the one
    to preserve, is recycled; all the other records and groups stay, with
    their data; and NULL is returned only if nothing was free and nothing
    could be recycled.  The cache stays well formed, nothing but the cache
    changes, and no error is reported. *)
Theorem take_entity_exact `{PlatformOk} m P : cache_wf 0 0 m → locked m → m_lock_rrcache m = 0 →
  ∃ m' e, GetCacheEntity m P = Ret (m', e) ∧ cache_wf 0 e m' ∧ quiet m m' ∧ (e ≠ 0 → m_ents m' !! e = Some EZero) ∧ taken m P m' e.
Proof. apply GetCacheEntity_taken. Qed.
Lemma take_entity_exact_witness : cache_wf 0 0 busy_morning ∧ locked busy_morning ∧ m_lock_rrcache busy_morning = 0 ∧
  ∃ m' e, GetCacheEntity (H := small_platform busy_client) busy_morning 0 = Ret (m', e) ∧ cache_wf 0 e m' ∧ quiet busy_morning m' ∧
    (e ≠ 0 → m_ents m' !! e = Some EZero) ∧ taken (H := small_platform busy_client) busy_morning 0 m' e.
Proof.
  pose proof (good_wf _ _ _ (rd_good _ morning_ready)) as Hw. pose proof (rd_locked _ morning_ready) as Hlk. pose proof (rd_cache _ morning_ready) as Hl.
  split; [exact Hw|]. split; [exact Hlk|]. split; [exact Hl|]. exact (take_entity_exact (H := small_platform busy_client) busy_morning 0 Hw Hlk Hl).
Defined.

(** ** Questions *)
(** The answer to a client that starts a question, [listed] or not. *)
Definition start_answer m q (listed : bool) (st : Z) : Prop :=
  m_rrcache_size m = 0 ∧ st = mStatus_NoCache ∨
  m_rrcache_size m ≠ 0 ∧ ¬ legal q ∧ st = mStatus_Invalid ∨
  m_rrcache_size m ≠ 0 ∧ legal q ∧ st = (if listed then mStatus_AlreadyRegistered else mStatus_NoError).
(** C18. [mDNS_StartQuery_internal] answers with the code of the first thing
    that is wrong: there is no cache, the name is not legal, the question is
    in the list of its kind already.  If nothing is wrong, the question stands
    at the end of that list, the first new one if there was none; otherwise
    all lists are as they were.  The cache and the walk in progress are not
    touched. *)
Theorem start_query_exact `{PlatformOk} (listed : bool) m P N L M p q : inv 0 0 (if listed then 0 else p) m P N L M → m_qs m !! p = Some q → q_mem q →
  ∃ m' st, mDNS_StartQuery_internal m p = Ret (m', st) ∧ start_answer m q listed st ∧
    m_ents m' = m_ents m ∧ m_CurrentQuestion m' = m_CurrentQuestion m ∧
    if st =? mStatus_NoError then if is_local q then inv 0 0 0 m' P N L (M ++ [p]) else inv 0 0 0 m' P (N ++ [p]) L M
    else inv 0 0 (if listed then 0 else p) m' P N L M.
Proof.
  intros Hi Hp Hmem. destruct listed.
  - destruct (StartQuery_again 0 0 m P N L M p q Hi Hp) as (m' & st & Hrun & (_ & HE & _ & Hc) & _ & Hi' & _ & ->). exists m'. eexists. split; [exact Hrun|].
    destruct (inv_member _ _ _ _ _ _ _ _ _ Hi Hp) as (_ & Hok & _). unfold start_answer.
    assert (legal q) as Hleg by (destruct (qk_name _ Hok) as (ls & ? & ? & _); by exists ls).
    split; [|split_and!; [done..|by destruct (_ =? 0)]]. destruct (Z.eqb_spec (m_rrcache_size m) 0); [by left|by right; right].
  - destruct (StartQuery_internal_spec 0 0 m P N L M p q Hi Hp Hmem) as (m' & st & Hrun & (_ & HE & _ & Hc) & _ & Hres). exists m', st. split; [exact Hrun|].
    destruct Hres as [(-> & Hst & Hleg)|(Hne & Hi' & Hwhy)].
    + split; [|by split_and!]. right. right. split_and!; try done. intros Hz. revert Hrun. unfold mDNS_StartQuery_internal.
      rewrite (set_q_at m p q _ Hp). cbn [obind]. unfold put_q. struct_simpl. rewrite Hz, Z.eqb_refl. by intros [= _ ?].
    + rewrite (proj2 (Z.eqb_neq _ _) Hne). split; [|by split_and!]. unfold start_answer. tauto.
Qed.
Definition busy_asking : mDNS := put_q busy_start 10 (ask a_local kDNSType_A).
Lemma busy_asking_inv : inv 0 0 10 busy_asking [] [] [] [].
Proof.
  apply inv_add; [|reflexivity|done]. pose proof (small_start_good busy_client) as (P & N & L & M & Hi). fold busy_start in Hi.
  pose proof (iv_q Hi) as Hq. assert (P ++ N = []) as [-> ->]%app_nil by (by apply (chain_zero (qnx (m_qs busy_start))), (ql_chain Hq)).
  assert (L ++ M = []) as [-> ->]%app_nil by (by apply (chain_zero (qnx (m_qs busy_start))), (ql_local Hq)). exact Hi.
Qed.
Definition busy_asked : mDNS := get_ret busy_start (run_op (H := small_platform busy_client) busy_start (OpStart 10 (ask a_local kDNSType_A))).
Lemma busy_asked_inv : inv 0 0 0 busy_asked [] [10] [] [].
Proof.
  destruct (StartQuery_internal_spec (H := small_platform busy_client) 0 0 busy_asking [] [] [] [] 10 (ask a_local kDNSType_A) busy_asking_inv eq_refl (ask_mem a_local kDNSType_A eq_refl eq_refl))
    as (m' & st & Hrun & _ & _ & Hres).
  assert (st = mStatus_NoError) as ->. { destruct Hres as [(-> & _)|(_ & _ & [[Hz _]|(_ & Hl & _)])]; [done|by vm_compute in Hz|]. destruct Hl. apply a_local_name. }
  destruct Hres as [(_ & Hst & _)|(Hne & _)]; [|by destruct (Hne eq_refl)]. unfold busy_asked. cbn [run_op]. fold busy_asking. rewrite Hrun. exact Hst.
Qed.
(** A question that is not in a list, and one that is. *)
Lemma start_query_exact_witness : inv 0 0 10 busy_asking [] [] [] [] ∧ inv 0 0 0 busy_asked [] [10] [] [] ∧
  (∃ m' st, mDNS_StartQuery_internal (H := small_platform busy_client) busy_asking 10 = Ret (m', st) ∧
    start_answer busy_asking (ask a_local kDNSType_A) false st ∧ m_ents m' = m_ents busy_asking ∧ m_CurrentQuestion m' = m_CurrentQuestion busy_asking ∧
    if st =? mStatus_NoError then if is_local (ask a_local kDNSType_A) then inv 0 0 0 m' [] [] [] ([] ++ [10]) else inv 0 0 0 m' [] ([] ++ [10]) [] []
    else inv 0 0 10 m' [] [] [] []) ∧
  ∃ q, m_qs busy_asked !! 10 = Some q ∧ ∃ m' st, mDNS_StartQuery_internal (H := small_platform busy_client) busy_asked 10 = Ret (m', st) ∧
    start_answer busy_asked q true st ∧ m_ents m' = m_ents busy_asked ∧ m_CurrentQuestion m' = m_CurrentQuestion busy_asked ∧
    if st =? mStatus_NoError then if is_local q then inv 0 0 0 m' [] [10] [] ([] ++ [10]) else inv 0 0 0 m' [] ([10] ++ [10]) [] []
    else inv 0 0 0 m' [] [10] [] [].
Proof.
  split; [exact busy_asking_inv|]. split; [exact busy_asked_inv|]. split.
  - exact (start_query_exact (H := small_platform busy_client) false busy_asking [] [] [] [] 10 (ask a_local kDNSType_A) busy_asking_inv eq_refl (ask_mem a_local kDNSType_A eq_refl eq_refl)).
  - destruct (m_qs busy_asked !! 10) as [q|] eqn:Hq; [|by vm_compute in Hq]. exists q. split; [reflexivity|].
    exact (start_query_exact (H := small_platform busy_client) true busy_asked [] [10] [] [] 10 q busy_asked_inv Hq (qk_mem _ (ql_ok (iv_q busy_asked_inv) 10 q Hq ltac:(discriminate)))).
Defined.

(** C9. After [mDNS_StopQuery_internal] nothing refers to the question any
    more: it is in no list, no record of the cache counts on it, no question
    is its duplicate, and a walk that stood on it stands on the next one. *)
Theorem stop_query_forgets m P N L M p q : inv 0 0 0 m P N L M → m_qs m !! p = Some q →
  ∃ m', mDNS_StopQuery_internal m p = Ret (m', mStatus_NoError) ∧ inv 0 0 p m' (rm p P) (rm p N) (rm p L) (rm p M) ∧
    (∀ r cr, m_ents m' !! r = Some (ERecord cr) → cr_CRActiveQuestion cr ≠ p) ∧
    (∀ x qx, x ∈ rm p (P ++ N) → m_qs m' !! x = Some qx → Q_DuplicateOf qx ≠ p) ∧
    m_CurrentQuestion m' = (if m_CurrentQuestion m =? p then Q_next q else m_CurrentQuestion m).
Proof.
  intros Hi Hp. assert (p ≠ 0) as Hp0 by (intros ->; by rewrite (ql_pos (iv_q Hi)) in Hp).
  destruct (StopQuery_internal_spec 0 0 m P N L M p q Hi Hp) as (m' & -> & Hst). destruct Hst as [m' q' _ _ _ Hi' _ _ _ _ Hc]. exists m'. split; [done|]. split; [done|].
  assert (p ∉ rm p P ++ rm p N) as Hno by (rewrite elem_of_app, !elem_of_rm; tauto). split; [|split; [|exact Hc]].
  - intros r cr Hr Heq. assert (r ≠ 0) as Hr0 by by eapply wf_nonzero; [apply Hi'|]. destruct (iv_active Hi' r cr Hr Hr0) as [_ [Hin|Hz]]; congruence.
  - intros x qx Hx Hqx Heq. rewrite rm_app in Hx. destruct (iv_dups Hi' x qx Hqx Hx) as [Hz|[Hin|[_ Hz]]]; congruence.
Qed.
Lemma stop_query_forgets_witness : inv 0 0 0 busy_asked [] [10] [] [] ∧ ∃ q, m_qs busy_asked !! 10 = Some q ∧
  ∃ m', mDNS_StopQuery_internal busy_asked 10 = Ret (m', mStatus_NoError) ∧ inv 0 0 10 m' (rm 10 []) (rm 10 [10]) (rm 10 []) (rm 10 []) ∧
    (∀ r cr, m_ents m' !! r = Some (ERecord cr) → cr_CRActiveQuestion cr ≠ 10) ∧
    (∀ x qx, x ∈ rm 10 ([] ++ [10]) → m_qs m' !! x = Some qx → Q_DuplicateOf qx ≠ 10) ∧
    m_CurrentQuestion m' = (if m_CurrentQuestion busy_asked =? 10 then Q_next q else m_CurrentQuestion busy_asked).
Proof.
  split; [exact busy_asked_inv|]. destruct (m_qs busy_asked !! 10) as [q|] eqn:Hq; [|by vm_compute in Hq]. exists q. split; [reflexivity|].
  exact (stop_query_forgets busy_asked [] [10] [] [] 10 q busy_asked_inv Hq).
Defined.

(** C38. A new question can be stopped while it is being answered: the
    callback for an expired answer of its name may stop it.  Then
    [AnswerNewQuestion] goes on with memory that has been given back, always;
    and if the question is still there, and is the same question, it is
    answered, and the invariant holds again. *)
Theorem new_question_stopped `{PlatformOk} `{!ClientOk} m : ready m → m_NewQuestions m ≠ 0 →
  ∃ m1, drop_expired m = Ret m1 ∧ good 0 0 m1 ∧
    (m_qs m1 !! m_NewQuestions m = None → AnswerNewQuestion m = Fault Dangling) ∧
    (is_Some (m_qs m1 !! m_NewQuestions m) → not_reused m → ∃ m', AnswerNewQuestion m = Ret m' ∧ ready m' ∧ m_CurrentQuestion m' = 0).
Proof.
  intros Hr Hn. pose proof Hr as [Hg Hl Hc Ho]. pose proof Hg as (P & N & L & M & Hi).
  assert (m_NewQuestions m ∈ P ++ N) as Hin by (rewrite (iv_new Hi) in *; destruct N; [done|]; simpl; set_solver).
  destruct (qlists_at (iv_q Hi) _ Hin) as (q & Hq & Hok & _). destruct (drop_expired_spec m q Hg Hl Hc Hq Hok) as (g & m1 & _ & _ & _ & Hd & Hg1 & _).
  pose proof (AnswerNewQuestion_spec m Hg Hl Hc Ho Hn) as Hans.
  assert (not_reused m → match m_qs m1 !! m_NewQuestions m with
    | None => AnswerNewQuestion m = Fault Dangling | Some _ => ∃ m', AnswerNewQuestion m = Ret m' ∧ good 0 0 m' ∧ pframe m m' ∧ m_CurrentQuestion m' = 0 end) as Hres.
  { intros Hre. destruct (Hans Hre) as (m2 & Hd2 & Hx). rewrite Hd in Hd2. by injection Hd2 as <-. }
  exists m1. split; [done|]. split; [done|]. split.
  - intros Hgone. rewrite Hgone in Hres. apply Hres. intros m2 q0 q1 Hd2. rewrite Hd in Hd2. injection Hd2 as <-. by rewrite Hgone.
  - intros [q1 Hq1] Hre. rewrite Hq1 in Hres. destruct (Hres Hre) as (m' & ? & ? & ? & ?). exists m'. split_and!; try done. by eapply ready_pframe.
Qed.
(** A client that stops the question at address 20 when any answer goes away. *)
Definition jealous_client (p : Z) (rr : ResourceRecord) (a : Z) (m : mDNS) : list client_call := if a =? QC_rmv then [StopQuery 20] else [].
#[export] Instance jealous_client_ok : @ClientOk (small_platform jealous_client).
Proof.
  intros p rr a m. cbn. unfold jealous_client. destruct (a =? QC_rmv); [split; [by apply Forall_singleton|done]|by split; [apply Forall_nil_2|]].
Qed.
Definition jealous_start : mDNS := small_start jealous_client.
Definition jealous_day : list operation :=
  [OpStart 10 (ask a_local kDNSType_A); OpAnswer; OpReceive 0 (address_record a_local 10 jealous_start); OpTime 20000; OpStart 20 (ask a_local kDNSType_A)].
Definition jealous_evening : mDNS := get_ret jealous_start (run_ops (H := small_platform jealous_client) jealous_start jealous_day).
Lemma jealous_evening_ready : ready jealous_evening.
Proof.
  apply (steps_ready (H := small_platform jealous_client) jealous_start jealous_day).
  - split; [apply small_start_good|apply small_start_locked|reflexivity|apply Forall_nil_2].
  - unfold jealous_day. next_op jealous_start; [split; [done|]; split; [done|by apply ask_mem]|]. answer_op jealous_start. next_op jealous_start; [apply address_received|].
    next_op jealous_start; [done|]. next_op jealous_start; [split; [done|]; split; [by vm_compute|by apply ask_mem]|]. apply allowed_nil.
  - vm_compute. reflexivity.
Qed.
Lemma new_question_stopped_witness : ready jealous_evening ∧ m_NewQuestions jealous_evening = 20 ∧
  AnswerNewQuestion (H := small_platform jealous_client) jealous_evening = Fault Dangling.
Proof.
  split; [exact jealous_evening_ready|]. split; [vm_compute; reflexivity|].
  assert (m_NewQuestions jealous_evening ≠ 0) as Hn by (vm_compute; discriminate).
  pose proof (new_question_stopped (H := small_platform jealous_client) jealous_evening jealous_evening_ready Hn) as (m1 & Hd & _ & Hgone & _).
  apply Hgone. apply (get_ret_eq jealous_start) in Hd. subst m1. vm_compute. reflexivity.
Defined.

(** A record that is an alias for its own name, and clients that do nothing. *)
Definition alias_record (m : mDNS) : CacheRecord :=
  let rec := address_record a_local 10 m in
  rec <| cr_resrec := (cr_resrec rec) <| rr_rrtype := kDNSType_CNAME |> <| rr_rdlength := 9 |> <| rr_rdata := in_buffer a_local |> |>.
Definition silent_client (p : Z) (rr : ResourceRecord) (a : Z) (m : mDNS) : list client_call := [].
Definition referrals (o : outcome mDNS) : outcome (list (Z * Z)) :=
  match o with Ret m => Ret (map_to_list (Q_CNAMEReferrals <$> m_qs m)) | Fault f => Fault f end.
Definition deliver_alias (os : list operation) (fuel : nat) : outcome (list (Z * Z)) :=
  let start := small_start silent_client in
  referrals (let* m := run_ops (H := small_platform silent_client) start os in
    NoCacheAnswer (H := small_platform silent_client) fuel (m <| m_rec := alias_record m |>) rec_ptr).
(** One question follows the alias, is the last of the list and is left; but
    two questions for the same name take turns: the one that is stopped to
    follow the record hands its count of referrals to the other one, which is
    no longer its duplicate, so that no count reaches ten.  After a hundred
    turns and more the walk still goes on. *)
Example alias_endless : deliver_alias [OpStart 10 (ask a_local kDNSType_A)] 0 = Ret [(10, 1)] ∧
  deliver_alias [OpStart 10 (ask a_local kDNSType_A); OpStart 20 (ask a_local kDNSType_A)] 100 = Fault OutOfFuel.
Proof. split; vm_compute; reflexivity. Qed.

(** ** Starting up *)
(** C30. [mDNS_Init] on fresh memory, with any storage for the cache, ends in a
    state in which the invariant holds, with no questions and the whole
    storage free; once the lock is taken the searcher is ready (unless the
    clock read exactly zero and then went backwards). *)
Theorem init_ready `{PlatformOk} m s n : blank m → 0 < s → 0 ≤ n → is_u32 n → let m' := fst (mDNS_Init m s n mStatus_NoError) in
  snd (mDNS_Init m s n mStatus_NoError) = mStatus_NoError ∧ inv 0 0 0 m' [] [] [] [] ∧ m_rrcache_size m' = n ∧ (m_timenow_last m' = 0 ∨ ready (mDNS_Lock m')).
Proof.
  intros Hb Hs Hn Hu m'. assert (m_ResourceRecords m' = [] ∧ snd (mDNS_Init m s n mStatus_NoError) = mStatus_NoError) as [Hown Hst].
  { unfold m', mDNS_Init. change (mStatus_NoError =? mStatus_NoError) with true. cbn [negb]. by destruct (random _ _) as [m1 x]. }
  destruct (Init_good m s n Hb Hs Hn Hu) as [Hi Hsz Hl Hbu Hd Ht Hla]. fold m' in Hi, Hsz, Hl, Hbu, Hd, Ht, Hla. clearbody m'. split_and!; try done.
  destruct (decide (m_timenow_last m' = 0)) as [?|Hnz]; [by left|right]. split; [apply lock_good; by exists [], [], [], []|by apply lock_locked| |].
  - by destruct (lock_keeps m') as [-> _].
  - destruct (lock_keeps m') as [_ ->]. rewrite Hown. apply Forall_nil_2.
Qed.
Lemma init_ready_witness : blank blank_state ∧ 0 < 1000 ∧ is_u32 8 ∧
  (let m' := fst (mDNS_Init (H := small_platform busy_client) blank_state 1000 8 mStatus_NoError) in
   snd (mDNS_Init (H := small_platform busy_client) blank_state 1000 8 mStatus_NoError) = mStatus_NoError ∧ inv 0 0 0 m' [] [] [] [] ∧ m_rrcache_size m' = 8 ∧
   (m_timenow_last m' = 0 ∨ ready (mDNS_Lock (H := small_platform busy_client) m'))).
Proof.
  assert (blank blank_state) as Hb by by split. split; [exact Hb|]. split; [lia|]. split; [lia|].
  exact (init_ready (H := small_platform busy_client) blank_state 1000 8 Hb ltac:(lia) ltac:(lia) ltac:(lia)).
Defined.
