(* ===== verification/MDNSFlush.v ===== *)
(** The list of records to flush, and the flush at the end of a response.

    [flushing E l]: the records in the list are those of [l], in this order;
    a record's link is NULL exactly when it is not in [l].  Clients that are
    called meanwhile and records that are recycled leave the list alone. *)
From S2P Require Import Prelude Bytes DNSTypes DNSName DNSRecord DNSRecordSpec DNSMessage MDNSTypes MDNSCache MDNSQuestion MDNSAnswer MDNSReceive MDNSList MDNSInv MDNSPool MDNSRecycle MDNSGet MDNSQInv MDNSStart MDNSStop MDNSClient MDNSVolatile MDNSWalk MDNSExpire MDNSCreate MDNSPacket MDNSInit MDNSNew MDNSSpec.

Implicit Types (E : gmap Z CacheEntity) (m : mDNS) (p r t co x : Z) (l a b : list Z) (rr : ResourceRecord).

(** ** The list *)
Fixpoint link_in l r : Z := match l with [] => 0 | x :: l => if r =? x then hd cf_end l else link_in l r end.
Definition flushing E l : Prop := NoDup l ∧ (0 ∉ l) ∧ ∀ r, cf_link E r = link_in l r.
(** [CacheFlushRecords] and [cfp]. *)
Definition cf_of l : cf_list := (hd cf_end l, match last l with Some x => CFNext x | None => CFHead end).

Lemma link_in_not l r : r ∉ l → link_in l r = 0.
Proof.
  induction l as [|x l IH]; [done|]. intros Hr. simpl. rewrite (proj2 (Z.eqb_neq r x)); [apply IH; set_solver|set_solver].
Qed.
Lemma link_in_mid a r b : NoDup (a ++ r :: b) → link_in (a ++ r :: b) r = hd cf_end b.
Proof.
  induction a as [|x a IH]; simpl; [by rewrite Z.eqb_refl|]. intros [Hx Hnd]%NoDup_cons. rewrite (proj2 (Z.eqb_neq r x)); [by apply IH|set_solver].
Qed.
Lemma link_in_in l r : NoDup l → 0 ∉ l → r ∈ l → link_in l r ≠ 0.
Proof.
  intros Hnd Hz (a & b & ->)%list_elem_of_split. rewrite link_in_mid by done. destruct b as [|y b]; [done|]. simpl. set_solver.
Qed.
Lemma link_in_snoc l r x : NoDup (l ++ [r]) →
  link_in (l ++ [r]) x = if x =? r then cf_end else if bool_decide (last l = Some x) then r else link_in l x.
Proof.
  induction l as [|y l IH]; intros Hnd; simpl; [done|]. apply NoDup_cons in Hnd as [Hy Hnd].
  destruct (Z.eqb_spec x y) as [->|Hne].
  - rewrite (proj2 (Z.eqb_neq y r)) by set_solver. destruct l as [|z l]; simpl; [by rewrite bool_decide_eq_true_2|].
    rewrite bool_decide_eq_false_2; [done|]. intros Hl. apply Hy. change (y ∈ (z :: l) ++ [r]). apply elem_of_app. left. by apply last_Some_elem_of.
  - rewrite IH by done. destruct (x =? r); [done|]. destruct l as [|z l]; simpl; [|done]. repeat case_bool_decide; congruence.
Qed.
Lemma cf_link_insert E p cr x : cf_link (<[p := ERecord cr]> E) x = if x =? p then cr_NextInCFList cr else cf_link E x.
Proof. unfold cf_link. destruct (Z.eqb_spec x p) as [->|]; [by rewrite lookup_insert_eq|by rewrite lookup_insert_ne]. Qed.

Lemma flushing_rec E l r : flushing E l → r ∈ l → ∃ cr, E !! r = Some (ERecord cr) ∧ cr_NextInCFList cr = link_in l r.
Proof.
  intros (Hnd & Hz & Hl) Hr. pose proof (link_in_in l r Hnd Hz Hr) as Hne. rewrite <- (Hl r) in *. unfold cf_link in *.
  destruct (E !! r) as [[| | |cr]|]; try done. by exists cr.
Qed.
Lemma flushing_same E E' l : same_cf E E' → flushing E l → flushing E' l.
Proof. intros Hs (? & ? & Hl). split_and!; try done. intros r. by rewrite Hs. Qed.
Lemma flushing_fuel m l : flushing (m_ents m) l → (length l < list_fuel m)%nat.
Proof.
  intros Hf. unfold list_fuel. pose proof Hf as (Hnd & _). rewrite <- (size_list_to_set (C := gset Z) l Hnd), <- (size_dom (D := gset Z)).
  apply Nat.lt_succ_r, subseteq_size. intros x Hx%elem_of_list_to_set. destruct (flushing_rec _ _ _ Hf Hx) as (cr & Hcr & _). by apply elem_of_dom.
Qed.

Section Flush.
Context `{PlatformOk}.

Lemma set_cf m r cr n : cache_wf 0 0 m → m_ents m !! r = Some (ERecord cr) →
  ∃ m', set_rec m r (fun cr => cr <| cr_NextInCFList := n |>) = Ret m' ∧ @vol_gen false m m' ∧ cache_wf 0 0 m' ∧
    m_ents m' = <[r := ERecord (cr <| cr_NextInCFList := n |>)]> (m_ents m).
Proof.
  intros Hw Hr. rewrite (set_rec_at Hw r cr _ Hr). eexists. split; [done|].
  assert (@vol_gen false m (put_entity m r (ERecord (cr <| cr_NextInCFList := n |>)))) as Hv by by apply (vol_put m r cr).
  split; [done|]. split; [|apply put_entity_ents]. eapply same_gen_wf; [done|]. by apply vol_same_cache.
Qed.
Lemma cf_append_spec m l r cr : cache_wf 0 0 m → flushing (m_ents m) l → r ∉ l → m_ents m !! r = Some (ERecord cr) →
  ∃ m', cf_append m (cf_of l) r = Ret (m', cf_of (l ++ [r])) ∧ flushing (m_ents m') (l ++ [r]) ∧ @vol_gen false m m'.
Proof.
  intros Hw Hf Hr Hcr. pose proof Hf as (Hnd & Hz & Hl). pose proof (wf_nonzero _ _ _ _ _ Hw Hcr) as Hr0.
  assert (NoDup (l ++ [r]) ∧ (0 ∉ l ++ [r])) as [Hnd' Hz'].
  { split; [apply NoDup_app; split; [done|]; split; [set_solver|apply NoDup_singleton]|set_solver]. }
  unfold cf_append, cf_of. rewrite last_snoc. cbn [fst snd]. destruct (last l) as [x|] eqn:Hlast.
  - assert (x ∈ l) as Hx by by apply last_Some_elem_of. destruct (flushing_rec _ _ _ Hf Hx) as (cx & Hcx & _).
    destruct (set_cf m x cx r Hw Hcx) as (m1 & -> & Hv1 & Hw1 & HE1). cbn [obind].
    destruct (set_cf m1 r cr cf_end Hw1) as (m2 & -> & Hv2 & Hw2 & HE2); [rewrite HE1, lookup_insert_ne; [done|set_solver]|]. cbn [obind].
    exists m2. split; [by destruct l|]. split; [|by transitivity m1]. split; [done|]. split; [done|]. intros y. rewrite HE2, HE1, !cf_link_insert, link_in_snoc by done. struct_simpl.
    destruct (Z.eqb_spec y r) as [->|]; [done|]. rewrite Hlast. destruct (Z.eqb_spec y x) as [->|]; [by rewrite bool_decide_eq_true_2|].
    rewrite bool_decide_eq_false_2 by congruence. apply Hl.
  - apply last_None in Hlast as ->. cbn [obind]. destruct (set_cf m r cr cf_end Hw Hcr) as (m1 & -> & Hv1 & Hw1 & HE1). cbn [obind].
    exists m1. split; [done|]. split; [|done]. split; [done|]. split; [done|]. intros y. rewrite HE1, cf_link_insert. simpl. destruct (y =? r); [done|apply Hl].
Qed.

(** ** Names that the records refer to *)
Lemma refers_total m l : cache_wf 0 0 m → flushing (m_ents m) l → name_mem (rr_name (cr_resrec (m_rec m))) (rr_namehash (cr_resrec (m_rec m))) →
  ∃ y, refers (list_fuel m) m (hd cf_end l) = Ret y.
Proof.
  intros Hw Hf (ls & Hls & Hn & _). pose proof (flushing_fuel m l Hf) as Hfu. pose proof Hf as (Hnd & Hz & _).
  enough (∀ b a fuel, l = a ++ b → (length b < fuel)%nat → ∃ y, refers fuel m (hd cf_end b) = Ret y) as Hx by by apply (Hx l []).
  induction b as [|r b IH]; intros a [|fuel] Hl Hlen; simpl in Hlen; try lia; cbn [refers hd].
  { rewrite Z.eqb_refl. by eexists. }
  destruct (flushing_rec _ _ r Hf) as (cr & Hcr & Hnx); [rewrite Hl; set_solver|]. pose proof (cw_pos Hw _ _ Hcr) as Hp.
  rewrite (proj2 (Z.eqb_neq r cf_end)) by (unfold cf_end; lia). rewrite (get_rec_at Hw r cr Hcr). cbn [obind].
  rewrite Hl in Hnx, Hnd. rewrite link_in_mid in Hnx by done.
  destruct (cw_rec Hw r cr Hcr) as (cg & _ & _ & _ & Htg%data_target); [lia|].
  assert (∃ s, match GetRRDomainNameTarget (cr_resrec cr) with
    | Some target => if rr_rdatahash (cr_resrec cr) =? rr_namehash (cr_resrec (m_rec m)) then SameDomainName target (rr_name (cr_resrec (m_rec m))) else Ret false
    | None => Ret false end = Ret s) as [s ->].
  { destruct (GetRRDomainNameTarget (cr_resrec cr)) as [d|] eqn:Hd; [|by eexists]. destruct (_ =? _); [|by eexists].
    destruct (Htg d Hd) as (ls' & Hls' & Hd'). rewrite (SameDomainName_spec d _ ls' ls) by (done || apply Hls || apply Hls'). by eexists. }
  cbn [obind]. destruct s; [by eexists|]. rewrite Hnx. apply (IH (a ++ [r])); [by rewrite <- app_assoc|lia].
Qed.

(** ** Flushing *)
Lemma flush_member_vol t co m r1 c1 r2 c2 : cache_wf t co m → m_ents m !! r1 = Some (ERecord c1) → m_ents m !! r2 = Some (ERecord c2) →
  ∃ m', flush_member r1 m r2 = Ret m' ∧ vol m m'.
Proof.
  intros Hw Hr1 Hr2. unfold flush_member. rewrite (get_rec_at Hw r1 c1 Hr1). cbn [obind]. rewrite (get_rec_at Hw r2 c2 Hr2). cbn [obind].
  destruct (_ && _ && _); [|by exists m].
  match goal with |- context [let* m := ?s in SetNextCacheCheckTime m r2] => assert (∃ m1 c, s = Ret m1 ∧ vol m m1 ∧ m_ents m1 !! r2 = Some (ERecord c)) as (m1 & c & -> & Hv1 & Hc1) end.
  { destruct (_ && _).
    { match goal with |- context [set_rec m r2 ?f] => destruct (set_rec_vol t co m r2 c2 f Hw Hr2) as (m1 & -> & ? & ?) end; [by case_match|by case_match|by eexists m1, _]. }
    destruct (_ && _).
    { match goal with |- context [set_rec m r2 ?f] => destruct (set_rec_vol t co m r2 c2 f Hw Hr2) as (m1 & -> & Hv & ?) end; [done|done|]. cbn [obind].
      eexists _, _. split; [done|]. split; [|done]. transitivity m1; [done|]. by split. }
    destruct (_ <? _); [|by eexists m, _].
    match goal with |- context [set_rec m r2 ?f] => destruct (set_rec_vol t co m r2 c2 f Hw Hr2) as (m1 & -> & ? & ?) end; [done|done|by eexists m1, _]. }
  cbn [obind]. destruct (SetNextCacheCheckTime_vol t co m1 r2 c (vol_wf _ _ _ _ Hv1 Hw) Hc1) as (m2 & c' & -> & Hv2 & _). exists m2. split; [done|]. by transitivity m1.
Qed.

Context `{!ClientOk}.
Lemma ready_volatile {keep} m m' : @vol_gen keep m m' → ready m → ready m'.
Proof.
  intros Hv [Hg [] Hc Ho]. destruct (fixed_fields _ _ (vo_fixed _ _ Hv)) as (Hb & Hr & Ht & Hl & Hk & _). pose proof (f_equal m_ResourceRecords (vo_fixed _ _ Hv)) as Hown.
  change (m_ResourceRecords m' = m_ResourceRecords m) in Hown. split; [|split; rewrite ?Hb, ?Hr, ?Ht, ?Hl; done|congruence|by rewrite Hown].
  destruct Hg as (P & N & L & M & Hi). exists P, N, L, M. by eapply inv_vol.
Qed.

Lemma ready_wframe m m' : ready m → good 0 0 m' → wframe 0 m m' → ready m'.
Proof. intros Hr Hg Hf. apply (ready_pframe m); [done|done|by eapply pframe_wframe]. Qed.

(** The packet record and the room in the cache. *)
Definition same_room m m' : Prop := same_rec m m' ∧ count is_free (m_ents m') = count is_free (m_ents m) ∧ m_rrcache_size m' = m_rrcache_size m.
#[local] Instance same_room_preorder : PreOrder same_room.
Proof. split; [done|]. intros m m' m'' (? & ? & ?) (? & ? & ?). split_and!; [by etransitivity|congruence..]. Qed.
Lemma same_room_vol {keep} m m' : @vol_gen keep m m' → same_room m m'.
Proof. intros Hv. split; [by eapply same_rec_vol|]. split; [by eapply same_free, (vo_ents _ _ Hv)|exact (f_equal m_rrcache_size (vo_fixed _ _ Hv))]. Qed.
Lemma same_room_wframe m m' : wframe 0 m m' → same_room m m'.
Proof. intros Hf. split; [apply (wf_rec _ _ _ Hf)|]. split; [by eapply same_free, (sc_ents _ _ (wf_cache _ _ _ Hf))|apply (sc_size _ _ (wf_cache _ _ _ Hf))]. Qed.

(** The announcement that was delayed may be due now. *)
Lemma deliver_delayed m r cr l : ready m → flushing (m_ents m) l → m_ents m !! r = Some (ERecord cr) →
  ∃ m', (let* c1 := get_rec m r in
         if cr_DelayDelivery c1 =? 0 then Ret m else
         let* rr1 := resrec_of m c1 in
         let* delay := CheckForSoonToExpireRecords m (rr_name rr1) (rr_namehash rr1) (rr_namehash (cr_resrec cr) mod CACHE_HASH_SLOTS) in
         let* m := set_rec m r (fun cr => cr <| cr_DelayDelivery := delay |>) in
         if delay =? 0 then CacheRecordDeferredAdd m r else Ret m) = Ret m' ∧ ready m' ∧ flushing (m_ents m') l ∧ same_room m m'.
Proof.
  intros Hrd Hf Hr. pose proof (good_wf _ _ _ (rd_good _ Hrd)) as Hw. pose proof (wf_nonzero _ _ _ _ _ Hw Hr) as Hr0.
  rewrite (get_rec_at Hw r cr Hr). cbn [obind]. destruct (cr_DelayDelivery cr =? 0); [by exists m|].
  destruct (linked_name 0 0 m r cr Hw Hr Hr0) as (cg & Hcg & _ & -> & Hnm). cbn [obind]. struct_simpl.
  destruct (CheckForSoonToExpireRecords_total 0 0 m _ _ Hw Hnm) as [d Hd]. struct_simpl in Hd. rewrite Hd. cbn [obind].
  destruct (set_rec_vol 0 0 m r cr (fun cr => cr <| cr_DelayDelivery := d |>) Hw Hr) as (m1 & -> & Hv1 & Hr1); [done|done|]. cbn [obind].
  pose proof (ready_volatile _ _ Hv1 Hrd) as Hrd1. pose proof (flushing_same _ _ _ (same_cf_ents _ _ (vo_ents _ _ Hv1)) Hf) as Hf1.
  pose proof (same_room_vol _ _ Hv1) as Hs1. destruct (d =? 0); [|by exists m1]. pose proof (good_wf _ _ _ (rd_good _ Hrd1)) as Hw1.
  destruct (CacheRecordDeferredAdd_spec 0 0 m1 r) as (m2 & -> & Hg2 & Hf2 & _); [apply Hrd1|apply Hrd1| |].
  { split; [eexists; split; [done|by apply (cw_rec Hw1 r _ Hr1)]|]. split; [done|by eapply size_pos]. }
  exists m2. split; [done|]. split; [by eapply ready_wframe|]. split; [eapply flushing_same; [apply same_cf_ents, (wf_cache _ _ _ Hf2)|done]|].
  transitivity m1; [done|by apply same_room_wframe].
Qed.

Lemma flush_record_spec m r l : ready m → flushing (m_ents m) (r :: l) →
  ∃ m', flush_record m r = Ret (m', hd cf_end l) ∧ ready m' ∧ flushing (m_ents m') l ∧ same_room m m'.
Proof.
  intros Hrd Hf. pose proof (good_wf _ _ _ (rd_good _ Hrd)) as Hw. pose proof Hf as (Hnd & Hz & Hlk).
  destruct (flushing_rec _ _ r Hf) as (cr & Hr & Hnx); [apply list_elem_of_here|]. simpl in Hnx. rewrite Z.eqb_refl in Hnx.
  pose proof (wf_nonzero _ _ _ _ _ Hw Hr) as Hr0. unfold flush_record. rewrite (get_rec_at Hw r cr Hr). cbn [obind].
  destruct (linked_name 0 0 m r cr Hw Hr Hr0) as (cg & Hcg & _ & -> & Hnm). cbn [obind]. struct_simpl. struct_simpl in Hnm.
  pose proof Hnm as (ls & Hls & Hln & Hh). unfold HashSlot. rewrite Hh. cbn [obind].
  unfold CacheGroupForRecord. struct_simpl. destruct (CacheGroupForName_spec 0 0 m _ _ Hw Hnm) as (g & -> & Hg). cbn [obind].
  destruct (set_cf m r cr 0 Hw Hr) as (m1 & -> & Hv1 & Hw1 & HE1). cbn [obind].
  assert (finds m1 0 (cg_name cg) g) as Hg1.
  { destruct Hg as [[-> Hno]|(Hg0 & c & Hc & Hs)]; [left; split; [done|]|right; split; [done|]; exists c; split; [|done]; by apply (same_ents_group (vo_ents _ _ Hv1))].
    intros g' c Hc. apply (Hno g' c). by apply (same_ents_group (vo_ents _ _ Hv1)). }
  destruct (members_of_spec 0 0 m1 _ g Hw1 Hg1) as (rs & h & -> & Hch & Hin). cbn [obind].
  assert (flushing (m_ents m1) l) as Hf1.
  { apply NoDup_cons in Hnd as [Hrl Hnd]. split; [done|]. split; [set_solver|]. intros x. rewrite HE1, cf_link_insert, (Hlk x). simpl. struct_simpl.
    destruct (Z.eqb_spec x r) as [->|]; [by rewrite link_in_not|done]. }
  assert (m_ents m1 !! r = Some (ERecord (cr <| cr_NextInCFList := 0 |>))) as Hr1 by (rewrite HE1; apply lookup_insert_eq).
  pose proof (ready_volatile _ _ Hv1 Hrd) as Hrd1.
  destruct (for_members_vol 0 0 m1 (flush_member r)) with (rs := rs) (fuel := list_fuel m1) (m := m1) (r := h) as (m2 & -> & Hv2); try done.
  { intros m' x cx Hw' Hv' Hx _. destruct (vol_at m1 m' r _ Hv' Hr1) as (c1 & Hc1 & _). by eapply flush_member_vol. }
  { intros x Hx. destruct (lseg_next _ _ _ _ _ Hch Hx) as [Hx0 _]. done. }
  { by eapply wf_fuel. }
  cbn [obind]. pose proof (ready_volatile _ _ Hv2 Hrd1) as Hrd2. pose proof (flushing_same _ _ _ (same_cf_ents _ _ (vo_ents _ _ Hv2)) Hf1) as Hf2.
  destruct (same_ents_rec (vo_ents _ _ Hv2) Hr1) as (c2 & Hr2 & Hs2). apply strip_rec_inv in Hs2 as (_ & _ & _ & Hnh & _).
  destruct (deliver_delayed m2 r c2 l Hrd2 Hf2 Hr2) as (m3 & Hrun & Hrd3 & Hf3 & Hs3). struct_simpl in Hnh. rewrite Hnh in Hrun.
  exists m3. split; [|split_and!; try done; transitivity m2; [transitivity m1; by eapply same_room_vol|done]].
  rewrite (get_rec_at (good_wf _ _ _ (rd_good _ Hrd2)) r c2 Hr2) in *. cbn [obind] in *. rewrite Hrun. cbn [obind]. by rewrite Hnx.
Qed.
Lemma flush_records_spec l : ∀ fuel m, ready m → flushing (m_ents m) l → (length l < fuel)%nat →
  ∃ m', flush_records fuel m (hd cf_end l) = Ret m' ∧ ready m' ∧ flushing (m_ents m') [] ∧ same_room m m'.
Proof.
  induction l as [|r l IH]; intros [|fuel] m Hrd Hf Hfu; simpl in Hfu; try lia; cbn [flush_records hd].
  - rewrite Z.eqb_refl. by exists m.
  - destruct (flushing_rec _ _ r Hf) as (cr & Hr & _); [apply list_elem_of_here|]. pose proof (cw_pos (good_wf _ _ _ (rd_good _ Hrd)) _ _ Hr).
    rewrite (proj2 (Z.eqb_neq r cf_end)) by (unfold cf_end; lia).
    destruct (flush_record_spec m r l Hrd Hf) as (m1 & -> & Hrd1 & Hf1 & Hs1). cbn [obind].
    destruct (IH fuel m1 Hrd1 Hf1) as (m2 & -> & ? & ? & ?); [lia|]. exists m2. split_and!; try done. by transitivity m1.
Qed.
End Flush.
