(* ===== verification/MDNSReceiveSpec.v ===== *)
(** Receiving the records of a response: what updating a record that is in
    the cache leaves alone ([updated]), and that each record of the packet
    is handled without a fault ([receiving W k m l]: [k] records are still to
    come, [l] is the list of records to flush, and if [W] holds the cache has
    room for the rest; [goes_on]: a step returns, or it is one that hands a
    record it has no memory for to questions that are started on the way). *)
From S2P Require Import Prelude Bytes DNSTypes DNSName DNSWireGet DNSRecord DNSRecordSpec DNSMessage DNSMessageGet MDNSTypes MDNSCache MDNSQuestion MDNSAnswer MDNSReceive MDNSList MDNSInv MDNSPool MDNSRecycle MDNSGet MDNSQInv MDNSStart MDNSStop MDNSClient MDNSVolatile MDNSWalk MDNSExpire MDNSCreate MDNSPacket MDNSInit MDNSNew MDNSSpec MDNSFlush.

Implicit Types (E : gmap Z CacheEntity) (m : mDNS) (p r t co x g h : Z) (l P N L M A X rs : list Z) (rr : ResourceRecord).

(** ** What updating a record of the cache leaves alone *)
Record updated m m' : Prop := {
  up_ready : ready m → ready m';
  up_ents : same_gen false (m_ents m) (m_ents m');
  up_size : m_rrcache_size m' = m_rrcache_size m;
  up_rec : same_rec m m'
}.
#[export] Instance updated_preorder : PreOrder updated.
Proof. split; [by intros m; split|]. intros m m' m'' [] []. split; [auto|by etransitivity|congruence|by etransitivity]. Qed.

Section Update.
Context `{PlatformOk} `{!ClientOk}.

Lemma updated_vol {keep} m m' : @vol_gen keep m m' → updated m m'.
Proof.
  intros Hv. split; [by apply (@ready_volatile keep)| |by apply (sc_size _ _ (vol_same_cache _ _ Hv))|by eapply same_rec_vol].
  destruct keep; [|apply (vo_ents _ _ Hv)]. apply same_gen_weak, (vo_ents _ _ Hv).
Qed.
Lemma updated_wf m m' : updated m m' → ready m → cache_wf 0 0 m'.
Proof. intros Hu Hr. apply good_wf, (rd_good m'), (up_ready _ _ Hu Hr). Qed.
Lemma updated_at m m' r cr : updated m m' → m_ents m !! r = Some (ERecord cr) → ∃ cr', m_ents m' !! r = Some (ERecord cr') ∧
  rr_rdata (cr_resrec cr') = rr_rdata (cr_resrec cr) ∧ rr_rdlength (cr_resrec cr') = rr_rdlength (cr_resrec cr).
Proof.
  intros Hu Hr. destruct (same_ents_rec (up_ents _ _ Hu) Hr) as (cr' & Hr' & Hs). exists cr'. split; [done|].
  pose proof (strip_rec_len _ _ Hs). by apply strip_rec_inv in Hs as (_ & _ & _ & _ & _ & _ & _ & _ & _ & ?).
Qed.
Lemma updated_finds m m' name g : updated m m' → finds m 0 name g → finds m' 0 name g.
Proof.
  intros Hu [[-> Hno]|(Hg & c & Hc & Hs)].
  - left. split; [done|]. intros g' c Hc. apply (Hno g' c). by apply (same_ents_group (up_ents _ _ Hu)).
  - right. split; [done|]. exists c. split; [|done]. by apply (same_ents_group (up_ents _ _ Hu)).
Qed.

(** ** Counting the questions that a record answers *)
Lemma count_unique_spec r P N L M : ∀ X fuel m A h, inv 0 0 0 m P N L M → record_at 0 m r → P ++ N = A ++ X → chain (qnx (m_qs m)) h X →
  (length X < fuel)%nat → ∃ m', count_unique fuel m r h = Ret m' ∧ steady 0 0 m P N L M m' ∧ m_ents m' = m_ents m.
Proof.
  induction X as [|p X IH]; intros [|fuel] m A h Hi Hr HP Hch Hf; simpl in Hf; try lia; cbn [count_unique].
  { simpl in Hch. subst h. exists m. split; [done|]. split; [by apply steady_refl|done]. }
  destruct Hch as (-> & Hp0 & n & (q & Hq & <-)%qnx_Some & HX). assert (p ∈ P ++ N) as Hp by (rewrite HP; set_solver).
  rewrite (proj2 (Z.eqb_neq p 0)) by done. destruct (answers_spec 0 0 m P N L M r p Hi (or_intror Hr) Hp) as (b & -> & _). cbn [obind].
  assert (∃ m1, (if b then set_q m p (fun qq => qq <| Q_UniqueAnswers := u32 (Q_UniqueAnswers qq + 1) |>) else Ret m) = Ret m1 ∧
    steady 0 0 m P N L M m1 ∧ m_ents m1 = m_ents m) as (m1 & -> & Hst1 & HE1).
  { destruct b; [apply steady_set_q; [done|done|intros; by split; [split|]]|]. exists m. split; [done|]. split; [by apply steady_refl|done]. }
  cbn [obind]. pose proof (sd_inv _ _ _ _ _ _ _ _ Hst1) as Hi1. destruct (qlists_at (iv_q Hi1) p Hp) as (q1 & Hq1 & _).
  rewrite (get_q_at m1 p q1 Hq1). cbn [obind]. pose proof (ql_chain (iv_q Hi1)) as Hc1. rewrite HP in Hc1.
  apply lseg_app in Hc1 as (k & _ & -> & _ & n & (c & Hc & <-)%qnx_Some & Hrest). rewrite Hq1 in Hc. injection Hc as <-.
  destruct (IH fuel m1 (A ++ [p]) (Q_next q1) Hi1) as (m' & -> & Hst' & HE'); [by eapply record_at_frame; [apply Hst1|]|by rewrite <- app_assoc|done|lia|].
  exists m'. split; [done|]. split; [by eapply steady_trans|congruence].
Qed.
Lemma count_unique_updated m r cr : ready m → m_ents m !! r = Some (ERecord cr) →
  ∃ m', count_unique (q_fuel m) m r (m_Questions m) = Ret m' ∧ updated m m' ∧ m_ents m' = m_ents m.
Proof.
  intros Hrd Hr. pose proof (rd_good _ Hrd) as (P & N & L & M & Hi). pose proof (iv_cache Hi) as Hw. pose proof (wf_nonzero _ _ _ _ _ Hw Hr) as Hr0.
  destruct (count_unique_spec r P N L M (P ++ N) (q_fuel m) m [] (m_Questions m) Hi) as (m' & -> & [Hi' Hf' _ _] & HE).
  - exists cr. split; [done|]. by apply (cw_rec Hw r cr Hr).
  - done.
  - apply (ql_chain (iv_q Hi)).
  - unfold q_fuel. pose proof (proj1 (qlists_fuel _ _ _ _ _ _ (iv_q Hi))). lia.
  - exists m'. split; [done|]. split; [|done]. split; [|by rewrite HE|by apply (sc_size _ _ (wf_cache _ _ _ Hf'))|apply (wf_rec _ _ _ Hf')].
    intros _. apply (ready_wframe m); [done|by exists P, N, L, M|done].
Qed.

(** ** A record that is in the cache already *)
Lemma make_unique_spec m l LLQType r cr : ready m → flushing (m_ents m) l → m_ents m !! r = Some (ERecord cr) →
  ∃ m' l', make_unique m (cf_of l) LLQType r = Ret (m', cf_of l') ∧ flushing (m_ents m') l' ∧ updated m m'.
Proof.
  intros Hrd Hf Hr. pose proof (good_wf _ _ _ (rd_good _ Hrd)) as Hw. unfold make_unique. rewrite (get_rec_at Hw r cr Hr). cbn [obind].
  match goal with |- context [let* '(m, cf) := ?s in _] => assert (∃ m1 l1, s = Ret (m1, cf_of l1) ∧ flushing (m_ents m1) l1 ∧ updated m m1) as (m1 & l1 & -> & Hf1 & Hu1) end.
  { destruct (_ && _ && _) eqn:Hb; [|by exists m, l]. repeat (apply andb_true_iff in Hb as [Hb ?]). apply Z.eqb_eq in Hb.
    destruct (cf_append_spec m l r cr Hw Hf) as (m1 & -> & Hf1 & Hv1); [|done|].
    - intros Hin. destruct (flushing_rec _ _ r Hf Hin) as (c & Hc & Hnx). rewrite Hr in Hc. injection Hc as <-.
      destruct Hf as (Hnd & Hz & _). by apply (link_in_in l r Hnd Hz Hin); rewrite <- Hnx.
    - exists m1, (l ++ [r]). split; [done|]. split; [done|]. by eapply updated_vol. }
  cbn [obind]. destruct (updated_at _ _ _ _ Hu1 Hr) as (c1 & Hr1 & _). pose proof (updated_wf _ _ Hu1 Hrd) as Hw1.
  rewrite (get_rec_at Hw1 r c1 Hr1). cbn [obind]. destruct (is_unique (cr_resrec c1)); [by exists m1, l1|].
  destruct (count_unique_updated m1 r c1 (up_ready _ _ Hu1 Hrd) Hr1) as (m2 & -> & Hu2 & HE2). cbn [obind].
  pose proof (updated_wf _ _ Hu2 (up_ready _ _ Hu1 Hrd)) as Hw2. rewrite <- HE2 in Hr1, Hf1.
  match goal with |- context [set_rec m2 r ?f] => destruct (set_rec_vol 0 0 m2 r c1 f Hw2 Hr1) as (m3 & -> & Hv3 & _) end; [done|done|]. cbn [obind].
  exists m3, l1. split; [done|]. split; [eapply flushing_same; [apply same_cf_ents, (vo_ents _ _ Hv3)|done]|].
  transitivity m1; [done|]. transitivity m2; [done|by eapply updated_vol].
Qed.

Lemma set_times_updated m r cr f l : ready m → flushing (m_ents m) l → m_ents m !! r = Some (ERecord cr) → strip_rec (f cr) = strip_rec cr →
  cr_CRActiveQuestion (f cr) = cr_CRActiveQuestion cr →
  ∃ m', (let* m := set_rec m r f in SetNextCacheCheckTime m r) = Ret m' ∧ flushing (m_ents m') l ∧ updated m m'.
Proof.
  intros Hrd Hf Hr Hs Hq. destruct (set_times_vol 0 0 m r cr f (good_wf _ _ _ (rd_good _ Hrd)) Hr Hs Hq) as (m' & -> & Hv). exists m'. split; [done|].
  split; [eapply flushing_same; [apply same_cf_ents, (vo_ents _ _ Hv)|done]|by eapply updated_vol].
Qed.
Lemma found_record_spec m l LLQType r cr : ready m → flushing (m_ents m) l → m_ents m !! r = Some (ERecord cr) →
  0 ≤ rr_rdlength (cr_resrec (m_rec m)) ≤ zlen (rr_rdata (cr_resrec (m_rec m))) → rr_rdlength (cr_resrec (m_rec m)) = rr_rdlength (cr_resrec cr) →
  ∃ m' l' stop, found_record m (cf_of l) LLQType r = Ret (m', cf_of l', stop) ∧ flushing (m_ents m') l' ∧ updated m m'.
Proof.
  intros Hrd Hf Hr Hlen Heq. pose proof (good_wf _ _ _ (rd_good _ Hrd)) as Hw. pose proof (wf_nonzero _ _ _ _ _ Hw Hr) as Hr0.
  destruct (cw_rec Hw r cr Hr Hr0) as (_ & _ & _ & _ & _ & Hlen'). unfold found_record.
  destruct (set_rec_vol 0 0 m r cr (fun cr => cr <| cr_TimeRcvd := m_timenow m |>) Hw Hr) as (m1 & -> & Hv1 & Hr1); [done|done|]. cbn [obind].
  pose proof (updated_vol _ _ Hv1) as Hu1. pose proof (up_ready _ _ Hu1 Hrd) as Hrd1. pose proof (flushing_same _ _ _ (same_cf_ents _ _ (vo_ents _ _ Hv1)) Hf) as Hf1.
  assert (cr_resrec (m_rec m1) = cr_resrec (m_rec m)) as Hrec by exact (f_equal cr_resrec (up_rec _ _ Hu1)). rewrite Hrec. cbv zeta.
  match goal with |- context [let* '(m, cf) := ?s in _] => assert (∃ m2 l2, s = Ret (m2, cf_of l2) ∧ flushing (m_ents m2) l2 ∧ updated m1 m2) as (m2 & l2 & -> & Hf2 & Hu2) end.
  { destruct (is_unique _); [by eapply make_unique_spec|by exists m1, l]. }
  cbn [obind]. pose proof (up_ready _ _ Hu2 Hrd1) as Hrd2. destruct (updated_at _ _ _ _ Hu2 Hr1) as (c2 & Hr2 & Hd2 & Hl2). struct_simpl in Hd2. struct_simpl in Hl2.
  rewrite (get_rec_at (good_wf _ _ _ (rd_good _ Hrd2)) r c2 Hr2). cbn [obind]. rewrite Hd2.
  destruct (MemSame_total (rr_rdata (cr_resrec (m_rec m))) (rr_rdata (cr_resrec cr)) (Z.to_nat (rr_rdlength (cr_resrec (m_rec m)))) 0) as [b ->]; [lia|lia|lia|].
  cbn [obind]. assert (updated m m2) as Hu02 by by transitivity m1.
  assert (∀ f (stop : bool), (∀ c, strip_rec (f c) = strip_rec c ∧ cr_CRActiveQuestion (f c) = cr_CRActiveQuestion c) →
    ∃ m' l' (s : bool), (let* m := set_rec m2 r f in let* m := SetNextCacheCheckTime m r in Ret (m, cf_of l2, stop)) = Ret (m', cf_of l', s) ∧ flushing (m_ents m') l' ∧ updated m m') as Hset.
  { intros f stop Hfc. destruct (set_times_updated m2 r c2 f l2 Hrd2 Hf2 Hr2 (proj1 (Hfc c2)) (proj2 (Hfc c2))) as (m3 & Hrun & Hf3 & Hu3).
    destruct (set_rec m2 r f) as [m3'|] eqn:Hm3; [|done]. cbn [obind] in *. rewrite Hrun. cbn [obind]. exists m3, l2, stop. split; [done|]. split; [done|]. by transitivity m2. }
  destruct b; cbn [negb]; [|by apply Hset]. destruct (0 <? _); [|by apply Hset]. unfold RefreshCacheRecord.
  match goal with |- context [set_rec m2 r ?f] => destruct (set_times_updated m2 r c2 f l2 Hrd2 Hf2 Hr2) as (m3 & Hrun & Hf3 & Hu3) end; [done|done|].
  rewrite Hrun. cbn [obind]. exists m3, l2, true. split; [done|]. split; [done|]. by transitivity m2.
Qed.

Lemma find_cached_spec InterfaceID LLQType rs : ∀ fuel m l h, ready m → flushing (m_ents m) l → data_ok (cr_resrec (m_rec m)) →
  chain (rec_next (m_ents m)) h rs → (length rs < fuel)%nat →
  ∃ m' l' r, find_cached fuel m (cf_of l) InterfaceID LLQType h = Ret (m', cf_of l', r) ∧ flushing (m_ents m') l' ∧ updated m m'.
Proof.
  induction rs as [|r rs IH]; intros [|fuel] m l h Hrd Hf Hd Hch Hfu; simpl in Hfu; try lia; cbn [find_cached].
  { simpl in Hch. subst h. by exists m, l, 0. }
  destruct Hch as (-> & Hr0 & n & (cr & Hr & <-)%rec_next_Some & Hrs). rewrite (proj2 (Z.eqb_neq r 0)) by done.
  pose proof (good_wf _ _ _ (rd_good _ Hrd)) as Hw. rewrite (get_rec_at Hw r cr Hr). cbn [obind].
  destruct (cw_rec Hw r cr Hr Hr0) as (cg & _ & _ & _ & Hdr). destruct (IdenticalSameNameRecord_total _ _ Hd Hdr) as (b & Hb & Hlen).
  match goal with |- context [let* same := ?s in _] => assert (∃ b, s = Ret b ∧ (b = true → rr_rdlength (cr_resrec (m_rec m)) = rr_rdlength (cr_resrec cr))) as (same & -> & Hsame) end.
  { destruct (_ =? InterfaceID); [by exists b|by exists false]. }
  cbn [obind]. assert (∃ m1 l1 stop, (if same then found_record m (cf_of l) LLQType r else Ret (m, cf_of l, false)) = Ret (m1, cf_of l1, stop) ∧
    flushing (m_ents m1) l1 ∧ updated m m1) as (m1 & l1 & stop & -> & Hf1 & Hu1).
  { destruct same; [|by exists m, l, false]. apply (found_record_spec m l LLQType r cr); try done; [apply Hd|by apply Hsame]. }
  cbn [obind]. destruct stop; [by exists m1, l1, r|]. pose proof (up_ready _ _ Hu1 Hrd) as Hrd1.
  destruct (same_ents_next (up_ents _ _ Hu1)) as (_ & _ & Hn). pose proof (Hn r) as Hnr. unfold rec_next in Hnr. rewrite Hr in Hnr.
  destruct (m_ents m1 !! r) as [[| | |c1]|] eqn:Hr1; try done. injection Hnr as Hnr. rewrite (get_rec_at (good_wf _ _ _ (rd_good _ Hrd1)) r c1 Hr1). cbn [obind]. rewrite Hnr.
  assert (cr_resrec (m_rec m1) = cr_resrec (m_rec m)) as Hrec by exact (f_equal cr_resrec (up_rec _ _ Hu1)).
  destruct (IH fuel m1 l1 (cr_next cr) Hrd1 Hf1) as (m2 & l2 & x & -> & Hf2 & Hu2); [by rewrite Hrec| |lia|].
  - apply (lseg_ext (rec_next (m_ents m))); [|done]. intros y _. apply Hn.
  - exists m2, l2, x. split; [done|]. split; [done|]. by transitivity m1.
Qed.
End Update.

Section Receive.
Context `{PlatformOk} `{!ClientOk} (W : Prop).

(** ** Waiting for the record *)
Lemma expecting_total P N L M m SrcLocal port id rr : inv 0 0 0 m P N L M → name_mem (rr_name rr) (rr_namehash rr) →
  ∃ b, ExpectingUnicastResponseForRecord (q_fuel m) m (m_Questions m) SrcLocal port id rr = Ret b.
Proof.
  intros Hi Hn. pose proof (proj1 (qlists_fuel _ _ _ _ _ _ (iv_q Hi))) as Hfu. pose proof (ql_chain (iv_q Hi)) as Hch.
  enough (∀ X fuel h, chain (qnx (m_qs m)) h X → (∀ p, p ∈ X → p ∈ P ++ N) → (length X < fuel)%nat →
    ∃ b, ExpectingUnicastResponseForRecord fuel m h SrcLocal port id rr = Ret b) as Hx.
  { apply (Hx (P ++ N)); [done|done|unfold q_fuel; lia]. }
  induction X as [|p X IH]; intros [|fuel] h HX Hin Hf; simpl in Hf; try lia; cbn [ExpectingUnicastResponseForRecord].
  { simpl in HX. subst h. by eexists. }
  destruct HX as (-> & Hp0 & n & (q & Hq & <-)%qnx_Some & HX). rewrite (proj2 (Z.eqb_neq p 0)) by done.
  destruct (qlists_at (iv_q Hi) p) as (q' & Hq' & Hok & _); [apply Hin, list_elem_of_here|]. rewrite Hq in Hq'. injection Hq' as <-.
  rewrite (get_q_at m p q Hq). cbn [obind]. destruct (answers_total rr q Hn (qk_name _ Hok)) as (b & -> & _). cbn [obind].
  destruct (qk_wide _ Hok) as (Hz & _). rewrite Hz. cbn [Z.eqb negb].
  assert (∃ b, ExpectingUnicastResponseForRecord fuel m (Q_next q) SrcLocal port id rr = Ret b) as Hnext.
  { apply IH; [done| |lia]. intros x Hx. apply Hin. by apply list_elem_of_further. }
  destruct b; cbn [negb]; [|done]. destruct (_ && _); [by eexists|done].
Qed.

(** ** One record of the packet *)
(** [k] records are still to come, and if [W] holds there is room for them. *)
Record receiving (k : nat) m l : Prop := {
  rc_ready : ready m;
  rc_flush : flushing (m_ents m) l;
  rc_storage : storage_ok m;
  rc_size : m_rrcache_size m ≠ 0;
  rc_room : W → plenty ∧ 2 * Z.of_nat k ≤ count is_free (m_ents m)
}.
(** A step returns, as it must if [W] holds. *)
Definition goes_on {T : Type} (fuel : nat) (run : outcome T) (R : T → Prop) : Prop :=
  (∃ a, run = Ret a ∧ R a) ∨ (run = Fault OutOfFuel ∧ ¬ W ∧ endless fuel).
Lemma goes_ret {T : Type} fuel (a : T) (R : T → Prop) : R a → goes_on fuel (Ret a) R.
Proof. left. by exists a. Qed.
Lemma goes_bind {T U : Type} fuel (run : outcome T) (f : T → outcome U) (R : T → Prop) (R' : U → Prop) :
  goes_on fuel run R → (∀ a, R a → goes_on fuel (f a) R') → goes_on fuel (obind run f) R'.
Proof. intros [(a & -> & Ha)|[-> He]] Hf; [by apply Hf|right; by split]. Qed.
Lemma receiving_rec k m l rec : receiving k m l → storage_ok (m <| m_rec := rec |>) → receiving k (m <| m_rec := rec |>) l.
Proof. intros [] Hs. split; try done. by apply ready_rec. Qed.
Lemma receiving_log k m l b e : receiving k m l → receiving k (log_if b e m) l.
Proof.
  intros [[(P & N & L & M & Hi) [] Hc Ho] Hf Hs Hz Hr]. unfold log_if, LogMsg. destruct b; [|split; try done; split; try done; by exists P, N, L, M].
  split; try done. split; try done. exists P, N, L, M. destruct Hi. split; try done. by apply (same_cache_wf 0 0 m).
Qed.
Lemma receiving_clear k m l : receiving k m l → receiving k (clear_rec m) l.
Proof. intros Hr. apply receiving_rec; [done|]. apply (rc_storage _ _ _ Hr). Qed.
Lemma receiving_less k k' m l : receiving k m l → (k' ≤ k)%nat → receiving k' m l.
Proof. intros [] Hk. split; try done. intros Hw. destruct (rc_room0 Hw). split; [done|lia]. Qed.
Lemma receiving_updated k m m' l l' : receiving k m l → updated m m' → flushing (m_ents m') l' → receiving k m' l'.
Proof.
  intros [Hr Hf Hs Hz Hk] Hu Hf'. split; [by apply (up_ready _ _ Hu)|done|by eapply storage_same; [apply Hu|]|by rewrite (up_size _ _ Hu)|].
  by rewrite (same_free _ _ (up_ents _ _ Hu)).
Qed.

(** A received record is kept, or handed on. *)
Lemma create_goes_on fuel k m l g : receiving (S k) m l → received (m_rec m) → finds m 0 (rr_name (cr_resrec (m_rec m))) g →
  goes_on fuel (CreateNewCacheEntry fuel m (rr_namehash (cr_resrec (m_rec m)) mod CACHE_HASH_SLOTS) g)
    (fun '(m', r) => receiving k m' l ∧ (r ≠ 0 → ∃ g, stored m' g r (m_rec m))).
Proof.
  intros [Hrd Hf Hst Hsz Hk] Hrv Hg. pose proof Hrd as [Hgd Hlk Hc Hown].
  destruct (CreateNewCacheEntry_total fuel m g Hgd Hlk Hc Hrv Hsz Hg) as
    [(m' & r & Hrun & Hgd' & Hp' & Hsr & Hsz' & Hcf & Hcr & Hno)|(Hrun & Hno & Hsh & m1 & Ho & Hout)]; rewrite Hrun.
  - left. exists (m', r). split; [done|]. split; [|intros Hr0; apply Hcr; done].
    split; [by apply (ready_pframe m)|by eapply flushing_same|by eapply storage_same|done|]. intros Hw. destruct (Hk Hw) as [Hpy Hroom]. split; [done|].
    destruct (Z.eqb_spec r 0) as [->|Hr0]; [specialize (Hno eq_refl Hpy); lia|]. destruct (Hcr Hr0) as (_ & _ & _ & [Hfree _] & _). lia.
  - right. split; [done|]. split; [|by eapply endless_intro]. intros Hw. destruct (Hk Hw) as [Hpy Hroom]. specialize (Hsh Hpy). lia.
Qed.

Lemma cache_packet_record_spec fuel k m l InterfaceID LLQType : receiving (S k) m l → received (m_rec m) →
  goes_on fuel (cache_packet_record fuel m (cf_of l) InterfaceID LLQType) (fun '(m', cf) => ∃ l', cf = cf_of l' ∧ receiving k m' l').
Proof.
  intros Hrc Hrv. pose proof Hrc as [Hrd Hf Hst _ _]. pose proof (good_wf _ _ _ (rd_good _ Hrd)) as Hw. pose proof (rv_name _ Hrv) as Hnm.
  pose proof Hnm as (ls & Hls & Hln & Hh). unfold cache_packet_record. cbv zeta. unfold HashSlot. rewrite Hh. cbn [obind].
  unfold CacheGroupForRecord. destruct (CacheGroupForName_spec 0 0 m _ _ Hw Hnm) as (g & -> & Hg). cbn [obind].
  destruct (members_of_spec 0 0 m _ g Hw Hg) as (rs & h & -> & Hch & _). cbn [obind].
  destruct (find_cached_spec InterfaceID LLQType rs (list_fuel m) m l h Hrd Hf) as (m1 & l1 & r1 & -> & Hf1 & Hu1); [|done|by eapply wf_fuel|].
  { apply (data_take _ (Z.to_nat (Z.max InlineCacheRDSize (storage_length (cr_resrec (m_rec m)))))), (rv_data _ Hrv). }
  cbn [obind]. pose proof (receiving_updated _ _ _ _ _ Hrc Hu1 Hf1) as Hrc1.
  destruct (_ && _); [|apply goes_ret; exists l1; split; [done|apply (receiving_less (S k)); [done|lia]]].
  assert (cr_resrec (m_rec m1) = cr_resrec (m_rec m)) as Hrec by exact (f_equal cr_resrec (up_rec _ _ Hu1)).
  pose proof (received_same _ _ (up_rec _ _ Hu1) Hrv) as Hrv1. pose proof (updated_finds _ _ _ _ Hu1 Hg) as Hg1. rewrite <- Hrec in Hg1.
  pose proof (create_goes_on fuel k m1 l1 g Hrc1 Hrv1 Hg1) as Hcr. rewrite Hrec in Hcr.
  eapply goes_bind; [exact Hcr|]. intros [m2 r] [Hrc2 Hsd]. destruct (Z.eqb_spec r 0) as [_|Hr0]; [apply goes_ret; by exists l1|].
  pose proof (good_wf _ _ _ (rd_good _ (rc_ready _ _ _ Hrc2))) as Hw2.
  destruct (Hsd Hr0) as (g2 & cr & cg & rs2 & Hr & _ & _ & _ & _ & _ & Hnx). rewrite (get_rec_at Hw2 r cr Hr). cbn [obind].
  destruct (_ && _); [|apply goes_ret; by exists l1].
  destruct (cf_append_spec m2 l1 r cr Hw2 (rc_flush _ _ _ Hrc2)) as (m3 & -> & Hf3 & Hv3); [|done|].
  { intros Hin. destruct (flushing_rec _ _ r (rc_flush _ _ _ Hrc2) Hin) as (c & Hc & Hcn). rewrite Hr in Hc. injection Hc as <-.
    destruct Hf1 as (Hnd & Hz & _). apply (link_in_in l1 r Hnd Hz Hin). congruence. }
  apply goes_ret. exists (l1 ++ [r]). split; [done|]. eapply receiving_updated; [done|by eapply updated_vol|done].
Qed.

Lemma receive_record_spec fuel pk k m l : receiving (S k) m l → received (m_rec m) →
  goes_on fuel (receive_record fuel pk m (cf_of l)) (fun '(m', cf) => ∃ l', cf = cf_of l' ∧ receiving k m' l').
Proof.
  intros Hrc Hrv. unfold receive_record. destruct (_ || _).
  { apply goes_ret. exists l. split; [done|]. apply receiving_clear, (receiving_less (S k)); [done|lia]. }
  match goal with |- context [if pk_id pk =? 0 then m else ?x] => assert (receiving (S k) (if pk_id pk =? 0 then m else x) l ∧ received (m_rec (if pk_id pk =? 0 then m else x)))
    as [Hrc1 Hrv1]; [|set (m1 := if pk_id pk =? 0 then m else x) in *] end.
  { destruct (_ =? 0); [done|]. split; [apply receiving_rec; [done|apply (rc_storage _ _ _ Hrc)]|]. destruct Hrv. by split. }
  clearbody m1. cbv zeta. pose proof (rd_good _ (rc_ready _ _ _ Hrc1)) as (P & N & L & M & Hi). pose proof (iv_cache Hi) as Hw.
  match goal with |- context [let* AcceptableResponse := ?s in _] => assert (∃ b, s = Ret b) as [b ->] end.
  { destruct (_ || _); [by eexists|]. eapply expecting_total; [done|apply Hrv1]. }
  cbn [obind]. match goal with |- context [let* AcceptableResponse := ?s in _] => assert (∃ b, s = Ret b) as [b' ->] end.
  { destruct b; [by eexists|]. apply (refers_total m1 l); [done|apply Hrc1|apply Hrv1]. }
  cbn [obind]. eapply goes_bind.
  - instantiate (1 := fun '(m', cf) => ∃ l', cf = cf_of l' ∧ receiving k m' l').
    destruct (_ && _); [by apply cache_packet_record_spec|]. apply goes_ret. exists l. split; [done|]. apply (receiving_less (S k)); [done|lia].
  - intros [m2 cf] (l2 & -> & Hrc2). apply goes_ret. exists l2. split; [done|by apply receiving_clear].
Qed.

(** ** All the records *)
(** The [n] records at [p], up to the end of the packet, have a class other than ANY. *)
Fixpoint plain_records (n : nat) (msg : list Z) (p e : Z) : bool :=
  match n with
  | O => true
  | S n =>
    if negb (p <? e) then true else
    match skipDomainName msg p e with
    | Ret (Some q) =>
      match rd16 msg (q + 2), rd16 msg (q + 8) with
      | Ret class, Ret len => negb (Z.land class kDNSClass_Mask =? kDNSQClass_ANY) && plain_records n msg (q + 10 + len) e
      | _, _ => true
      end
    | _ => true
    end
  end.
Lemma plain_frame n msg p e ls class next : bytes_ok msg → name_ok ls → record_frame msg p e ls class next → p < e → plain_records (S n) msg p e = true →
  class ≠ kDNSQClass_ANY ∧ plain_records n msg next e = true.
Proof.
  intros Hb [_ Hls] (q & c & len & Hd & Hc & -> & Hl & ->) Hpe. cbn [plain_records]. rewrite (proj2 (Z.ltb_lt _ _) Hpe). cbn [negb]. rewrite (skipDomainName_decodes _ _ _ _ _ Hb Hd Hls), Hc, Hl.
  intros [Hne Hp]%andb_true_iff. split; [|done]. by apply negb_true_iff, Z.eqb_neq in Hne.
Qed.
Lemma receive_records_spec fuel pk firstauthority firstadditional : packet_ok (pk_msg pk) (pk_end pk) → ∀ n j i m l ptr, receiving (n + j) m l →
  match ptr with Some p => plain_records n (pk_msg pk) p (pk_end pk) = true | None => True end →
  goes_on fuel (receive_records n i firstauthority firstadditional fuel pk m (cf_of l) ptr) (fun '(m', cf) => ∃ l', cf = cf_of l' ∧ receiving j m' l').
Proof.
  intros Hpo. induction n as [|n IH]; intros j i m l ptr Hrc Hpl; cbn [receive_records]; [apply goes_ret; by exists l|].
  destruct ptr as [p|]; [|apply goes_ret; exists l; split; [done|apply (receiving_less (S n + j)); [done|lia]]].
  destruct (Z.ltb_spec p (pk_end pk)) as [Hpe|Hpe]; cbn [negb]; [|apply goes_ret; exists l; split; [done|apply (receiving_less (S n + j)); [done|lia]]].
  destruct (get_packet_record_spec m (pk_msg pk) p (pk_end pk) (pk_InterfaceID pk) (section_of i firstauthority firstadditional) Hpo (rc_storage _ _ _ Hrc))
    as (rec & b & r & -> & Hst & Hgot). cbn [obind].
  assert (receiving (S (n + j)) ((log_if b Rec_in_use m) <| m_rec := rec |>) l) as Hrc1 by (apply receiving_rec; [by apply receiving_log|done]).
  destruct r as [next|]; [|apply goes_ret; exists l; split; [done|apply (receiving_less (S n + j)); [done|lia]]].
  destruct Hgot as (ls & Hfr & _ & Hls & Hrv). destruct (plain_frame n _ _ _ _ _ _ (po_bytes _ _ Hpo) Hls Hfr Hpe Hpl) as [Hcl Hpn].
  eapply goes_bind; [exact (receive_record_spec fuel pk (n + j) _ l Hrc1 (Hrv Hcl))|]. intros [m2 cf] (l2 & -> & Hrc2). by apply IH.
Qed.
End Receive.
