(* ===== verification/MDNSResponse.v ===== *)
(** Receiving a whole response: the questions of the packet, the records, the
    flush and the negative answers. *)
From S2P Require Import Prelude Bytes DNSTypes DNSName DNSWireGet DNSRecord DNSRecordSpec DNSMessage DNSMessageGet MDNSTypes MDNSCache MDNSQuestion MDNSAnswer MDNSReceive MDNSList MDNSInv MDNSPool MDNSRecycle MDNSGet MDNSQInv MDNSStart MDNSStop MDNSClient MDNSVolatile MDNSWalk MDNSExpire MDNSCreate MDNSPacket MDNSInit MDNSNew MDNSSpec MDNSFlush MDNSReceiveSpec.

Implicit Types (m : mDNS) (p r h g : Z) (l P N L M X rs : list Z) (rr : ResourceRecord) (q : DNSQuestion).

Section Response.
Context `{PlatformOk} `{!ClientOk} (W : Prop).

(** ** The addresses *)
(** An address of a packet has its bytes. *)
Definition addr_ok (a : mDNSAddr) : Prop := 2 ≤ zlen (addr_ip a).
Lemma local_subnet_total m iid a : addr_ok a → ∃ b, AddressIsLocalSubnet m iid a = Ret b.
Proof.
  unfold addr_ok. intros Ha. destruct (aget_ok (addr_ip a) 0) as (b0 & Hb0 & _); [lia|]. destruct (aget_ok (addr_ip a) 1) as (b1 & Hb1 & _); [lia|].
  unfold AddressIsLocalSubnet, mDNSv4AddressIsLinkLocal, mDNSv6AddressIsLinkLocal. rewrite Hb0, Hb1. cbn [obind].
  repeat first [progress cbn [obind] | match goal with |- context [if ?b then _ else _] => destruct b end]; by eexists.
Qed.

(** ** The questions of the packet *)
Definition asked q : Prop := name_mem (q_qname q) (q_qnamehash q).
Lemma getQuestion_total msg p e iid : packet_ok msg e → ∃ q o, getQuestion msg p e iid = Ret (q, o) ∧ match o with Some x => asked q ∧ skipQuestion msg p e = Ret (Some x) | None => True end.
Proof.
  intros [Hb _ Hm _]. unfold getQuestion. cbn [q_qname].
  destruct (safe_elim _ _ (getDomainName_spec msg p e (replicate 256 0) Hb ltac:(lia) ltac:(done))) as ([d r] & -> & _ & _ & Hr). cbn beta iota in Hr. cbn [obind].
  destruct r as [n|]; [|by eexists _, None]. destruct Hr as (ls & Hd & Hok & Hn). pose proof (decodes_range _ _ _ _ _ Hd). pose proof (decodes_next _ _ _ _ _ Hd).
  destruct (Z.ltb_spec e (n + 4)) as [|Hne]; [by eexists _, None|]. destruct (name_mem_legal d) as (h & -> & Hnm & _); [by exists ls|]. cbn [obind].
  destruct (rd16_ok msg n) as (t & -> & _); [done|lia|lia|]. cbn [obind]. destruct (rd16_ok msg (n + 2)) as (c & -> & _); [done|lia|lia|]. cbn [obind].
  eexists _, (Some _). split; [done|]. split; [done|]. unfold skipQuestion. rewrite (skipDomainName_decodes _ _ _ _ _ Hb Hd (proj2 Hok)). cbn [obind].
  by rewrite (proj2 (Z.ltb_ge _ _) Hne).
Qed.

(** A walk along the active questions that looks for a name. *)
Lemma same_question_total Q q (b : bool) : q_ok Q → asked q →
  ∃ s, (if b then SameDomainName (q_qname (Q_q Q)) (q_qname q) else Ret false) = Ret s.
Proof.
  intros Hok (ls & Hls & Hd & _). destruct (qk_name _ Hok) as (ls' & Hls' & Hd' & _). destruct b; [|by eexists].
  rewrite (SameDomainName_spec _ _ ls' ls) by (done || apply Hls || apply Hls'). by eexists.
Qed.
Lemma expecting_question_total P N L M m port id q : inv 0 0 0 m P N L M → asked q →
  ∃ r, ExpectingUnicastResponseForQuestion (q_fuel m) m (m_Questions m) port id q = Ret r.
Proof.
  intros Hi Hq. pose proof (proj1 (qlists_fuel _ _ _ _ _ _ (iv_q Hi))) as Hfu. pose proof (ql_chain (iv_q Hi)) as Hch.
  enough (∀ X fuel h, chain (qnx (m_qs m)) h X → (∀ p, p ∈ X → p ∈ P ++ N) → (length X < fuel)%nat →
    ∃ r, ExpectingUnicastResponseForQuestion fuel m h port id q = Ret r) as Hx.
  { apply (Hx (P ++ N)); [done|done|unfold q_fuel; lia]. }
  induction X as [|p X IH]; intros [|fuel] h HX Hin Hf; simpl in Hf; try lia; cbn [ExpectingUnicastResponseForQuestion].
  { simpl in HX. subst h. by eexists. }
  destruct HX as (-> & Hp0 & n & (Q & HQ & <-)%qnx_Some & HX). rewrite (proj2 (Z.eqb_neq p 0)) by done.
  destruct (qlists_at (iv_q Hi) p) as (Q' & HQ' & Hok & _); [apply Hin, list_elem_of_here|]. rewrite HQ in HQ'. injection HQ' as <-.
  rewrite (get_q_at m p Q HQ). cbn [obind]. unfold local_port. destruct (qk_wide _ Hok) as (_ & _ & _ & -> & _). cbn [Z.eqb obind].
  match goal with |- context [let* same := if ?b then _ else _ in _] => destruct (same_question_total Q q b Hok Hq) as [s ->] end. cbn [obind].
  destruct s; [by eexists|]. apply IH; [done| |lia]. intros x Hx. apply Hin. by apply list_elem_of_further.
Qed.
Lemma expecting_packet_total P N L M m dstaddr port id q : inv 0 0 0 m P N L M → asked q → ∃ b, expecting m dstaddr port id q = Ret b.
Proof.
  intros Hi Hq. unfold expecting. destruct dstaddr; [|by eexists]. destruct (expecting_question_total P N L M m port id q Hi Hq) as [x ->]. by eexists.
Qed.
Lemma find_llq_total P N L M m q : inv 0 0 0 m P N L M → find_llq (q_fuel m) m (m_Questions m) q = Ret tt.
Proof.
  intros Hi. pose proof (proj1 (qlists_fuel _ _ _ _ _ _ (iv_q Hi))) as Hfu. pose proof (ql_chain (iv_q Hi)) as Hch.
  enough (∀ X fuel h, chain (qnx (m_qs m)) h X → (∀ p, p ∈ X → p ∈ P ++ N) → (length X < fuel)%nat → find_llq fuel m h q = Ret tt) as Hx.
  { apply (Hx (P ++ N)); [done|done|unfold q_fuel; lia]. }
  induction X as [|p X IH]; intros [|fuel] h HX Hin Hf; simpl in Hf; try lia; cbn [find_llq].
  { simpl in HX. by subst h. }
  destruct HX as (-> & Hp0 & n & (Q & HQ & <-)%qnx_Some & HX). rewrite (proj2 (Z.eqb_neq p 0)) by done.
  destruct (qlists_at (iv_q Hi) p) as (Q' & HQ' & Hok & _); [apply Hin, list_elem_of_here|]. rewrite HQ in HQ'. injection HQ' as <-.
  rewrite (get_q_at m p Q HQ). cbn [obind]. destruct (qk_wide _ Hok) as (-> & _). cbn [Z.eqb negb andb obind].
  apply IH; [done| |lia]. intros x Hx. apply Hin. by apply list_elem_of_further.
Qed.
Lemma receiving_inv k m l : receiving W k m l → ∃ P N L M, inv 0 0 0 m P N L M.
Proof. intros Hr. apply (rd_good _ (rc_ready _ _ _ _ Hr)). Qed.

(** The host's own records. *)
Definition own m := (m_ResourceRecords m, m_NewLocalRecords m).
(** A record of the packet is read into the storage. *)
Lemma get_packet_receiving k m l msg p e iid RecordType : packet_ok msg e → receiving W k m l →
  ∃ m' o, get_packet_record m msg p e iid RecordType = Ret (m', o) ∧ receiving W k m' l ∧ m_ents m' = m_ents m ∧ own m' = own m.
Proof.
  intros Hpo Hr. destruct (get_packet_record_spec m msg p e iid RecordType Hpo (rc_storage _ _ _ _ Hr)) as (rec & b & r & -> & Hst & _).
  exists ((log_if b Rec_in_use m) <| m_rec := rec |>), r. split; [done|]. split; [apply receiving_rec; [by apply receiving_log|done]|].
  unfold log_if. by destruct b.
Qed.
Lemma recvLLQ_spec k m l msg e : packet_ok msg e → receiving W k m l →
  ∃ m', uDNS_recvLLQResponse m msg e = Ret (m', uDNS_LLQ_Not) ∧ receiving W k m' l ∧ own m' = own m.
Proof.
  intros Hpo Hr. pose proof Hpo as [Hb He Hm Hh]. unfold uDNS_recvLLQResponse.
  destruct (get16_ok msg off_numQuestions) as (n & ->); [done|unfold off_numQuestions; lia|]. cbn [obind]. destruct (n =? 0); [by exists m|].
  destruct (getQuestion_total msg off_data e 0 Hpo) as (q & r & -> & Hq). cbn [obind]. destruct r as [x|]; [destruct Hq as [Hq _]|by exists m].
  destruct (safe_elim _ _ (LocateLLQOptData_total msg e Hb Hm Hh)) as (opt & -> & _). cbn [obind].
  match goal with |- context [let* m := ?s in _] => assert (∃ m1, s = Ret m1 ∧ receiving W k m1 l ∧ own m1 = own m) as (m1 & -> & Hr1 & Ho1) end.
  { destruct opt as [p|]; [|by exists m]. destruct (get_packet_receiving k m l msg p e 0 kDNSRecordTypePacketAdd Hpo Hr) as (m1 & y & -> & Hr1 & _ & Ho1). by exists m1. }
  cbn [obind]. destruct (receiving_inv _ _ _ Hr1) as (P & N & L & M & Hi). rewrite (find_llq_total P N L M m1 q Hi). cbn [obind].
  exists (clear_rec m1). split; [done|]. split; [by apply receiving_clear|done].
Qed.

(** ** Stale records *)
Lemma mark_stale_vol q t co m r cr : cache_wf t co m → m_ents m !! r = Some (ERecord cr) → ∃ m', mark_stale q m r = Ret m' ∧ vol m m'.
Proof.
  intros Hw Hr. unfold mark_stale. rewrite (get_rec_at Hw r cr Hr). cbn [obind]. destruct (SameNameRecordAnswersQuestion _ _); [|by exists m].
  match goal with |- context [set_rec m r ?f] => destruct (set_rec_vol t co m r cr f Hw Hr) as (m1 & -> & Hv1 & _) end; [done|done|by exists m1].
Qed.
(** The records of a name. *)
Lemma members_found m name nh : cache_wf 0 0 m → name_mem name nh → ∃ g h rs, HashSlot name = Ret (nh mod CACHE_HASH_SLOTS) ∧
  CacheGroupForName m (nh mod CACHE_HASH_SLOTS) nh name = Ret g ∧ finds m 0 name g ∧ members_of m g = Ret h ∧ chain (rec_next (m_ents m)) h rs ∧
  (∀ x, x ∈ rs → x ≠ 0) ∧ (length rs < list_fuel m)%nat.
Proof.
  intros Hw Hnm. pose proof Hnm as (ls & Hls & Hd & Hh). destruct (CacheGroupForName_spec 0 0 m _ _ Hw Hnm) as (g & Hg & Hfi).
  destruct (members_of_spec 0 0 m _ g Hw Hfi) as (rs & h & Hm & Hch & _). exists g, h, rs. unfold HashSlot. rewrite Hh. split_and!; try done.
  - intros x Hx. by destruct (lseg_next _ _ _ _ _ Hch Hx) as [Hx0 _].
  - by eapply wf_fuel.
Qed.
Lemma mark_question_spec msg e iid dstaddr dstport id m k p : packet_ok msg e → receiving W k m [] →
  ∃ m' o, mark_questions 1 m msg (Some p) e iid dstaddr dstport id = Ret (m', o) ∧ receiving W k m' [] ∧ own m' = own m ∧
    ∀ x, o = Some x → x < e → skipQuestion msg p e = Ret (Some x).
Proof.
  intros Hpo Hr. cbn [mark_questions]. destruct (Z.ltb_spec p e); cbn [negb]; [|exists m, (Some p); split_and!; try done; intros x [= <-]; lia].
  destruct (getQuestion_total msg p e iid Hpo) as (q & o & -> & Hq). cbn [obind].
  destruct (receiving_inv _ _ _ Hr) as (P & N & L & M & Hi).
  match goal with |- context [let* ok := ?s in _] => assert (∃ b, s = Ret b ∧ (b = true → asked q)) as (b & -> & Hb) end.
  { destruct o; [|by exists false]. destruct Hq as [Hq _]. destruct (expecting_packet_total P N L M m dstaddr dstport id q Hi Hq) as [b ->]. by exists b. }
  cbn [obind]. match goal with |- context [let* m := ?s in _] => assert (∃ m1, s = Ret m1 ∧ receiving W k m1 [] ∧ own m1 = own m) as (m1 & -> & Hr1 & Ho1) end.
  { destruct b; [|by exists m]. pose proof (iv_cache Hi) as Hw. destruct (members_found m _ _ Hw (Hb eq_refl)) as (g & h & rs & -> & Hg & _ & Hm & Hch & Hrs & Hfu).
    cbn [obind]. rewrite Hg. cbn [obind]. rewrite Hm. cbn [obind].
    destruct (for_members_vol 0 0 m (mark_stale q)) with (rs := rs) (fuel := list_fuel m) (m := m) (r := h) as (m1 & -> & Hv); try done.
    { intros m' x cx Hw' _ Hx _. by apply (mark_stale_vol q 0 0 m' x cx). }
    exists m1. split; [done|]. split; [|exact (f_equal own (vo_fixed _ _ Hv))]. eapply receiving_updated; [done|by eapply updated_vol|].
    eapply flushing_same; [apply same_cf_ents, (vo_ents _ _ Hv)|apply Hr]. }
  cbn [obind]. exists m1, o. split; [by destruct o|]. split; [done|]. split; [done|]. intros x -> _. apply Hq.
Qed.

(** ** Negative answers *)
(** The storage of the packet record is not in use. *)
Definition rec_free m : Prop := rr_RecordType (cr_resrec (m_rec m)) = 0.
(** The rdata of the type refers to no name, so that no rdata is proper rdata of it. *)
Definition plain_type (t : Z) : bool := match kind_of_type t with KindA | KindRaw | KindAAAA | KindOPT | KindOther => true | _ => false end.
Lemma find_negative_total q m rs : cache_wf 0 0 m → ∀ fuel h neg, chain (rec_next (m_ents m)) h rs → (length rs < fuel)%nat → (neg = 0 ∨ has_record m neg) →
  ∃ r neg', find_negative fuel m q h neg = Ret (r, neg') ∧ (neg' = 0 ∨ has_record m neg').
Proof.
  intros Hw. induction rs as [|x rs IH]; intros [|fuel] h neg Hch Hf Hn; simpl in Hf; try lia; cbn [find_negative].
  { simpl in Hch. subst h. by exists 0, neg. }
  destruct Hch as (-> & Hx0 & n & (cr & Hx & <-)%rec_next_Some & Hrs). rewrite (proj2 (Z.eqb_neq x 0)) by done. rewrite (get_rec_at Hw x cr Hx). cbn [obind].
  destruct (SameNameRecordAnswersQuestion _ _); [|apply IH; [done|lia|done]]. destruct (0 <? _); [by exists x, neg|].
  apply IH; [done|lia|]. destruct (_ =? kDNSRecordTypePacketNegative); [right; by exists cr|done].
Qed.
Lemma soa_minimum_spec k m l msg ptr e iid q : packet_ok msg e → receiving W k m l → q_qtype q ≠ kDNSType_SOA →
  ∃ m' o negttl, soa_minimum m msg ptr e iid q = Ret (m', o, negttl, 0) ∧ receiving W k m' l ∧ (rec_free m → rec_free m') ∧ m_ents m' = m_ents m.
Proof.
  intros Hpo Hr Hq. pose proof Hpo as [Hb He Hm Hh]. unfold soa_minimum. cbv zeta.
  destruct (get16_ok msg off_numAuthorities) as (n & ->); [done|unfold off_numAuthorities; lia|]. cbn [obind]. destruct (n =? 0); [by eexists m, _, _|].
  destruct (safe_elim _ _ (LocateAuthorities_total msg e Hb Hm Hh)) as (o & -> & _). cbn [obind]. destruct o as [p|]; [|by eexists m, _, _].
  destruct (get_packet_receiving k m l msg p e iid kDNSRecordTypePacketAuth Hpo Hr) as (m1 & o & -> & Hr1 & HE1 & _). cbn [obind].
  pose proof (receiving_clear _ _ _ _ Hr1) as Hr2. destruct o as [y|]; [|by eexists (clear_rec m1), _, _].
  destruct (_ =? kDNSType_SOA); [|by eexists (clear_rec m1), _, _]. destruct (rc_storage _ _ _ _ Hr1) as [(_ & Hz & _) _].
  destruct (get32_ok (rr_rdata (cr_resrec (m_rec m1))) (off_soa_serial + 16)) as (v & ->); [done|rewrite Hz; by vm_compute|]. cbn [obind].
  rewrite (proj2 (Z.eqb_neq _ _) Hq). cbn [obind]. by eexists (clear_rec m1), _, _.
Qed.
Lemma negative_received m name hash q negttl : name_mem name hash → storage_ok m → plain_type (q_qtype q) = true →
  received (m_rec (MakeNegativeCacheRecord m name hash (q_qtype q) (q_qclass q) negttl)) ∧
  storage_ok (MakeNegativeCacheRecord m name hash (q_qtype q) (q_qclass q) negttl).
Proof.
  intros Hn Hst Hq. split; [|split; [apply Hst|by vm_compute]]. split; try done. unfold data_ok. struct_simpl.
  unfold rdata_ok, plain_type in *. set (u := kept_data _). pose proof (zlen_nonneg u) as Hz. clearbody u. unfold MakeNegativeCacheRecord. struct_simpl.
  cbn [cr_resrec rr_rdlength rr_rrtype]. split; [|lia]. destruct (kind_of_type (q_qtype q)); (done || lia).
Qed.
Lemma make_negative_spec fuel k m l q negttl g : receiving W (S k) m l → asked q → plain_type (q_qtype q) = true → finds m 0 (q_qname q) g →
  goes_on W fuel (make_negatives 0 fuel m q negttl (q_qname q) (q_qnamehash q) (q_qnamehash q mod CACHE_HASH_SLOTS) g) (fun m' => receiving W k m' l ∧ rec_free m').
Proof.
  intros Hr Hq Ht Hg. destruct (negative_received m _ _ q negttl Hq (rc_storage _ _ _ _ Hr) Ht) as [Hrv Hst]. cbn [make_negatives]. cbv zeta.
  set (m1 := MakeNegativeCacheRecord _ _ _ _ _ _) in *. assert (receiving W (S k) m1 l) as Hr1 by by apply receiving_rec.
  eapply goes_bind; [exact (create_goes_on W fuel k m1 l g Hr1 Hrv Hg)|]. intros [m2 r] [Hr2 _]. apply goes_ret. split; [by apply receiving_clear|done].
Qed.
Lemma negative_entry_spec fuel k m msg ptr e iid q : packet_ok msg e → receiving W (S k) m [] → asked q → plain_type (q_qtype q) = true →
  goes_on W fuel (negative_entry fuel m msg ptr e iid uDNS_LLQ_Not q) (fun '(m', _) => receiving W k m' [] ∧ (rec_free m → rec_free m')).
Proof.
  intros Hpo Hr Hq Ht. destruct (receiving_inv _ _ _ Hr) as (P & N & L & M & Hi). pose proof (iv_cache Hi) as Hw.
  destruct (members_found m _ _ Hw Hq) as (g & h & rs & Hs & Hg & Hfi & Hm & Hch & _ & Hfu). unfold negative_entry.
  rewrite Hs. cbn [obind]. rewrite Hg. cbn [obind]. rewrite Hm. cbn [obind].
  destruct (find_negative_total q m rs Hw (list_fuel m) h 0 Hch Hfu) as (r & neg & -> & Hneg); [by left|]. cbn [obind].
  assert (∀ m', receiving W (S k) m' [] → receiving W k m' []) as Hless by (intros m' ?; apply (receiving_less W (S k)); [done|lia]).
  destruct (negb (r =? 0)); [apply goes_ret; by auto|]. assert (q_qtype q ≠ kDNSType_SOA) as Hsoa by by intros He; rewrite He in Ht.
  destruct (soa_minimum_spec (S k) m [] msg ptr e iid q Hpo Hr Hsoa) as (m1 & o & negttl & -> & Hr1 & Hfr & HE1). cbn [obind].
  destruct (Z.eqb_spec neg 0) as [->|Hn0]; cbn [obind].
  - unfold finds in Hfi. rewrite <- HE1 in Hfi. change (Z.to_nat 0) with 0%nat. eapply goes_bind; [exact (make_negative_spec fuel k m1 [] q (GetEffectiveTTL uDNS_LLQ_Not negttl) g Hr1 Hq Ht Hfi)|].
    intros m2 [Hr2 Hfr2]. by apply goes_ret.
  - destruct Hneg as [|[cr Hcr]]; [done|]. rewrite <- HE1 in Hcr. pose proof (good_wf _ _ _ (rd_good _ (rc_ready _ _ _ _ Hr1))) as Hw1.
    rewrite (get_rec_at Hw1 neg cr Hcr). cbn [obind]. unfold RefreshCacheRecord.
    match goal with |- context [set_rec m1 neg ?f] => destruct (set_times_updated m1 neg cr f [] (rc_ready _ _ _ _ Hr1) (rc_flush _ _ _ _ Hr1) Hcr) as (m2 & -> & Hf2 & Hu2) end; [done|done|].
    cbn [obind]. apply goes_ret. split; [apply Hless; by eapply receiving_updated|].
    intros Hz%Hfr. unfold rec_free in *. rewrite <- Hz. exact (f_equal (fun rec => rr_RecordType (cr_resrec rec)) (up_rec _ _ Hu2)).
Qed.

(** ** The whole packet *)
(** The question of the packet, if there is one, asks for a plain type. *)
Definition question_plain (msg : list Z) (e iid : Z) : bool :=
  match getQuestion msg off_data e iid with Ret (q, Some _) => plain_type (q_qtype q) | _ => true end.
Lemma negative_entries_spec n fuel m msg e iid dstaddr dstport id : packet_ok msg e → (n ≤ 1)%nat → question_plain msg e iid = true →
  receiving W n m [] → goes_on W fuel (negative_entries n fuel m msg (Some off_data) e iid uDNS_LLQ_Not dstaddr dstport id)
    (fun m' => receiving W 0 m' [] ∧ (rec_free m → rec_free m')).
Proof.
  intros Hpo Hn Hpl Hr. destruct n as [|[|n]]; [by apply goes_ret| |lia]. cbn [negative_entries].
  assert (receiving W 0 m []) as Hr0 by (apply (receiving_less W 1); [done|lia]). destruct (off_data <? e); cbn [negb]; [|by apply goes_ret].
  unfold question_plain in Hpl. destruct (getQuestion_total msg off_data e iid Hpo) as (q & o & Hrun & Hq). rewrite Hrun in *. cbn [obind].
  destruct o as [x|]; cbn [obind]; [|by apply goes_ret]. destruct (receiving_inv _ _ _ Hr) as (P & N & L & M & Hi).
  destruct (expecting_packet_total P N L M m dstaddr dstport id q Hi (proj1 Hq)) as [b ->]. cbn [obind]. destruct b; cbn [obind]; [|by apply goes_ret].
  eapply goes_bind; [exact (negative_entry_spec fuel 0 m msg (Some x) e iid q Hpo Hr (proj1 Hq) Hpl)|]. intros [m1 o] [Hr1 Hfr]. by apply goes_ret.
Qed.
Lemma flush_all k m l : receiving W k m l → ∃ m', flush_records (list_fuel m) m (hd cf_end l) = Ret m' ∧ receiving W k m' [] ∧ (rec_free m → rec_free m').
Proof.
  intros [Hrd Hf Hs Hz Hk]. destruct (flush_records_spec l (list_fuel m) m Hrd Hf) as (m' & -> & Hrd' & Hf' & Hsr & Hfr & Hsz); [by apply flushing_fuel|].
  exists m'. split; [done|]. split; [split; [done|done|by eapply storage_same|by rewrite Hsz|by rewrite Hfr]|]. unfold rec_free. intros <-. exact (f_equal (fun rec => rr_RecordType (cr_resrec rec)) Hsr).
Qed.

(** What is asked of the packet: it is in memory, its records have a class
    other than ANY, it has at most one question, and that asks for a plain type. *)
Definition count_of (msg : list Z) (off : Z) : Z := match get16 msg off with Ret n => n | _ => 0 end.
Definition records_of (msg : list Z) : Z := count_of msg off_numAnswers + count_of msg off_numAuthorities + count_of msg off_numAdditionals.
Definition classes_plain (msg : list Z) (e : Z) : bool :=
  match LocateAnswers msg e with Ret (Some p) => plain_records (Z.to_nat (records_of msg)) msg p e | _ => true end.
Record acceptable (msg : list Z) (e iid : Z) : Prop := {
  ac_packet : packet_ok msg e;
  ac_questions : count_of msg off_numQuestions ≤ 1;
  ac_question : question_plain msg e iid = true;
  ac_classes : classes_plain msg e = true
}.
Lemma count_get msg off : bytes_ok msg → 0 ≤ off → off + 2 ≤ zlen msg → get16 msg off = Ret (count_of msg off) ∧ 0 ≤ count_of msg off.
Proof.
  intros Hb Hp Hl. unfold count_of. destruct (get16_ok msg off Hp Hl) as [v Hv]. rewrite Hv. split; [done|]. revert Hv. unfold get16.
  destruct (aget_ok msg off) as (x & -> & Hx); [lia|]. destruct (aget_ok msg (off + 1)) as (y & -> & Hy); [lia|]. cbn [obind]. intros [= <-].
  pose proof (bytes_ok_at _ _ _ Hb Hx). pose proof (bytes_ok_at _ _ _ Hb Hy). lia.
Qed.

(** Where the records start: the way over the questions is the same whether they are read or skipped. *)
Lemma skip_one msg e : get16 msg off_numQuestions = Ret 1 → LocateAnswers msg e = skipQuestion msg off_data e.
Proof.
  intros Hg. unfold LocateAnswers. rewrite Hg. cbn [obind]. change (Z.to_nat 1) with 1%nat. cbn [skip_questions].
  destruct (skipQuestion msg off_data e) as [o|]; [|done]. cbn [obind]. by destruct o.
Qed.
Lemma find_records_spec k m (skip : bool) msg e iid dstaddr dstport id : packet_ok msg e → count_of msg off_numQuestions ≤ 1 → receiving W k m [] →
  ∃ m' o, (if skip then let* ptr := LocateAnswers msg e in Ret (m, ptr)
           else mark_questions (Z.to_nat (count_of msg off_numQuestions)) m msg (Some off_data) e iid dstaddr dstport id) = Ret (m', o) ∧
    receiving W k m' [] ∧ own m' = own m ∧ ∀ x, o = Some x → x < e → LocateAnswers msg e = Ret (Some x).
Proof.
  intros Hpo Hn Hr. pose proof Hpo as [Hb He Hm Hh]. destruct (count_get msg off_numQuestions Hb) as [Hg Hn0]; [done|unfold off_numQuestions; lia|].
  destruct skip.
  { destruct (safe_elim _ _ (LocateAnswers_total msg e Hb Hm Hh)) as (o & -> & _). cbn [obind]. exists m, o. split_and!; try done. by intros x ->. }
  assert (count_of msg off_numQuestions = 0 ∨ count_of msg off_numQuestions = 1) as [Hc|Hc] by lia; rewrite Hc in *.
  - exists m, (Some off_data). split_and!; try done. intros x [= <-] _. unfold LocateAnswers. by rewrite Hg.
  - change (Z.to_nat 1) with 1%nat. destruct (mark_question_spec msg e iid dstaddr dstport id m k off_data Hpo Hr) as (m1 & o & -> & Hr1 & Ho & Hx). exists m1, o. split_and!; try done.
    intros x He' Hlt. rewrite skip_one by done. by apply Hx.
Qed.

(** There is memory for every record and question of the packet: the client
    has memory for rdata and names, and two entities are free, for a group and
    a record. *)
Definition roomy m (msg : list Z) : Prop :=
  plenty ∧ 2 * (records_of msg + count_of msg off_numQuestions) ≤ count is_free (m_ents m).
End Response.


(** A response from 10.0.0.1 to the multicast address that repeats the
    question for [b.local] and has an address for [a.local], with the
    cache-flush bit. *)
Definition response_packet : list Z :=
  [0; 0; 132; 0; 1; 0; 1; 0; 0; 0; 0; 0] ++ b_local ++ [0; 1; 0; 1] ++ a_local ++ [0; 1; 128; 1; 0; 0; 0; 120; 0; 4; 10; 0; 0; 1] ++ replicate 22 0.
Definition response_source : mDNSAddr := mkAddr mDNSAddrType_IPv4 [10; 0; 0; 1].
Definition response_target : mDNSAddr := mkAddr mDNSAddrType_IPv4 AllDNSLinkGroup_v4.
(** The state in the morning, with the storage for a packet record empty. *)
Definition busy_listening : mDNS :=
  busy_morning <| m_rec := (m_rec busy_morning) <| cr_resrec := (cr_resrec (m_rec busy_morning)) <| rr_RecordType := 0 |> <| rr_rdata := replicate (Z.to_nat MaximumRDSize) 0 |> |> |>.
Lemma listening_ready : ready busy_listening.
Proof. apply ready_rec, morning_ready. Qed.
Lemma listening_flushed : flushing (m_ents busy_listening) [].
Proof.
  split; [constructor|]. split; [apply not_elem_of_nil|]. intros r. unfold cf_link. simpl link_in.
  assert (map_Forall (fun _ e => match e with ERecord cr => cr_NextInCFList cr | _ => 0 end = 0) (m_ents busy_listening)) as Hm by (refine (bool_decide_eq_true_1 _ _); vm_compute; reflexivity).
  destruct (m_ents busy_listening !! r) as [e|] eqn:He; [|reflexivity]. pose proof (Hm r e He) as Hz. by destruct e.
Qed.
Lemma listening_storage : storage_ok busy_listening.
Proof.
  split; [|split; vm_compute; discriminate]. split; [|split; [vm_compute; reflexivity|split; [done|vm_compute; reflexivity]]].
  apply bytes_okb_ok. vm_compute. reflexivity.
Qed.
Lemma response_acceptable : acceptable response_packet 48 0.
Proof.
  split; [split|..]; try (vm_compute; (reflexivity || discriminate)). apply bytes_okb_ok. vm_compute. reflexivity.
Qed.
(** There is room, so that the response is received. *)
Definition busy_heard : mDNS :=
  get_ret busy_listening (mDNSCoreReceiveResponse (H := small_platform busy_client) 0 busy_listening response_packet 48 (Some response_source) (Some response_target) 5353 0).
Lemma listening_heard : mDNSCoreReceiveResponse (H := small_platform busy_client) 0 busy_listening response_packet 48 (Some response_source) (Some response_target) 5353 0 = Ret busy_heard.
Proof. vm_compute. reflexivity. Qed.
Lemma heard_result f (run : outcome mDNS) m' (R : mDNS → Prop) (C D : Prop) : (∃ m1, run = Ret m1 ∧ R m1) ∨ (run = Fault f ∧ C ∧ D) → run = Ret m' → R m'.
Proof. intros [(m1 & Hm1 & HR)|[Hf _]] Hrun; [|congruence]. rewrite Hrun in Hm1. by injection Hm1 as ->. Qed.
