(* ===== verification/MDNSTimes.v ===== *)
(** When records are looked at again, and how long they live:
    [SetNextCacheCheckTime], [GetEffectiveTTL] and the flush at the end of a
    response.

    Times are 32-bit counters of ticks that wrap around, so they are compared
    by the sign of their difference; the theorems are about such
    differences. *)
From S2P Require Import Prelude Bytes DNSTypes DNSName DNSRecord DNSMessage MDNSTypes MDNSCache MDNSQuestion MDNSAnswer MDNSReceive MDNSList MDNSInv MDNSPool MDNSRecycle MDNSGet MDNSQInv MDNSStart MDNSStop MDNSClient MDNSVolatile MDNSWalk MDNSExpire MDNSCreate MDNSPacket MDNSInit MDNSNew MDNSSpec MDNSFlush.

Implicit Types (m : mDNS) (r : Z) (cr : CacheRecord).

Lemma s32_sub_l a b : s32 (s32 a - b) = s32 (a - b).
Proof. rewrite <- Z.add_opp_r, s32_add_l. by rewrite Z.add_opp_r. Qed.

Section Times.
Context `{PlatformOk}.

Lemma ticks_exact cr : 0 ≤ rr_rroriginalttl (cr_resrec cr) → rr_rroriginalttl (cr_resrec cr) * one_second ≤ 0x7FFFFFFF →
  TicksTTL cr = rr_rroriginalttl (cr_resrec cr) * one_second.
Proof.
  intros H0' H1. pose proof one_second_range as Hs. unfold TicksTTL. rewrite (s32_id (rr_rroriginalttl _)); [|nia]. apply s32_id. nia.
Qed.
(** How far into its life a record is queried for, in ticks. *)
Definition in_window cr (T d : Z) : Prop :=
  let u := cr_UnansweredQueries cr in
  if negb (cr_CRActiveQuestion cr =? 0) && (u <? MaxUnansweredQueries)
  then (80 + 5 * u) * T ≤ 100 * d ∧ 100 * d ≤ (82 + 5 * u) * T + 95 * (4 - u) ∧ d ≤ T else d = T.

(** The time of the next query, computed on the circle of 32-bit times. *)
Lemma active_distance t T u x : 0 ≤ T ≤ 0x70000000 → 0 ≤ u < 4 → 0 ≤ x ≤ T / 50 →
  let d := s32 (s32 (s32 (s32 (t + T) - T / 20 * (4 - u)) + x) - t) in
  (80 + 5 * u) * T ≤ 100 * d ∧ 100 * d ≤ (82 + 5 * u) * T + 95 * (4 - u) ∧ d ≤ T.
Proof.
  intros HT Hu Hx d. assert (d = T - T / 20 * (4 - u) + x) as ->.
  { unfold d. rewrite s32_sub_l, <- Z.add_sub_assoc, s32_add_l, Z.add_sub_assoc. rewrite <- (Z.add_sub_assoc (s32 _ - _)), <- Z.add_opp_r, <- Z.add_assoc, s32_add_l.
    replace (t + T + _) with (T - T / 20 * (4 - u) + x) by lia. apply s32_id.
    pose proof (Z.mul_div_le T 20). pose proof (Z.mul_div_le T 50). assert (0 ≤ T / 20) by (apply Z.div_pos; lia). nia. }
  pose proof (Z.mul_div_le T 20 ltac:(lia)). pose proof (Z.mul_div_le T 50 ltac:(lia)). pose proof (Z.mul_succ_div_gt T 20 ltac:(lia)).
  assert (0 ≤ T / 20) by (apply Z.div_pos; lia). split_and!; nia.
Qed.
Lemma next_query_time m cr : 0 ≤ cr_UnansweredQueries cr → let T := TicksTTL cr in 0 ≤ T ≤ 0x70000000 →
  let cr0 := cr <| cr_NextRequiredQuery := RRExpireTime cr |> in
  ∃ m1 x, (if negb (cr_CRActiveQuestion cr0 =? 0) && (cr_UnansweredQueries cr0 <? MaxUnansweredQueries) then
      let cr1 := cr0 <| cr_NextRequiredQuery := s32 (cr_NextRequiredQuery cr0 - Z.quot (TicksTTL cr0) 20 * (MaxUnansweredQueries - cr_UnansweredQueries cr0)) |> in
      let '(m, x) := random m (u32 (TicksTTL cr1) / 50) in (m, cr1 <| cr_NextRequiredQuery := s32 (cr_NextRequiredQuery cr1 + x) |>)
    else (m, cr0)) = (m1, cr <| cr_NextRequiredQuery := x |>) ∧ m_ents m1 = m_ents m ∧ in_window cr T (s32 (x - cr_TimeRcvd cr)).
Proof.
  intros Hu T HT cr0. unfold in_window. change (cr_CRActiveQuestion cr0) with (cr_CRActiveQuestion cr). change (cr_UnansweredQueries cr0) with (cr_UnansweredQueries cr).
  destruct (negb _ && _) eqn:Hact; cbv zeta.
  - apply andb_true_iff in Hact as [_ Hlt%Z.ltb_lt]. unfold MaxUnansweredQueries in *. unfold random. destruct (mDNSRandom_ (m_seed m) _) as [x sd] eqn:Hrnd.
    eexists _, _. split; [by destruct cr|]. split; [done|]. change (TicksTTL _) with T in Hrnd.
    pose proof (random_range (m_seed m) (u32 T / 50)) as Hx. rewrite Hrnd in Hx. simpl in Hx. rewrite u32_id in Hx by lia.
    struct_simpl. change (TicksTTL cr0) with T. rewrite (Z.quot_div_nonneg T 20) by lia. unfold cr0. struct_simpl. unfold RRExpireTime. fold T.
    apply active_distance; [done|lia|]. apply Hx, Z.div_pos; lia.
  - eexists _, _. split; [done|]. split; [done|]. unfold RRExpireTime. fold T. rewrite s32_sub_l. replace (cr_TimeRcvd cr + T - cr_TimeRcvd cr) with T by lia. apply s32_id. lia.
Qed.
End Times.

(** C24. A record that answers an active question is queried for again at 80, 85,
    90 and 95 percent of its lifetime, depending on how many queries were
    left unanswered, spread over two percent; one that answers none, or has
    had four unanswered queries, when it expires.  This does not depend on
    where the 32-bit clock stands.  The next check of the cache is set no
    later than that time with the grace period of the record, or than the
    time at which the record is to be delivered. *)
Theorem next_query_window `{PlatformOk} m r cr : cache_wf 0 0 m → m_ents m !! r = Some (ERecord cr) →
  0 ≤ rr_rroriginalttl (cr_resrec cr) → 0 ≤ cr_UnansweredQueries cr → let T := rr_rroriginalttl (cr_resrec cr) * one_second in T ≤ 0x70000000 →
  ∃ m' cr', SetNextCacheCheckTime m r = Ret m' ∧ m_ents m' !! r = Some (ERecord cr') ∧
    in_window cr T (s32 (cr_NextRequiredQuery cr' - cr_TimeRcvd cr)) ∧
    (if cr_DelayDelivery cr =? 0 then s32 (m_NextCacheCheck m' - s32 (cr_NextRequiredQuery cr' + CacheCheckGracePeriod cr')) ≤ 0
     else s32 (m_NextCacheCheck m' - cr_DelayDelivery cr) ≤ 0).
Proof.
  intros Hw Hr Httl Hu T HT. pose proof one_second_range as Hs. assert (TicksTTL cr = T) as HTt by (apply ticks_exact; [done|fold T; lia]).
  assert (0 ≤ T) as HT0 by (unfold T; nia). unfold SetNextCacheCheckTime. rewrite (get_rec_at Hw r cr Hr). cbn [obind]. cbv zeta.
  destruct (next_query_time m cr Hu ltac:(rewrite HTt; lia)) as (m1 & x & Hrun & HE & Hwin). cbv zeta in Hrun. rewrite Hrun. rewrite HTt in Hwin.
  assert (set_rec m1 r (fun _ => cr <| cr_NextRequiredQuery := x |>) = Ret (put_entity m1 r (ERecord (cr <| cr_NextRequiredQuery := x |>)))) as ->.
  { unfold set_rec, get_rec, entity. rewrite (rec_ptr_ne Hw r _ Hr), HE, Hr. done. }
  cbn [obind]. eexists _, (cr <| cr_NextRequiredQuery := x |>). split; [done|].
  change (CacheCheckGracePeriod (cr <| cr_NextRequiredQuery := x |>)) with (CacheCheckGracePeriod cr). struct_simpl. set (due := s32 (x + CacheCheckGracePeriod cr)). set (m2 := put_entity m1 r _).
  assert (m_ents m2 !! r = Some (ERecord (cr <| cr_NextRequiredQuery := x |>))) as Hr2 by (unfold m2; rewrite put_entity_ents; apply lookup_insert_eq).
  clearbody m2. assert (∀ y, s32 (y - y) = 0) as Hzero by (intros y; by rewrite Z.sub_diag). split; [|split; [done|]].
  - by repeat match goal with |- context [if ?b then _ else _] => destruct b end.
  - destruct (Z.ltb_spec 0 (s32 (m_NextCacheCheck m2 - due))), (Z.eqb_spec (cr_DelayDelivery cr) 0); cbn [negb andb]; struct_simpl; rewrite ?Hzero; try lia.
    + destruct (Z.ltb_spec 0 (s32 (due - cr_DelayDelivery cr))); struct_simpl; rewrite ?Hzero; lia.
    + destruct (Z.ltb_spec 0 (s32 (m_NextCacheCheck m2 - cr_DelayDelivery cr))); struct_simpl; rewrite ?Hzero; lia.
Qed.
(** The record of [busy_morning], which answers the question at 10. *)
Definition morning_record : CacheRecord := match m_ents busy_morning !! 1001 with Some (ERecord cr) => cr | _ => zero_record end.
Lemma next_query_window_witness : cache_wf 0 0 busy_morning ∧ m_ents busy_morning !! 1001 = Some (ERecord morning_record) ∧
  ∃ m' cr', SetNextCacheCheckTime (H := small_platform busy_client) busy_morning 1001 = Ret m' ∧ m_ents m' !! 1001 = Some (ERecord cr') ∧
    in_window morning_record (rr_rroriginalttl (cr_resrec morning_record) * 1000) (s32 (cr_NextRequiredQuery cr' - cr_TimeRcvd morning_record)) ∧
    (if cr_DelayDelivery morning_record =? 0
     then s32 (m_NextCacheCheck m' - s32 (cr_NextRequiredQuery cr' + CacheCheckGracePeriod (H := small_platform busy_client) cr')) ≤ 0
     else s32 (m_NextCacheCheck m' - cr_DelayDelivery morning_record) ≤ 0).
Proof.
  pose proof (good_wf _ _ _ (rd_good _ morning_ready)) as Hw.
  assert (m_ents busy_morning !! 1001 = Some (ERecord morning_record)) as Hr by (vm_compute; reflexivity).
  split; [exact Hw|]. split; [exact Hr|].
  apply (next_query_window (H := small_platform busy_client) busy_morning 1001 morning_record Hw Hr); vm_compute; discriminate.
Defined.

(** ** Lifetimes of records of wide-area DNS *)
(** C39. The lifetime [GetEffectiveTTL] gives a record is the one of the packet
    and a quarter more, at least fifteen seconds, without overflow of the
    32-bit number of seconds.  But the largest lifetime that reading a record
    lets through, extended in this way, is too long to be counted in ticks:
    the record expires before it was received. *)
Theorem effective_ttl_overflows `{PlatformOk} ttl cap cr : is_u32 ttl → max_ttl one_second = Ret cap →
  rr_rroriginalttl (cr_resrec cr) = GetEffectiveTTL uDNS_LLQ_Not cap →
  (let e := GetEffectiveTTL uDNS_LLQ_Not ttl in e = Z.max 15 (Z.min ttl 0x8000000 + Z.min ttl 0x8000000 / 4 + 2) ∧ 15 ≤ e < 0x10000000) ∧ TicksTTL cr < 0.
Proof.
  intros Hu Hcap Hcr. pose proof one_second_range as Hs. split.
  - unfold GetEffectiveTTL. assert ((if 0x8000000 <? ttl then 0x8000000 else ttl) = Z.min ttl 0x8000000) as -> by (destruct (Z.ltb_spec 0x8000000 ttl); lia).
    set (n := Z.min ttl 0x8000000). assert (0 ≤ n ≤ 0x8000000) as Hn by lia. assert (0 ≤ n / 4 ≤ 0x2000000) as Hq by (split; [apply Z.div_pos; lia|apply Z.div_le_upper_bound; lia]).
    rewrite u32_id by lia. destruct (Z.ltb_spec (n + (n / 4 + 2)) 15); lia.
  - unfold max_ttl in Hcap. rewrite (proj2 (Z.eqb_neq _ _)) in Hcap by lia. injection Hcap as <-.
    assert (0 < one_second) as Hpos by lia. set (c := 0x70000000 / one_second) in *.
    pose proof (Z.mul_div_le 0x70000000 one_second Hpos) as H1. pose proof (Z.mul_succ_div_gt 0x70000000 one_second Hpos) as H2.
    fold c in H1, H2. assert (112 ≤ c) as Hc1 by (apply Z.div_le_lower_bound; lia). assert (c ≤ 37580964) as Hc2 by (apply Z.div_le_upper_bound; lia). clearbody c.
    pose proof (Z.mul_div_le c 4 ltac:(lia)) as H3. pose proof (Z.mul_succ_div_gt c 4 ltac:(lia)) as H4.
    unfold TicksTTL. rewrite Hcr. unfold GetEffectiveTTL. cbv zeta. rewrite (proj2 (Z.ltb_ge 0x8000000 c)) by lia. rewrite (u32_id (c + (c / 4 + 2))) by lia.
    rewrite (proj2 (Z.ltb_ge (c + (c / 4 + 2)) 15)) by lia.
    rewrite (s32_id (c + (c / 4 + 2))) by lia. set (k := c / 4) in *. clearbody k. rewrite s32_high; nia.
Qed.
Lemma effective_ttl_overflows_witness : let cr := (address_record a_local 2348812 blank_state) in
  max_ttl 1000 = Ret 1879048 ∧ rr_rroriginalttl (cr_resrec cr) = GetEffectiveTTL uDNS_LLQ_Not 1879048 ∧
  (let e := GetEffectiveTTL uDNS_LLQ_Not 120 in e = Z.max 15 (Z.min 120 0x8000000 + Z.min 120 0x8000000 / 4 + 2) ∧ 15 ≤ e < 0x10000000) ∧
  TicksTTL (H := small_platform busy_client) cr < 0.
Proof.
  cbv zeta. split; [reflexivity|]. split; [reflexivity|].
  exact (effective_ttl_overflows (H := small_platform busy_client) 120 1879048 (address_record a_local 2348812 blank_state) ltac:(lia) eq_refl eq_refl).
Defined.

(** ** The flush *)
Definition remaining `{Platform} m cr : Z := s32 (RRExpireTime cr - m_timenow m).
Definition signature cr : Z * Z * Z := (rr_InterfaceID (cr_resrec cr), rr_rrtype (cr_resrec cr), rr_rrclass (cr_resrec cr)).
Definition ttl_of cr : Z := rr_rroriginalttl (cr_resrec cr).
(** The lifetime can be counted in ticks. *)
Definition lasting `{Platform} cr : Prop := 0 ≤ ttl_of cr ∧ ttl_of cr * one_second ≤ 0x7FFFFFFF.
(** Received less than a second ago, with more than a second to live. *)
Definition fresh `{Platform} m cr : bool := (s32 (m_timenow m - cr_TimeRcvd cr) <? one_second) && (one_second <? remaining m cr).
(** The lifetime and the time of reception of [c2] after the flush for [c1]. *)
Definition flushed_life `{Platform} m c1 c2 : Z * Z :=
  if negb (bool_decide (signature c1 = signature c2)) then (ttl_of c2, cr_TimeRcvd c2) else
  if fresh m c2 then (if 1 <? ttl_of c1 then ttl_of c1 else ttl_of c2, m_timenow m) else
  if (cr_TimeRcvd c2 =? m_timenow m) && (ttl_of c2 <=? 1) && (cr_UnansweredQueries c2 =? MaxUnansweredQueries) then (0, cr_TimeRcvd c2) else
  if one_second <? remaining m c2 then (1, s32 (m_timenow m - 1)) else (ttl_of c2, cr_TimeRcvd c2).

Section Flush.
Context `{PlatformOk}.

Lemma check_time_frame m r cr : cache_wf 0 0 m → m_ents m !! r = Some (ERecord cr) → ∃ m' n, SetNextCacheCheckTime m r = Ret m' ∧
  m_timenow m' = m_timenow m ∧ m_ents m' = <[r := ERecord (cr <| cr_NextRequiredQuery := n |>)]> (m_ents m).
Proof.
  intros Hw Hr. unfold SetNextCacheCheckTime. rewrite (get_rec_at Hw r cr Hr). cbn [obind]. cbv zeta.
  match goal with |- context [let '(_, _) := ?x in _] => assert (∃ m1 n, x = (m1, cr <| cr_NextRequiredQuery := n |>) ∧ m_timenow m1 = m_timenow m ∧ m_ents m1 = m_ents m) as (m1 & n & -> & Ht & HE) end.
  { destruct (_ && _); [|by eexists _, _]. unfold random. destruct (mDNSRandom_ _ _) as [x sd]. by eexists _, _. }
  assert (set_rec m1 r (fun _ => cr <| cr_NextRequiredQuery := n |>) = Ret (put_entity m1 r (ERecord (cr <| cr_NextRequiredQuery := n |>)))) as ->.
  { unfold set_rec, get_rec, entity. rewrite (rec_ptr_ne Hw r _ Hr), HE, Hr. done. }
  cbn [obind]. eexists _, n. split; [done|]. rewrite <- HE.
  repeat match goal with |- context [if ?b then _ else _] => destruct b end; split; struct_simpl; rewrite ?put_entity_ents; try done.
Qed.

(** The record [r], which was [c], gets the life [life] and keeps its signature. *)
Definition lives m r c (life : Z * Z) m' : Prop := ∃ c', m_ents m' = <[r := ERecord c']> (m_ents m) ∧ m_timenow m' = m_timenow m ∧
  signature c' = signature c ∧ cr_next c' = cr_next c ∧ cr_group c' = cr_group c ∧ (ttl_of c', cr_TimeRcvd c') = life.
Lemma set_life m r c f : cache_wf 0 0 m → m_ents m !! r = Some (ERecord c) → signature (f c) = signature c →
  strip_rec (f c) = strip_rec c → cr_CRActiveQuestion (f c) = cr_CRActiveQuestion c →
  ∃ m', set_rec m r f = Ret m' ∧ cache_wf 0 0 m' ∧ lives m r c (ttl_of (f c), cr_TimeRcvd (f c)) m'.
Proof.
  intros Hw Hr Hsig Hs Hq. destruct (set_rec_vol 0 0 m r c f Hw Hr Hs Hq) as (m' & Hrun & Hv & _). exists m'. split; [done|]. split; [by eapply vol_wf|].
  rewrite (set_rec_at Hw r c f Hr) in Hrun. injection Hrun as <-. exists (f c). apply strip_rec_inv in Hs as (? & ? & _). by split_and!.
Qed.
Lemma lives_same m r c : m_ents m !! r = Some (ERecord c) → lives m r c (ttl_of c, cr_TimeRcvd c) m.
Proof. intros Hr. exists c. split_and!; try done. by rewrite insert_id. Qed.
Lemma flush_member_life m r1 c1 r2 c2 : cache_wf 0 0 m → m_ents m !! r1 = Some (ERecord c1) → m_ents m !! r2 = Some (ERecord c2) →
  ∃ m', flush_member r1 m r2 = Ret m' ∧ cache_wf 0 0 m' ∧ lives m r2 c2 (flushed_life m c1 c2) m' ∧ (signature c1 ≠ signature c2 → m' = m).
Proof.
  intros Hw Hr1 Hr2. unfold flush_member. rewrite (get_rec_at Hw r1 c1 Hr1). cbn [obind]. rewrite (get_rec_at Hw r2 c2 Hr2). cbn [obind].
  assert ((rr_InterfaceID (cr_resrec c1) =? rr_InterfaceID (cr_resrec c2)) && (rr_rrtype (cr_resrec c1) =? rr_rrtype (cr_resrec c2)) &&
    (rr_rrclass (cr_resrec c1) =? rr_rrclass (cr_resrec c2)) = bool_decide (signature c1 = signature c2)) as ->.
  { unfold signature. repeat match goal with |- context [?x =? ?y] => destruct (Z.eqb_spec x y) end; case_bool_decide; simpl; congruence. }
  unfold flushed_life. case_bool_decide as Hsig; cbn [negb]; [|by exists m; split_and!; try done; apply lives_same].
  match goal with |- context [let* m := ?s in SetNextCacheCheckTime m r2] => assert (∃ m1, s = Ret m1 ∧ cache_wf 0 0 m1 ∧ lives m r2 c2 (flushed_life m c1 c2) m1)
    as (m1 & -> & Hw1 & c & HE & Ht & Hs & Hn & Hg & Hl) end.
  { unfold flushed_life. rewrite (bool_decide_eq_true_2 _ Hsig). cbn [negb].
    fold (remaining m c2). fold (ttl_of c2). fold (ttl_of c1). fold (fresh m c2). destruct (fresh m c2).
    { match goal with |- context [set_rec m r2 ?f] => destruct (set_life m r2 c2 f Hw Hr2) as (m1 & -> & Hw1 & Hl) end; [by case_match|by case_match|by case_match|].
      exists m1. split; [done|]. split; [done|]. destruct (Z.eqb_spec (ttl_of c2) (ttl_of c1)) as [He|]; cbn [negb andb] in Hl; [|by destruct (1 <? ttl_of c1)].
      rewrite <- He. by destruct (1 <? ttl_of c2). }
    destruct (_ && _ && _).
    { match goal with |- context [set_rec m r2 ?f] => destruct (set_life m r2 c2 f Hw Hr2) as (m1 & -> & Hw1 & Hl) end; [done..|]. cbn [obind].
      eexists. split; [done|]. split; [by apply (same_cache_wf 0 0 m1)|done]. }
    destruct (_ <? _); [|by exists m; split_and!; try done; apply lives_same].
    match goal with |- context [set_rec m r2 ?f] => destruct (set_life m r2 c2 f Hw Hr2) as (m1 & -> & Hw1 & Hl) end; [done..|]. by exists m1. }
  cbn [obind]. assert (m_ents m1 !! r2 = Some (ERecord c)) as Hc by (rewrite HE; apply lookup_insert_eq).
  destruct (SetNextCacheCheckTime_vol 0 0 m1 r2 c Hw1 Hc) as (m' & _ & Hrun & Hv & _). destruct (check_time_frame m1 r2 c Hw1 Hc) as (m2 & n & Hrun' & Ht' & HE').
  rewrite Hrun in Hrun'. injection Hrun' as <-. exists m'. split; [done|]. split; [by eapply vol_wf|]. split; [|done].
  exists (c <| cr_NextRequiredQuery := n |>). split; [by rewrite HE', HE, insert_insert_eq|]. split_and!; try done; [congruence|].
  unfold flushed_life in Hl. by rewrite (bool_decide_eq_true_2 _ Hsig) in Hl.
Qed.

(** *** All the records of the name *)
Definition alike now c1 k : Prop := signature k = signature c1 ∧ cr_TimeRcvd k = now ∧ (ttl_of k = ttl_of c1 ∨ ttl_of k ≤ 1 ∧ ttl_of c1 ≤ 1).
Lemma flushed_alike m now c1 k c : alike now c1 k → flushed_life m k c = flushed_life m c1 c.
Proof.
  intros (Hs & _ & Ht). unfold flushed_life. rewrite Hs. destruct Ht as [->|[H1' H2']]; [done|].
  by rewrite (proj2 (Z.ltb_ge 1 (ttl_of k))), (proj2 (Z.ltb_ge 1 (ttl_of c1))) by done.
Qed.
Lemma alike_flushed m c1 k k' : alike (m_timenow m) c1 k → signature k' = signature k → (ttl_of k', cr_TimeRcvd k') = flushed_life m k k →
  alike (m_timenow m) c1 k'.
Proof.
  intros (Hs & Hr & Ht) Hs' Hl. unfold flushed_life in Hl. rewrite bool_decide_eq_true_2 in Hl by done. cbn [negb] in Hl. pose proof one_second_range as Hone.
  split; [congruence|]. unfold fresh in Hl. rewrite Hr, Z.sub_diag in Hl. change (s32 0) with 0 in Hl. rewrite (proj2 (Z.ltb_lt 0 one_second)) in Hl by lia. cbn [andb] in Hl.
  destruct (one_second <? remaining m k).
  { injection Hl as -> ->. split; [done|]. by destruct (1 <? ttl_of k). }
  destruct (Z.leb_spec (ttl_of k) 1) as [Hle|]; rewrite ?andb_true_r, ?andb_false_r in Hl; [|by injection Hl as -> ->].
  destruct (_ && _); injection Hl as -> ->; split; try done. right. lia.
Qed.
Lemma flush_walk r1 c1 rs : ∀ fuel m h k, cache_wf 0 0 m → m_ents m !! r1 = Some (ERecord k) → alike (m_timenow m) c1 k →
  chain (rec_next (m_ents m)) h rs → NoDup rs → (length rs < fuel)%nat →
  ∃ m', for_members fuel (flush_member r1) m h = Ret m' ∧ m_timenow m' = m_timenow m ∧
    ∀ x c, m_ents m !! x = Some (ERecord c) → ∃ c', m_ents m' !! x = Some (ERecord c') ∧
      (if bool_decide (x ∈ rs) then (ttl_of c', cr_TimeRcvd c') = flushed_life m c1 c else c' = c).
Proof.
  induction rs as [|r rs IH]; intros [|fuel] m h k Hw Hr1 Hk Hch Hnd Hf; simpl in Hf; try lia; cbn [for_members].
  { simpl in Hch. subst h. exists m. split; [done|]. split; [done|]. intros x c Hx. exists c. by rewrite bool_decide_eq_false_2 by apply not_elem_of_nil. }
  destruct Hch as (-> & Hr0 & n & (cr & Hr & <-)%rec_next_Some & Hrs). rewrite (proj2 (Z.eqb_neq r 0)) by done. apply NoDup_cons in Hnd as [Hrin Hnd].
  destruct (flush_member_life m r1 k r cr Hw Hr1 Hr) as (m1 & -> & Hw1 & (cr' & HE & Ht & Hs & Hn & _ & Hl) & _). cbn [obind].
  assert (m_ents m1 !! r = Some (ERecord cr')) as Hr' by (rewrite HE; apply lookup_insert_eq). rewrite (get_rec_at Hw1 r cr' Hr'). cbn [obind]. rewrite Hn.
  assert (∃ k', m_ents m1 !! r1 = Some (ERecord k') ∧ alike (m_timenow m1) c1 k') as (k' & Hk1 & Hk').
  { destruct (decide (r1 = r)) as [->|Hne]; [|exists k; rewrite HE, Ht; split; [by rewrite lookup_insert_ne|done]].
    exists cr'. split; [done|]. rewrite Ht. rewrite Hr in Hr1. injection Hr1 as ->. by eapply alike_flushed. }
  destruct (IH fuel m1 (cr_next cr) k' Hw1 Hk1 Hk') as (m' & -> & Ht' & Hx); [|done|lia|].
  { apply (lseg_ext (rec_next (m_ents m))); [|done]. intros y Hy. unfold rec_next. rewrite HE, lookup_insert_ne; [done|]. by intros ->. }
  exists m'. split; [done|]. split; [congruence|]. intros x c Hxc. destruct (decide (x = r)) as [->|Hne].
  - rewrite Hr in Hxc. injection Hxc as <-. destruct (Hx r cr' Hr') as (c' & Hc' & Hlc). exists c'. split; [done|].
    rewrite bool_decide_eq_false_2 in Hlc by done. subst c'. rewrite bool_decide_eq_true_2 by apply list_elem_of_here. rewrite Hl. by eapply flushed_alike.
  - destruct (Hx x c) as (c' & Hc' & Hlc); [by rewrite HE, lookup_insert_ne|]. exists c'. split; [done|].
    rewrite (bool_decide_ext (x ∈ r :: rs) (x ∈ rs)) by set_solver. case_bool_decide; [|done]. rewrite Hlc. unfold flushed_life, fresh, remaining. by rewrite Ht.
Qed.
Lemma remaining_exact m cr : lasting cr → remaining m cr = s32 (cr_TimeRcvd cr + ttl_of cr * one_second - m_timenow m).
Proof. intros [? ?]. unfold remaining, RRExpireTime. rewrite ticks_exact by done. apply s32_sub_l. Qed.
Lemma remaining_now m cr : lasting cr → cr_TimeRcvd cr = m_timenow m → remaining m cr = ttl_of cr * one_second.
Proof.
  intros Hl Ht. rewrite remaining_exact by done. rewrite Ht. replace (m_timenow m + _ - m_timenow m) with (ttl_of cr * one_second) by lia.
  destruct Hl. pose proof one_second_range. apply s32_id. nia.
Qed.
Lemma flushed_remaining m m' c1 c2 c2' : lasting c1 → lasting c2 → signature c2 = signature c1 → m_timenow m' = m_timenow m →
  (ttl_of c2', cr_TimeRcvd c2') = flushed_life m c1 c2 →
  if fresh m c2 then remaining m' c2' = (if 1 <? ttl_of c1 then ttl_of c1 else ttl_of c2) * one_second
  else remaining m' c2' ≤ Z.min (remaining m c2) one_second.
Proof.
  intros Hl1 Hl2 Hs Ht Hl. pose proof one_second_range as Hone. unfold flushed_life in Hl. rewrite bool_decide_eq_true_2 in Hl by done. cbn [negb] in Hl.
  destruct (fresh m c2) eqn:Hf.
  { injection Hl as Hl Hr. rewrite <- Hl, <- Ht in *. apply remaining_now; [|done]. unfold lasting in *. destruct (1 <? ttl_of c1); rewrite Hl; lia. }
  destruct (_ && _ && _) eqn:Hde.
  { apply andb_true_iff in Hde as [[Hr%Z.eqb_eq _]%andb_true_iff _]. injection Hl as Hl Hr'. rewrite (remaining_now m c2) by done.
    rewrite remaining_now; [|unfold lasting; rewrite Hl; lia|congruence]. rewrite Hl. destruct Hl2. nia. }
  destruct (Z.ltb_spec one_second (remaining m c2)) as [Hgt|Hle].
  - injection Hl as Hl Hr. rewrite remaining_exact by (unfold lasting; rewrite Hl; lia). rewrite Hl, Hr, Ht.
    replace (s32 (m_timenow m - 1) + 1 * one_second - m_timenow m) with (s32 (m_timenow m - 1) + (one_second - m_timenow m)) by lia.
    rewrite s32_add_l. replace (m_timenow m - 1 + (one_second - m_timenow m)) with (one_second - 1) by lia. rewrite s32_id; lia.
  - injection Hl as Hl Hr. assert (remaining m' c2' = remaining m c2) as ->; [|lia]. rewrite !remaining_exact; [|done|unfold lasting; by rewrite Hl]. congruence.
Qed.
End Flush.

(** A goodbye that carries the cache-flush bit, for a record that was given
    its last second just now, is on its own list, and loses that second. *)
Lemma goodbye_flushed `{PlatformOk} m r cr : cache_wf 0 0 m → m_ents m !! r = Some (ERecord cr) → cr_TimeRcvd cr = m_timenow m → ttl_of cr = 1 →
  cr_UnansweredQueries cr = MaxUnansweredQueries → ∃ m' cr', flush_member r m r = Ret m' ∧ m_ents m' !! r = Some (ERecord cr') ∧ remaining m' cr' = 0.
Proof.
  intros Hw Hr Ht Hl Hu. destruct (flush_member_life m r cr r cr Hw Hr Hr) as (m' & Hrun & _ & (cr' & HE & Ht' & _ & _ & _ & Hlife) & _).
  exists m', cr'. split; [done|]. split; [rewrite HE; apply lookup_insert_eq|]. pose proof one_second_range as Hone.
  unfold flushed_life in Hlife. rewrite bool_decide_eq_true_2 in Hlife by done. cbn [negb] in Hlife.
  assert (remaining m cr = one_second) as Hrem by (rewrite remaining_now, Hl; [lia|unfold lasting; rewrite Hl; lia|done]).
  unfold fresh in Hlife. rewrite Hrem, Z.ltb_irrefl, andb_false_r, Ht, Hl, Hu, Z.eqb_refl in Hlife. cbn in Hlife. injection Hlife as Hl0 Hr0.
  rewrite remaining_now; [by rewrite Hl0|unfold lasting; rewrite Hl0; lia|congruence].
Qed.

(** C17. The flush for a record that has just been received with the cache-flush
    bit.  Of the records of the same name, type, class and interface, those
    received less than a second ago with more than a second to live get the
    lifetime of the new one, counted from now, be it shorter or longer (unless
    it is a goodbye); all the others expire within a second, and no later than
    they would have.  The lives of other records are left alone. *)
Theorem flush_set_lives `{PlatformOk} m r1 c1 : cache_wf 0 0 m → m_ents m !! r1 = Some (ERecord c1) → cr_TimeRcvd c1 = m_timenow m → lasting c1 →
  ∃ h m', members_of m (cr_group c1) = Ret h ∧ for_members (list_fuel m) (flush_member r1) m h = Ret m' ∧
    ∀ r2 c2, m_ents m !! r2 = Some (ERecord c2) → ∃ c2', m_ents m' !! r2 = Some (ERecord c2') ∧
      if bool_decide (cr_group c2 = cr_group c1 ∧ signature c2 = signature c1) then
        lasting c2 → if fresh m c2 then remaining m' c2' = (if 1 <? ttl_of c1 then ttl_of c1 else ttl_of c2) * one_second
                     else remaining m' c2' ≤ Z.min (remaining m c2) one_second
      else ttl_of c2' = ttl_of c2 ∧ cr_TimeRcvd c2' = cr_TimeRcvd c2.
Proof.
  intros Hw Hr1 Ht Hl1. destruct (cw_rec Hw r1 c1 Hr1 (wf_nonzero _ _ _ _ _ Hw Hr1)) as (cg & Hcg & Hg0 & _).
  destruct (wf_members Hw _ cg Hcg Hg0) as (rs & Hch & Hin & _). exists (cg_members cg).
  destruct (flush_walk r1 c1 rs (list_fuel m) m (cg_members cg) c1 Hw Hr1) as (m' & Hrun & Ht' & Hx); [by split_and!; auto|done|by eapply chain_NoDup|by eapply wf_fuel|].
  exists m'. split; [|split; [done|]].
  { unfold members_of. rewrite (proj2 (Z.eqb_neq _ 0)) by done. by rewrite (get_group_at _ _ Hcg). }
  intros r2 c2 Hr2. destruct (Hx r2 c2 Hr2) as (c2' & Hr2' & Hl). exists c2'. split; [done|]. pose proof (Hin r2 c2 Hr2) as Hin2.
  assert (r2 ≠ 0) by by eapply wf_nonzero. destruct (decide (cr_group c2 = cr_group c1 ∧ signature c2 = signature c1)) as [[Hg Hs]|Hb].
  - rewrite (bool_decide_eq_true_2 (_ ∧ _)) by done. intros Hl2. rewrite bool_decide_eq_true_2 in Hl by tauto. by eapply flushed_remaining.
  - rewrite (bool_decide_eq_false_2 (_ ∧ _)) by done. destruct (decide (r2 ∈ rs)) as [Hin'|Hin'].
    + rewrite bool_decide_eq_true_2 in Hl by done. unfold flushed_life in Hl. rewrite bool_decide_eq_false_2 in Hl; [by injection Hl as -> ->|].
      intros He. apply Hb. split; [tauto|done].
    + rewrite bool_decide_eq_false_2 in Hl by done. by subst c2'.
Qed.
(** Two records of [a.local], received in the same second: one of 10 seconds at 1001 and a new one of 20 seconds at 1002. *)
Definition noon : list operation := [OpReceive 0 (address_record a_local 20 busy_morning)].
Definition busy_noon : mDNS := get_ret busy_morning (run_ops (H := small_platform busy_client) busy_morning noon).
Lemma noon_ready : ready busy_noon.
Proof.
  apply (steps_ready (H := small_platform busy_client) busy_morning noon); [exact morning_ready| |vm_compute; reflexivity].
  unfold noon. next_op busy_morning; [apply address_received|apply allowed_nil].
Qed.
Definition noon_record : CacheRecord := match m_ents busy_noon !! 1002 with Some (ERecord cr) => cr | _ => zero_record end.
Lemma flush_set_lives_witness : cache_wf 0 0 busy_noon ∧ m_ents busy_noon !! 1002 = Some (ERecord noon_record) ∧
  ∃ h m', members_of busy_noon (cr_group noon_record) = Ret h ∧
    for_members (list_fuel busy_noon) (flush_member (H := small_platform busy_client) 1002) busy_noon h = Ret m' ∧
    ∀ r2 c2, m_ents busy_noon !! r2 = Some (ERecord c2) → ∃ c2', m_ents m' !! r2 = Some (ERecord c2') ∧
      if bool_decide (cr_group c2 = cr_group noon_record ∧ signature c2 = signature noon_record) then
        lasting (H := small_platform busy_client) c2 →
        if fresh (H := small_platform busy_client) busy_noon c2
        then remaining (H := small_platform busy_client) m' c2' = (if 1 <? ttl_of noon_record then ttl_of noon_record else ttl_of c2) * 1000
        else remaining (H := small_platform busy_client) m' c2' ≤ Z.min (remaining (H := small_platform busy_client) busy_noon c2) 1000
      else ttl_of c2' = ttl_of c2 ∧ cr_TimeRcvd c2' = cr_TimeRcvd c2.
Proof.
  pose proof (good_wf _ _ _ (rd_good _ noon_ready)) as Hw.
  assert (m_ents busy_noon !! 1002 = Some (ERecord noon_record)) as Hr by (vm_compute; reflexivity).
  split; [exact Hw|]. split; [exact Hr|].
  apply (flush_set_lives (H := small_platform busy_client) busy_noon 1002 noon_record Hw Hr); [vm_compute; reflexivity|].
  split; vm_compute; discriminate.
Defined.
(** The record of 10 seconds has 20 seconds to live after the flush. *)
Example flush_extends : let m' := get_ret busy_noon (for_members (list_fuel busy_noon) (flush_member (H := small_platform busy_client) 1002) busy_noon 1001) in
  (remaining (H := small_platform busy_client) busy_noon <$> (match m_ents busy_noon !! 1001 with Some (ERecord cr) => Some cr | _ => None end)) = Some 10000 ∧
  (remaining (H := small_platform busy_client) m' <$> (match m_ents m' !! 1001 with Some (ERecord cr) => Some cr | _ => None end)) = Some 20000.
Proof. split; vm_compute; reflexivity. Qed.
